(* ===== verification/_CoqProject ===== *)
-Q . S2P
Prelude.v
Decimal.v
Index.v
GridCell.v
Row.v
Storage.v
Ansi.v
Grid.v
GridFacts.v
GridOps.v
Cell.v
Resize.v
ResizeFacts.v
ReflowText.v
ReflowShrink.v
ReflowGrow.v
Selection.v
Term.v
TermFacts.v
TermOps.v
Handler.v
HandlerFacts.v
HandlerEdit.v
HandlerSafe.v
Session.v
Search.v
SearchFacts.v
RegexSearch.v
RegexFacts.v
ViMode.v
ViFacts.v
HintLabels.v
Hints.v
Scheduler.v
EventLoop.v
PtyLoop.v
FrameDamage.v
Shortener.v
MessageBar.v
Keyboard.v
ActionContext.v
DisplaySize.v
DisplayState.v
ActionFacts.v
Bindings.v
InputProcessor.v
PointerInput.v
Atlas.v
ConfigFiles.v
BindingConfig.v
ColorList.v
Overrides.v
Migrate.v
Content.v
RenderLines.v
TextRender.v
Draw.v
Dispatch.v
Monitor.v
AppEvents.v
Manager.v
HandlerClaims.v
TermClaims.v
Demo.v
Witnesses.v
DisplayClaims.v
SearchClaims.v
ViClaims.v
ResizeClaims.v
ReflowClaims.v
RegexClaims.v
HintClaims.v
ActionClaims.v
InputClaims.v
PointerClaims.v
ContentClaims.v
DrawClaims.v
DispatchClaims.v
AppClaims.v
Findings.v
