(* ===== verification/Prelude.v ===== *)
(** * A verification of Alacritty and its manager application

    The repository holds the terminal emulation library [alacritty_terminal], the
    application [alacritty] around it, and a manager of connections with a Tauri back
    end, [manager-tauri].  This development translates their logic into executable
    definitions and proves the properties that make it correct.

    ** The parts and how they interact

    Bytes from the pseudo terminal are read by the event loop (event_loop.rs) and
    parsed by the crate vte, which calls the methods of [impl Handler for Term]
    (term/mod.rs).  These change the grid (grid/), a ring buffer of rows of cells, and
    the rest of the terminal's state, and send events to the application.  The
    application (alacritty/src) turns keys, mouse and paste into bytes for the pseudo
    terminal, which the event loop writes, and into scrolling, selections, searches and
    hints on the terminal; it redraws the damaged parts of the window.  The manager
    keeps connection profiles in a file and opens terminals for them.

    ** Files

    Basics.
    - Prelude.v: executions that may panic ([exec], a monad), the weakest precondition
      [wp] with its tactics, machine integers at their width, vectors indexed by
      integers, bit flags.
    - Decimal.v: printing of numbers and reading them back.

    The terminal library, alacritty_terminal/src.
    - Index.v: index.rs and the trait [Dimensions].
    - GridCell.v, Cell.v: term/cell.rs and the traits of grid cells, a class with laws.
    - Row.v: grid/row.rs.  Storage.v: grid/storage.rs.
    - Grid.v, with GridFacts.v and GridOps.v: grid/mod.rs.
    - Resize.v, ResizeFacts.v, ResizeClaims.v: grid/resize.rs.  ReflowText.v,
      ReflowShrink.v, ReflowGrow.v, ReflowClaims.v: the text of wrapped lines and that
      rewrapping keeps it.
    - Ansi.v: the types of vte the code matches on, and a class [Ansi] for the rest of
      vte, unicode-width and base64 that the code calls, with its laws [AnsiLaws].
    - Selection.v: selection.rs.
    - Term.v, with TermFacts.v and TermOps.v: the state in term/mod.rs, term/color.rs.
    - Handler.v, with HandlerFacts.v, HandlerEdit.v, HandlerSafe.v and HandlerClaims.v:
      [impl Handler for Term].
    - Session.v, TermClaims.v: sequences of calls by parser and application.
    - Search.v, SearchFacts.v, SearchClaims.v: term/search.rs without expressions, and
      the extraction of text.
    - RegexSearch.v, RegexFacts.v, RegexClaims.v: the regular expression search.
    - ViMode.v, ViFacts.v, ViClaims.v: vi_mode.rs.
    - EventLoop.v: event_loop.rs, one read, write or drain of the channel.  PtyLoop.v: the
      loop around them.

    The application, alacritty/src.
    - Scheduler.v: scheduler.rs.  Shortener.v: string.rs.  MessageBar.v: message_bar.rs.
    - FrameDamage.v: display/damage.rs.
    - HintLabels.v, Hints.v, HintClaims.v: display/hint.rs.
    - Keyboard.v: input/keyboard.rs.
    - ActionContext.v, ActionFacts.v, ActionClaims.v: the actions of event.rs and the
      mouse in input/mod.rs.
    - Bindings.v: config/bindings.rs, bindings with their default tables.
    - InputProcessor.v, InputClaims.v: input/mod.rs and input/keyboard.rs, what a key, a
      button, a motion or the focus does, with the actions of bindings.
    - PointerInput.v, PointerClaims.v: wheels and touch screens in input/mod.rs, event.rs.
    - DisplaySize.v, DisplayState.v, DisplayClaims.v: display/mod.rs, the sizes of windows,
      the update of the display, highlighted hints and the frame timer.
    - ConfigFiles.v: config/mod.rs, config/serde_utils.rs.  BindingConfig.v: the reading
      of bindings in config/bindings.rs.
    - ColorList.v: display/color.rs, config/color.rs.
    - Content.v, ContentClaims.v: display/content.rs.
    - RenderLines.v: the lines of renderer/rects.rs.  Atlas.v: renderer/text/atlas.rs.
    - TextRender.v: the glyph cache and the batches of renderer/text.
    - Draw.v, DrawClaims.v: drawing in display/mod.rs, with the texts over the grid.
    - Dispatch.v, DispatchClaims.v: window_context.rs and the handling of events in
      event.rs, one window with its queue, font size, bell and configuration.
    - Monitor.v: config/monitor.rs.  Overrides.v: cli.rs, the overrides of options.
    - Migrate.v: migrate/mod.rs, migrate/yaml.rs.
    - AppEvents.v, AppClaims.v: [Processor] of event.rs, the application with its windows.

    The manager, manager-tauri/src-tauri/src/lib.rs: Manager.v.

    Demo.v and Witnesses.v hold concrete terminals on which the theorems are applied;
    Findings.v and the ends of other files hold examples of behaviour that the code
    probably does not mean to have.

    Each struct is a record, each enum an inductive type, and each method a definition
    with the name of the method (prefixed where names clash) that takes the state and
    returns the new one in [exec].  Events, channels, clipboards and spawned commands
    are lists in the order of sending.

    ** What the theorems show

    - The terminal. No sequence of calls at a fixed size panics, short of a push on a full
      keyboard mode stack, and every state satisfies an invariant ([session_never_panics],
      [session_invariant]): cursors and selections are inside of the grid, the scrolling
      region inside of the screen, all rows have the width of the grid, the ring buffer is
      consistent. The ring buffer refines a list of rows. Printing, line feeds, scrolling,
      editing and clearing of lines and of the screen, cursor movement, the alternate
      screen and resizing without reflow do exactly what they should to every cell.
      Resizing with reflow keeps the text of the lines ([resize_keeps_text]), for rows as
      the terminal writes them. The damage that is reported covers every changed cell.
    - Searches and hints. Bracket search finds the matching bracket, the regular
      expression search terminates, the motions of vi mode end in the grid and those over
      words stop where words do, typing the label of a hint selects its match, a hyperlink
      under the mouse is extended as far as it goes.
    - Input and output. The event loop parses what it reads and writes what it is sent in
      order, with nothing lost, in every run of its loop ([pty_loop_delivers]); pasted
      text cannot leave its brackets; mouse reports and key sequences can be decoded;
      timers fire when they are due; the search history stays within its bounds.
    - Keys and configuration. Without bindings, searches or vi mode in the way a key is
      typed, and a key that one of them takes never reaches the shell; wheels and
      touchpads scroll exactly as far as they are moved, and every gesture on a touch
      screen ends once the fingers are lifted; configured bindings replace the default
      ones they overlap with; a binding does not depend on the order of its fields and
      every action has a name; a configuration file takes precedence over its imports and
      survives their errors and cycles. Migrating a configuration moves the renamed
      options and nothing else, and one that fails its dry run writes no file.
    - Display. A frame draws every displayed cell that has visible content, at its place,
      and the cell under the cursor; matches are highlighted exactly, also overlapping
      ones; underlines and strikeouts cover exactly the cells that have them; glyphs in a
      texture never overlap; the table of colours has what it should at every index.
      Damage rectangles cover the damaged cells and stay in the window; shortened texts
      fit; ASCII messages keep all their visible characters. An update of the display
      leaves display, terminal, damage tracker and event loop with the same size
      ([handle_update_in_step]); a window has as many cells as fit into it; frames keep
      the pace of the monitor. Every text that is drawn over the grid is damaged in its
      frame and in the next one, so that it appears and vanishes
      ([overlays_are_repainted]). Drawing with cached glyphs and in batches is drawing
      every character by itself, from the right texture ([glyphs_reach_screen]).
    - Windows and the application. The events of a window that arrive between two waits
      are handled together, in order and completely ([events_are_batched]); the answers of
      a terminal reach its program in order; a changed configuration file is reloaded once
      and the new configuration reaches every window, with its own overrides; a terminal
      that exits closes its window and nothing else ([exit_closes_window]).
    - The manager. The script that connects with a password runs exactly one command with
      the password as one argument, for passwords and hosts without the characters the
      code does not protect; profiles survive a restart; connecting to an unknown profile
      is an error that changes nothing.

    ** Bounds and fuel

    Integers have their width: overflow panics, as in debug builds.  The invariant
    bounds a screen by 2^29 lines and 2^30 columns, and a session by the number of lines
    that may scroll through it ([session_budget]), so that the 32 bit positions of
    selections cannot overflow; real screens are far below.  Loops that are not
    structural take fuel; running out of it is [Panic OutOfFuel], and the theorems that
    an operation returns [Ok] give fuel that is enough: the number of cells for searches,
    the number of bytes for the event loop, the number of timers for the scheduler.

    ** What is not modelled

    Processes, threads, file descriptors and signals; opening of windows, OpenGL, the
    built-in font and pixels of lines; deserialisation by derived code; the tables of
    bindings of macOS and Windows. What opens a window ([WindowContext::initial] and
    [additional]) and what reads the configuration again are parameters of AppEvents.v.
    Crates outside of the repository are parameters, with what the code relies on as laws
    or hypotheses: vte, unicode-width and base64 (class [Ansi]), regex-automata
    ([LazyDfa]), the operating system ([Manager.Os], readers and writers of EventLoop.v),
    serde (a pair of functions). Pixels of the application are whole numbers where the
    source uses floats.

    Planned next: resizing within sessions, the defaults of the configuration. *)

From stdpp Require Export base tactics decidable option list list_numbers numbers strings pretty.
From Stdlib Require Export ZArith Lia.

(** ** Executions that may panic

    Rust code of the repository either returns a value or panics.  [exec A] is
    the result of running such code; [panic_kind] names why it stopped.  The
    model follows the debug profile: arithmetic overflow and [debug_assert!]
    are checked.  A theorem that an operation returns [Ok] therefore also
    speaks about the release profile, where the same run meets no overflow. *)

Inductive panic_kind :=
  | PanicOverflow
  | PanicIndex
  | PanicAssert
  | PanicUnwrap
  | PanicMemory
  | OutOfFuel.

Inductive exec (A : Type) :=
  | Ok (a : A)
  | Panic (k : panic_kind).
Arguments Ok {A} a.
Arguments Panic {A} k.

#[global] Instance exec_ret : MRet exec := @Ok.
#[global] Instance exec_bind : MBind exec := λ A B f m,
  match m with Ok a => f a | Panic k => Panic k end.

(** [wp m Q]: the run [m] does not panic and its value satisfies [Q]. *)
Definition wp {A} (m : exec A) (Q : A → Prop) : Prop :=
  match m with Ok a => Q a | Panic _ => False end.

Section wp_rules.
Context {A B : Type}.
Implicit Types (m : exec A) (Q : A → Prop).

Lemma wp_ret (a : A) Q : Q a → wp (mret a) Q.
Proof. done. Qed.

Lemma wp_ok (a : A) Q : Q a → wp (Ok a) Q.
Proof. done. Qed.

Lemma wp_bind m (f : A → exec B) (Q : B → Prop) :
  wp m (λ a, wp (f a) Q) → wp (mbind f m) Q.
Proof. by destruct m. Qed.

Lemma wp_mono m Q Q' : wp m Q → (∀ a, Q a → Q' a) → wp m Q'.
Proof. destruct m; naive_solver. Qed.

Lemma wp_iff m Q : wp m Q ↔ ∃ a, m = Ok a ∧ Q a.
Proof. destruct m; naive_solver. Qed.

Lemma wp_exists m Q : wp m Q → ∃ a, m = Ok a ∧ Q a.
Proof. apply wp_iff. Qed.

Lemma wp_and m Q Q' : wp m Q → wp m Q' → wp m (λ a, Q a ∧ Q' a).
Proof. destruct m; naive_solver. Qed.

Lemma wp_if (b : bool) (m1 m2 : exec A) Q :
  (b = true → wp m1 Q) → (b = false → wp m2 Q) → wp (if b then m1 else m2) Q.
Proof. destruct b; auto. Qed.

Lemma wp_is m a : wp m (λ x, x = a) → m = Ok a.
Proof. destruct m; simpl; [by intros ->|done]. Qed.

Lemma wp_eq m Q a : m = Ok a → Q a → wp m Q.
Proof. by intros ->. Qed.
End wp_rules.

Definition assert_ (b : bool) : exec () := if b then Ok () else Panic PanicAssert.

Definition unwrap {A} (o : option A) : exec A :=
  match o with Some a => Ok a | None => Panic PanicUnwrap end.

Lemma wp_assert (b : bool) Q : b = true → Q () → wp (assert_ b) Q.
Proof. by intros ->. Qed.

Lemma wp_unwrap {A} (o : option A) a Q : o = Some a → Q a → wp (unwrap o) Q.
Proof. by intros ->. Qed.

#[local] Open Scope Z_scope.

(** ** Machine integers

    A Rust integer is the [Z] it denotes.  [usize] and [isize] are 64 bits
    wide.  [+], [-], [*] and unary [-] of the source are the checked operations
    below, an [as] cast is the wrapping conversion. *)

Definition i32_min : Z := -2147483648.
Definition i32_max : Z := 2147483647.
Definition usize_max : Z := 18446744073709551615.
Definition isize_min : Z := -9223372036854775808.
Definition isize_max : Z := 9223372036854775807.

Definition in_i32 (z : Z) : bool := (i32_min <=? z) && (z <=? i32_max).
Definition in_usize (z : Z) : bool := (0 <=? z) && (z <=? usize_max).
Definition in_isize (z : Z) : bool := (isize_min <=? z) && (z <=? isize_max).

Definition in_u16 (z : Z) : bool := (0 <=? z) && (z <=? 65535).

Definition checked (range : Z → bool) (z : Z) : exec Z :=
  if range z then Ok z else Panic PanicOverflow.

Definition i32_add (a b : Z) : exec Z := checked in_i32 (a + b).
Definition i32_sub (a b : Z) : exec Z := checked in_i32 (a - b).
Definition i32_neg (a : Z) : exec Z := checked in_i32 (- a).
Definition usize_add (a b : Z) : exec Z := checked in_usize (a + b).
Definition usize_sub (a b : Z) : exec Z := checked in_usize (a - b).
Definition usize_mul (a b : Z) : exec Z := checked in_usize (a * b).
Definition u16_sub (a b : Z) : exec Z := checked in_u16 (a - b).
Definition u16_mul (a b : Z) : exec Z := checked in_u16 (a * b).
Definition isize_add (a b : Z) : exec Z := checked in_isize (a + b).
Definition isize_neg (a : Z) : exec Z := checked in_isize (- a).

(** [usize::saturating_sub], on values that are in range. *)
Definition saturating_sub (a b : Z) : Z := Z.max 0 (a - b).

(** [x as i32], [x as usize], [x as isize]. *)
Definition as_i32 (z : Z) : Z := (z + 2147483648) mod 4294967296 - 2147483648.
Definition as_usize (z : Z) : Z := z mod 18446744073709551616.
Definition as_isize (z : Z) : Z :=
  (z + 9223372036854775808) mod 18446744073709551616 - 9223372036854775808.

(** [a / b] and [a % b] on [usize]: division by zero panics. *)
Definition usize_div (a b : Z) : exec Z :=
  if b =? 0 then Panic PanicOverflow else Ok (a / b).
Definition usize_rem (a b : Z) : exec Z :=
  if b =? 0 then Panic PanicOverflow else Ok (a mod b).
(** [a % b] on [i32] truncates toward zero. *)
Definition i32_rem (a b : Z) : exec Z :=
  if b =? 0 then Panic PanicOverflow
  else if (a =? i32_min) && (b =? -1) then Panic PanicOverflow
  else Ok (Z.rem a b).

Lemma as_i32_id z : -2147483648 ≤ z ≤ 2147483647 → as_i32 z = z.
Proof. unfold as_i32. intros. rewrite Z.mod_small; lia. Qed.
Lemma as_usize_id z : 0 ≤ z ≤ 18446744073709551615 → as_usize z = z.
Proof. unfold as_usize. intros. rewrite Z.mod_small; lia. Qed.
Lemma as_isize_id z :
  -9223372036854775808 ≤ z ≤ 9223372036854775807 → as_isize z = z.
Proof. unfold as_isize. intros. rewrite Z.mod_small; lia. Qed.

Lemma as_i32_range z : -2147483648 ≤ as_i32 z ≤ 2147483647.
Proof.
  unfold as_i32. pose proof (Z.mod_pos_bound (z + 2147483648) 4294967296). lia.
Qed.

Section checked_rules.
Implicit Types (a b : Z) (Q : Z → Prop).

Lemma wp_checked range z Q : range z = true → Q z → wp (checked range z) Q.
Proof. unfold checked. by intros ->. Qed.

Lemma wp_i32_add a b Q : -2147483648 ≤ a + b ≤ 2147483647 → Q (a + b) → wp (i32_add a b) Q.
Proof. intros. apply wp_checked; [unfold in_i32, i32_min, i32_max; lia|done]. Qed.
Lemma wp_i32_sub a b Q : -2147483648 ≤ a - b ≤ 2147483647 → Q (a - b) → wp (i32_sub a b) Q.
Proof. intros. apply wp_checked; [unfold in_i32, i32_min, i32_max; lia|done]. Qed.
Lemma wp_i32_neg a Q : -2147483648 ≤ - a ≤ 2147483647 → Q (- a) → wp (i32_neg a) Q.
Proof. intros. apply wp_checked; [unfold in_i32, i32_min, i32_max; lia|done]. Qed.
Lemma wp_usize_add a b Q : 0 ≤ a + b ≤ 18446744073709551615 → Q (a + b) → wp (usize_add a b) Q.
Proof. intros. apply wp_checked; [unfold in_usize, usize_max; lia|done]. Qed.
Lemma wp_usize_sub a b Q : 0 ≤ a - b ≤ 18446744073709551615 → Q (a - b) → wp (usize_sub a b) Q.
Proof. intros. apply wp_checked; [unfold in_usize, usize_max; lia|done]. Qed.
Lemma wp_usize_mul a b Q : 0 ≤ a * b ≤ 18446744073709551615 → Q (a * b) → wp (usize_mul a b) Q.
Proof. intros. apply wp_checked; [unfold in_usize, usize_max; lia|done]. Qed.
Lemma wp_u16_sub a b Q : 0 ≤ a - b ≤ 65535 → Q (a - b) → wp (u16_sub a b) Q.
Proof. intros. apply wp_checked; [unfold in_u16; lia|done]. Qed.
Lemma wp_isize_add a b Q :
  -9223372036854775808 ≤ a + b ≤ 9223372036854775807 → Q (a + b) → wp (isize_add a b) Q.
Proof. intros. apply wp_checked; [unfold in_isize, isize_min, isize_max; lia|done]. Qed.
Lemma wp_isize_neg a Q :
  -9223372036854775808 ≤ - a ≤ 9223372036854775807 → Q (- a) → wp (isize_neg a) Q.
Proof. intros. apply wp_checked; [unfold in_isize, isize_min, isize_max; lia|done]. Qed.
Lemma wp_usize_div a b Q : 0 < b → Q (a / b) → wp (usize_div a b) Q.
Proof. unfold usize_div. intros. destruct (Z.eqb_spec b 0); [lia|done]. Qed.
Lemma wp_usize_rem a b Q : 0 < b → Q (a mod b) → wp (usize_rem a b) Q.
Proof. unfold usize_rem. intros. destruct (Z.eqb_spec b 0); [lia|done]. Qed.
Lemma wp_i32_rem a b Q : 0 < b → Q (Z.rem a b) → wp (i32_rem a b) Q.
Proof.
  unfold i32_rem. intros. destruct (Z.eqb_spec b 0); [lia|].
  destruct (Z.eqb_spec b (-1)); [lia|]. by rewrite andb_false_r.
Qed.
End checked_rules.

Lemma i32_add_ok a b : -2147483648 ≤ a + b ≤ 2147483647 → i32_add a b = Ok (a + b).
Proof. intros H. by destruct (proj1 (wp_iff _ _) (wp_i32_add a b (eq (a + b)) H eq_refl)) as (? & ? & <-). Qed.
Lemma i32_sub_ok a b : -2147483648 ≤ a - b ≤ 2147483647 → i32_sub a b = Ok (a - b).
Proof. intros H. by destruct (proj1 (wp_iff _ _) (wp_i32_sub a b (eq (a - b)) H eq_refl)) as (? & ? & <-). Qed.
Lemma usize_add_ok a b : 0 ≤ a + b ≤ 18446744073709551615 → usize_add a b = Ok (a + b).
Proof. intros H. by destruct (proj1 (wp_iff _ _) (wp_usize_add a b (eq (a + b)) H eq_refl)) as (? & ? & <-). Qed.
Lemma usize_sub_ok a b : 0 ≤ a - b ≤ 18446744073709551615 → usize_sub a b = Ok (a - b).
Proof. intros H. by destruct (proj1 (wp_iff _ _) (wp_usize_sub a b (eq (a - b)) H eq_refl)) as (? & ? & <-). Qed.
Lemma usize_div_ok a b : 0 < b → usize_div a b = Ok (a / b).
Proof. intros H. by destruct (proj1 (wp_iff _ _) (wp_usize_div a b (eq (a / b)) H eq_refl)) as (? & ? & <-). Qed.
Lemma usize_rem_ok a b : 0 < b → usize_rem a b = Ok (a mod b).
Proof. intros H. by destruct (proj1 (wp_iff _ _) (wp_usize_rem a b (eq (a mod b)) H eq_refl)) as (? & ? & <-). Qed.

(** ** Vectors

    A [Vec] is a list; indices are [Z] and an index outside of the vector
    panics. *)

Definition zlen {A} (l : list A) : Z := Z.of_nat (length l).

Definition zlookup {A} (l : list A) (i : Z) : option A :=
  if 0 <=? i then l !! Z.to_nat i else None.

Definition vec_get {A} (l : list A) (i : Z) : exec A :=
  match zlookup l i with Some a => Ok a | None => Panic PanicIndex end.

Definition vec_set {A} (l : list A) (i : Z) (a : A) : exec (list A) :=
  if (0 <=? i) && (i <? zlen l) then Ok (<[Z.to_nat i := a]> l) else Panic PanicIndex.

(** [v[i] = f(v[i])], for an access through [&mut v[i]]. *)
Definition vec_modify {A} (l : list A) (i : Z) (f : A → A) : exec (list A) :=
  a ← vec_get l i; vec_set l i (f a).

(** [slice::swap]. *)
Definition vec_swap {A} (l : list A) (i j : Z) : exec (list A) :=
  a ← vec_get l i; b ← vec_get l j;
  l ← vec_set l i b; vec_set l j a.

(** [&mut v[a..b]] with every element of the slice replaced through [f]. *)
Definition vec_map_range {A} (l : list A) (a b : Z) (f : A → A) : exec (list A) :=
  if (0 <=? a) && (a <=? b) && (b <=? zlen l)
  then Ok (take (Z.to_nat a) l
           ++ (f <$> take (Z.to_nat (b - a)) (drop (Z.to_nat a) l))
           ++ drop (Z.to_nat b) l)
  else Panic PanicIndex.

Section vectors.
Context {A : Type}.
Implicit Types (l : list A) (i j : Z) (a : A).

Lemma zlen_nonneg l : 0 ≤ zlen l.
Proof. unfold zlen; lia. Qed.

Lemma zlookup_spec l i a :
  zlookup l i = Some a ↔ 0 ≤ i ∧ l !! Z.to_nat i = Some a.
Proof. unfold zlookup. destruct (Z.leb_spec 0 i); naive_solver lia. Qed.

Lemma zlookup_nat l i : 0 ≤ i → zlookup l i = l !! Z.to_nat i.
Proof. unfold zlookup. destruct (Z.leb_spec 0 i); [done|lia]. Qed.

Lemma zlookup_bound l i a : zlookup l i = Some a → 0 ≤ i < zlen l.
Proof.
  rewrite zlookup_spec. intros [? H%lookup_lt_Some]. unfold zlen. lia.
Qed.

Lemma zlookup_some l i : 0 ≤ i < zlen l → ∃ a, zlookup l i = Some a.
Proof.
  intros [? ?]. unfold zlen in *. rewrite zlookup_nat by done.
  apply lookup_lt_is_Some_2. lia.
Qed.

Lemma zlookup_none l i : zlookup l i = None ↔ i < 0 ∨ zlen l ≤ i.
Proof.
  unfold zlookup, zlen. destruct (Z.leb_spec 0 i).
  - rewrite lookup_ge_None. lia.
  - split; [lia|done].
Qed.

Lemma zlen_insert l n a : zlen (<[n:=a]> l) = zlen l.
Proof. unfold zlen. by rewrite length_insert. Qed.

Lemma zlen_app l l' : zlen (l ++ l') = zlen l + zlen l'.
Proof. unfold zlen. rewrite length_app. lia. Qed.

Lemma zlen_replicate n a : zlen (replicate n a) = Z.of_nat n.
Proof. unfold zlen. by rewrite length_replicate. Qed.

Lemma zlen_take l n : zlen (take n l) = Z.min (Z.of_nat n) (zlen l).
Proof. unfold zlen. rewrite length_take. lia. Qed.

Lemma zlen_drop l n : zlen (drop n l) = Z.max 0 (zlen l - Z.of_nat n).
Proof. unfold zlen. rewrite length_drop. lia. Qed.

Lemma zlookup_insert l i j a :
  0 ≤ i < zlen l →
  zlookup (<[Z.to_nat i:=a]> l) j = if j =? i then Some a else zlookup l j.
Proof.
  intros [Hi Hl]. unfold zlookup, zlen in *. destruct (Z.leb_spec 0 j).
  - destruct (Z.eqb_spec j i) as [->|].
    + apply list_lookup_insert_eq. lia.
    + apply list_lookup_insert_ne. lia.
  - destruct (Z.eqb_spec j i); [lia|done].
Qed.

Lemma wp_vec_get l i (Q : A → Prop) :
  0 ≤ i < zlen l → (∀ a, zlookup l i = Some a → Q a) → wp (vec_get l i) Q.
Proof.
  intros H HQ. destruct (zlookup_some l i H) as [a Ha].
  unfold vec_get. rewrite Ha. by apply HQ.
Qed.

Lemma vec_get_ok l i a : zlookup l i = Some a → vec_get l i = Ok a.
Proof. unfold vec_get. by intros ->. Qed.

Lemma wp_vec_set l i a (Q : list A → Prop) :
  0 ≤ i < zlen l → Q (<[Z.to_nat i := a]> l) → wp (vec_set l i a) Q.
Proof.
  intros H HQ. unfold vec_set.
  destruct (Z.leb_spec 0 i), (Z.ltb_spec i (zlen l)); simpl; try lia. done.
Qed.

Lemma wp_vec_modify l i f (Q : list A → Prop) :
  0 ≤ i < zlen l →
  (∀ a, zlookup l i = Some a → Q (<[Z.to_nat i := f a]> l)) →
  wp (vec_modify l i f) Q.
Proof.
  intros H HQ. unfold vec_modify. apply wp_bind, wp_vec_get; [done|].
  intros a Ha. apply wp_vec_set; auto.
Qed.

Lemma wp_vec_swap l i j (Q : list A → Prop) :
  0 ≤ i < zlen l → 0 ≤ j < zlen l →
  (∀ l', zlen l' = zlen l →
     (∀ k, zlookup l' k =
       if k =? j then zlookup l i else if k =? i then zlookup l j else zlookup l k) →
     Q l') →
  wp (vec_swap l i j) Q.
Proof.
  intros Hi Hj HQ. unfold vec_swap.
  apply wp_bind, wp_vec_get; [done|]. intros a Ha.
  apply wp_bind, wp_vec_get; [done|]. intros b Hb.
  apply wp_bind, wp_vec_set; [done|].
  apply wp_vec_set; [by rewrite zlen_insert|].
  apply HQ; [by rewrite !zlen_insert|]. intros k.
  rewrite zlookup_insert by (by rewrite zlen_insert).
  rewrite zlookup_insert by done. rewrite Ha, Hb. done.
Qed.
End vectors.

Lemma zlen_fmap {A B} (f : A → B) (l : list A) : zlen (f <$> l) = zlen l.
Proof. unfold zlen. by rewrite length_fmap. Qed.

Lemma zlookup_fmap {A B} (f : A → B) (l : list A) i :
  zlookup (f <$> l) i = f <$> zlookup l i.
Proof. unfold zlookup. destruct (0 <=? i); [apply list_lookup_fmap|done]. Qed.

Lemma list_eq_zlookup {A} (l l' : list A) :
  (∀ i, zlookup l i = zlookup l' i) → l = l'.
Proof.
  intros H. apply list_eq. intros i. specialize (H (Z.of_nat i)).
  rewrite !zlookup_nat, Nat2Z.id in H by lia. done.
Qed.

Lemma zlookup_take {A} (l : list A) n i :
  zlookup (take n l) i = if i <? Z.of_nat n then zlookup l i else None.
Proof.
  unfold zlookup. destruct (Z.leb_spec 0 i), (Z.ltb_spec i (Z.of_nat n)); try done.
  - apply lookup_take_lt. lia.
  - apply lookup_take_ge. lia.
Qed.

Lemma zlookup_drop {A} (l : list A) n i :
  0 ≤ i → zlookup (drop n l) i = zlookup l (Z.of_nat n + i).
Proof.
  intros. unfold zlookup.
  destruct (Z.leb_spec 0 i), (Z.leb_spec 0 (Z.of_nat n + i)); try lia.
  rewrite lookup_drop. f_equal. lia.
Qed.

Lemma zlookup_app {A} (l l' : list A) i :
  zlookup (l ++ l') i = if i <? zlen l then zlookup l i else zlookup l' (i - zlen l).
Proof.
  unfold zlookup, zlen.
  destruct (Z.leb_spec 0 i), (Z.ltb_spec i (Z.of_nat (length l))),
    (Z.leb_spec 0 (i - Z.of_nat (length l))); try lia; try done.
  - apply lookup_app_l. lia.
  - rewrite lookup_app_r by lia. f_equal. lia.
Qed.

Lemma zlookup_replicate {A} (a : A) n i :
  zlookup (replicate n a) i = if (0 <=? i) && (i <? Z.of_nat n) then Some a else None.
Proof.
  unfold zlookup. destruct (Z.leb_spec 0 i); [|done]. simpl.
  destruct (Z.ltb_spec i (Z.of_nat n)).
  - apply lookup_replicate_2. lia.
  - apply lookup_replicate_None. lia.
Qed.

Lemma zlookup_replicate_in {A} (a : A) n i :
  0 ≤ i < Z.of_nat n → zlookup (replicate n a) i = Some a.
Proof. intros ?. rewrite zlookup_nat by lia. apply lookup_replicate_2. lia. Qed.

Lemma wp_vec_map_range {A} (l : list A) a b f (Q : list A → Prop) :
  0 ≤ a ≤ b → b ≤ zlen l →
  (∀ l', zlen l' = zlen l →
     (∀ k, zlookup l' k = if (a <=? k) && (k <? b) then f <$> zlookup l k else zlookup l k) →
     Q l') →
  wp (vec_map_range l a b f) Q.
Proof.
  intros [Ha Hab] Hb HQ. unfold vec_map_range.
  destruct (Z.leb_spec 0 a), (Z.leb_spec a b), (Z.leb_spec b (zlen l)); simpl; try lia.
  apply HQ.
  - rewrite !zlen_app, zlen_fmap, !zlen_take, !zlen_drop. lia.
  - intros k. rewrite !zlookup_app, zlookup_fmap, zlen_fmap, !zlen_take, zlen_drop.
    destruct (Z.ltb_spec k (Z.min (Z.of_nat (Z.to_nat a)) (zlen l))).
    { rewrite zlookup_take. destruct (Z.ltb_spec k (Z.of_nat (Z.to_nat a))); [|lia].
      destruct (Z.leb_spec a k); [lia|done]. }
    destruct (Z.leb_spec a k); [|lia]. simpl.
    replace (Z.min (Z.of_nat (Z.to_nat a)) (zlen l)) with a by lia.
    replace (Z.min (Z.of_nat (Z.to_nat (b - a))) (Z.max 0 (zlen l - Z.of_nat (Z.to_nat a))))
      with (b - a) by lia.
    destruct (Z.ltb_spec k b), (Z.ltb_spec (k - a) (b - a)); try lia.
    + rewrite zlookup_take. destruct (Z.ltb_spec (k - a) (Z.of_nat (Z.to_nat (b - a)))); [|lia].
      rewrite zlookup_drop by lia. do 2 f_equal. lia.
    + rewrite zlookup_drop by lia. f_equal. lia.
Qed.

(** ** Loops

    [for i in a..b] and [for i in (a..b).rev()] over a state. *)

Fixpoint for_up {S} (n : nat) (i : Z) (f : Z → S → exec S) (s : S) : exec S :=
  match n with
  | O => Ok s
  | Datatypes.S n => s ← f i s; for_up n (i + 1) f s
  end.

Fixpoint for_down {S} (n : nat) (i : Z) (f : Z → S → exec S) (s : S) : exec S :=
  match n with
  | O => Ok s
  | Datatypes.S n => s ← f i s; for_down n (i - 1) f s
  end.

Definition for_range {S} (a b : Z) (f : Z → S → exec S) (s : S) : exec S :=
  for_up (Z.to_nat (b - a)) a f s.

Definition for_range_rev {S} (a b : Z) (f : Z → S → exec S) (s : S) : exec S :=
  for_down (Z.to_nat (b - a)) (b - 1) f s.

(** The invariant [I i] holds before the iteration for [i]. *)
Lemma wp_for_range {S} (I : Z → S → Prop) a b f s (Q : S → Prop) :
  I a s →
  (∀ i s, a ≤ i < b → I i s → wp (f i s) (I (i + 1))) →
  (∀ s, I (Z.max a b) s → Q s) →
  wp (for_range a b f s) Q.
Proof.
  intros H0 Hstep HQ. unfold for_range.
  assert (G : ∀ n i s, a ≤ i ≤ Z.max a b → n = Z.to_nat (b - i) → I i s →
    wp (for_up n i f s) Q).
  { induction n as [|n IH]; intros i s' Hi En HI; simpl.
    - apply HQ. replace (Z.max a b) with i by lia. done.
    - apply wp_bind. eapply wp_mono; [apply Hstep; [lia|done]|].
      intros s'' Hs''. apply IH; [lia|lia|done]. }
  apply G; [lia|done|done].
Qed.

(** For the reversed loop, [I i] holds once the iterations for [i..b] are done. *)
Lemma wp_for_range_rev {S} (I : Z → S → Prop) a b f s (Q : S → Prop) :
  I b s →
  (∀ i s, a ≤ i < b → I (i + 1) s → wp (f i s) (I i)) →
  (∀ s, I (Z.min a b) s → Q s) →
  wp (for_range_rev a b f s) Q.
Proof.
  intros H0 Hstep HQ. unfold for_range_rev.
  assert (G : ∀ n i s, Z.min a b - 1 ≤ i ≤ b - 1 → n = Z.to_nat (i + 1 - a) → I (i + 1) s →
    wp (for_down n i f s) Q).
  { induction n as [|n IH]; intros i s' Hi En HI; simpl.
    - apply HQ. replace (Z.min a b) with (i + 1) by lia. done.
    - apply wp_bind. eapply wp_mono; [apply Hstep; [lia|done]|].
      intros s'' Hs''. apply IH; [lia|lia|by rewrite Z.sub_add]. }
  apply G; [lia|f_equal; lia|by rewrite Z.sub_add].
Qed.

(** ** Automation

    [wp_step] moves a goal [wp m Q] over the next operation of [m]; arithmetic
    side conditions go to [lia].  [casts] removes the [as] casts of values that
    are in range. *)

Create HintDb wp_spec.

Ltac casts :=
  repeat first
    [ rewrite as_i32_id by lia
    | rewrite as_usize_id by lia
    | rewrite as_isize_id by lia ].

Ltac wp_step :=
  lazymatch goal with
  | |- wp (mbind _ _) _ => apply wp_bind
  | |- wp (mret _) _ => apply wp_ret
  | |- wp (Ok _) _ => apply wp_ok
  | |- wp (assert_ _) _ => apply wp_assert; [try lia|]
  | |- wp (i32_add _ _) _ => apply wp_i32_add; [try lia|]
  | |- wp (i32_sub _ _) _ => apply wp_i32_sub; [try lia|]
  | |- wp (i32_neg _) _ => apply wp_i32_neg; [try lia|]
  | |- wp (usize_add _ _) _ => apply wp_usize_add; [try lia|]
  | |- wp (usize_sub _ _) _ => apply wp_usize_sub; [try lia|]
  | |- wp (usize_mul _ _) _ => apply wp_usize_mul; [try lia|]
  | |- wp (u16_sub _ _) _ => apply wp_u16_sub; [try lia|]
  | |- wp (isize_add _ _) _ => apply wp_isize_add; [try lia|]
  | |- wp (isize_neg _) _ => apply wp_isize_neg; [try lia|]
  | |- wp (usize_div _ _) _ => apply wp_usize_div; [try lia|]
  | |- wp (usize_rem _ _) _ => apply wp_usize_rem; [try lia|]
  | |- wp (i32_rem _ _) _ => apply wp_i32_rem; [try lia|]
  | |- wp (vec_get _ _) _ => apply wp_vec_get; [try lia|intros ? ?]
  | |- wp (if _ then _ else _) _ => apply wp_if; intros ?
  | |- wp (let _ := _ in _) _ => cbv zeta
  | |- wp (match ?x with _ => _ end) _ => destruct x eqn:?
  end.

(** [run] evaluates the next arithmetic operation of an [exec] term by rewriting. *)
Ltac run_step :=
  first
    [ rewrite i32_add_ok by lia | rewrite i32_sub_ok by lia
    | rewrite usize_add_ok by lia | rewrite usize_sub_ok by lia
    | rewrite usize_div_ok by lia | rewrite usize_rem_ok by lia ];
  cbn [mbind exec_bind].
Ltac run := repeat (run_step; casts).

Ltac wp_steps := repeat (wp_step; casts).

(** [divmod a b] adds the defining facts of [a / b] and [a mod b] for [0 < b]. *)
Ltac divmod a b :=
  let H := fresh "Hpos" in
  assert (H : 0 < b) by lia;
  pose proof (Z.mod_pos_bound a b H);
  pose proof (Z.div_mod a b (Z.neq_sym _ _ (Z.lt_neq _ _ H))).

(** [wp_use H]: continue after an operation whose specification is [H : wp m P]. *)
Ltac wp_use H := eapply wp_mono; [eapply H|].

(** ** Partial correctness *)

(** A result, unless the operation panics, satisfies [Q]. *)
Definition wlp {A} (m : exec A) (Q : A → Prop) : Prop := match m with Ok a => Q a | Panic _ => True end.

Lemma wlp_bind {A B} (m : exec A) (f : A → exec B) Q : wlp m (λ a, wlp (f a) Q) → wlp (m ≫= f) Q.
Proof. by destruct m. Qed.
Lemma wlp_mono {A} (m : exec A) (P Q : A → Prop) : wlp m P → (∀ a, P a → Q a) → wlp m Q.
Proof. destruct m; simpl; auto. Qed.
Lemma wlp_any {A} (m : exec A) (Q : A → Prop) : (∀ a, Q a) → wlp m Q.
Proof. destruct m; simpl; auto. Qed.

Lemma wlp_and {A} (m : exec A) (P Q : A → Prop) : wlp m P → wlp m Q → wlp m (λ a, P a ∧ Q a).
Proof. by destruct m. Qed.

Lemma wlp_imp {A} (m : exec A) (P : Prop) (Q : A → Prop) : (P → wlp m Q) → wlp m (λ a, P → Q a).
Proof. by destruct m. Qed.

(** ** Bit flags

    The operations the [bitflags!] types of the source use. *)

Module Bitflags.
Definition contains (f g : Z) : bool := Z.land f g =? g.
Definition intersects (f g : Z) : bool := negb (Z.land f g =? 0).
Definition insert (f g : Z) : Z := Z.lor f g.
Definition remove (f g : Z) : Z := Z.ldiff f g.
Definition toggle (f g : Z) : Z := Z.lxor f g.

(** [f.set(g, value)]. *)
Definition set (f g : Z) (value : bool) : Z := if value then insert f g else remove f g.

(** Two flag sets without a common bit. *)
Definition disjoint (f g : Z) : Prop := Z.land f g = 0.

Lemma contains_insert f g : contains (insert f g) g = true.
Proof.
  unfold contains, insert. apply Z.eqb_eq.
  apply Z.bits_inj'. intros n Hn. rewrite Z.land_spec, Z.lor_spec.
  destruct (Z.testbit g n), (Z.testbit f n); done.
Qed.

Lemma remove_disjoint f g : Z.land (remove f g) g = 0.
Proof.
  unfold remove. apply Z.bits_inj'. intros n Hn.
  rewrite Z.land_spec, Z.ldiff_spec, Z.bits_0. destruct (Z.testbit g n), (Z.testbit f n); done.
Qed.

Lemma contains_remove f g : g ≠ 0 → contains (remove f g) g = false.
Proof. intros. unfold contains. rewrite remove_disjoint. apply Z.eqb_neq. done. Qed.

Lemma intersects_remove f g : intersects (remove f g) g = false.
Proof. unfold intersects. by rewrite remove_disjoint. Qed.

Lemma land_insert f g h : disjoint g h → Z.land (insert f g) h = Z.land f h.
Proof.
  unfold disjoint, insert. intros H. rewrite Z.land_lor_distr_l, H. apply Z.lor_0_r.
Qed.

Lemma land_remove f g h : disjoint g h → Z.land (remove f g) h = Z.land f h.
Proof.
  unfold disjoint, remove. intros H. apply Z.bits_inj'. intros n Hn.
  assert (Hb : Z.testbit (Z.land g h) n = false) by (by rewrite H, Z.bits_0).
  rewrite Z.land_spec in Hb. rewrite !Z.land_spec, Z.ldiff_spec.
  destruct (Z.testbit g n), (Z.testbit f n), (Z.testbit h n); done.
Qed.

Lemma contains_insert_other f g h : disjoint g h → contains (insert f g) h = contains f h.
Proof. intros. unfold contains. by rewrite land_insert. Qed.

Lemma contains_remove_other f g h : disjoint g h → contains (remove f g) h = contains f h.
Proof. intros. unfold contains. by rewrite land_remove. Qed.

Lemma insert_remove_id f g : disjoint f g → remove (insert f g) g = f.
Proof.
  unfold disjoint, remove, insert. intros H. apply Z.bits_inj'. intros n Hn.
  assert (Hb : Z.testbit (Z.land f g) n = false) by (by rewrite H, Z.bits_0).
  rewrite Z.land_spec in Hb. rewrite Z.ldiff_spec, Z.lor_spec.
  destruct (Z.testbit g n), (Z.testbit f n); done.
Qed.
(** A flag of one bit. *)
Lemma contains_bit f n : 0 ≤ n → contains f (2 ^ n) = Z.testbit f n.
Proof.
  intros Hn. unfold contains. assert (Hp : ∀ k, Z.testbit (2 ^ n) k = (n =? k))
    by (intros k; by apply Z.pow2_bits_eqb). destruct (Z.eqb_spec (Z.land f (2 ^ n)) (2 ^ n)) as [E|E].
  - apply (f_equal (λ z, Z.testbit z n)) in E. rewrite Z.land_spec, Hp, Z.eqb_refl in E.
    by destruct (Z.testbit f n).
  - destruct (Z.testbit f n) eqn:Hf; [|done]. destruct E. apply Z.bits_inj'. intros k _.
    rewrite Z.land_spec, Hp. destruct (Z.eqb_spec n k) as [->|]; [by rewrite Hf|apply andb_false_r].
Qed.

(** All bits of [g] are among those of [mask]. *)
Definition within (g mask : Z) : Prop := Z.land g mask = g.

Lemma within_bit g mask n : within g mask → Z.testbit g n = true → Z.testbit mask n = true.
Proof. intros Hw Hg. rewrite <- Hw, Z.land_spec in Hg. by destruct (proj1 (andb_true_iff _ _) Hg). Qed.

(** Replacing the bits of [mask] by [g]. *)
Lemma replace_land f mask g : within g mask → Z.land (insert (remove f mask) g) mask = g.
Proof.
  intros Hw. apply Z.bits_inj'. intros n _. pose proof (within_bit g mask n Hw).
  unfold insert, remove. rewrite Z.land_spec, Z.lor_spec, Z.ldiff_spec.
  destruct (Z.testbit f n), (Z.testbit mask n), (Z.testbit g n); simpl; naive_solver.
Qed.

Lemma replace_ldiff f mask g :
  within g mask → Z.ldiff (insert (remove f mask) g) mask = Z.ldiff f mask.
Proof.
  intros Hw. apply Z.bits_inj'. intros n _. pose proof (within_bit g mask n Hw).
  unfold insert, remove. rewrite !Z.ldiff_spec, Z.lor_spec, Z.ldiff_spec.
  destruct (Z.testbit f n), (Z.testbit mask n), (Z.testbit g n); simpl; naive_solver.
Qed.

Lemma within_lor g h mask : within g mask → within h mask → within (Z.lor g h) mask.
Proof. unfold within. intros Hg Hh. by rewrite Z.land_lor_distr_l, Hg, Hh. Qed.

Lemma within_land f mask : within (Z.land f mask) mask.
Proof. unfold within. by rewrite <- Z.land_assoc, Z.land_diag. Qed.

Lemma within_ldiff g h mask : within g mask → within (Z.ldiff g h) mask.
Proof.
  intros Hw. apply Z.bits_inj'. intros n _. pose proof (within_bit g mask n Hw).
  rewrite Z.land_spec, Z.ldiff_spec.
  destruct (Z.testbit mask n), (Z.testbit g n), (Z.testbit h n); simpl; naive_solver.
Qed.

Lemma within_set f g mask b : within f mask → within g mask → within (set f g b) mask.
Proof. intros ? ?. destruct b; [by apply within_lor|by apply within_ldiff]. Qed.
End Bitflags.

(** Flag sets are only reasoned about through the lemmas above. *)
Arguments Bitflags.contains : simpl never.
Arguments Bitflags.intersects : simpl never.
Arguments Bitflags.insert : simpl never.
Arguments Bitflags.remove : simpl never.
Arguments Bitflags.toggle : simpl never.
Arguments Bitflags.set : simpl never.
