(* ===== verification/Decimal.v ===== *)
(** * Decimal numbers

    Printing of integers as the source's [to_string] and format strings do it, and
    a reader that gives them back.  Characters are code points. *)

From S2P Require Import Prelude.
#[local] Open Scope Z_scope.

Notation char := Z (only parsing).
Notation str := (list Z) (only parsing).

(** [n.to_string()]: the digits of a number below [10 ^ fuel]. *)
Fixpoint decimal_digits (fuel : nat) (n : Z) (acc : str) : str :=
  match fuel with
  | O => acc
  | S fuel => if n <? 10 then 48 + n :: acc else decimal_digits fuel (n / 10) (48 + n mod 10 :: acc)
  end.
Definition decimal (n : Z) : str := decimal_digits 20 n [].

Definition is_digit (c : char) : bool := (48 <=? c) && (c <=? 57).

Fixpoint read_num (acc : option Z) (s : str) : option Z * str :=
  match s with
  | c :: s' => if is_digit c then read_num (Some (10 * default 0 acc + (c - 48))) s' else (acc, s)
  | [] => (acc, [])
  end.

Definition no_digit (s : str) : Prop := match s with c :: _ => is_digit c = false | [] => True end.

Lemma read_num_digits fuel : ∀ n acc s,
  0 ≤ n < 10 ^ Z.of_nat (S fuel) →
  ∀ a, ∃ k, 0 ≤ k ∧ read_num a (decimal_digits (S fuel) n acc ++ s)
    = read_num (Some (10 ^ k * default 0 a + n)) (acc ++ s).
Proof.
  induction fuel as [|fuel IH]; intros n acc s Hn a; cbn [decimal_digits];
    (destruct (Z.ltb_spec n 10) as [H10|H10];
      [exists 1; split; [lia|]; simpl; assert (is_digit (48 + n) = true) as -> by (unfold is_digit; lia);
       f_equal; f_equal; lia|]).
  - simpl in Hn. lia.
  - assert (Hn' : 0 ≤ n / 10 < 10 ^ Z.of_nat (S fuel)).
    { split; [apply Z.div_pos; lia|]. apply Z.div_lt_upper_bound; [lia|].
      rewrite Nat2Z.inj_succ, Z.pow_succ_r in Hn by lia. lia. }
    destruct (IH (n / 10) (48 + n mod 10 :: acc) s Hn' a) as (k & Hk & E).
    exists (k + 1). split; [lia|]. cbn [decimal_digits] in E. rewrite E. cbn [app read_num]. divmod n 10.
    assert (is_digit (48 + n mod 10) = true) as -> by (unfold is_digit; lia).
    rewrite Z.pow_add_r by lia. f_equal. f_equal. simpl. lia.
Qed.

Lemma read_num_stop a s : no_digit s → read_num a s = (a, s).
Proof. destruct s as [|c s]; simpl; [done|]. by intros ->. Qed.

(** Code points and codes of keys. *)
Definition is_char (n : Z) : Prop := 0 ≤ n ≤ 1114111.

Lemma read_num_number n s :
  0 ≤ n < 10 ^ 20 → no_digit s → read_num None (decimal n ++ s) = (Some n, s).
Proof.
  intros Hn Hs. destruct (read_num_digits 19 n [] s Hn None) as (k & _ & E).
  unfold decimal. rewrite E. simpl. rewrite read_num_stop by done. by rewrite Z.mul_0_r.
Qed.

Lemma read_num_decimal n s : is_char n → no_digit s → read_num None (decimal n ++ s) = (Some n, s).
Proof. unfold is_char. intros. apply read_num_number; [lia|done]. Qed.

Lemma decimal_cons n : is_char n → ∃ c s, decimal n = c :: s ∧ is_digit c = true.
Proof.
  intros Hn. destruct (decimal n) as [|c s] eqn:E.
  - pose proof (read_num_decimal n [] Hn I) as Hr. by rewrite E in Hr.
  - exists c, s. split; [done|]. destruct (is_digit c) eqn:Hc; [done|].
    pose proof (read_num_decimal n [] Hn I) as Hr. rewrite E in Hr. simpl in Hr. by rewrite Hc in Hr.
Qed.


Lemma decimal_digits_all fuel : ∀ n acc,
  0 ≤ n → Forall (λ c, is_digit c = true) acc → Forall (λ c, is_digit c = true) (decimal_digits fuel n acc).
Proof.
  induction fuel as [|fuel IH]; intros n acc Hn Ha; simpl; [done|]. destruct (Z.ltb_spec n 10).
  - constructor; [unfold is_digit; lia|done].
  - apply IH; [apply Z.div_pos; lia|]. constructor; [divmod n 10; unfold is_digit; lia|done].
Qed.

Lemma decimal_all n : 0 ≤ n → Forall (λ c, is_digit c = true) (decimal n).
Proof. intros. by apply decimal_digits_all. Qed.
