(* ===== verification/Index.v ===== *)
(** * Lines, columns and points (alacritty_terminal/src/index.rs)

    [Line] is an [i32], negative in the scrollback; [Column] is a [usize].  A
    type with dimensions is an instance of the class [Dimensions], the trait of
    grid/mod.rs.  The theorems relate the arithmetic on points to the linear
    order of the cells of a grid. *)

From S2P Require Import Prelude.
#[local] Open Scope Z_scope.

Inductive Direction := Left | Right.
Abbreviation Side := Direction.

Definition opposite (d : Direction) : Direction :=
  match d with Right => Left | Left => Right end.

#[global] Instance Direction_eq_dec : EqDecision Direction.
Proof. solve_decision. Defined.

Inductive Boundary := BCursor | BGrid | BNone.

Record Point := mkPoint { line : Z; column : Z }.

#[global] Instance Point_eq_dec : EqDecision Point.
Proof. solve_decision. Defined.

Definition default_point : Point := mkPoint 0 0.

(** [Ord for Point]: lines first, columns second. *)
Definition point_cmp (p q : Point) : comparison :=
  match line p ?= line q with
  | Eq => column p ?= column q
  | ord => ord
  end.

Definition point_lt (p q : Point) : bool :=
  match point_cmp p q with Lt => true | _ => false end.
Definition point_le (p q : Point) : bool :=
  match point_cmp p q with Gt => false | _ => true end.
Definition point_gt (p q : Point) : bool := point_lt q p.
Definition point_ge (p q : Point) : bool := point_le q p.

(** [Line + usize] and [Line - usize]: the [usize] is cast to [i32]. *)
Definition line_add_usize (l n : Z) : exec Z := i32_add l (as_i32 n).
Definition line_sub_usize (l n : Z) : exec Z := i32_sub l (as_i32 n).

(** ** The [Dimensions] trait *)

Class Dimensions (D : Type) := {
  total_lines : D → Z;
  screen_lines : D → Z;
  columns : D → Z }.

Section dimensions.
Context {D : Type} `{Dimensions D}.
Implicit Type d : D.

Definition last_column d : exec Z := usize_sub (columns d) 1.

Definition history_size d : Z := saturating_sub (total_lines d) (screen_lines d).

Definition topmost_line d : exec Z := i32_neg (as_i32 (history_size d)).

Definition bottommost_line d : exec Z := i32_sub (as_i32 (screen_lines d)) 1.

(** ** Arithmetic *)

(** [Line::grid_clamp]. *)
Definition line_grid_clamp (l : Z) d (b : Boundary) : exec Z :=
  match b with
  | BCursor =>
      bottom ← bottommost_line d;
      mret (Z.max 0 (Z.min bottom l))
  | BGrid =>
      bottom ← bottommost_line d;
      top ← topmost_line d;
      mret (Z.max top (Z.min bottom l))
  | BNone =>
      let screen := as_i32 (screen_lines d) in
      let total := as_i32 (total_lines d) in
      if screen <=? l then
        top ← topmost_line d;
        x ← i32_sub l screen;
        extra ← i32_rem x total;
        i32_add top extra
      else
        bottom ← bottommost_line d;
        x ← i32_sub l screen;
        x ← i32_add x 1;
        extra ← i32_rem x total;
        i32_add bottom extra
  end.

(** [Point::grid_clamp]. *)
Definition grid_clamp (p : Point) d (b : Boundary) : exec Point :=
  last_col ← last_column d;
  let p := mkPoint (line p) (Z.min (column p) last_col) in
  top ← topmost_line d;
  bottom ← bottommost_line d;
  match b with
  | BCursor =>
      if line p <? 0 then mret (mkPoint 0 0)
      else if bottom <? line p then mret (mkPoint bottom last_col)
      else mret p
  | BGrid =>
      if line p <? top then mret (mkPoint top 0)
      else if bottom <? line p then mret (mkPoint bottom last_col)
      else mret p
  | BNone =>
      l ← line_grid_clamp (line p) d b;
      mret (mkPoint l (column p))
  end.

(** [Point::sub]. *)
Definition point_sub (p : Point) d (b : Boundary) (rhs : Z) : exec Point :=
  let cols := columns d in
  x ← usize_add rhs cols;
  x ← usize_sub x 1;
  line_changes ← usize_div (saturating_sub x (column p)) cols;
  l ← i32_sub (line p) (as_i32 line_changes);
  y ← usize_add cols (column p);
  r ← usize_rem rhs cols;
  y ← usize_sub y r;
  c ← usize_rem y cols;
  grid_clamp (mkPoint l c) d b.

(** [Point::add]. *)
Definition point_add (p : Point) d (b : Boundary) (rhs : Z) : exec Point :=
  let cols := columns d in
  x ← usize_add rhs (column p);
  n ← usize_div x cols;
  l ← i32_add (line p) (as_i32 n);
  y ← usize_add (column p) rhs;
  c ← usize_rem y cols;
  grid_clamp (mkPoint l c) d b.
End dimensions.

(** [TermSize], the plain dimensions of term/mod.rs (module [test]). *)
Record TermSize := mkTermSize { ts_columns : Z; ts_screen_lines : Z }.

#[global] Instance TermSize_dimensions : Dimensions TermSize := {
  total_lines := ts_screen_lines;
  screen_lines := ts_screen_lines;
  columns := ts_columns }.

(** ** Properties *)

(** The sizes the code works with: a grid is not empty and its indices fit
    into a quarter of an [i32]. *)
Definition dims_ok {D} `{Dimensions D} (d : D) : Prop :=
  1 ≤ columns d ≤ 1073741824 ∧
  1 ≤ screen_lines d ≤ total_lines d ∧ total_lines d ≤ 536870912.

(** The first line of the scrollback. *)
Definition top_of {D} `{Dimensions D} (d : D) : Z := screen_lines d - total_lines d.

(** A point of the grid, scrollback included. *)
Definition in_grid {D} `{Dimensions D} (d : D) (p : Point) : Prop :=
  top_of d ≤ line p < screen_lines d ∧ 0 ≤ column p < columns d.

(** A point of the active screen. *)
Definition in_screen {D} `{Dimensions D} (d : D) (p : Point) : Prop :=
  0 ≤ line p < screen_lines d ∧ 0 ≤ column p < columns d.

(** The number of the cell [p] in reading order; line 0 starts at 0. *)
Definition linear {D} `{Dimensions D} (d : D) (p : Point) : Z :=
  line p * columns d + column p.

Lemma point_eta (p : Point) : mkPoint (line p) (column p) = p.
Proof. by destruct p. Qed.

Lemma point_lt_spec p q :
  point_lt p q = true ↔ line p < line q ∨ (line p = line q ∧ column p < column q).
Proof.
  unfold point_lt, point_cmp.
  destruct (Z.compare_spec (line p) (line q)), (Z.compare_spec (column p) (column q));
    split; intros; try done; lia.
Qed.

Lemma point_le_spec p q :
  point_le p q = true ↔ line p < line q ∨ (line p = line q ∧ column p ≤ column q).
Proof.
  unfold point_le, point_cmp.
  destruct (Z.compare_spec (line p) (line q)), (Z.compare_spec (column p) (column q));
    split; intros; try done; lia.
Qed.

Lemma point_le_ngt p q : point_le p q = negb (point_lt q p).
Proof.
  apply eq_true_iff_eq. rewrite negb_true_iff, <- not_true_iff_false.
  rewrite point_le_spec, point_lt_spec. lia.
Qed.

Section dimension_facts.
Context {D : Type} `{Dimensions D}.
Context (d : D) (Hd : dims_ok d).

Lemma last_column_ok : last_column d = Ok (columns d - 1).
Proof using Hd.
  destruct Hd. unfold last_column, usize_sub, checked, in_usize, usize_max.
  destruct (_ && _) eqn:E; [done|lia].
Qed.

Lemma history_size_eq : history_size d = - top_of d.
Proof using Hd. destruct Hd. unfold history_size, saturating_sub, top_of. lia. Qed.

Lemma topmost_line_ok : topmost_line d = Ok (top_of d).
Proof using Hd.
  destruct Hd. unfold topmost_line. rewrite history_size_eq. unfold top_of.
  rewrite as_i32_id by lia. unfold i32_neg, checked, in_i32, i32_min, i32_max.
  destruct (_ && _) eqn:E; [f_equal; lia|lia].
Qed.

Lemma bottommost_line_ok : bottommost_line d = Ok (screen_lines d - 1).
Proof using Hd.
  destruct Hd. unfold bottommost_line. rewrite as_i32_id by lia.
  unfold i32_sub, checked, in_i32, i32_min, i32_max.
  destruct (_ && _) eqn:E; [f_equal; lia|lia].
Qed.
End dimension_facts.

Section arithmetic.
Context {D : Type} `{Dimensions D}.
Context (d : D) (Hd : dims_ok d).

Lemma linear_inj p q :
  0 ≤ column p < columns d → 0 ≤ column q < columns d → linear d p = linear d q → p = q.
Proof using Type.
  unfold linear. destruct p as [l c], q as [l' c']; simpl. intros ? ? E.
  assert (l = l') by nia. subst. f_equal. lia.
Qed.

Lemma linear_lt p q :
  0 ≤ column p < columns d → 0 ≤ column q < columns d →
  point_lt p q = true ↔ linear d p < linear d q.
Proof using Type.
  intros. rewrite point_lt_spec. unfold linear. split; [intros [?|[-> ?]]|intros]; nia.
Qed.

Lemma line_grid_clamp_none l :
  -1073741824 ≤ l ≤ 1073741824 →
  line_grid_clamp l d BNone = Ok (top_of d + (l - top_of d) mod total_lines d).
Proof using Hd.
  intros Hl. pose proof Hd as [? [? ?]].
  assert (G : wp (line_grid_clamp l d BNone)
    (λ x, x = top_of d + (l - top_of d) mod total_lines d)).
  { unfold line_grid_clamp. casts. rewrite topmost_line_ok, bottommost_line_ok by done.
    unfold top_of. apply wp_if; intros E.
    - divmod (l - screen_lines d) (total_lines d).
      assert (Z.rem (l - screen_lines d) (total_lines d) = (l - screen_lines d) mod total_lines d)
        by (apply Z.rem_mod_nonneg; lia).
      wp_steps.
      replace (l - (screen_lines d - total_lines d))
        with (l - screen_lines d + 1 * total_lines d) by lia.
      rewrite Z.mod_add; lia.
    - remember (screen_lines d - 1 - l) as x eqn:Ex.
      
      divmod x (total_lines d).
      assert (Z.rem (l - screen_lines d + 1) (total_lines d) = - (x mod total_lines d)).
      { replace (l - screen_lines d + 1) with (- x) by lia.
        rewrite Z.rem_opp_l, Z.rem_mod_nonneg; lia. }
      wp_steps.
      replace (l - (screen_lines d - total_lines d))
        with (total_lines d - 1 - x mod total_lines d + (- (x / total_lines d)) * total_lines d)
        by lia.
      rewrite Z.mod_add by lia. rewrite Z.mod_small; lia. }
  apply wp_iff in G as (? & -> & ->). done.
Qed.

Lemma add_decompose c rhs :
  0 ≤ c < columns d → 0 ≤ rhs →
  ((rhs + c) / columns d) * columns d + (c + rhs) mod columns d = c + rhs ∧
  0 ≤ (c + rhs) mod columns d < columns d ∧ 0 ≤ (rhs + c) / columns d ≤ rhs.
Proof using Hd.
  intros. pose proof Hd as [? _].
  
  divmod (c + rhs) (columns d).
  replace (rhs + c) with (c + rhs) by lia. split; [lia|]. split; [lia|].
  split; [apply Z.div_pos; lia|]. nia.
Qed.

Lemma sub_decompose c rhs :
  0 ≤ c < columns d → 0 ≤ rhs →
  - (saturating_sub (rhs + columns d - 1) c / columns d) * columns d
    + (columns d + c - rhs mod columns d) mod columns d = c - rhs ∧
  0 ≤ (columns d + c - rhs mod columns d) mod columns d < columns d ∧
  0 ≤ saturating_sub (rhs + columns d - 1) c / columns d ≤ rhs.
Proof using Hd.
  intros. pose proof Hd as [? _]. unfold saturating_sub.
  rewrite Z.max_r by lia.
  divmod rhs (columns d).
  set (q := rhs / columns d) in *. set (r := rhs mod columns d) in *.
  assert (E : (rhs + columns d - 1 - c) / columns d = if r <=? c then q else q + 1).
  { destruct (Z.leb_spec r c); symmetry; eapply Z.div_unique_pos with
      (r := if r <=? c then r + columns d - 1 - c else r - 1 - c);
      destruct (Z.leb_spec r c); lia. }
  assert (E' : (columns d + c - r) mod columns d = if r <=? c then c - r else columns d + c - r).
  { destruct (Z.leb_spec r c).
    - replace (columns d + c - r) with (c - r + 1 * columns d) by lia.
      rewrite Z.mod_add, Z.mod_small; lia.
    - apply Z.mod_small. lia. }
  rewrite E, E'. assert (0 ≤ q) by (apply Z.div_pos; lia).
  destruct (Z.leb_spec r c); nia.
Qed.

(** The clamp of a point whose column is in range. *)
Lemma grid_clamp_spec l c b :
  0 ≤ c < columns d → -1073741824 ≤ l ≤ 1073741824 →
  grid_clamp (mkPoint l c) d b =
  Ok (match b with
      | BNone => mkPoint (top_of d + (l - top_of d) mod total_lines d) c
      | _ =>
        let top := match b with BCursor => 0 | _ => top_of d end in
        if l <? top then mkPoint top 0
        else if screen_lines d - 1 <? l then mkPoint (screen_lines d - 1) (columns d - 1)
        else mkPoint l c
      end).
Proof using Hd.
  intros Hc Hl. unfold grid_clamp.
  rewrite last_column_ok, topmost_line_ok, bottommost_line_ok by done.
  cbn [mbind exec_bind line column].
  replace (Z.min c (columns d - 1)) with c by lia.
  destruct b; cbn [line column]; [repeat case_match; done..|].
  by rewrite line_grid_clamp_none by done.
Qed.

Lemma point_add_clamp p b rhs :
  0 ≤ column p < columns d → 0 ≤ rhs ≤ 536870912 → -536870912 ≤ line p ≤ 536870912 →
  ∃ l c, linear d (mkPoint l c) = linear d p + rhs ∧ 0 ≤ c < columns d ∧
    line p ≤ l ≤ 1073741824 ∧
    point_add p d b rhs = grid_clamp (mkPoint l c) d b.
Proof using Hd.
  intros Hc Hr Hl. pose proof Hd as [? _].
  pose proof (add_decompose (column p) rhs ltac:(lia) ltac:(lia)) as (E & ? & ?).
  eexists _, _. split; [|split; [|split]]; last first.
  { unfold point_add. run. reflexivity. }
  all: unfold linear; simpl; lia.
Qed.

Lemma point_sub_clamp p b rhs :
  0 ≤ column p < columns d → 0 ≤ rhs ≤ 536870912 → -536870912 ≤ line p ≤ 536870912 →
  ∃ l c, linear d (mkPoint l c) = linear d p - rhs ∧ 0 ≤ c < columns d ∧
    -1073741824 ≤ l ≤ line p ∧
    point_sub p d b rhs = grid_clamp (mkPoint l c) d b.
Proof using Hd.
  intros Hc Hr Hl. pose proof Hd as [? _].
  pose proof (sub_decompose (column p) rhs ltac:(lia) ltac:(lia)) as (E & ? & ?).
  divmod rhs (columns d).
  eexists _, _. split; [|split; [|split]]; last first.
  { unfold point_sub. run. reflexivity. }
  all: unfold linear; simpl; lia.
Qed.

(** The first line that is reachable under a boundary. *)
Definition clamp_top (b : Boundary) : Z :=
  match b with BCursor => 0 | _ => top_of d end.

Lemma linear_clamp_cases b l c :
  b ≠ BNone → 0 ≤ c < columns d → -1073741824 ≤ l ≤ 1073741824 →
  ∃ q, grid_clamp (mkPoint l c) d b = Ok q ∧
    clamp_top b ≤ line q < screen_lines d ∧ 0 ≤ column q < columns d ∧
    linear d q = Z.max (clamp_top b * columns d)
                   (Z.min (linear d (mkPoint l c)) (screen_lines d * columns d - 1)).
Proof using Hd.
  intros Hb Hc Hl. pose proof Hd as [? [? ?]].
  assert (clamp_top b ≤ 0) by (destruct b; simpl; unfold top_of; lia).
  rewrite grid_clamp_spec by done. unfold linear. cbn [line column].
  set (top := clamp_top b) in *.
  assert (E : match b with BCursor => 0 | _ => top_of d end = top) by (by destruct b).
  replace (match b with
    | BNone => mkPoint (top_of d + (l - top_of d) mod total_lines d) c
    | _ => let top := match b with BCursor => 0 | _ => top_of d end in
        if l <? top then mkPoint top 0
        else if screen_lines d - 1 <? l then mkPoint (screen_lines d - 1) (columns d - 1)
        else mkPoint l c end)
    with (if l <? top then mkPoint top 0
        else if screen_lines d - 1 <? l then mkPoint (screen_lines d - 1) (columns d - 1)
        else mkPoint l c) by (by destruct b).
  clearbody top. eexists; split; [done|].
  destruct (Z.ltb_spec l top); [|destruct (Z.ltb_spec (screen_lines d - 1) l)];
    cbn [line column]; (split; [lia|]); (split; [lia|]); nia.
Qed.

Lemma in_grid_line_bound p : in_grid d p → -536870912 ≤ line p ≤ 536870912.
Proof using Hd. pose proof Hd as [? [? ?]]. unfold in_grid, top_of. lia. Qed.

Lemma point_add_bounded p b rhs :
  b ≠ BNone → in_grid d p → clamp_top b ≤ line p → 0 ≤ rhs ≤ 536870912 →
  ∃ q, point_add p d b rhs = Ok q ∧
    clamp_top b ≤ line q < screen_lines d ∧ 0 ≤ column q < columns d ∧
    linear d q = Z.min (linear d p + rhs) (screen_lines d * columns d - 1).
Proof using Hd.
  intros Hb Hp Hl Hr. pose proof (in_grid_line_bound p Hp). destruct Hp as [? Hc].
  pose proof Hd as [? [? ?]].
  destruct (point_add_clamp p b rhs) as (l & c & E & ? & ? & ->); [lia..|].
  destruct (linear_clamp_cases b l c) as (q & Eq & ? & ? & El); [done|lia|lia|].
  exists q. split; [done|]. split; [done|]. split; [done|].
  rewrite El, E, Z.max_r; [done|]. unfold linear in *. nia.
Qed.

Lemma point_sub_bounded p b rhs :
  b ≠ BNone → in_grid d p → clamp_top b ≤ line p → 0 ≤ rhs ≤ 536870912 →
  ∃ q, point_sub p d b rhs = Ok q ∧
    clamp_top b ≤ line q < screen_lines d ∧ 0 ≤ column q < columns d ∧
    linear d q = Z.max (linear d p - rhs) (clamp_top b * columns d).
Proof using Hd.
  intros Hb Hp Hl Hr. pose proof (in_grid_line_bound p Hp). destruct Hp as [? Hc].
  pose proof Hd as [? [? ?]].
  destruct (point_sub_clamp p b rhs) as (l & c & E & ? & ? & ->); [lia..|].
  destruct (linear_clamp_cases b l c) as (q & Eq & ? & ? & El); [done|lia|lia|].
  exists q. split; [done|]. split; [done|]. split; [done|].
  rewrite El, E, Z.max_comm. f_equal. unfold linear in *. nia.
Qed.

(** The size of the whole buffer in cells, and the offset of a cell from its start. *)
Definition cells : Z := total_lines d * columns d.
Definition offset (p : Point) : Z := linear d p - top_of d * columns d.

Lemma offset_range p : in_grid d p → 0 ≤ offset p < cells.
Proof using Hd.
  intros [? ?]. pose proof Hd as [? [? ?]]. unfold offset, cells, linear, top_of in *. nia.
Qed.

Lemma grid_clamp_none_offset l c :
  0 ≤ c < columns d → -1073741824 ≤ l ≤ 1073741824 →
  ∃ q, grid_clamp (mkPoint l c) d BNone = Ok q ∧ in_grid d q ∧
    offset q = offset (mkPoint l c) mod cells.
Proof using Hd.
  intros Hc Hl. pose proof Hd as [? [? ?]]. rewrite grid_clamp_spec by done.
  eexists; split; [done|]. divmod (l - top_of d) (total_lines d).
  split; [unfold in_grid, top_of in *; simpl; lia|].
  apply Z.mod_unique_pos with (q := (l - top_of d) / total_lines d);
    unfold offset, cells, linear; simpl; nia.
Qed.

Lemma point_add_wraps p rhs :
  in_grid d p → 0 ≤ rhs ≤ 536870912 →
  ∃ q, point_add p d BNone rhs = Ok q ∧ in_grid d q ∧ offset q = (offset p + rhs) mod cells.
Proof using Hd.
  intros Hp Hr. pose proof (in_grid_line_bound p Hp). destruct Hp as [? Hc].
  destruct (point_add_clamp p BNone rhs) as (l & c & E & ? & ? & ->); [lia..|].
  destruct (grid_clamp_none_offset l c) as (q & -> & ? & Eq); [lia..|].
  exists q. split_and!; [done..|]. rewrite Eq. f_equal. unfold offset. lia.
Qed.

Lemma point_sub_wraps p rhs :
  in_grid d p → 0 ≤ rhs ≤ 536870912 →
  ∃ q, point_sub p d BNone rhs = Ok q ∧ in_grid d q ∧ offset q = (offset p - rhs) mod cells.
Proof using Hd.
  intros Hp Hr. pose proof (in_grid_line_bound p Hp). destruct Hp as [? Hc].
  destruct (point_sub_clamp p BNone rhs) as (l & c & E & ? & ? & ->); [lia..|].
  destruct (grid_clamp_none_offset l c) as (q & -> & ? & Eq); [lia..|].
  exists q. split_and!; [done..|]. rewrite Eq. f_equal. unfold offset. lia.
Qed.

Lemma offset_inj p q : in_grid d p → in_grid d q → offset p = offset q → p = q.
Proof using Type.
  intros [_ ?] [_ ?] E. apply linear_inj; [done..|]. unfold offset in E. lia.
Qed.
End arithmetic.

(** ** Claims *)

(** Under [Boundary::Grid] and [Boundary::Cursor] adding [n] columns to a
    point of the grid is addition on the reading order of the cells that stops
    at the last cell of the screen; it never panics and never leaves the
    boundary. *)
Theorem point_add_linear {D} `{Dimensions D} (d : D) (p : Point) (b : Boundary) (n : Z) :
  dims_ok d → b ≠ BNone → in_grid d p → clamp_top d b ≤ line p → 0 ≤ n ≤ 536870912 →
  ∃ q, point_add p d b n = Ok q ∧
    clamp_top d b ≤ line q < screen_lines d ∧ 0 ≤ column q < columns d ∧
    linear d q = Z.min (linear d p + n) (screen_lines d * columns d - 1).
Proof. intros. by apply point_add_bounded. Qed.

Lemma point_add_linear_witness :
  ∃ q, point_add (mkPoint 1 3) (mkTermSize 5 3) BGrid 4 = Ok q ∧
    linear (mkTermSize 5 3) q = 12.
Proof.
  destruct (point_add_linear (mkTermSize 5 3) (mkPoint 1 3) BGrid 4) as (q & ? & _ & _ & E).
  - unfold dims_ok; simpl; lia.
  - done.
  - unfold in_grid, top_of; simpl; lia.
  - simpl; unfold top_of; simpl; lia.
  - lia.
  - exists q. split; [done|]. rewrite E. reflexivity.
Defined.

(** Subtracting [n] columns from a point of the grid is subtraction on the
    reading order of the cells that stops at the first cell of the boundary (the
    start of the scrollback for [Boundary::Grid], the start of the screen for
    [Boundary::Cursor]). *)
Theorem point_sub_linear {D} `{Dimensions D} (d : D) (p : Point) (b : Boundary) (n : Z) :
  dims_ok d → b ≠ BNone → in_grid d p → clamp_top d b ≤ line p → 0 ≤ n ≤ 536870912 →
  ∃ q, point_sub p d b n = Ok q ∧
    clamp_top d b ≤ line q < screen_lines d ∧ 0 ≤ column q < columns d ∧
    linear d q = Z.max (linear d p - n) (clamp_top d b * columns d).
Proof. intros. by apply point_sub_bounded. Qed.

Lemma point_sub_linear_witness :
  ∃ q, point_sub (mkPoint 1 3) (mkTermSize 5 3) BCursor 40 = Ok q ∧
    linear (mkTermSize 5 3) q = 0.
Proof.
  destruct (point_sub_linear (mkTermSize 5 3) (mkPoint 1 3) BCursor 40) as (q & ? & _ & _ & E).
  - unfold dims_ok; simpl; lia.
  - done.
  - unfold in_grid, top_of; simpl; lia.
  - simpl; lia.
  - lia.
  - exists q. split; [done|]. rewrite E. reflexivity.
Defined.

(** Under [Boundary::None] points wrap around the whole buffer: [add] and
    [sub] are inverse to each other on every point of the grid. *)
Theorem point_wrap_roundtrip {D} `{Dimensions D} (d : D) (p : Point) (n : Z) :
  dims_ok d → in_grid d p → 0 ≤ n ≤ 536870912 →
  ∃ q, point_add p d BNone n = Ok q ∧ in_grid d q ∧ point_sub q d BNone n = Ok p.
Proof.
  intros Hd Hp Hn. destruct (point_add_wraps d Hd p n) as (q & Hq & Gq & Eq); [done..|].
  destruct (point_sub_wraps d Hd q n) as (p' & Hp' & Gp' & Ep'); [done..|].
  exists q. split_and!; [done..|]. rewrite Hp'. f_equal.
  apply (offset_inj d); [done..|]. rewrite Ep', Eq, Zminus_mod_idemp_l.
  replace (offset d p + n - n) with (offset d p) by lia.
  apply Z.mod_small. by apply offset_range.
Qed.

Lemma point_wrap_roundtrip_witness :
  ∃ q, point_add (mkPoint 2 4) (mkTermSize 5 3) BNone 1 = Ok q ∧ q = mkPoint 0 0 ∧
    point_sub q (mkTermSize 5 3) BNone 1 = Ok (mkPoint 2 4).
Proof.
  destruct (point_wrap_roundtrip (mkTermSize 5 3) (mkPoint 2 4) 1) as (q & E & _ & ?).
  - unfold dims_ok; simpl; lia.
  - unfold in_grid, top_of; simpl; lia.
  - lia.
  - exists q. split; [done|]. split; [|done]. injection E as <-. reflexivity.
Defined.
