(* ===== verification/GridCell.v ===== *)
(** * Cell flags and the [GridCell] interface

    The flags of alacritty_terminal/src/term/cell.rs and the traits [GridCell]
    (grid/mod.rs) and [ResetDiscriminant] (term/cell.rs), which the grid uses
    on its cells.  [GridCellLaws] states what the grid relies on; the instance
    for the terminal's cells is in Cell.v. *)

From S2P Require Import Prelude.
#[local] Open Scope Z_scope.

(** The bit flags of a cell, a [u16]. *)
Module Flags.
Definition INVERSE : Z := 1.
Definition BOLD : Z := 2.
Definition ITALIC : Z := 4.
Definition BOLD_ITALIC : Z := 6.
Definition UNDERLINE : Z := 8.
Definition WRAPLINE : Z := 16.
Definition WIDE_CHAR : Z := 32.
Definition WIDE_CHAR_SPACER : Z := 64.
Definition DIM : Z := 128.
Definition DIM_BOLD : Z := 130.
Definition HIDDEN : Z := 256.
Definition STRIKEOUT : Z := 512.
Definition LEADING_WIDE_CHAR_SPACER : Z := 1024.
Definition DOUBLE_UNDERLINE : Z := 2048.
Definition UNDERCURL : Z := 4096.
Definition DOTTED_UNDERLINE : Z := 8192.
Definition DASHED_UNDERLINE : Z := 16384.
Definition ALL_UNDERLINES : Z :=
  Z.lor (Z.lor (Z.lor (Z.lor UNDERLINE DOUBLE_UNDERLINE) UNDERCURL) DOTTED_UNDERLINE)
    DASHED_UNDERLINE.
Definition empty : Z := 0.
End Flags.

(** What a grid needs of a cell: the traits [GridCell], [Default] and
    [ResetDiscriminant<D>] with [D : PartialEq]. *)
Class GridCell (T D : Type) := {
  cell_is_empty : T → bool;
  cell_reset : T → T → T;
  cell_flags : T → Z;
  cell_set_flags : Z → T → T;
  cell_default : T;
  cell_discriminant : T → D;
  cell_discriminant_eq :: EqDecision D }.

(** [cell.flags_mut().insert(f)] and [cell.flags_mut().remove(f)]. *)
Definition cell_insert {T D} `{GridCell T D} (f : Z) (c : T) : T :=
  cell_set_flags (Bitflags.insert (cell_flags c) f) c.
Definition cell_remove {T D} `{GridCell T D} (f : Z) (c : T) : T :=
  cell_set_flags (Bitflags.remove (cell_flags c) f) c.
Definition cell_contains {T D} `{GridCell T D} (c : T) (f : Z) : bool :=
  Bitflags.contains (cell_flags c) f.

(** The laws the grid relies on.  A reset cell is determined by the
    discriminant of the template, which it takes over; the default cell is the
    result of a reset with a default template. *)
Class GridCellLaws (T D : Type) `{GridCell T D} := {
  reset_discriminant (c t : T) : cell_discriminant (cell_reset c t) = cell_discriminant t;
  reset_uniform (c c' t t' : T) :
    cell_discriminant t = cell_discriminant t' → cell_reset c t = cell_reset c' t';
  reset_default (c : T) : cell_reset c cell_default = cell_default;
  default_empty : cell_is_empty cell_default = true;
  flags_set (f : Z) (c : T) : cell_flags (cell_set_flags f c) = f }.
