(* ===== verification/Row.v ===== *)
(** * Rows (alacritty_terminal/src/grid/row.rs)

    A row is a vector of cells and [occ], an upper bound on the cells that were
    written since the last reset.  [reset] only touches the cells below [occ]:
    [row_reset_full] shows that this resets the whole row whenever the
    invariant [occ_inv] of the field holds. *)

From S2P Require Import Prelude GridCell.
#[local] Open Scope Z_scope.

Record Row (T : Type) := mkRow { r_inner : list T; occ : Z }.
Arguments mkRow {T}.
Arguments r_inner {T}.
Arguments occ {T}.

Section rows.
Context {T D : Type} `{GridCell T D}.
Implicit Types (r : Row T) (c t : T).

(** ** Operations *)

(** [ptr::write] into the spare capacity of a vector. *)
Definition ptr_write (capacity : Z) (v : list T) (c : T) : exec (list T) :=
  if zlen v <? capacity then Ok (v ++ [c]) else Panic PanicMemory.

(** [Row::new]: [columns - 1] writes in the loop, one after it. *)
Definition row_new (columns : Z) : exec (Row T) :=
  _ ← assert_ (1 <=? columns);
  inner ← for_range 1 columns (λ _ v, ptr_write columns v cell_default) [];
  inner ← ptr_write columns inner cell_default;
  mret (mkRow inner 0).

(** [Vec::resize_with] to a larger or smaller length, with [Default]. *)
Definition resize_default (v : list T) (n : Z) : list T :=
  take (Z.to_nat n) v ++ replicate (Z.to_nat (n - zlen v)) cell_default.

Definition row_grow (r : Row T) (columns : Z) : Row T :=
  if columns <=? zlen (r_inner r) then r
  else mkRow (resize_default (r_inner r) columns) (occ r).

(** [Iterator::rposition]: the index of the last element that satisfies [P]. *)
Fixpoint rposition (P : T → bool) (l : list T) : option nat :=
  match l with
  | [] => None
  | c :: l =>
      match rposition P l with
      | Some i => Some (S i)
      | None => if P c then Some O else None
      end
  end.

(** [Row::shrink]: the row and the non-empty cells that were cut off. *)
Definition row_shrink (r : Row T) (columns : Z) : Row T * option (list T) :=
  if zlen (r_inner r) <=? columns then (r, None)
  else
    let new_row := drop (Z.to_nat columns) (r_inner r) in
    let index := match rposition (λ c, negb (cell_is_empty c)) new_row with
                 | Some i => S i | None => O end in
    let new_row := take index new_row in
    let r := mkRow (take (Z.to_nat columns) (r_inner r)) (Z.min (occ r) columns) in
    (r, if decide (new_row = []) then None else Some new_row).

(** [Row::reset]. *)
Definition row_reset (r : Row T) (template : T) : exec (Row T) :=
  _ ← assert_ (negb (zlen (r_inner r) =? 0));
  let len := zlen (r_inner r) in
  i ← usize_sub len 1;
  last ← vec_get (r_inner r) i;
  let dirty := if bool_decide (cell_discriminant last ≠ cell_discriminant template)
               then len else occ r in
  inner ← vec_map_range (r_inner r) 0 dirty (λ c, cell_reset c template);
  mret (mkRow inner 0).

Definition row_from_vec (v : list T) (o : Z) : Row T := mkRow v o.

Definition row_len (r : Row T) : Z := zlen (r_inner r).

Definition row_last (r : Row T) : option T := last (r_inner r).

(** [if let Some(cell) = row.last_mut() { *cell = f(cell) }]. *)
Definition row_modify_last (f : T → T) (r : Row T) : Row T :=
  mkRow (alter f (pred (length (r_inner r))) (r_inner r)) (zlen (r_inner r)).

Definition row_append (r : Row T) (v : list T) : exec (Row T) :=
  o ← usize_add (occ r) (zlen v);
  mret (mkRow (r_inner r ++ v) o).

Definition row_append_front (r : Row T) (v : list T) : exec (Row T) :=
  o ← usize_add (occ r) (zlen v);
  mret (mkRow (v ++ r_inner r) o).

Definition row_is_clear (r : Row T) : bool := forallb cell_is_empty (r_inner r).

(** [Row::front_split_off]: the remaining row and the first [at] cells. *)
Definition row_front_split_off (r : Row T) (at_ : Z) : exec (Row T * list T) :=
  if at_ <=? zlen (r_inner r)
  then Ok (mkRow (drop (Z.to_nat at_) (r_inner r)) (saturating_sub (occ r) at_),
           take (Z.to_nat at_) (r_inner r))
  else Panic PanicIndex.

(** [&row[Column(c)]]. *)
Definition row_get (r : Row T) (col : Z) : exec T := vec_get (r_inner r) col.

(** [row[Column(c)] = f(row[Column(c)])]. *)
Definition row_modify (r : Row T) (col : Z) (f : T → T) : exec (Row T) :=
  n ← usize_add col 1;
  inner ← vec_modify (r_inner r) col f;
  mret (mkRow inner (Z.max (occ r) n)).

(** [for cell in &mut row[a..b] { *cell = f(cell) }]. *)
Definition row_map_range (r : Row T) (a b : Z) (f : T → T) : exec (Row T) :=
  inner ← vec_map_range (r_inner r) a b f;
  mret (mkRow inner (Z.max (occ r) b)).

(** The same for [&mut row[..b]]. *)
Definition row_map_range_to (r : Row T) (b : Z) (f : T → T) : exec (Row T) :=
  inner ← vec_map_range (r_inner r) 0 b f;
  mret (mkRow inner (Z.max (occ r) b)).

(** The same for [&mut row[a..]]. *)
Definition row_map_range_from (r : Row T) (a : Z) (f : T → T) : exec (Row T) :=
  inner ← vec_map_range (r_inner r) a (zlen (r_inner r)) f;
  mret (mkRow inner (zlen (r_inner r))).

(** [&mut row[..]] handed to code that works on the whole slice. *)
Definition row_with_slice (r : Row T) (f : list T → exec (list T)) : exec (Row T) :=
  inner ← f (r_inner r);
  mret (mkRow inner (zlen (r_inner r))).

(** The same for [&mut row[..=b]]. *)
Definition row_map_range_to_inclusive (r : Row T) (b : Z) (f : T → T) : exec (Row T) :=
  n ← usize_add b 1;
  inner ← vec_map_range (r_inner r) 0 n f;
  mret (mkRow inner (Z.max (occ r) n)).

(** ** Invariants *)

(** A row of [n] cells. *)
Definition row_wf (n : Z) (r : Row T) : Prop := row_len r = n ∧ 0 ≤ occ r ≤ n.

(** The documented invariant of [occ]: the cells after it are equal, more
    precisely they are what a reset with some template leaves behind. *)
Definition occ_inv (r : Row T) : Prop :=
  ∃ t, ∀ i, occ r ≤ i < row_len r → zlookup (r_inner r) i = Some (cell_reset t t).

(** The row a reset with template [t] is meant to produce. *)
Definition blank_row (n : Z) (t : T) : Row T :=
  mkRow (replicate (Z.to_nat n) (cell_reset t t)) 0.
End rows.

(** ** Basic facts *)

Section row_facts.
Context {T D : Type} `{GridCellLaws T D}.
Implicit Types (r : Row T) (c t : T).

Lemma reset_any c t : cell_reset c t = cell_reset t t.
Proof. by apply reset_uniform. Qed.

Lemma row_new_ok n : 1 ≤ n → row_new n = Ok (mkRow (replicate (Z.to_nat n) cell_default) 0).
Proof.
  intros Hn.
  assert (G : wp (row_new n) (λ r, r = mkRow (replicate (Z.to_nat n) cell_default) 0)).
  { unfold row_new. wp_step. wp_step. wp_step.
    apply wp_for_range with (I := λ i v, v = replicate (Z.to_nat (i - 1)) cell_default).
    - done.
    - intros i v Hi ->. unfold ptr_write. rewrite zlen_replicate.
      destruct (Z.ltb_spec (Z.of_nat (Z.to_nat (i - 1))) n); [|lia]. simpl.
      replace (Z.to_nat (i + 1 - 1)) with (Z.to_nat (i - 1) + 1)%nat by lia.
      by rewrite replicate_add.
    - intros v ->. unfold ptr_write. rewrite zlen_replicate.
      replace (Z.max 1 n) with n by lia.
      destruct (Z.ltb_spec (Z.of_nat (Z.to_nat (n - 1))) n); [|lia]. simpl.
      replace (Z.to_nat n) with (Z.to_nat (n - 1) + 1)%nat by lia.
      by rewrite replicate_add. }
  apply wp_iff in G as (? & -> & ->). done.
Qed.

Lemma row_new_wf n : 1 ≤ n → wp (row_new n) (row_wf n).
Proof.
  intros. rewrite row_new_ok by done. split; unfold row_len; simpl; [|lia].
  rewrite zlen_replicate. lia.
Qed.

Lemma row_new_occ n : 1 ≤ n → wp (row_new n) occ_inv.
Proof.
  intros. rewrite row_new_ok by done. exists cell_default. unfold row_len; simpl.
  rewrite zlen_replicate. intros i Hi. rewrite zlookup_replicate, reset_default.
  destruct (Z.leb_spec 0 i), (Z.ltb_spec i (Z.of_nat (Z.to_nat n))); simpl; [done|lia..].
Qed.

Lemma blank_row_wf n t : 0 ≤ n → row_wf n (blank_row n t).
Proof. intros. split; unfold row_len, blank_row; simpl; [rewrite zlen_replicate|]; lia. Qed.

Lemma blank_row_occ n t : occ_inv (blank_row n t).
Proof.
  exists t. unfold row_len, blank_row; simpl. rewrite zlen_replicate.
  intros i Hi. rewrite zlookup_replicate.
  destruct (Z.leb_spec 0 i), (Z.ltb_spec i (Z.of_nat (Z.to_nat n))); simpl; [done|lia..].
Qed.

Lemma row_reset_wf n r t : 1 ≤ n ≤ 1073741824 → row_wf n r → wp (row_reset r t) (row_wf n).
Proof.
  unfold row_wf, row_len. intros Hn [Hl Ho]. unfold row_reset. rewrite Hl.
  repeat (wp_step; try lia).
  apply wp_vec_map_range; [case_match; lia..|]. intros l' Hl' _.
  apply wp_ret. simpl. lia.
Qed.

Lemma row_reset_full n r t :
  1 ≤ n ≤ 1073741824 → row_wf n r → occ_inv r → row_reset r t = Ok (blank_row n t).
Proof.
  intros Hn [Hl Ho] [t0 Hinv]. unfold row_len in *.
  assert (G : wp (row_reset r t) (λ r', r' = blank_row n t)).
  { unfold row_reset. rewrite Hl. wp_step. wp_step. wp_step. wp_step. wp_step.
    wp_step.
    set (dirty := if bool_decide _ then n else occ r).
    assert (Hd : occ r ≤ dirty ≤ n) by (unfold dirty; case_match; lia).
    assert (Hclean : ∀ i, dirty ≤ i < n → zlookup (r_inner r) i = Some (cell_reset t t)).
    { intros i Hi. rewrite Hinv by lia. f_equal.
      assert (dirty = occ r) by (unfold dirty in *; case_match; lia).
      assert (Hneq : cell_discriminant a = cell_discriminant t).
      { destruct (decide (cell_discriminant a = cell_discriminant t)) as [|Hne]; [done|].
        exfalso. subst dirty. rewrite bool_decide_eq_true_2 in Hi by done. lia. }
      apply reset_uniform. rewrite Hinv in H1 by lia. injection H1 as <-.
      by rewrite reset_discriminant in Hneq. }
    clearbody dirty. wp_step. apply wp_vec_map_range; [lia..|].
    intros l' Hl' Hk. apply wp_ret. unfold blank_row. f_equal.
    apply list_eq_zlookup. intros i. rewrite Hk, zlookup_replicate.
    destruct (Z.leb_spec 0 i); simpl; [|apply zlookup_none; lia].
    destruct (Z.ltb_spec i (Z.of_nat (Z.to_nat n))); [|].
    - destruct (Z.ltb_spec i dirty); [|apply Hclean; lia].
      destruct (zlookup_some (r_inner r) i) as [c ->]; [lia|]. simpl. by rewrite reset_any.
    - destruct (Z.ltb_spec i dirty); [lia|]. apply zlookup_none. lia. }
  apply wp_iff in G as (? & -> & ->). done.
Qed.

(** An update that raises [occ] and leaves the cells above it alone keeps the
    invariant. *)
Lemma occ_inv_update r r' :
  occ_inv r → row_len r' = row_len r → occ r ≤ occ r' →
  (∀ i, occ r' ≤ i → zlookup (r_inner r') i = zlookup (r_inner r) i) →
  occ_inv r'.
Proof. intros [t Ht] Hl Ho Hi. exists t. intros i ?. rewrite Hi by lia. apply Ht. lia. Qed.

(** The row [Row::new] builds. *)
Definition fresh_row (columns : Z) : Row T :=
  mkRow (replicate (Z.to_nat columns) cell_default) 0.

Lemma fresh_row_wf columns : 1 ≤ columns → row_wf columns (fresh_row columns).
Proof.
  intros. pose proof (row_new_wf columns) as W. by rewrite row_new_ok in W by done; apply W.
Qed.

Lemma fresh_row_occ columns : 1 ≤ columns → occ_inv (fresh_row columns).
Proof.
  intros. pose proof (row_new_occ columns) as W. by rewrite row_new_ok in W by done; apply W.
Qed.

(** What a write through [&mut row[a..b]] does, for the different index types. *)
Record row_written (a b : Z) (f : T → T) (r r' : Row T) : Prop := {
  rw_len : row_len r' = row_len r;
  rw_occ : occ r ≤ occ r' ∧ b ≤ occ r' ∧ occ r' ≤ Z.max (occ r) (row_len r);
  rw_cells k : zlookup (r_inner r') k =
    if (a <=? k) && (k <? b) then f <$> zlookup (r_inner r) k else zlookup (r_inner r) k }.

Lemma row_written_wf n a b f r r' : row_written a b f r r' → row_wf n r → row_wf n r'.
Proof. intros [? ? ?] [? ?]. split; lia. Qed.

Lemma row_written_occ a b f r r' : row_written a b f r r' → occ_inv r → occ_inv r'.
Proof.
  intros [? ? Hc] Hi. eapply occ_inv_update; [done|done|lia|].
  intros i ?. rewrite Hc. destruct (Z.leb_spec a i), (Z.ltb_spec i b); simpl; (done || lia).
Qed.

Lemma wp_row_get r (c : Z) (Q : T → Prop) :
  0 ≤ c < row_len r → (∀ a, zlookup (r_inner r) c = Some a → Q a) → wp (row_get r c) Q.
Proof. apply wp_vec_get. Qed.

Lemma row_modify_written r (c : Z) f :
  0 ≤ c < row_len r → row_len r ≤ 1073741824 →
  wp (row_modify r c f) (row_written c (c + 1) f r).
Proof.
  unfold row_len. intros ? ?. unfold row_modify. wp_step. wp_step. wp_step.
  apply wp_vec_modify; [done|]. intros a Ha. apply wp_ret. split; unfold row_len; simpl.
  - by rewrite zlen_insert.
  - lia.
  - intros k. rewrite zlookup_insert by done.
    destruct (Z.eqb_spec k c) as [->|].
    + destruct (Z.leb_spec c c), (Z.ltb_spec c (c + 1)); try lia. simpl. by rewrite Ha.
    + destruct (Z.leb_spec c k), (Z.ltb_spec k (c + 1)); simpl; (done || lia).
Qed.

Lemma vec_map_range_written (r : Row T) a b o f :
  0 ≤ a ≤ b → b ≤ row_len r → occ r ≤ o → b ≤ o → o ≤ Z.max (occ r) (row_len r) →
  wp (inner ← vec_map_range (r_inner r) a b f; mret (mkRow inner o)) (row_written a b f r).
Proof.
  unfold row_len. intros. wp_step. apply wp_vec_map_range; [lia..|].
  intros l' Hl' Hk. apply wp_ret. split; unfold row_len; simpl; [done|lia|done].
Qed.

Lemma row_map_range_written r a b f :
  0 ≤ a ≤ b → b ≤ row_len r → wp (row_map_range r a b f) (row_written a b f r).
Proof. intros. apply vec_map_range_written; lia. Qed.

Lemma row_map_range_to_written r b f :
  0 ≤ b ≤ row_len r → wp (row_map_range_to r b f) (row_written 0 b f r).
Proof. intros. apply vec_map_range_written; lia. Qed.

Lemma row_map_range_from_written r a f :
  0 ≤ a ≤ row_len r → occ r ≤ row_len r →
  wp (row_map_range_from r a f) (row_written a (row_len r) f r).
Proof. intros. apply vec_map_range_written; unfold row_len in *; lia. Qed.

(** A property of rows that the operations of the grid keep.  The grid's
    theorems are proved for every such property; [row_wf] and [row_clean] are
    the two instances. *)
Record row_pred (n : Z) (R : Row T → Prop) : Prop := {
  rp_bound : 1 ≤ n ≤ 1073741824;
  rp_wf r : R r → row_wf n r;
  rp_fresh : R (fresh_row n);
  rp_reset r t : R r → wp (row_reset r t) R;
  rp_written a b f r r' : row_written a b f r r' → R r → R r';
  rp_full r : row_len r = n → occ r = n → R r }.

(** A row of the right width whose [occ] can be trusted. *)
Definition row_clean (n : Z) (r : Row T) : Prop := row_wf n r ∧ occ_inv r.

Lemma row_pred_wf n : 1 ≤ n ≤ 1073741824 → row_pred n (row_wf n).
Proof.
  intros. split; try done.
  - apply fresh_row_wf. lia.
  - intros. by apply row_reset_wf.
  - intros. by eapply row_written_wf.
  - intros r ? ?. split; lia.
Qed.

Lemma row_pred_clean n : 1 ≤ n ≤ 1073741824 → row_pred n (row_clean n).
Proof.
  intros. split; try done.
  - by intros r [? ?].
  - split; [apply fresh_row_wf|apply fresh_row_occ]; lia.
  - intros r t [? ?]. rewrite (row_reset_full n) by done.
    split; [apply blank_row_wf; lia|apply blank_row_occ].
  - intros a b f r r' Hw [? ?]. split; [by eapply row_written_wf|by eapply row_written_occ].
  - intros r Hl Ho. split; [split; lia|]. exists cell_default. lia.
Qed.

(** [r] is what a reset with template [t] made of a row of the grid. *)
Definition is_reset (R : Row T → Prop) (t : T) (r : Row T) : Prop :=
  ∃ r0, R r0 ∧ row_reset r0 t = Ok r.

Lemma is_reset_clean n t r :
  1 ≤ n ≤ 1073741824 → is_reset (row_clean n) t r → r = blank_row n t.
Proof.
  intros Hn (r0 & [? ?] & E). rewrite (row_reset_full n) in E by done. by injection E as <-.
Qed.

Lemma is_reset_pred n R t r : row_pred n R → is_reset R t r → R r.
Proof. intros P (r0 & H0' & E). pose proof (rp_reset n R P r0 t H0') as W. by rewrite E in W. Qed.
End row_facts.

Section row_resize_facts.
Context {T D : Type} `{GridCellLaws T D}.
Implicit Types (r : Row T) (c t : T) (l : list T).

Lemma rposition_spec (P : T → bool) l :
  match rposition P l with
  | Some i => (i < length l)%nat ∧ Forall (λ c, P c = false) (drop (S i) l)
  | None => Forall (λ c, P c = false) l
  end.
Proof.
  induction l as [|c l IH]; simpl; [constructor|].
  destruct (rposition P l) as [i|]; [destruct IH; split; [lia|done]|].
  destruct (P c) eqn:E; [split; [lia|done]|]. by constructor.
Qed.

(** [shrink] splits the row at the new width and drops only empty cells from
    the end of what it cuts off. *)
Lemma row_shrink_split n m r :
  row_wf n r → 0 ≤ m →
  let '(r', cut) := row_shrink r m in
  row_wf (Z.min n m) r' ∧
  ∃ blank, Forall (λ c, cell_is_empty c = true) blank ∧
    r_inner r = r_inner r' ++ default [] cut ++ blank ∧ cut ≠ Some [].
Proof.
  unfold row_wf, row_len. intros [Hl Ho] Hm. unfold row_shrink.
  destruct (Z.leb_spec (zlen (r_inner r)) m).
  - split; [lia|]. exists []. simpl. rewrite app_nil_r. done.
  - cbn [r_inner occ]. rewrite zlen_take. split; [lia|].
    set (new := drop (Z.to_nat m) (r_inner r)).
    pose proof (rposition_spec (λ c, negb (cell_is_empty c)) new) as Hr.
    assert (Hf : ∀ l, Forall (λ c, negb (cell_is_empty c) = false) l →
      Forall (λ c, cell_is_empty c = true) l).
    { intros l Hl'. eapply Forall_impl; [exact Hl'|]. simpl. intros c. by rewrite negb_false_iff. }
    set (k := match rposition _ new with Some i => S i | None => O end) in *.
    exists (drop k new). split_and!.
    + unfold k. destruct (rposition _ new); apply Hf; [by destruct Hr|by rewrite drop_0].
    + case_decide as E; simpl.
      * pose proof (take_drop k new) as Ek. rewrite E in Ek. simpl in Ek. rewrite Ek.
        unfold new. by rewrite take_drop.
      * rewrite (take_drop k new). unfold new. by rewrite take_drop.
    + case_decide; congruence.
Qed.

Lemma row_grow_wf n m r : row_wf n r → n ≤ m → row_wf m (row_grow r m).
Proof.
  unfold row_wf, row_len, row_grow. intros [Hl Ho] Hm.
  destruct (Z.leb_spec m (zlen (r_inner r))); [lia|]. simpl. unfold resize_default.
  rewrite zlen_app, zlen_take, zlen_replicate. lia.
Qed.
End row_resize_facts.

(** ** Claims *)

(** [Row::reset] clears the whole row although it writes only the cells
    below [occ]: on a row that satisfies the invariant of [occ] it returns the
    row in which every cell is reset, with [occ = 0], and does not panic. *)
Theorem row_reset_correct {T D} `{GridCellLaws T D} (n : Z) (r : Row T) (template : T) :
  1 ≤ n ≤ 1073741824 → row_wf n r → occ_inv r →
  row_reset r template = Ok (blank_row n template).
Proof. apply row_reset_full. Qed.

(** [Row::shrink] loses nothing but empty cells: the kept cells, the
    returned cells and a run of empty cells make up the old row, and the
    returned vector is never empty. *)
Theorem row_shrink_lossless {T D} `{GridCellLaws T D} (n m : Z) (r : Row T) :
  row_wf n r → 0 ≤ m →
  let '(r', cut) := row_shrink r m in
  row_wf (Z.min n m) r' ∧
  ∃ blank, Forall (λ c, cell_is_empty c = true) blank ∧
    r_inner r = r_inner r' ++ default [] cut ++ blank ∧ cut ≠ Some [].
Proof. apply row_shrink_split. Qed.
