(* ===== verification/Storage.v ===== *)
(** * The ring buffer of rows (alacritty_terminal/src/grid/storage.rs)

    [Storage] keeps the rows of the scrollback and of the screen in a vector
    [s_inner] that is used as a ring: [s_zero] is the position of the bottommost
    line, [s_len] the number of active rows; the remaining rows of the vector are
    a cache.  [ring_at] is the abstract view: the row [k] lines above the bottom. *)

From S2P Require Import Prelude GridCell Row.
#[local] Open Scope Z_scope.

Definition MAX_CACHE_SIZE : Z := 1000.

Record Storage (T : Type) := mkStorage {
  s_inner : list (Row T);
  s_zero : Z;
  s_visible_lines : Z;
  s_len : Z }.
Arguments mkStorage {T}.
Arguments s_inner {T}.
Arguments s_zero {T}.
Arguments s_visible_lines {T}.
Arguments s_len {T}.

Section storage.
Context {T D : Type} `{GridCell T D}.
Implicit Types (s : Storage T).

(** ** Operations *)

(** [rows.resize_with(n, || Row::new(columns))]. *)
Definition resize_rows (rows : list (Row T)) (n columns : Z) : exec (list (Row T)) :=
  if n <=? zlen rows then Ok (take (Z.to_nat n) rows)
  else
    fresh ← for_range (zlen rows) n (λ _ v, r ← row_new columns; mret (v ++ [r])) [];
    mret (rows ++ fresh).

Definition with_capacity (visible_lines columns : Z) : exec (Storage T) :=
  inner ← resize_rows [] visible_lines columns;
  mret (mkStorage inner 0 visible_lines visible_lines).

(** [slice::rotate_left]. *)
Definition rotate_left {A} (v : list A) (mid : Z) : exec (list A) :=
  if mid <=? zlen v then Ok (drop (Z.to_nat mid) v ++ take (Z.to_nat mid) v)
  else Panic PanicAssert.

Definition rezero (s : Storage T) : exec (Storage T) :=
  if s_zero s =? 0 then Ok s
  else
    inner ← rotate_left (s_inner s) (s_zero s);
    mret (mkStorage inner 0 (s_visible_lines s) (s_len s)).

Definition truncate (s : Storage T) : exec (Storage T) :=
  s ← rezero s;
  mret (mkStorage (take (Z.to_nat (s_len s)) (s_inner s)) (s_zero s) (s_visible_lines s) (s_len s)).

Definition initialize (s : Storage T) (additional_rows columns : Z) : exec (Storage T) :=
  n ← usize_add (s_len s) additional_rows;
  s ← (if zlen (s_inner s) <? n then
         s ← rezero s;
         realloc_size ← usize_add (zlen (s_inner s)) (Z.max additional_rows MAX_CACHE_SIZE);
         inner ← resize_rows (s_inner s) realloc_size columns;
         mret (mkStorage inner (s_zero s) (s_visible_lines s) (s_len s))
       else Ok s);
  n ← usize_add (s_len s) additional_rows;
  mret (mkStorage (s_inner s) (s_zero s) (s_visible_lines s) n).

Definition shrink_lines (s : Storage T) (shrinkage : Z) : exec (Storage T) :=
  n ← usize_sub (s_len s) shrinkage;
  let s := mkStorage (s_inner s) (s_zero s) (s_visible_lines s) n in
  limit ← usize_add (s_len s) MAX_CACHE_SIZE;
  if limit <? zlen (s_inner s) then truncate s else Ok s.

(** [compute_index]: the physical index of a line; [requested] is an [i32]. *)
Definition compute_index (s : Storage T) (requested : Z) : exec Z :=
  _ ← assert_ (requested <? as_i32 (s_visible_lines s));
  x ← i32_sub requested (as_i32 (s_visible_lines s));
  x ← i32_neg x;
  positive ← usize_sub (as_usize x) 1;
  _ ← assert_ (positive <? s_len s);
  zeroed ← usize_add (s_zero s) positive;
  if zlen (s_inner s) <=? zeroed then usize_sub zeroed (zlen (s_inner s)) else Ok zeroed.

(** [&storage[line]]. *)
Definition storage_get (s : Storage T) (l : Z) : exec (Row T) :=
  i ← compute_index s l; vec_get (s_inner s) i.

(** [storage[line]] as a place that [f] changes. *)
Definition storage_update (s : Storage T) (l : Z) (f : Row T → exec (Row T)) : exec (Storage T) :=
  i ← compute_index s l;
  r ← vec_get (s_inner s) i;
  r ← f r;
  inner ← vec_set (s_inner s) i r;
  mret (mkStorage inner (s_zero s) (s_visible_lines s) (s_len s)).

Definition grow_visible_lines (s : Storage T) (next : Z) : exec (Storage T) :=
  additional_lines ← usize_sub next (s_visible_lines s);
  r ← storage_get s 0;
  s ← initialize s additional_lines (row_len r);
  mret (mkStorage (s_inner s) (s_zero s) next (s_len s)).

Definition shrink_visible_lines (s : Storage T) (next : Z) : exec (Storage T) :=
  shrinkage ← usize_sub (s_visible_lines s) next;
  s ← shrink_lines s shrinkage;
  mret (mkStorage (s_inner s) (s_zero s) next (s_len s)).

(** [swap]: the four-word copy loop exchanges the two rows; its pointers must
    lie inside of the vector. *)
Definition storage_swap (s : Storage T) (a b : Z) : exec (Storage T) :=
  i ← compute_index s a;
  j ← compute_index s b;
  match zlookup (s_inner s) i, zlookup (s_inner s) j with
  | Some _, Some _ =>
      inner ← vec_swap (s_inner s) i j;
      mret (mkStorage inner (s_zero s) (s_visible_lines s) (s_len s))
  | _, _ => Panic PanicMemory
  end.

(** [rotate]; [count] is an [isize]. *)
Definition storage_rotate (s : Storage T) (count : Z) : exec (Storage T) :=
  _ ← assert_ (Z.abs count <=? zlen (s_inner s));
  let n := zlen (s_inner s) in
  x ← isize_add (as_isize (s_zero s)) count;
  x ← isize_add x (as_isize n);
  z ← usize_rem (as_usize x) n;
  mret (mkStorage (s_inner s) z (s_visible_lines s) (s_len s)).

Definition rotate_down (s : Storage T) (count : Z) : exec (Storage T) :=
  x ← usize_add (s_zero s) count;
  z ← usize_rem x (zlen (s_inner s));
  mret (mkStorage (s_inner s) z (s_visible_lines s) (s_len s)).

Definition replace_inner (s : Storage T) (vec : list (Row T)) : Storage T :=
  mkStorage vec 0 (s_visible_lines s) (zlen vec).

Definition take_all (s : Storage T) : exec (Storage T * list (Row T)) :=
  s ← truncate s;
  mret (mkStorage [] (s_zero s) (s_visible_lines s) 0, s_inner s).

(** ** The abstract view *)

Definition ring_at (s : Storage T) (k : Z) : option (Row T) :=
  zlookup (s_inner s) ((s_zero s + k) mod zlen (s_inner s)).

Definition line_at (s : Storage T) (l : Z) : option (Row T) :=
  ring_at s (s_visible_lines s - 1 - l).

(** The rows of the buffer, from the bottommost line up. *)
Definition rows_of (s : Storage T) : list (Row T) :=
  take (Z.to_nat (s_len s))
    (drop (Z.to_nat (s_zero s)) (s_inner s) ++ take (Z.to_nat (s_zero s)) (s_inner s)).

(** The invariant: the ring is not empty, holds the active rows and a bounded
    cache, and all of its rows satisfy [R], a property of rows of width
    [columns] (see [row_pred]). *)
Record storage_wf `{!GridCellLaws T D} (R : Row T → Prop) (columns : Z) (s : Storage T) : Prop := {
  sw_pred : row_pred columns R;
  sw_rows : Forall R (s_inner s);
  sw_zero : 0 ≤ s_zero s < zlen (s_inner s);
  sw_visible : 1 ≤ s_visible_lines s ≤ s_len s;
  sw_len : s_len s ≤ zlen (s_inner s) ≤ s_len s + MAX_CACHE_SIZE;
  sw_bound : s_len s ≤ 536870912 }.

(** Storages that differ in the contents of their rows only. *)
Definition same_shape (s s' : Storage T) : Prop :=
  s_zero s' = s_zero s ∧ s_visible_lines s' = s_visible_lines s ∧
  s_len s' = s_len s ∧ zlen (s_inner s') = zlen (s_inner s).
End storage.

(** ** Facts *)

Section storage_facts.
Context {T D : Type} `{GridCellLaws T D}.
Context (R : Row T → Prop).
Implicit Types (s : Storage T).

Lemma resize_rows_ok rows n columns :
  1 ≤ columns → 0 ≤ n →
  resize_rows rows n columns =
  Ok (take (Z.to_nat n) rows ++ replicate (Z.to_nat (n - zlen rows)) (fresh_row columns)).
Proof.
  intros Hc Hn. unfold resize_rows. destruct (Z.leb_spec n (zlen rows)).
  { replace (Z.to_nat (n - zlen rows)) with O by lia. simpl. by rewrite app_nil_r. }
  assert (G : wp (for_range (zlen rows) n (λ _ v, r ← row_new columns; mret (v ++ [r])) [])
    (λ v, v = replicate (Z.to_nat (n - zlen rows)) (fresh_row columns))).
  { apply wp_for_range with
      (I := λ i v, v = replicate (Z.to_nat (i - zlen rows)) (fresh_row columns)).
    - by rewrite Z.sub_diag.
    - intros i v Hi ->. rewrite row_new_ok by done. simpl.
      replace (Z.to_nat (i + 1 - zlen rows)) with (Z.to_nat (i - zlen rows) + 1)%nat by lia.
      by rewrite replicate_add.
    - intros v ->. do 2 f_equal. lia. }
  apply wp_iff in G as (? & -> & ->). simpl. f_equal. f_equal.
  rewrite take_ge; [done|]. unfold zlen in *. lia.
Qed.

(** *** Indices of the ring *)

Lemma ring_index_cases z k n :
  0 ≤ z < n → 0 ≤ k < n → (z + k) mod n = if n <=? z + k then z + k - n else z + k.
Proof.
  intros. destruct (Z.leb_spec n (z + k)).
  - replace (z + k) with (z + k - n + 1 * n) at 1 by lia.
    rewrite Z.mod_add, Z.mod_small; lia.
  - apply Z.mod_small. lia.
Qed.

Lemma ring_index_inj z k k' n :
  0 ≤ z < n → 0 ≤ k < n → 0 ≤ k' < n → (z + k) mod n = (z + k') mod n → k = k'.
Proof.
  intros ? ? ?. rewrite !ring_index_cases by done.
  destruct (Z.leb_spec n (z + k)), (Z.leb_spec n (z + k')); lia.
Qed.

Section with_wf.
Context (columns : Z) (s : Storage T) (W : storage_wf R columns s).

Lemma ring_at_some k : ∃ r, ring_at s k = Some r ∧ R r.
Proof using W.
  destruct W as [? Hr ? ? ? ?]. unfold ring_at.
  destruct (zlookup_some (s_inner s) ((s_zero s + k) mod zlen (s_inner s))) as [r Er].
  { apply Z.mod_pos_bound. lia. }
  exists r. split; [done|]. apply zlookup_spec in Er as [_ Er].
  by eapply Forall_lookup_1.
Qed.

(** The [if] that replaces the remainder in [compute_index] is exact. *)
Lemma compute_index_ok l :
  s_visible_lines s - s_len s ≤ l < s_visible_lines s →
  compute_index s l = Ok ((s_zero s + (s_visible_lines s - 1 - l)) mod zlen (s_inner s)).
Proof using W.
  intros Hl. destruct W as [? Hr ? ? ? ?]. unfold MAX_CACHE_SIZE in *.
  assert (G : wp (compute_index s l)
    (λ i, i = (s_zero s + (s_visible_lines s - 1 - l)) mod zlen (s_inner s))).
  { unfold compute_index. rewrite ring_index_cases by lia. wp_steps.
    - destruct (Z.leb_spec (zlen (s_inner s))
        (s_zero s + (s_visible_lines s - 1 - l))); lia.
    - destruct (Z.leb_spec (zlen (s_inner s))
        (s_zero s + (s_visible_lines s - 1 - l))); lia. }
  apply wp_iff in G as (? & -> & ->). done.
Qed.

Lemma wp_storage_get l (Q : Row T → Prop) :
  s_visible_lines s - s_len s ≤ l < s_visible_lines s →
  (∀ r, line_at s l = Some r → R r → Q r) →
  wp (storage_get s l) Q.
Proof using W.
  intros Hl HQ. unfold storage_get. rewrite compute_index_ok by done. simpl.
  destruct (ring_at_some (s_visible_lines s - 1 - l)) as (r & Hr & Wr).
  unfold vec_get. unfold ring_at in Hr. rewrite Hr. by apply HQ.
Qed.

Lemma storage_get_ok l r :
  s_visible_lines s - s_len s ≤ l < s_visible_lines s →
  line_at s l = Some r → storage_get s l = Ok r.
Proof using W.
  intros Hl Hr. unfold storage_get. rewrite compute_index_ok by done. simpl.
  by apply vec_get_ok.
Qed.

Lemma ring_at_insert i r k :
  0 ≤ i < zlen (s_inner s) → 0 ≤ k < zlen (s_inner s) →
  zlookup (<[Z.to_nat ((s_zero s + i) mod zlen (s_inner s)) := r]> (s_inner s))
    ((s_zero s + k) mod zlen (s_inner s))
  = if k =? i then Some r else ring_at s k.
Proof using W.
  intros Hi Hk. destruct W as [? Hr ? ? ? ?].
  rewrite zlookup_insert by (apply Z.mod_pos_bound; lia).
  destruct (Z.eqb_spec k i) as [->|]; [by rewrite Z.eqb_refl|].
  destruct (Z.eqb_spec ((s_zero s + k) mod zlen (s_inner s))
    ((s_zero s + i) mod zlen (s_inner s))) as [E|]; [|done].
  apply ring_index_inj in E; [lia|lia..].
Qed.
End with_wf.

(** The lines of the ring, cached rows included. *)
Definition ring_line s (l : Z) : Prop :=
  s_visible_lines s - zlen (s_inner s) ≤ l < s_visible_lines s.

Lemma wp_storage_update columns s l f (P : Row T → Prop) (Q : Storage T → Prop) :
  storage_wf R columns s → s_visible_lines s - s_len s ≤ l < s_visible_lines s →
  (∀ r, line_at s l = Some r → R r → wp (f r) (λ r', R r' ∧ P r')) →
  (∀ s' r', storage_wf R columns s' → same_shape s s' → R r' → P r' →
     line_at s' l = Some r' →
     (∀ m, ring_line s m → line_at s' m = if m =? l then Some r' else line_at s m) → Q s') →
  wp (storage_update s l f) Q.
Proof.
  intros W Hl Hf HQ. unfold storage_update. rewrite (compute_index_ok columns) by done. simpl.
  destruct (ring_at_some columns s W (s_visible_lines s - 1 - l)) as (r & Hr & Wr).
  set (i := s_visible_lines s - 1 - l) in *.
  rewrite (vec_get_ok _ _ r) by done. simpl.
  wp_step. eapply wp_mono; [by apply Hf|]. intros r' [Wr' Pr'].
  pose proof W as [? Hrows ? ? ? ?].
  assert (Hin : 0 ≤ (s_zero s + i) mod zlen (s_inner s) < zlen (s_inner s))
    by (apply Z.mod_pos_bound; lia).
  wp_step. apply wp_vec_set; [done|]. apply wp_ret.
  assert (Hlines : ∀ m, ring_line s m →
    line_at (mkStorage (<[Z.to_nat ((s_zero s + i) mod zlen (s_inner s)):=r']> (s_inner s))
      (s_zero s) (s_visible_lines s) (s_len s)) m
    = if m =? l then Some r' else line_at s m).
  { intros m Hm. unfold line_at, ring_at, ring_line in *. cbn [s_inner s_zero s_visible_lines].
    rewrite zlen_insert. rewrite (ring_at_insert columns) by (done || lia).
    unfold i. destruct (Z.eqb_spec m l), (Z.eqb_spec (s_visible_lines s - 1 - m) (s_visible_lines s - 1 - l));
      (done || lia). }
  eapply HQ with (r' := r'); [| |done|done| |done].
  - split; cbn [s_inner s_zero s_visible_lines s_len]; rewrite ?zlen_insert; try done.
    by apply Forall_insert.
  - unfold same_shape. simpl. by rewrite zlen_insert.
  - rewrite Hlines by (unfold ring_line; lia). by rewrite Z.eqb_refl.
Qed.

Lemma wp_storage_swap columns s a b (Q : Storage T → Prop) :
  storage_wf R columns s →
  s_visible_lines s - s_len s ≤ a < s_visible_lines s →
  s_visible_lines s - s_len s ≤ b < s_visible_lines s →
  (∀ s', storage_wf R columns s' → same_shape s s' →
     (∀ m, ring_line s m →
        line_at s' m = if m =? b then line_at s a else if m =? a then line_at s b else line_at s m) →
     Q s') →
  wp (storage_swap s a b) Q.
Proof.
  intros W Ha Hb HQ. unfold storage_swap. rewrite !(compute_index_ok columns) by done. simpl.
  destruct (ring_at_some columns s W (s_visible_lines s - 1 - a)) as (ra & Hra & Wa).
  destruct (ring_at_some columns s W (s_visible_lines s - 1 - b)) as (rb & Hrb & Wb).
  unfold ring_at in Hra, Hrb. rewrite Hra, Hrb.
  pose proof (zlookup_bound _ _ _ Hra) as Ia. pose proof (zlookup_bound _ _ _ Hrb) as Ib.
  pose proof W as [? Hrows ? ? ? ?].
  wp_step. apply wp_vec_swap; [done..|]. intros l' Hl' Hk. apply wp_ret. apply HQ.
  - split; cbn [s_inner s_zero s_visible_lines s_len]; rewrite ?Hl'; try done.
    apply Forall_lookup_2. intros i r Hi.
    specialize (Hk (Z.of_nat i)). rewrite zlookup_nat, Nat2Z.id, Hi in Hk by lia.
    revert Hk. repeat case_match; intros Hk; symmetry in Hk;
      apply zlookup_spec in Hk as [_ Hk]; by eapply Forall_lookup_1.
  - unfold same_shape; simpl. done.
  - intros m Hm. unfold ring_line in Hm. unfold line_at, ring_at.
    cbn [s_inner s_zero s_visible_lines]. rewrite Hl', Hk.
    assert (Heq : ∀ x, s_visible_lines s - s_len s ≤ x < s_visible_lines s →
      ((s_zero s + (s_visible_lines s - 1 - m)) mod zlen (s_inner s)
       =? (s_zero s + (s_visible_lines s - 1 - x)) mod zlen (s_inner s)) = (m =? x)).
    { intros x Hx. destruct (Z.eqb_spec m x) as [->|]; [by apply Z.eqb_refl|].
      apply Z.eqb_neq. intros E. apply ring_index_inj in E; lia. }
    rewrite !Heq by done. done.
Qed.

(** *** Rotations *)

Lemma mod_rotate z c k n : 0 < n → ((z + c + n) mod n + k) mod n = (z + (k + c) mod n) mod n.
Proof.
  intros. rewrite Zplus_mod_idemp_l, Zplus_mod_idemp_r.
  replace (z + c + n + k) with (z + (k + c) + 1 * n) by lia. by rewrite Z.mod_add by lia.
Qed.

Definition rotated s (c : Z) (s' : Storage T) : Prop :=
  s_visible_lines s' = s_visible_lines s ∧ s_len s' = s_len s ∧
  s_inner s' = s_inner s ∧
  ∀ k, ring_at s' k = ring_at s ((k + c) mod zlen (s_inner s)).

Lemma storage_rotate_spec columns s c :
  storage_wf R columns s → Z.abs c ≤ zlen (s_inner s) →
  wp (storage_rotate s c) (λ s', storage_wf R columns s' ∧ rotated s c s').
Proof.
  intros W Hc. pose proof W as [? ? ? ? ? ?]. unfold MAX_CACHE_SIZE in *.
  unfold storage_rotate. wp_step. wp_step. wp_steps.
  pose proof (Z.mod_pos_bound (s_zero s + c + zlen (s_inner s)) (zlen (s_inner s))).
  split; [by split; simpl; try lia|].
  unfold rotated; simpl. split_and!; [done..|]. intros k. unfold ring_at; simpl.
  by rewrite mod_rotate by lia.
Qed.

Lemma rotate_down_spec columns s c :
  storage_wf R columns s → 0 ≤ c ≤ 536870912 →
  wp (rotate_down s c) (λ s', storage_wf R columns s' ∧ rotated s c s').
Proof.
  intros W Hc. pose proof W as [? ? ? ? ? ?]. unfold MAX_CACHE_SIZE in *.
  unfold rotate_down. wp_steps.
  pose proof (Z.mod_pos_bound (s_zero s + c) (zlen (s_inner s))).
  split; [by split; simpl; try lia|].
  unfold rotated; simpl. split_and!; [done..|]. intros k. unfold ring_at; simpl.
  rewrite <- mod_rotate by lia. do 2 f_equal. f_equal.
  replace (s_zero s + c + zlen (s_inner s)) with (s_zero s + c + 1 * zlen (s_inner s)) by lia.
  by rewrite Z.mod_add by lia.
Qed.

(** *** Growing and shrinking *)

(** The active rows of [s] are kept by [s']. *)
Definition rows_kept s (s' : Storage T) : Prop :=
  ∀ k, 0 ≤ k < Z.min (s_len s) (s_len s') → ring_at s' k = ring_at s k.

Lemma rezero_spec columns s :
  storage_wf R columns s →
  wp (rezero s) (λ s', storage_wf R columns s' ∧ s_zero s' = 0 ∧
    s_visible_lines s' = s_visible_lines s ∧ s_len s' = s_len s ∧
    zlen (s_inner s') = zlen (s_inner s) ∧
    ∀ k, 0 ≤ k < zlen (s_inner s) → ring_at s' k = ring_at s k).
Proof.
  intros W. pose proof W as [? Hr ? ? ? ?]. unfold rezero.
  destruct (Z.eqb_spec (s_zero s) 0); [wp_step; done|].
  unfold rotate_left. destruct (Z.leb_spec (s_zero s) (zlen (s_inner s))); [|lia].
  simpl. set (l := _ ++ _).
  assert (Hl : zlen l = zlen (s_inner s)).
  { unfold l. rewrite zlen_app, zlen_drop, zlen_take. lia. }
  split; [|split_and!; try done].
  - split; simpl; rewrite ?Hl; try done; [|lia].
    unfold l. apply Forall_app. split; [by apply Forall_drop|by apply Forall_take].
  - intros k Hk. unfold ring_at; simpl. rewrite Hl, Z.add_0_l, (Z.mod_small k) by lia.
    rewrite ring_index_cases by lia. unfold l. rewrite zlookup_app, zlen_drop.
    destruct (Z.ltb_spec k (Z.max 0 (zlen (s_inner s) - Z.of_nat (Z.to_nat (s_zero s))))),
      (Z.leb_spec (zlen (s_inner s)) (s_zero s + k)); try lia.
    + rewrite zlookup_drop by lia. f_equal. lia.
    + rewrite zlookup_take.
      destruct (Z.ltb_spec (k - Z.max 0 (zlen (s_inner s) - Z.of_nat (Z.to_nat (s_zero s))))
        (Z.of_nat (Z.to_nat (s_zero s)))); [|lia]. f_equal. lia.
Qed.

Lemma truncate_spec columns s :
  storage_wf R columns s →
  wp (truncate s) (λ s', storage_wf R columns s' ∧ s_zero s' = 0 ∧
    s_visible_lines s' = s_visible_lines s ∧ s_len s' = s_len s ∧
    zlen (s_inner s') = s_len s ∧ rows_kept s s').
Proof.
  intros W. unfold truncate. wp_step. wp_use rezero_spec; [done|].
  intros s1 (W1 & Hz & Hv & Hl & Hn & Hk). wp_step.
  pose proof W1 as [? Hr ? ? ? ?].
  assert (Hlen : zlen (take (Z.to_nat (s_len s1)) (s_inner s1)) = s_len s1).
  { rewrite zlen_take. lia. }
  split_and!; simpl; try done.
  - split; simpl; rewrite ?Hlen; unfold MAX_CACHE_SIZE in *; try done; try lia.
    by apply Forall_take.
  - lia.
  - intros k Hk'. simpl in Hk'. rewrite <- Hk by lia. unfold ring_at; simpl.
    rewrite Hlen, Hz, !Z.mod_small by lia. rewrite zlookup_take.
    destruct (Z.ltb_spec (0 + k) (Z.of_nat (Z.to_nat (s_len s1)))); [done|lia].
Qed.

Lemma initialize_spec columns s n :
  storage_wf R columns s → 0 ≤ n → s_len s + n ≤ 536870912 →
  wp (initialize s n columns) (λ s', storage_wf R columns s' ∧
    s_visible_lines s' = s_visible_lines s ∧ s_len s' = s_len s + n ∧ rows_kept s s').
Proof.
  intros W Hn Hb. unfold initialize. pose proof W as [Hp Hr ? ? ? ?].
  pose proof (rp_bound _ _ Hp). unfold MAX_CACHE_SIZE in *.
  wp_step. wp_step. wp_step. wp_step.
  - wp_step. wp_use rezero_spec; [done|].
    intros s1 (W1 & Hz & Hv & Hl & Hlen & Hk). wp_step. wp_step.
    rewrite resize_rows_ok by lia. wp_step. wp_step. wp_step.
    pose proof W1 as [? Hr1 ? ? ? ?]. unfold MAX_CACHE_SIZE in *. wp_step. wp_step.
    { simpl. lia. }
    rewrite take_ge by (unfold zlen in *; lia).
    set (k := Z.to_nat _).
    assert (Hk' : Z.of_nat k = Z.max n 1000) by lia. clearbody k.
    wp_step. split_and!; simpl; [|done|lia|].
    + split; simpl; rewrite ?zlen_app, ?zlen_replicate; unfold MAX_CACHE_SIZE; try lia; [done|].
      apply Forall_app. split; [done|]. by apply Forall_replicate, Hp.
    + intros j Hj. simpl in Hj. rewrite <- Hk by lia. unfold ring_at; simpl.
      rewrite zlen_app, zlen_replicate, Hz, !Z.mod_small by lia.
      rewrite zlookup_app. destruct (Z.ltb_spec (0 + j) (zlen (s_inner s1))); [done|lia].
  - wp_step. wp_step. wp_step. wp_step. split_and!; simpl; try done; try lia.
    split; simpl; unfold MAX_CACHE_SIZE; (done || lia).
Qed.

Lemma rows_kept_trans s1 s2 s3 :
  rows_kept s1 s2 → rows_kept s2 s3 → s_len s3 ≤ s_len s2 → rows_kept s1 s3.
Proof. intros H12 H23 Hl k Hk. rewrite H23 by lia. apply H12. lia. Qed.

(** Only the number of active rows and of visible lines changed, in bounds. *)
Lemma storage_wf_resize columns s visible n :
  storage_wf R columns s → 1 ≤ visible ≤ n →
  n ≤ zlen (s_inner s) ≤ n + MAX_CACHE_SIZE → n ≤ 536870912 →
  storage_wf R columns (mkStorage (s_inner s) (s_zero s) visible n).
Proof. intros [] ? ? ?. by split; simpl. Qed.

Lemma shrink_lines_pre columns s n :
  storage_wf R columns s → 0 ≤ n < s_len s →
  wp (shrink_lines s n) (λ s', (∀ v, 1 ≤ v ≤ s_len s - n →
      storage_wf R columns (mkStorage (s_inner s') (s_zero s') v (s_len s'))) ∧
    s_visible_lines s' = s_visible_lines s ∧ s_len s' = s_len s - n ∧ rows_kept s s').
Proof.
  intros W Hn. pose proof W as [? Hr ? ? ? ?]. unfold shrink_lines, MAX_CACHE_SIZE in *.
  wp_step. wp_step. wp_step. wp_step. { simpl. lia. } simpl. wp_step.
  - (* The row cache is too large: it is cut off. *)
    unfold truncate. wp_step.
    set (s1 := mkStorage (s_inner s) (s_zero s) (s_visible_lines s) (s_len s - n)).
    assert (Hz : wp (rezero s1) (λ s', s_zero s' = 0 ∧ s_visible_lines s' = s_visible_lines s ∧
      s_len s' = s_len s - n ∧ zlen (s_inner s') = zlen (s_inner s) ∧
      Forall R (s_inner s') ∧
      ∀ k, 0 ≤ k < zlen (s_inner s) → ring_at s' k = ring_at s k)).
    { pose proof (rezero_spec columns s W) as Z0. revert Z0. unfold rezero; simpl.
      destruct (Z.eqb_spec (s_zero s) 0); [simpl; done|].
      unfold rotate_left. destruct (Z.leb_spec (s_zero s) (zlen (s_inner s))); [|lia].
      simpl. intros (W' & ? & ? & ? & ? & ?). split_and!; try done. apply W'. }
    wp_use Hz. intros s2 (Hz2 & Hv2 & Hl2 & Hn2 & Hr2 & Hk2). wp_step.
    assert (Hlen : zlen (take (Z.to_nat (s_len s2)) (s_inner s2)) = s_len s2).
    { rewrite zlen_take. lia. }
    split_and!; simpl; try done.
    + intros v Hv. split; simpl; rewrite ?Hlen; unfold MAX_CACHE_SIZE; try lia; [done|].
      by apply Forall_take.
    + intros k Hk. simpl in Hk. rewrite <- Hk2 by lia. unfold ring_at; simpl.
      rewrite Hlen, Hz2, !Z.mod_small by lia. rewrite zlookup_take.
      destruct (Z.ltb_spec (0 + k) (Z.of_nat (Z.to_nat (s_len s2)))); [done|lia].
  - wp_step. split_and!; simpl; try done.
    intros v Hv. apply storage_wf_resize; unfold MAX_CACHE_SIZE; (done || lia).
Qed.

Lemma shrink_lines_spec columns s n :
  storage_wf R columns s → 0 ≤ n ≤ s_len s - s_visible_lines s →
  wp (shrink_lines s n) (λ s', storage_wf R columns s' ∧
    s_visible_lines s' = s_visible_lines s ∧ s_len s' = s_len s - n ∧ rows_kept s s').
Proof.
  intros W Hn. pose proof W as [? Hr ? ? ? ?].
  wp_use (shrink_lines_pre columns); [done|lia|].
  intros s' (W' & Hv & Hl & Hk). split_and!; try done.
  specialize (W' (s_visible_lines s) ltac:(lia)). destruct s'. simpl in *. by subst.
Qed.

Lemma shrink_visible_lines_spec columns s v :
  storage_wf R columns s → 1 ≤ v ≤ s_visible_lines s →
  wp (shrink_visible_lines s v) (λ s', storage_wf R columns s' ∧
    s_visible_lines s' = v ∧ s_len s' = s_len s - (s_visible_lines s - v) ∧ rows_kept s s').
Proof.
  intros W Hv. pose proof W as [? Hr ? ? ? ?]. unfold shrink_visible_lines.
  wp_step. wp_step. wp_step. wp_use (shrink_lines_pre columns); [done|lia|].
  intros s' (W' & Hv' & Hl & Hk). wp_step. split_and!; try done. apply W'. lia.
Qed.

Lemma grow_visible_lines_spec columns s v :
  storage_wf R columns s → s_visible_lines s ≤ v →
  s_len s + (v - s_visible_lines s) ≤ 536870912 →
  wp (grow_visible_lines s v) (λ s', storage_wf R columns s' ∧
    s_visible_lines s' = v ∧ s_len s' = s_len s + (v - s_visible_lines s) ∧ rows_kept s s').
Proof.
  intros W Hv Hb. pose proof W as [Hp Hr ? ? ? ?]. unfold grow_visible_lines.
  wp_step. wp_step. wp_step. apply (wp_storage_get columns); [done|lia|].
  intros r _ [Hrl _]%(rp_wf _ _ Hp). wp_step. rewrite Hrl.
  wp_use (initialize_spec columns); [done|lia|lia|]. intros s' (W' & Hv' & Hl & Hk).
  wp_step. pose proof W' as [? ? ? ? ? ?]. split_and!; try done.
  apply storage_wf_resize; (done || lia).
Qed.

Lemma rows_of_lookup columns s k :
  storage_wf R columns s → 0 ≤ k →
  zlookup (rows_of s) k = if k <? s_len s then ring_at s k else None.
Proof.
  intros W Hk. pose proof W as [? Hr ? ? ? ?]. unfold rows_of.
  rewrite zlookup_take. replace (Z.of_nat (Z.to_nat (s_len s))) with (s_len s) by lia.
  destruct (Z.ltb_spec k (s_len s)); [|done].
  unfold ring_at. rewrite ring_index_cases by lia. rewrite zlookup_app, zlen_drop.
  destruct (Z.ltb_spec k (Z.max 0 (zlen (s_inner s) - Z.of_nat (Z.to_nat (s_zero s))))),
    (Z.leb_spec (zlen (s_inner s)) (s_zero s + k)); try lia.
  - rewrite zlookup_drop by lia. f_equal. lia.
  - rewrite zlookup_take.
    destruct (Z.ltb_spec (k - Z.max 0 (zlen (s_inner s) - Z.of_nat (Z.to_nat (s_zero s))))
      (Z.of_nat (Z.to_nat (s_zero s)))); [|lia]. f_equal. lia.
Qed.

Lemma rows_of_len columns s : storage_wf R columns s → zlen (rows_of s) = s_len s.
Proof.
  intros [? ? ? ? ? ?]. unfold rows_of.
  rewrite zlen_take, zlen_app, zlen_drop, zlen_take. lia.
Qed.

Lemma rows_of_wf columns s : storage_wf R columns s → Forall R (rows_of s).
Proof.
  intros [? Hr ? ? ? ?]. apply Forall_take, Forall_app.
  split; [by apply Forall_drop|by apply Forall_take].
Qed.

Lemma take_all_spec columns s :
  storage_wf R columns s →
  wp (take_all s) (λ '(s', rows), rows = rows_of s ∧
    s' = mkStorage [] 0 (s_visible_lines s) 0).
Proof.
  intros W. unfold take_all. wp_step. wp_use truncate_spec; [done|].
  intros s1 (W1 & Hz & Hv & Hl & Hn & Hk). wp_step. rewrite Hz, Hv. split; [|done].
  apply list_eq_zlookup. intros k. destruct (decide (0 ≤ k)); last first.
  { rewrite !(proj2 (zlookup_none _ _)) by lia. done. }
  rewrite (rows_of_lookup columns) by done. destruct (Z.ltb_spec k (s_len s)).
  - rewrite <- Hk by lia. unfold ring_at. by rewrite Hz, Hn, Z.add_0_l, Z.mod_small by lia.
  - apply zlookup_none. lia.
Qed.

Lemma replace_inner_wf columns s rows :
  row_pred columns R → Forall R rows →
  1 ≤ s_visible_lines s ≤ zlen rows → zlen rows ≤ 536870912 →
  storage_wf R columns (replace_inner s rows).
Proof. intros. split; simpl; unfold MAX_CACHE_SIZE; (done || lia). Qed.

Lemma with_capacity_ok visible columns :
  1 ≤ columns → 0 ≤ visible →
  with_capacity visible columns =
  Ok (mkStorage (replicate (Z.to_nat visible) (fresh_row columns)) 0 visible visible).
Proof.
  intros. unfold with_capacity. rewrite resize_rows_ok by lia. cbn [mbind exec_bind].
  rewrite take_nil, Z.sub_0_r. done.
Qed.

Lemma with_capacity_wf visible columns :
  row_pred columns R → 1 ≤ visible ≤ 536870912 →
  wp (with_capacity visible columns) (λ s, storage_wf R columns s ∧
    s_visible_lines s = visible ∧ s_len s = visible).
Proof.
  intros Hp ?. pose proof (rp_bound _ _ Hp). rewrite with_capacity_ok by lia. split; [|done].
  split; simpl; rewrite ?zlen_replicate; unfold MAX_CACHE_SIZE; try lia; [done|].
  by apply Forall_replicate, Hp.
Qed.
End storage_facts.

(** ** Refinement of a list of rows

    The abstract buffer is the list of its rows, bottommost line first.  The
    rows that a rotation or an initialization brings in are not specified, they
    come from the cache; the grid resets them. *)

Inductive storage_op :=
  | OpSwap (a b : Z)
  | OpRotateUp (n : Z)
  | OpInitialize (n : Z)
  | OpShrink (n : Z)
  | OpTruncate.

Section refinement.
Context {T D : Type} `{GridCellLaws T D}.
Context (R : Row T → Prop).
Implicit Types (s : Storage T) (rows : list (Row T)).

(** The calls, as the grid makes them. *)
Definition run_op (columns : Z) (s : Storage T) (op : storage_op) : exec (Storage T) :=
  match op with
  | OpSwap a b => storage_swap s a b
  | OpRotateUp n => storage_rotate s (- n)
  | OpInitialize n => initialize s n columns
  | OpShrink n => shrink_lines s n
  | OpTruncate => truncate s
  end.

(** When a call is allowed on a buffer of [len] rows with [visible] lines. *)
Definition op_pre (visible len : Z) (op : storage_op) : Prop :=
  match op with
  | OpSwap a b => visible - len ≤ a < visible ∧ visible - len ≤ b < visible
  | OpRotateUp n => 0 ≤ n ≤ len
  | OpInitialize n => 0 ≤ n ∧ len + n ≤ 536870912
  | OpShrink n => 0 ≤ n ≤ len - visible
  | OpTruncate => True
  end.

(** What it does to the list of rows. *)
Definition op_post (visible : Z) (rows rows' : list (Row T)) (op : storage_op) : Prop :=
  match op with
  | OpSwap a b =>
      zlen rows' = zlen rows ∧
      ∀ k, zlookup rows' k =
        if k =? visible - 1 - b then zlookup rows (visible - 1 - a)
        else if k =? visible - 1 - a then zlookup rows (visible - 1 - b)
        else zlookup rows k
  | OpRotateUp n =>
      ∃ fresh, zlen fresh = n ∧ rows' = fresh ++ take (Z.to_nat (zlen rows - n)) rows
  | OpInitialize n => ∃ fresh, zlen fresh = n ∧ rows' = rows ++ fresh
  | OpShrink n => rows' = take (Z.to_nat (zlen rows - n)) rows
  | OpTruncate => rows' = rows
  end.

Lemma rows_of_negative s k : k < 0 → zlookup (rows_of s) k = None.
Proof. intros. apply zlookup_none. lia. Qed.

Lemma rows_of_kept columns s s' :
  storage_wf R columns s → storage_wf R columns s' → rows_kept s s' → s_len s ≤ s_len s' →
  ∃ fresh, zlen fresh = s_len s' - s_len s ∧ rows_of s' = rows_of s ++ fresh.
Proof.
  intros W W' Hk Hl. exists (drop (Z.to_nat (s_len s)) (rows_of s')).
  pose proof (rows_of_len R columns s W) as L. pose proof (rows_of_len R columns s' W') as L'.
  pose proof (sw_visible _ _ _ W). split; [rewrite zlen_drop; lia|].
  rewrite <- (take_drop (Z.to_nat (s_len s)) (rows_of s')) at 1. f_equal.
  apply list_eq_zlookup. intros k. rewrite zlookup_take.
  replace (Z.of_nat (Z.to_nat (s_len s))) with (s_len s) by lia.
  destruct (decide (0 ≤ k)); [|rewrite !rows_of_negative by lia; by case_match].
  rewrite !(rows_of_lookup R columns) by done.
  destruct (Z.ltb_spec k (s_len s)), (Z.ltb_spec k (s_len s')); try done; [|lia].
  apply Hk. lia.
Qed.

Lemma rows_of_shrunk columns s s' :
  storage_wf R columns s → storage_wf R columns s' → rows_kept s s' → s_len s' ≤ s_len s →
  rows_of s' = take (Z.to_nat (s_len s')) (rows_of s).
Proof.
  intros W W' Hk Hl. apply list_eq_zlookup. intros k. rewrite zlookup_take.
  pose proof (sw_visible _ _ _ W').
  replace (Z.of_nat (Z.to_nat (s_len s'))) with (s_len s') by lia.
  destruct (decide (0 ≤ k)); [|rewrite !rows_of_negative by lia; by case_match].
  rewrite !(rows_of_lookup R columns) by done.
  destruct (Z.ltb_spec k (s_len s')), (Z.ltb_spec k (s_len s)); try done; [|lia].
  apply Hk. lia.
Qed.

Lemma rows_of_rotated columns s s' n :
  storage_wf R columns s → storage_wf R columns s' → rotated s (- n) s' → 0 ≤ n ≤ s_len s →
  ∃ fresh, zlen fresh = n ∧ rows_of s' = fresh ++ take (Z.to_nat (s_len s - n)) (rows_of s).
Proof.
  intros W W' (_ & Hl & Hin & Hk) Hn. exists (take (Z.to_nat n) (rows_of s')).
  pose proof (rows_of_len R columns s W) as L. pose proof (rows_of_len R columns s' W') as L'.
  pose proof W as [? ? ? ? ? ?].
  split; [rewrite zlen_take; lia|].
  rewrite <- (take_drop (Z.to_nat n) (rows_of s')) at 1. f_equal.
  apply list_eq_zlookup. intros k.
  destruct (decide (0 ≤ k)); last by rewrite !(proj2 (zlookup_none _ _)) by lia.
  rewrite zlookup_drop, zlookup_take, !(rows_of_lookup R columns) by (done || lia).
  replace (Z.of_nat (Z.to_nat n) + k) with (n + k) by lia.
  replace (Z.of_nat (Z.to_nat (s_len s - n))) with (s_len s - n) by lia.
  destruct (Z.ltb_spec (n + k) (s_len s')), (Z.ltb_spec k (s_len s - n)), (Z.ltb_spec k (s_len s));
    try lia; try done.
  rewrite Hk. replace (n + k + - n) with k by lia. by rewrite Z.mod_small by lia.
Qed.

Lemma op_refines columns s op :
  storage_wf R columns s → op_pre (s_visible_lines s) (s_len s) op →
  wp (run_op columns s op) (λ s', storage_wf R columns s' ∧
    s_visible_lines s' = s_visible_lines s ∧
    op_post (s_visible_lines s) (rows_of s) (rows_of s') op).
Proof.
  intros W Hpre. pose proof W as [? ? ? ? ? ?].
  pose proof (rows_of_len R columns s W) as L.
  destruct op as [a b|n|n|n|]; simpl in *.
  - apply (wp_storage_swap R columns); [done|lia..|].
    intros s' W' (Hz & Hv & Hl & Hn) Hlines. split_and!; [done..| |].
    { by rewrite !(rows_of_len R columns) by done. }
    intros k. destruct (decide (0 ≤ k)); last first.
    { destruct (Z.eqb_spec k (s_visible_lines s - 1 - b)), (Z.eqb_spec k (s_visible_lines s - 1 - a));
        try lia. by rewrite !rows_of_negative by lia. }
    rewrite !(rows_of_lookup R columns) by (done || lia). rewrite Hl.
    destruct (Z.ltb_spec k (s_len s)).
    + specialize (Hlines (s_visible_lines s - 1 - k)). unfold line_at, ring_line in Hlines.
      rewrite Hv in Hlines.
      replace (s_visible_lines s - 1 - (s_visible_lines s - 1 - k)) with k in Hlines by lia.
      rewrite Hlines by lia.
      destruct (Z.eqb_spec (s_visible_lines s - 1 - k) b), (Z.eqb_spec k (s_visible_lines s - 1 - b));
        try lia; [by destruct (Z.ltb_spec (s_visible_lines s - 1 - a) (s_len s)); [|lia]|].
      destruct (Z.eqb_spec (s_visible_lines s - 1 - k) a), (Z.eqb_spec k (s_visible_lines s - 1 - a));
        try lia; [by destruct (Z.ltb_spec (s_visible_lines s - 1 - b) (s_len s)); [|lia]|done].
    + destruct (Z.eqb_spec k (s_visible_lines s - 1 - b)), (Z.eqb_spec k (s_visible_lines s - 1 - a));
        try lia. done.
  - wp_use (storage_rotate_spec R columns); [done|lia|]. intros s' [W' Hr].
    split_and!; [done|apply Hr|]. rewrite L. by apply (rows_of_rotated columns).
  - wp_use (initialize_spec R columns); [done|lia..|]. intros s' (W' & Hv & Hl & Hk).
    split_and!; [done..|]. destruct (rows_of_kept columns s s') as (f & Hf & E); [done..|lia|].
    exists f. split; [lia|done].
  - wp_use (shrink_lines_spec R columns); [done|lia|]. intros s' (W' & Hv & Hl & Hk).
    split_and!; [done..|]. rewrite L, <- Hl. apply (rows_of_shrunk columns); (done || lia).
  - wp_use (truncate_spec R columns); [done|]. intros s' (W' & _ & Hv & Hl & _ & Hk).
    split_and!; [done..|]. rewrite (rows_of_shrunk columns s s') by (done || lia).
    apply take_ge. unfold zlen in L. lia.
Qed.
End refinement.

(** ** Claims *)

(** The division-free [compute_index] is the modular index of the ring: on
    a well-formed storage it returns, for every active line, the position
    [(zero + distance from the bottom) mod inner.len()], and none of its
    arithmetic or assertions panics. *)
Theorem compute_index_modular {T D} `{GridCellLaws T D} (R : Row T → Prop) (columns : Z)
    (s : Storage T) (l : Z) :
  storage_wf R columns s → s_visible_lines s - s_len s ≤ l < s_visible_lines s →
  compute_index s l = Ok ((s_zero s + (s_visible_lines s - 1 - l)) mod zlen (s_inner s)) ∧
  0 ≤ (s_zero s + (s_visible_lines s - 1 - l)) mod zlen (s_inner s) < zlen (s_inner s).
Proof.
  intros W Hl. split; [by apply (compute_index_ok R columns)|].
  apply Z.mod_pos_bound. destruct W. lia.
Qed.


(** [take_all] hands out exactly the active rows, bottommost line first,
    whatever the position of the ring, and leaves the storage empty. *)
Theorem take_all_rows {T D} `{GridCellLaws T D} (R : Row T → Prop) (columns : Z) (s : Storage T) :
  storage_wf R columns s →
  take_all s = Ok (mkStorage [] 0 (s_visible_lines s) 0, rows_of s).
Proof.
  intros W. pose proof (take_all_spec R columns s W) as G.
  apply wp_exists in G as ([s' rows] & -> & -> & ->). done.
Qed.
