(* ===== verification/Ansi.v ===== *)
(** * The interface to the escape sequence parser and to Unicode

    The crates [vte], [unicode-width] and [base64] are not part of the
    repository.  The types whose variants the source names are inductive types
    here; everything else the terminal calls is a field of the class [Ansi]. *)

From S2P Require Import Prelude.
#[local] Open Scope Z_scope.

(** A [char] is its code point, a [String] the list of its characters. *)
Abbreviation char := Z.
Abbreviation text := (list Z).

Definition ascii_char (a : Ascii.ascii) : char := Z.of_nat (Ascii.nat_of_ascii a).

Fixpoint str (s : string) : text :=
  match s with
  | EmptyString => []
  | String a s => ascii_char a :: str s
  end.

(** Decimal digits of an integer, as [format!] prints it. *)
Definition show (z : Z) : text := str (pretty z).

Definition SPACE : char := 32.
Definition TAB : char := 9.
Definition NEWLINE : char := 10.
Definition ESC : char := 27.

Record Rgb := mkRgb { red : Z; green : Z; blue : Z }.

Inductive NamedColor :=
  | Black | Red | Green | Yellow | Blue | Magenta | Cyan | White
  | BrightBlack | BrightRed | BrightGreen | BrightYellow | BrightBlue | BrightMagenta
  | BrightCyan | BrightWhite
  | Foreground | Background | CursorColor
  | DimBlack | DimRed | DimGreen | DimYellow | DimBlue | DimMagenta | DimCyan | DimWhite
  | BrightForeground | DimForeground.

Inductive Color :=
  | Named (n : NamedColor)
  | Spec (c : Rgb)
  | Indexed (i : Z).

#[global] Instance Rgb_eq_dec : EqDecision Rgb.
Proof. solve_decision. Defined.
#[global] Instance NamedColor_eq_dec : EqDecision NamedColor.
Proof. solve_decision. Defined.
#[global] Instance Color_eq_dec : EqDecision Color.
Proof. solve_decision. Defined.

Inductive CursorShape := Block | Underline | Beam | HollowBlock | Hidden.
#[global] Instance CursorShape_eq_dec : EqDecision CursorShape.
Proof. solve_decision. Defined.

Record CursorStyle := mkCursorStyle { shape : CursorShape; blinking : bool }.

(** The modes of [vte::ansi] that the source names. *)
Inductive NamedMode := Insert | LineFeedNewLine.

Inductive Mode := ModeNamed (m : NamedMode) | ModeUnknown (m : Z).

Inductive NamedPrivateMode :=
  | CursorKeys | ColumnMode | Origin | LineWrap | BlinkingCursor | ShowCursor
  | ReportMouseClicks | ReportCellMouseMotion | ReportAllMouseMotion | ReportFocusInOut
  | Utf8Mouse | SgrMouse | AlternateScroll | UrgencyHints | SwapScreenAndSetRestoreCursor
  | BracketedPaste | SyncUpdate.

Inductive PrivateMode := PrivateNamed (m : NamedPrivateMode) | PrivateUnknown (m : Z).

Inductive LineClearMode := LineRight | LineLeft | LineAll.
Inductive ClearMode := ClearBelow | ClearAbove | ClearAll | ClearSaved.
Inductive TabulationClearMode := TabCurrent | TabAll.
Inductive KeyboardModesApplyBehavior := Replace | Union | Difference.

(** [Attr]; [AttrOther] stands for the attributes the terminal ignores. *)
Inductive Attr :=
  | AttrReset | Bold | Dim | Italic | AttrUnderline | DoubleUnderline | Undercurl
  | DottedUnderline | DashedUnderline | Reverse | AttrHidden | Strike
  | CancelBold | CancelBoldDim | CancelItalic | CancelUnderline | CancelReverse
  | CancelHidden | CancelStrike
  | AttrForeground (c : Color) | AttrBackground (c : Color) | UnderlineColor (c : option Color)
  | AttrOther.

(** What the model takes from the external crates. *)
Class Ansi := {
  (** [StandardCharset], its [Default] and [StandardCharset::map]. *)
  StandardCharset : Type;
  charset_default : StandardCharset;
  charset_map : StandardCharset → char → char;
  (** [CharsetIndex], its [Default] and the cast [as usize]. *)
  CharsetIndex : Type;
  charset_index_default : CharsetIndex;
  charset_index_as_usize : CharsetIndex → Z;
  (** [CursorStyle::default()]. *)
  cursor_style_default : CursorStyle;
  (** The casts [NamedColor as usize], [NamedMode as u16], [NamedPrivateMode as u16]. *)
  named_color_as_usize : NamedColor → Z;
  named_mode_raw : NamedMode → Z;
  named_private_mode_raw : NamedPrivateMode → Z;
  (** [UnicodeWidthChar::width]. *)
  char_width : char → option Z;
  (** The bits of [KeyboardModes]. *)
  KM_NO_MODE : Z;
  KM_DISAMBIGUATE_ESC_CODES : Z;
  KM_REPORT_EVENT_TYPES : Z;
  KM_REPORT_ALTERNATE_KEYS : Z;
  KM_REPORT_ALL_KEYS_AS_ESC : Z;
  KM_REPORT_ASSOCIATED_TEXT : Z;
  (** [Base64.decode], [Base64.encode] and [String::from_utf8]. *)
  base64_decode : list Z → option (list Z);
  base64_encode : text → text;
  string_from_utf8 : list Z → option text }.

(** The documented facts about them that the terminal relies on: the cast of a
    [CharsetIndex] indexes four charsets, and the width of a character is at
    most two columns. *)
Class AnsiLaws `{Ansi} : Prop := {
  charset_index_range i : 0 ≤ charset_index_as_usize i < 4;
  char_width_range c w : char_width c = Some w → 0 ≤ w ≤ 2 }.
