(* ===== verification/Grid.v ===== *)
(** * The grid (alacritty_terminal/src/grid/mod.rs)

    A grid is a ring buffer of rows with a cursor, the size of the screen, the
    offset of the displayed area and the limit of the scrollback.  This file has
    the operations; GridFacts.v has the invariant and the theorems. *)

From S2P Require Import Prelude Index Ansi GridCell Row Storage.
#[local] Open Scope Z_scope.

Inductive Scroll := Delta (count : Z) | PageUp | PageDown | Top | Bottom.

(** [std::ops::Bound<Line>]. *)
Inductive Bound := Included (l : Z) | Excluded (l : Z) | Unbounded.

Section grid.
Context `{Ansi} {T D : Type} `{GridCell T D}.

(** [Charsets], an array of four charsets. *)
Record Cursor := mkCursor {
  point : Point;
  template : T;
  charsets : list StandardCharset;
  input_needs_wrap : bool }.

Definition cursor_default : Cursor :=
  mkCursor default_point cell_default (replicate 4 charset_default) false.

(** [Charsets] is indexed by [CharsetIndex]. *)
Definition charsets_get (cs : list StandardCharset) (i : CharsetIndex) : exec StandardCharset :=
  vec_get cs (charset_index_as_usize i).
Definition charsets_set (cs : list StandardCharset) (i : CharsetIndex) (c : StandardCharset)
    : exec (list StandardCharset) :=
  vec_set cs (charset_index_as_usize i) c.

Record Grid := mkGrid {
  cursor : Cursor;
  saved_cursor : Cursor;
  raw : Storage T;
  g_columns : Z;
  g_lines : Z;
  display_offset : Z;
  max_scroll_limit : Z }.

#[global] Instance Grid_dimensions : Dimensions Grid := {
  total_lines g := s_len (raw g);
  screen_lines := g_lines;
  columns := g_columns }.

Implicit Types (g : Grid).

(** *** Field updates *)

Definition with_raw g (s : Storage T) : Grid :=
  mkGrid (cursor g) (saved_cursor g) s (g_columns g) (g_lines g) (display_offset g)
    (max_scroll_limit g).
Definition with_cursor g (c : Cursor) : Grid :=
  mkGrid c (saved_cursor g) (raw g) (g_columns g) (g_lines g) (display_offset g)
    (max_scroll_limit g).
Definition with_saved_cursor g (c : Cursor) : Grid :=
  mkGrid (cursor g) c (raw g) (g_columns g) (g_lines g) (display_offset g) (max_scroll_limit g).
Definition with_display_offset g (o : Z) : Grid :=
  mkGrid (cursor g) (saved_cursor g) (raw g) (g_columns g) (g_lines g) o (max_scroll_limit g).
Definition with_lines g (n : Z) : Grid :=
  mkGrid (cursor g) (saved_cursor g) (raw g) (g_columns g) n (display_offset g)
    (max_scroll_limit g).
Definition with_columns g (n : Z) : Grid :=
  mkGrid (cursor g) (saved_cursor g) (raw g) n (g_lines g) (display_offset g)
    (max_scroll_limit g).
Definition with_max_scroll_limit g (n : Z) : Grid :=
  mkGrid (cursor g) (saved_cursor g) (raw g) (g_columns g) (g_lines g) (display_offset g) n.

Definition cursor_at (c : Cursor) (p : Point) : Cursor :=
  mkCursor p (template c) (charsets c) (input_needs_wrap c).
Definition cursor_with_template (c : Cursor) (t : T) : Cursor :=
  mkCursor (point c) t (charsets c) (input_needs_wrap c).
Definition cursor_with_charsets (c : Cursor) (cs : list StandardCharset) : Cursor :=
  mkCursor (point c) (template c) cs (input_needs_wrap c).
Definition cursor_wrap (c : Cursor) (b : bool) : Cursor :=
  mkCursor (point c) (template c) (charsets c) b.

Definition goto_point g (p : Point) : Grid := with_cursor g (cursor_at (cursor g) p).
Definition set_wrap g (b : bool) : Grid := with_cursor g (cursor_wrap (cursor g) b).

(** *** Construction and scrollback *)

Definition grid_new (lines columns limit : Z) : exec Grid :=
  raw ← with_capacity lines columns;
  mret (mkGrid cursor_default cursor_default raw columns lines 0 limit).

Definition update_history g (size : Z) : exec Grid :=
  let current := history_size g in
  raw' ← (if size <? current then
            n ← usize_sub current size; shrink_lines (raw g) n
          else Ok (raw g));
  let g := with_raw g raw' in
  mret (with_max_scroll_limit (with_display_offset g (Z.min (display_offset g) size)) size).

Definition scroll_display g (scroll : Scroll) : exec Grid :=
  offset ← match scroll with
    | Delta count =>
        x ← i32_add (as_i32 (display_offset g)) count;
        mret (Z.min (as_usize (Z.max x 0)) (history_size g))
    | PageUp =>
        x ← usize_add (display_offset g) (g_lines g);
        mret (Z.min x (history_size g))
    | PageDown => mret (saturating_sub (display_offset g) (g_lines g))
    | Top => mret (history_size g)
    | Bottom => mret 0
    end;
  mret (with_display_offset g offset).

Definition increase_scroll_limit g (count : Z) : exec Grid :=
  room ← usize_sub (max_scroll_limit g) (history_size g);
  let count := Z.min count room in
  if negb (count =? 0) then
    raw' ← initialize (raw g) count (g_columns g);
    mret (with_raw g raw')
  else mret g.

Definition decrease_scroll_limit g (count : Z) : exec Grid :=
  let count := Z.min count (history_size g) in
  if negb (count =? 0) then
    raw' ← shrink_lines (raw g) (Z.min count (history_size g));
    let g := with_raw g raw' in
    mret (with_display_offset g (Z.min (display_offset g) (history_size g)))
  else mret g.

(** *** Scrolling *)

(** [for i in a..b { self.raw[i].reset(&self.cursor.template) }]. *)
Definition reset_lines g (a b : Z) : exec Grid :=
  raw' ← for_range a b
    (λ i s, storage_update s i (λ r, row_reset r (template (cursor g)))) (raw g);
  mret (with_raw g raw').

(** The same loop over [(a..b).rev()]. *)
Definition reset_lines_rev g (a b : Z) : exec Grid :=
  raw' ← for_range_rev a b
    (λ i s, storage_update s i (λ r, row_reset r (template (cursor g)))) (raw g);
  mret (with_raw g raw').

(** [for i in (0..n).map(Line::from) { self.raw[i].reset(&self.cursor.template) }], for
    a [usize] bound. *)
Definition reset_first_lines g (n : Z) : exec Grid :=
  raw' ← for_range 0 n
    (λ i s, storage_update s (as_i32 i) (λ r, row_reset r (template (cursor g)))) (raw g);
  mret (with_raw g raw').

(** [scroll_down]; the region is [start..end_]. *)
Definition scroll_down g (start end_ positions : Z) : exec Grid :=
  size ← i32_sub end_ start;
  if size <=? as_i32 positions then reset_lines g start end_
  else if max_scroll_limit g =? 0 then
    let screen := as_i32 (g_lines g) in
    raw1 ← for_range end_ screen
      (λ i s, j ← i32_sub i (as_i32 positions); storage_swap s i j) (raw g);
    raw2 ← rotate_down raw1 positions;
    g ← reset_first_lines (with_raw g raw2) positions;
    raw3 ← for_range 0 start
      (λ i s, j ← i32_add i (as_i32 positions); storage_swap s i j) (raw g);
    mret (with_raw g raw3)
  else
    first ← i32_add start (as_i32 positions);
    raw1 ← for_range_rev first end_
      (λ i s, j ← i32_sub i (as_i32 positions); storage_swap s i j) (raw g);
    reset_lines_rev (with_raw g raw1) start first.

(** [scroll_up]. *)
Definition scroll_up g (start end_ positions : Z) : exec Grid :=
  size ← i32_sub end_ start;
  if (size <=? as_i32 positions) && negb (start =? 0) then reset_lines g start end_
  else
    g ← (if negb (display_offset g =? 0) then
           x ← usize_add (display_offset g) positions;
           mret (with_display_offset g (Z.min x (max_scroll_limit g)))
         else mret g);
    g ← (if start =? 0 then
           g ← increase_scroll_limit g positions;
           raw1 ← for_range_rev 0 start
             (λ i s, j ← i32_add i (as_i32 positions); storage_swap s i j) (raw g);
           n ← isize_neg (as_isize positions);
           raw2 ← storage_rotate raw1 n;
           raw3 ← for_range_rev end_ (as_i32 (g_lines g))
             (λ i s, j ← i32_sub i (as_i32 positions); storage_swap s i j) raw2;
           mret (with_raw g raw3)
         else
           last ← i32_sub end_ (as_i32 positions);
           raw1 ← for_range start last
             (λ i s, j ← i32_add i (as_i32 positions); storage_swap s i j) (raw g);
           mret (with_raw g raw1));
    first ← i32_sub end_ (as_i32 positions);
    reset_lines g first end_.

(** *** Indexing *)

(** [&grid[line]] and [&grid[point]]. *)
Definition grid_row g (l : Z) : exec (Row T) := storage_get (raw g) l.
Definition grid_cell g (p : Point) : exec T := r ← grid_row g (line p); row_get r (column p).

(** [grid[line]] as a place that [f] changes. *)
Definition grid_update_row g (l : Z) (f : Row T → exec (Row T)) : exec Grid :=
  raw' ← storage_update (raw g) l f;
  mret (with_raw g raw').

(** [grid[point] = f(grid[point])]. *)
Definition grid_update_cell g (p : Point) (f : T → T) : exec Grid :=
  grid_update_row g (line p) (λ r, row_modify r (column p) f).

(** [f(self.cursor_cell())]. *)
Definition update_cursor_cell g (f : T → T) : exec Grid := grid_update_cell g (point (cursor g)) f.

(** *** Iterators *)

(** [GridIterator]: the position and the last cell. *)
Record GridIterator := mkIter { it_point : Point; it_end : Point }.

Definition iter_from g (p : Point) : exec GridIterator :=
  bottom ← bottommost_line g;
  last_col ← last_column g;
  mret (mkIter p (mkPoint bottom last_col)).

Definition display_iter g : exec GridIterator :=
  last_col ← last_column g;
  x ← i32_neg (as_i32 (display_offset g));
  first ← i32_sub x 1;
  bottom ← bottommost_line g;
  x ← i32_add first (as_i32 (g_lines g));
  mret (mkIter (mkPoint first last_col) (mkPoint (Z.min x bottom) last_col)).

(** [GridIterator::next]: the yielded point and cell, and the iterator. *)
Definition iter_next g (it : GridIterator) : exec (option (Point * T) * GridIterator) :=
  if point_ge (it_point it) (it_end it) then mret (None, it)
  else
    last_col ← last_column g;
    p ← (if last_col <=? column (it_point it) then
           l ← i32_add (line (it_point it)) 1;
           mret (mkPoint l 0)
         else
           c ← usize_add (column (it_point it)) 1;
           mret (mkPoint (line (it_point it)) c));
    cell ← grid_cell g p;
    mret (Some (p, cell), mkIter p (it_end it)).

(** [GridIterator::prev]. *)
Definition iter_prev g (it : GridIterator) : exec (option (Point * T) * GridIterator) :=
  top ← topmost_line g;
  last_col ← last_column g;
  if point_le (it_point it) (mkPoint top 0) then mret (None, it)
  else
    p ← (if column (it_point it) =? 0 then
           l ← i32_sub (line (it_point it)) 1;
           mret (mkPoint l last_col)
         else
           c ← usize_sub (column (it_point it)) 1;
           mret (mkPoint (line (it_point it)) c));
    cell ← grid_cell g p;
    mret (Some (p, cell), mkIter p (it_end it)).

(** [GridIterator::size_hint]: both components are this number. *)
Definition iter_size_hint g (it : GridIterator) : exec Z :=
  if point_ge (it_point it) (it_end it) then mret 0
  else if line (it_point it) =? line (it_end it) then
    usize_sub (column (it_end it)) (column (it_point it))
  else
    c1 ← usize_add (column (it_point it)) 1;
    let cols_on_first_line := saturating_sub (g_columns g) c1 in
    x ← i32_sub (line (it_end it)) (line (it_point it));
    middle_lines ← usize_sub (as_usize x) 1;
    cols_on_last_line ← usize_add (column (it_end it)) 1;
    m ← usize_mul middle_lines (g_columns g);
    n ← usize_add cols_on_first_line m;
    usize_add n cols_on_last_line.

(** *** Clearing *)

(** The loop of [clear_viewport]: move back to the last cell of the screen that
    is not empty; [fuel] bounds the number of steps. *)
Fixpoint viewport_scan (fuel : nat) g (it : GridIterator) : exec GridIterator :=
  match fuel with
  | O => Panic OutOfFuel
  | S fuel =>
      '(item, it) ← iter_prev g it;
      match item with
      | Some (p, cell) =>
          if negb (cell_is_empty cell) || (line p <? 0) then mret it
          else viewport_scan fuel g it
      | None => mret it
      end
  end.

Definition clear_viewport g : exec Grid :=
  l ← i32_sub (as_i32 (g_lines g)) 1;
  it ← iter_from g (mkPoint l (g_columns g));
  it ← viewport_scan (Z.to_nat (g_lines g * g_columns g + 2)) g it;
  _ ← assert_ (-1 <=? line (it_point it));
  x ← i32_add (line (it_point it)) 1;
  let positions := as_usize x in
  g ← scroll_up g 0 (as_i32 (g_lines g)) positions;
  n ← usize_sub (g_lines g) positions;
  reset_first_lines g n.

Definition clear_history g : exec Grid :=
  raw' ← shrink_lines (raw g) (history_size g);
  mret (with_display_offset (with_raw g raw') 0).

Definition grid_reset g : exec Grid :=
  g ← clear_history g;
  let g := with_cursor (with_saved_cursor g cursor_default) cursor_default in
  let g := with_display_offset g 0 in
  top ← topmost_line g;
  reset_lines g top (as_i32 (g_lines g)).

Definition reset_region g (lo hi : Bound) : exec Grid :=
  start ← match lo with
    | Included l => mret l
    | Excluded l => i32_add l 1
    | Unbounded => mret 0
    end;
  end_ ← match hi with
    | Included l => i32_add l 1
    | Excluded l => mret l
    | Unbounded => mret (as_i32 (g_lines g))
    end;
  _ ← assert_ (start <? as_i32 (g_lines g));
  _ ← assert_ (end_ <=? as_i32 (g_lines g));
  reset_lines g start end_.

Definition grid_truncate g : exec Grid :=
  raw' ← truncate (raw g); mret (with_raw g raw').

Definition initialize_all g : exec Grid :=
  g ← grid_truncate g;
  n ← usize_sub (max_scroll_limit g) (history_size g);
  raw' ← initialize (raw g) n (g_columns g);
  mret (with_raw g raw').
End grid.
Arguments Cursor {_} T.
Arguments Grid {_} T.
