(* ===== verification/GridFacts.v ===== *)
(** * Facts about the grid

    The invariant of a grid and the behaviour of scrolling: what every line of
    the buffer holds after [scroll_up] and [scroll_down]. *)

From S2P Require Import Prelude Index Ansi GridCell Row Storage Grid.
#[local] Open Scope Z_scope.

Section facts.
Context `{Ansi} {T D : Type} `{GridCellLaws T D}.
Context (R : Row T → Prop).
Implicit Types (g : Grid T) (s : Storage T).

(** The invariant: the ring buffer is well-formed for the width of the grid,
    has at least the rows of the screen and at most [max_scroll_limit] more. *)
Record grid_wf g : Prop := {
  gw_storage : storage_wf R (g_columns g) (raw g);
  gw_visible : s_visible_lines (raw g) = g_lines g;
  gw_history : s_len (raw g) ≤ g_lines g + max_scroll_limit g;
  gw_limit : 0 ≤ max_scroll_limit g ∧ g_lines g + max_scroll_limit g ≤ 536870912;
  gw_offset : 0 ≤ display_offset g ≤ max_scroll_limit g }.

Lemma grid_dims g : grid_wf g → dims_ok g.
Proof.
  intros [[Hp _ _ ? _ ?] ? ? ? ?]. pose proof (rp_bound _ _ Hp).
  unfold dims_ok; simpl. lia.
Qed.

(** The row of a line of the buffer. *)
Definition g_line g (l : Z) : option (Row T) := line_at (raw g) l.

(** The lines of the buffer, scrollback included. *)
Definition g_active g (l : Z) : Prop := g_lines g - s_len (raw g) ≤ l < g_lines g.

(** Everything but the rows and the display offset is as before. *)
Definition same_frame g (g' : Grid T) : Prop :=
  cursor g' = cursor g ∧ saved_cursor g' = saved_cursor g ∧ g_columns g' = g_columns g ∧
  g_lines g' = g_lines g ∧ max_scroll_limit g' = max_scroll_limit g.

Lemma same_shape_trans s1 s2 s3 : same_shape s1 s2 → same_shape s2 s3 → same_shape s1 s3.
Proof. unfold same_shape. naive_solver congruence. Qed.

Lemma same_shape_ring s s' l : same_shape s s' → ring_line s' l ↔ ring_line s l.
Proof. unfold same_shape, ring_line. intros (? & ? & ? & ?). lia. Qed.

(** *** Loops of swaps *)

(** Descending: row [i - p] moves to [i] for every [i] of [a..b]. *)
Lemma swap_loop_down columns s a b p (f : Z → Storage T → exec (Storage T)) (Q : Storage T → Prop) :
  storage_wf R columns s → 0 ≤ p ≤ 536870912 → a ≤ b →
  s_visible_lines s - s_len s ≤ a - p → b ≤ s_visible_lines s →
  (∀ i s, a ≤ i < b → f i s = storage_swap s i (i - p)) →
  (∀ s', storage_wf R columns s' → same_shape s s' →
     (∀ m, a ≤ m < b → line_at s' m = line_at s (m - p)) →
     (∀ m, ring_line s m → m < a - p ∨ b ≤ m → line_at s' m = line_at s m) → Q s') →
  wp (for_range_rev a b f s) Q.
Proof.
  intros W Hp Hab Ha Hb Hf HQ.
  apply wp_for_range_rev with (I := λ i s', storage_wf R columns s' ∧ same_shape s s' ∧
    (∀ m, i ≤ m < b → line_at s' m = line_at s (m - p)) ∧
    (∀ m, ring_line s m → m < i - p ∨ b ≤ m → line_at s' m = line_at s m)).
  - split_and!; [done|done|lia|done].
  - intros i s1 Hi (W1 & Sh & H1' & H2'). rewrite Hf by done.
    pose proof Sh as (? & ? & ? & ?). pose proof W as [? ? ? ? ? ?].
    apply (wp_storage_swap R columns); [done|lia..|].
    intros s2 W2 Sh2 L2. split_and!; [done|by eapply same_shape_trans| |].
    + intros m Hm. rewrite L2 by (apply (same_shape_ring s); [done|unfold ring_line; lia]).
      destruct (Z.eqb_spec m (i - p)) as [->|].
      * assert (p = 0) by lia. subst p.
        rewrite H2' by (unfold ring_line; lia). f_equal. lia.
      * destruct (Z.eqb_spec m i) as [->|].
        -- apply H2'; [unfold ring_line; lia|lia].
        -- apply H1'. lia.
    + intros m Hr Hm. rewrite L2 by by apply (same_shape_ring s).
      destruct (Z.eqb_spec m (i - p)), (Z.eqb_spec m i); try lia.
      apply H2'; [done|lia].
  - intros s' (W' & Sh & H1' & H2'). rewrite Z.min_l in H1', H2' by lia.
    by apply HQ.
Qed.

(** Ascending: row [i + p] moves to [i] for every [i] of [a..b]; the [p] rows at
    the start of the range end up behind it. *)
Lemma swap_loop_up columns s a b p o (f : Z → Storage T → exec (Storage T)) (Q : Storage T → Prop) :
  storage_wf R columns s → 0 ≤ p ≤ 536870912 → a ≤ b →
  s_visible_lines s - s_len s ≤ a → b + p ≤ s_visible_lines s →
  (∀ i s, a ≤ i < b → f (i + o) s = storage_swap s i (i + p) ∨
                      f (i + o) s = storage_swap s (i + p) i) →
  (∀ s', storage_wf R columns s' → same_shape s s' →
     (∀ m, a ≤ m < b → line_at s' m = line_at s (m + p)) →
     (∀ m, b ≤ m < b + p → ∃ m', a ≤ m' < a + p ∧ line_at s' m = line_at s m') →
     (∀ m, ring_line s m → m < a ∨ b + p ≤ m → line_at s' m = line_at s m) → Q s') →
  wp (for_range (a + o) (b + o) f s) Q.
Proof.
  intros W Hp Hab Ha Hb Hf HQ.
  apply wp_for_range with (I := λ x s', let i := x - o in storage_wf R columns s' ∧ same_shape s s' ∧
    (∀ m, a ≤ m < i → line_at s' m = line_at s (m + p)) ∧
    (∀ m, i ≤ m < i + p → ∃ m', a ≤ m' < a + p ∧ line_at s' m = line_at s m') ∧
    (∀ m, ring_line s m → m < a ∨ i + p ≤ m → line_at s' m = line_at s m)).
  - split_and!; [done|done|lia|intros m Hm; exists m; split; [lia|done]|done].
  - intros x s1 Hx (W1 & Sh & H1' & H2' & H3').
    pose proof Sh as (? & ? & ? & ?). pose proof W as [? ? ? ? ? ?].
    set (i := x - o) in *. replace x with (i + o) by lia.
    assert (Hi : a ≤ i < b) by lia.
    assert (G : ∀ s2, storage_wf R columns s2 → same_shape s1 s2 →
      (∀ m, ring_line s1 m → line_at s2 m =
        if m =? i + p then line_at s1 i else if m =? i then line_at s1 (i + p) else line_at s1 m) →
      storage_wf R columns s2 ∧ same_shape s s2 ∧
      (∀ m, a ≤ m < i + o + 1 - o → line_at s2 m = line_at s (m + p)) ∧
      (∀ m, i + o + 1 - o ≤ m < i + o + 1 - o + p →
         ∃ m', a ≤ m' < a + p ∧ line_at s2 m = line_at s m') ∧
      (∀ m, ring_line s m → m < a ∨ i + o + 1 - o + p ≤ m → line_at s2 m = line_at s m)).
    { intros s2 W2 Sh2 L2. split_and!; [done|by eapply same_shape_trans| | |].
      - intros m Hm. rewrite L2 by (apply (same_shape_ring s); [done|unfold ring_line; lia]).
        destruct (Z.eqb_spec m (i + p)) as [->|].
        + assert (p = 0) by lia. subst p. rewrite H3' by (unfold ring_line; lia).
          f_equal. lia.
        + destruct (Z.eqb_spec m i) as [->|]; [apply H3'; [unfold ring_line; lia|lia]|].
          apply H1'. lia.
      - intros m Hm. rewrite L2 by (apply (same_shape_ring s); [done|unfold ring_line; lia]).
        destruct (Z.eqb_spec m (i + p)) as [->|].
        + apply H2'. lia.
        + destruct (Z.eqb_spec m i); [lia|]. apply H2'. lia.
      - intros m Hr Hm. rewrite L2 by by apply (same_shape_ring s).
        destruct (Z.eqb_spec m (i + p)), (Z.eqb_spec m i); try lia.
        apply H3'; [done|lia]. }
    destruct (Hf i s1 Hi) as [-> | ->]; apply (wp_storage_swap R columns); try (done || lia);
      intros s2 W2 Sh2 L2; apply G; try done.
    intros m Hm. rewrite L2 by done.
    destruct (Z.eqb_spec m i), (Z.eqb_spec m (i + p)); try done. subst. f_equal. lia.
  - intros s' (W' & Sh & H1' & H2' & H3').
    replace (Z.max (a + o) (b + o) - o) with b in * by lia. by apply HQ.
Qed.

Lemma swap_loop_up' columns s a b p (f : Z → Storage T → exec (Storage T)) (Q : Storage T → Prop) :
  storage_wf R columns s → 0 ≤ p ≤ 536870912 → a ≤ b →
  s_visible_lines s - s_len s ≤ a → b + p ≤ s_visible_lines s →
  (∀ i s, a ≤ i < b → f i s = storage_swap s i (i + p) ∨ f i s = storage_swap s (i + p) i) →
  (∀ s', storage_wf R columns s' → same_shape s s' →
     (∀ m, a ≤ m < b → line_at s' m = line_at s (m + p)) →
     (∀ m, b ≤ m < b + p → ∃ m', a ≤ m' < a + p ∧ line_at s' m = line_at s m') →
     (∀ m, ring_line s m → m < a ∨ b + p ≤ m → line_at s' m = line_at s m) → Q s') →
  wp (for_range a b f s) Q.
Proof.
  intros W Hp Hab Ha Hb Hf HQ.
  replace a with (a + 0) by lia. replace b with (b + 0) by lia.
  apply (swap_loop_up columns) with (p := p); try done.
  intros i s0 Hi. rewrite Z.add_0_r. by apply Hf.
Qed.

(** *** Resetting lines *)

(** Lines [a..b] were reset with template [t], the others are untouched. *)
Definition lines_reset (t : T) (a b : Z) s (s' : Storage T) : Prop :=
  (∀ m, a ≤ m < b → ∃ r, line_at s' m = Some r ∧ is_reset R t r) ∧
  (∀ m, ring_line s m → m < a ∨ b ≤ m → line_at s' m = line_at s m).

Lemma reset_line_wp columns s t i (Q : Storage T → Prop) :
  storage_wf R columns s → s_visible_lines s - s_len s ≤ i < s_visible_lines s →
  (∀ s' r, storage_wf R columns s' → same_shape s s' → is_reset R t r → line_at s' i = Some r →
     (∀ m, ring_line s m → m ≠ i → line_at s' m = line_at s m) → Q s') →
  wp (storage_update s i (λ r, row_reset r t)) Q.
Proof.
  intros W Hi HQ. pose proof (sw_pred _ _ _ W) as Hp.
  apply (wp_storage_update R columns) with (P := is_reset R t); [done|done| |].
  - intros r _ Hr. pose proof (rp_reset _ _ Hp r t Hr) as Hw.
    apply wp_iff in Hw as (r' & E & Hr'). rewrite E. simpl. split; [done|]. by exists r.
  - intros s' r' W' Sh _ Hr' Hl Hm. apply (HQ s' r'); [done..|].
    intros m Hring Hne. rewrite Hm by done. by destruct (Z.eqb_spec m i).
Qed.

Lemma reset_loop columns s t a b (f : Z → Z) (Q : Storage T → Prop) :
  storage_wf R columns s → s_visible_lines s - s_len s ≤ a → b ≤ s_visible_lines s →
  (∀ i, a ≤ i < b → f i = i) →
  (∀ s', storage_wf R columns s' → same_shape s s' → lines_reset t a b s s' → Q s') →
  wp (for_range a b (λ i s, storage_update s (f i) (λ r, row_reset r t)) s) Q.
Proof.
  intros W Ha Hb Hf HQ.
  apply wp_for_range with (I := λ i s', storage_wf R columns s' ∧ same_shape s s' ∧
    lines_reset t a i s s').
  - split_and!; [done|done|]. split; [lia|done].
  - intros i s1 Hi (W1 & Sh & L1 & L2). rewrite Hf by done.
    pose proof Sh as (? & ? & ? & ?). pose proof W as [? ? ? ? ? ?].
    apply (reset_line_wp columns); [done|lia|]. intros s2 r W2 Sh2 Hr Hl Hm.
    split_and!; [done|by eapply same_shape_trans|]. split.
    + intros m Hm'. destruct (decide (m = i)) as [->|]; [by exists r|].
      rewrite Hm; [apply L1; lia| |done]. apply (same_shape_ring s); [done|unfold ring_line; lia].
    + intros m Hr' Hm'. rewrite Hm; [apply L2; [done|lia]|by apply (same_shape_ring s)|lia].
  - intros s' (W' & Sh & L1 & L2). apply HQ; [done|done|].
    split; intros; [apply L1; lia|apply L2; [done|lia]].
Qed.

Lemma reset_loop_rev columns s t a b (Q : Storage T → Prop) :
  storage_wf R columns s → s_visible_lines s - s_len s ≤ a → b ≤ s_visible_lines s →
  (∀ s', storage_wf R columns s' → same_shape s s' → lines_reset t a b s s' → Q s') →
  wp (for_range_rev a b (λ i s, storage_update s i (λ r, row_reset r t)) s) Q.
Proof.
  intros W Ha Hb HQ.
  apply wp_for_range_rev with (I := λ i s', storage_wf R columns s' ∧ same_shape s s' ∧
    lines_reset t i b s s').
  - split_and!; [done|done|]. split; [lia|done].
  - intros i s1 Hi (W1 & Sh & L1 & L2).
    pose proof Sh as (? & ? & ? & ?). pose proof W as [? ? ? ? ? ?].
    apply (reset_line_wp columns); [done|lia|]. intros s2 r W2 Sh2 Hr Hl Hm.
    split_and!; [done|by eapply same_shape_trans|]. split.
    + intros m Hm'. destruct (decide (m = i)) as [->|]; [by exists r|].
      rewrite Hm; [apply L1; lia| |done]. apply (same_shape_ring s); [done|unfold ring_line; lia].
    + intros m Hr' Hm'. rewrite Hm; [apply L2; [done|lia]|by apply (same_shape_ring s)|lia].
  - intros s' (W' & Sh & L1 & L2). apply HQ; [done|done|].
    split; intros; [apply L1; lia|apply L2; [done|lia]].
Qed.

(** *** Frames *)

Lemma with_raw_wf g s' :
  grid_wf g → storage_wf R (g_columns g) s' → s_visible_lines s' = g_lines g →
  s_len s' ≤ g_lines g + max_scroll_limit g → grid_wf (with_raw g s').
Proof. intros [? ? ? ? ?] ? ? ?. by split; simpl. Qed.

Lemma with_display_offset_wf g o :
  grid_wf g → 0 ≤ o ≤ max_scroll_limit g → grid_wf (with_display_offset g o).
Proof. intros [? ? ? ? ?] ?. by split; simpl. Qed.

Lemma with_cursor_wf g c : grid_wf g → grid_wf (with_cursor g c).
Proof. intros [? ? ? ? ?]. by split; simpl. Qed.

Lemma with_saved_cursor_wf g c : grid_wf g → grid_wf (with_saved_cursor g c).
Proof. intros [? ? ? ? ?]. by split; simpl. Qed.

(** The grid with storage [s'] in place of one of the same shape. *)
Lemma with_raw_shape_wf g s' :
  grid_wf g → storage_wf R (g_columns g) s' → same_shape (raw g) s' → grid_wf (with_raw g s').
Proof. intros W W' (? & ? & ? & ?). pose proof W as [? ? ? ? ?]. apply with_raw_wf; try done; lia. Qed.

Lemma active_ring g l : grid_wf g → g_active g l → ring_line (raw g) l.
Proof.
  intros [[? ? ? ? ? ?] ? ? ? ?]. unfold g_active, ring_line. lia.
Qed.

Lemma g_line_some g l : grid_wf g → ∃ r, g_line g l = Some r ∧ R r.
Proof. intros [W ? ? ? ?]. by eapply ring_at_some. Qed.

(** [wp_reset g' Hfr]: resetting the lines [a..b] of the screen. *)
Definition grid_lines_reset (a b : Z) g (g' : Grid T) : Prop :=
  same_frame g g' ∧ display_offset g' = display_offset g ∧
  s_len (raw g') = s_len (raw g) ∧
  (∀ m, a ≤ m < b → ∃ r, g_line g' m = Some r ∧ is_reset R (template (cursor g)) r) ∧
  (∀ m, ring_line (raw g) m → m < a ∨ b ≤ m → g_line g' m = g_line g m).

Lemma reset_lines_spec g a b :
  grid_wf g → g_lines g - s_len (raw g) ≤ a → b ≤ g_lines g →
  wp (reset_lines g a b) (λ g', grid_wf g' ∧ grid_lines_reset a b g g').
Proof.
  intros W Ha Hb. pose proof W as [? ? ? ? ?]. unfold reset_lines. wp_step.
  apply (reset_loop (g_columns g) _ _ _ _ id); [done|lia|lia|done|].
  intros s' W' Sh [L1 L2]. wp_step. split; [by apply with_raw_shape_wf|].
  destruct Sh as (? & ? & ? & ?). unfold grid_lines_reset, g_line; simpl. split_and!; try done.
  all: lia.
Qed.

Lemma reset_lines_rev_spec g a b :
  grid_wf g → g_lines g - s_len (raw g) ≤ a → b ≤ g_lines g →
  wp (reset_lines_rev g a b) (λ g', grid_wf g' ∧ grid_lines_reset a b g g').
Proof.
  intros W Ha Hb. pose proof W as [? ? ? ? ?]. unfold reset_lines_rev. wp_step.
  apply (reset_loop_rev (g_columns g)); [done|lia|lia|].
  intros s' W' Sh [L1 L2]. wp_step. split; [by apply with_raw_shape_wf|].
  destruct Sh as (? & ? & ? & ?). unfold grid_lines_reset, g_line; simpl. split_and!; try done.
  all: lia.
Qed.

Lemma reset_first_lines_spec g n :
  grid_wf g → 0 ≤ n ≤ g_lines g →
  wp (reset_first_lines g n) (λ g', grid_wf g' ∧ grid_lines_reset 0 n g g').
Proof.
  intros W Hn. pose proof W as [[? ? ? ? ? ?] ? ? ? ?]. unfold reset_first_lines. wp_step.
  apply (reset_loop (g_columns g) _ _ _ _ as_i32); [done|lia|lia| |].
  { intros i Hi. apply as_i32_id. lia. }
  intros s' W' Sh [L1 L2]. wp_step. split; [by apply with_raw_shape_wf|].
  destruct Sh as (? & ? & ? & ?). unfold grid_lines_reset, g_line; simpl. split_and!; try done.
  all: lia.
Qed.

(** *** Scrollback *)

Lemma grid_history g : grid_wf g → history_size g = s_len (raw g) - g_lines g.
Proof. intros W. rewrite history_size_eq by by apply grid_dims. unfold top_of; simpl. lia. Qed.

Lemma increase_scroll_limit_spec g n :
  grid_wf g → 0 ≤ n →
  wp (increase_scroll_limit g n) (λ g', grid_wf g' ∧ same_frame g g' ∧
    display_offset g' = display_offset g ∧
    s_len (raw g') = Z.min (g_lines g + max_scroll_limit g) (s_len (raw g) + n) ∧
    ∀ l, g_active g l → g_line g' l = g_line g l).
Proof.
  intros W Hn. pose proof W as [Ws ? ? ? ?]. pose proof Ws as [? ? ? ? ? ?].
  unfold increase_scroll_limit. rewrite grid_history by done.
  wp_step. wp_step. set (c := Z.min _ _). wp_step.
  - wp_step. wp_use (initialize_spec R (g_columns g)); [done|lia|lia|].
    intros s' (W' & Hv & Hl & Hk). wp_step. split_and!; [|done|done|simpl; lia|].
    + apply with_raw_wf; try done; lia.
    + unfold g_active, g_line, line_at. intros l Hl'. simpl. rewrite Hv. apply Hk. lia.
  - wp_step. split_and!; try done. lia.
Qed.

Lemma decrease_scroll_limit_spec g n :
  grid_wf g → 0 ≤ n →
  wp (decrease_scroll_limit g n) (λ g', grid_wf g' ∧ same_frame g g' ∧
    s_len (raw g') = Z.max (g_lines g) (s_len (raw g) - n) ∧
    display_offset g' ≤ display_offset g ∧
    ∀ l, g_active g' l → g_line g' l = g_line g l).
Proof.
  intros W Hn. pose proof W as [Ws ? ? ? ?]. pose proof Ws as [? ? ? ? ? ?].
  unfold decrease_scroll_limit. rewrite grid_history by done. wp_step.
  - wp_step. wp_use (shrink_lines_spec R (g_columns g)); [done|lia|].
    intros s' (W' & Hv & Hl & Hk). wp_step.
    assert (Wg : grid_wf (with_raw g s')) by (apply with_raw_wf; try done; lia).
    rewrite (grid_history (with_raw g s')) by done. cbn [raw with_raw g_lines display_offset].
    split_and!; [apply with_display_offset_wf; simpl; [done|lia]|done|simpl; lia|simpl; lia|].
    unfold g_active, g_line, line_at. intros l Hl'. simpl in *. rewrite Hv. apply Hk. lia.
  - wp_step. split_and!; try done; lia.
Qed.

(** *** Scrolling *)

(** A rotation shifts the lines; both ends have to be in the ring. *)
Lemma rotated_line s c s' l :
  rotated s c s' → ring_line s l → ring_line s (l - c) → line_at s' l = line_at s (l - c).
Proof.
  unfold ring_line, line_at. intros (-> & _ & _ & Hk) Hl Hl'.
  rewrite Hk, Z.mod_small by lia. f_equal. lia.
Qed.

Lemma rotated_ring s c s' l : rotated s c s' → ring_line s' l ↔ ring_line s l.
Proof. unfold rotated, ring_line. by intros (-> & _ & -> & _). Qed.

Lemma same_frame_trans g1 g2 g3 : same_frame g1 g2 → same_frame g2 g3 → same_frame g1 g3.
Proof. unfold same_frame. naive_solver congruence. Qed.

(** The display offset after scrolling up by [p]. *)
Definition scrolled_offset g (p : Z) : Z :=
  if display_offset g =? 0 then 0 else Z.min (display_offset g + p) (max_scroll_limit g).

Lemma scroll_offset_step g p (Q : Grid T → Prop) :
  grid_wf g → 0 ≤ p ≤ 536870912 →
  (∀ o, o = scrolled_offset g p → grid_wf (with_display_offset g o) → Q (with_display_offset g o)) →
  wp (if negb (display_offset g =? 0) then
        x ← usize_add (display_offset g) p;
        mret (with_display_offset g (Z.min x (max_scroll_limit g)))
      else mret g) Q.
Proof.
  intros W Hp HQ. pose proof W as [[? ? ? ? ? ?] ? ? ? ?]. unfold scrolled_offset in HQ.
  destruct (Z.eqb_spec (display_offset g) 0) as [E|E]; simpl; wp_steps.
  - specialize (HQ 0 eq_refl). rewrite <- E in HQ.
    assert (Eg : with_display_offset g (display_offset g) = g) by by destruct g.
    rewrite Eg in HQ. by apply HQ.
  - apply HQ; [done|]. apply with_display_offset_wf; [done|]. lia.
Qed.

(** What scrolling up the region [start..end_] does to the lines of the grid. *)
Record scrolled_up (start end_ p : Z) g (g' : Grid T) : Prop := {
  su_frame : same_frame g g';
  su_moved l : start ≤ l < end_ - p → g_line g' l = g_line g (l + p);
  su_blank l : start ≤ l → end_ - p ≤ l < end_ →
    ∃ r, g_line g' l = Some r ∧ is_reset R (template (cursor g)) r;
  su_below l : end_ ≤ l < g_lines g → g_line g' l = g_line g l }.

Lemma scroll_up_top_spec g end_ p :
  grid_wf g → 0 ≤ p ≤ end_ → end_ ≤ g_lines g →
  wp (scroll_up g 0 end_ p) (λ g', grid_wf g' ∧
    scrolled_up (g_lines g - s_len (raw g')) end_ p g g' ∧
    s_len (raw g') = Z.min (g_lines g + max_scroll_limit g) (s_len (raw g) + p) ∧
    display_offset g' = scrolled_offset g p).
Proof.
  intros W Hp He. pose proof W as [[? ? ? ? ? ?] ? ? ? ?]. unfold scroll_up.
  wp_step. wp_step. casts. rewrite Z.eqb_refl, andb_false_r.
  wp_step. apply scroll_offset_step; [done|lia|]. intros o Ho W1.
  set (g1 := with_display_offset g o) in *.
  wp_step. wp_step. wp_use increase_scroll_limit_spec; [done|lia|].
  intros g2 (W2 & F2 & O2 & L2 & A2). pose proof F2 as (? & ? & ? & ? & ?).
  pose proof W2 as [[? ? ? ? ? ?] ? ? ? ?]. unfold g1 in *; simpl in *.
  wp_steps. wp_use (storage_rotate_spec R (g_columns g2)); [done|lia|].
  intros s3 [W3 Rt]. pose proof Rt as (Hv3 & Hl3 & Hi3 & _).
  assert (R3 : ∀ l, ring_line (raw g2) l → ring_line (raw g2) (l + p) →
    line_at s3 l = line_at (raw g2) (l + p)).
  { intros l ? ?. rewrite (rotated_line _ _ _ _ Rt) by (unfold ring_line in *; lia). f_equal. lia. }
  wp_steps. apply (swap_loop_down (g_columns g2)) with (p := p); [done|lia..| |].
  { intros i s Hi. casts. by rewrite i32_sub_ok by lia. }
  intros s4 W4 (Hz4 & Hv4 & Hl4 & Hi4) M4 U4. wp_steps.
  assert (W5 : grid_wf (with_raw g2 s4)).
  { apply with_raw_wf; [done|done|lia..]. }
  wp_use reset_lines_spec; [done|simpl; lia|simpl; lia|].
  intros g6 (W6 & F6 & O6 & L6 & B6 & K6). simpl in *.
  pose proof F6 as (? & ? & ? & ? & ?). simpl in *.
  assert (A : ∀ l, g_active g l → line_at (raw g2) l = line_at (raw g) l).
  { intros l ?. by apply A2. }
  unfold g_line, g_active, ring_line in *. simpl in *. rewrite Hi3 in *.
  split_and!; [done| |lia|congruence].
  split.
  - unfold same_frame. split_and!; congruence.
  - intros l Hl. unfold g_line. rewrite K6 by lia. rewrite U4 by lia.
    rewrite R3 by lia. apply A. lia.
  - intros l Hl Hl'. unfold g_line. replace (template (cursor g)) with (template (cursor g2)) by congruence.
    apply B6. lia.
  - intros l Hl. unfold g_line. rewrite K6 by lia. rewrite M4 by lia.
    rewrite R3 by lia. rewrite Z.sub_add. apply A. lia.
Qed.

(** Below the top of the screen the scrollback does not take part. *)
Lemma scroll_up_region_spec g start end_ p :
  grid_wf g → 0 < start ≤ end_ → end_ ≤ g_lines g → 0 ≤ p ≤ 536870912 →
  wp (scroll_up g start end_ p) (λ g', grid_wf g' ∧ scrolled_up start end_ p g g' ∧
    (∀ l, g_active g l → l < start → g_line g' l = g_line g l) ∧
    s_len (raw g') = s_len (raw g) ∧
    display_offset g' =
      if end_ - start <=? p then display_offset g else scrolled_offset g p).
Proof.
  intros W Hs He Hp. pose proof W as [[? ? ? ? ? ?] ? ? ? ?]. unfold scroll_up.
  wp_step. wp_step. casts.
  destruct (Z.eqb_spec start 0); [lia|]. rewrite andb_true_r.
  destruct (Z.leb_spec (end_ - start) p).
  - wp_use reset_lines_spec; [done|lia|lia|]. intros g' (W' & F & O & L & B & K).
    split_and!; [done| |intros; apply K; [by apply active_ring|lia]|done|done].
    split; [done|lia| |].
    + intros l ? ?. apply B. lia.
    + intros l ?. apply K; [|lia]. unfold ring_line. lia.
  - wp_step. apply scroll_offset_step; [done|lia|]. intros o Ho W1. simpl.
    wp_steps.
    apply (swap_loop_up' (g_columns g)) with (p := p); [done|lia..| |].
    { intros i s Hi. left. by rewrite i32_add_ok by lia. }
    intros s2 W2 Sh M2 N2 U2. pose proof Sh as (? & ? & ? & ?). simpl in *.
    wp_steps.
    assert (W3 : grid_wf (with_raw (with_display_offset g o) s2)).
    { apply with_raw_shape_wf; done. }
    wp_use reset_lines_spec; [done|simpl; lia|simpl; lia|].
    intros g4 (W4 & F4 & O4 & L4 & B4 & K4). simpl in *. unfold g_line, ring_line in *. simpl in *.
    split_and!; [done| | |lia|congruence].
    + split; unfold g_line; [done| | |].
      * intros l Hl. rewrite K4 by lia. apply M2. lia.
      * intros l Hl Hl'. apply B4. lia.
      * intros l Hl. rewrite K4 by lia. apply U2; lia.
    + intros l Ha Hl. unfold g_active in Ha. rewrite K4 by lia. apply U2; lia.
Qed.

(** What scrolling down the region [start..end_] does. *)
Record scrolled_down (start end_ p : Z) g (g' : Grid T) : Prop := {
  sd_frame : same_frame g g';
  sd_offset : display_offset g' = display_offset g;
  sd_len : s_len (raw g') = s_len (raw g);
  sd_moved l : start + p ≤ l < end_ → g_line g' l = g_line g (l - p);
  sd_blank l : start ≤ l < end_ → l < start + p →
    ∃ r, g_line g' l = Some r ∧ is_reset R (template (cursor g)) r;
  sd_rest l : g_active g l → l < start ∨ end_ ≤ l → g_line g' l = g_line g l }.

(** Without a scrollback the ring is rotated and the fixed lines are put back. *)
Lemma scroll_down_rotate g start end_ p :
  grid_wf g → 0 ≤ start ≤ end_ → end_ ≤ g_lines g → 0 ≤ p < end_ - start →
  max_scroll_limit g = 0 →
  wp (scroll_down g start end_ p) (λ g', grid_wf g' ∧ scrolled_down start end_ p g g').
Proof.
  intros W Hs He Hp Hm. pose proof W as [[? ? ? ? ? ?] ? ? ? ?]. unfold scroll_down.
  wp_step. wp_step. casts. destruct (Z.leb_spec (end_ - start) p); [lia|].
  rewrite Hm, Z.eqb_refl. wp_step.
  replace end_ with (end_ - p + p) at 1 by lia. replace (g_lines g) with (g_lines g - p + p) at 1 by lia.
  apply (swap_loop_up (g_columns g)) with (p := p); [done|lia..| |].
  { intros i s Hi. right. rewrite i32_sub_ok by lia. simpl. f_equal. lia. }
  intros s1 W1 Sh1 M1 N1 U1. pose proof Sh1 as (? & ? & ? & ?).
  wp_step. wp_use (rotate_down_spec R (g_columns g)); [done|lia|]. intros s2 [W2 Rt].
  pose proof Rt as (Hv2 & Hl2 & Hi2 & _).
  wp_step. wp_use reset_first_lines_spec; [apply with_raw_wf; [done|done|lia..]|simpl; lia|].
  intros g3 (W3 & F3 & O3 & L3 & B3 & K3). pose proof F3 as (? & ? & ? & ? & ?).
  pose proof W3 as [[? ? ? ? ? ?] ? ? ? ?]. unfold g_line in *. simpl in *.
  wp_step. apply (swap_loop_up' (g_columns g3)) with (p := p); [done|lia..| |].
  { intros i s Hi. left. by rewrite i32_add_ok by lia. }
  intros s4 W4 Sh4 M4 N4 U4. pose proof Sh4 as (? & ? & ? & ?). wp_step.
  split; [by apply with_raw_shape_wf|].
  assert (K : ∀ l, p ≤ l < g_lines g → line_at (raw g3) l = line_at s1 (l - p)).
  { intros l Hl. rewrite K3 by (unfold ring_line; rewrite ?Hi2; lia).
    apply (rotated_line _ _ _ _ Rt); unfold ring_line; lia. }
  split; unfold same_frame, g_line, g_active; simpl; [split_and!; congruence|lia|lia|..].
  - intros l Hl. rewrite U4 by (unfold ring_line; lia). rewrite K by lia.
    apply U1; unfold ring_line; lia.
  - intros l Hl Hl'. destruct (N4 l) as (m & Hm' & ->); [lia|]. apply B3. lia.
  - intros l Ha [Hl|Hl].
    + rewrite M4, K by lia. rewrite Z.add_simpl_r. apply U1; unfold ring_line; lia.
    + rewrite U4 by (unfold ring_line; lia). rewrite K by lia.
      rewrite M1 by lia. f_equal. lia.
Qed.

Lemma scroll_down_spec g start end_ p :
  grid_wf g → 0 ≤ start ≤ end_ → end_ ≤ g_lines g → 0 ≤ p ≤ 536870912 →
  wp (scroll_down g start end_ p) (λ g', grid_wf g' ∧ scrolled_down start end_ p g g').
Proof.
  intros W Hs He Hp. pose proof W as [[? ? ? ? ? ?] ? ? ? ?].
  destruct (decide (p < end_ - start ∧ max_scroll_limit g = 0)) as [[? ?]|Hd].
  { apply scroll_down_rotate; (done || lia). }
  unfold scroll_down. wp_step. wp_step. casts.
  destruct (Z.leb_spec (end_ - start) p).
  - wp_use reset_lines_spec; [done|lia|lia|]. intros g' (W' & F & O & L & B & K).
    split; [done|]. split; [done..|lia| |].
    + intros l ? ?. by apply B.
    + intros l ? ?. apply K; [by apply active_ring|done].
  - destruct (Z.eqb_spec (max_scroll_limit g) 0); [lia|]. wp_steps.
    apply (swap_loop_down (g_columns g)) with (p := p); [done|lia..| |].
    { intros i s Hi. by rewrite i32_sub_ok by lia. }
    intros s1 W1 Sh M1 U1. pose proof Sh as (? & ? & ? & ?).
    wp_use reset_lines_rev_spec; [by apply with_raw_shape_wf|simpl; lia|simpl; lia|].
    intros g2 (W2 & F2 & O2 & L2 & B2 & K2). unfold g_line, ring_line in *. simpl in *.
    split; [done|]. split; unfold g_line, g_active; [done|done|lia|..].
    + intros l Hl. rewrite K2 by lia. apply M1. lia.
    + intros l Hl Hl'. apply B2. lia.
    + intros l Hl Hl'. rewrite K2 by lia. apply U1; lia.
Qed.
End facts.
