(* ===== verification/GridOps.v ===== *)
(** * Rows, cells, iterators and clearing of a grid

    Specifications of the operations of grid/mod.rs that read and write rows,
    that walk over the cells, and that clear the screen or the scrollback; the
    claims about scrolling and clearing. *)

From S2P Require Import Prelude Index Ansi GridCell Row Storage Grid GridFacts.
#[local] Open Scope Z_scope.

Section ops.
Context `{Ansi} {T D : Type} `{GridCellLaws T D}.
Context (R : Row T → Prop).
Implicit Types (g : Grid T) (p : Point) (c : T).

(** *** Reading and writing *)

(** The cell at a point of the buffer. *)
Definition g_cell g p : option T := r ← g_line g (line p); zlookup (r_inner r) (column p).

Lemma wp_grid_row g l (Q : Row T → Prop) :
  grid_wf R g → g_active g l → (∀ r, g_line g l = Some r → R r → Q r) → wp (grid_row g l) Q.
Proof.
  intros [W ? ? ? ?] Ha HQ. unfold g_active in Ha.
  apply (wp_storage_get R (g_columns g)); [done|lia|done].
Qed.

Lemma grid_row_len g r : grid_wf R g → R r → row_len r = g_columns g ∧ 0 ≤ occ r ≤ g_columns g.
Proof. intros [[P ? ? ? ? ?] ? ? ? ?] Hr. apply (rp_wf _ _ P r Hr). Qed.

Lemma grid_columns g : grid_wf R g → 1 ≤ g_columns g ≤ 1073741824.
Proof. intros [[P ? ? ? ? ?] ? ? ? ?]. apply (rp_bound _ _ P). Qed.

Lemma wp_grid_cell g p (Q : T → Prop) :
  grid_wf R g → in_grid g p → (∀ c, g_cell g p = Some c → Q c) → wp (grid_cell g p) Q.
Proof.
  intros W Hp HQ. unfold in_grid, top_of in Hp. simpl in Hp. unfold grid_cell. wp_step.
  apply wp_grid_row; [done|unfold g_active; lia|]. intros r Hr HR.
  destruct (grid_row_len g r W HR). apply wp_row_get; [lia|].
  intros c Hc. apply HQ. unfold g_cell. by rewrite Hr.
Qed.

Lemma g_cell_some g p : grid_wf R g → in_grid g p → ∃ c, g_cell g p = Some c.
Proof.
  intros W Hp. pose proof (wp_grid_cell g p (λ c, g_cell g p = Some c) W Hp (λ c Hc, Hc)) as G.
  apply wp_exists in G as (c & _ & Hc). by exists c.
Qed.

(** The row of line [l] was replaced, everything else is as before. *)
Record row_replaced (l : Z) (r' : Row T) g (g' : Grid T) : Prop := {
  rr_frame : same_frame g g';
  rr_offset : display_offset g' = display_offset g;
  rr_len : s_len (raw g') = s_len (raw g);
  rr_row : g_line g' l = Some r';
  rr_rest m : g_active g m → m ≠ l → g_line g' m = g_line g m }.

Lemma wp_grid_update_row g l f (P : Row T → Prop) (Q : Grid T → Prop) :
  grid_wf R g → g_active g l →
  (∀ r, g_line g l = Some r → R r → wp (f r) (λ r', R r' ∧ P r')) →
  (∀ g' r', grid_wf R g' → row_replaced l r' g g' → R r' → P r' → Q g') →
  wp (grid_update_row g l f) Q.
Proof.
  intros W Ha Hf HQ. pose proof W as [Ws Hv ? ? ?]. unfold grid_update_row. wp_step.
  unfold g_active in Ha.
  apply (wp_storage_update R (g_columns g)) with (P := P); [done|lia|done|].
  intros s' r' W' Sh HR' HP' Hl Hm. wp_step. apply (HQ _ r'); [|split|done|done].
  - by apply with_raw_shape_wf.
  - done.
  - done.
  - simpl. by destruct Sh as (_ & _ & ? & _).
  - done.
  - intros m Hma Hne. unfold g_line; simpl. rewrite Hm by by apply (active_ring R).
    by destruct (Z.eqb_spec m l).
Qed.

(** Writes through [&mut row[a..b]], as [row_written] describes them. *)
Lemma wp_grid_write g l f h a b (Q : Grid T → Prop) :
  grid_wf R g → g_active g l →
  (∀ r, row_len r = g_columns g → 0 ≤ occ r ≤ g_columns g → wp (f r) (row_written a b h r)) →
  (∀ g' r r', grid_wf R g' → row_replaced l r' g g' → g_line g l = Some r →
     row_written a b h r r' → Q g') →
  wp (grid_update_row g l f) Q.
Proof.
  intros W Ha Hf HQ. destruct (g_line_some R g l W) as (r & Hr & HR).
  apply wp_grid_update_row with (P := row_written a b h r); [done|done| |].
  - intros r0 Hr0 HR0. rewrite Hr in Hr0. injection Hr0 as <-.
    destruct (grid_row_len g r W HR) as [? ?]. eapply wp_mono; [by apply Hf|].
    intros r' Hw. split; [|done]. pose proof (sw_pred _ _ _ (gw_storage _ _ W)) as Pr.
    by eapply (rp_written _ _ Pr).
  - intros g' r' W' Hrep _ Hw. by eapply HQ.
Qed.

Lemma wp_grid_update_cell g p f (Q : Grid T → Prop) :
  grid_wf R g → in_grid g p →
  (∀ g' r r', grid_wf R g' → row_replaced (line p) r' g g' → g_line g (line p) = Some r →
     row_written (column p) (column p + 1) f r r' → Q g') →
  wp (grid_update_cell g p f) Q.
Proof.
  intros W Hp HQ. pose proof (grid_columns g W). unfold in_grid, top_of in Hp. simpl in Hp.
  apply (wp_grid_write g _ _ f (column p) (column p + 1)); [done|unfold g_active; lia| |done].
  intros r Hl Ho. apply row_modify_written; lia.
Qed.

(** A replaced row leaves the cells of the other lines alone. *)
Lemma row_replaced_cell l r' g g' p :
  row_replaced l r' g g' → g_active g (line p) → line p ≠ l → g_cell g' p = g_cell g p.
Proof. intros [? ? ? ? Hr] Ha Hne. unfold g_cell. by rewrite Hr. Qed.

Lemma row_written_cell l r r' g g' a b f p :
  row_replaced l r' g g' → g_line g l = Some r → row_written a b f r r' →
  g_active g (line p) →
  g_cell g' p = if (line p =? l) && (a <=? column p) && (column p <? b)
                then f <$> g_cell g p else g_cell g p.
Proof.
  intros Hrep Hl Hw Ha. destruct (Z.eqb_spec (line p) l) as [<-|Hne]; simpl.
  - unfold g_cell. rewrite (rr_row _ _ _ _ Hrep), Hl. simpl. apply (rw_cells _ _ _ _ _ Hw).
  - by eapply row_replaced_cell.
Qed.

Lemma row_replaced_dims l r' g g' p : row_replaced l r' g g' → in_grid g' p ↔ in_grid g p.
Proof.
  intros [(? & ? & Hc & Hl & ?) ? Hn ? ?]. unfold in_grid, top_of; simpl. by rewrite Hc, Hl, Hn.
Qed.

(** *** Scrollback and display offset *)

Lemma update_history_spec g size :
  grid_wf R g → 0 ≤ size → g_lines g + size ≤ 536870912 →
  wp (update_history g size) (λ g', grid_wf R g' ∧
    cursor g' = cursor g ∧ saved_cursor g' = saved_cursor g ∧ g_columns g' = g_columns g ∧
    g_lines g' = g_lines g ∧ max_scroll_limit g' = size ∧
    display_offset g' = Z.min (display_offset g) size ∧
    s_len (raw g') = g_lines g + Z.min (history_size g) size ∧
    ∀ l, g_active g' l → g_line g' l = g_line g l).
Proof.
  intros W Hs Hb. pose proof W as [Ws ? ? ? ?]. pose proof Ws as [? ? ? ? ? ?].
  unfold update_history. rewrite (grid_history R) by done.
  destruct (Z.ltb_spec size (s_len (raw g) - g_lines g)).
  - wp_steps. wp_use (shrink_lines_spec R (g_columns g)); [done|lia|].
    intros s' (W' & Hv & Hl & Hk). wp_step. split_and!; simpl; try done; try lia.
    + split; simpl; [done|lia..].
    + unfold g_active, g_line, line_at; simpl. intros l ?. rewrite Hv. apply Hk. lia.
  - wp_steps. split_and!; simpl; try done; try lia. split; simpl; try done; lia.
Qed.

(** The display offset is within the scrollback. *)
Definition offset_ok g : Prop := 0 ≤ display_offset g ≤ history_size g.

Lemma scroll_display_spec g scroll :
  grid_wf R g → (∀ n, scroll = Delta n → -1073741824 ≤ n ≤ 1073741824) →
  wp (scroll_display g scroll) (λ g', grid_wf R g' ∧ same_frame g g' ∧ raw g' = raw g ∧
    (offset_ok g → offset_ok g') ∧
    display_offset g' = match scroll with
      | Delta n => Z.min (Z.max (display_offset g + n) 0) (history_size g)
      | PageUp => Z.min (display_offset g + g_lines g) (history_size g)
      | PageDown => Z.max 0 (display_offset g - g_lines g)
      | Top => history_size g
      | Bottom => 0
      end).
Proof.
  intros W Hd. pose proof W as [[? ? ? ? ? ?] ? ? ? ?]. unfold scroll_display.
  pose proof (grid_history R g W) as Hh.
  wp_step. destruct scroll as [n| | | |]; [specialize (Hd n eq_refl)|..]; casts; wp_steps;
    (split_and!; [apply with_display_offset_wf; [done|unfold saturating_sub; lia]|done|done| |done]);
    unfold offset_ok, saturating_sub, history_size in *; simpl in *; lia.
Qed.

Lemma clear_history_spec g :
  grid_wf R g →
  wp (clear_history g) (λ g', grid_wf R g' ∧ same_frame g g' ∧ display_offset g' = 0 ∧
    s_len (raw g') = g_lines g ∧ ∀ l, 0 ≤ l < g_lines g → g_line g' l = g_line g l).
Proof.
  intros W. pose proof W as [Ws ? ? ? ?]. pose proof Ws as [? ? ? ? ? ?].
  unfold clear_history. rewrite (grid_history R) by done. wp_step.
  wp_use (shrink_lines_spec R (g_columns g)); [done|lia|]. intros s' (W' & Hv & Hl & Hk). wp_step.
  split_and!; simpl; try done; try lia.
  - apply with_display_offset_wf; [apply with_raw_wf; [done|done|lia..]|simpl; lia].
  - unfold g_line, line_at; simpl. intros l ?. rewrite Hv. apply Hk. lia.
Qed.

Lemma grid_reset_spec g :
  grid_wf R g →
  wp (grid_reset g) (λ g', grid_wf R g' ∧
    cursor g' = cursor_default ∧ saved_cursor g' = cursor_default ∧ display_offset g' = 0 ∧
    g_lines g' = g_lines g ∧ g_columns g' = g_columns g ∧ max_scroll_limit g' = max_scroll_limit g ∧
    s_len (raw g') = g_lines g ∧
    ∀ l, 0 ≤ l < g_lines g → ∃ r, g_line g' l = Some r ∧ is_reset R cell_default r).
Proof.
  intros W. pose proof W as [[? ? ? ? ? ?] ? ? ? ?]. unfold grid_reset. wp_step.
  wp_use clear_history_spec; [done|]. intros g1 (W1 & F1 & O1 & L1 & K1).
  pose proof F1 as (? & ? & ? & ? & ?). wp_step.
  assert (W2 : grid_wf R (with_display_offset
    (with_cursor (with_saved_cursor g1 cursor_default) cursor_default) 0)).
  { apply with_display_offset_wf; [by apply with_cursor_wf, with_saved_cursor_wf|simpl; lia]. }
  rewrite topmost_line_ok by by eapply grid_dims. unfold top_of; simpl. casts.
  wp_use (reset_lines_spec R); [done|simpl; lia|simpl; lia|].
  intros g3 (W3 & F3 & O3 & L3 & B3 & K3). destruct F3 as (? & ? & ? & ? & ?). simpl in *.
  split_and!; try done; try congruence. intros l Hl. apply B3. lia.
Qed.

(** The region a pair of bounds denotes. *)
Definition bound_start (b : Bound) : Z :=
  match b with Included l => l | Excluded l => l + 1 | Unbounded => 0 end.
Definition bound_end g (b : Bound) : Z :=
  match b with Included l => l + 1 | Excluded l => l | Unbounded => g_lines g end.

Lemma reset_region_spec g lo hi :
  grid_wf R g → 0 ≤ bound_start lo < g_lines g → 0 ≤ bound_end g hi ≤ g_lines g →
  wp (reset_region g lo hi) (λ g', grid_wf R g' ∧
    grid_lines_reset R (bound_start lo) (bound_end g hi) g g').
Proof.
  intros W Hlo Hhi. pose proof W as [[? ? ? ? ? ?] ? ? ? ?]. unfold reset_region.
  wp_step. apply wp_mono with (Q := λ x, x = bound_start lo).
  { destruct lo; simpl in *; casts; wp_steps; lia. }
  intros ? ->. wp_step. apply wp_mono with (Q := λ x, x = bound_end g hi).
  { destruct hi; simpl in *; casts; wp_steps; lia. }
  intros ? ->. casts. wp_steps. apply reset_lines_spec; [done|lia|lia].
Qed.

(** *** Iterators *)

(** The positions an iterator can be at: on a cell, or before the first cell of
    the buffer. *)
Definition iter_pos g p : Prop :=
  top_of g - 1 ≤ line p < screen_lines g ∧ 0 ≤ column p < columns g ∧
  (line p = top_of g - 1 → column p = columns g - 1).

Lemma iter_next_spec g (it : GridIterator) :
  grid_wf R g → iter_pos g (it_point it) → in_grid g (it_end it) →
  wp (iter_next g it) (λ '(item, it'), it_end it' = it_end it ∧
    if point_ge (it_point it) (it_end it) then item = None ∧ it' = it
    else linear g (it_point it') = linear g (it_point it) + 1 ∧ in_grid g (it_point it') ∧
      ∃ c, item = Some (it_point it', c) ∧ g_cell g (it_point it') = Some c).
Proof.
  intros W Hp He. pose proof (grid_dims R g W) as Hd. pose proof Hd as (? & ? & ?).
  unfold iter_next. destruct (point_ge (it_point it) (it_end it)) eqn:E.
  { wp_step. done. }
  assert (Hlt : point_lt (it_point it) (it_end it) = true).
  { unfold point_ge in E. rewrite point_le_ngt, negb_false_iff in E. done. }
  rewrite point_lt_spec in Hlt. unfold in_grid, iter_pos, top_of in *.
  rewrite last_column_ok by done. cbn [mbind exec_bind].
  wp_step. apply wp_mono with (Q := λ q, linear g q = linear g (it_point it) + 1 ∧ in_grid g q).
  { unfold linear, in_grid, top_of.
    destruct (Z.leb_spec (columns g - 1) (column (it_point it))); wp_steps; simpl in *; lia. }
  intros q [Hl Hq]. wp_step. apply wp_grid_cell; [done|done|]. intros c Hc. wp_step.
  split; [done|]. split; [done|]. split; [done|]. by exists c.
Qed.

Lemma iter_prev_spec g (it : GridIterator) :
  grid_wf R g → top_of g ≤ line (it_point it) < screen_lines g →
  0 ≤ column (it_point it) ≤ columns g →
  wp (iter_prev g it) (λ '(item, it'), it_end it' = it_end it ∧
    if point_le (it_point it) (mkPoint (top_of g) 0) then item = None ∧ it' = it
    else linear g (it_point it') = linear g (it_point it) - 1 ∧ in_grid g (it_point it') ∧
      ∃ c, item = Some (it_point it', c) ∧ g_cell g (it_point it') = Some c).
Proof.
  intros W Hp Hc. pose proof (grid_dims R g W) as Hd. pose proof Hd as (? & ? & ?).
  unfold iter_prev. rewrite topmost_line_ok, last_column_ok by done. cbn [mbind exec_bind].
  destruct (point_le (it_point it) (mkPoint (top_of g) 0)) eqn:E.
  { wp_step. done. }
  rewrite point_le_ngt, negb_false_iff, point_lt_spec in E. cbn [line column] in E.
  unfold top_of in *.
  wp_step. apply wp_mono with (Q := λ q, linear g q = linear g (it_point it) - 1 ∧ in_grid g q).
  { unfold linear, in_grid, top_of.
    destruct (Z.eqb_spec (column (it_point it)) 0); wp_steps; simpl in *; lia. }
  intros q [Hl Hq]. wp_step. apply wp_grid_cell; [done|done|]. intros c Hgc. wp_step.
  split; [done|]. split; [done|]. split; [done|]. by exists c.
Qed.

(** The items of an iterator, collected. *)
Fixpoint iter_collect (fuel : nat) g (it : GridIterator) : exec (list (Point * T)) :=
  match fuel with
  | O => Panic OutOfFuel
  | S fuel =>
      '(item, it) ← iter_next g it;
      match item with
      | Some x => xs ← iter_collect fuel g it; mret (x :: xs)
      | None => mret []
      end
  end.

(** [x] is the cell number [k] of the grid [g], with its point. *)
Definition cell_number g (k : Z) (x : Point * T) : Prop :=
  in_grid g x.1 ∧ linear g x.1 = k ∧ g_cell g x.1 = Some x.2.

Lemma iter_collect_spec g fuel it :
  grid_wf R g → iter_pos g (it_point it) → in_grid g (it_end it) →
  linear g (it_end it) - linear g (it_point it) < Z.of_nat fuel → (0 < fuel)%nat →
  wp (iter_collect fuel g it) (λ xs,
    zlen xs = Z.max 0 (linear g (it_end it) - linear g (it_point it)) ∧
    ∀ i x, zlookup xs i = Some x → cell_number g (linear g (it_point it) + 1 + i) x).
Proof.
  revert it. induction fuel as [|fuel IH]; intros it W Hp He Hf H0'; [lia|]. simpl. wp_step.
  wp_use iter_next_spec; [done..|]. intros [item it'] [Ee Hi].
  assert (Hge : point_ge (it_point it) (it_end it) = true ↔
    linear g (it_end it) ≤ linear g (it_point it)).
  { unfold point_ge. rewrite point_le_ngt, negb_true_iff, <- not_true_iff_false.
    rewrite (linear_lt g) by (unfold iter_pos, in_grid in *; lia). lia. }
  destruct (point_ge (it_point it) (it_end it)).
  - destruct Hi as [-> ->]. wp_step. unfold zlen; simpl. split; [naive_solver lia|].
    intros i x Hx. apply zlookup_spec in Hx as [_ Hx]. by rewrite lookup_nil in Hx.
  - destruct Hi as (Hl & Hq & c & -> & Hc).
    assert (linear g (it_point it) < linear g (it_end it)).
    { destruct (decide (linear g (it_end it) ≤ linear g (it_point it))); [|lia].
      naive_solver. }
    wp_step. wp_use IH; [done| |by rewrite Ee|rewrite Ee; lia| |].
    + destruct Hq as [? ?]. unfold iter_pos. lia.
    + destruct fuel; lia.
    + intros xs [Hn Hxs]. wp_step. split; [unfold zlen in *; simpl; rewrite Ee in Hn; lia|].
      intros i x Hx. pose proof (zlookup_bound _ _ _ Hx).
      destruct (decide (i = 0)) as [->|].
      * unfold zlookup in Hx. simpl in Hx. injection Hx as <-. split_and!; simpl; [done|lia|done].
      * replace (linear g (it_point it) + 1 + i) with (linear g (it_point it') + 1 + (i - 1)) by lia.
        apply Hxs. rewrite zlookup_nat in * by lia.
        replace (Z.to_nat i) with (S (Z.to_nat (i - 1))) in Hx by lia. done.
Qed.

Lemma iter_size_hint_spec g it :
  grid_wf R g → iter_pos g (it_point it) → in_grid g (it_end it) →
  iter_size_hint g it = Ok (Z.max 0 (linear g (it_end it) - linear g (it_point it))).
Proof.
  intros W Hp He. pose proof (grid_dims R g W) as (Hc & ? & ?).
  assert (Hge : point_ge (it_point it) (it_end it) = true ↔
    linear g (it_end it) ≤ linear g (it_point it)).
  { unfold point_ge. rewrite point_le_ngt, negb_true_iff, <- not_true_iff_false.
    rewrite (linear_lt g) by (unfold iter_pos, in_grid in *; lia). lia. }
  assert (G : wp (iter_size_hint g it)
    (λ n, n = Z.max 0 (linear g (it_end it) - linear g (it_point it)))).
  { unfold iter_size_hint. destruct (point_ge (it_point it) (it_end it)) eqn:E.
    { wp_step. apply proj1 in Hge. specialize (Hge eq_refl). lia. }
    unfold point_ge in E. rewrite point_le_ngt, negb_false_iff, point_lt_spec in E.
    clear Hge. unfold iter_pos, in_grid, top_of, linear, saturating_sub in *.
    simpl in *. destruct (Z.eqb_spec (line (it_point it)) (line (it_end it))) as [El|].
    { wp_steps. rewrite El. lia. }
    assert (0 ≤ (line (it_end it) - line (it_point it) - 1) * g_columns g
      ≤ 1073741824 * 1073741824) by nia.
    wp_steps; nia. }
  apply wp_iff in G as (? & -> & ->). done.
Qed.

(** *** Clearing the viewport *)

(** The cells of the screen with a number in [a..b] are empty. *)
Definition cells_empty g (a b : Z) : Prop :=
  ∀ p c, in_screen g p → a ≤ linear g p < b → g_cell g p = Some c → cell_is_empty c = true.

Lemma viewport_scan_spec g fuel it :
  grid_wf R g → 0 ≤ line (it_point it) < screen_lines g →
  0 ≤ column (it_point it) ≤ columns g → linear g (it_point it) + 1 < Z.of_nat fuel →
  wp (viewport_scan fuel g it) (λ it', -1 ≤ line (it_point it') < screen_lines g ∧
    linear g (it_point it') ≤ linear g (it_point it) ∧ 0 ≤ column (it_point it') < columns g ∧
    cells_empty g (linear g (it_point it') + 1) (linear g (it_point it))).
Proof.
  revert it. induction fuel as [|fuel IH]; intros it W Hl Hc Hf.
  { exfalso. unfold linear in Hf. simpl in *. nia. }
  pose proof (grid_dims R g W) as (Hcols & Hlines & Htot).
  cbn [viewport_scan]. wp_step. wp_use iter_prev_spec; [done|unfold top_of; lia|done|].
  intros [item it'] [_ Hi].
  destruct (point_le (it_point it) (mkPoint (top_of g) 0)) eqn:E.
  { destruct Hi as [-> ->]. rewrite point_le_spec in E. unfold top_of in E. cbn [line column] in E.
    wp_step. split_and!; try lia. intros p c ? ?. lia. }
  destruct Hi as (Hlin & [? ?] & c & -> & Hcell).
  assert (Hline : -1 ≤ line (it_point it')) by (unfold linear in *; simpl in *; nia).
  apply wp_if; [intros _|intros Hgo].
  - wp_step. split_and!; try lia. intros p c' ? ?. lia.
  - apply orb_false_iff in Hgo as [He Hneg]. rewrite negb_false_iff in He.
    wp_use IH; [done|lia|lia|lia|]. intros it2 (? & ? & ? & Hempty).
    split_and!; try lia. intros p c' Hp Hk Hc'.
    destruct (decide (linear g p = linear g (it_point it'))) as [Eq|].
    + apply (linear_inj g) in Eq; [|unfold in_screen in *; lia..]. subst p.
      rewrite Hcell in Hc'. by injection Hc' as <-.
    + apply (Hempty p); [done|lia|done].
Qed.

Lemma is_reset_weaken t t' r : t = t' → is_reset R t r → is_reset R t' r.
Proof. by intros ->. Qed.

(** Every line from [n] on holds empty cells only. *)
Definition blank_below g (n : Z) : Prop :=
  ∀ p c, in_screen g p → n ≤ line p → g_cell g p = Some c → cell_is_empty c = true.

Lemma clear_viewport_spec g :
  grid_wf R g →
  wp (clear_viewport g) (λ g', grid_wf R g' ∧ same_frame g g' ∧
    (∀ l, 0 ≤ l < g_lines g → ∃ r, g_line g' l = Some r ∧ is_reset R (template (cursor g)) r) ∧
    ∃ n, 0 ≤ n ≤ g_lines g ∧ blank_below g n ∧
      s_len (raw g') = Z.min (g_lines g + max_scroll_limit g) (s_len (raw g) + n) ∧
      ∀ l, g_lines g - s_len (raw g') ≤ l < 0 → g_line g' l = g_line g (l + n)).
Proof.
  intros W. pose proof W as [[? ? ? ? ? ?] ? ? ? ?].
  pose proof (grid_dims R g W) as Hd. pose proof Hd as (Hcols & Hlines & Htot). simpl in *.
  unfold clear_viewport. casts. wp_step. wp_step. wp_step. unfold iter_from.
  rewrite bottommost_line_ok, last_column_ok by done. cbn [mbind exec_bind]. wp_step.
  wp_step. wp_use viewport_scan_spec; [done|simpl; lia|simpl; lia|unfold linear; simpl; lia|].
  intros it (Hl & Hlin & Hc & Hempty). simpl in *. wp_steps.
  set (n := line (it_point it) + 1) in *.
  wp_use (scroll_up_top_spec R); [done|lia|lia|].
  intros g1 (W1 & S1 & L1 & O1). pose proof (su_frame _ _ _ _ _ _ S1) as F1.
  pose proof F1 as (? & ? & ? & ? & ?). wp_steps.
  pose proof W1 as [[? ? ? ? ? ?] ? ? ? ?].
  wp_use (reset_first_lines_spec R); [done|lia|].
  intros g2 (W2 & F2 & O2 & L2 & B2 & K2). pose proof F2 as (? & ? & ? & ? & ?).
  split_and!; [done|by eapply same_frame_trans| |].
  - intros l Hl'. destruct (decide (l < g_lines g - n)).
    + destruct (B2 l) as (r & ? & ?); [lia|]. exists r. split; [done|].
      eapply is_reset_weaken; [|done]. congruence.
    + rewrite K2 by (unfold ring_line; lia). apply (su_blank _ _ _ _ _ _ S1); lia.
  - exists n. split_and!; [lia|lia| |lia|].
    + intros p c Hp Hn Hcell. apply (Hempty p c Hp); [|done].
      destruct Hp as [? ?]. unfold linear in *. simpl in *.
      assert (n * g_columns g ≤ line p * g_columns g) by (apply Z.mul_le_mono_nonneg_r; lia).
      assert (line p * g_columns g ≤ (g_lines g - 1) * g_columns g)
        by (apply Z.mul_le_mono_nonneg_r; lia).
      unfold n in *. lia.
    + intros l Hl'. rewrite K2 by (unfold ring_line; lia). apply (su_moved _ _ _ _ _ _ S1). lia.
Qed.
End ops.

(** ** Claims *)

Section claims.
Context `{Ansi} {T D : Type} `{GridCellLaws T D}.
Implicit Types (g : Grid T).

(** A grid whose rows have the width of the grid and a trustworthy [occ]. *)
Definition clean_grid g : Prop := grid_wf (row_clean (g_columns g)) g.

(** C9: [Grid::scroll_up] on a region that starts at the top of the screen
    returns, keeps the invariant, moves every line of the region and of the
    scrollback up by [positions], appends the lines that leave the screen to the
    scrollback as far as [max_scroll_limit] allows, keeps the lines below the
    region and blanks the freed lines with the cursor's template. *)
Theorem scroll_up_moves_lines g (end_ positions : Z) :
  clean_grid g → 0 ≤ positions ≤ end_ → end_ ≤ g_lines g →
  ∃ g', scroll_up g 0 end_ positions = Ok g' ∧ clean_grid g' ∧
    history_size g' = Z.min (max_scroll_limit g) (history_size g + positions) ∧
    (∀ l, - history_size g' ≤ l < end_ - positions → g_line g' l = g_line g (l + positions)) ∧
    (∀ l, end_ - positions ≤ l < end_ →
       g_line g' l = Some (blank_row (g_columns g) (template (cursor g)))) ∧
    (∀ l, end_ ≤ l < g_lines g → g_line g' l = g_line g l).
Proof.
  intros W Hp He. pose proof W as [[P ? ? ? ? ?] ? ? ? ?]. pose proof (rp_bound _ _ P).
  pose proof (scroll_up_top_spec _ g end_ positions W Hp He) as G.
  apply wp_exists in G as (g' & E & W' & S & L & O). exists g'. split; [done|].
  pose proof (su_frame _ _ _ _ _ _ S) as (? & ? & Hc & Hl & ?).
  assert (W'' : clean_grid g') by (unfold clean_grid; by rewrite Hc).
  rewrite !(grid_history (row_clean (g_columns g))) by done. split_and!; [done|lia|..].
  - intros l Hl'. apply (su_moved _ _ _ _ _ _ S). lia.
  - intros l Hl'. destruct (su_blank _ _ _ _ _ _ S l) as (r & -> & Hr); [lia|lia|].
    f_equal. by eapply is_reset_clean.
  - apply S.
Qed.

(** [Grid::scroll_down] moves the lines of the region down by [positions],
    blanks the lines at its start and leaves every other line, the scrollback
    included, alone.  The two implementations (a rotation of the ring for a
    grid without scrollback, a loop of swaps otherwise) agree on this. *)
Lemma scroll_down_moves_lines g (start end_ positions : Z) :
  clean_grid g → 0 ≤ start ≤ end_ → end_ ≤ g_lines g → 0 ≤ positions ≤ 536870912 →
  ∃ g', scroll_down g start end_ positions = Ok g' ∧ clean_grid g' ∧
    history_size g' = history_size g ∧ display_offset g' = display_offset g ∧
    (∀ l, start + positions ≤ l < end_ → g_line g' l = g_line g (l - positions)) ∧
    (∀ l, start ≤ l < Z.min end_ (start + positions) →
       g_line g' l = Some (blank_row (g_columns g) (template (cursor g)))) ∧
    (∀ l, - history_size g ≤ l < g_lines g → l < start ∨ end_ ≤ l → g_line g' l = g_line g l).
Proof.
  intros W Hs He Hp. pose proof W as [[P ? ? ? ? ?] ? ? ? ?]. pose proof (rp_bound _ _ P).
  pose proof (scroll_down_spec _ g start end_ positions W Hs He Hp) as G.
  apply wp_exists in G as (g' & E & W' & S). exists g'. split; [done|].
  destruct S as [(? & ? & Hc & Hl & ?) ? ? Hm Hb Hr].
  assert (W'' : clean_grid g') by (unfold clean_grid; by rewrite Hc).
  rewrite !(grid_history (row_clean (g_columns g))) by done. split_and!; [done|lia|done|done|..].
  - intros l Hl'. destruct (Hb l) as (r & -> & Hreset); [lia|lia|].
    f_equal. by eapply is_reset_clean.
  - intros l Hl' Hd. apply Hr; [unfold g_active; lia|done].
Qed.

(** On a region that does not start at the top, [Grid::scroll_up] moves the
    lines of the region up, blanks the lines at its end and leaves the
    scrollback and the other lines alone; a scroll by the height of the region
    or more blanks all of it. *)
Theorem scroll_up_region_moves_lines g (start end_ positions : Z) :
  clean_grid g → 0 < start ≤ end_ → end_ ≤ g_lines g → 0 ≤ positions ≤ 536870912 →
  ∃ g', scroll_up g start end_ positions = Ok g' ∧ clean_grid g' ∧
    history_size g' = history_size g ∧
    (∀ l, start ≤ l < end_ - positions → g_line g' l = g_line g (l + positions)) ∧
    (∀ l, Z.max start (end_ - positions) ≤ l < end_ →
       g_line g' l = Some (blank_row (g_columns g) (template (cursor g)))) ∧
    (∀ l, - history_size g ≤ l < g_lines g → l < start ∨ end_ ≤ l → g_line g' l = g_line g l).
Proof.
  intros W Hs He Hp. pose proof W as [[P ? ? ? ? ?] ? ? ? ?]. pose proof (rp_bound _ _ P).
  pose proof (scroll_up_region_spec _ g start end_ positions W Hs He Hp) as G.
  apply wp_exists in G as (g' & E & W' & S & Hab & L & _). exists g'. split; [done|].
  destruct S as [(? & ? & Hc & Hl & ?) Hm Hb Hr].
  assert (W'' : clean_grid g') by (unfold clean_grid; by rewrite Hc).
  rewrite !(grid_history (row_clean (g_columns g))) by done. split_and!; [done|lia|done|..].
  - intros l Hl'. destruct (Hb l) as (r & -> & Hreset); [lia|lia|].
    f_equal. by eapply is_reset_clean.
  - intros l Hl' [Hd|Hd]; [apply Hab; [unfold g_active; lia|done]|apply Hr; lia].
Qed.

(** The cells of the displayed area. *)
Lemma display_iter_cells g :
  clean_grid g → offset_ok g →
  ∃ it xs, display_iter g = Ok it ∧ iter_size_hint g it = Ok (g_lines g * g_columns g) ∧
    iter_collect (Z.to_nat (g_lines g * g_columns g) + 1) g it = Ok xs ∧
    zlen xs = g_lines g * g_columns g ∧
    ∀ i x, zlookup xs i = Some x → cell_number g (- display_offset g * g_columns g + i) x.
Proof.
  intros W Ho. pose proof (grid_dims _ g W) as Hd. pose proof Hd as (? & ? & ?).
  unfold offset_ok in Ho. rewrite history_size_eq in Ho by done. unfold top_of in Ho. simpl in *.
  set (last := g_columns g - 1).
  assert (E : display_iter g = Ok (mkIter (mkPoint (- display_offset g - 1) last)
    (mkPoint (- display_offset g - 1 + g_lines g) last))).
  { unfold display_iter. rewrite last_column_ok, bottommost_line_ok by done. simpl. casts.
    unfold i32_neg, checked. destruct (in_i32 (- display_offset g)) eqn:Ei;
      [|unfold in_i32, i32_min, i32_max in Ei; lia].
    cbn [mbind exec_bind]. run. do 2 f_equal. f_equal. lia. }
  set (it := mkIter _ _) in E.
  assert (Hit : iter_pos g (it_point it)) by (unfold iter_pos, top_of; simpl; lia).
  assert (Hen : in_grid g (it_end it)) by (unfold in_grid, top_of; simpl; lia).
  assert (Hn : linear g (it_end it) - linear g (it_point it) = g_lines g * g_columns g)
    by (unfold linear; simpl; lia).
  assert (0 ≤ g_lines g * g_columns g) by nia.
  pose proof (iter_collect_spec _ g (Z.to_nat (g_lines g * g_columns g) + 1) it W Hit Hen) as G.
  specialize (G ltac:(lia) ltac:(lia)). apply wp_exists in G as (xs & Ex & Hl & Hx).
  exists it, xs. split; [done|].
  rewrite (iter_size_hint_spec _ g it W Hit Hen), Hn. rewrite Z.max_r by done. split; [done|].
  split; [exact Ex|]. split; [lia|]. intros i x Hi. apply Hx in Hi.
  replace (- display_offset g * g_columns g + i) with (linear g (it_point it) + 1 + i); [done|].
  unfold linear; simpl. subst last. lia.
Qed.

(** The iterator of the displayed area yields, in reading order, exactly
    the [lines * columns] cells of the screen shifted by the display offset, and
    [size_hint] announces that number; nothing is out of range as long as the
    display offset stays within the scrollback. *)
Theorem display_iter_enumerates g :
  clean_grid g → offset_ok g →
  ∃ it xs, display_iter g = Ok it ∧ iter_size_hint g it = Ok (g_lines g * g_columns g) ∧
    iter_collect (Z.to_nat (g_lines g * g_columns g) + 1) g it = Ok xs ∧
    zlen xs = g_lines g * g_columns g ∧
    ∀ i x, zlookup xs i = Some x → cell_number g (- display_offset g * g_columns g + i) x.
Proof. apply display_iter_cells. Qed.

(** [Grid::clear_viewport] terminates, blanks the whole screen and loses no
    content: there is a number [n] of lines that it moves into the scrollback,
    and all the lines from [n] on held empty cells only. *)
Theorem clear_viewport_keeps_content g :
  clean_grid g →
  ∃ g' n, clear_viewport g = Ok g' ∧ clean_grid g' ∧
    0 ≤ n ≤ g_lines g ∧ blank_below g n ∧
    history_size g' = Z.min (max_scroll_limit g) (history_size g + n) ∧
    (∀ l, - history_size g' ≤ l < 0 → g_line g' l = g_line g (l + n)) ∧
    (∀ l, 0 ≤ l < g_lines g →
       g_line g' l = Some (blank_row (g_columns g) (template (cursor g)))).
Proof.
  intros W. pose proof W as [[P ? ? ? ? ?] ? ? ? ?]. pose proof (rp_bound _ _ P).
  pose proof (clear_viewport_spec _ g W) as G.
  apply wp_exists in G as (g' & E & W' & (? & ? & Hc & Hl & ?) & Hb & n & Hn & Hbl & L & Hk).
  exists g', n. assert (W'' : clean_grid g') by (unfold clean_grid; by rewrite Hc).
  rewrite !(grid_history (row_clean (g_columns g))) by done.
  split_and!; [done|done|lia|lia|done|lia| |].
  - intros l Hl'. apply Hk. lia.
  - intros l Hl'. destruct (Hb l) as (r & -> & Hreset); [lia|]. f_equal. by eapply is_reset_clean.
Qed.
End claims.
