(* ===== verification/Cell.v ===== *)
(** * Terminal cells (alacritty_terminal/src/term/cell.rs)

    The content and the attributes of one cell, the rarely used attributes
    behind [extra], hyperlinks with generated ids, and the instance of the
    [GridCell] interface.  [Arc::make_mut] copies on write, so an [Arc] is the
    value it holds. *)

From S2P Require Import Prelude Ansi GridCell Row.
#[local] Open Scope Z_scope.

(** [vte::ansi::Hyperlink]. *)
Record VteHyperlink := mkVteHyperlink { vte_id : option text; vte_uri : text }.

Record Hyperlink := mkHyperlink { hyperlink_id : text; hyperlink_uri : text }.

#[global] Instance Hyperlink_eq_dec : EqDecision Hyperlink.
Proof. solve_decision. Defined.

(** [HyperlinkInner::new].  [suffix] is the value of the static counter
    [HYPERLINK_ID_SUFFIX], an [AtomicU32] whose [fetch_add] wraps; the new value
    of the counter is returned as well. *)
Definition hyperlink_new (suffix : Z) (id : option text) (uri : text) : Hyperlink * Z :=
  match id with
  | Some id => (mkHyperlink id uri, suffix)
  | None => (mkHyperlink (show suffix ++ str "_alacritty") uri, (suffix + 1) mod 4294967296)
  end.

Definition hyperlink_of_vte (suffix : Z) (h : VteHyperlink) : Hyperlink * Z :=
  hyperlink_new suffix (vte_id h) (vte_uri h).

Definition vte_of_hyperlink (h : Hyperlink) : VteHyperlink :=
  mkVteHyperlink (Some (hyperlink_id h)) (hyperlink_uri h).

Record CellExtra := mkCellExtra {
  ce_zerowidth : list char;
  ce_underline_color : option Color;
  ce_hyperlink : option Hyperlink }.

#[global] Instance CellExtra_eq_dec : EqDecision CellExtra.
Proof. solve_decision. Defined.

Definition cell_extra_default : CellExtra := mkCellExtra [] None None.

Record Cell := mkCell {
  c : char;
  fg : Color;
  bg : Color;
  flags : Z;
  extra : option CellExtra }.

#[global] Instance Cell_eq_dec : EqDecision Cell.
Proof. solve_decision. Defined.

Definition default_cell : Cell :=
  mkCell SPACE (Named Foreground) (Named Background) Flags.empty None.

(** Field updates. *)
Definition with_c (ch : char) (x : Cell) : Cell := mkCell ch (fg x) (bg x) (flags x) (extra x).
Definition with_fg (col : Color) (x : Cell) : Cell := mkCell (c x) col (bg x) (flags x) (extra x).
Definition with_bg (col : Color) (x : Cell) : Cell := mkCell (c x) (fg x) col (flags x) (extra x).
Definition with_flags (f : Z) (x : Cell) : Cell := mkCell (c x) (fg x) (bg x) f (extra x).
Definition with_extra (e : option CellExtra) (x : Cell) : Cell :=
  mkCell (c x) (fg x) (bg x) (flags x) e.
Definition insert_flags (f : Z) (x : Cell) : Cell := with_flags (Bitflags.insert (flags x) f) x.
Definition remove_flags (f : Z) (x : Cell) : Cell := with_flags (Bitflags.remove (flags x) f) x.

(** ** Operations *)

Definition zerowidth (x : Cell) : option (list char) := ce_zerowidth <$> extra x.

Definition push_zerowidth (character : char) (x : Cell) : Cell :=
  let e := default cell_extra_default (extra x) in
  with_extra (Some (mkCellExtra (ce_zerowidth e ++ [character]) (ce_underline_color e)
                      (ce_hyperlink e))) x.

Definition clear_wide (x : Cell) : Cell :=
  let x := remove_flags Flags.WIDE_CHAR x in
  let x := match extra x with
           | Some e => with_extra (Some (mkCellExtra [] (ce_underline_color e) (ce_hyperlink e))) x
           | None => x
           end in
  with_c SPACE x.

(** [Vec::is_empty] and [Option::is_none]. *)
Definition is_nil {A} (l : list A) : bool := match l with [] => true | _ => false end.
Definition is_none {A} (o : option A) : bool := match o with None => true | Some _ => false end.

Definition set_underline_color (color : option Color) (x : Cell) : Cell :=
  if is_none color
     && match extra x with
        | None => true
        | Some e => is_nil (ce_zerowidth e) && is_none (ce_hyperlink e)
        end
  then with_extra None x
  else
    let e := default cell_extra_default (extra x) in
    with_extra (Some (mkCellExtra (ce_zerowidth e) color (ce_hyperlink e))) x.

Definition underline_color (x : Cell) : option Color := e ← extra x; ce_underline_color e.

Definition set_hyperlink (hyperlink : option Hyperlink) (x : Cell) : Cell :=
  let should_drop :=
    is_none hyperlink
    && match extra x with
       | None => true
       | Some e => is_nil (ce_zerowidth e) && is_none (ce_underline_color e)
       end in
  if should_drop then with_extra None x
  else
    let e := default cell_extra_default (extra x) in
    with_extra (Some (mkCellExtra (ce_zerowidth e) (ce_underline_color e) hyperlink)) x.

Definition hyperlink (x : Cell) : option Hyperlink := e ← extra x; ce_hyperlink e.

(** [self.extra.as_ref().map(|extra| extra.zerowidth.is_empty()) == Some(false)]. *)
Definition has_zerowidth (x : Cell) : bool :=
  match extra x with Some e => negb (is_nil (ce_zerowidth e)) | None => false end.

(** The flags that make a cell count as not empty. *)
Definition VISIBLE_FLAGS : Z :=
  Z.lor (Z.lor (Z.lor (Z.lor (Z.lor Flags.INVERSE Flags.ALL_UNDERLINES) Flags.STRIKEOUT)
    Flags.WRAPLINE) Flags.WIDE_CHAR_SPACER) Flags.LEADING_WIDE_CHAR_SPACER.

(** [GridCell::is_empty]. *)
Definition is_empty (x : Cell) : bool :=
  ((c x =? SPACE) || (c x =? TAB))
  && bool_decide (bg x = Named Background)
  && bool_decide (fg x = Named Foreground)
  && negb (Bitflags.intersects (flags x) VISIBLE_FLAGS)
  && negb (has_zerowidth x).

(** [From<Color> for Cell]. *)
Definition cell_from (color : Color) : Cell :=
  mkCell (c default_cell) (fg default_cell) color (flags default_cell) (extra default_cell).

(** [GridCell::reset]. *)
Definition reset (x template : Cell) : Cell :=
  mkCell (c default_cell) (fg default_cell) (bg template) (flags default_cell) (extra default_cell).

#[global] Instance Cell_grid_cell : GridCell Cell Color := {
  cell_is_empty := is_empty;
  cell_reset := reset;
  cell_flags := flags;
  cell_set_flags := with_flags;
  cell_default := default_cell;
  cell_discriminant := bg }.

#[global] Instance Cell_laws : GridCellLaws Cell Color.
Proof.
  split; try done.
  intros x x' t t' E. unfold cell_reset; simpl. unfold reset. simpl in E. by rewrite E.
Qed.

(** [for (index, cell) in cells.iter().rev().enumerate()], with the cells in
    reverse order and [index] the number of cells already seen. *)
Fixpoint line_length_loop (len index : Z) (rev_cells : list Cell) : exec Z :=
  match rev_cells with
  | [] => mret 0
  | x :: rest =>
      if negb (c x =? SPACE) || has_zerowidth x then usize_sub len index
      else line_length_loop len (index + 1) rest
  end.

(** [LineLength::line_length]. *)
Definition line_length (r : Row Cell) : exec Z :=
  i ← usize_sub (row_len r) 1;
  last ← row_get r i;
  if Bitflags.contains (flags last) Flags.WRAPLINE then mret (row_len r)
  else line_length_loop (row_len r) 0 (reverse (r_inner r)).

(** ** Properties *)

(** The attributes that [extra] holds, read through the accessors. *)
Definition cell_zerowidth (x : Cell) : list char := default [] (zerowidth x).

Lemma is_nil_true {A} (l : list A) : is_nil l = true ↔ l = [].
Proof. by destruct l. Qed.

Lemma is_none_true {A} (o : option A) : is_none o = true ↔ o = None.
Proof. by destruct o. Qed.

(** A cell without text: a space with no combining characters. *)
Definition no_text (x : Cell) : bool := (c x =? SPACE) && negb (has_zerowidth x).

Lemma line_length_loop_spec len index cells :
  0 ≤ index → index + zlen cells = len → len ≤ 1073741824 →
  ∃ n, line_length_loop len index cells = Ok n ∧ 0 ≤ n ≤ zlen cells ∧
    Forall (λ x, no_text x = true) (take (Z.to_nat (zlen cells - n)) cells) ∧
    (0 < n → ∃ x, zlookup cells (zlen cells - n) = Some x ∧ no_text x = false).
Proof.
  revert index. induction cells as [|x cells IH]; intros index Hi Hl Hb; simpl.
  { exists 0. unfold zlen; simpl. split_and!; [done|lia|lia|constructor|lia]. }
  assert (Hz : zlen (x :: cells) = 1 + zlen cells) by (unfold zlen; simpl; lia).
  pose proof (zlen_nonneg cells).
  destruct (negb (c x =? SPACE) || has_zerowidth x) eqn:E.
  - exists (len - index). rewrite usize_sub_ok by lia.
    replace (zlen (x :: cells) - (len - index)) with 0 by lia.
    split_and!; [done|lia|lia|constructor|]. intros _. exists x. split; [done|].
    unfold no_text. destruct (c x =? SPACE); simpl in *; [|done]. by rewrite E.
  - destruct (IH (index + 1)) as (n & En & Hn & Hf & Hx); [lia..|].
    exists n. split; [done|]. split; [lia|]. split.
    + replace (Z.to_nat (zlen (x :: cells) - n)) with (S (Z.to_nat (zlen cells - n))) by lia.
      simpl. constructor; [|done]. apply orb_false_iff in E as [E1 E2].
      unfold no_text. rewrite negb_false_iff in E1. by rewrite E1, E2.
    + intros Hp. destruct (Hx Hp) as (y & Hy & ?). exists y. split; [|done].
      rewrite zlookup_nat in * by lia.
      replace (Z.to_nat (zlen (x :: cells) - n)) with (S (Z.to_nat (zlen cells - n))) by lia. done.
Qed.

Lemma zlookup_reverse {A} (l : list A) i :
  0 ≤ i < zlen l → zlookup (reverse l) i = zlookup l (zlen l - 1 - i).
Proof.
  unfold zlen. intros. rewrite !zlookup_nat by lia. rewrite reverse_lookup by lia.
  f_equal. lia.
Qed.

(** ** Claims *)

(** The optional storage of a cell loses nothing: after [set_hyperlink] and
    [set_underline_color] the accessors return the value that was set, the other
    attributes and the combining characters are kept, and a cell whose extra
    attributes are all unset by them has no extra storage. *)
Theorem cell_extra_lossless (x : Cell) (h : option Hyperlink) (u : option Color) :
  hyperlink (set_hyperlink h x) = h ∧
  underline_color (set_hyperlink h x) = underline_color x ∧
  cell_zerowidth (set_hyperlink h x) = cell_zerowidth x ∧
  underline_color (set_underline_color u x) = u ∧
  hyperlink (set_underline_color u x) = hyperlink x ∧
  cell_zerowidth (set_underline_color u x) = cell_zerowidth x ∧
  (cell_zerowidth x = [] →
   extra (set_hyperlink None (set_underline_color None x)) = None) ∧
  (cell_zerowidth x = [] →
   extra (set_underline_color None (set_hyperlink None x)) = None).
Proof.
  destruct x as [ch f b fl [[[|z zs] [uc|] [hl|]]|]], h as [h|], u as [u|]; repeat split; done.
Qed.

(** [line_length] of a row is the shortest prefix that holds all of its
    text: the cells behind it are blank, the last cell in front of it is not;
    a row that continues on the next line counts in full. *)
Theorem line_length_spec (n : Z) (r : Row Cell) :
  row_wf n r → 1 ≤ n ≤ 1073741824 →
  ∃ len, line_length r = Ok len ∧ 0 ≤ len ≤ n ∧
    if match zlookup (r_inner r) (n - 1) with
       | Some x => Bitflags.contains (flags x) Flags.WRAPLINE | None => false end
    then len = n
    else (∀ i x, len ≤ i → zlookup (r_inner r) i = Some x → no_text x = true) ∧
         (0 < len → ∃ x, zlookup (r_inner r) (len - 1) = Some x ∧ no_text x = false).
Proof.
  unfold row_wf, row_len. intros [Hl _] Hn. unfold line_length, row_len, row_get.
  rewrite usize_sub_ok by lia. cbn [mbind exec_bind].
  destruct (zlookup_some (r_inner r) (n - 1)) as [x Hx]; [lia|].
  rewrite Hl, (vec_get_ok _ _ x), Hx by done. cbn [mbind exec_bind].
  destruct (Bitflags.contains (flags x) Flags.WRAPLINE).
  { exists n. split; [done|]. split; [lia|done]. }
  destruct (line_length_loop_spec n 0 (reverse (r_inner r))) as (len & -> & Hlen & Hf & Hx');
    [lia|unfold zlen in *; rewrite length_reverse; lia|lia|].
  assert (Hr : zlen (reverse (r_inner r)) = n) by (unfold zlen in *; by rewrite length_reverse).
  rewrite Hr in *. exists len. split; [done|]. split; [lia|]. split.
  - intros i y Hi Hy. pose proof (zlookup_bound _ _ _ Hy).
    apply (Forall_lookup_1 _ _ (Z.to_nat (n - 1 - i)) y Hf).
    rewrite lookup_take_lt by lia. rewrite <- zlookup_nat by lia.
    rewrite zlookup_reverse by lia. rewrite Hl. by replace (n - 1 - (n - 1 - i)) with i by lia.
  - intros Hp. destruct (Hx' Hp) as (y & Hy & ?). exists y. split; [|done].
    rewrite zlookup_reverse in Hy by lia. rewrite Hl in Hy.
    by replace (n - 1 - (n - len)) with (len - 1) in Hy by lia.
Qed.
