(* ===== verification/Resize.v ===== *)
(** * Resize and reflow (alacritty_terminal/src/grid/resize.rs)

    The grid's [resize]: growing and shrinking the number of lines moves rows
    between the screen and the scrollback, growing and shrinking the number of
    columns rewraps the rows.  The loops over [rows.drain(..).enumerate().rev()]
    run over the positions of the drained vector from the end. *)

From S2P Require Import Prelude Index Ansi GridCell Row Storage Grid.
#[local] Open Scope Z_scope.

Section resize.
Context `{Ansi} {T D : Type} `{GridCell T D}.
Implicit Types (g : Grid T) (r row : Row T).

Definition set_cursor_line g (l : Z) : Grid T :=
  goto_point g (mkPoint l (column (point (cursor g)))).
Definition set_cursor_column g (col : Z) : Grid T :=
  goto_point g (mkPoint (line (point (cursor g))) col).
Definition set_saved_point g (p : Point) : Grid T :=
  with_saved_cursor g (cursor_at (saved_cursor g) p).

Definition grow_lines g (target : Z) : exec (Grid T) :=
  lines_added ← usize_sub target (g_lines g);
  raw' ← grow_visible_lines (raw g) target;
  let g := with_lines (with_raw g raw') target in
  let history_size := history_size g in
  let from_history := Z.min history_size lines_added in
  g ← (if negb (from_history =? lines_added) then
         delta ← usize_sub lines_added from_history;
         scroll_up g 0 (as_i32 target) delta
       else mret g);
  saved_line ← line_add_usize (line (point (saved_cursor g))) from_history;
  let g := set_saved_point g (mkPoint saved_line (column (point (saved_cursor g)))) in
  cursor_line ← line_add_usize (line (point (cursor g))) from_history;
  let g := set_cursor_line g cursor_line in
  let g := with_display_offset g (saturating_sub (display_offset g) lines_added) in
  decrease_scroll_limit g lines_added.

Definition grid_shrink_lines g (target : Z) : exec (Grid T) :=
  x ← usize_add (as_usize (line (point (cursor g)))) 1;
  let required_scrolling := saturating_sub x target in
  g ← (if 0 <? required_scrolling then
         g ← scroll_up g 0 (as_i32 (g_lines g)) required_scrolling;
         last ← i32_sub (as_i32 target) 1;
         mret (set_cursor_line g (Z.min (line (point (cursor g))) last))
       else mret g);
  last ← i32_sub (as_i32 target) 1;
  let g := set_saved_point g (mkPoint (Z.min (line (point (saved_cursor g))) last)
                                (column (point (saved_cursor g)))) in
  n ← usize_sub (g_lines g) target;
  raw' ← storage_rotate (raw g) (as_isize n);
  raw' ← shrink_visible_lines raw' target;
  mret (with_lines (with_raw g raw') target).

(** "Remove the linewrap special case, by moving the cursor outside of the grid." *)
Definition unwrap_cursor (reflow : bool) g : exec (Grid T) :=
  if input_needs_wrap (cursor g) && reflow then
    let g := set_wrap g false in
    col ← usize_add (column (point (cursor g))) 1;
    mret (set_cursor_column g col)
  else mret g.

(** [self.lines - self.cursor.point.line.0 as usize - 1]. *)
Definition cursor_buffer_line g : exec Z :=
  x ← usize_sub (g_lines g) (as_usize (line (point (cursor g))));
  usize_sub x 1.

(** [let mut spacer = T::default(); spacer.flags_mut().insert(..)]. *)
Definition leading_spacer : T := cell_insert Flags.LEADING_WIDE_CHAR_SPACER cell_default.

(** *** Growing the columns *)

Definition should_reflow (reflow : bool) (columns : Z) r : exec bool :=
  let len := row_len r in
  if reflow && (0 <? len) && (len <? columns) then
    i ← usize_sub len 1;
    x ← row_get r i;
    mret (cell_contains x Flags.WRAPLINE)
  else mret false.

(** The locals of [grow_columns] that its loop changes. *)
Record GrowState := mkGrow {
  gr_grid : Grid T;
  gr_reversed : list (Row T);
  gr_cursor_line_delta : Z }.

(** Move cells from the front of [row] to the end of [last_row]; returns both
    rows and [num_wrapped]. *)
Definition pull_cells (columns : Z) (last_row row : Row T) : exec (Row T * Row T * Z) :=
  let last_row := row_modify_last (cell_remove Flags.WRAPLINE) last_row in
  let last_len := row_len last_row in
  last_row ← (if 1 <=? last_len then
                i ← usize_sub last_len 1;
                x ← row_get last_row i;
                if cell_contains x Flags.LEADING_WIDE_CHAR_SPACER
                then mret (row_shrink last_row (last_len - 1)).1
                else mret last_row
              else mret last_row);
  let last_len := row_len last_row in
  num_wrapped ← usize_sub columns last_len;
  let len := Z.min (row_len row) num_wrapped in
  i ← usize_sub len 1;
  x ← row_get row i;
  '(row, cells, num_wrapped) ←
    (if cell_contains x Flags.WIDE_CHAR then
       num_wrapped ← usize_sub num_wrapped 1;
       i ← usize_sub len 1;
       '(row, cells) ← row_front_split_off row i;
       mret (row, cells ++ [leading_spacer], num_wrapped)
     else
       '(row, cells) ← row_front_split_off row len;
       mret (row, cells, num_wrapped));
  last_row ← row_append last_row cells;
  mret (last_row, row, num_wrapped).

(** The cursor after its row [i] lost [num_wrapped] cells to the row above, and
    whether the emptied row is dropped. *)
Definition grow_cursor (reflow : bool) (i num_wrapped : Z) row (st : GrowState)
    : exec (GrowState * bool) :=
  let g := gr_grid st in
  cursor_buffer_line ← cursor_buffer_line g;
  if (i =? cursor_buffer_line) && reflow then
    target ← point_sub (point (cursor g)) g BCursor num_wrapped;
    '(g, target) ←
      (if (column target =? 0) && row_is_clear row then
         let g := set_wrap g true in
         target ← point_sub target g BCursor 1;
         mret (g, target)
       else mret (g, target));
    let g := set_cursor_column g (column target) in
    line_delta ← i32_sub (line (point (cursor g))) (line target);
    if negb (line_delta =? 0) && row_is_clear row then
      mret (mkGrow g (gr_reversed st) (gr_cursor_line_delta st), true)
    else
      delta ← usize_add (gr_cursor_line_delta st) (as_usize line_delta);
      mret (mkGrow g (gr_reversed st) delta, false)
  else if row_is_clear row then
    let g := if i <? display_offset g
             then with_display_offset g (saturating_sub (display_offset g) 1) else g in
    g ← (if i <? cursor_buffer_line then
           l ← i32_add (line (point (cursor g))) 1; mret (set_cursor_line g l)
         else mret g);
    mret (mkGrow g (gr_reversed st) (gr_cursor_line_delta st), true)
  else mret (st, false).

(** One iteration of the loop of [grow_columns]. *)
Definition grow_row (reflow : bool) (columns i : Z) row (st : GrowState) : exec GrowState :=
  let push rows st := mkGrow (gr_grid st) rows (gr_cursor_line_delta st) in
  match last (gr_reversed st) with
  | None => mret (push (gr_reversed st ++ [row]) st)
  | Some last_row =>
      reflows ← should_reflow reflow columns last_row;
      if (reflows : bool) then
        let init := take (pred (length (gr_reversed st))) (gr_reversed st) in
        '(last_row, row, num_wrapped) ← pull_cells columns last_row row;
        '(st, dropped) ← grow_cursor reflow i num_wrapped row st;
        if (dropped : bool) then mret (push (init ++ [last_row]) st)
        else
          let last_row := row_modify_last (cell_insert Flags.WRAPLINE) last_row in
          mret (push (init ++ [last_row; row]) st)
      else mret (push (gr_reversed st ++ [row]) st)
  end.

Definition grow_columns g (reflow : bool) (columns : Z) : exec (Grid T) :=
  let g := with_columns g columns in
  g ← unwrap_cursor reflow g;
  '(raw', rows) ← take_all (raw g);
  st ← for_range_rev 0 (zlen rows)
    (λ i st, row ← vec_get rows i; grow_row reflow columns i row st)
    (mkGrow (with_raw g raw') [] 0);
  let g := gr_grid st in
  let reversed := gr_reversed st in
  let cursor_line_delta := gr_cursor_line_delta st in
  '(g, reversed) ←
    (if zlen reversed <? g_lines g then
       n ← usize_sub (g_lines g) (zlen reversed);
       l ← i32_sub (line (point (cursor g))) (as_i32 n);
       let g := set_cursor_line g (Z.max l 0) in
       reversed ← resize_rows reversed (g_lines g) columns;
       mret (g, reversed)
     else mret (g, reversed));
  '(g, reversed) ←
    (if negb (cursor_line_delta =? 0) then
       cursor_buffer_line ← cursor_buffer_line g;
       n ← usize_sub (zlen reversed) (g_lines g);
       let available := Z.min cursor_buffer_line n in
       let overflow := saturating_sub cursor_line_delta available in
       x ← usize_add (zlen reversed) overflow;
       x ← usize_sub x cursor_line_delta;
       let reversed := take (Z.to_nat x) reversed in
       l ← line_sub_usize (line (point (cursor g))) overflow;
       mret (set_cursor_line g (Z.max l 0), reversed)
     else mret (g, reversed));
  let new_raw := (λ row, if row_len row <? columns then row_grow row columns else row)
                   <$> reverse reversed in
  let g := with_raw g (replace_inner (raw g) new_raw) in
  mret (with_display_offset g (Z.min (display_offset g) (history_size g))).

(** *** Shrinking the columns *)

(** The locals of [shrink_columns] that its loops change. *)
Record ShrinkState := mkShrink {
  sh_grid : Grid T;
  sh_new_raw : list (Row T);
  sh_buffered : option (list T) }.

(** The cells that [row.shrink] cut off, or none of them where the cursor is beyond the
    width: what is before it counts as explicit whitespace. *)
Definition overflowing (reflow : bool) (columns i : Z) (cut : option (list T)) g : exec (option (list T)) :=
  match cut, reflow with
  | Some wrapped, true => mret (Some wrapped)
  | _, _ =>
      cursor_buffer_line ← cursor_buffer_line g;
      mret (if reflow && (i =? cursor_buffer_line) && (columns <? column (point (cursor g)))
            then Some [] else None)
  end.

(** "Insert spacer if a wide char would be wrapped into the last column." *)
Definition wrap_wide (columns : Z) row (wrapped : list T) : exec (Row T * list T) :=
  if columns <=? row_len row then
    last ← usize_sub columns 1;
    x ← row_get row last;
    if cell_contains x Flags.WIDE_CHAR then
      row ← row_modify row last (λ _, leading_spacer);
      mret (row, x :: wrapped)
    else mret (row, wrapped)
  else mret (row, wrapped).

Definition ends_in_spacer (wrapped : list T) : exec bool :=
  let len := zlen wrapped in
  if 0 <? len then
    i ← usize_sub len 1;
    x ← vec_get wrapped i;
    mret (cell_contains x Flags.LEADING_WIDE_CHAR_SPACER)
  else mret false.

(** "Remove the leading spacer from the end of the wrapped row." *)
Definition drop_spacer (wrapped : list T) : exec (list T) :=
  let len := zlen wrapped in
  i ← usize_sub len 2;
  wrapped ← vec_modify wrapped i (cell_insert Flags.WRAPLINE);
  mret (take (Z.to_nat (len - 1)) wrapped).

(** The cursor and the display offset after row [i] became two rows. *)
Definition wrap_cursor (columns i : Z) g : exec (Grid T) :=
  cursor_buffer_line ← cursor_buffer_line g;
  g ← (if ((i =? cursor_buffer_line) && (column (point (cursor g)) <? columns))
          || (i <? cursor_buffer_line) then
         l ← i32_sub (line (point (cursor g))) 1;
         mret (set_cursor_line g (Z.max l 0))
       else mret g);
  g ← (if (i =? cursor_buffer_line) && (columns <=? column (point (cursor g))) then
         col ← usize_sub (column (point (cursor g))) columns;
         mret (set_cursor_column g col)
       else mret g);
  if i <? display_offset g then
    o ← usize_add (display_offset g) 1; mret (with_display_offset g o)
  else mret g.

(** The inner [loop] for row [i]; [fuel] bounds its iterations. *)
Fixpoint shrink_row (fuel : nat) (reflow : bool) (columns i : Z) row (st : ShrinkState)
    : exec ShrinkState :=
  match fuel with
  | O => Panic OutOfFuel
  | S fuel =>
      let g := sh_grid st in
      let '(row, cut) := row_shrink row columns in
      wrapped ← overflowing reflow columns i cut g;
      match wrapped with
      | None => mret (mkShrink g (sh_new_raw st ++ [row]) (sh_buffered st))
      | Some wrapped =>
          '(row, wrapped) ← wrap_wide columns row wrapped;
          spacer ← ends_in_spacer wrapped;
          if (spacer : bool) && (zlen wrapped =? 1) then
            last ← usize_sub columns 1;
            row ← row_modify row last (cell_insert Flags.WRAPLINE);
            mret (mkShrink g (sh_new_raw st ++ [row]) (sh_buffered st))
          else
            wrapped ← (if (spacer : bool) then drop_spacer wrapped else mret wrapped);
            let new_raw := sh_new_raw st ++ [row_modify_last (cell_insert Flags.WRAPLINE) row] in
            if match last wrapped with
               | Some x => cell_contains x Flags.WRAPLINE && (1 <=? i) | None => false end
               && (zlen wrapped <? columns)
            then
              let wrapped := alter (cell_remove Flags.WRAPLINE) (pred (length wrapped)) wrapped in
              mret (mkShrink g new_raw (Some wrapped))
            else
              g ← wrap_cursor columns i g;
              let occ := zlen wrapped in
              let wrapped := if occ <? columns then resize_default wrapped columns else wrapped in
              shrink_row fuel reflow columns i (row_from_vec wrapped occ) (mkShrink g new_raw (sh_buffered st))
      end
  end.

(** One iteration of the outer loop: cells left over from the row above come
    first. *)
Definition shrink_one (reflow : bool) (columns i : Z) row (st : ShrinkState) : exec ShrinkState :=
  '(row, st) ←
    match sh_buffered st with
    | Some buffered =>
        let g := sh_grid st in
        cursor_buffer_line ← cursor_buffer_line g;
        g ← (if i =? cursor_buffer_line then
               col ← usize_add (column (point (cursor g))) (zlen buffered);
               mret (set_cursor_column g col)
             else mret g);
        row ← row_append_front row buffered;
        mret (row, mkShrink g (sh_new_raw st) None)
    | None => mret (row, st)
    end;
  shrink_row (Z.to_nat (row_len row + column (point (cursor (sh_grid st))) + 2))
    reflow columns i row st.

(** Reflow the primary cursor, or clamp it, and clamp the saved one. *)
Definition shrink_cursor (reflow : bool) (columns : Z) g : exec (Grid T) :=
  last ← usize_sub columns 1;
  let p := point (cursor g) in
  g ← (if negb reflow then mret (set_cursor_column g (Z.min (column p) last))
       else
         at_end ← (if column p =? columns then
                     x ← grid_cell g (mkPoint (line p) last);
                     mret (negb (cell_contains x Flags.WRAPLINE))
                   else mret false);
         if (at_end : bool) then
           col ← usize_sub (column p) 1;
           mret (set_cursor_column (set_wrap g true) col)
         else
           p ← grid_clamp p g BCursor;
           mret (goto_point g p));
  let q := point (saved_cursor g) in
  mret (set_saved_point g (mkPoint (line q) (Z.min (column q) last))).

Definition shrink_columns g (reflow : bool) (columns : Z) : exec (Grid T) :=
  let g := with_columns g columns in
  g ← unwrap_cursor reflow g;
  '(raw', rows) ← take_all (raw g);
  st ← for_range_rev 0 (zlen rows)
    (λ i st, row ← vec_get rows i; shrink_one reflow columns i row st)
    (mkShrink (with_raw g raw') [] None);
  let g := sh_grid st in
  n ← usize_add (max_scroll_limit g) (g_lines g);
  let reversed := take (Z.to_nat n) (reverse (sh_new_raw st)) in
  let g := with_raw g (replace_inner (raw g) reversed) in
  let g := with_display_offset g (Z.min (display_offset g) (history_size g)) in
  shrink_cursor reflow columns g.

(** [Grid::resize]. *)
Definition grid_resize g (reflow : bool) (lines columns : Z) : exec (Grid T) :=
  let saved_template := template (cursor g) in
  let g := with_cursor g (cursor_with_template (cursor g) cell_default) in
  g ← match g_lines g ?= lines with
      | Lt => grow_lines g lines
      | Gt => grid_shrink_lines g lines
      | Eq => mret g
      end;
  g ← match g_columns g ?= columns with
      | Lt => grow_columns g reflow columns
      | Gt => shrink_columns g reflow columns
      | Eq => mret g
      end;
  mret (with_cursor g (cursor_with_template (cursor g) saved_template)).
End resize.
