(* ===== verification/ResizeFacts.v ===== *)
(** * Resizing the number of lines

    What every line of the buffer holds after [grow_lines] and [shrink_lines]:
    the content moves as a whole, into and out of the scrollback. *)

From S2P Require Import Prelude Index Ansi GridCell Row Storage Grid GridFacts GridOps Resize.
#[local] Open Scope Z_scope.

Section facts.
Context `{Ansi} {T D : Type} `{GridCellLaws T D}.
Context (R : Row T → Prop).
Implicit Types (g : Grid T) (s : Storage T).

(** The saved and the primary cursor moved, the rest of the frame is kept. *)
Definition cursor_lines g (g' : Grid T) (l saved : Z) : Prop :=
  cursor g' = cursor_at (cursor g) (mkPoint l (column (point (cursor g)))) ∧
  saved_cursor g' = cursor_at (saved_cursor g) (mkPoint saved (column (point (saved_cursor g)))) ∧
  g_columns g' = g_columns g ∧ max_scroll_limit g' = max_scroll_limit g.

(** Old rows keep their distance from the bottom. *)
Lemma grow_visible_line columns s target s' :
  storage_wf R columns s → storage_wf R columns s' → rows_kept s s' →
  s_visible_lines s' = target → s_len s' = s_len s + (target - s_visible_lines s) →
  s_visible_lines s ≤ target →
  ∀ l, s_visible_lines s - s_len s ≤ l < s_visible_lines s →
    line_at s' (l + (target - s_visible_lines s)) = line_at s l.
Proof.
  intros W W' Hk Hv Hlen Ht l Hl. unfold line_at. rewrite Hv.
  replace (target - 1 - (l + (target - s_visible_lines s))) with (s_visible_lines s - 1 - l) by lia.
  apply Hk. lia.
Qed.

Lemma grow_lines_spec g target :
  grid_wf R g → in_screen g (point (cursor g)) → in_screen g (point (saved_cursor g)) →
  g_lines g ≤ target → target + max_scroll_limit g ≤ 536870912 →
  let pulled := Z.min (history_size g) (target - g_lines g) in
  wp (grow_lines g target) (λ g', grid_wf R g' ∧ g_lines g' = target ∧
    cursor_lines g g' (line (point (cursor g)) + pulled) (line (point (saved_cursor g)) + pulled) ∧
    history_size g' = history_size g - pulled ∧
    (∀ l, - history_size g' ≤ l < g_lines g + pulled → g_line g' l = g_line g (l - pulled)) ∧
    (∀ l, g_lines g + pulled ≤ l < target →
       ∃ r, g_line g' l = Some r ∧ is_reset R (template (cursor g)) r)).
Proof.
  intros W Hc Hs Ht Hmax pulled. pose proof (grid_history R g W) as Hh.
  pose proof W as [Ws Hvis Hhist Hlim Hoff]. pose proof Ws as [_ _ _ Hv Hl Hb].
  destruct Hc as [Hcl _], Hs as [Hsl _]. simpl in Hcl, Hsl.
  unfold grow_lines. do 2 wp_step. wp_step.
  wp_use (grow_visible_lines_spec R (g_columns g)); [done|lia|lia|].
  intros s1 (W1 & Hv1 & Hl1 & Hk1). cbv zeta.
  set (added := target - g_lines g) in *.
  set (g1 := with_lines (with_raw g s1) target).
  assert (Wg1 : grid_wf R g1) by (split; simpl; (done || lia)).
  assert (Hh1 : history_size g1 = history_size g).
  { rewrite (grid_history R g1), Hh by done. simpl. lia. }
  rewrite Hh1. fold pulled. assert (Hp : 0 ≤ pulled ≤ added) by (unfold pulled; lia).
  assert (Hline1 : ∀ l, g_lines g - s_len (raw g) ≤ l < g_lines g →
    g_line g1 (l + added) = g_line g l).
  { intros l Hl'. unfold g_line, added. rewrite <- Hvis.
    apply (grow_visible_line (g_columns g) (raw g) target s1 Ws W1 Hk1 Hv1 Hl1); lia. }
  wp_step. eapply wp_mono with (Q := λ g2, grid_wf R g2 ∧ same_frame g1 g2 ∧
    s_len (raw g2) = Z.min (target + max_scroll_limit g) (s_len s1 + (added - pulled)) ∧
    (∀ l, target - s_len (raw g2) ≤ l < target - (added - pulled) →
       g_line g2 l = g_line g1 (l + (added - pulled))) ∧
    (∀ l, target - (added - pulled) ≤ l < target →
       ∃ r, g_line g2 l = Some r ∧ is_reset R (template (cursor g)) r)).
  { destruct (Z.eqb_spec pulled added) as [E|E]; cbn [negb].
    - apply wp_ret. split_and!; try done; simpl; try lia.
      intros l _. f_equal. lia.
    - do 2 wp_step. rewrite as_i32_id by lia.
      wp_use (scroll_up_top_spec R); [done|lia|simpl; lia|].
      intros g2 (W2 & S2 & L2 & _). destruct S2 as [F2 M2 B2 _].
      split_and!; try done; simpl in *.
      intros l Hl'. apply B2; lia. }
  intros g2 (W2 & F2 & L2 & M2 & B2).
  pose proof F2 as (Hcur2 & Hsav2 & Hcol2 & Hlin2 & Hmsl2). simpl in Hcur2, Hsav2, Hcol2, Hlin2, Hmsl2.
  rewrite Hsav2. unfold line_add_usize. rewrite as_i32_id by lia. do 2 wp_step. cbv zeta.
  simpl. rewrite Hcur2. do 2 wp_step.
  set (g3 := with_display_offset _ _).
  pose proof W2 as [Ws2 Hvis2 Hhist2 Hlim2 Hoff2].
  assert (W3 : grid_wf R g3).
  { split; simpl; try done. unfold saturating_sub. lia. }
  wp_use (decrease_scroll_limit_spec R); [done|lia|].
  intros g4 (W4 & (Hcur4 & Hsav4 & Hcol4 & Hlin4 & Hmsl4) & L4 & _ & K4).
  simpl in Hcur4, Hsav4, Hcol4, Hlin4, Hmsl4, L4. rewrite Hlin2 in Hlin4, L4.
  assert (Hh4 : history_size g4 = history_size g - pulled).
  { rewrite (grid_history R g4), Hh by done. lia. }
  assert (Hg3 : ∀ l, g_line g3 l = g_line g2 l) by done.
  split; [done|]. split; [done|]. split; [|split; [done|]].
  - unfold cursor_lines. rewrite Hcur4, Hsav4, Hcol4, Hmsl4, Hcur2, Hsav2. done.
  - split.
    + intros l Hl'. rewrite K4 by (unfold g_active; lia). rewrite Hg3, M2 by lia.
      rewrite <- Hline1 by lia. f_equal. lia.
    + intros l Hl'. rewrite K4 by (unfold g_active; lia). rewrite Hg3. apply B2. lia.
Qed.

Lemma shrink_lines_content g target :
  grid_wf R g → in_screen g (point (cursor g)) → in_screen g (point (saved_cursor g)) →
  1 ≤ target ≤ g_lines g →
  let pushed := Z.max 0 (line (point (cursor g)) + 1 - target) in
  wp (grid_shrink_lines g target) (λ g', grid_wf R g' ∧ g_lines g' = target ∧
    cursor_lines g g' (Z.min (line (point (cursor g))) (target - 1))
      (Z.min (line (point (saved_cursor g))) (target - 1)) ∧
    history_size g' = Z.min (max_scroll_limit g) (history_size g + pushed) ∧
    ∀ l, - history_size g' ≤ l < target → l + pushed < g_lines g →
      g_line g' l = g_line g (l + pushed)).
Proof.
  intros W [Hcl Hcc] [Hsl Hsc] Ht pushed. pose proof (grid_history R g W) as Hh.
  pose proof W as [Ws Hvis Hhist Hlim Hoff]. pose proof Ws as [_ _ _ Hv Hl Hb].
  simpl in Hcl, Hcc, Hsl, Hsc. unfold grid_shrink_lines. casts. do 2 wp_step. cbv zeta.
  replace (saturating_sub (line (point (cursor g)) + 1) target) with pushed by done.
  wp_step. eapply wp_mono with (Q := λ g1, grid_wf R g1 ∧
    cursor g1 = cursor_at (cursor g) (mkPoint (Z.min (line (point (cursor g))) (target - 1))
      (column (point (cursor g)))) ∧ saved_cursor g1 = saved_cursor g ∧
    g_columns g1 = g_columns g ∧ g_lines g1 = g_lines g ∧ max_scroll_limit g1 = max_scroll_limit g ∧
    s_len (raw g1) = Z.min (g_lines g + max_scroll_limit g) (s_len (raw g) + pushed) ∧
    ∀ l, g_lines g - s_len (raw g1) ≤ l < g_lines g - pushed →
      g_line g1 l = g_line g (l + pushed)).
  { destruct (Z.ltb_spec 0 pushed).
    - wp_step. casts.
      wp_use (scroll_up_top_spec R); [done|unfold pushed in *; lia|lia|].
      intros g1 (W1 & S1 & L1 & _). destruct S1 as [(Hc1 & Hs1 & Hco1 & Hli1 & Hm1) M1 _ _].
      casts. do 2 wp_step. apply wp_ret.
      split; [destruct W1; by split|]. split_and!; try done.
      unfold set_cursor_line, goto_point. simpl. by rewrite Hc1.
    - apply wp_ret. split_and!; try done; try lia.
      + unfold cursor_at. destruct (cursor g) as [[cl cc] ? ? ?]; simpl in *.
        rewrite Z.min_l by (unfold pushed in *; lia). done.
      + intros l _. f_equal. lia. }
  intros g1 (W1 & Hc1 & Hs1 & Hco1 & Hli1 & Hm1 & L1 & M1).
  casts. do 2 wp_step. simpl. rewrite Hli1. do 2 wp_step.
  rewrite as_isize_id by lia. pose proof W1 as [Ws1 Hvis1 Hhist1 Hlim1 Hoff1].
  pose proof Ws1 as [_ _ _ Hv1 Hl1 Hb1]. wp_step.
  wp_use (storage_rotate_spec R (g_columns g1)); [done|lia|]. intros s2 (W2 & Rv & Rl & Ri & Rr).
  wp_step. wp_use (shrink_visible_lines_spec R (g_columns g1)); [done|lia|].
  intros s3 (W3 & Hv3 & Hl3 & K3). apply wp_ret.
  assert (Wg : grid_wf R (with_lines (with_raw (set_saved_point g1 (mkPoint
    (Z.min (line (point (saved_cursor g1))) (target - 1))
    (column (point (saved_cursor g1))))) s3) target)).
  { split; simpl; try done; lia. }
  split; [done|]. split; [done|].
  split; [unfold cursor_lines; simpl; by rewrite Hc1, Hs1|].
  rewrite (grid_history R _ Wg). simpl. split; [lia|]. intros l Hl' Hlp.
  unfold g_line, line_at in *. simpl. rewrite Hv3, K3 by lia. rewrite Rr.
  rewrite Z.mod_small by lia. rewrite Hvis1, Hli1 in M1. rewrite <- M1 by lia. f_equal. lia.
Qed.

(** ** Columns without reflow *)

(** The rows a loop over [rows.drain(..).enumerate().rev()] pushes. *)
Lemma push_rows {A} (f : Z → Row T → A → exec A) (out : A → list (Row T)) (I : A → Prop)
    (h : Row T → Row T) (rows : list (Row T)) (st0 : A) (Q : A → Prop) :
  out st0 = [] → I st0 →
  (∀ i row st, I st → zlookup rows i = Some row →
     wp (f i row st) (λ st', I st' ∧ out st' = out st ++ [h row])) →
  (∀ st, I st → out st = reverse (h <$> rows) → Q st) →
  wp (for_range_rev 0 (zlen rows) (λ i st, row ← vec_get rows i; f i row st) st0) Q.
Proof.
  intros H0' HI Hf HQ.
  apply wp_for_range_rev with (I := λ k st, I st ∧
    out st = reverse (h <$> drop (Z.to_nat k) rows)).
  - split; [done|]. rewrite drop_ge by (unfold zlen; lia). done.
  - intros i st Hi [HIs Ho]. wp_step. apply wp_vec_get; [done|]. intros row Hrow.
    wp_use Hf; [done|done|]. intros st' [HI' Ho']. split; [done|].
    apply zlookup_spec in Hrow as [_ Hrow]. rewrite Ho', Ho, (drop_S _ _ _ Hrow).
    replace (Z.to_nat (i + 1)) with (S (Z.to_nat i)) by lia.
    by rewrite fmap_cons, reverse_cons.
  - intros st [HIs Ho]. apply HQ; [done|]. rewrite Z.min_l in Ho by (unfold zlen; lia). done.
Qed.

(** Replacing the rows of a grid by rows of another width. *)
Lemma replaced_line columns g s h l :
  storage_wf R columns (raw g) → s_visible_lines s = g_lines g →
  s_visible_lines (raw g) = g_lines g → g_active g l →
  line_at (replace_inner s (h <$> rows_of (raw g))) l = h <$> g_line g l.
Proof.
  intros W Hv Hvg Hl. unfold g_active, line_at, g_line, line_at, ring_at in *. simpl.
  pose proof (rows_of_len R columns (raw g) W) as Hn. pose proof W as [_ _ _ ? ? _].
  rewrite Hv, zlen_fmap, Hn, Z.add_0_l, Z.mod_small by lia.
  rewrite zlookup_fmap, (rows_of_lookup R columns) by (done || lia).
  destruct (Z.ltb_spec (g_lines g - 1 - l) (s_len (raw g))); [|lia].
  unfold ring_at. by rewrite Hvg.
Qed.

(** The grid whose rows [h] changed to the width [columns]. *)
Definition recolumned g columns (h : Row T → Row T) : Grid T :=
  let g1 := with_raw (with_columns g columns)
    (replace_inner (mkStorage [] 0 (s_visible_lines (raw g)) 0) (h <$> rows_of (raw g))) in
  with_display_offset g1 (Z.min (display_offset g1) (history_size g1)).

Lemma recolumned_spec g columns h :
  grid_wf R g → 1 ≤ columns ≤ 1073741824 → (∀ r, R r → row_wf columns (h r)) →
  let g' := recolumned g columns h in
  history_size g' = history_size g ∧
  display_offset g' = Z.min (display_offset g) (history_size g) ∧
  grid_wf (row_wf columns) g' ∧ ∀ l, g_active g l → g_line g' l = h <$> g_line g l.
Proof.
  intros W Hc Hwf g'. pose proof (grid_history R g W) as Hh.
  pose proof W as [Ws Hvis Hhist Hlim Hoff]. pose proof Ws as [P _ _ Hv Hl Hb].
  pose proof (rows_of_len R _ _ Ws) as Hn. pose proof (rows_of_wf R _ _ Ws) as Hrows.
  assert (Wr : storage_wf (row_wf columns) columns (replace_inner
    (mkStorage [] 0 (s_visible_lines (raw g)) 0) (h <$> rows_of (raw g)))).
  { apply replace_inner_wf; [by apply row_pred_wf| | |]; rewrite ?zlen_fmap; simpl; try lia.
    apply Forall_fmap. eapply Forall_impl; [exact Hrows|]. exact Hwf. }
  assert (Hh' : history_size g' = history_size g).
  { unfold history_size, saturating_sub in *. simpl in *. rewrite zlen_fmap. lia. }
  split; [done|]. split; [|split].
  - simpl. f_equal. exact Hh'.
  - split; simpl; try done; rewrite ?zlen_fmap; try lia.
    unfold history_size, saturating_sub in *. simpl in *. rewrite zlen_fmap. lia.
  - intros l Hl'. unfold g_line at 1. simpl. by rewrite (replaced_line (g_columns g)).
Qed.

Lemma grow_columns_plain g columns :
  grid_wf R g → g_columns g ≤ columns ≤ 1073741824 →
  grow_columns g false columns = Ok (recolumned g columns (λ r, row_grow r columns)).
Proof.
  intros W Hc. pose proof W as [Ws Hvis _ _ _]. pose proof Ws as [P _ _ Hv Hl _].
  apply wp_is. unfold grow_columns, unwrap_cursor. cbv zeta. rewrite andb_false_r. do 3 wp_step.
  simpl raw. wp_use (take_all_spec R (g_columns g)); [done|]. intros [s' rows] [-> ->]. wp_step.
  pose proof (rows_of_len R _ _ Ws) as Hn. set (g0 := with_raw _ _).
  apply (push_rows _ gr_reversed (λ st, gr_grid st = g0 ∧ gr_cursor_line_delta st = 0) id); [done|done| |].
  { intros i row st [Hg Hd] _. unfold grow_row, should_reflow. cbv zeta.
    destruct (last (gr_reversed st)); cbn [andb]; apply wp_ret; simpl; by rewrite Hg, Hd. }
  intros [g1 reversed delta] [-> ->] Ho. simpl in Ho. subst reversed.
  rewrite list_fmap_id. simpl.
  assert (Hrev : zlen (reverse (rows_of (raw g))) = s_len (raw g)).
  { unfold zlen. rewrite length_reverse. done. }
  destruct (Z.ltb_spec (zlen (reverse (rows_of (raw g)))) (g_lines g)); [lia|]. do 3 wp_step.
  rewrite reverse_involutive. unfold recolumned. simpl.
  replace ((λ row : Row T, if row_len row <? columns then row_grow row columns else row)
    <$> rows_of (raw g)) with ((λ row, row_grow row columns) <$> rows_of (raw g)); [done|].
  apply list_fmap_ext. intros _ r _. unfold row_grow, row_len.
  destruct (Z.ltb_spec (zlen (r_inner r)) columns), (Z.leb_spec columns (zlen (r_inner r)));
    (done || lia).
Qed.

(** The cursors clamped to the new width. *)
Definition clamped g columns (g' : Grid T) : Grid T :=
  let clamp cur := cursor_at cur (mkPoint (line (point cur)) (Z.min (column (point cur)) (columns - 1))) in
  with_saved_cursor (with_cursor g' (clamp (cursor g))) (clamp (saved_cursor g)).

Lemma shrink_columns_plain g columns :
  grid_wf R g → in_screen g (point (cursor g)) → 1 ≤ columns ≤ g_columns g →
  shrink_columns g false columns
    = Ok (clamped g columns (recolumned g columns (λ r, (row_shrink r columns).1))).
Proof.
  intros W [Hcl Hcc] Hc.
  pose proof W as [Ws Hvis Hhist Hlim _]. pose proof Ws as [P _ _ Hv Hl Hb].
  pose proof (rp_bound _ _ P) as Hcols. simpl in Hcl, Hcc.
  apply wp_is. unfold shrink_columns, unwrap_cursor. cbv zeta. rewrite andb_false_r. do 3 wp_step.
  simpl raw. wp_use (take_all_spec R (g_columns g)); [done|]. intros [s' rows] [-> ->]. wp_step.
  pose proof (rows_of_len R _ _ Ws) as Hn.
  set (g0 := with_raw _ _). set (h := λ r : Row T, (row_shrink r columns).1).
  apply (push_rows _ sh_new_raw (λ st, sh_grid st = g0 ∧ sh_buffered st = None) h); [done|done| |].
  { intros i row st [Hg Hd] _. unfold shrink_one. rewrite Hd. cbn [mbind mret exec_bind exec_ret].
    rewrite Z2Nat.inj_add, Nat.add_comm by (unfold row_len, zlen; rewrite ?Hg; simpl; lia).
    change (Z.to_nat 2) with 2%nat. cbn [Nat.add shrink_row]. unfold h.
    destruct (row_shrink row columns) as [r' cut]. cbv zeta. rewrite Hg. wp_step.
    apply wp_mono with (Q := λ w, w = None).
    - unfold overflowing, cursor_buffer_line. destruct cut; simpl; casts; do 4 wp_step; done.
    - intros w ->. apply wp_ret. simpl. by rewrite Hd. }
  intros [g1 new_raw buf] [-> _] Ho. simpl in Ho. subst new_raw. simpl. do 2 wp_step.
  rewrite reverse_involutive, take_ge
    by (rewrite length_fmap; unfold zlen in Hn; lia).
  unfold shrink_cursor. simpl. do 2 wp_step. apply wp_ret. done.
Qed.
End facts.
