(* ===== verification/ReflowText.v ===== *)
(** * The text of a list of rows

    What a terminal shows is a text: the cells of its rows from the top, with a line
    break behind every row that does not wrap, whatever the width of the rows.  Reflow
    moves cells between rows; this file says when two lists of rows have the same text.
    Cells are compared without the wrap flag, spacers in front of a wrapped wide
    character do not count, and neither do empty cells and lines at an end. *)

From S2P Require Import Prelude GridCell Row.
#[local] Open Scope Z_scope.

(** What reflow relies on, beyond [GridCellLaws]. *)
Class ReflowLaws (T D : Type) `{GridCell T D} := {
  set_flags_twice (f f' : Z) (x : T) : cell_set_flags f (cell_set_flags f' x) = cell_set_flags f x;
  set_flags_same (x : T) : cell_set_flags (cell_flags x) x = x;
  wrapped_visible (x : T) : cell_contains x Flags.WRAPLINE = true → cell_is_empty x = false;
  spacer_visible (x : T) : cell_contains x Flags.LEADING_WIDE_CHAR_SPACER = true → cell_is_empty x = false;
  default_flags : cell_flags (cell_default : T) = 0 }.

Section text.
Context {T D : Type} `{GridCellLaws T D} `{!ReflowLaws T D}.
Implicit Types (x : T) (cells : list T) (r : Row T).

(** A text: cells and line breaks. *)
Abbreviation stream := (list (option T)).
Implicit Types (s acc : stream).

(** ** Cells *)

Definition wrapped x : bool := cell_contains x Flags.WRAPLINE.
Definition spacer x : bool := cell_contains x Flags.LEADING_WIDE_CHAR_SPACER.
Definition wide x : bool := cell_contains x Flags.WIDE_CHAR.
Definition plain x : T := cell_remove Flags.WRAPLINE x.

Lemma plain_insert x : plain (cell_insert Flags.WRAPLINE x) = plain x.
Proof.
  unfold plain, cell_remove, cell_insert. rewrite flags_set, set_flags_twice. f_equal.
  unfold Bitflags.remove, Bitflags.insert. apply Z.bits_inj. intros n.
  rewrite !Z.ldiff_spec, Z.lor_spec. by destruct (Z.testbit (cell_flags x) n), (Z.testbit Flags.WRAPLINE n).
Qed.

Lemma plain_remove x : plain (cell_remove Flags.WRAPLINE x) = plain x.
Proof.
  unfold plain, cell_remove. rewrite flags_set, set_flags_twice. f_equal.
  unfold Bitflags.remove. apply Z.bits_inj. intros n.
  rewrite !Z.ldiff_spec. by destruct (Z.testbit (cell_flags x) n), (Z.testbit Flags.WRAPLINE n).
Qed.

(** Setting or removing the wrap flag does not touch other bits. *)
Lemma contains_insert_wrap x f :
  Z.land Flags.WRAPLINE f = 0 → cell_contains (cell_insert Flags.WRAPLINE x) f = cell_contains x f.
Proof.
  intros Hf. unfold cell_contains, cell_insert. rewrite flags_set.
  unfold Bitflags.contains, Bitflags.insert. rewrite Z.land_lor_distr_l, Hf, Z.lor_0_r. done.
Qed.

Lemma contains_remove_wrap x f :
  Z.land Flags.WRAPLINE f = 0 → cell_contains (cell_remove Flags.WRAPLINE x) f = cell_contains x f.
Proof.
  intros Hf. unfold cell_contains, cell_remove. rewrite flags_set.
  unfold Bitflags.contains, Bitflags.remove. f_equal. apply Z.bits_inj. intros n.
  apply (f_equal (λ z, Z.testbit z n)) in Hf. rewrite Z.land_spec, Z.bits_0 in Hf.
  rewrite !Z.land_spec, Z.ldiff_spec.
  by destruct (Z.testbit (cell_flags x) n), (Z.testbit Flags.WRAPLINE n), (Z.testbit f n).
Qed.

Lemma spacer_insert x : spacer (cell_insert Flags.WRAPLINE x) = spacer x.
Proof. by apply contains_insert_wrap. Qed.
Lemma spacer_remove x : spacer (cell_remove Flags.WRAPLINE x) = spacer x.
Proof. by apply contains_remove_wrap. Qed.
Lemma wide_insert x : wide (cell_insert Flags.WRAPLINE x) = wide x.
Proof. by apply contains_insert_wrap. Qed.
Lemma wide_remove x : wide (cell_remove Flags.WRAPLINE x) = wide x.
Proof. by apply contains_remove_wrap. Qed.

Lemma wrapped_insert x : wrapped (cell_insert Flags.WRAPLINE x) = true.
Proof. unfold wrapped, cell_contains, cell_insert. rewrite flags_set. apply Bitflags.contains_insert. Qed.

Lemma wrapped_remove x : wrapped (cell_remove Flags.WRAPLINE x) = false.
Proof.
  unfold wrapped, cell_contains, cell_remove. rewrite flags_set. unfold Bitflags.contains, Bitflags.remove.
  rewrite Z.land_ldiff. done.
Qed.

(** A cell without the flag is itself. *)
Lemma plain_unwrapped x : wrapped x = false → plain x = x.
Proof.
  intros Hw. unfold plain, cell_remove. rewrite <- (set_flags_same x) at 3. f_equal.
  unfold wrapped, cell_contains, Bitflags.contains in Hw. unfold Bitflags.remove.
  apply Z.bits_inj. intros n. rewrite Z.ldiff_spec. change Flags.WRAPLINE with (2 ^ 4) in *.
  destruct (Z.eqb_spec n 4) as [->|Hn].
  - rewrite Z.pow2_bits_true by lia. rewrite andb_false_r. symmetry.
    destruct (Z.testbit (cell_flags x) 4) eqn:E; [|done]. exfalso. apply Z.eqb_neq in Hw. apply Hw.
    apply Z.bits_inj. intros m. rewrite Z.land_spec.
    destruct (Z.eqb_spec m 4) as [->|Hm]; [by rewrite E|]. rewrite Z.pow2_bits_false by lia. by rewrite andb_false_r.
  - rewrite Z.pow2_bits_false by lia. by rewrite andb_true_r.
Qed.

Lemma empty_unwrapped x : cell_is_empty x = true → wrapped x = false ∧ spacer x = false.
Proof.
  intros He. split.
  - destruct (wrapped x) eqn:E; [|done]. by rewrite wrapped_visible in He.
  - destruct (spacer x) eqn:E; [|done]. by rewrite spacer_visible in He.
Qed.

(** ** Streams *)

(** Empty cells in front of a break, and breaks at the end, do not count. *)
Definition ends s : bool := match s with [] | None :: _ => true | _ => false end.
Definition absorb (o : option T) s : stream :=
  match o with
  | Some x => if cell_is_empty x && ends s then s else Some x :: s
  | None => match s with [] => [] | _ => None :: s end
  end.
Definition normal s : stream := foldr absorb [] s.

(** Same text in front of any rest, or with nothing behind it. *)
Definition eqv (at_end : bool) s s' : Prop :=
  ∀ acc, (at_end = true → acc = []) → foldr absorb acc s = foldr absorb acc s'.

#[global] Instance eqv_equivalence at_end : Equivalence (eqv at_end).
Proof.
  split.
  - by intros s acc _.
  - intros s s' E acc Ha. symmetry. by apply E.
  - intros s1 s2 s3 E1 E2 acc Ha. rewrite E1 by done. by apply E2.
Qed.

Lemma eqv_weaken at_end s s' : eqv false s s' → eqv at_end s s'.
Proof. intros E acc _. by apply E. Qed.

Lemma eqv_normal s s' : eqv true s s' → normal s = normal s'.
Proof. intros E. by apply E. Qed.

#[global] Instance eqv_app at_end : Proper (eqv false ==> eqv at_end ==> eqv at_end) app.
Proof.
  intros p p' Ep s s' Es acc Ha. rewrite !foldr_app, (Es acc Ha). by apply Ep.
Qed.

(** The text of cells. *)
Definition body cells : list T := plain <$> filter (λ x, spacer x = false) cells.
Definition glyphs cells : stream := Some <$> body cells.
Definition wraps cells : bool := match last cells with Some x => wrapped x | None => false end.
Definition line_break cells : stream := if wraps cells then [] else [None].
Definition flow_row cells : stream := glyphs cells ++ line_break cells.
Definition flow (rows : list (Row T)) : stream := concat ((λ r, flow_row (r_inner r)) <$> rows).

Lemma body_app cells cells' : body (cells ++ cells') = body cells ++ body cells'.
Proof. unfold body. by rewrite filter_app, fmap_app. Qed.

Lemma glyphs_app cells cells' : glyphs (cells ++ cells') = glyphs cells ++ glyphs cells'.
Proof. unfold glyphs. by rewrite body_app, fmap_app. Qed.

Lemma glyphs_spacer x : spacer x = true → glyphs [x] = [].
Proof. intros Hx. unfold glyphs, body. by rewrite filter_cons_False by (by rewrite Hx). Qed.

Lemma glyphs_ext x x' : plain x = plain x' → spacer x = spacer x' → glyphs [x] = glyphs [x'].
Proof.
  intros Hp Hs. unfold glyphs, body. rewrite !filter_cons, !filter_nil, Hs. by case_decide; simpl; rewrite ?Hp.
Qed.

Lemma flow_app rows rows' : flow (rows ++ rows') = flow rows ++ flow rows'.
Proof. unfold flow. by rewrite fmap_app, concat_app. Qed.

Lemma flow_snoc rows r : flow (rows ++ [r]) = flow rows ++ flow_row (r_inner r).
Proof. rewrite flow_app. unfold flow at 2. simpl. by rewrite app_nil_r. Qed.

Lemma wraps_snoc cells x : wraps (cells ++ [x]) = wrapped x.
Proof. unfold wraps. by rewrite last_snoc. Qed.

(** The last cell changes in the wrap flag only. *)
Lemma alter_last {A} (f : A → A) (l : list A) y : alter f (pred (length (l ++ [y]))) (l ++ [y]) = l ++ [f y].
Proof.
  rewrite length_app. simpl. replace (pred (length l + 1))%nat with (length l + 0)%nat by lia.
  by rewrite alter_app_r.
Qed.

Lemma glyphs_mark cells :
  glyphs (alter (cell_insert Flags.WRAPLINE) (pred (length cells)) cells) = glyphs cells.
Proof.
  destruct cells as [|x cells _] using rev_ind; [done|]. rewrite alter_last, !glyphs_app. f_equal.
  apply glyphs_ext; [apply plain_insert|apply spacer_insert].
Qed.

Lemma glyphs_unmark cells :
  glyphs (alter (cell_remove Flags.WRAPLINE) (pred (length cells)) cells) = glyphs cells.
Proof.
  destruct cells as [|x cells _] using rev_ind; [done|]. rewrite alter_last, !glyphs_app. f_equal.
  apply glyphs_ext; [apply plain_remove|apply spacer_remove].
Qed.

Lemma wraps_mark cells :
  cells ≠ [] → wraps (alter (cell_insert Flags.WRAPLINE) (pred (length cells)) cells) = true.
Proof.
  destruct cells as [|x cells _] using rev_ind; [done|]. intros _.
  rewrite alter_last, wraps_snoc. apply wrapped_insert.
Qed.

(** Empty cells in front of a break and at the end. *)
Lemma glyphs_empty cells : Forall (λ x, cell_is_empty x = true) cells → glyphs cells = Some <$> cells.
Proof.
  induction 1 as [|x cells Hx _ IH]; [done|]. destruct (empty_unwrapped x Hx) as [Hw Hs].
  change (x :: cells) with ([x] ++ cells). rewrite glyphs_app, IH. unfold glyphs, body.
  rewrite filter_cons_True, filter_nil by done. simpl. by rewrite plain_unwrapped.
Qed.

Lemma absorb_empty cells acc :
  Forall (λ x, cell_is_empty x = true) cells → ends acc = true → foldr absorb acc (Some <$> cells) = acc.
Proof.
  intros Hc Ha. induction Hc as [|x cells Hx _ IH]; [done|].
  rewrite fmap_cons. cbn [foldr]. rewrite IH. unfold absorb. by rewrite Hx, Ha.
Qed.

Lemma eqv_blanks at_end cells :
  Forall (λ x, cell_is_empty x = true) cells → eqv at_end (glyphs cells ++ [None]) [None].
Proof.
  intros Hc acc _. rewrite foldr_app, glyphs_empty by done. apply absorb_empty; [done|].
  by destruct acc.
Qed.

Lemma eqv_trailing cells :
  Forall (λ x, cell_is_empty x = true) cells → eqv true (glyphs cells) [].
Proof. intros Hc acc Ha. rewrite Ha by done. rewrite glyphs_empty by done. by apply absorb_empty. Qed.

Lemma eqv_break : eqv true [None] [].
Proof. intros acc Ha. by rewrite Ha by done. Qed.

Lemma eqv_break_any cells : eqv true (line_break cells) [].
Proof. unfold line_break. destruct (wraps cells); [done|apply eqv_break]. Qed.

Lemma default_blank n : Forall (λ x, cell_is_empty x = true) (replicate n (cell_default : T)).
Proof. apply Forall_replicate, default_empty. Qed.
End text.
