(* ===== verification/ReflowShrink.v ===== *)
(** * Shrinking the columns keeps the text

    The loops of [shrink_columns]: every row is cut into rows of the new width, with
    the rest of a wrapped row in front of the next one. *)

From S2P Require Import Prelude Index Ansi GridCell Row Storage Grid GridFacts GridOps Resize ResizeFacts.
From S2P Require Import ReflowText.
#[local] Open Scope Z_scope.

Section shrink.
Context `{Ansi} {T D : Type} `{GridCellLaws T D} `{!ReflowLaws T D}.
Implicit Types (g : Grid T) (row : Row T) (cells : list T) (x : T).

(** A row as the terminal writes it: only the last cell says that the line goes on,
    only there is a spacer in front of a wide character, and it is not wide itself. *)
Definition tidy (bottom : bool) cells : Prop :=
  ∀ a x b, cells = a ++ x :: b →
    (bottom = false → wrapped x = true → b = []) ∧
    (spacer x = true → b = [] ∧ wrapped x = true ∧ wide x = false).

Lemma tidy_suffix bottom a b : tidy bottom (a ++ b) → tidy bottom b.
Proof. intros Ht a' x b' ->. apply (Ht (a ++ a')). by rewrite <- app_assoc. Qed.

Lemma tidy_init bottom a b : tidy bottom (a ++ b) → tidy bottom a.
Proof.
  intros Ht a' x b' ->. destruct (Ht a' x (b' ++ b)) as [Hw Hs]; [by rewrite <- app_assoc|]. split.
  - intros Hb Hx. by apply app_eq_nil in Hw as [-> _].
  - intros Hx. destruct (Hs Hx) as (E & ? & ?). by apply app_eq_nil in E as [-> _].
Qed.

Lemma tidy_prefix bottom a b :
  tidy bottom (a ++ b) → b ≠ [] →
  Forall (λ x, spacer x = false ∧ (bottom = false → wrapped x = false)) a.
Proof.
  intros Ht Hb. apply Forall_forall. intros x (a1 & a2 & ->)%list_elem_of_split.
  destruct (Ht a1 x (a2 ++ b)) as [Hw Hs]; [by rewrite <- app_assoc|]. split.
  - destruct (spacer x); [|done]. destruct Hs as [E _]; [done|]. by apply app_eq_nil in E as [_ ->].
  - intros ->. destruct (wrapped x); [|done]. specialize (Hw eq_refl eq_refl).
    by apply app_eq_nil in Hw as [_ ->].
Qed.

(** Cells without flags of their own are tidy in any place. *)
Lemma tidy_front bottom a b :
  Forall (λ x, spacer x = false ∧ (bottom = false → wrapped x = false)) a → tidy bottom b → tidy bottom (a ++ b).
Proof.
  induction 1 as [|x a [Hs Hw] _ IH]; [done|]. intros Hb [|y a'] z b' E; simpl in E; injection E as -> E.
  - split; [intros Hf; by rewrite Hw|by rewrite Hs].
  - by apply (IH Hb a').
Qed.

Lemma tidy_empty bottom cells : Forall (λ x, cell_is_empty x = true) cells → tidy bottom cells.
Proof.
  intros Hc. rewrite <- (app_nil_r cells). apply tidy_front; [|by intros [|? ?] ? ?].
  eapply Forall_impl; [exact Hc|]. intros x Hx. by destruct (empty_unwrapped x Hx).
Qed.

Lemma wraps_empty_tail cells blanks :
  Forall (λ x, cell_is_empty x = true) blanks → wraps (cells ++ blanks) = true → blanks = [].
Proof.
  destruct blanks as [|x blanks _] using rev_ind; [done|]. rewrite app_assoc, wraps_snoc.
  intros [_ Hx]%Forall_app Hw. apply Forall_cons in Hx as [Hx _]. destruct (empty_unwrapped x Hx). congruence.
Qed.

(** ** The steps of the loop *)

(** Distance of the cursor from the bottom. *)
Definition below g : Z := g_lines g - 1 - line (point (cursor g)).

Record reflowing g (g' : Grid T) : Prop := {
  rf_raw : raw g' = raw g;
  rf_lines : g_lines g' = g_lines g;
  rf_columns : g_columns g' = g_columns g;
  rf_limit : max_scroll_limit g' = max_scroll_limit g;
  rf_saved : saved_cursor g' = saved_cursor g }.

#[global] Instance reflowing_preorder : PreOrder reflowing.
Proof. split; [by intros g; split|]. intros g1 g2 g3 [] []. split; congruence. Qed.

Definition cursor_inside g : Prop :=
  0 ≤ line (point (cursor g)) < g_lines g ∧ g_lines g ≤ 536870912 ∧ 0 ≤ column (point (cursor g)) ≤ 4294967296.

Lemma wp_cursor_buffer_line g (Q : Z → Prop) :
  cursor_inside g → Q (below g) → wp (cursor_buffer_line g) Q.
Proof.
  intros ([? ?] & ? & ?) HQ. unfold cursor_buffer_line. casts. do 2 wp_step. wp_step.
  replace (g_lines g - line (point (cursor g)) - 1) with (below g) by (unfold below; lia). done.
Qed.

Lemma wp_overflowing columns i cut g (Q : option (list T) → Prop) :
  cursor_inside g →
  (∀ w, cut = Some w → Q (Some w)) →
  (cut = None → i = below g → columns < column (point (cursor g)) → Q (Some [])) →
  (cut = None → i ≠ below g ∨ column (point (cursor g)) ≤ columns → Q None) →
  wp (overflowing true columns i cut g) Q.
Proof.
  intros Hg Hs Hc Hn. unfold overflowing. destruct cut as [w|]; [by apply Hs|]. wp_step.
  apply wp_cursor_buffer_line; [done|]. wp_step. cbn [andb].
  destruct (Z.eqb_spec i (below g)), (Z.ltb_spec columns (column (point (cursor g)))); cbn [andb]; auto.
Qed.

Lemma leading_is_spacer : spacer leading_spacer = true ∧ wrapped leading_spacer = false.
Proof.
  unfold spacer, wrapped, leading_spacer, cell_contains, cell_insert. by rewrite flags_set, default_flags.
Qed.

(** A wide character in the last column moves down as a whole. *)
Lemma wp_wrap_wide columns row w (Q : Row T * list T → Prop) :
  1 ≤ columns ≤ 1073741824 → row_wf columns row →
  (∀ row' u, row_wf columns row' → glyphs (r_inner row') ++ glyphs (u ++ w) = glyphs (r_inner row) ++ glyphs w →
     u = [] ∧ row' = row ∨ (∃ x a, u = [x] ∧ r_inner row = a ++ [x] ∧ wide x = true) → Q (row', u ++ w)) →
  wp (wrap_wide columns row w) Q.
Proof.
  intros Hc [Hl Ho] HQ. unfold wrap_wide. rewrite Hl. destruct (Z.leb_spec columns columns); [|lia].
  do 2 wp_step. wp_step. apply wp_row_get; [lia|]. intros x Hget. unfold row_len in Hl.
  assert (Er : r_inner row = take (Z.to_nat (columns - 1)) (r_inner row) ++ [x]).
  { apply zlookup_spec in Hget as [_ Hget]. rewrite <- (take_S_r _ _ _ Hget).
    rewrite take_ge by (unfold zlen in Hl; lia). done. }
  set (a := take _ _) in Er. wp_step.
  - unfold row_modify. do 4 wp_step. apply wp_vec_modify; [lia|]. intros x' Hget'. do 2 wp_step. destruct leading_is_spacer as [Hls _].
    apply (HQ _ [x]).
    + split; unfold row_len; simpl; [by rewrite zlen_insert|lia].
    + cbn [r_inner]. rewrite Er at 1. rewrite insert_app_r_alt by (unfold a; rewrite length_take; lia).
      replace (Z.to_nat (columns - 1) - length a)%nat with 0%nat
        by (unfold a; rewrite length_take; unfold zlen in Hl; lia). simpl.
      change (x :: w) with ([x] ++ w). rewrite Er, !glyphs_app, (glyphs_spacer leading_spacer) by done.
      rewrite app_nil_r, <- app_assoc. done.
    + right. exists x, a. split; [done|]. split; [done|]. done.
  - apply (HQ row []); [done|done|by left].
Qed.

Lemma wp_ends_in_spacer w (Q : bool → Prop) :
  zlen w ≤ usize_max → (∀ a x, w = a ++ [x] → Q (spacer x)) → (w = [] → Q false) → wp (ends_in_spacer w) Q.
Proof.
  intros Hb Hx Hn. unfold ends_in_spacer. unfold usize_max in Hb. destruct w as [|x a _] using rev_ind; [by apply Hn|].
  rewrite zlen_app in *. change (zlen [x]) with 1 in *. pose proof (zlen_nonneg a).
  destruct (Z.ltb_spec 0 (zlen a + 1)); [|lia]. do 2 wp_step. wp_step. wp_step.
  - rewrite zlen_app. change (zlen [x]) with 1. lia.
  - wp_step. rename select (zlookup _ _ = _) into E. apply zlookup_spec in E as [_ E].
    replace (Z.to_nat (zlen a + 1 - 1)) with (length a + 0)%nat in E by (unfold zlen; lia).
    rewrite lookup_app_r in E by lia. replace (length a + 0 - length a)%nat with 0%nat in E by lia.
    injection E as <-. by apply (Hx a).
Qed.

Lemma wp_drop_spacer a x (Q : list T → Prop) :
  a ≠ [] → zlen a < usize_max →
  Q (alter (cell_insert Flags.WRAPLINE) (pred (length a)) a) → wp (drop_spacer (a ++ [x])) Q.
Proof.
  intros Ha Hb HQ. unfold drop_spacer. unfold usize_max in Hb. rewrite zlen_app. change (zlen [x]) with 1.
  destruct a as [|y a _] using rev_ind; [done|]. rewrite zlen_app in *. change (zlen [y]) with 1 in *.
  pose proof (zlen_nonneg a). do 3 wp_step. apply wp_vec_modify.
  { rewrite !zlen_app. change (zlen [x]) with 1. change (zlen [y]) with 1. lia. }
  intros z Hz. wp_step. rewrite alter_last in HQ. revert HQ. apply zlookup_spec in Hz as [_ Hz].
  replace (Z.to_nat (zlen a + 1 + 1 - 2)) with (length a) in * by (unfold zlen; lia).
  replace (Z.to_nat (zlen a + 1 + 1 - 1)) with (S (length a)) by (unfold zlen; lia).
  rewrite <- app_assoc in *. rewrite lookup_app_r in Hz by lia. rewrite Nat.sub_diag in Hz. injection Hz as <-.
  rewrite insert_app_r_alt by lia. rewrite Nat.sub_diag. simpl.
  rewrite take_app, take_ge by lia. replace (S (length a) - length a)%nat with 1%nat by lia. done.
Qed.

(** How a split of row [i] moves the cursor. *)
Definition cursor_split (columns i : Z) g g' : Prop :=
  reflowing g g' ∧ cursor_inside g' ∧ below g ≤ below g' ∧
  display_offset g ≤ display_offset g' ≤ display_offset g + 1 ∧
  (below g < i → cursor g' = cursor g) ∧
  (i = below g → columns ≤ column (point (cursor g)) →
    column (point (cursor g')) = column (point (cursor g)) - columns) ∧
  column (point (cursor g')) ≤ column (point (cursor g)).

Lemma wrap_cursor_spec columns i g :
  cursor_inside g → 1 ≤ columns ≤ 1073741824 → 0 ≤ display_offset g < 9223372036854775807 →
  wp (wrap_cursor columns i g) (cursor_split columns i g).
Proof.
  intros Hg Hc Ho. pose proof Hg as ([Hl0 Hl1] & Hl & Hcol). unfold wrap_cursor. wp_step.
  apply wp_cursor_buffer_line; [done|].
  assert (Hoff : ∀ g', reflowing g g' → cursor_inside g' → below g ≤ below g' → display_offset g' = display_offset g →
    (below g < i → cursor g' = cursor g) →
    (i = below g → columns ≤ column (point (cursor g)) →
      column (point (cursor g')) = column (point (cursor g)) - columns) →
    column (point (cursor g')) ≤ column (point (cursor g)) →
    wp (if i <? display_offset g' then o ← usize_add (display_offset g') 1; mret (with_display_offset g' o)
        else mret g') (cursor_split columns i g)).
  { intros g' [] Hin Hb Hd Hcu Hcs Hle. destruct (i <? display_offset g').
    - do 2 wp_step. wp_step. split_and!; try done; simpl; try lia.
    - wp_step. split_and!; try done; simpl; try lia. }
  destruct (Z.eqb_spec i (below g)) as [Ei|Ei], (Z.ltb_spec i (below g)) as [Li|Li]; cbn [andb orb]; [lia|..].
  - destruct (Z.ltb_spec (column (point (cursor g))) columns) as [Hlt|Hge]; cbn [orb]; wp_step.
    + do 2 wp_step. do 2 wp_step. simpl.
      destruct (Z.leb_spec columns (column (point (cursor g)))); [lia|]. wp_step.
      apply Hoff; try (by split); unfold cursor_inside, below in *; simpl; lia.
    + do 2 wp_step. destruct (Z.leb_spec columns (column (point (cursor g)))); [|lia]. do 3 wp_step.
      apply Hoff; try (by split); unfold cursor_inside, below in *; simpl; lia.
  - wp_step. do 2 wp_step. do 3 wp_step.
    apply Hoff; try (by split); unfold cursor_inside, below in *; simpl; lia.
  - do 4 wp_step. apply Hoff; try (by split); lia.
Qed.

(** ** The text of a split row *)

(** What is behind the visible cells does not matter. *)
Lemma eqv_tail cells blanks :
  Forall (λ x, cell_is_empty x = true) blanks → eqv true (glyphs blanks ++ line_break cells) [].
Proof.
  intros Hb acc Ha. rewrite foldr_app, (eqv_break_any cells acc Ha). by apply eqv_trailing.
Qed.

Lemma eqv_tails bottom cells cells' blanks blanks' :
  Forall (λ x, cell_is_empty x = true) blanks → Forall (λ x, cell_is_empty x = true) blanks' →
  (bottom = false → wraps cells = true → blanks = [] ∧ blanks' = [] ∧ wraps cells' = true) →
  (bottom = false → wraps cells = false → wraps cells' = false) →
  eqv bottom (glyphs blanks' ++ line_break cells') (glyphs blanks ++ line_break cells).
Proof.
  intros Hb Hb' Ht Hf. destruct bottom.
  - rewrite !eqv_tail by done. done.
  - unfold line_break. destruct (wraps cells).
    + destruct (Ht eq_refl eq_refl) as (-> & -> & ->). done.
    + rewrite (Hf eq_refl eq_refl), !eqv_blanks by done. done.
Qed.

(** The row is pushed as it is. *)
Lemma fitting_text bottom kept blanks :
  tidy bottom (kept ++ blanks) → Forall (λ x, cell_is_empty x = true) blanks →
  eqv bottom (flow_row kept) (flow_row (kept ++ blanks)).
Proof.
  intros Ht Hb. unfold flow_row. rewrite glyphs_app, <- app_assoc. f_equiv.
  rewrite <- (app_nil_l (line_break kept)). apply (eqv_tails bottom _ kept blanks []); [done|constructor|..].
  - intros -> Hw. pose proof (wraps_empty_tail _ _ Hb Hw) as ->. by rewrite app_nil_r in Hw.
  - intros -> Hw. destruct kept as [|x a _] using rev_ind; [done|]. rewrite wraps_snoc.
    destruct (wrapped x) eqn:E; [|done]. rewrite <- app_assoc in Ht.
    destruct (Ht a x blanks) as [Hx _]; [done|]. specialize (Hx eq_refl E) as ->.
    rewrite app_nil_r, wraps_snoc in Hw. congruence.
Qed.

(** The cells of the split row: [w] are moved down, [kept] stay. *)
Section split.
Context (bottom : bool) (cells p w blanks : list T).
Context (Hcells : cells = p ++ w ++ blanks) (Htidy : tidy bottom cells).
Context (Hblank : Forall (λ x, cell_is_empty x = true) blanks).

Lemma split_spacer a x : w = a ++ [x] → spacer x = true → blanks = [] ∧ wraps cells = true.
Proof using Hcells Htidy.
  intros -> Hx. destruct (Htidy (p ++ a) x blanks) as [_ Hs]; [rewrite Hcells; by rewrite <- !app_assoc|].
  destruct (Hs Hx) as (E & Hw & _). split; [done|]. rewrite Hcells, E, app_nil_r, app_assoc. by rewrite wraps_snoc.
Qed.

Lemma split_wrapped a x : w = a ++ [x] → wrapped x = true → bottom = false → blanks = [] ∧ wraps cells = true.
Proof using Hcells Htidy.
  intros -> Hx Hb. destruct (Htidy (p ++ a) x blanks) as [Hw _]; [rewrite Hcells; by rewrite <- !app_assoc|].
  pose proof (Hw Hb Hx) as E. split; [done|]. rewrite Hcells, E, app_nil_r, app_assoc. by rewrite wraps_snoc.
Qed.

Lemma split_clean a b : w = a ++ b → b ++ blanks ≠ [] →
  Forall (λ x, spacer x = false ∧ (bottom = false → wrapped x = false)) a.
Proof using Hcells Htidy.
  intros -> Hb. assert (Ht : tidy bottom (a ++ (b ++ blanks))).
  { apply (tidy_suffix _ p). rewrite Hcells in Htidy. by rewrite <- app_assoc in Htidy. }
  by apply (tidy_prefix _ _ _ Ht).
Qed.

Lemma split_wraps : w ≠ [] → bottom = false → wraps cells = true → blanks = [] ∧ wraps w = true.
Proof using Hcells Hblank ReflowLaws0.
  intros Hw _ Hc. rewrite Hcells, app_assoc in Hc. pose proof (wraps_empty_tail _ _ Hblank Hc) as E.
  split; [done|]. rewrite E, app_nil_r in Hc. destruct w as [|x a _] using rev_ind; [done|].
  rewrite app_assoc, wraps_snoc in Hc. by rewrite wraps_snoc.
Qed.
End split.

Definition ends_spaced cells : bool := match last cells with Some x => spacer x | None => false end.

(** The moved cells without a spacer at their end. *)
Record cut_tail (bottom : bool) (cells tail blanks tail' : list T) : Prop := {
  ct_glyphs : glyphs tail' = glyphs tail;
  ct_clean : Forall (λ x, spacer x = false) tail';
  ct_tidy : tidy bottom tail';
  ct_len : zlen tail' ≤ zlen tail;
  ct_wraps : bottom = false → wraps tail' = true → wraps cells = true ∧ blanks = [];
  ct_cells : bottom = false → wraps cells = true → tail ≠ [] →
    wraps tail' = true ∧ blanks = [] ∧ zlen tail = zlen tail' + (if ends_spaced cells then 1 else 0) }.

Lemma tidy_single bottom x : spacer x = false → tidy bottom [x].
Proof.
  intros Hx a y b E. destruct a as [|? a]; [|by destruct a]. injection E as -> <-. rewrite Hx. done.
Qed.

Lemma cut_tail_same bottom cells p tail blanks :
  cells = p ++ tail ++ blanks → tidy bottom cells → Forall (λ x, cell_is_empty x = true) blanks →
  (∀ a x, tail = a ++ [x] → spacer x = false) → cut_tail bottom cells tail blanks tail.
Proof.
  intros Hcells Ht Hb Hl. split; [done|..].
  - destruct tail as [|x a _] using rev_ind; [constructor|]. apply Forall_app. split.
    + eapply Forall_impl; [apply (split_clean bottom cells p (a ++ [x]) blanks Hcells Ht a [x]); done|]. by intros ? [].
    + constructor; [by apply (Hl a)|constructor].
  - apply (tidy_init _ _ blanks), (tidy_suffix _ p). by rewrite Hcells in Ht.
  - done.
  - intros Hbot Hw. destruct tail as [|x a _] using rev_ind; [done|]. rewrite wraps_snoc in Hw.
    destruct (split_wrapped bottom cells p _ blanks Hcells Ht a x eq_refl Hw Hbot). done.
  - intros Hbot Hw Hne. destruct (split_wraps bottom cells p tail blanks Hcells Hb Hne Hbot Hw) as [Hbl Htl].
    split; [done|]. split; [done|]. unfold ends_spaced. rewrite Hcells, Hbl, app_nil_r.
    destruct tail as [|x a _] using rev_ind; [done|]. rewrite app_assoc, last_snoc, (Hl a x eq_refl). lia.
Qed.

Lemma cut_tail_spacer bottom cells p a x blanks :
  cells = p ++ (a ++ [x]) ++ blanks → tidy bottom cells → spacer x = true → a ≠ [] →
  cut_tail bottom cells (a ++ [x]) blanks (alter (cell_insert Flags.WRAPLINE) (pred (length a)) a).
Proof.
  intros Hcells Ht Hx Ha.
  destruct (split_spacer bottom cells p _ blanks Hcells Ht a x eq_refl Hx) as [Hbl Hw].
  pose proof (split_clean bottom cells p _ blanks Hcells Ht a [x] eq_refl ltac:(done)) as Hc.
  destruct a as [|y a _] using rev_ind; [done|]. apply Forall_app in Hc as [Hc1 Hc2].
  apply Forall_cons in Hc2 as [[Hy _] _]. rewrite alter_last.
  assert (Hy' : spacer (cell_insert Flags.WRAPLINE y) = false) by by rewrite spacer_insert.
  split.
  - rewrite !glyphs_app, (glyphs_spacer x) by done. rewrite app_nil_r. f_equal.
    apply glyphs_ext; [apply plain_insert|apply spacer_insert].
  - apply Forall_app. split; [|by repeat constructor]. eapply Forall_impl; [exact Hc1|]. by intros ? [].
  - by apply tidy_front, tidy_single.
  - rewrite !zlen_app. change (zlen [x]) with 1. change (zlen [?z]) with 1. lia.
  - intros _ _. done.
  - intros _ _ _. rewrite wraps_snoc, wrapped_insert. split; [done|]. split; [done|].
    unfold ends_spaced. rewrite Hcells, Hbl, app_nil_r, app_assoc, last_snoc, Hx, !zlen_app. done.
Qed.

(** ** The inner loop *)

Definition cursor_kept (i : Z) g g' : Prop :=
  reflowing g g' ∧ cursor_inside g' ∧ below g ≤ below g' ∧ (below g < i → cursor g' = cursor g) ∧
  column (point (cursor g')) ≤ column (point (cursor g)).

Lemma cursor_kept_refl i g : cursor_inside g → cursor_kept i g g.
Proof. intros Hg. split_and!; try done; lia. Qed.

Lemma cursor_kept_trans i g g1 g2 : cursor_kept i g g1 → cursor_kept i g1 g2 → cursor_kept i g g2.
Proof.
  intros (R1 & I1 & B1 & C1 & L1) (R2 & I2 & B2 & C2 & L2). split; [by transitivity g1|]. split; [done|].
  split; [lia|]. split; [|lia]. intros Hb. rewrite C2; [by apply C1|].
  unfold below in *. rewrite C1 by done. destruct R1 as [_ -> _ _ _]. done.
Qed.

(** The cursor is not beyond a row that goes on in the next line. *)
Definition cursor_fits (i : Z) g cells : Prop :=
  i ≠ 0 → i = below g → wraps cells = true →
  column (point (cursor g)) + (if ends_spaced cells then 1 else 0) ≤ zlen cells.

Definition rest (st : ShrinkState (T := T)) : list T := default [] (sh_buffered st).
Definition unflagged cells : Prop := Forall (λ x, spacer x = false ∧ wrapped x = false) cells.

Definition shrunk (columns i : Z) row (st st' : ShrinkState (T := T)) : Prop :=
  let steps := row_len row + column (point (cursor (sh_grid st))) in
  cursor_kept i (sh_grid st) (sh_grid st') ∧
  display_offset (sh_grid st) ≤ display_offset (sh_grid st') ≤ display_offset (sh_grid st) + steps ∧
  zlen (rest st') < columns ∧ unflagged (rest st') ∧ (i = 0 → sh_buffered st' = None) ∧
  ∃ outs, sh_new_raw st' = sh_new_raw st ++ outs ∧ outs ≠ [] ∧ Forall (row_wf columns) outs ∧
    eqv (i =? 0) (flow outs ++ glyphs (rest st')) (flow_row (r_inner row)).

Record shrink_pre (columns i : Z) row (st : ShrinkState (T := T)) : Prop := {
  sp_columns : 2 ≤ columns ≤ 1073741824;
  sp_index : 0 ≤ i;
  sp_len : columns ≤ row_len row ≤ 4294967296;
  sp_occ : 0 ≤ occ row ≤ row_len row;
  sp_tidy : tidy (i =? 0) (r_inner row);
  sp_buffered : sh_buffered st = None;
  sp_cursor : cursor_inside (sh_grid st);
  sp_fits : cursor_fits i (sh_grid st) (r_inner row);
  sp_offset : 0 ≤ display_offset (sh_grid st);
  sp_bound : display_offset (sh_grid st) + row_len row + column (point (cursor (sh_grid st))) ≤ 4611686018427387904 }.

Lemma row_mark_wf columns row : row_wf columns row → row_wf columns (row_modify_last (cell_insert Flags.WRAPLINE) row).
Proof.
  intros [Hl Ho]. unfold row_wf, row_len, row_modify_last, zlen in *. simpl. rewrite length_alter. lia.
Qed.

(** A row with a mark at its end is joined to what follows. *)
Lemma flow_marked row rows :
  r_inner row ≠ [] → flow (row_modify_last (cell_insert Flags.WRAPLINE) row :: rows) = glyphs (r_inner row) ++ flow rows.
Proof.
  intros Hr. change (?a :: ?b) with ([a] ++ b). rewrite flow_app. f_equal. unfold flow. simpl. rewrite app_nil_r.
  unfold flow_row, line_break. rewrite wraps_mark, app_nil_r by done. apply glyphs_mark.
Qed.

(** The loop ends with the row as it is. *)
Lemma shrunk_fits columns i row row' blanks st :
  shrink_pre columns i row st → row_wf columns row' →
  r_inner row = r_inner row' ++ blanks → Forall (λ x, cell_is_empty x = true) blanks →
  shrunk columns i row st (mkShrink (sh_grid st) (sh_new_raw st ++ [row']) (sh_buffered st)).
Proof.
  intros [Hc Hi Hl Ho Ht Hb Hg Hf Hof Hbd] Hwf E Hbl. unfold shrunk, rest. simpl. rewrite Hb. simpl.
  pose proof Hg as (_ & _ & ? & _).
  split; [by apply cursor_kept_refl|]. split; [lia|]. split; [unfold zlen; simpl; lia|]. split; [constructor|].
  split; [done|]. exists [row']. split; [done|]. split; [done|]. split; [by constructor|].
  unfold flow. simpl. rewrite !app_nil_r. rewrite E in Ht |- *. by apply fitting_text.
Qed.

(** A row that is split: [row'] stays, [tail] moves down. *)
Record split_row (columns i : Z) row (st : ShrinkState (T := T)) row' (tail blanks : list T) : Prop := {
  sr_pre : shrink_pre columns i row st;
  sr_wf : row_wf columns row';
  sr_cells : ∃ p, r_inner row = p ++ tail ++ blanks ∧ columns - 1 ≤ zlen p ≤ columns;
  sr_glyphs : glyphs (r_inner row) = glyphs (r_inner row') ++ glyphs tail ++ glyphs blanks;
  sr_blank : Forall (λ x, cell_is_empty x = true) blanks;
  sr_progress : columns < row_len row ∨
    i = below (sh_grid st) ∧ columns < column (point (cursor (sh_grid st))) ∧ zlen tail ≤ 1 }.

Lemma split_row_nonempty columns i row st row' tail blanks :
  split_row columns i row st row' tail blanks → i ≠ 0 → wraps (r_inner row) = true → tail ≠ [].
Proof.
  intros [Hp _ (p & Ec & Hlp) _ Hbl Hprog] Hi Hw ->. rewrite app_nil_l in Ec. rewrite Ec in Hw.
  pose proof (wraps_empty_tail _ _ Hbl Hw) as ->. rewrite app_nil_r in *. pose proof (sp_len _ _ _ _ Hp) as Hl.
  unfold row_len in *. rewrite Ec in Hl, Hprog. destruct Hprog as [?|(Ei & Hcol & _)]; [lia|].
  pose proof (sp_fits _ _ _ _ Hp Hi Ei) as Hf. rewrite Ec in Hf. specialize (Hf Hw).
  destruct (ends_spaced p); lia.
Qed.

Lemma row_nonempty columns row : 1 ≤ columns → row_wf columns row → r_inner row ≠ [].
Proof. intros Hc [Hl _] E. unfold row_len in Hl. rewrite E in Hl. unfold zlen in Hl. simpl in Hl. lia. Qed.

(** The rest goes in front of the next row. *)
Lemma shrunk_buffered columns i row st row' tail blanks tail' :
  split_row columns i row st row' tail blanks → cut_tail (i =? 0) (r_inner row) tail blanks tail' →
  wraps tail' = true → 1 ≤ i → zlen tail' < columns →
  shrunk columns i row st (mkShrink (sh_grid st)
    (sh_new_raw st ++ [row_modify_last (cell_insert Flags.WRAPLINE) row'])
    (Some (alter (cell_remove Flags.WRAPLINE) (pred (length tail')) tail'))).
Proof.
  intros [[Hc Hi Hl Ho Ht Hb Hg Hf Hof Hbd] Hwf _ Hgl Hbl _] [Cg Cc Ct Cl Cw _] Hw Hi1 Hlen.
  pose proof Hg as (_ & _ & ? & _). assert (Hbot : (i =? 0) = false) by (apply Z.eqb_neq; lia).
  destruct (Cw Hbot Hw) as [Hwc ->]. unfold shrunk, rest. simpl.
  split; [by apply cursor_kept_refl|]. split; [lia|]. split; [unfold zlen; by rewrite length_alter|].
  split.
  { destruct tail' as [|x a _] using rev_ind; [done|]. rewrite alter_last. apply Forall_app in Cc as [Cc1 Cc2].
    apply Forall_cons in Cc2 as [Cx _]. unfold unflagged. apply Forall_app. split.
    - rewrite Hbot in Ct. pose proof (tidy_prefix false a [x] Ct ltac:(done)) as Hp.
      eapply Forall_impl; [exact Hp|]. intros y [? ?]. auto.
    - constructor; [|constructor]. by rewrite spacer_remove, wrapped_remove. }
  split; [lia|]. eexists [_]. split; [done|]. split; [done|]. split; [constructor; [by apply row_mark_wf|constructor]|].
  rewrite flow_marked by (apply (row_nonempty columns); [lia|done]). rewrite app_nil_r, glyphs_unmark, Cg.
  unfold flow_row, line_break. rewrite Hwc, Hgl, !app_nil_r. done.
Qed.

(** Only a spacer was cut off. *)
Lemma shrunk_spacer columns i row st row' row'' x blanks :
  split_row columns i row st row' [x] blanks → spacer x = true → row_wf columns row'' →
  r_inner row'' = alter (cell_insert Flags.WRAPLINE) (pred (length (r_inner row'))) (r_inner row') →
  shrunk columns i row st (mkShrink (sh_grid st) (sh_new_raw st ++ [row'']) (sh_buffered st)).
Proof.
  intros [[Hc Hi Hl Ho Ht Hb Hg Hf Hof Hbd] Hwf (p & Ec & _) Hgl Hbl _] Hx Hwf' Er.
  destruct (split_spacer (i =? 0) (r_inner row) p [x] blanks Ec Ht [] x eq_refl Hx) as [-> Hw].
  pose proof Hg as (_ & _ & ? & _). unfold shrunk, rest. simpl. rewrite Hb. simpl.
  split; [by apply cursor_kept_refl|]. split; [lia|]. split; [unfold zlen; simpl; lia|]. split; [constructor|].
  split; [done|]. exists [row'']. split; [done|]. split; [done|]. split; [by constructor|].
  rewrite app_nil_r. unfold flow. simpl. rewrite app_nil_r. unfold flow_row, line_break. rewrite Er, Hw.
  rewrite wraps_mark by (apply (row_nonempty columns); [lia|done]).
  rewrite glyphs_mark, Hgl, (glyphs_spacer x) by done. by rewrite !app_nil_r.
Qed.

(** ** The rest becomes a row of its own *)

Definition filled (columns : Z) (tail : list T) : list T :=
  if zlen tail <? columns then resize_default tail columns else tail.
Definition filler (columns : Z) (tail : list T) : list T := replicate (Z.to_nat (columns - zlen tail)) cell_default.

Lemma filled_app columns tail : filled columns tail = tail ++ filler columns tail.
Proof.
  unfold filled, filler, resize_default. destruct (Z.ltb_spec (zlen tail) columns).
  - rewrite take_ge by (unfold zlen in *; lia). done.
  - replace (Z.to_nat (columns - zlen tail)) with 0%nat by lia. simpl. by rewrite app_nil_r.
Qed.

Lemma filled_len columns tail : 0 ≤ columns → zlen (filled columns tail) = Z.max columns (zlen tail).
Proof. intros Hc. rewrite filled_app, zlen_app. unfold filler. rewrite zlen_replicate. lia. Qed.

Lemma default_unwrapped : wrapped (cell_default : T) = false.
Proof. unfold wrapped, cell_contains. by rewrite default_flags. Qed.

Lemma filled_wraps columns tail :
  wraps (filled columns tail) = if zlen tail <? columns then false else wraps tail.
Proof.
  rewrite filled_app. unfold filler. destruct (Z.ltb_spec (zlen tail) columns) as [Hlt|Hge].
  - replace (Z.to_nat (columns - zlen tail)) with (S (Z.to_nat (columns - zlen tail - 1))) by lia.
    rewrite replicate_S_end, app_assoc, wraps_snoc. apply default_unwrapped.
  - replace (Z.to_nat (columns - zlen tail)) with 0%nat by lia. simpl. by rewrite app_nil_r.
Qed.

Lemma filled_tidy bottom columns cells tail blanks tail' :
  cut_tail bottom cells tail blanks tail' →
  (bottom = false → wraps tail' = true → columns ≤ zlen tail') → tidy bottom (filled columns tail').
Proof.
  intros [_ Cc Ct _ _ _] Hfull. rewrite filled_app. unfold filler.
  destruct (Z.leb_spec columns (zlen tail')) as [Hle|Hgt].
  { replace (Z.to_nat (columns - zlen tail')) with 0%nat by lia. simpl. by rewrite app_nil_r. }
  apply tidy_front; [|apply tidy_empty, default_blank].
  destruct tail' as [|x a _] using rev_ind; [constructor|]. rewrite wraps_snoc in Hfull.
  apply Forall_app in Cc as [Cc1 Cc2]. apply Forall_cons in Cc2 as [Cx _]. apply Forall_app. split.
  - exact (tidy_prefix bottom a [x] Ct ltac:(done)).
  - constructor; [|constructor]. split; [done|]. intros Hb. destruct (wrapped x); [|done].
    specialize (Hfull Hb eq_refl). lia.
Qed.

Section next.
Context (columns i : Z) (row row' : Row T) (st : ShrinkState (T := T)) (tail blanks tail' : list T) (g : Grid T).
Context (Hs : split_row columns i row st row' tail blanks).
Context (Hct : cut_tail (i =? 0) (r_inner row) tail blanks tail').
Context (Hfull : (i =? 0) = false → wraps tail' = true → columns ≤ zlen tail').
Context (Hcur : cursor_split columns i (sh_grid st) g).

Definition next_row : Row T := row_from_vec (filled columns tail') (zlen tail').
Definition next_state : ShrinkState :=
  mkShrink g (sh_new_raw st ++ [row_modify_last (cell_insert Flags.WRAPLINE) row']) (sh_buffered st).

Lemma tail_len : zlen tail ≤ row_len row - columns + 1 ∧ (blanks = [] → row_len row - columns ≤ zlen tail).
Proof using Hs.
  destruct Hs as [_ _ (p & Ec & Hp) _ _ _]. unfold row_len. rewrite Ec, !zlen_app.
  pose proof (zlen_nonneg blanks). split; [lia|]. intros E. rewrite E. change (zlen (@nil T)) with 0. lia.
Qed.

Lemma next_measure :
  columns ≤ row_len next_row ≤ row_len row ∧
  row_len next_row + column (point (cursor g)) < row_len row + column (point (cursor (sh_grid st))).
Proof using Hs Hct Hcur.
  pose proof tail_len as [Htl _]. pose proof (ct_len _ _ _ _ _ Hct). destruct Hs as [[Hc _ Hl _ _ _ _ _ _ _] _ _ _ _ Hprog].
  destruct Hcur as (_ & (_ & _ & Hcol) & _ & _ & _ & Hsub & Hle). unfold next_row. unfold row_len at 1 2 4. simpl.
  rewrite filled_len by lia. destruct Hprog as [?|(Ei & ? & ?)]; [lia|]. specialize (Hsub Ei). lia.
Qed.

Lemma next_pre : shrink_pre columns i next_row next_state.
Proof using Hs Hct Hfull Hcur ReflowLaws0 H1.
  pose proof next_measure as [Hlen Hm]. pose proof Hs as [[Hc Hi Hl Ho Ht Hb Hg Hf Hof Hbd] _ _ _ _ Hprog].
  pose proof tail_len as [_ Htl].
  destruct Hcur as (Hr & Hin & Hbe & Hoff & Hsame & Hsub & Hle).
  split; try done; try (simpl; lia).
  - simpl. pose proof (zlen_nonneg tail'). unfold row_len, next_row. simpl. rewrite filled_len by lia. lia.
  - apply (filled_tidy _ _ _ _ _ _ Hct Hfull).
  - intros Hi0 Ei Hw. assert (Hbot : (i =? 0) = false) by (by apply Z.eqb_neq).
    unfold next_row in *. simpl in *. rewrite filled_wraps in Hw.
    destruct (Z.ltb_spec (zlen tail') columns) as [|Hge]; [done|].
    destruct (ct_wraps _ _ _ _ _ Hct Hbot Hw) as [Hwc Hbl].
    pose proof (split_row_nonempty _ _ _ _ _ _ _ Hs Hi0 Hwc) as Hne.
    destruct (ct_cells _ _ _ _ _ Hct Hbot Hwc Hne) as (_ & _ & Hz).
    assert (Hns : ends_spaced (filled columns tail') = false).
    { rewrite filled_app. unfold filler. replace (Z.to_nat (columns - zlen tail')) with 0%nat by lia.
      simpl. rewrite app_nil_r. unfold ends_spaced. pose proof (ct_clean _ _ _ _ _ Hct) as Hcl.
      destruct tail' as [|x a _] using rev_ind; [done|]. rewrite last_snoc.
      apply Forall_app in Hcl as [_ Hcl]. by apply Forall_cons in Hcl as [? _]. }
    rewrite Hns, filled_len by lia. specialize (Htl Hbl).
    destruct (Z.le_gt_cases i (below (sh_grid st))) as [Hib|Hib].
    + assert (Ei' : i = below (sh_grid st)) by lia. specialize (Hf Hi0 Ei' Hwc). unfold row_len in *.
      destruct (Z.le_gt_cases columns (column (point (cursor (sh_grid st))))) as [Hge'|Hlt'];
        [specialize (Hsub Ei' Hge')|]; destruct (ends_spaced (r_inner row)); lia.
    + specialize (Hsame Hib). exfalso. unfold below in *. rewrite Hsame in Ei. destruct Hr as [_ Hln _ _ _].
      rewrite Hln in Ei. lia.
Qed.

Lemma next_shrunk st' : shrunk columns i next_row next_state st' → shrunk columns i row st st'.
Proof using Hs Hct Hfull Hcur ReflowLaws0 H1.
  intros (Hk & Hof & Hlen & Hun & H0' & outs & En & Hne & Hwf & He). pose proof next_measure as [_ Hm].
  pose proof Hs as [[Hc Hi Hl Ho Ht Hb Hg Hf Hof0 Hbd] Hw _ Hgl Hbl _].
  destruct Hcur as (Hr & Hin & Hbe & Hoff & Hsame & Hsub & Hle). simpl in *.
  split. { eapply cursor_kept_trans; [|exact Hk]. split_and!; done || lia. }
  split; [lia|]. split; [done|]. split; [done|]. split; [done|].
  eexists (_ :: outs). split; [rewrite En; unfold next_state; simpl; by rewrite <- app_assoc|].
  split; [done|]. split; [constructor; [by apply row_mark_wf|done]|].
  rewrite flow_marked by (apply (row_nonempty columns); [lia|done]). rewrite <- app_assoc. rewrite He.
  unfold flow_row. rewrite Hgl. simpl. rewrite filled_app at 1. rewrite glyphs_app, (ct_glyphs _ _ _ _ _ Hct), <- !app_assoc.
  f_equiv. f_equiv. apply eqv_tails; [done|apply default_blank|..]; intros Hbot Hwc.
  - assert (Hi0 : i ≠ 0) by (by apply Z.eqb_neq).
    pose proof (split_row_nonempty _ _ _ _ _ _ _ Hs Hi0 Hwc) as Hne'.
    destruct (ct_cells _ _ _ _ _ Hct Hbot Hwc Hne') as (Hwt & -> & _). specialize (Hfull Hbot Hwt).
    split; [done|]. unfold filler. replace (Z.to_nat (columns - zlen tail')) with 0%nat by lia. split; [done|].
    rewrite filled_wraps. destruct (Z.ltb_spec (zlen tail') columns); [lia|done].
  - rewrite filled_wraps. destruct (zlen tail' <? columns); [done|]. destruct (wraps tail') eqn:E; [|done].
    destruct (ct_wraps _ _ _ _ _ Hct Hbot E). congruence.
Qed.
End next.

(** ** The whole inner loop *)

Lemma row_shrink_cut columns row :
  0 ≤ columns ≤ row_len row → 0 ≤ occ row ≤ row_len row →
  let '(row', cut) := row_shrink row columns in
  row_wf columns row' ∧ cut ≠ Some [] ∧ (cut ≠ None → columns < row_len row) ∧
  ∃ blanks, Forall (λ x, cell_is_empty x = true) blanks ∧ r_inner row = r_inner row' ++ default [] cut ++ blanks.
Proof.
  intros Hc Ho. pose proof (row_shrink_split (row_len row) columns row) as G.
  assert (Hcut : (row_shrink row columns).2 ≠ None → columns < row_len row).
  { unfold row_shrink, row_len. destruct (Z.leb_spec (zlen (r_inner row)) columns); simpl; [done|lia]. }
  destruct (row_shrink row columns) as [row' cut]. rewrite Z.min_r in G by lia.
  destruct G as [Hwf (blanks & Hb & E & Hne)]; [done|lia|]. split; [done|]. split; [done|].
  split; [done|]. by exists blanks.
Qed.

(** After the cells of [w] were cut off, whether or not a wide one moves along. *)
Lemma split_row_intro columns i row st row0 w blanks row' u :
  shrink_pre columns i row st → row_wf columns row0 → row_wf columns row' →
  r_inner row = r_inner row0 ++ w ++ blanks → Forall (λ x, cell_is_empty x = true) blanks →
  glyphs (r_inner row') ++ glyphs (u ++ w) = glyphs (r_inner row0) ++ glyphs w →
  u = [] ∧ row' = row0 ∨ (∃ x a, u = [x] ∧ r_inner row0 = a ++ [x] ∧ wide x = true) →
  columns < row_len row ∨ i = below (sh_grid st) ∧ columns < column (point (cursor (sh_grid st))) ∧ w = [] →
  split_row columns i row st row' (u ++ w) blanks.
Proof.
  intros Hp [Hl0 _] Hwf Ec Hb Hgl Hu Hprog. unfold row_len in Hl0. split; try done.
  - destruct Hu as [[-> ->]|(x & a & -> & Ea & _)].
    + exists (r_inner row0). split; [done|lia].
    + exists a. rewrite Ec, Ea, <- app_assoc. split; [done|]. rewrite Ea, zlen_app in Hl0.
      change (zlen [x]) with 1 in Hl0. lia.
  - rewrite Ec, !glyphs_app, !app_assoc. f_equal. rewrite <- Hgl. by rewrite glyphs_app, app_assoc.
  - destruct Hprog as [?|(? & ? & ->)]; [by left|right]. split_and!; try done.
    destruct Hu as [[-> _]|(x & a & -> & _)]; unfold zlen; simpl; lia.
Qed.

(** What happens to the rest, given the rest of the loop. *)
Lemma split_row_spec (loop : Row T → ShrinkState → exec ShrinkState) columns i row st row' tail blanks :
  split_row columns i row st row' tail blanks →
  (∀ row2 st2, shrink_pre columns i row2 st2 →
     row_len row2 + column (point (cursor (sh_grid st2))) < row_len row + column (point (cursor (sh_grid st))) →
     wp (loop row2 st2) (shrunk columns i row2 st2)) →
  wp (spacer ← ends_in_spacer tail;
      if (spacer : bool) && (zlen tail =? 1) then
        last ← usize_sub columns 1;
        row ← row_modify row' last (cell_insert Flags.WRAPLINE);
        mret (mkShrink (sh_grid st) (sh_new_raw st ++ [row]) (sh_buffered st))
      else
        wrapped ← (if (spacer : bool) then drop_spacer tail else mret tail);
        let new_raw := sh_new_raw st ++ [row_modify_last (cell_insert Flags.WRAPLINE) row'] in
        if match last wrapped with
           | Some x => cell_contains x Flags.WRAPLINE && (1 <=? i) | None => false end
           && (zlen wrapped <? columns)
        then
          let wrapped := alter (cell_remove Flags.WRAPLINE) (pred (length wrapped)) wrapped in
          mret (mkShrink (sh_grid st) new_raw (Some wrapped))
        else
          g ← wrap_cursor columns i (sh_grid st);
          let occ := zlen wrapped in
          let wrapped := if occ <? columns then resize_default wrapped columns else wrapped in
          loop (row_from_vec wrapped occ) (mkShrink g new_raw (sh_buffered st)))
    (shrunk columns i row st).
Proof.
  intros Hs Hloop. pose proof Hs as [[Hc Hi Hl Ho Ht Hb Hg Hf Hof Hbd] Hwf (p & Ec & Hlp) Hgl Hbl _].
  pose proof Hg as (_ & _ & Hcol).
  assert (Htl : zlen tail ≤ 4294967296) by (unfold row_len in Hl; rewrite Ec, !zlen_app in Hl;
    pose proof (zlen_nonneg blanks); pose proof (zlen_nonneg p); lia).
  assert (Hgo : ∀ tail', cut_tail (i =? 0) (r_inner row) tail blanks tail' →
    wp (if match last tail' with
           | Some x => cell_contains x Flags.WRAPLINE && (1 <=? i) | None => false end
           && (zlen tail' <? columns)
        then mret (mkShrink (sh_grid st) (sh_new_raw st ++ [row_modify_last (cell_insert Flags.WRAPLINE) row'])
               (Some (alter (cell_remove Flags.WRAPLINE) (pred (length tail')) tail')))
        else
          g ← wrap_cursor columns i (sh_grid st);
          loop (row_from_vec (if zlen tail' <? columns then resize_default tail' columns else tail') (zlen tail'))
            (mkShrink g (sh_new_raw st ++ [row_modify_last (cell_insert Flags.WRAPLINE) row']) (sh_buffered st)))
      (shrunk columns i row st)).
  { intros tail' Hct.
    change (if zlen tail' <? columns then resize_default tail' columns else tail') with (filled columns tail').
    replace (match last tail' with Some x => cell_contains x Flags.WRAPLINE && (1 <=? i) | None => false end)
      with (wraps tail' && (1 <=? i)) by (unfold wraps, wrapped; by destruct (last tail')).
    destruct (wraps tail') eqn:Ew, (Z.leb_spec 1 i), (Z.ltb_spec (zlen tail') columns); cbn [andb].
    1: { wp_step. by apply (shrunk_buffered _ _ _ _ _ tail blanks). }
    all: wp_step; wp_use wrap_cursor_spec; [done|lia|lia|]; intros g Hcur.
    all: assert (Hfull : (i =? 0) = false → wraps tail' = true → columns ≤ zlen tail')
      by (intros ?%Z.eqb_neq ?; (congruence || lia)).
    all: pose proof (next_measure columns i row row' st tail blanks tail' g Hs Hct Hcur) as [_ Hm].
    all: pose proof (next_pre columns i row row' st tail blanks tail' g Hs Hct Hfull Hcur) as Hpre.
    all: pose proof (next_shrunk columns i row row' st tail blanks tail' g Hs Hct Hfull Hcur) as Hnext.
    all: eapply wp_mono; [apply (Hloop _ _ Hpre Hm)|exact Hnext]. }
  wp_step. apply wp_ends_in_spacer; [unfold usize_max; lia|..].
  - intros a x ->. destruct (spacer x) eqn:Hx; cbn [andb].
    + rewrite zlen_app. change (zlen [x]) with 1. destruct (Z.eqb_spec (zlen a + 1) 1) as [E|E].
      * destruct a as [|y a]; [|unfold zlen in E; simpl in E; lia]. do 2 wp_step. unfold row_modify. do 4 wp_step.
        destruct Hwf as [Hlen Hocc]. unfold row_len in Hlen. apply wp_vec_modify; [lia|]. intros z Hz. do 2 wp_step.
        apply (shrunk_spacer _ _ _ _ row' _ x blanks); [done|done|..].
        -- split; unfold row_len; simpl; [by rewrite zlen_insert|lia].
        -- simpl. symmetry. apply zlookup_spec in Hz as [_ Hz].
           replace (pred (length (r_inner row'))) with (Z.to_nat (columns - 1)) by (unfold zlen in Hlen; lia).
           apply list_eq. intros k. destruct (decide (k = Z.to_nat (columns - 1))) as [->|Hk].
           ++ rewrite list_lookup_alter_eq, Hz, list_lookup_insert_eq; [done|].
              unfold zlen in Hlen. lia.
           ++ rewrite list_lookup_alter_ne, list_lookup_insert_ne; done.
      * assert (Ha : a ≠ []) by (intros ->; by apply E). rewrite zlen_app in Htl. change (zlen [x]) with 1 in Htl.
        wp_step. apply wp_drop_spacer; [done|unfold usize_max; lia|]. cbv zeta. apply Hgo.
        by apply (cut_tail_spacer _ _ p).
    + do 2 wp_step. cbv zeta. apply Hgo. apply (cut_tail_same _ _ p); try done.
      intros a' x' [_ [= ->]]%app_inj_tail. done.
  - intros ->. cbn [andb]. do 2 wp_step. cbv zeta. apply Hgo. apply (cut_tail_same _ _ p); try done.
    by intros [|? ?] ? ?.
Qed.

Lemma shrink_row_spec fuel columns i row st :
  shrink_pre columns i row st →
  row_len row + column (point (cursor (sh_grid st))) < Z.of_nat fuel →
  wp (shrink_row fuel true columns i row st) (shrunk columns i row st).
Proof.
  revert row st. induction fuel as [|fuel IH]; intros row st Hp Hfuel.
  { destruct Hp as [? _ ? _ _ _ (_ & _ & ?) _ _ _]. lia. }
  pose proof Hp as [Hc Hi Hl Ho Ht Hb Hg Hf Hof Hbd]. cbn [shrink_row]. cbv zeta.
  pose proof (row_shrink_cut columns row) as G. destruct (row_shrink row columns) as [row0 cut].
  destruct G as (Hwf0 & Hne & Hcut & blanks & Hbl & Ec); [lia|done|].
  assert (Hsplit : ∀ w, w = default [] cut →
    columns < row_len row ∨ i = below (sh_grid st) ∧ columns < column (point (cursor (sh_grid st))) ∧ w = [] →
    wp ('(row, wrapped) ← wrap_wide columns row0 w;
        spacer ← ends_in_spacer wrapped;
        if (spacer : bool) && (zlen wrapped =? 1) then
          last ← usize_sub columns 1;
          row ← row_modify row last (cell_insert Flags.WRAPLINE);
          mret (mkShrink (sh_grid st) (sh_new_raw st ++ [row]) (sh_buffered st))
        else
          wrapped ← (if (spacer : bool) then drop_spacer wrapped else mret wrapped);
          let new_raw := sh_new_raw st ++ [row_modify_last (cell_insert Flags.WRAPLINE) row] in
          if match last wrapped with
             | Some x => cell_contains x Flags.WRAPLINE && (1 <=? i) | None => false end
             && (zlen wrapped <? columns)
          then
            let wrapped := alter (cell_remove Flags.WRAPLINE) (pred (length wrapped)) wrapped in
            mret (mkShrink (sh_grid st) new_raw (Some wrapped))
          else
            g ← wrap_cursor columns i (sh_grid st);
            let occ := zlen wrapped in
            let wrapped := if occ <? columns then resize_default wrapped columns else wrapped in
            shrink_row fuel true columns i (row_from_vec wrapped occ) (mkShrink g new_raw (sh_buffered st)))
      (shrunk columns i row st)).
  { intros w -> Hprog. wp_step. apply wp_wrap_wide; [lia|done|]. intros row' u Hwf' Hgl Hu.
    apply (split_row_spec (shrink_row fuel true columns i) columns i row st row' (u ++ default [] cut) blanks).
    - by apply (split_row_intro _ _ _ _ row0).
    - intros row2 st2 Hp2 Hm. apply IH; [done|lia]. }
  wp_step. apply wp_overflowing; [done|..].
  - intros w ->. apply Hsplit; [done|left; by apply Hcut].
  - intros -> Ei Hcol. apply Hsplit; [done|by right].
  - intros -> _. wp_step. by apply (shrunk_fits _ _ _ _ blanks).
Qed.

(** ** The outer loop *)

Lemma flow_row_front b cells : cells ≠ [] → flow_row (b ++ cells) = glyphs b ++ flow_row cells.
Proof.
  intros Hc. unfold flow_row, line_break. rewrite glyphs_app, <- app_assoc. do 2 f_equal.
  destruct cells as [|x a _] using rev_ind; [done|]. rewrite app_assoc, !wraps_snoc. done.
Qed.

Lemma ends_spaced_front b cells : cells ≠ [] → ends_spaced (b ++ cells) = ends_spaced cells.
Proof.
  destruct cells as [|x a _] using rev_ind; [done|]. intros _. unfold ends_spaced. by rewrite app_assoc, !last_snoc.
Qed.

Lemma wraps_front b cells : cells ≠ [] → wraps (b ++ cells) = wraps cells.
Proof.
  destruct cells as [|x a _] using rev_ind; [done|]. intros _. by rewrite app_assoc, !wraps_snoc.
Qed.

Section outer.
Context (n columns : Z) (g0 : Grid T) (rows : list (Row T)).
Context (Hcol : 2 ≤ columns < n) (Hn : n ≤ 1073741824).
Context (Hrows : Forall (λ r, row_wf n r ∧ tidy false (r_inner r)) rows).
Context (Hlen : g_lines g0 ≤ zlen rows ≤ 536870912).
Context (Hg0 : cursor_inside g0) (Hcur : column (point (cursor g0)) ≤ n).
Context (Hoff : 0 ≤ display_offset g0 ≤ 536870912).
Context (Hspaced : ∀ r, zlookup rows (below g0) = Some r → ends_spaced (r_inner r) = true →
  column (point (cursor g0)) < n).

(** The state before the rows below [k]. *)
Record shrink_inv (k : Z) (st : ShrinkState (T := T)) : Prop := {
  si_frame : reflowing g0 (sh_grid st);
  si_cursor : cursor_inside (sh_grid st);
  si_before : below (sh_grid st) < k → cursor (sh_grid st) = cursor g0;
  si_below : below g0 ≤ below (sh_grid st);
  si_column : column (point (cursor (sh_grid st))) ≤ 2147483648;
  si_offset : 0 ≤ display_offset (sh_grid st) ≤ 536870912 + (zlen rows - k) * 4294967296;
  si_rest : zlen (rest st) < columns;
  si_unflagged : unflagged (rest st);
  si_end : k = 0 → sh_buffered st = None;
  si_wf : Forall (row_wf columns) (sh_new_raw st);
  si_count : zlen rows - k ≤ zlen (sh_new_raw st);
  si_text : eqv (k =? 0) (flow (sh_new_raw st) ++ glyphs (rest st)) (flow (reverse (drop (Z.to_nat k) rows))) }.

Lemma wf_tidy_row i row : zlookup rows i = Some row → row_wf n row ∧ tidy false (r_inner row).
Proof using Hrows. intros E. apply zlookup_spec in E as [_ E]. by eapply Forall_lookup_1 in Hrows. Qed.

Lemma tidy_any bottom cells : tidy false cells → tidy bottom cells.
Proof. intros Ht a x b E. destruct (Ht a x b E) as [Hw Hs]. split; [intros _; by apply Hw|done]. Qed.

(** The row with the rest of the one above, and the cursor that moved along. *)
Lemma shrink_one_pre i row st (f : Row T → ShrinkState (T := T) → exec (ShrinkState (T := T))) Q :
  0 ≤ i < zlen rows → zlookup rows i = Some row → shrink_inv (i + 1) st →
  (∀ g col, let row' := mkRow (rest st ++ r_inner row) (occ row + zlen (rest st)) in
     let st' := mkShrink g (sh_new_raw st) None in
     shrink_pre columns i row' st' → row_len row' ≤ 2147483648 →
     reflowing (sh_grid st) g → display_offset g = display_offset (sh_grid st) →
     cursor g = cursor_at (cursor (sh_grid st)) (mkPoint (line (point (cursor (sh_grid st)))) col) →
     (i ≠ below (sh_grid st) → cursor g = cursor (sh_grid st)) →
     col ≤ 2147483648 → wp (f row' st') Q) →
  wp ('(row, st) ←
        match sh_buffered st with
        | Some buffered =>
            let g := sh_grid st in
            cursor_buffer_line ← cursor_buffer_line g;
            g ← (if i =? cursor_buffer_line then
                   col ← usize_add (column (point (cursor g))) (zlen buffered);
                   mret (set_cursor_column g col)
                 else mret g);
            row ← row_append_front row buffered;
            mret (row, mkShrink g (sh_new_raw st) None)
        | None => mret (row, st)
        end; f row st) Q.
Proof using All.
  intros Hi Hrow [Hf Hg Hb Hbe Hc Ho Hr Hu He Hw Hct Ht] Hgo.
  destruct (wf_tidy_row i row Hrow) as [[Hl Hocc] Htd]. unfold row_len in Hl.
  assert (Hne : r_inner row ≠ []) by (intros E; rewrite E in Hl; unfold zlen in Hl; simpl in Hl; lia).
  pose proof (zlen_nonneg (rest st)) as Hr0. pose proof Hg as (Hg1 & Hg2 & Hg3).
  assert (Hpre : ∀ g col, reflowing (sh_grid st) g → display_offset g = display_offset (sh_grid st) →
    cursor g = cursor_at (cursor (sh_grid st)) (mkPoint (line (point (cursor (sh_grid st)))) col) →
    0 ≤ col ≤ 2147483648 → (i = below (sh_grid st) → col = column (point (cursor (sh_grid st))) + zlen (rest st)) →
    shrink_pre columns i (mkRow (rest st ++ r_inner row) (occ row + zlen (rest st))) (mkShrink g (sh_new_raw st) None)).
  { intros g col Hrg Hd Hcu Hcb Hci. pose proof Hrg as [_ Hgl _ _ _].
    split; unfold row_len; simpl; rewrite ?zlen_app; try lia; try done.
    - apply tidy_front; [|by apply tidy_any]. eapply Forall_impl; [exact Hu|]. by intros x [].
    - unfold cursor_inside. rewrite Hcu, Hgl. simpl. lia.
    - intros Hi0 Ei. unfold below in Ei. rewrite Hcu, Hgl in Ei. simpl in Ei.
      change (i = below (sh_grid st)) in Ei. rewrite wraps_front, ends_spaced_front, zlen_app, Hcu by done. simpl.
      intros Hwr. rewrite (Hci Ei), Hb by lia. rewrite Hl.
      destruct (ends_spaced (r_inner row)) eqn:Es; [|lia].
      assert (column (point (cursor g0)) < n); [|lia]. apply (Hspaced row); [|done].
      assert (Eb : below (sh_grid st) = below g0).
      { unfold below. rewrite Hb by lia. destruct Hf as [_ -> _ _ _]. done. }
      by rewrite <- Eb, <- Ei.
    - rewrite Hcu, Hd. simpl. nia. }
  assert (Hfin : ∀ g col, reflowing (sh_grid st) g → display_offset g = display_offset (sh_grid st) →
    cursor g = cursor_at (cursor (sh_grid st)) (mkPoint (line (point (cursor (sh_grid st)))) col) →
    (i ≠ below (sh_grid st) → cursor g = cursor (sh_grid st)) →
    0 ≤ col ≤ 2147483648 → (i = below (sh_grid st) → col = column (point (cursor (sh_grid st))) + zlen (rest st)) →
    wp (f (mkRow (rest st ++ r_inner row) (occ row + zlen (rest st))) (mkShrink g (sh_new_raw st) None)) Q).
  { intros g col Hrg Hd Hcu Hsame Hcb Hci. apply (Hgo g col); try done; [by apply (Hpre g col)| |lia].
    unfold row_len. simpl. rewrite zlen_app. lia. }
  assert (Hcol0 : i = below (sh_grid st) → column (point (cursor (sh_grid st))) ≤ n) by (intros ->; rewrite Hb; [done|lia]).
  unfold rest in *. destruct (sh_buffered st) as [b|] eqn:Eb; simpl in *.
  - wp_step. wp_step. apply wp_cursor_buffer_line; [done|]. wp_step.
    unfold row_append_front. destruct (Z.eqb_spec i (below (sh_grid st))) as [Ei|Ei].
    + specialize (Hcol0 Ei). do 2 wp_step. wp_step. do 2 wp_step. wp_step. do 2 wp_step.
      eapply Hfin; [| | | | |intros _; reflexivity]; try done; try (by split); lia.
    + wp_step. do 2 wp_step. wp_step. do 2 wp_step.
      apply (Hfin (sh_grid st) (column (point (cursor (sh_grid st))))); try done; try lia.
      unfold cursor_at. by destruct (cursor (sh_grid st)) as [[] ? ? ?].
  - destruct row as [cells o]. destruct st as [g nr bu]. simpl in *. subst bu.
    replace o with (o + zlen (@nil T)) by (unfold zlen; simpl; lia).
    apply (Hfin g (column (point (cursor g)))); try done; try (change (zlen (@nil T)) with 0); try lia.
    unfold cursor_at. by destruct (cursor g) as [[] ? ? ?].
Qed.

Lemma shrink_one_inv i row st :
  0 ≤ i < zlen rows → zlookup rows i = Some row → shrink_inv (i + 1) st →
  wp (shrink_one true columns i row st) (shrink_inv i).
Proof using All.
  intros Hi Hrow Hinv. unfold shrink_one.
  apply (shrink_one_pre i row st (λ row st, shrink_row
    (Z.to_nat (row_len row + column (point (cursor (sh_grid st))) + 2)) true columns i row st)); [done..|].
  cbv beta zeta. intros g col Hpre Hl Hrg Hd Hcu Hsame Hcb. set (row' := mkRow _ _) in *. set (st' := mkShrink _ _ _) in *.
  assert (H0' : 0 ≤ row_len row' + column (point (cursor (sh_grid st')))).
  { destruct Hpre as [? _ ? _ _ _ (_ & _ & ?) _ _ _]. lia. }
  wp_use shrink_row_spec; [done|lia|].
  intros st2 (Hk & Hof & Hlen2 & Hun & Hend & outs & En & Hne & Hwf & He).
  destruct Hk as (Hrf & Hin & Hbe & Hcs & Hle). destruct Hinv as [Hf Hg Hb Hbl Hc Ho Hr Hu Hen Hw Hct Ht].
  assert (Ebg : below g = below (sh_grid st)).
  { unfold below. rewrite Hcu. destruct Hrg as [_ -> _ _ _]. done. }
  assert (Ecol : column (point (cursor g)) = col) by by rewrite Hcu. simpl in Hle, Hbe, Hcs, Hof.
  destruct (wf_tidy_row i row Hrow) as [[Hlr _] _].
  split.
  - transitivity (sh_grid st); [done|]. by transitivity g.
  - done.
  - intros Hlt. assert (Hlg : below g < i) by lia. rewrite (Hcs Hlg), Hsame by lia. apply Hb. lia.
  - lia.
  - lia.
  - rewrite Hd in Hof. pose proof Hpre as [_ _ _ _ _ _ (_ & _ & Hcol2) _ _ _]. simpl in Hcol2. lia.
  - done.
  - done.
  - done.
  - rewrite En. apply Forall_app. by split.
  - rewrite En, zlen_app. assert (1 ≤ zlen outs); [|simpl; lia]. destruct outs; [done|]. unfold zlen. simpl. lia.
  - rewrite En, flow_app, <- app_assoc. simpl. rewrite He.
    apply zlookup_spec in Hrow as [_ Hrow]. rewrite (drop_S _ _ _ Hrow), reverse_cons, flow_snoc.
    replace (S (Z.to_nat i)) with (Z.to_nat (i + 1)) by lia. simpl. rewrite flow_row_front, app_assoc.
    + replace (i + 1 =? 0) with false in Ht by (symmetry; apply Z.eqb_neq; lia). by rewrite Ht.
    + intros E. unfold row_len in Hlr. rewrite E in Hlr. unfold zlen in Hlr. simpl in Hlr. lia.
Qed.

Lemma shrink_loop_spec st0 :
  sh_grid st0 = g0 → sh_new_raw st0 = [] → sh_buffered st0 = None →
  wp (for_range_rev 0 (zlen rows) (λ i st, row ← vec_get rows i; shrink_one true columns i row st) st0) (shrink_inv 0).
Proof using All.
  intros Eg En Eb. pose proof Hg0 as (? & ? & ?). apply wp_for_range_rev with (I := shrink_inv).
  - assert (Er : rest st0 = []) by (unfold rest; by rewrite Eb).
    split; rewrite ?Er, ?Eg, ?En; try done; try (by constructor); try (change (zlen []) with 0); try lia.
    rewrite drop_ge by (unfold zlen; lia). done.
  - intros i st Hi Hinv. wp_step. apply wp_vec_get; [lia|]. intros row Hrow. by apply shrink_one_inv.
  - intros st. rewrite Z.min_l by lia. done.
Qed.
End outer.

(** ** [shrink_columns] *)

(** The rows of a grid from the top of the scrollback down. *)
Definition rows_down g : list (Row T) := reverse (rows_of (raw g)).

(** The grids that reflow is made for: tidy rows, both cursors on the screen, and a
    cursor that waits to wrap is not on a spacer. *)
Record reflow_ready g : Prop := {
  rr_wf : grid_wf (row_wf (g_columns g)) g;
  rr_tidy : Forall (λ r, tidy false (r_inner r)) (rows_down g);
  rr_cursor : in_screen g (point (cursor g));
  rr_saved : in_screen g (point (saved_cursor g));
  rr_waiting : ∀ r, input_needs_wrap (cursor g) = true → g_line g (line (point (cursor g))) = Some r →
    ends_spaced (r_inner r) = false }.

Lemma rows_down_replaced g s rows : raw g = replace_inner s rows → rows_down g = reverse rows.
Proof.
  intros E. unfold rows_down, rows_of. rewrite E. unfold replace_inner. simpl. rewrite drop_0, app_nil_r.
  by rewrite take_ge by (unfold zlen; lia).
Qed.

(** The cursor as the loops see it: beyond the last column if it waits to wrap. *)
Lemma unwrap_cursor_spec g :
  in_screen g (point (cursor g)) → g_columns g ≤ 1073741824 → ∀ columns,
  wp (unwrap_cursor true (with_columns g columns)) (λ g', ∃ cur, g' = with_cursor (with_columns g columns) cur ∧
    line (point cur) = line (point (cursor g)) ∧ 0 ≤ column (point cur) ≤ g_columns g ∧
    (input_needs_wrap (cursor g) = false → cur = cursor g) ∧ input_needs_wrap cur = false ∧ template cur = template (cursor g)).
Proof.
  intros [Hl Hc] Hn columns. simpl in Hl, Hc. unfold unwrap_cursor. simpl. rewrite andb_true_r.
  destruct (input_needs_wrap (cursor g)) eqn:E.
  - do 2 wp_step. wp_step. eexists. split; [done|]. simpl. split_and!; (done || lia).
  - wp_step. exists (cursor g). split; [by destruct g|]. split_and!; (done || lia).
Qed.

Lemma cursor_row g : grid_wf (row_wf (g_columns g)) g → in_screen g (point (cursor g)) →
  zlookup (rows_of (raw g)) (below g) = g_line g (line (point (cursor g))).
Proof.
  intros [Ws Hv _ _ _] [Hl _]. simpl in Hl. unfold below. pose proof Ws as [_ _ _ Hvis _ _].
  rewrite (rows_of_lookup _ _ _ _ Ws) by lia. destruct (Z.ltb_spec (g_lines g - 1 - line (point (cursor g))) (s_len (raw g))); [|lia].
  unfold g_line, line_at. by rewrite Hv.
Qed.

Definition shrunk_grid g (columns : Z) g' : Prop :=
  grid_wf (row_wf columns) g' ∧ g_columns g' = columns ∧ g_lines g' = g_lines g ∧
  max_scroll_limit g' = max_scroll_limit g ∧ in_screen g' (point (cursor g')) ∧ in_screen g' (point (saved_cursor g')) ∧
  ∃ above, normal (flow (above ++ rows_down g')) = normal (flow (rows_down g)) ∧
    (above ≠ [] → history_size g' = max_scroll_limit g').

Lemma shrink_cursor_spec columns g :
  grid_wf (row_wf columns) g → g_columns g = columns → 1 ≤ columns ≤ 1073741824 →
  0 ≤ line (point (cursor g)) < g_lines g → 0 ≤ column (point (cursor g)) →
  0 ≤ line (point (saved_cursor g)) < g_lines g → 0 ≤ column (point (saved_cursor g)) →
  wp (shrink_cursor true columns g) (λ g', ∃ cur, g' = with_saved_cursor (with_cursor g cur)
      (cursor_at (saved_cursor g) (mkPoint (line (point (saved_cursor g))) (Z.min (column (point (saved_cursor g))) (columns - 1)))) ∧
    in_screen g (point cur)).
Proof.
  intros W Hgc Hc Hl Hcol Hsl Hsc. pose proof (grid_dims _ _ W) as Hd. unfold shrink_cursor. do 2 wp_step. cbv zeta.
  cbn [negb]. wp_step. eapply wp_mono with (Q := λ g1, ∃ cur, g1 = with_cursor g cur ∧ in_screen g (point cur)).
  { wp_step. eapply wp_mono with (Q := λ b : bool, b = true → column (point (cursor g)) = columns).
    - destruct (Z.eqb_spec (column (point (cursor g))) columns); [|by wp_step].
      wp_step. apply (wp_grid_cell (row_wf columns)); [done|..].
      + destruct W as [[_ _ _ ? _ _] ? _ _ _]. unfold in_grid, top_of. simpl. lia.
      + intros x _. wp_step. done.
    - intros b Hb. destruct b.
      + do 2 wp_step. wp_step. specialize (Hb eq_refl). eexists. split; [done|]. unfold in_screen. simpl. lia.
      + wp_step. unfold grid_clamp. wp_step. rewrite last_column_ok by done. do 2 wp_step.
        rewrite topmost_line_ok by done. do 2 wp_step. rewrite bottommost_line_ok by done. simpl.
        destruct (Z.ltb_spec (line (point (cursor g))) 0), (Z.ltb_spec (g_lines g - 1) (line (point (cursor g)))); try lia.
        wp_step. eexists. split; [done|]. unfold in_screen. simpl. lia. }
  intros g1 (cur & -> & Hin). wp_step. eexists. split; [done|]. done.
Qed.

Lemma shrink_columns_spec g columns :
  reflow_ready g → 2 ≤ columns < g_columns g → wp (shrink_columns g true columns) (shrunk_grid g columns).
Proof.
  intros [W Ht Hcu Hsa Hwait] Hc. pose proof W as [Ws Hvis Hhist Hlim Hoff]. pose proof Ws as [P Hr Hz Hv Hl Hbd].
  pose proof (rp_bound _ _ P) as Hn. pose proof (rows_of_len _ _ _ Ws) as Hlen.
  pose proof (rows_of_wf _ _ _ Ws) as Hrw. pose proof (cursor_row g W Hcu) as Hcr.
  unfold shrink_columns. cbv zeta. wp_step. wp_use (unwrap_cursor_spec g Hcu); [lia|].
  intros g1 (cur & -> & Ecl & Ecc & Ecn & _). pose proof Hcu as [Hcl Hcc]. pose proof Hsa as [Hsl Hsc]. simpl in Hcl, Hcc, Hsl, Hsc.
  wp_step. simpl raw. wp_use (take_all_spec (row_wf (g_columns g))); [done|]. intros [s' rows] [-> ->]. wp_step.
  set (g0 := with_raw _ _).
  assert (Eb : below g0 = below g) by (unfold below; simpl; by rewrite Ecl).
  wp_use (shrink_loop_spec (g_columns g) columns g0 (rows_of (raw g))); try done; try (simpl; lia).
  - apply Forall_forall. intros r Hin. split; [by eapply Forall_forall in Hrw|].
    unfold rows_down in Ht. rewrite Forall_reverse in Ht. by eapply Forall_forall in Ht.
  - unfold cursor_inside. simpl. lia.
  - rewrite Eb, Hcr. intros r Hr' Hsp. simpl. destruct (input_needs_wrap (cursor g)) eqn:Ew.
    + rewrite Hwait in Hsp; done.
    + rewrite Ecn by done. lia.
  - intros st [Hf Hg _ _ _ Ho Hrest _ Hend Hwf Hct Htext]. destruct st as [g2 new_raw buf]. simpl in *.
    rewrite (Hend eq_refl) in *. unfold rest in *. simpl in *. destruct Hf as [Fr Fl Fc Fm Fs]. simpl in *.
    rewrite Fm, Fl. wp_step. wp_step. set (N := max_scroll_limit g + g_lines g) in *.
    set (kept := take (Z.to_nat N) (reverse new_raw)). rewrite Fr.
    assert (Hkept : zlen kept = Z.min N (zlen new_raw)) by (unfold kept; rewrite zlen_take; unfold zlen; rewrite length_reverse; lia).
    set (g3 := with_display_offset _ _).
    assert (Wr : storage_wf (row_wf columns) columns (raw g3)).
    { simpl. apply replace_inner_wf; [apply row_pred_wf; lia|unfold kept; by apply Forall_take, Forall_reverse|simpl; lia|lia]. }
    assert (W3 : grid_wf (row_wf columns) g3).
    { split; simpl; try rewrite Fc; try done; try lia.
      unfold history_size, saturating_sub. simpl. lia. }
    wp_use shrink_cursor_spec; [exact W3|done|lia| | | | |]; try (simpl; rewrite ?Fs; simpl; unfold cursor_inside in Hg; lia).
    intros g4 (cur4 & -> & Hin4). unfold shrunk_grid. simpl. rewrite Fs, Fl, Fc, Fm.
    split; [destruct W3; by split|]. do 3 (split; [done|]). split; [done|].
    split; [unfold in_screen; simpl; lia|]. exists (take (length new_raw - Z.to_nat N) new_raw). split.
    + erewrite rows_down_replaced by reflexivity. unfold kept. rewrite take_reverse, reverse_involutive, take_drop.
      rewrite app_nil_r in Htext. by apply eqv_normal.
    + intros Hne. unfold history_size, saturating_sub. simpl. rewrite Hkept.
      assert (N ≤ zlen new_raw); [|unfold N in *; lia]. destruct (Z.le_gt_cases N (zlen new_raw)); [done|].
      exfalso. apply Hne. replace (length new_raw - Z.to_nat N)%nat with 0%nat by (unfold zlen in *; lia). done.
Qed.
End shrink.
