(* ===== verification/ReflowGrow.v ===== *)
(** * Growing the columns keeps the text

    The loop of [grow_columns]: cells are pulled from the front of a row to the end of
    the one above, as long as that one goes on and has room. *)

From S2P Require Import Prelude Index Ansi GridCell Row Storage Grid GridFacts GridOps Resize ResizeFacts.
From S2P Require Import ReflowText ReflowShrink.
#[local] Open Scope Z_scope.

Section grow.
Context `{Ansi} {T D : Type} `{GridCellLaws T D} `{!ReflowLaws T D}.
Implicit Types (g : Grid T) (row r : Row T) (cells : list T) (x : T).

(** A wide character is visible and has its second half in the same row. *)
Definition paired cells : Prop :=
  ∀ a x b, cells = a ++ x :: b → wide x = true → b ≠ [] ∧ cell_is_empty x = false.

Lemma clamp_emptied g l c :
  s_len (raw g) = 0 → 1 ≤ g_columns g ≤ 1073741824 → 1 ≤ g_lines g ≤ 536870912 →
  0 ≤ c < g_columns g → -1 ≤ l < g_lines g →
  grid_clamp (mkPoint l c) g BCursor = Ok (if l <? 0 then mkPoint 0 0 else mkPoint l c).
Proof.
  intros Hs Hc Hl Hcol Hline. unfold grid_clamp, last_column, topmost_line, bottommost_line, history_size. simpl. rewrite Hs.
  replace (saturating_sub 0 (g_lines g)) with 0 by (unfold saturating_sub; lia). run.
  change (i32_neg (as_i32 0)) with (Ok (A := Z) 0). cbn [mbind exec_bind]. run.
  destruct (Z.ltb_spec l 0); [done|]. destruct (Z.ltb_spec (g_lines g - 1) l); [lia|]. rewrite Z.min_l by lia. done.
Qed.

(** Moving the cursor back by at most one line, in a grid whose rows were taken out. *)
Lemma point_sub_back g p num :
  s_len (raw g) = 0 → 1 ≤ g_columns g ≤ 1073741824 → 1 ≤ g_lines g ≤ 536870912 →
  0 ≤ column p < g_columns g → 0 ≤ line p < g_lines g → 0 ≤ num ≤ g_columns g →
  point_sub p g BCursor num =
    Ok (if num <=? column p then mkPoint (line p) (column p - num)
        else if line p =? 0 then mkPoint 0 0
        else mkPoint (line p - 1) (g_columns g + column p - num)).
Proof.
  intros Hs Hc Hl Hcol Hline Hnum. unfold point_sub. simpl columns.
  assert (E1 : saturating_sub (num + g_columns g - 1) (column p) / g_columns g = if num <=? column p then 0 else 1).
  { unfold saturating_sub. rewrite Z.max_r by lia. symmetry.
    destruct (Z.leb_spec num (column p)); [apply Z.div_unique_pos with (num + g_columns g - 1 - column p)
      |apply Z.div_unique_pos with (num - 1 - column p)]; lia. }
  assert (E2 : (g_columns g + column p - num mod g_columns g) mod g_columns g =
    if num <=? column p then column p - num else g_columns g + column p - num).
  { destruct (Z.eqb_spec num (g_columns g)) as [->|Hne].
    - rewrite Z.mod_same by lia. destruct (Z.leb_spec (g_columns g) (column p)); [lia|]. symmetry.
      apply Z.mod_unique_pos with 1; lia.
    - rewrite (Z.mod_small num) by lia. symmetry.
      destruct (Z.leb_spec num (column p)); [apply Z.mod_unique_pos with 1|apply Z.mod_unique_pos with 0]; lia. }
  assert (Hm : 0 ≤ num mod g_columns g < g_columns g) by (apply Z.mod_pos_bound; lia).
  run. simpl. rewrite E1, E2. destruct (Z.leb_spec num (column p)); casts; run; rewrite clamp_emptied by (done || lia).
  - destruct (Z.ltb_spec (line p - 0) 0); [lia|]. by rewrite Z.sub_0_r.
  - destruct (Z.eqb_spec (line p) 0), (Z.ltb_spec (line p - 1) 0); done || lia.
Qed.

(** ** Pulling cells *)

(** What [pull_cells] does to the end of [last_row] and the front of [row]. *)
Record pulled (columns : Z) (last_row row last' row' : Row T) (num : Z) : Prop := {
  pl_num : 0 ≤ num ≤ columns;
  pl_glyphs : glyphs (r_inner last') ++ glyphs (r_inner row') = glyphs (r_inner last_row) ++ glyphs (r_inner row);
  pl_len : 1 ≤ row_len last' ≤ columns ∧ occ last' = row_len last';
  pl_rest : row_len row' = Z.max 0 (row_len row - num);
  pl_occ : 0 ≤ occ row' ≤ occ row;
  pl_suffix : ∃ q, r_inner row = q ++ r_inner row';
  pl_full : r_inner row' ≠ [] → row_len last' = columns;
  pl_whole : r_inner row' = [] → wraps (r_inner last') = wraps (r_inner row);
  pl_clear : r_inner row' ≠ [] → row_is_clear row' = true → tidy false (r_inner row) → wraps (r_inner last') = false }.

(** The row above without its wrap flag and without a spacer at its end. *)
Lemma trim_last columns last_row :
  1 ≤ row_len last_row < columns → columns ≤ 1073741824 →
  wp (let last_row := row_modify_last (cell_remove Flags.WRAPLINE) last_row in
      let last_len := row_len last_row in
      if 1 <=? last_len then
        i ← usize_sub last_len 1;
        x ← row_get last_row i;
        if cell_contains x Flags.LEADING_WIDE_CHAR_SPACER
        then mret (row_shrink last_row (last_len - 1)).1
        else mret last_row
      else mret last_row)
    (λ r, glyphs (r_inner r) = glyphs (r_inner last_row) ∧ 0 ≤ row_len r < columns ∧ occ r = row_len r).
Proof.
  intros Hl Hc. cbv zeta. destruct last_row as [cells o]. unfold row_len, row_modify_last in *. simpl in *.
  destruct cells as [|x a _] using rev_ind; [unfold zlen in Hl; simpl in Hl; lia|]. rewrite alter_last, !zlen_app in *.
  change (zlen [x]) with 1 in *. change (zlen [cell_remove Flags.WRAPLINE x]) with 1. pose proof (zlen_nonneg a) as Ha.
  destruct (Z.leb_spec 1 (zlen a + 1)); [|lia]. do 2 wp_step. wp_step. unfold row_get. simpl.
  set (y := cell_remove Flags.WRAPLINE x). apply wp_vec_get; [rewrite zlen_app; change (zlen [y]) with 1; lia|].
  intros z Hz. apply zlookup_spec in Hz as [_ Hz]. rewrite lookup_app_r in Hz by (unfold zlen; lia).
  replace (Z.to_nat (zlen a + 1 - 1) - length a)%nat with 0%nat in Hz by (unfold zlen; lia). injection Hz as <-.
  assert (Ey : glyphs [y] = glyphs [x]) by (apply glyphs_ext; [apply plain_remove|apply spacer_remove]).
  fold (spacer y). destruct (spacer y) eqn:Es; wp_step; simpl.
  - unfold row_shrink. simpl. rewrite zlen_app. change (zlen [y]) with 1.
    destruct (Z.leb_spec (zlen a + 1) (zlen a + 1 - 1)); [lia|]. simpl.
    replace (Z.to_nat (zlen a + 1 - 1)) with (length a) by (unfold zlen; lia). rewrite take_app_length.
    rewrite glyphs_app, <- Ey, (glyphs_spacer y), app_nil_r by done. split; [done|]. split; [lia|]. lia.
  - rewrite !glyphs_app, Ey, zlen_app. change (zlen [y]) with 1. split; [done|]. lia.
Qed.

Lemma zlen_take_le {A} (l : list A) m : 0 ≤ m ≤ zlen l → zlen (take (Z.to_nat m) l) = m.
Proof. intros Hm. rewrite zlen_take. lia. Qed.

Lemma clear_suffix_unwrapped row row' q :
  r_inner row = q ++ r_inner row' → r_inner row' ≠ [] → q ≠ [] → tidy false (r_inner row) → wraps q = false.
Proof.
  intros E Hne Hq Ht. destruct q as [|x a _] using rev_ind; [done|]. rewrite wraps_snoc.
  destruct (wrapped x) eqn:Ew; [|done]. rewrite <- app_assoc in E.
  destruct (Ht a x (r_inner row')) as [Hx _]; [done|]. by specialize (Hx eq_refl Ew).
Qed.

Lemma pull_cells_spec columns last_row row :
  1 ≤ row_len last_row < columns → columns ≤ 1073741824 → 1 ≤ row_len row → 0 ≤ occ row ≤ row_len row →
  paired (r_inner row) →
  wp (pull_cells columns last_row row) (λ '(last', row', num), pulled columns last_row row last' row' num).
Proof.
  intros Hl Hc Hr Ho Hp. unfold pull_cells. cbv zeta. wp_step. wp_use (trim_last columns last_row); [done|done|].
  intros last1 (Hgl & Hlen1 & Hocc1). set (num := columns - row_len last1). wp_step. wp_step. fold num.
  set (len := Z.min (row_len row) num). assert (Hlen : 1 ≤ len ≤ row_len row) by (unfold len, num; lia).
  assert (Hnum0 : num = columns - row_len last1 ∧ len ≤ num) by (unfold len, num; lia).
  do 3 wp_step. apply wp_row_get; [lia|]. intros x Hx.
  assert (Esplit : r_inner row = take (Z.to_nat (len - 1)) (r_inner row) ++ x :: drop (Z.to_nat len) (r_inner row)).
  { apply zlookup_spec in Hx as [_ Hx]. rewrite <- (take_drop_middle _ _ _ Hx) at 1.
    by replace (S (Z.to_nat (len - 1))) with (Z.to_nat len) by lia. }
  set (a := take (Z.to_nat (len - 1)) (r_inner row)) in *. set (b := drop (Z.to_nat len) (r_inner row)) in *.
  assert (Hza : zlen a = len - 1) by (apply zlen_take_le; unfold row_len in *; lia).
  assert (Hzb : zlen b = row_len row - len) by (unfold b; rewrite zlen_drop; unfold row_len in *; lia).
  wp_step. fold (wide x). destruct (wide x) eqn:Ew.
  - destruct (Hp _ _ _ Esplit Ew) as [Hb Hvis].
    assert (Hnum : len = num ∧ num < row_len row).
    { assert (0 < zlen b) by (destruct b; [done|unfold zlen; simpl; lia]). unfold len in *. lia. }
    do 4 wp_step. unfold row_front_split_off. unfold row_len in Hlen, Hr, Hzb, Hnum.
    destruct (Z.leb_spec (len - 1) (zlen (r_inner row))); [|lia]. wp_step. wp_step. fold a. unfold row_append.
    do 3 wp_step. rewrite zlen_app. change (zlen [leading_spacer]) with 1. do 3 wp_step.
    assert (Edrop : drop (Z.to_nat (len - 1)) (r_inner row) = x :: b).
    { rewrite Esplit at 1. rewrite drop_app, drop_ge by (unfold a; rewrite length_take; lia).
      replace (Z.to_nat (len - 1) - length a)%nat with 0%nat by (unfold zlen in Hza; lia). done. }
    destruct leading_is_spacer as [Hls _].
    split; simpl; rewrite ?Edrop; unfold row_len; simpl; rewrite ?Edrop.
    + unfold num in *. lia.
    + rewrite Esplit, !glyphs_app, (glyphs_spacer leading_spacer), Hgl, app_nil_r by done. by rewrite <- !app_assoc.
    + rewrite !zlen_app. change (zlen [leading_spacer]) with 1. unfold row_len, num in *. lia.
    + unfold zlen in *. simpl. lia.
    + unfold saturating_sub. lia.
    + exists a. done.
    + intros _. rewrite !zlen_app. change (zlen [leading_spacer]) with 1. unfold row_len, num in *. lia.
    + done.
    + intros _ Hcl. unfold row_is_clear in Hcl. simpl in Hcl. by rewrite Hvis in Hcl.
  - wp_step. unfold row_front_split_off. unfold row_len in Hlen, Hr, Hzb.
    destruct (Z.leb_spec len (zlen (r_inner row))); [|lia]. do 2 wp_step. unfold row_append. fold b.
    assert (Etake : take (Z.to_nat len) (r_inner row) = a ++ [x]).
    { rewrite Esplit at 1. rewrite take_app, take_ge by (unfold zlen in Hza; lia).
      replace (Z.to_nat len - length a)%nat with 1%nat by (unfold zlen in Hza; lia). done. }
    assert (Ebs : r_inner row = (a ++ [x]) ++ b) by (by rewrite <- app_assoc).
    rewrite Etake. do 2 wp_step. rewrite zlen_app. change (zlen [x]) with 1. do 3 wp_step.
    split; simpl; unfold row_len; simpl.
    + unfold num in *. lia.
    + rewrite Ebs, !glyphs_app, Hgl. by rewrite <- !app_assoc.
    + rewrite !zlen_app. change (zlen [x]) with 1. unfold row_len, num in *. lia.
    + unfold len in *. unfold row_len in *. lia.
    + unfold saturating_sub. lia.
    + by exists (a ++ [x]).
    + intros Hne. assert (0 < zlen b) by (destruct b; [done|unfold zlen; simpl; lia]).
      rewrite !zlen_app. change (zlen [x]) with 1. unfold len, row_len, num in *. lia.
    + intros Eb. rewrite Ebs, Eb, app_nil_r, app_assoc, !wraps_snoc. done.
    + intros Hne _ Ht. rewrite app_assoc, wraps_snoc.
      pose proof (clear_suffix_unwrapped row (mkRow b 0) (a ++ [x]) Ebs Hne ltac:(by destruct a) Ht) as Hw.
      by rewrite wraps_snoc in Hw.
Qed.

(** ** The text of both rows *)

Lemma flow_pulled columns last_row row last' row' num :
  pulled columns last_row row last' row' num → tidy false (r_inner row) → row_is_clear row' = true →
  eqv false (flow_row (r_inner last')) (glyphs (r_inner last_row) ++ flow_row (r_inner row)) ∧
  wraps (r_inner last') = wraps (r_inner row).
Proof.
  intros [_ Hg _ _ _ (q & Eq) _ Hwhole Hclear] Ht Hcl.
  assert (Hblank : Forall (λ x, cell_is_empty x = true) (r_inner row')).
  { apply Forall_forall. intros x Hx. unfold row_is_clear in Hcl. rewrite forallb_forall in Hcl.
    apply Hcl. by apply list_elem_of_In. }
  assert (Hw : wraps (r_inner last') = wraps (r_inner row)).
  { destruct (decide (r_inner row' = [])) as [E|E]; [by apply Hwhole|].
    rewrite Hclear by done. symmetry. rewrite Eq. destruct (wraps (q ++ r_inner row')) eqn:Ew; [|done].
    by rewrite (wraps_empty_tail _ _ Hblank Ew) in E. }
  split; [|done]. unfold flow_row, line_break. rewrite Hw, app_assoc, <- Hg, <- app_assoc. f_equiv.
  destruct (wraps (r_inner row)) eqn:Ew.
  - rewrite Eq in Ew. rewrite (wraps_empty_tail _ _ Hblank Ew). done.
  - by rewrite eqv_blanks.
Qed.

Lemma flow_kept columns last_row row last' row' num :
  pulled columns last_row row last' row' num → r_inner row' ≠ [] →
  flow [row_modify_last (cell_insert Flags.WRAPLINE) last'; row'] = glyphs (r_inner last_row) ++ flow_row (r_inner row) ∧
  wraps (r_inner row') = wraps (r_inner row).
Proof.
  intros [_ Hg [Hl _] _ _ (q & Eq) _ _ _] Hne.
  assert (Hw : wraps (r_inner row') = wraps (r_inner row)) by (rewrite Eq; by rewrite wraps_front).
  split; [|done]. rewrite flow_marked.
  - unfold flow. simpl. rewrite app_nil_r. unfold flow_row, line_break. rewrite Hw, !app_assoc. by rewrite Hg.
  - intros E. unfold row_len in Hl. rewrite E in Hl. unfold zlen in Hl. simpl in Hl. lia.
Qed.

(** ** The cursor *)

Section cursor.
Context (n columns : Z) (g0 : Grid T).
Context (Hn : 1 ≤ n < columns) (Hc : columns ≤ 1073741824) (Ec : g_columns g0 = columns).
Context (Hraw : s_len (raw g0) = 0) (Hlines : g_lines g0 ≤ 536870912).
Context (Hcol0 : 0 ≤ column (point (cursor g0)) ≤ n).

(** The cursor before the rows below [k]. *)
Record grow_cur (k : Z) (st : GrowState (T := T)) : Prop := {
  gc_frame : reflowing g0 (gr_grid st);
  gc_line : 0 ≤ line (point (cursor (gr_grid st))) < g_lines g0;
  gc_column : 0 ≤ column (point (cursor (gr_grid st))) < columns;
  gc_before : below (gr_grid st) < k → cursor (gr_grid st) = cursor g0 ∧ gr_cursor_line_delta st = 0;
  gc_delta : 0 ≤ gr_cursor_line_delta st ≤ 2;
  gc_below : below (gr_grid st) ≤ below g0;
  gc_offset : 0 ≤ display_offset (gr_grid st) ≤ display_offset g0 }.

Lemma sub_back g p num :
  reflowing g0 g → 0 ≤ column p < columns → 0 ≤ line p < g_lines g0 → 0 ≤ num ≤ columns →
  point_sub p g BCursor num =
    Ok (if num <=? column p then mkPoint (line p) (column p - num)
        else if line p =? 0 then mkPoint 0 0
        else mkPoint (line p - 1) (columns + column p - num)).
Proof using All.
  intros [Fr Fl Fc _ _] Hp Hl Hnum. rewrite <- Ec, <- Fc. apply point_sub_back; rewrite ?Fr, ?Fl, ?Fc, ?Ec; lia.
Qed.

(** The row of the cursor lost [num] cells. *)
Lemma grow_cursor_row i num row' st :
  grow_cur (i + 1) st → i = below (gr_grid st) → 1 ≤ line (point (cursor g0)) →
  0 ≤ num ≤ columns → row_len row' = Z.max 0 (n - num) →
  wp (let g := gr_grid st in
      target ← point_sub (point (cursor g)) g BCursor num;
      '(g, target) ←
        (if (column target =? 0) && row_is_clear row' then
           let g := set_wrap g true in
           target ← point_sub target g BCursor 1;
           mret (g, target)
         else mret (g, target));
      let g := set_cursor_column g (column target) in
      line_delta ← i32_sub (line (point (cursor g))) (line target);
      if negb (line_delta =? 0) && row_is_clear row' then
        mret (mkGrow g (gr_reversed st) (gr_cursor_line_delta st), true)
      else
        delta ← usize_add (gr_cursor_line_delta st) (as_usize line_delta);
        mret (mkGrow g (gr_reversed st) delta, false))
    (λ '(st', dropped), gr_reversed st' = gr_reversed st ∧ grow_cur i st' ∧
      if dropped : bool then row_is_clear row' = true else r_inner row' ≠ []).
Proof using All.
  intros [Hf Hl Hco Hb Hd Hbe Ho] Ei Hline Hnum Hlen. destruct (Hb ltac:(lia)) as [Ecur Ed].
  pose proof Hf as [Fr Fl Fc Fm Fs]. set (g := gr_grid st) in *. cbv zeta.
  assert (Hne : 0 < row_len row' → r_inner row' ≠ []).
  { intros Hp E. unfold row_len in Hp. rewrite E in Hp. unfold zlen in Hp. simpl in Hp. lia. }
  assert (Hfin : ∀ g1 w target (line_delta := line (point (cursor g)) - line target),
    reflowing g0 g1 → cursor g1 = cursor_wrap (cursor g) w →
    display_offset g1 = display_offset g → 0 ≤ column target < columns → 0 ≤ line_delta ≤ 2 → 0 ≤ line target →
    (line_delta = 0 ∨ row_is_clear row' = false → r_inner row' ≠ []) →
    wp (line_delta ← i32_sub (line (point (cursor (set_cursor_column g1 (column target))))) (line target);
        if negb (line_delta =? 0) && row_is_clear row' then
          mret (mkGrow (set_cursor_column g1 (column target)) (gr_reversed st) (gr_cursor_line_delta st), true)
        else
          delta ← usize_add (gr_cursor_line_delta st) (as_usize line_delta);
          mret (mkGrow (set_cursor_column g1 (column target)) (gr_reversed st) delta, false))
      (λ '(st', dropped), gr_reversed st' = gr_reversed st ∧ grow_cur i st' ∧
        if dropped : bool then row_is_clear row' = true else r_inner row' ≠ [])).
  { intros g1 w target ld Hf1 Ec1 Ho1 Hct Hld Htl Hr'. simpl. unfold ld in *. rewrite Ec1. simpl.
    assert (Hg : ∀ d, 0 ≤ d ≤ 2 → grow_cur i (mkGrow (set_cursor_column g1 (column target)) (gr_reversed st) d)).
    { intros d Hd'. split; simpl; rewrite ?Ec1; simpl; try done; try lia.
      - destruct Hf1. by split.
      - unfold below in *. simpl. rewrite Ec1. simpl. destruct Hf1 as [_ -> _ _ _]. rewrite <- Fl. lia.
      - unfold below in *. simpl. rewrite Ec1. simpl. destruct Hf1 as [_ -> _ _ _]. rewrite <- Fl. lia. }
    do 2 wp_step. destruct (Z.eqb_spec (line (point (cursor g)) - line target) 0) as [E|E]; cbn [negb andb].
    - casts. do 2 wp_step. wp_step. split; [done|]. split; [apply Hg; lia|]. apply Hr'. lia.
    - destruct (row_is_clear row') eqn:Ecl; cbn [andb].
      + wp_step. split; [done|]. split; [apply Hg; lia|done].
      + casts. do 2 wp_step. wp_step. split; [done|]. split; [apply Hg; lia|]. apply Hr'. by right. }
  assert (Hcw : cursor g = cursor_wrap (cursor g) (input_needs_wrap (cursor g))) by (by destruct (cursor g)).
  rewrite Ecur in *. wp_step. rewrite (sub_back g) by (done || lia). wp_step.
  assert (Hnc : row_is_clear row' = false → r_inner row' ≠ []) by (intros Hf' E; unfold row_is_clear in Hf'; by rewrite E in Hf').
  destruct (Z.leb_spec num (column (point (cursor g0)))) as [Hle|Hgt]; simpl.
  - destruct (Z.eqb_spec (column (point (cursor g0)) - num) 0) as [E0|E0]; cbn [andb].
    + destruct (row_is_clear row') eqn:Ecl.
      * wp_step. rewrite (sub_back (set_wrap g true)); [|by split|simpl; lia..]. simpl.
        destruct (Z.leb_spec 1 (column (point (cursor g0)) - num)), (Z.eqb_spec (line (point (cursor g0))) 0); try lia.
        apply (Hfin (set_wrap g true) true (mkPoint _ _)); simpl; rewrite ?Ecur; try done; lia.
      * wp_step. apply (Hfin g _ (mkPoint _ _) Hf (eq_trans Ecur Hcw)); simpl; rewrite ?Ecur; try done; try lia; auto.
    + wp_step. apply (Hfin g _ (mkPoint _ _) Hf (eq_trans Ecur Hcw)); simpl; rewrite ?Ecur; try done; try lia. intros _. apply Hne. lia.
  - destruct (Z.eqb_spec (line (point (cursor g0))) 0); [lia|]. simpl.
    destruct (Z.eqb_spec (columns + column (point (cursor g0)) - num) 0) as [E0|E0]; cbn [andb].
    + destruct (row_is_clear row') eqn:Ecl.
      * wp_step. rewrite (sub_back (set_wrap g true)); [|by split|simpl; lia..]. simpl.
        destruct (Z.leb_spec 1 (columns + column (point (cursor g0)) - num)); [lia|].
        destruct (Z.eqb_spec (line (point (cursor g0)) - 1) 0);
        apply (Hfin (set_wrap g true) true (mkPoint _ _)); simpl; rewrite ?Ecur; try done; try lia; by split.
      * wp_step. apply (Hfin g _ (mkPoint _ _) Hf (eq_trans Ecur Hcw)); simpl; rewrite ?Ecur; try done; try lia; auto.
    + wp_step. apply (Hfin g _ (mkPoint _ _) Hf (eq_trans Ecur Hcw)); simpl; rewrite ?Ecur; try done; try lia.
      intros [E|E]; [lia|]. by apply Hnc.
Qed.

(** What [grow_cursor] does on every row. *)
Lemma grow_cursor_spec i num row' st :
  grow_cur (i + 1) st → 0 ≤ i → (i = below g0 → 1 ≤ line (point (cursor g0))) →
  0 ≤ num ≤ columns → row_len row' = Z.max 0 (n - num) →
  wp (grow_cursor true i num row' st) (λ '(st', dropped), gr_reversed st' = gr_reversed st ∧ grow_cur i st' ∧
    if dropped : bool then row_is_clear row' = true else r_inner row' ≠ []).
Proof using All.
  intros Hst Hi Hline Hnum Hlen. pose proof Hst as [Hf Hl Hco Hb Hd Hbe Ho]. pose proof Hf as [Fr Fl Fc Fm Fs].
  unfold grow_cursor. cbv zeta. wp_step. apply wp_cursor_buffer_line; [unfold cursor_inside; rewrite Fl; lia|].
  destruct (Z.eqb_spec i (below (gr_grid st))) as [Ei|Ei]; cbn [andb].
  { apply grow_cursor_row; try done. apply Hline. destruct (Hb ltac:(lia)) as [Ecur _].
    rewrite Ei. unfold below. by rewrite Ecur, Fl. }
  destruct (row_is_clear row') eqn:Ecl; [|wp_step].
  - set (g1 := if i <? display_offset (gr_grid st) then _ else _).
    assert (E1 : cursor g1 = cursor (gr_grid st) ∧ reflowing g0 g1 ∧ 0 ≤ display_offset g1 ≤ display_offset g0).
    { unfold g1. destruct (i <? display_offset (gr_grid st)); [|done]. split; [done|]. split; [by split|].
      simpl. unfold saturating_sub. lia. }
    destruct E1 as (E1 & Hf1 & Ho1). pose proof Hf1 as [_ Fl1 _ _ _]. wp_step.
    destruct (Z.ltb_spec i (below (gr_grid st))) as [Hlt|Hge].
    + rewrite E1. unfold below in Hlt, Hbe. rewrite Fl in Hlt, Hbe. do 2 wp_step. do 2 wp_step.
      split; [done|]. split; [|done]. split; simpl; rewrite ?E1; simpl; try done; try lia; unfold below; simpl; rewrite ?E1, ?Fl1; simpl; try lia.
      destruct Hf1. by split.
    + wp_step. wp_step. split; [done|]. split; [|done].
      assert (Eb : below g1 = below (gr_grid st)) by (unfold below; by rewrite E1, Fl1, Fl).
      split; simpl; rewrite ?E1, ?Eb; try done; try lia. intros ?. apply Hb. lia.
  - split; [done|]. split.
    + split; try done. intros ?. apply Hb. lia.
    + intros E. unfold row_is_clear in Ecl. by rewrite E in Ecl.
Qed.

(** ** The loop *)

Context (rows : list (Row T)) (Hline0 : 0 ≤ line (point (cursor g0))).
Context (Hrows : Forall (λ r, row_wf n r ∧ tidy false (r_inner r) ∧ paired (r_inner r)) rows).
Context (Habove : line (point (cursor g0)) = 0 →
  ∀ r, zlookup rows (below g0 + 1) = Some r → wraps (r_inner r) = false).

(** The rows so far: only the last one may be too short for its wrap flag. *)
Definition complete (rs : list (Row T)) : Prop :=
  ∀ a r b, rs = a ++ r :: b → b ≠ [] → wraps (r_inner r) = true → row_len r = columns.

Record grow_inv (k : Z) (st : GrowState (T := T)) : Prop := {
  gi_cur : grow_cur k st;
  gi_rows : Forall (λ r, row_len r ≤ columns ∧ 0 ≤ occ r ≤ columns) (gr_reversed st);
  gi_complete : complete (gr_reversed st);
  gi_count : zlen (gr_reversed st) ≤ zlen rows - k;
  gi_last : ∀ a l r, gr_reversed st = a ++ [l] → zlookup rows k = Some r → wraps (r_inner l) = wraps (r_inner r);
  gi_text : eqv false (flow (gr_reversed st)) (flow (reverse (drop (Z.to_nat k) rows))) }.

Lemma complete_snoc rs r l :
  complete (rs ++ [r]) → (wraps (r_inner r) = true → row_len r = columns) → complete (rs ++ [r] ++ [l]).
Proof using Type.
  intros Hcm Hr a x b E Hb Hw. destruct b as [|y b _] using rev_ind; [done|].
  rewrite app_assoc in E. change (a ++ x :: b ++ [y]) with (a ++ (x :: b) ++ [y]) in E. rewrite app_assoc in E.
  apply app_inj_tail in E as [E _]. destruct (decide (b = [])) as [->|Hb'].
  - apply app_inj_tail in E as [_ ->]. by apply Hr.
  - by apply (Hcm a x b).
Qed.

Lemma complete_last rs r r' : complete (rs ++ [r]) → complete (rs ++ [r']).
Proof using Type.
  intros Hcm a x b E Hb Hw. destruct b as [|y b _] using rev_ind; [done|].
  change (a ++ x :: b ++ [y]) with (a ++ (x :: b) ++ [y]) in E. rewrite app_assoc in E.
  apply app_inj_tail in E as [-> _]. apply (Hcm a x (b ++ [r])); [|by destruct b|done]. by rewrite <- app_assoc.
Qed.

Lemma wp_should_reflow r (Q : bool → Prop) :
  row_len r ≤ columns →
  (wraps (r_inner r) = true → 1 ≤ row_len r < columns → Q true) →
  ((wraps (r_inner r) = true → row_len r = columns) → Q false) → wp (should_reflow true columns r) Q.
Proof using Hc.
  intros Hl Ht Hf. unfold should_reflow. cbv zeta. cbn [andb]. unfold row_len in *.
  destruct (r_inner r) as [|x a _] eqn:E using rev_ind.
  { apply Hf. done. }
  rewrite wraps_snoc in *. rewrite zlen_app in *. change (zlen [x]) with 1 in *. pose proof (zlen_nonneg a).
  destruct (Z.ltb_spec 0 (zlen a + 1)); [|lia]. cbn [andb]. destruct (Z.ltb_spec (zlen a + 1) columns).
  - do 2 wp_step. wp_step. unfold row_get. rewrite E. apply wp_vec_get; [rewrite zlen_app; change (zlen [x]) with 1; lia|].
    intros z Hz. wp_step. apply zlookup_spec in Hz as [_ Hz]. rewrite lookup_app_r in Hz by (unfold zlen; lia).
    replace (Z.to_nat (zlen a + 1 - 1) - length a)%nat with 0%nat in Hz by (unfold zlen; lia). injection Hz as <-.
    fold (wrapped x). destruct (wrapped x); [apply Ht; [done|lia]|by apply Hf].
  - wp_step. apply Hf. intros _. lia.
Qed.

Lemma grow_row_push i row st :
  0 ≤ i → zlookup rows i = Some row → grow_inv (i + 1) st →
  (∀ a l, gr_reversed st = a ++ [l] → wraps (r_inner l) = true → row_len l = columns) →
  grow_cur i st → grow_inv i (mkGrow (gr_grid st) (gr_reversed st ++ [row]) (gr_cursor_line_delta st)).
Proof using Hrows Hn.
  intros Hi Hrow [_ Hr Hco Hct _ Ht] Hlast Hcur. pose proof Hrow as Hrow'. apply zlookup_spec in Hrow' as [_ Hrow'].
  pose proof Hrows as Hrow2. eapply Forall_lookup_1 in Hrow2 as ([Hl Ho] & _); [|exact Hrow'].
  split; simpl.
  - destruct Hcur. by split.
  - apply Forall_app. split; [done|]. constructor; [lia|constructor].
  - destruct (gr_reversed st) as [|l a _] eqn:E using rev_ind.
    + intros [|? [|? ?]] ? [|? ?]; by intros [=].
    + rewrite <- app_assoc. apply complete_snoc; [done|]. by apply (Hlast a l).
  - rewrite zlen_app. change (zlen [row]) with 1. lia.
  - intros a l r [_ <-]%app_inj_tail Hr'. congruence.
  - rewrite (drop_S _ _ _ Hrow'), reverse_cons, !flow_snoc. by replace (S (Z.to_nat i)) with (Z.to_nat (i + 1)) by lia;
      rewrite Ht.
Qed.

Lemma grow_cur_down i st : grow_cur (i + 1) st → grow_cur i st.
Proof using Type. intros [? ? ? Hb ? ? ?]. split; try done. intros ?. apply Hb. lia. Qed.

(** A row that loses cells to the one above. *)
Lemma grow_row_pull i row st a l :
  0 ≤ i → zlookup rows i = Some row → grow_inv (i + 1) st → gr_reversed st = a ++ [l] →
  wraps (r_inner l) = true → 1 ≤ row_len l < columns → i + 1 < zlen rows →
  wp ('(last_row, row, num_wrapped) ← pull_cells columns l row;
      '(st, dropped) ← grow_cursor true i num_wrapped row st;
      if (dropped : bool) then mret (mkGrow (gr_grid st) (a ++ [last_row]) (gr_cursor_line_delta st))
      else mret (mkGrow (gr_grid st) (a ++ [row_modify_last (cell_insert Flags.WRAPLINE) last_row; row])
                   (gr_cursor_line_delta st))) (grow_inv i).
Proof using All.
  intros Hi Hrow [Hcur Hr Hco Hct Hla Ht] E Hw Hl Hi1. pose proof Hrow as Hrow'. apply zlookup_spec in Hrow' as [_ Hrow'].
  pose proof Hrows as Hrow2. eapply Forall_lookup_1 in Hrow2 as ([Hln Ho] & Htd & Hpa); [|exact Hrow'].
  rewrite E in Hr, Hco, Hct, Ht. apply Forall_app in Hr as [Hr _]. rewrite zlen_app in Hct. change (zlen [l]) with 1 in Hct.
  destruct (zlookup_some rows (i + 1)) as [above Hab]; [lia|]. specialize (Hla a l above E Hab).
  wp_step. wp_use pull_cells_spec; [done|done|lia|lia|done|]. intros [[last' row'] num] Hp. wp_step.
  pose proof Hp as [Pn _ [Pl Po] Pr Poc _ Pf _ _]. rewrite Hln in Pr.
  wp_use grow_cursor_spec; [exact Hcur|done| |lia|done|].
  { intros ->. destruct (Z.eq_dec (line (point (cursor g0))) 0) as [E0|]; [|lia].
    specialize (Habove E0 above Hab). congruence. }
  intros [st' dropped] (Er & Hcur' & Hdrop).
  assert (Hflow : flow (reverse (drop (Z.to_nat i) rows)) = flow (reverse (drop (Z.to_nat (i + 1)) rows)) ++ flow_row (r_inner row)).
  { rewrite (drop_S _ _ _ Hrow'), reverse_cons, flow_snoc. by replace (S (Z.to_nat i)) with (Z.to_nat (i + 1)) by lia. }
  rewrite flow_snoc in Ht. unfold flow_row at 1, line_break in Ht. rewrite Hw, app_nil_r in Ht.
  destruct dropped; wp_step; split; simpl.
  - destruct Hcur'. by split.
  - apply Forall_app. split; [done|]. constructor; [lia|constructor].
  - by apply (complete_last a l).
  - rewrite zlen_app. change (zlen [last']) with 1. lia.
  - intros a' l' r [_ <-]%app_inj_tail Hr'. destruct (flow_pulled _ _ _ _ _ _ Hp Htd Hdrop) as [_ ->]. congruence.
  - destruct (flow_pulled _ _ _ _ _ _ Hp Htd Hdrop) as [Hfl _]. rewrite flow_snoc, Hfl, Hflow, app_assoc. by rewrite Ht.
  - destruct Hcur'. by split.
  - apply Forall_app. split; [done|]. unfold row_len in *. constructor; [|constructor; [|constructor]]; simpl.
    + unfold row_modify_last, zlen in *. simpl. rewrite length_alter. lia.
    + lia.
  - change [?x; ?y] with ([x] ++ [y]). apply complete_snoc; [by apply (complete_last a l)|]. intros _.
    rewrite <- (Pf Hdrop). unfold row_len, row_modify_last, zlen. simpl. by rewrite length_alter.
  - rewrite zlen_app. change (zlen [_; _]) with 2. lia.
  - intros a' l' r Hl' Hr'. change [?x; ?y] with ([x] ++ [y]) in Hl'. rewrite app_assoc in Hl'.
    apply app_inj_tail in Hl' as [_ <-]. destruct (flow_kept _ _ _ _ _ _ Hp Hdrop) as [_ ->]. congruence.
  - destruct (flow_kept _ _ _ _ _ _ Hp Hdrop) as [Hfl _]. rewrite flow_app, Hfl, Hflow, app_assoc. by rewrite Ht.
Qed.

Lemma grow_row_spec i row st :
  0 ≤ i → zlookup rows i = Some row → grow_inv (i + 1) st → wp (grow_row true columns i row st) (grow_inv i).
Proof using All.
  intros Hi Hrow Hinv. pose proof Hinv as [Hcur Hr Hco Hct Hla Ht]. unfold grow_row. cbv zeta.
  assert (Hpush : (∀ a l, gr_reversed st = a ++ [l] → wraps (r_inner l) = true → row_len l = columns) →
    grow_inv i (mkGrow (gr_grid st) (gr_reversed st ++ [row]) (gr_cursor_line_delta st))).
  { intros Hlast. by apply grow_row_push; [..|apply grow_cur_down]. }
  destruct (gr_reversed st) as [|l a _] eqn:E using rev_ind.
  - cbn [last]. wp_step. apply Hpush. by intros [|? ?] ? ?.
  - rewrite last_snoc. wp_step. apply Forall_app in Hr as [_ Hl]. apply Forall_cons in Hl as [[Hl _] _].
    apply wp_should_reflow; [done|..].
    + intros Hw Hlen. replace (take (pred (length (a ++ [l]))) (a ++ [l])) with a.
      * apply grow_row_pull; try done. rewrite zlen_app in Hct. change (zlen [l]) with 1 in Hct.
        pose proof (zlen_nonneg a). lia.
      * rewrite length_app. simpl. replace (pred (length a + 1)) with (length a) by lia. by rewrite take_app_length.
    + intros Hw. wp_step. apply Hpush. by intros ? ? [_ <-]%app_inj_tail.
Qed.

Lemma grow_loop_spec st0 :
  gr_grid st0 = g0 → gr_reversed st0 = [] → gr_cursor_line_delta st0 = 0 →
  line (point (cursor g0)) < g_lines g0 → 0 ≤ display_offset g0 →
  wp (for_range_rev 0 (zlen rows) (λ i st, row ← vec_get rows i; grow_row true columns i row st) st0) (grow_inv 0).
Proof using All.
  intros Eg En Ed Hl Ho. apply wp_for_range_rev with (I := grow_inv).
  - split; rewrite ?En.
    + split; rewrite ?Eg, ?Ed; try done; try lia.
    + constructor.
    + by intros [|? ?] ? ?.
    + change (zlen (@nil (Row T))) with 0. lia.
    + by intros [|? ?] ? ?.
    + rewrite drop_ge by (unfold zlen; lia). done.
  - intros i st Hi Hinv. wp_step. apply wp_vec_get; [lia|]. intros row Hrow. by apply grow_row_spec; [lia|..].
  - intros st. rewrite Z.min_l by (pose proof (zlen_nonneg rows); lia). done.
Qed.
End cursor.

(** ** Filling up the rows *)

Definition fill (columns : Z) row : Row T := if row_len row <? columns then row_grow row columns else row.

Lemma fill_inner columns row : r_inner (fill columns row) = filled columns (r_inner row).
Proof.
  unfold fill, filled, row_len, row_grow. destruct (Z.ltb_spec (zlen (r_inner row)) columns); [|done].
  by destruct (Z.leb_spec columns (zlen (r_inner row))); [lia|].
Qed.

Lemma fill_wf columns row : 0 ≤ columns → row_len row ≤ columns → 0 ≤ occ row ≤ columns → row_wf columns (fill columns row).
Proof.
  intros Hc Hl Ho. unfold row_wf, row_len in *. rewrite fill_inner, filled_len by lia. split; [lia|].
  unfold fill, row_grow. by destruct (row_len row <? columns), (columns <=? zlen (r_inner row)).
Qed.

Lemma flow_fill columns row at_end :
  row_len row ≤ columns → (at_end = false → wraps (r_inner row) = true → row_len row = columns) →
  eqv at_end (flow_row (r_inner (fill columns row))) (flow_row (r_inner row)).
Proof.
  intros Hl Hw. rewrite fill_inner. unfold flow_row. rewrite filled_app at 1. rewrite glyphs_app, <- app_assoc. f_equiv.
  rewrite <- (app_nil_l (line_break (r_inner row))). change (@nil (option T)) with (glyphs (@nil T)). unfold row_len in *.
  apply eqv_tails; [constructor|apply default_blank|..].
  - intros He Hwr. specialize (Hw He Hwr). split; [done|]. unfold filler. rewrite Hw, Z.sub_diag. split; [done|].
    rewrite filled_wraps. by destruct (Z.ltb_spec (zlen (r_inner row)) columns); [lia|].
  - intros _ Hwr. rewrite filled_wraps. by destruct (zlen (r_inner row) <? columns).
Qed.

Lemma flow_fill_all columns rs :
  Forall (λ r, row_len r ≤ columns ∧ 0 ≤ occ r ≤ columns) rs → complete columns rs →
  eqv true (flow (fill columns <$> rs)) (flow rs).
Proof.
  intros Hr Hc. destruct rs as [|l a _] using rev_ind; [done|]. rewrite fmap_app. simpl. rewrite !flow_snoc.
  apply Forall_app in Hr as [Ha Hl]. apply Forall_cons in Hl as [[Hl _] _].
  assert (Hwa : Forall (λ r, row_len r ≤ columns ∧ (wraps (r_inner r) = true → row_len r = columns)) a).
  { apply Forall_forall. intros r (a1 & a2 & ->)%list_elem_of_split. split.
    - apply Forall_app in Ha as [_ Ha]. by apply Forall_cons in Ha as [[? _] _].
    - apply (Hc a1 r (a2 ++ [l])); [by rewrite <- app_assoc|by destruct a2]. }
  rewrite (flow_fill columns l true) by done. clear Hc Ha Hl.
  assert (E : eqv false (flow (fill columns <$> a)) (flow a)).
  { induction Hwa as [|r a [Hl Hw] _ IH]; [done|]. rewrite fmap_cons.
    change (flow (fill columns r :: (fill columns <$> a))) with (flow_row (r_inner (fill columns r)) ++ flow (fill columns <$> a)).
    change (flow (r :: a)) with (flow_row (r_inner r) ++ flow a). rewrite IH. by rewrite (flow_fill columns r false). }
  by rewrite E.
Qed.

(** Rows without content do not count at the end. *)
Lemma flow_fresh columns k : eqv true (flow (replicate k (fresh_row columns))) [].
Proof.
  induction k as [|k IH]; [done|]. intros acc Hacc. cbn [replicate].
  change (flow (fresh_row columns :: replicate k (fresh_row columns)))
    with (flow_row (r_inner (fresh_row columns)) ++ flow (replicate k (fresh_row columns))).
  rewrite foldr_app, (IH acc Hacc). unfold flow_row. apply (eqv_tail _ (r_inner (fresh_row columns))); [|done].
  apply default_blank.
Qed.

(** ** [grow_columns] *)

Definition grown_grid g (columns : Z) (g' : Grid T) : Prop :=
  grid_wf (row_wf columns) g' ∧ g_columns g' = columns ∧ g_lines g' = g_lines g ∧
  max_scroll_limit g' = max_scroll_limit g ∧ in_screen g' (point (cursor g')) ∧ in_screen g' (point (saved_cursor g')) ∧
  ∃ lost, normal (flow (rows_down g' ++ lost)) = normal (flow (rows_down g)) ∧ zlen lost ≤ below g.

(** The rows and the cursor are brought to the size of the screen. *)
Definition fitted (columns : Z) (g : Grid T) (reversed : list (Row T)) : Grid T :=
  let g := with_raw g (replace_inner (raw g) (fill columns <$> reverse reversed)) in
  with_display_offset g (Z.min (display_offset g) (history_size g)).

(** The last part of [grow_columns], behind the loop. *)
Lemma grow_columns_tail columns g reversed delta :
  1 ≤ columns ≤ 1073741824 → 1 ≤ g_lines g ≤ 536870912 → 0 ≤ line (point (cursor g)) < g_lines g →
  0 ≤ column (point (cursor g)) ≤ 1073741824 → zlen reversed ≤ 536870912 → 0 ≤ delta ≤ 2 →
  wp ('(g, reversed) ←
        (if zlen reversed <? g_lines g then
           n ← usize_sub (g_lines g) (zlen reversed);
           l ← i32_sub (line (point (cursor g))) (as_i32 n);
           let g := set_cursor_line g (Z.max l 0) in
           reversed ← resize_rows reversed (g_lines g) columns;
           mret (g, reversed)
         else mret (g, reversed));
      '(g, reversed) ←
        (if negb (delta =? 0) then
           cursor_buffer_line ← cursor_buffer_line g;
           n ← usize_sub (zlen reversed) (g_lines g);
           let available := Z.min cursor_buffer_line n in
           let overflow := saturating_sub delta available in
           x ← usize_add (zlen reversed) overflow;
           x ← usize_sub x delta;
           let reversed := take (Z.to_nat x) reversed in
           l ← line_sub_usize (line (point (cursor g))) overflow;
           mret (set_cursor_line g (Z.max l 0), reversed)
         else mret (g, reversed));
      mret (fitted columns g reversed))
    (λ g', ∃ l k pads, g' = fitted columns (set_cursor_line g l) (take k (reversed ++ replicate pads (fresh_row columns))) ∧
      0 ≤ l < g_lines g ∧ zlen (drop k (reversed ++ replicate pads (fresh_row columns))) ≤ below g ∧
      g_lines g ≤ zlen (take k (reversed ++ replicate pads (fresh_row columns))) ≤ Z.max (g_lines g) (zlen reversed)).
Proof.
  intros Hc Hl Hline Hcol Hlen Hd. pose proof (zlen_nonneg reversed) as Hz.
  wp_step. eapply wp_mono with (Q := λ '(g1, rs), ∃ l pads, g1 = set_cursor_line g l ∧ rs = reversed ++ replicate pads (fresh_row columns) ∧
    0 ≤ l < g_lines g ∧ zlen rs = Z.max (g_lines g) (zlen reversed) ∧ (zlen reversed < g_lines g ∨ l = line (point (cursor g)))).
  { destruct (Z.ltb_spec (zlen reversed) (g_lines g)).
    - do 2 wp_step. casts. do 2 wp_step. cbv zeta. simpl g_lines. rewrite resize_rows_ok by lia. wp_step. wp_step. wp_step.
      rewrite take_ge by (unfold zlen in *; lia). eexists _, _. split; [done|]. split; [done|]. split; [lia|].
      rewrite zlen_app, zlen_replicate. split; [lia|]. by left.
    - wp_step. exists (line (point (cursor g))), 0%nat. rewrite app_nil_r. split; [|split_and!; try done; try lia; by right].
      unfold set_cursor_line, goto_point, cursor_at. destruct g as [[[] ? ? ?] ? ? ? ? ? ?]. done. }
  intros [g1 rs] (l & pads & -> & -> & Hl1 & Hrs & Hor). set (rs := reversed ++ _) in *. wp_step.
  destruct (Z.eqb_spec delta 0) as [->|Hne]; cbn [negb].
  { wp_step. wp_step. exists l, (length rs), pads. fold rs. rewrite take_ge, drop_ge by done. split; [done|]. split; [done|].
    change (zlen (@nil (Row T))) with 0. unfold below. lia. }
  wp_step. apply wp_cursor_buffer_line; [unfold cursor_inside; simpl; lia|].
  change (g_lines (set_cursor_line g l)) with (g_lines g). do 2 wp_step. cbv zeta.
  set (available := Z.min (below (set_cursor_line g l)) (zlen rs - g_lines g)). set (overflow := saturating_sub delta available).
  assert (Hav : 0 ≤ available ≤ zlen rs - g_lines g ∧ available ≤ below (set_cursor_line g l))
    by (unfold available, below; simpl; lia).
  assert (Hov : delta - available ≤ overflow ≤ delta ∧ 0 ≤ overflow) by (unfold overflow, saturating_sub; lia).
  do 2 wp_step. do 2 wp_step. unfold line_sub_usize. casts. simpl line. do 2 wp_step. wp_step. wp_step.
  eexists _, _, pads. fold rs. split; [reflexivity|]. split; [lia|]. rewrite zlen_drop, zlen_take. split; [|lia].
  destruct Hor as [Hshort| ->]; [unfold below; lia|].
  assert (Eb : below (set_cursor_line g (line (point (cursor g)))) = below g) by done. lia.
Qed.

(** Rows to be joined have whole wide characters, and the line of the cursor does not
    start in the scrollback if the cursor is at the top of the screen. *)
Record grow_ready g : Prop := {
  gd_ready : reflow_ready g;
  gd_paired : Forall (λ r, paired (r_inner r)) (rows_down g);
  gd_top : ∀ r, line (point (cursor g)) = 0 → 0 < history_size g → g_line g (-1) = Some r → wraps (r_inner r) = false }.

Lemma fitted_spec columns g reversed :
  1 ≤ columns ≤ 1073741824 → g_columns g = columns → s_visible_lines (raw g) = g_lines g → 1 ≤ g_lines g →
  0 ≤ max_scroll_limit g → g_lines g + max_scroll_limit g ≤ 536870912 → 0 ≤ display_offset g →
  g_lines g ≤ zlen reversed ≤ g_lines g + max_scroll_limit g →
  Forall (λ r, row_len r ≤ columns ∧ 0 ≤ occ r ≤ columns) reversed →
  grid_wf (row_wf columns) (fitted columns g reversed) ∧ rows_down (fitted columns g reversed) = fill columns <$> reversed.
Proof.
  intros Hc Ec Hv Hl Hm Hlm Ho Hlen Hr.
  assert (Hz : zlen (fill columns <$> reverse reversed) = zlen reversed) by (rewrite zlen_fmap; unfold zlen; by rewrite length_reverse).
  split.
  - split; simpl; rewrite ?Ec; try lia.
    + apply replace_inner_wf; [apply row_pred_wf; lia|..|simpl; lia|lia].
      apply Forall_fmap, Forall_reverse. eapply Forall_impl; [exact Hr|]. intros r [Hrl Hro]. apply fill_wf; lia.
    + unfold history_size, saturating_sub. simpl. lia.
  - erewrite rows_down_replaced by reflexivity. by rewrite <- fmap_reverse, reverse_involutive.
Qed.

Lemma grow_columns_spec g columns :
  grow_ready g → g_columns g < columns ≤ 1073741824 → wp (grow_columns g true columns) (grown_grid g columns).
Proof.
  intros [[W Ht Hcu Hsa _] Hpa Htop] Hc. pose proof W as [Ws Hvis Hhist Hlim Hoff]. pose proof Ws as [P Hr Hz Hv Hl Hbd].
  pose proof (rp_bound _ _ P) as Hn. pose proof (rows_of_len _ _ _ Ws) as Hlen.
  pose proof (rows_of_wf _ _ _ Ws) as Hrw. pose proof (grid_history _ _ W) as Hh.
  unfold grow_columns. cbv zeta. wp_step. wp_use (unwrap_cursor_spec g Hcu); [lia|].
  intros g1 (cur & -> & Ecl & Ecc & _). pose proof Hcu as [Hcl Hcc]. pose proof Hsa as [Hsl Hsc]. simpl in Hcl, Hcc, Hsl, Hsc.
  wp_step. simpl raw. wp_use (take_all_spec (row_wf (g_columns g))); [done|]. intros [s' rows] [-> ->]. wp_step.
  set (g0 := with_raw _ _).
  assert (Eb : below g0 = below g) by (unfold below; simpl; by rewrite Ecl).
  wp_use (grow_loop_spec (g_columns g) columns g0); try done; try (simpl; lia).
  - apply Forall_forall. intros r Hin. unfold rows_down in Ht, Hpa. rewrite Forall_reverse in Ht, Hpa.
    eapply Forall_forall in Hrw; [|done]. eapply Forall_forall in Ht; [|done]. by eapply Forall_forall in Hpa.
  - simpl. rewrite Ecl. intros E0 r Hr'. apply (Htop r E0).
    + apply zlookup_spec in Hr' as [_ Hr']. apply lookup_lt_Some in Hr'. unfold zlen in Hlen. unfold below in *. simpl in Hr'.
      rewrite Ecl in Hr'. lia.
    + unfold below in Hr'. simpl in Hr'. rewrite Ecl, E0, (rows_of_lookup _ _ _ _ Ws) in Hr' by lia.
      destruct (_ <? _); [|done]. unfold g_line, line_at. rewrite Hvis.
      by replace (g_lines g - 1 - -1) with (g_lines g - 1 - 0 + 1) by lia.
  - intros [g2 reversed delta] [[Hf Hl2 Hco2 _ Hd Hbe Ho] Hrows Hcomp Hcnt _ Htext]. simpl in *.
    destruct Hf as [Fr Fl Fc Fm Fs]. simpl in *.
    wp_use (grow_columns_tail columns g2 reversed delta); rewrite ?Fl; try lia.
    intros g' (l & k & pads & -> & Hl' & Hlost & Hkept). rewrite ?Fl in Hl', Hkept.
    set (rs := reversed ++ replicate pads (fresh_row columns)) in *.
    assert (Hrs : Forall (λ r, row_len r ≤ columns ∧ 0 ≤ occ r ≤ columns) rs).
    { apply Forall_app. split; [done|]. apply Forall_replicate.
      destruct (fresh_row_wf (T := T) columns) as [-> ?]; [lia|]. simpl. lia. }
    destruct (fitted_spec columns (set_cursor_line g2 l) (take k rs)) as [W' Erows]; simpl; rewrite ?Fr, ?Fl, ?Fc, ?Fm; simpl; try done; try lia.
    { by apply Forall_take. }
    split; [done|]. unfold grown_grid, in_screen. simpl. rewrite Fl, Fc, Fm, Fs. do 3 (split; [done|]). split; [lia|]. split; [lia|].
    exists (fill columns <$> drop k rs). split; [|rewrite zlen_fmap; lia].
    rewrite Erows, <- fmap_app, take_drop. unfold rs. rewrite fmap_app, flow_app.
    assert (Efresh : fill columns <$> replicate pads (fresh_row columns) = replicate pads (fresh_row columns : Row T)).
    { rewrite fmap_replicate. f_equal. unfold fill. destruct (fresh_row_wf (T := T) columns) as [E _]; [lia|].
      rewrite E. by destruct (Z.ltb_spec columns columns); [lia|]. }
    rewrite Efresh. apply eqv_normal. intros acc Hacc. rewrite foldr_app, (flow_fresh columns pads acc Hacc). simpl.
    rewrite (flow_fill_all columns reversed Hrows Hcomp acc Hacc). by apply Htext.
Qed.
End grow.
