(* ===== verification/Selection.v ===== *)
(** * Selections (alacritty_terminal/src/selection.rs)

    A selection is a pair of anchors; [rotate] moves it with the content of a
    scrolling region, [range_simple] and [range_block] turn it into a range of
    cells.  [to_range], which searches the terminal, is in Search.v. *)

From S2P Require Import Prelude Index Ansi GridCell Cell Grid.
#[local] Open Scope Z_scope.

Record Anchor := mkAnchor { a_point : Point; a_side : Side }.

#[global] Instance Anchor_eq_dec : EqDecision Anchor.
Proof. solve_decision. Defined.

Record SelectionRange := mkRange { sr_start : Point; sr_end : Point; is_block : bool }.

(** [SelectionRange::new]. *)
Definition selection_range_new (start end_ : Point) (block : bool) : exec SelectionRange :=
  _ ← assert_ (point_le start end_);
  mret (mkRange start end_ block).

(** [SelectionRange::contains]. *)
Definition range_contains (r : SelectionRange) (p : Point) : bool :=
  (line (sr_start r) <=? line p)
  && (line p <=? line (sr_end r))
  && ((column (sr_start r) <=? column p)
      || (negb (line (sr_start r) =? line p) && negb (is_block r)))
  && ((column p <=? column (sr_end r))
      || (negb (line (sr_end r) =? line p) && negb (is_block r))).

(** [SelectionRange::contains_cell], for the cell [cell] at [at_]. *)
Definition contains_cell (r : SelectionRange) (at_ : Point) (cell : Cell) (p : Point)
    (sh : CursorShape) : exec bool :=
  if bool_decide (sh = Block) && bool_decide (p = at_)
     && (bool_decide (sr_start r = at_) || bool_decide (sr_end r = at_)
         || (is_block r
             && (((line (sr_start r) =? line at_) && (column (sr_end r) =? column at_))
                 || ((line (sr_end r) =? line at_) && (column (sr_start r) =? column at_)))))
  then mret false
  else if range_contains r at_ then mret true
  else if Bitflags.contains (flags cell) Flags.WIDE_CHAR then
    col ← usize_add (column at_) 1;
    mret (range_contains r (mkPoint (line at_) col))
  else mret false.

Inductive SelectionType := Simple | BlockType | Semantic | Lines.

#[global] Instance SelectionType_eq_dec : EqDecision SelectionType.
Proof. solve_decision. Defined.

Record Selection := mkSelection { ty : SelectionType; region_start : Anchor; region_end : Anchor }.

Definition selection_new (t : SelectionType) (location : Point) (side : Side) : Selection :=
  mkSelection t (mkAnchor location side) (mkAnchor location side).

Definition selection_update (s : Selection) (p : Point) (side : Side) : Selection :=
  mkSelection (ty s) (region_start s) (mkAnchor p side).

(** The anchors with the smaller point first, and whether they were exchanged. *)
Definition ordered (s : Selection) : Anchor * Anchor * bool :=
  if point_gt (a_point (region_start s)) (a_point (region_end s))
  then (region_end s, region_start s, true)
  else (region_start s, region_end s, false).

(** The selection whose ordered anchors are [start] and [end_]. *)
Definition with_ordered (s : Selection) (start end_ : Anchor) (swapped : bool) : Selection :=
  if swapped then mkSelection (ty s) end_ start else mkSelection (ty s) start end_.

Definition anchor_at_line (a : Anchor) (l : Z) : Anchor :=
  mkAnchor (mkPoint l (column (a_point a))) (a_side a).

Section rotate.
Context {D : Type} `{Dimensions D}.

(** [Selection::rotate]; the range is [range_top..range_bottom]. *)
Definition selection_rotate (s : Selection) (d : D) (range_top range_bottom delta : Z)
    : exec (option Selection) :=
  bottommost_line ← bottommost_line d;
  let '(start, end_, swapped) := ordered s in
  let in_region l := ((range_top <=? l) || (range_top =? 0)) && (l <? range_bottom) in
  start' ←
    (if in_region (line (a_point start)) then
       l ← i32_sub (line (a_point start)) delta;
       let l := Z.min l bottommost_line in
       if (range_bottom <=? l) && (line (a_point end_) <? range_bottom) then mret None
       else if (l <? range_top) && negb (range_top =? 0) then
         if bool_decide (ty s ≠ BlockType)
         then mret (Some (mkAnchor (mkPoint range_top 0) Left))
         else mret (Some (anchor_at_line start range_top))
       else mret (Some (anchor_at_line start l))
     else mret (Some start));
  match start' with
  | None => mret None
  | Some start =>
      end' ←
        (if in_region (line (a_point end_)) then
           l ← i32_sub (line (a_point end_)) delta;
           let l := Z.min l bottommost_line in
           if l <? line (a_point start) then mret None
           else if range_bottom <=? l then
             last ← i32_sub range_bottom 1;
             if bool_decide (ty s ≠ BlockType) then
               last_col ← last_column d;
               mret (Some (mkAnchor (mkPoint last last_col) Right))
             else mret (Some (anchor_at_line end_ last))
           else mret (Some (anchor_at_line end_ l))
         else mret (Some end_));
      match end' with
      | None => mret None
      | Some end_ => mret (Some (with_ordered s start end_ swapped))
      end
  end.
End rotate.

(** [column + 1 == other]; the addition may overflow. *)
Definition selection_is_empty (s : Selection) : exec bool :=
  match ty s with
  | Simple =>
      let '(start, end_, _) := ordered s in
      if bool_decide (start = end_) then mret true
      else if bool_decide (a_side start = Right) && bool_decide (a_side end_ = Left)
              && (line (a_point start) =? line (a_point end_)) then
        x ← usize_add (column (a_point start)) 1;
        mret (x =? column (a_point end_))
      else mret false
  | BlockType =>
      let start := region_start s in
      let end_ := region_end s in
      let c1 := column (a_point start) in
      let c2 := column (a_point end_) in
      if (c1 =? c2) && bool_decide (a_side start = a_side end_) then mret true
      else
        x ← usize_add c1 1;
        if (x =? c2) && bool_decide (a_side start = Right) && bool_decide (a_side end_ = Left)
        then mret true
        else
          y ← usize_add c2 1;
          mret ((y =? c1) && bool_decide (a_side start = Left) && bool_decide (a_side end_ = Right))
  | Semantic | Lines => mret false
  end.

Definition intersects_range (s : Selection) (lo hi : Bound) : exec bool :=
  let a := line (a_point (region_start s)) in
  let b := line (a_point (region_end s)) in
  let '(start, end_) := if b <? a then (b, a) else (a, b) in
  range_top ← match lo with
    | Included l => mret l
    | Excluded l => i32_add l 1
    | Unbounded => mret i32_min
    end;
  range_bottom ← match hi with
    | Included l => mret l
    | Excluded l => i32_sub l 1
    | Unbounded => mret i32_max
    end;
  mret ((start <=? range_bottom) && (range_top <=? end_)).

Definition include_all (s : Selection) : Selection :=
  let start := a_point (region_start s) in
  let end_ := a_point (region_end s) in
  let backwards :=
    match ty s with
    | BlockType => (column end_ <? column start)
                   || ((column start =? column end_) && (line end_ <? line start))
    | _ => point_gt start end_
    end in
  let '(start_side, end_side) := if (backwards : bool) then (Right, Left) else (Left, Right) in
  mkSelection (ty s) (mkAnchor start start_side) (mkAnchor end_ end_side).

Definition range_simple (s : Selection) (start end_ : Anchor) (columns : Z)
    : exec (option SelectionRange) :=
  empty ← selection_is_empty s;
  if (empty : bool) then mret None
  else
    e ← (if bool_decide (a_side end_ = Left) && bool_decide (a_point start ≠ a_point end_) then
           if column (a_point end_) =? 0 then
             last_col ← usize_sub columns 1;
             l ← i32_sub (line (a_point end_)) 1;
             mret (mkPoint l last_col)
           else
             c ← usize_sub (column (a_point end_)) 1;
             mret (mkPoint (line (a_point end_)) c)
         else mret (a_point end_));
    b ← (if bool_decide (a_side start = Right) && bool_decide (a_point start ≠ e) then
           c ← usize_add (column (a_point start)) 1;
           if c =? columns then
             l ← i32_add (line (a_point start)) 1;
             mret (mkPoint l 0)
           else mret (mkPoint (line (a_point start)) c)
         else mret (a_point start));
    mret (Some (mkRange b e false)).

Definition range_block (s : Selection) (start end_ : Anchor) : exec (option SelectionRange) :=
  empty ← selection_is_empty s;
  if (empty : bool) then mret None
  else
    let l1 := line (a_point start) in
    let l2 := line (a_point end_) in
    let '(c1, s1, c2, s2) :=
      if column (a_point end_) <? column (a_point start)
      then (column (a_point end_), a_side end_, column (a_point start), a_side start)
      else (column (a_point start), a_side start, column (a_point end_), a_side end_) in
    c2 ← (if bool_decide (s2 = Left) && bool_decide (mkPoint l1 c1 ≠ mkPoint l2 c2) && (0 <? c2)
          then usize_sub c2 1 else mret c2);
    c1 ← (if bool_decide (s1 = Right) && bool_decide (mkPoint l1 c1 ≠ mkPoint l2 c2)
          then usize_add c1 1 else mret c1);
    mret (Some (mkRange (mkPoint l1 c1) (mkPoint l2 c2) true)).
