(* ===== verification/Term.v ===== *)
(** * The terminal (alacritty_terminal/src/term/mod.rs, event.rs, term/color.rs)

    The state of the terminal and the operations of [Term] apart from the escape
    sequence handler (Handler.v) and the searches (Search.v, ViMode.v).  The
    event proxy is the list of the events that were sent, in order; the static
    counter for hyperlink ids is a field of the state. *)

From S2P Require Import Prelude Index Ansi GridCell Row Storage Cell Grid Resize Selection.
#[local] Open Scope Z_scope.

Definition MIN_COLUMNS : Z := 2.
Definition MIN_SCREEN_LINES : Z := 1.
Definition TITLE_STACK_MAX_DEPTH : Z := 4096.
Definition KEYBOARD_MODE_STACK_MAX_DEPTH : Z := TITLE_STACK_MAX_DEPTH.
Definition INITIAL_TABSTOPS : Z := 8.

(** The characters of the string literal [SEMANTIC_ESCAPE_CHARS]. *)
Definition SEMANTIC_ESCAPE_CHARS : text :=
  [44; 9474; 96; 124; 58; 34; 39; 32; 40; 41; 91; 93; 123; 125; 60; 62; 9].

(** The bits of [TermMode], a [u32]. *)
Module TermMode.
Definition NONE : Z := 0.
Definition SHOW_CURSOR : Z := 1.
Definition APP_CURSOR : Z := Z.shiftl 1 1.
Definition APP_KEYPAD : Z := Z.shiftl 1 2.
Definition MOUSE_REPORT_CLICK : Z := Z.shiftl 1 3.
Definition BRACKETED_PASTE : Z := Z.shiftl 1 4.
Definition SGR_MOUSE : Z := Z.shiftl 1 5.
Definition MOUSE_MOTION : Z := Z.shiftl 1 6.
Definition LINE_WRAP : Z := Z.shiftl 1 7.
Definition LINE_FEED_NEW_LINE : Z := Z.shiftl 1 8.
Definition ORIGIN : Z := Z.shiftl 1 9.
Definition INSERT : Z := Z.shiftl 1 10.
Definition FOCUS_IN_OUT : Z := Z.shiftl 1 11.
Definition ALT_SCREEN : Z := Z.shiftl 1 12.
Definition MOUSE_DRAG : Z := Z.shiftl 1 13.
Definition UTF8_MOUSE : Z := Z.shiftl 1 14.
Definition ALTERNATE_SCROLL : Z := Z.shiftl 1 15.
Definition VI : Z := Z.shiftl 1 16.
Definition URGENCY_HINTS : Z := Z.shiftl 1 17.
Definition DISAMBIGUATE_ESC_CODES : Z := Z.shiftl 1 18.
Definition REPORT_EVENT_TYPES : Z := Z.shiftl 1 19.
Definition REPORT_ALTERNATE_KEYS : Z := Z.shiftl 1 20.
Definition REPORT_ALL_KEYS_AS_ESC : Z := Z.shiftl 1 21.
Definition REPORT_ASSOCIATED_TEXT : Z := Z.shiftl 1 22.
Definition MOUSE_MODE : Z := Z.lor (Z.lor MOUSE_REPORT_CLICK MOUSE_MOTION) MOUSE_DRAG.
Definition KITTY_KEYBOARD_PROTOCOL : Z :=
  Z.lor (Z.lor (Z.lor (Z.lor DISAMBIGUATE_ESC_CODES REPORT_EVENT_TYPES) REPORT_ALTERNATE_KEYS)
    REPORT_ALL_KEYS_AS_ESC) REPORT_ASSOCIATED_TEXT.

(** [TermMode::default()]. *)
Definition default : Z :=
  Z.lor (Z.lor (Z.lor SHOW_CURSOR LINE_WRAP) ALTERNATE_SCROLL) URGENCY_HINTS.
End TermMode.

(** ** Viewport coordinates *)

(** [point_to_viewport]; [usize::try_from] fails on negative lines. *)
Definition point_to_viewport (display_offset : Z) (p : Point) : exec (option Point) :=
  viewport_line ← i32_add (line p) (as_i32 display_offset);
  mret (if 0 <=? viewport_line then Some (mkPoint viewport_line (column p)) else None).

Definition viewport_to_point (display_offset : Z) (p : Point) : exec Point :=
  l ← line_sub_usize (as_i32 (line p)) display_offset;
  mret (mkPoint l (column p)).

(** ** Damage *)

Record LineDamageBounds := mkBounds { d_line : Z; d_left : Z; d_right : Z }.

Definition undamaged (line num_cols : Z) : LineDamageBounds := mkBounds line num_cols 0.
Definition bounds_reset (num_cols : Z) (b : LineDamageBounds) : LineDamageBounds :=
  undamaged (d_line b) num_cols.
Definition bounds_expand (left right : Z) (b : LineDamageBounds) : LineDamageBounds :=
  mkBounds (d_line b) (Z.min (d_left b) left) (Z.max (d_right b) right).
Definition is_damaged (b : LineDamageBounds) : bool := d_left b <=? d_right b.

Record TermDamageState := mkDamage {
  d_full : bool;
  d_lines : list LineDamageBounds;
  d_last_cursor : Point }.

(** [(0..num_lines).map(|line| LineDamageBounds::undamaged(line, num_cols))]. *)
Definition undamaged_lines (num_cols num_lines : Z) : list LineDamageBounds :=
  (λ i, undamaged (Z.of_nat i) num_cols) <$> seq 0 (Z.to_nat num_lines).

Definition damage_new (num_cols num_lines : Z) : TermDamageState :=
  mkDamage true (undamaged_lines num_cols num_lines) default_point.

Definition damage_resize (d : TermDamageState) (num_cols num_lines : Z) : TermDamageState :=
  mkDamage true (undamaged_lines num_cols num_lines) default_point.

Definition state_damage_line (d : TermDamageState) (line left right : Z) : exec TermDamageState :=
  lines ← vec_modify (d_lines d) line (bounds_expand left right);
  mret (mkDamage (d_full d) lines (d_last_cursor d)).

Definition state_damage_point (d : TermDamageState) (p : Point) : exec TermDamageState :=
  state_damage_line d (line p) (column p) (column p).

Definition state_reset (d : TermDamageState) (num_cols : Z) : TermDamageState :=
  mkDamage false (bounds_reset num_cols <$> d_lines d) (d_last_cursor d).

Inductive TermDamage := FullDamage | PartialDamage (lines : list LineDamageBounds).

(** The items of [TermDamageIterator::new(lines, display_offset)]. *)
Fixpoint damage_items (lines : list LineDamageBounds) (display_offset : Z)
    : exec (list LineDamageBounds) :=
  match lines with
  | [] => mret []
  | b :: lines =>
      (** [then_some] evaluates its argument for undamaged lines, too. *)
      n ← usize_add (d_line b) display_offset;
      rest ← damage_items lines display_offset;
      mret (if is_damaged b then mkBounds n (d_left b) (d_right b) :: rest else rest)
  end.

Definition damage_iterator (lines : list LineDamageBounds) (display_offset : Z)
    : exec (list LineDamageBounds) :=
  damage_items (take (Z.to_nat (saturating_sub (zlen lines) display_offset)) lines) display_offset.

(** ** Tab stops *)

Definition tabs_new (columns : Z) : list bool :=
  (λ i, Z.of_nat i mod INITIAL_TABSTOPS =? 0) <$> seq 0 (Z.to_nat columns).

(** [ptr::write_bytes(ptr, 0, len)]. *)
Definition tabs_clear_all (tabs : list bool) : list bool := replicate (length tabs) false.

(** [resize_with], the closure counts on from the old length. *)
Definition tabs_resize (tabs : list bool) (columns : Z) : list bool :=
  take (Z.to_nat columns) tabs ++
  ((λ i, Z.of_nat i mod INITIAL_TABSTOPS =? 0)
     <$> seq (length tabs) (Z.to_nat (columns - zlen tabs))).

(** ** Colors *)

Definition COUNT : Z := 269.
Definition colors_default : list (option Rgb) := replicate (Z.to_nat COUNT) None.

(** ** Events *)

Inductive ClipboardType := Clipboard | SelectionClipboard.

Record WindowSize := mkWindowSize {
  num_lines : Z; num_cols : Z; cell_width : Z; cell_height : Z }.

Inductive Event :=
  | MouseCursorDirty
  | Title (s : text)
  | ResetTitle
  | ClipboardStore (ty : ClipboardType) (s : text)
  | ClipboardLoad (ty : ClipboardType) (f : text → text)
  | ColorRequest (index : Z) (f : Rgb → text)
  | PtyWrite (s : text)
  | TextAreaSizeRequest (f : WindowSize → exec text)
  | CursorBlinkingChange
  | Wakeup
  | Bell
  | Exit
  | ChildExit (status : Z).

(** ** Configuration *)

Inductive Osc52 := Osc52Disabled | OnlyCopy | OnlyPaste | CopyPaste.

Record Config := mkConfig {
  scrolling_history : Z;
  default_cursor_style : CursorStyle;
  vi_mode_cursor_style : option CursorStyle;
  semantic_escape_chars : text;
  kitty_keyboard : bool;
  osc52 : Osc52 }.

(** [Range<Line>]. *)
Record LineRange := mkLines { r_start : Z; r_end : Z }.
Definition range_has (r : LineRange) (l : Z) : bool := (r_start r <=? l) && (l <? r_end r).

Section term.
Context `{Ansi}.

Definition config_default : Config :=
  mkConfig 10000 cursor_style_default None SEMANTIC_ESCAPE_CHARS false OnlyCopy.

(** [From<KeyboardModes> for TermMode]. *)
Definition term_mode_of (value : Z) : Z :=
  let mode := TermMode.NONE in
  let mode := Bitflags.set mode TermMode.DISAMBIGUATE_ESC_CODES
                (Bitflags.contains value KM_DISAMBIGUATE_ESC_CODES) in
  let mode := Bitflags.set mode TermMode.REPORT_EVENT_TYPES
                (Bitflags.contains value KM_REPORT_EVENT_TYPES) in
  let mode := Bitflags.set mode TermMode.REPORT_ALTERNATE_KEYS
                (Bitflags.contains value KM_REPORT_ALTERNATE_KEYS) in
  let mode := Bitflags.set mode TermMode.REPORT_ALL_KEYS_AS_ESC
                (Bitflags.contains value KM_REPORT_ALL_KEYS_AS_ESC) in
  Bitflags.set mode TermMode.REPORT_ASSOCIATED_TEXT
    (Bitflags.contains value KM_REPORT_ASSOCIATED_TEXT).

Record Term := mkTerm {
  t_is_focused : bool;
  t_vi_mode_cursor : Point;
  t_selection : option Selection;
  t_grid : Grid Cell;
  t_inactive_grid : Grid Cell;
  t_active_charset : CharsetIndex;
  t_tabs : list bool;
  t_mode : Z;
  t_scroll_region : LineRange;
  t_colors : list (option Rgb);
  t_cursor_style : option CursorStyle;
  t_events : list Event;
  t_title : option text;
  t_title_stack : list (option text);
  t_keyboard_mode_stack : list Z;
  t_inactive_keyboard_mode_stack : list Z;
  t_damage : TermDamageState;
  t_config : Config;
  t_hyperlink_suffix : Z }.

(** Field updates. *)
Definition upd_is_focused (x : bool) (t : Term) : Term :=
  mkTerm x (t_vi_mode_cursor t) (t_selection t) (t_grid t) (t_inactive_grid t) (t_active_charset
    t) (t_tabs t) (t_mode t) (t_scroll_region t) (t_colors t) (t_cursor_style t) (t_events t)
    (t_title t) (t_title_stack t) (t_keyboard_mode_stack t) (t_inactive_keyboard_mode_stack t)
    (t_damage t) (t_config t) (t_hyperlink_suffix t).
Definition upd_vi_mode_cursor (x : Point) (t : Term) : Term :=
  mkTerm (t_is_focused t) x (t_selection t) (t_grid t) (t_inactive_grid t) (t_active_charset t)
    (t_tabs t) (t_mode t) (t_scroll_region t) (t_colors t) (t_cursor_style t) (t_events t)
    (t_title t) (t_title_stack t) (t_keyboard_mode_stack t) (t_inactive_keyboard_mode_stack t)
    (t_damage t) (t_config t) (t_hyperlink_suffix t).
Definition upd_selection (x : option Selection) (t : Term) : Term :=
  mkTerm (t_is_focused t) (t_vi_mode_cursor t) x (t_grid t) (t_inactive_grid t)
    (t_active_charset t) (t_tabs t) (t_mode t) (t_scroll_region t) (t_colors t) (t_cursor_style
    t) (t_events t) (t_title t) (t_title_stack t) (t_keyboard_mode_stack t)
    (t_inactive_keyboard_mode_stack t) (t_damage t) (t_config t) (t_hyperlink_suffix t).
Definition upd_grid (x : Grid Cell) (t : Term) : Term :=
  mkTerm (t_is_focused t) (t_vi_mode_cursor t) (t_selection t) x (t_inactive_grid t)
    (t_active_charset t) (t_tabs t) (t_mode t) (t_scroll_region t) (t_colors t) (t_cursor_style
    t) (t_events t) (t_title t) (t_title_stack t) (t_keyboard_mode_stack t)
    (t_inactive_keyboard_mode_stack t) (t_damage t) (t_config t) (t_hyperlink_suffix t).
Definition upd_inactive_grid (x : Grid Cell) (t : Term) : Term :=
  mkTerm (t_is_focused t) (t_vi_mode_cursor t) (t_selection t) (t_grid t) x (t_active_charset t)
    (t_tabs t) (t_mode t) (t_scroll_region t) (t_colors t) (t_cursor_style t) (t_events t)
    (t_title t) (t_title_stack t) (t_keyboard_mode_stack t) (t_inactive_keyboard_mode_stack t)
    (t_damage t) (t_config t) (t_hyperlink_suffix t).
Definition upd_active_charset (x : CharsetIndex) (t : Term) : Term :=
  mkTerm (t_is_focused t) (t_vi_mode_cursor t) (t_selection t) (t_grid t) (t_inactive_grid t) x
    (t_tabs t) (t_mode t) (t_scroll_region t) (t_colors t) (t_cursor_style t) (t_events t)
    (t_title t) (t_title_stack t) (t_keyboard_mode_stack t) (t_inactive_keyboard_mode_stack t)
    (t_damage t) (t_config t) (t_hyperlink_suffix t).
Definition upd_tabs (x : list bool) (t : Term) : Term :=
  mkTerm (t_is_focused t) (t_vi_mode_cursor t) (t_selection t) (t_grid t) (t_inactive_grid t)
    (t_active_charset t) x (t_mode t) (t_scroll_region t) (t_colors t) (t_cursor_style t)
    (t_events t) (t_title t) (t_title_stack t) (t_keyboard_mode_stack t)
    (t_inactive_keyboard_mode_stack t) (t_damage t) (t_config t) (t_hyperlink_suffix t).
Definition upd_mode (x : Z) (t : Term) : Term :=
  mkTerm (t_is_focused t) (t_vi_mode_cursor t) (t_selection t) (t_grid t) (t_inactive_grid t)
    (t_active_charset t) (t_tabs t) x (t_scroll_region t) (t_colors t) (t_cursor_style t)
    (t_events t) (t_title t) (t_title_stack t) (t_keyboard_mode_stack t)
    (t_inactive_keyboard_mode_stack t) (t_damage t) (t_config t) (t_hyperlink_suffix t).
Definition upd_scroll_region (x : LineRange) (t : Term) : Term :=
  mkTerm (t_is_focused t) (t_vi_mode_cursor t) (t_selection t) (t_grid t) (t_inactive_grid t)
    (t_active_charset t) (t_tabs t) (t_mode t) x (t_colors t) (t_cursor_style t) (t_events t)
    (t_title t) (t_title_stack t) (t_keyboard_mode_stack t) (t_inactive_keyboard_mode_stack t)
    (t_damage t) (t_config t) (t_hyperlink_suffix t).
Definition upd_colors (x : list (option Rgb)) (t : Term) : Term :=
  mkTerm (t_is_focused t) (t_vi_mode_cursor t) (t_selection t) (t_grid t) (t_inactive_grid t)
    (t_active_charset t) (t_tabs t) (t_mode t) (t_scroll_region t) x (t_cursor_style t)
    (t_events t) (t_title t) (t_title_stack t) (t_keyboard_mode_stack t)
    (t_inactive_keyboard_mode_stack t) (t_damage t) (t_config t) (t_hyperlink_suffix t).
Definition upd_cursor_style (x : option CursorStyle) (t : Term) : Term :=
  mkTerm (t_is_focused t) (t_vi_mode_cursor t) (t_selection t) (t_grid t) (t_inactive_grid t)
    (t_active_charset t) (t_tabs t) (t_mode t) (t_scroll_region t) (t_colors t) x (t_events t)
    (t_title t) (t_title_stack t) (t_keyboard_mode_stack t) (t_inactive_keyboard_mode_stack t)
    (t_damage t) (t_config t) (t_hyperlink_suffix t).
Definition upd_events (x : list Event) (t : Term) : Term :=
  mkTerm (t_is_focused t) (t_vi_mode_cursor t) (t_selection t) (t_grid t) (t_inactive_grid t)
    (t_active_charset t) (t_tabs t) (t_mode t) (t_scroll_region t) (t_colors t) (t_cursor_style
    t) x (t_title t) (t_title_stack t) (t_keyboard_mode_stack t) (t_inactive_keyboard_mode_stack
    t) (t_damage t) (t_config t) (t_hyperlink_suffix t).
Definition upd_title (x : option text) (t : Term) : Term :=
  mkTerm (t_is_focused t) (t_vi_mode_cursor t) (t_selection t) (t_grid t) (t_inactive_grid t)
    (t_active_charset t) (t_tabs t) (t_mode t) (t_scroll_region t) (t_colors t) (t_cursor_style
    t) (t_events t) x (t_title_stack t) (t_keyboard_mode_stack t)
    (t_inactive_keyboard_mode_stack t) (t_damage t) (t_config t) (t_hyperlink_suffix t).
Definition upd_title_stack (x : list (option text)) (t : Term) : Term :=
  mkTerm (t_is_focused t) (t_vi_mode_cursor t) (t_selection t) (t_grid t) (t_inactive_grid t)
    (t_active_charset t) (t_tabs t) (t_mode t) (t_scroll_region t) (t_colors t) (t_cursor_style
    t) (t_events t) (t_title t) x (t_keyboard_mode_stack t) (t_inactive_keyboard_mode_stack t)
    (t_damage t) (t_config t) (t_hyperlink_suffix t).
Definition upd_keyboard_mode_stack (x : list Z) (t : Term) : Term :=
  mkTerm (t_is_focused t) (t_vi_mode_cursor t) (t_selection t) (t_grid t) (t_inactive_grid t)
    (t_active_charset t) (t_tabs t) (t_mode t) (t_scroll_region t) (t_colors t) (t_cursor_style
    t) (t_events t) (t_title t) (t_title_stack t) x (t_inactive_keyboard_mode_stack t) (t_damage
    t) (t_config t) (t_hyperlink_suffix t).
Definition upd_inactive_keyboard_mode_stack (x : list Z) (t : Term) : Term :=
  mkTerm (t_is_focused t) (t_vi_mode_cursor t) (t_selection t) (t_grid t) (t_inactive_grid t)
    (t_active_charset t) (t_tabs t) (t_mode t) (t_scroll_region t) (t_colors t) (t_cursor_style
    t) (t_events t) (t_title t) (t_title_stack t) (t_keyboard_mode_stack t) x (t_damage t)
    (t_config t) (t_hyperlink_suffix t).
Definition upd_damage (x : TermDamageState) (t : Term) : Term :=
  mkTerm (t_is_focused t) (t_vi_mode_cursor t) (t_selection t) (t_grid t) (t_inactive_grid t)
    (t_active_charset t) (t_tabs t) (t_mode t) (t_scroll_region t) (t_colors t) (t_cursor_style
    t) (t_events t) (t_title t) (t_title_stack t) (t_keyboard_mode_stack t)
    (t_inactive_keyboard_mode_stack t) x (t_config t) (t_hyperlink_suffix t).
Definition upd_config (x : Config) (t : Term) : Term :=
  mkTerm (t_is_focused t) (t_vi_mode_cursor t) (t_selection t) (t_grid t) (t_inactive_grid t)
    (t_active_charset t) (t_tabs t) (t_mode t) (t_scroll_region t) (t_colors t) (t_cursor_style
    t) (t_events t) (t_title t) (t_title_stack t) (t_keyboard_mode_stack t)
    (t_inactive_keyboard_mode_stack t) (t_damage t) x (t_hyperlink_suffix t).
Definition upd_hyperlink_suffix (x : Z) (t : Term) : Term :=
  mkTerm (t_is_focused t) (t_vi_mode_cursor t) (t_selection t) (t_grid t) (t_inactive_grid t)
    (t_active_charset t) (t_tabs t) (t_mode t) (t_scroll_region t) (t_colors t) (t_cursor_style
    t) (t_events t) (t_title t) (t_title_stack t) (t_keyboard_mode_stack t)
    (t_inactive_keyboard_mode_stack t) (t_damage t) (t_config t) x.

#[global] Instance Term_dimensions : Dimensions Term := {
  total_lines t := total_lines (t_grid t);
  screen_lines t := screen_lines (t_grid t);
  columns t := columns (t_grid t) }.

Implicit Types (t : Term).

Definition has_mode t (m : Z) : bool := Bitflags.contains (t_mode t) m.
Definition insert_mode (m : Z) t : Term := upd_mode (Bitflags.insert (t_mode t) m) t.
Definition remove_mode (m : Z) t : Term := upd_mode (Bitflags.remove (t_mode t) m) t.

(** [self.event_proxy.send_event(e)]. *)
Definition send_event (e : Event) t : Term := upd_events (t_events t ++ [e]) t.

(** [self.grid.f()] for an operation of the grid. *)
Definition on_grid (f : Grid Cell → exec (Grid Cell)) t : exec Term :=
  g ← f (t_grid t); mret (upd_grid g t).

Definition term_cursor t : Point := point (cursor (t_grid t)).
Definition term_template t : Cell := template (cursor (t_grid t)).

Definition set_cursor_point (p : Point) t : Term := upd_grid (goto_point (t_grid t) p) t.
Definition set_needs_wrap (b : bool) t : Term := upd_grid (set_wrap (t_grid t) b) t.
Definition set_template (x : Cell) t : Term :=
  upd_grid (with_cursor (t_grid t) (cursor_with_template (cursor (t_grid t)) x)) t.

Definition set_vi_line (l : Z) t : Term :=
  upd_vi_mode_cursor (mkPoint l (column (t_vi_mode_cursor t))) t.

(** ** Damage of the terminal *)

Definition mark_fully_damaged t : Term :=
  upd_damage (mkDamage true (d_lines (t_damage t)) (d_last_cursor (t_damage t))) t.

Definition damage_line (line left right : Z) t : exec Term :=
  d ← state_damage_line (t_damage t) line left right;
  mret (upd_damage d t).

Definition damage_cursor t : exec Term :=
  let p := term_cursor t in
  d ← state_damage_point (t_damage t) (mkPoint (as_usize (line p)) (column p));
  mret (upd_damage d t).

(** [Term::damage]. *)
Definition collect_damage t : exec (Term * TermDamage) :=
  let t := if has_mode t TermMode.INSERT then mark_fully_damaged t else t in
  let d := t_damage t in
  let previous_cursor := d_last_cursor d in
  let t := upd_damage (mkDamage (d_full d) (d_lines d) (term_cursor t)) t in
  if d_full (t_damage t) then mret (t, FullDamage)
  else
    t ← (if bool_decide (d_last_cursor (t_damage t) ≠ previous_cursor) then
           d ← state_damage_point (t_damage t)
                 (mkPoint (as_usize (line previous_cursor)) (column previous_cursor));
           mret (upd_damage d t)
         else mret t);
    t ← damage_cursor t;
    items ← damage_iterator (d_lines (t_damage t)) (display_offset (t_grid t));
    mret (t, PartialDamage items).

Definition reset_damage t : Term := upd_damage (state_reset (t_damage t) (columns t)) t.

(** ** Construction and options *)

(** [Term::new]; [suffix] is the value of the static counter at this time. *)
Definition term_new {D} `{Dimensions D} (config : Config) (dimensions : D) (suffix : Z)
    : exec Term :=
  let num_cols := columns dimensions in
  let num_lines := screen_lines dimensions in
  grid ← grid_new num_lines num_cols (scrolling_history config);
  inactive_grid ← grid_new num_lines num_cols 0;
  mret (mkTerm false default_point None grid inactive_grid charset_index_default
    (tabs_new (columns grid)) TermMode.default (mkLines 0 (as_i32 (screen_lines grid)))
    colors_default None [] None [] [] [] (damage_new num_cols num_lines) config suffix).

Definition set_options (options : Config) t : exec Term :=
  let old_config := t_config t in
  let t := upd_config options t in
  let t := send_event (match t_title t with Some s => Title s | None => ResetTitle end) t in
  t ← (if has_mode t TermMode.ALT_SCREEN then
         g ← update_history (t_inactive_grid t) (scrolling_history (t_config t));
         mret (upd_inactive_grid g t)
       else
         g ← update_history (t_grid t) (scrolling_history (t_config t));
         mret (upd_grid g t));
  let t := if negb (eqb (kitty_keyboard (t_config t)) (kitty_keyboard old_config)) then
             let t := upd_keyboard_mode_stack [] t in
             let t := upd_inactive_keyboard_mode_stack [] t in
             remove_mode TermMode.KITTY_KEYBOARD_PROTOCOL t
           else t in
  mret (mark_fully_damaged t).

(** [Term::set_keyboard_mode]; the first definition is its effect on the mode bits. *)
Definition keyboard_mode_bits (mode : Z) (apply : KeyboardModesApplyBehavior) (self_mode : Z) : Z :=
  let active_mode := Z.land self_mode TermMode.KITTY_KEYBOARD_PROTOCOL in
  let self_mode := Bitflags.remove self_mode TermMode.KITTY_KEYBOARD_PROTOCOL in
  let new_mode := match apply with
                  | Replace => mode
                  | Union => Z.lor active_mode mode
                  | Difference => Z.ldiff active_mode mode
                  end in
  Z.lor self_mode new_mode.

Definition apply_keyboard_mode (mode : Z) (apply : KeyboardModesApplyBehavior) t : Term :=
  upd_mode (keyboard_mode_bits mode apply (t_mode t)) t.

(** ** Vi mode cursor and display *)

(** [vi_mode_recompute_selection]. *)
Definition vi_mode_recompute_selection t : exec Term :=
  if negb (has_mode t TermMode.VI) then mret t
  else match t_selection t with
       | Some s =>
           empty ← selection_is_empty s;
           if (empty : bool) then mret t
           else
             let s := selection_update s (t_vi_mode_cursor t) Left in
             mret (upd_selection (Some (include_all s)) t)
       | None => mret t
       end.

Definition term_scroll_display (scroll : Scroll) t : exec Term :=
  let old_display_offset := display_offset (t_grid t) in
  t ← on_grid (λ g, scroll_display g scroll) t;
  let t := send_event MouseCursorDirty t in
  viewport_start ← i32_neg (as_i32 (display_offset (t_grid t)));
  bottom ← bottommost_line t;
  viewport_end ← i32_add viewport_start bottom;
  let t := set_vi_line (Z.min viewport_end (Z.max viewport_start (line (t_vi_mode_cursor t)))) t in
  t ← vi_mode_recompute_selection t;
  mret (if negb (old_display_offset =? display_offset (t_grid t))
        then mark_fully_damaged t else t).

Definition scroll_to_point (p : Point) t : exec Term :=
  let display_offset := as_i32 (display_offset (t_grid t)) in
  let screen_lines := as_i32 (screen_lines (t_grid t)) in
  top ← i32_neg display_offset;
  if line p <? top then
    lines ← i32_add (line p) display_offset;
    n ← i32_neg lines;
    term_scroll_display (Delta n) t
  else
    below ← i32_sub screen_lines display_offset;
    if below <=? line p then
      lines ← i32_add (line p) display_offset;
      lines ← i32_sub lines screen_lines;
      lines ← i32_add lines 1;
      n ← i32_neg lines;
      term_scroll_display (Delta n) t
    else mret t.

Definition toggle_vi_mode t : exec Term :=
  let t := upd_mode (Bitflags.toggle (t_mode t) TermMode.VI) t in
  t ← (if has_mode t TermMode.VI then
         let display_offset := as_i32 (display_offset (t_grid t)) in
         bottom ← bottommost_line t;
         last ← i32_sub bottom display_offset;
         if last <? line (term_cursor t) then
           l ← i32_neg display_offset;
           mret (upd_vi_mode_cursor (mkPoint l 0) t)
         else mret (upd_vi_mode_cursor (term_cursor t) t)
       else mret t);
  mret (send_event CursorBlinkingChange t).

Definition vi_goto_point (p : Point) t : exec Term :=
  t ← scroll_to_point p t;
  let t := upd_vi_mode_cursor p t in
  vi_mode_recompute_selection t.

(** [Term::expand_wide]. *)
Definition expand_wide t (p : Point) (direction : Direction) : exec Point :=
  cell ← grid_cell (t_grid t) p;
  let f := flags cell in
  match direction with
  | Right =>
      if Bitflags.contains f Flags.LEADING_WIDE_CHAR_SPACER then
        l ← i32_add (line p) 1;
        mret (mkPoint l 1)
      else if Bitflags.contains f Flags.WIDE_CHAR then
        c ← usize_add (column p) 1;
        last ← last_column t;
        mret (mkPoint (line p) (Z.min c last))
      else mret p
  | Left =>
      if Bitflags.intersects f (Z.lor Flags.WIDE_CHAR Flags.WIDE_CHAR_SPACER) then
        p ← (if Bitflags.contains f Flags.WIDE_CHAR_SPACER then
               c ← usize_sub (column p) 1; mret (mkPoint (line p) c)
             else mret p);
        prev ← point_sub p t BGrid 1;
        cell ← grid_cell (t_grid t) prev;
        mret (if Bitflags.contains (flags cell) Flags.LEADING_WIDE_CHAR_SPACER then prev else p)
      else mret p
  end.

(** [Term::cursor_style]. *)
Definition active_cursor_style t : CursorStyle :=
  let style := default (default_cursor_style (t_config t)) (t_cursor_style t) in
  if has_mode t TermMode.VI then default style (vi_mode_cursor_style (t_config t)) else style.

Definition exit t : Term := send_event Exit t.

(** ** Scrolling *)

(** [selection.take().and_then(|s| s.rotate(self, &region, delta))]. *)
Definition rotate_selection (top bottom delta : Z) t : exec Term :=
  match t_selection t with
  | Some s =>
      s' ← selection_rotate s (upd_selection None t) top bottom delta;
      mret (upd_selection s' t)
  | None => mret t
  end.

Definition scroll_down_relative (origin lines : Z) t : exec Term :=
  let region_start := r_start (t_scroll_region t) in
  let region_end := r_end (t_scroll_region t) in
  n ← i32_sub region_end region_start;
  let lines := Z.min lines (as_usize n) in
  n ← i32_sub region_end origin;
  let lines := Z.min lines (as_usize n) in
  delta ← i32_neg (as_i32 lines);
  t ← rotate_selection origin region_end delta t;
  let vi := line (t_vi_mode_cursor t) in
  t ← (if (origin <=? vi) && (vi <? region_end) then
         l ← line_add_usize vi lines;
         last ← i32_sub region_end 1;
         mret (set_vi_line (Z.min l last) t)
       else mret t);
  t ← on_grid (λ g, scroll_down g origin region_end lines) t;
  mret (mark_fully_damaged t).

Definition scroll_up_relative (origin lines : Z) t : exec Term :=
  let region_start := r_start (t_scroll_region t) in
  let region_end := r_end (t_scroll_region t) in
  n ← i32_sub region_end region_start;
  let lines := Z.min lines (as_usize n) in
  t ← rotate_selection origin region_end (as_i32 lines) t;
  t ← on_grid (λ g, scroll_up g origin region_end lines) t;
  viewport_top ← i32_neg (as_i32 (display_offset (t_grid t)));
  let top := if origin =? 0 then viewport_top else origin in
  let vi := line (t_vi_mode_cursor t) in
  t ← (if (top <=? vi) && (vi <? region_end) then
         l ← line_sub_usize vi lines;
         mret (set_vi_line (Z.max l top) t)
       else mret t);
  mret (mark_fully_damaged t).

(** ** Alternate screen and resize *)

Definition swap_alt t : exec Term :=
  t ← (if negb (has_mode t TermMode.ALT_SCREEN) then
         let c := cursor (t_grid t) in
         let t := upd_inactive_grid (with_cursor (t_inactive_grid t) c) t in
         let t := upd_grid (with_saved_cursor (t_grid t) c) t in
         g ← reset_region (t_inactive_grid t) Unbounded Unbounded;
         mret (upd_inactive_grid g t)
       else mret t);
  let stack := t_keyboard_mode_stack t in
  let inactive := t_inactive_keyboard_mode_stack t in
  let t := upd_keyboard_mode_stack inactive (upd_inactive_keyboard_mode_stack stack t) in
  let keyboard_mode := term_mode_of (default KM_NO_MODE (last (t_keyboard_mode_stack t))) in
  let t := apply_keyboard_mode keyboard_mode Replace t in
  let grid := t_grid t in
  let t := upd_inactive_grid grid (upd_grid (t_inactive_grid t) t) in
  let t := upd_mode (Bitflags.toggle (t_mode t) TermMode.ALT_SCREEN) t in
  let t := upd_selection None t in
  mret (mark_fully_damaged t).

(** [Term::resize]. *)
Definition term_resize {D} `{Dimensions D} (size : D) t : exec Term :=
  let old_cols := columns t in
  let old_lines := screen_lines t in
  let num_cols := columns size in
  let num_lines := screen_lines size in
  if (old_cols =? num_cols) && (old_lines =? num_lines) then mret t
  else
    let history_size := history_size t in
    delta ← i32_sub (as_i32 num_lines) (as_i32 old_lines);
    x ← i32_sub (as_i32 num_lines) (line (term_cursor t));
    x ← i32_sub x 1;
    let min_delta := Z.min 0 x in
    let delta := Z.min (Z.max delta min_delta) (as_i32 history_size) in
    l ← i32_add (line (t_vi_mode_cursor t)) delta;
    let t := set_vi_line l t in
    let is_alt := has_mode t TermMode.ALT_SCREEN in
    g ← grid_resize (t_grid t) (negb is_alt) num_lines num_cols;
    let t := upd_grid g t in
    g ← grid_resize (t_inactive_grid t) is_alt num_lines num_cols;
    let t := upd_inactive_grid g t in
    t ← (if negb (old_cols =? num_cols) then
           let t := upd_selection None t in
           mret (upd_tabs (tabs_resize (t_tabs t) num_cols) t)
         else match t_selection t with
              | Some s =>
                  let max_lines := as_i32 (Z.max num_lines old_lines) in
                  d ← i32_neg delta;
                  s' ← selection_rotate s (upd_selection None t) 0 max_lines d;
                  mret (upd_selection s' t)
              | None => mret t
              end);
    let vi_point := t_vi_mode_cursor t in
    viewport_top ← i32_neg (as_i32 (display_offset (t_grid t)));
    bottom ← bottommost_line t;
    viewport_bottom ← i32_add viewport_top bottom;
    last ← last_column t;
    let t := upd_vi_mode_cursor
               (mkPoint (Z.max (Z.min (line vi_point) viewport_bottom) viewport_top)
                  (Z.min (column vi_point) last)) t in
    let t := upd_scroll_region (mkLines 0 (as_i32 (screen_lines t))) t in
    mret (upd_damage (damage_resize (t_damage t) num_cols num_lines) t).
End term.
Arguments Term {_}.
Arguments has_mode : simpl never.
Arguments term_mode_of : simpl never.
Arguments keyboard_mode_bits : simpl never.
