(* ===== verification/TermFacts.v ===== *)
(** * The invariant of the terminal

    [term_wf] relates the parts of the state: both grids have the same size and
    are well-formed, the cursors are on the screen, the scrolling region, the tab
    stops and the damage tracking match the size.  The lemmas show that the
    operations of Term.v keep it and do not panic. *)

From S2P Require Import Prelude Index Ansi GridCell Row Storage Cell Grid GridFacts GridOps.
From S2P Require Import Resize Selection Term.
#[local] Open Scope Z_scope.

Section facts.
Context `{Ansi} (R : Row Cell → Prop).
Implicit Types (t : Term) (g : Grid Cell) (s : Selection).

(** ** The invariant *)

Definition cursor_ok g (cur : Cursor Cell) : Prop :=
  in_screen g (point cur) ∧ zlen (charsets cur) = 4.

Record grid_ok g : Prop := {
  go_wf : grid_wf R g;
  go_cursor : cursor_ok g (cursor g);
  go_saved : cursor_ok g (saved_cursor g) }.

Definition same_dims g (g' : Grid Cell) : Prop :=
  g_lines g' = g_lines g ∧ g_columns g' = g_columns g.

(** The lines of a selection: it moves up with the content, without a lower
    bound of its own; [B] bounds how far it got. *)
Definition anchor_in (B : Z) (a : Anchor) : Prop :=
  - B ≤ line (a_point a) ≤ 536870912 ∧ 0 ≤ column (a_point a) ≤ 1073741824.
Definition sel_in (B : Z) s : Prop := anchor_in B (region_start s) ∧ anchor_in B (region_end s).

(** One entry of the damage tracking per line of the screen, in order. *)
Definition damage_lines_ok (n : Z) (lines : list LineDamageBounds) : Prop :=
  zlen lines = n ∧ ∀ i b, zlookup lines i = Some b → d_line b = i.

(** The vi mode cursor may be outside of the screen. *)
Definition vi_ok (p : Point) : Prop :=
  -1073741824 ≤ line p ≤ 1073741824 ∧ 0 ≤ column p ≤ 1073741824.

Record term_wf (B : Z) t : Prop := {
  tw_grid : grid_ok (t_grid t);
  tw_inactive : grid_ok (t_inactive_grid t);
  tw_dims : same_dims (t_grid t) (t_inactive_grid t);
  tw_columns : MIN_COLUMNS ≤ columns t;
  tw_region : 0 ≤ r_start (t_scroll_region t) ≤ r_end (t_scroll_region t) ∧
              1 ≤ r_end (t_scroll_region t) ≤ screen_lines t;
  tw_tabs : zlen (t_tabs t) = columns t;
  tw_damage : damage_lines_ok (screen_lines t) (d_lines (t_damage t));
  tw_last_cursor : in_screen t (d_last_cursor (t_damage t));
  tw_colors : zlen (t_colors t) = COUNT;
  tw_vi : vi_ok (t_vi_mode_cursor t);
  tw_budget : 0 ≤ B ≤ 1073741824;
  tw_selection s : t_selection t = Some s → sel_in B s }.

(** The size is as before. *)
Definition same_size t (t' : Term) : Prop :=
  columns t' = columns t ∧ screen_lines t' = screen_lines t.

Lemma same_size_trans t1 t2 t3 : same_size t1 t2 → same_size t2 t3 → same_size t1 t3.
Proof. unfold same_size. intros [? ?] [? ?]. split; congruence. Qed.

Lemma sel_in_mono B B' s : B ≤ B' → sel_in B s → sel_in B' s.
Proof. unfold sel_in, anchor_in. intuition lia. Qed.

Lemma term_wf_mono B B' t : B ≤ B' ≤ 1073741824 → term_wf B t → term_wf B' t.
Proof.
  intros ? []. split; try done; [lia|]. intros s Hs. eapply sel_in_mono; [|by apply tw_selection0].
  lia.
Qed.

(** Bounds that hold on every well-formed terminal. *)
Lemma term_bounds B t :
  term_wf B t →
  2 ≤ g_columns (t_grid t) ≤ 1073741824 ∧ 1 ≤ g_lines (t_grid t) ≤ s_len (raw (t_grid t)) ∧
  g_lines (t_grid t) + max_scroll_limit (t_grid t) ≤ 536870912 ∧
  0 ≤ display_offset (t_grid t) ≤ max_scroll_limit (t_grid t) ∧
  s_len (raw (t_grid t)) ≤ 536870912 ∧
  0 ≤ line (term_cursor t) < g_lines (t_grid t) ∧ 0 ≤ column (term_cursor t) < g_columns (t_grid t).
Proof.
  intros [[W [[? ?] _] _] _ _ ? _ _ _ _ _ _ _]. pose proof W as [[P ? ? ? ? ?] ? ? ? ?].
  pose proof (rp_bound _ _ P). unfold MIN_COLUMNS in *. simpl in *. unfold term_cursor. lia.
Qed.

Lemma term_dims B t : term_wf B t → dims_ok t.
Proof. intros [[W _ _] _ _ _ _ _ _ _ _ _ _]. by apply (grid_dims R) in W. Qed.

Lemma term_bottommost B t : term_wf B t → bottommost_line t = Ok (g_lines (t_grid t) - 1).
Proof. intros W. by rewrite bottommost_line_ok by by eapply term_dims. Qed.

Lemma term_topmost B t : term_wf B t → topmost_line t = Ok (top_of t).
Proof. intros W. by rewrite topmost_line_ok by by eapply term_dims. Qed.

Lemma term_last_column B t : term_wf B t → last_column t = Ok (g_columns (t_grid t) - 1).
Proof. intros W. by rewrite last_column_ok by by eapply term_dims. Qed.

(** ** Updates *)

Lemma cursor_ok_dims g g' cur : same_dims g g' → cursor_ok g cur → cursor_ok g' cur.
Proof. unfold cursor_ok, in_screen; simpl. intros [-> ->]. done. Qed.

Lemma same_frame_dims g g' : same_frame g g' → same_dims g g'.
Proof. by intros (_ & _ & ? & ? & _). Qed.

Lemma grid_ok_frame g g' : grid_ok g → grid_wf R g' → same_frame g g' → grid_ok g'.
Proof.
  intros [W C S] W' F. pose proof (same_frame_dims _ _ F). destruct F as (Hc & Hs & _).
  split; [done| |]; rewrite ?Hc, ?Hs; by eapply cursor_ok_dims.
Qed.

Lemma same_dims_trans g1 g2 g3 : same_dims g1 g2 → same_dims g2 g3 → same_dims g1 g3.
Proof. unfold same_dims. intros [? ?] [? ?]. split; congruence. Qed.

Lemma same_dims_sym g1 g2 : same_dims g1 g2 → same_dims g2 g1.
Proof. by intros [? ?]. Qed.

Lemma upd_grid_wf B t g :
  term_wf B t → grid_ok g → same_dims (t_grid t) g → term_wf B (upd_grid g t).
Proof.
  intros [] Wg Hd. pose proof Hd as [Hl Hc].
  split; simpl in *; unfold in_screen in *; simpl in *; rewrite ?Hl, ?Hc; try done.
  eapply same_dims_trans; [by apply same_dims_sym|done].
Qed.

Lemma upd_grid_size t g : same_dims (t_grid t) g → same_size t (upd_grid g t).
Proof. by intros [? ?]. Qed.

Lemma upd_inactive_wf B t g :
  term_wf B t → grid_ok g → same_dims (t_inactive_grid t) g → term_wf B (upd_inactive_grid g t).
Proof.
  intros [] Wg Hd. split; simpl in *; try done. by eapply same_dims_trans.
Qed.

(** Updates that the invariant does not depend on. *)
Ltac wf_update := intros []; split; simpl in *; done.

Lemma upd_mode_wf B t m : term_wf B t → term_wf B (upd_mode m t).
Proof. wf_update. Qed.
Lemma upd_cursor_style_wf B t x : term_wf B t → term_wf B (upd_cursor_style x t).
Proof. wf_update. Qed.
Lemma upd_events_wf B t x : term_wf B t → term_wf B (upd_events x t).
Proof. wf_update. Qed.
Lemma upd_title_wf B t x : term_wf B t → term_wf B (upd_title x t).
Proof. wf_update. Qed.
Lemma upd_title_stack_wf B t x : term_wf B t → term_wf B (upd_title_stack x t).
Proof. wf_update. Qed.
Lemma upd_keyboard_mode_stack_wf B t x : term_wf B t → term_wf B (upd_keyboard_mode_stack x t).
Proof. wf_update. Qed.
Lemma upd_inactive_keyboard_mode_stack_wf B t x :
  term_wf B t → term_wf B (upd_inactive_keyboard_mode_stack x t).
Proof. wf_update. Qed.
Lemma upd_active_charset_wf B t x : term_wf B t → term_wf B (upd_active_charset x t).
Proof. wf_update. Qed.
Lemma upd_hyperlink_suffix_wf B t x : term_wf B t → term_wf B (upd_hyperlink_suffix x t).
Proof. wf_update. Qed.
Lemma upd_config_wf B t x : term_wf B t → term_wf B (upd_config x t).
Proof. wf_update. Qed.
Lemma send_event_wf B t e : term_wf B t → term_wf B (send_event e t).
Proof. apply upd_events_wf. Qed.
Lemma insert_mode_wf B t m : term_wf B t → term_wf B (insert_mode m t).
Proof. apply upd_mode_wf. Qed.
Lemma remove_mode_wf B t m : term_wf B t → term_wf B (remove_mode m t).
Proof. apply upd_mode_wf. Qed.
Lemma mark_fully_damaged_wf B t : term_wf B t → term_wf B (mark_fully_damaged t).
Proof. wf_update. Qed.
Lemma apply_keyboard_mode_wf B t m a : term_wf B t → term_wf B (apply_keyboard_mode m a t).
Proof. apply upd_mode_wf. Qed.

Lemma upd_selection_none_wf B t : term_wf B t → term_wf B (upd_selection None t).
Proof. wf_update. Qed.

Lemma upd_selection_wf B B' t o :
  term_wf B t → B ≤ B' ≤ 1073741824 → (∀ s, o = Some s → sel_in B' s) →
  term_wf B' (upd_selection o t).
Proof. intros W ? ?. eapply (term_wf_mono B B') in W; [|done]. by destruct W; split; simpl. Qed.

Lemma upd_vi_wf B t p :
  term_wf B t → vi_ok p → term_wf B (upd_vi_mode_cursor p t).
Proof. intros [] ?. by split; simpl. Qed.

Lemma set_vi_line_wf B t l :
  term_wf B t → -1073741824 ≤ l ≤ 1073741824 → term_wf B (set_vi_line l t).
Proof. intros W ?. apply upd_vi_wf; [done|]. split; [done|apply (tw_vi _ _ W)]. Qed.

Lemma upd_tabs_wf B t x : term_wf B t → zlen x = columns t → term_wf B (upd_tabs x t).
Proof. intros [] ?. by split; simpl. Qed.

Lemma upd_colors_wf B t x : term_wf B t → zlen x = COUNT → term_wf B (upd_colors x t).
Proof. intros [] ?. by split; simpl. Qed.

Lemma upd_region_wf B t a b :
  term_wf B t → 0 ≤ a ≤ b → 1 ≤ b ≤ screen_lines t → term_wf B (upd_scroll_region (mkLines a b) t).
Proof. intros [] ? ?. by split; simpl. Qed.

Lemma upd_damage_wf B t d :
  term_wf B t → damage_lines_ok (screen_lines t) (d_lines d) → in_screen t (d_last_cursor d) →
  term_wf B (upd_damage d t).
Proof. intros [] ? ?. by split; simpl. Qed.

Lemma set_cursor_point_wf B t p :
  term_wf B t → in_screen t p → term_wf B (set_cursor_point p t).
Proof.
  intros W Hp. apply upd_grid_wf; [done| |done]. destruct W as [[Wg [? ?] ?] _ _ _ _ _ _ _ _ _ _].
  split; [by apply with_cursor_wf|split; done|done].
Qed.

Lemma set_needs_wrap_wf B t b : term_wf B t → term_wf B (set_needs_wrap b t).
Proof.
  intros W. apply upd_grid_wf; [done| |done]. destruct W as [[Wg [? ?] ?] _ _ _ _ _ _ _ _ _ _].
  split; [by apply with_cursor_wf|split; done|done].
Qed.

Lemma set_template_wf B t x : term_wf B t → term_wf B (set_template x t).
Proof.
  intros W. apply upd_grid_wf; [done| |done]. destruct W as [[Wg [? ?] ?] _ _ _ _ _ _ _ _ _ _].
  split; [by apply with_cursor_wf|split; done|done].
Qed.

(** ** Damage *)

Lemma wp_damage_line B t l left right (Q : Term → Prop) :
  term_wf B t → 0 ≤ l < screen_lines t →
  (∀ d, term_wf B (upd_damage d t) → d_last_cursor d = d_last_cursor (t_damage t) →
     d_full d = d_full (t_damage t) →
     (∀ i, zlookup (d_lines d) i =
        if i =? l then bounds_expand left right <$> zlookup (d_lines (t_damage t)) i
        else zlookup (d_lines (t_damage t)) i) →
     Q (upd_damage d t)) →
  wp (damage_line l left right t) Q.
Proof.
  intros W Hl HQ. pose proof (tw_damage _ _ W) as [Hd Hn].
  unfold damage_line, state_damage_line. do 2 wp_step.
  apply wp_vec_modify; [lia|]. intros b Hb. do 2 wp_step. apply HQ; simpl; [|done|done|].
  - apply upd_damage_wf; [done|split; simpl; [by rewrite zlen_insert|]|apply W].
    intros i b'. rewrite zlookup_insert by lia. destruct (Z.eqb_spec i l) as [->|]; [|by apply Hn].
    intros [= <-]. simpl; by apply Hn.
  - intros i. rewrite zlookup_insert by lia. destruct (Z.eqb_spec i l) as [->|]; [|done].
    by rewrite Hb.
Qed.

Lemma damage_line_wf B t l left right :
  term_wf B t → 0 ≤ l < screen_lines t →
  wp (damage_line l left right t) (λ t', ∃ d, t' = upd_damage d t ∧ term_wf B t').
Proof. intros. apply (wp_damage_line B); [done..|]. intros d ? _ _ _. by exists d. Qed.

Lemma damage_cursor_line t :
  damage_cursor t =
  damage_line (as_usize (line (term_cursor t))) (column (term_cursor t)) (column (term_cursor t)) t.
Proof. done. Qed.

Lemma damage_cursor_wf B t :
  term_wf B t → wp (damage_cursor t) (λ t', ∃ d, t' = upd_damage d t ∧ term_wf B t').
Proof.
  intros W. pose proof (term_bounds B t W). rewrite damage_cursor_line. casts.
  apply damage_line_wf; [done|simpl; lia].
Qed.

(** ** Operations of the grid *)

Lemma wp_on_grid B t f (P : Grid Cell → Prop) (Q : Term → Prop) :
  term_wf B t → wp (f (t_grid t)) P →
  (∀ g, P g → grid_ok g ∧ same_dims (t_grid t) g) →
  (∀ g, P g → term_wf B (upd_grid g t) → Q (upd_grid g t)) →
  wp (on_grid f t) Q.
Proof.
  intros W Hf HP HQ. unfold on_grid. wp_step. eapply wp_mono; [done|]. intros g Hg. wp_step.
  destruct (HP g Hg). apply HQ; [done|]. by apply upd_grid_wf.
Qed.

(** The common case: the operation keeps everything but rows and offset. *)
Lemma wp_on_grid_frame B t f (P : Grid Cell → Prop) (Q : Term → Prop) :
  term_wf B t → wp (f (t_grid t)) P →
  (∀ g, P g → grid_wf R g ∧ same_frame (t_grid t) g) →
  (∀ g, P g → term_wf B (upd_grid g t) → Q (upd_grid g t)) →
  wp (on_grid f t) Q.
Proof.
  intros W Hf HP HQ. apply (wp_on_grid B) with (P := P); [done|done| |done].
  intros g Hg. destruct (HP g Hg) as [Wg F]. split; [|by apply same_frame_dims].
  eapply grid_ok_frame; [apply W|done|done].
Qed.

(** ** Selections *)

Lemma ordered_in B s :
  sel_in B s → let '(a, b, _) := ordered s in anchor_in B a ∧ anchor_in B b.
Proof. unfold ordered, sel_in. intros [? ?]. by destruct (point_gt _ _). Qed.

Lemma rotate_wf B t s top bottom delta :
  term_wf B t → sel_in B s → 0 ≤ top → bottom ≤ 536870912 → -536870912 ≤ delta ≤ 536870912 →
  wp (selection_rotate s t top bottom delta)
    (λ o, ∀ s', o = Some s' → sel_in (B + Z.max 0 delta) s').
Proof.
  intros W Hs Ht Hb Hd. pose proof (term_bounds B t W). pose proof (tw_budget _ _ W).
  unfold selection_rotate. rewrite (term_bottommost B) by done. cbn [mbind exec_bind].
  pose proof (ordered_in B s Hs) as Ho. destruct (ordered s) as [[a b] swapped].
  destruct Ho as [Ha Hb']. unfold anchor_in in *.
  wp_step. apply wp_mono with (Q := λ o, ∀ a', o = Some a' → anchor_in (B + Z.max 0 delta) a').
  { unfold anchor_in. repeat (wp_step; try lia);
      intros a' [= <-]; unfold anchor_at_line; simpl; lia. }
  intros [a'|] Ha'; [|wp_step; intros; congruence]. specialize (Ha' a' eq_refl).
  wp_step. apply wp_mono with (Q := λ o, ∀ b', o = Some b' → anchor_in (B + Z.max 0 delta) b').
  { rewrite (term_last_column B) by done. unfold anchor_in in *. cbn [mbind exec_bind].
    repeat (wp_step; try lia); intros b' [= <-]; unfold anchor_at_line; simpl; lia. }
  intros [b'|] Hb''; wp_step; [|intros; congruence]. specialize (Hb'' b' eq_refl).
  intros s' [= <-]. unfold with_ordered, sel_in. by destruct swapped.
Qed.

Lemma rotate_selection_wf B t top bottom delta :
  term_wf B t → 0 ≤ top → bottom ≤ 536870912 → -536870912 ≤ delta ≤ 536870912 →
  B + Z.max 0 delta ≤ 1073741824 →
  wp (rotate_selection top bottom delta t) (λ t', ∃ o, t' = upd_selection o t ∧
    term_wf (B + Z.max 0 delta) t').
Proof.
  intros W Ht Hb Hd HB. unfold rotate_selection. destruct (t_selection t) as [s|] eqn:Es.
  - wp_step. wp_use (rotate_wf B); [by apply upd_selection_none_wf|by apply (tw_selection _ _ W)|
      done..|]. intros o Ho. wp_step. exists o. split; [done|].
    eapply upd_selection_wf; [done|lia|done].
  - wp_step. exists None. split; [|eapply term_wf_mono; [|done]; lia].
    destruct t; simpl in *. by subst.
Qed.

(** ** Scrolling *)

(** Everything but the grid, the selection, the vi mode cursor and the damage. *)
Definition same_rest t (t' : Term) : Prop :=
  t_inactive_grid t' = t_inactive_grid t ∧ t_active_charset t' = t_active_charset t ∧
  t_tabs t' = t_tabs t ∧ t_mode t' = t_mode t ∧ t_scroll_region t' = t_scroll_region t ∧
  t_colors t' = t_colors t ∧ t_cursor_style t' = t_cursor_style t ∧ t_events t' = t_events t ∧
  t_title t' = t_title t ∧ t_title_stack t' = t_title_stack t ∧
  t_keyboard_mode_stack t' = t_keyboard_mode_stack t ∧
  t_inactive_keyboard_mode_stack t' = t_inactive_keyboard_mode_stack t ∧
  t_config t' = t_config t ∧ t_hyperlink_suffix t' = t_hyperlink_suffix t.

(** The lines a scroll of the region from [origin] moves. *)
Definition scroll_lines t (lines : Z) : Z :=
  Z.min lines (r_end (t_scroll_region t) - r_start (t_scroll_region t)).

Lemma scroll_up_any g start end_ p :
  grid_wf R g → 0 ≤ start ≤ end_ → end_ ≤ g_lines g → 0 ≤ p ≤ 536870912 →
  (start = 0 → p ≤ end_) →
  wp (scroll_up g start end_ p) (λ g', grid_wf R g' ∧ same_frame g g').
Proof.
  intros W Hs He Hp H0'. destruct (decide (start = 0)) as [->|].
  - wp_use (scroll_up_top_spec R); [done|lia|done|]. intros g' (? & [] & _). done.
  - wp_use (scroll_up_region_spec R); [done|lia..|]. intros g' (? & [] & _). done.
Qed.

Lemma scroll_up_relative_wf B t origin lines :
  term_wf B t → B + g_lines (t_grid t) ≤ 1073741824 → 0 ≤ lines →
  r_start (t_scroll_region t) ≤ origin ≤ r_end (t_scroll_region t) →
  wp (scroll_up_relative origin lines t) (λ t',
    term_wf (B + g_lines (t_grid t)) t' ∧ same_size t t' ∧ same_rest t t' ∧
    cursor (t_grid t') = cursor (t_grid t) ∧ saved_cursor (t_grid t') = saved_cursor (t_grid t) ∧
    d_full (t_damage t') = true ∧
    scroll_up (t_grid t) origin (r_end (t_scroll_region t)) (scroll_lines t lines)
      = Ok (t_grid t')).
Proof.
  intros W HB Hn Ho. pose proof (term_bounds B t W) as Hb. pose proof (tw_region _ _ W) as Hr.
  pose proof (tw_budget _ _ W) as Hbud. simpl in *. unfold scroll_up_relative. do 2 wp_step.
  casts. change (Z.min lines (_ - _)) with (scroll_lines t lines).
  assert (Hp : 0 ≤ scroll_lines t lines ≤ r_end (t_scroll_region t)) by (unfold scroll_lines; lia).
  assert (Hs : scroll_lines t lines ≤ g_lines (t_grid t)) by lia.
  set (p := scroll_lines t lines) in *. clearbody p. casts.
  wp_step. wp_use (rotate_selection_wf B); [done|lia..|]. intros t1 (o & -> & W1).
  eapply (term_wf_mono _ (B + g_lines (t_grid t))) in W1; [|lia].
  wp_step. pose proof (scroll_up_any (t_grid t) origin (r_end (t_scroll_region t)) p) as Hg.
  specialize (Hg (go_wf _ (tw_grid _ _ W)) ltac:(lia) ltac:(lia) ltac:(lia) ltac:(lia)).
  apply wp_exists in Hg as (g' & Eg & Wg & Fg).
  eapply (wp_on_grid_frame _ _ _ (λ g, g = g')); [done|simpl; by rewrite Eg|by intros ? ->|].
  intros ? -> W2. pose proof (term_bounds _ _ W2) as Hb2. pose proof (tw_vi _ _ W2) as [Hvl Hvc].
  pose proof (same_frame_dims _ _ Fg) as [Hl Hc]. pose proof Fg as (Hcur & Hsav & _).
  simpl in *. casts. do 2 wp_step.
  wp_step. eapply wp_mono with (Q := λ t', ∃ vi, t' = upd_vi_mode_cursor vi
    (upd_grid g' (upd_selection o t)) ∧ vi_ok vi).
  { unfold line_sub_usize. casts. destruct (Z.eqb_spec origin 0);
      (apply wp_if; intros E; [wp_steps|wp_steps];
       (eexists; split; [try done; by destruct t|split; simpl; lia])). }
  intros ? (vi & -> & Hvi). wp_step.
  split_and!; try done. apply mark_fully_damaged_wf. by apply upd_vi_wf.
Qed.

Lemma scroll_down_relative_wf B t origin lines :
  term_wf B t → 0 ≤ lines →
  r_start (t_scroll_region t) ≤ origin ≤ r_end (t_scroll_region t) →
  wp (scroll_down_relative origin lines t) (λ t',
    term_wf B t' ∧ same_size t t' ∧ same_rest t t' ∧
    cursor (t_grid t') = cursor (t_grid t) ∧ saved_cursor (t_grid t') = saved_cursor (t_grid t) ∧
    d_full (t_damage t') = true ∧
    scroll_down (t_grid t) origin (r_end (t_scroll_region t))
      (Z.min (scroll_lines t lines) (r_end (t_scroll_region t) - origin)) = Ok (t_grid t')).
Proof.
  intros W Hn Ho. pose proof (term_bounds B t W) as Hb. pose proof (tw_region _ _ W) as Hr.
  pose proof (tw_budget _ _ W) as Hbud. simpl in *. unfold scroll_down_relative. do 2 wp_step.
  casts. do 2 wp_step. casts.
  change (Z.min lines (_ - _)) with (scroll_lines t lines).
  set (p := Z.min (scroll_lines t lines) _).
  assert (Hp : 0 ≤ p ≤ g_lines (t_grid t)) by (unfold p, scroll_lines; lia).
  clearbody p. casts. do 2 wp_step.
  wp_step. wp_use (rotate_selection_wf B); [done|lia..|]. intros t1 (o & -> & W1).
  rewrite Z.max_l, Z.add_0_r in W1 by lia. pose proof (tw_vi _ _ W1) as [Hvl Hvc]. simpl in *.
  wp_step. eapply wp_mono with (Q := λ t', ∃ vi, t' = upd_vi_mode_cursor vi
    (upd_selection o t) ∧ vi_ok vi).
  { unfold line_add_usize. casts. apply wp_if; intros E; wp_steps;
      (eexists; split; [try done; by destruct t|split; simpl; lia]). }
  intros ? (vi & -> & Hvi). wp_step.
  pose proof (scroll_down_spec R (t_grid t) origin (r_end (t_scroll_region t)) p) as Hg.
  specialize (Hg (go_wf _ (tw_grid _ _ W)) ltac:(lia) ltac:(lia) ltac:(lia)).
  apply wp_exists in Hg as (g' & Eg & Wg & [Fg _ _ _ _ _]).
  eapply (wp_on_grid_frame B _ _ (λ g, g = g'));
    [by apply upd_vi_wf|simpl; by rewrite Eg|by intros ? ->|].
  intros ? -> W2. pose proof (same_frame_dims _ _ Fg) as [? ?]. pose proof Fg as (Hcur & Hsav & _).
  wp_step. split_and!; try done. by apply mark_fully_damaged_wf.
Qed.

(** ** The alternate screen *)

Lemma reset_region_all g :
  grid_wf R g →
  wp (reset_region g Unbounded Unbounded) (λ g', grid_wf R g' ∧ same_frame g g' ∧
    display_offset g' = display_offset g ∧ s_len (raw g') = s_len (raw g) ∧
    ∀ l, 0 ≤ l < g_lines g → ∃ r, g_line g' l = Some r ∧ is_reset R (template (cursor g)) r).
Proof.
  intros W. pose proof W as [[? ? ? ? ? ?] ? ? ? ?].
  wp_use (reset_region_spec R); [done|simpl; lia|simpl; lia|].
  intros g' (W' & F & ? & ? & Hb & _). split_and!; try done.
Qed.

(** [mem::swap(&mut self.grid, &mut self.inactive_grid)]. *)
Definition swap_grids t : Term := upd_inactive_grid (t_grid t) (upd_grid (t_inactive_grid t) t).

Lemma swap_grids_wf B t : term_wf B t → term_wf B (swap_grids t).
Proof.
  intros [Wg Wi [Hl Hc] ? ? ? ? ? ? ? ? ?].
  split; simpl in *; unfold in_screen in *; simpl in *; rewrite ?Hl, ?Hc; done.
Qed.

Lemma swap_grids_size B t : term_wf B t → same_size t (swap_grids t).
Proof. intros [_ _ [Hl Hc] _ _ _ _ _ _ _ _ _]. by split. Qed.

(** The alternate screen is given the cursor and is cleared. *)
Definition enter_alt t : exec Term :=
  if negb (has_mode t TermMode.ALT_SCREEN) then
    let c := cursor (t_grid t) in
    let t := upd_inactive_grid (with_cursor (t_inactive_grid t) c) t in
    let t := upd_grid (with_saved_cursor (t_grid t) c) t in
    g ← reset_region (t_inactive_grid t) Unbounded Unbounded;
    mret (upd_inactive_grid g t)
  else mret t.

Lemma enter_alt_wf B t :
  term_wf B t → has_mode t TermMode.ALT_SCREEN = false →
  wp (enter_alt t) (λ t', ∃ g,
    t' = upd_inactive_grid g (upd_grid (with_saved_cursor (t_grid t) (cursor (t_grid t))) t) ∧
    term_wf B t' ∧ same_dims (t_grid t) g ∧ cursor g = cursor (t_grid t) ∧
    ∀ l, 0 ≤ l < g_lines (t_grid t) →
      ∃ r, g_line g l = Some r ∧ is_reset R (term_template t) r).
Proof.
  intros W Em. pose proof (tw_grid _ _ W) as Wg. pose proof (tw_inactive _ _ W) as Wi.
  pose proof (tw_dims _ _ W) as Hd. unfold enter_alt. rewrite Em. cbn [negb]. cbv zeta.
  change (t_inactive_grid (upd_grid _ _))
    with (with_cursor (t_inactive_grid t) (cursor (t_grid t))).
  set (gi := with_cursor (t_inactive_grid t) (cursor (t_grid t))).
  assert (Wgi : grid_ok gi).
  { destruct Wi as [? ? ?], Wg as [? ? ?]. split; [by apply with_cursor_wf| |done].
    eapply (cursor_ok_dims (t_grid t)); done. }
  wp_step. wp_use reset_region_all; [apply Wgi|]. intros g' (W' & F & _ & _ & Hb).
  pose proof (same_frame_dims _ _ F) as F'. pose proof F as (Hcur & _).
  wp_step. exists g'. split; [done|]. destruct Hd as [Hl Hc]. unfold gi in *. split_and!.
  - apply (upd_inactive_wf _ (upd_grid (with_saved_cursor (t_grid t) (cursor (t_grid t))) t));
      [|by eapply grid_ok_frame|done].
    apply upd_grid_wf; [done| |done]. destruct Wg. split; [by apply with_saved_cursor_wf|done|done].
  - destruct F' as [F1 F2]. simpl in *. split; congruence.
  - done.
  - intros l Hl0. apply Hb. simpl. lia.
Qed.

Lemma swap_alt_wf B t :
  term_wf B t →
  wp (swap_alt t) (λ t', term_wf B t' ∧ same_size t t' ∧
    t_mode t' = Bitflags.toggle (keyboard_mode_bits
      (term_mode_of (default KM_NO_MODE (last (t_inactive_keyboard_mode_stack t)))) Replace
      (t_mode t)) TermMode.ALT_SCREEN ∧
    t_selection t' = None ∧ d_full (t_damage t') = true ∧
    t_keyboard_mode_stack t' = t_inactive_keyboard_mode_stack t ∧
    t_inactive_keyboard_mode_stack t' = t_keyboard_mode_stack t ∧
    if has_mode t TermMode.ALT_SCREEN
    then t_grid t' = t_inactive_grid t ∧ t_inactive_grid t' = t_grid t
    else t_inactive_grid t' = with_saved_cursor (t_grid t) (cursor (t_grid t)) ∧
         cursor (t_grid t') = cursor (t_grid t) ∧
         ∀ l, 0 ≤ l < g_lines (t_grid t) →
           ∃ r, g_line (t_grid t') l = Some r ∧ is_reset R (term_template t) r).
Proof.
  intros W. unfold swap_alt.
  change (if negb (has_mode t TermMode.ALT_SCREEN) then _ else _) with (enter_alt t).
  destruct (has_mode t TermMode.ALT_SCREEN) eqn:Em.
  - unfold enter_alt. rewrite Em. cbn [negb mbind exec_bind mret exec_ret]. cbv zeta. wp_step.
    split_and!; [|destruct (tw_dims _ _ W); by split|done..].
    apply mark_fully_damaged_wf, upd_selection_none_wf, upd_mode_wf.
    apply (swap_grids_wf _ (apply_keyboard_mode _ _ _)). apply apply_keyboard_mode_wf.
    by apply upd_keyboard_mode_stack_wf, upd_inactive_keyboard_mode_stack_wf.
  - wp_step. wp_use enter_alt_wf; [done|done|]. intros t1 (g & E & W1 & [Hl Hc] & Hcur & Hb).
    cbv zeta. apply wp_ret. split_and!.
    + apply mark_fully_damaged_wf, upd_selection_none_wf, upd_mode_wf.
      apply (swap_grids_wf _ (apply_keyboard_mode _ _ _)). apply apply_keyboard_mode_wf.
      by apply upd_keyboard_mode_stack_wf, upd_inactive_keyboard_mode_stack_wf.
    + subst t1. by split.
    + by subst t1.
    + done.
    + done.
    + by subst t1.
    + by subst t1.
    + by subst t1.
    + by subst t1.
    + by subst t1.
Qed.
End facts.

(** The facts that close goals [term_wf B (update t)]. *)
Create HintDb term_wf.
#[export] Hint Resolve upd_mode_wf upd_cursor_style_wf upd_title_wf upd_title_stack_wf
  upd_keyboard_mode_stack_wf upd_inactive_keyboard_mode_stack_wf upd_active_charset_wf
  upd_hyperlink_suffix_wf upd_config_wf send_event_wf insert_mode_wf remove_mode_wf
  mark_fully_damaged_wf apply_keyboard_mode_wf upd_selection_none_wf set_needs_wrap_wf
  set_template_wf : term_wf.
