(* ===== verification/TermOps.v ===== *)
(** * Construction, options, display and damage of the terminal

    Specifications of the operations of Term.v that the embedding application
    calls, next to the handler: [Term::new], [set_options], [scroll_display],
    [scroll_to_point], [toggle_vi_mode], [vi_goto_point], [damage] and
    [reset_damage].  Each keeps the invariant of TermFacts.v. *)

From S2P Require Import Prelude Index Ansi GridCell Row Storage Cell Grid GridFacts GridOps.
From S2P Require Import Resize Selection Term TermFacts.
#[local] Open Scope Z_scope.

Section facts.
Context `{Ansi} (R : Row Cell → Prop).
Implicit Types (t : Term) (g : Grid Cell) (s : Selection).
#[local] Abbreviation term_wf := (TermFacts.term_wf R).

(** ** Construction *)

Lemma with_capacity_rows visible columns :
  1 ≤ columns → 1 ≤ visible →
  with_capacity visible columns
    = Ok (mkStorage (replicate (Z.to_nat visible) (fresh_row columns : Row Cell)) 0 visible visible).
Proof.
  intros Hc Hv. unfold with_capacity. rewrite resize_rows_ok by lia. simpl.
  unfold zlen. simpl. by rewrite take_nil, Z.sub_0_r.
Qed.

Lemma grid_new_spec lines columns limit :
  row_pred columns R → 1 ≤ lines → 0 ≤ limit → lines + limit ≤ 536870912 →
  wp (grid_new lines columns limit : exec (Grid Cell)) (λ g, grid_wf R g ∧
    cursor g = cursor_default ∧ saved_cursor g = cursor_default ∧
    g_lines g = lines ∧ g_columns g = columns ∧ max_scroll_limit g = limit ∧
    display_offset g = 0 ∧ s_len (raw g) = lines ∧
    ∀ l, 0 ≤ l < lines → g_line g l = Some (fresh_row columns)).
Proof.
  intros P Hl Hm Hs. pose proof (rp_bound _ _ P) as Hc. unfold grid_new.
  pose proof (with_capacity_wf R lines columns P ltac:(lia)) as Wc.
  rewrite with_capacity_rows in * by lia. destruct Wc as (Wc & _ & _). wp_step.
  split_and!; try done.
  - split; simpl; try done; lia.
  - intros l Hl'. unfold g_line, line_at, ring_at. simpl. rewrite zlen_replicate, Z2Nat.id by lia.
    pose proof (Z.mod_pos_bound (lines - 1 - l) lines ltac:(lia)).
    rewrite zlookup_replicate_in; [done|]. rewrite Z.add_0_l. lia.
Qed.

Lemma undamaged_lines_ok c l : 0 ≤ l → damage_lines_ok l (undamaged_lines c l).
Proof.
  intros. unfold undamaged_lines. split.
  - unfold zlen. rewrite length_fmap, length_seq. lia.
  - intros i b. rewrite zlookup_fmap, fmap_Some. intros (n & [Hi Hn]%zlookup_spec & ->).
    apply lookup_seq in Hn as [-> _]. simpl. lia.
Qed.

Lemma tabs_new_len n : 0 ≤ n → zlen (tabs_new n) = n.
Proof. intros. unfold tabs_new, zlen. rewrite length_fmap, length_seq. lia. Qed.

Lemma cursor_default_ok g : 1 ≤ g_lines g → 1 ≤ g_columns g → cursor_ok g cursor_default.
Proof. intros. split; [split; simpl; lia|done]. Qed.

(** Sizes and scrollback limits a terminal can be created with. *)
Definition size_ok (num_lines num_cols history : Z) : Prop :=
  MIN_COLUMNS ≤ num_cols ≤ 1073741824 ∧ MIN_SCREEN_LINES ≤ num_lines ∧
  0 ≤ history ∧ num_lines + history ≤ 536870912.

Lemma term_new_spec {D} `{Dimensions D} (config : Config) (d : D) suffix :
  row_pred (columns d) R → size_ok (screen_lines d) (columns d) (scrolling_history config) →
  wp (term_new config d suffix) (λ t, term_wf 0 t ∧
    columns t = columns d ∧ screen_lines t = screen_lines d ∧ history_size t = 0 ∧
    cursor (t_grid t) = cursor_default ∧ t_selection t = None ∧
    t_scroll_region t = mkLines 0 (screen_lines d) ∧ t_mode t = TermMode.default ∧
    t_config t = config ∧ t_keyboard_mode_stack t = [] ∧ t_title_stack t = [] ∧
    ∀ l, 0 ≤ l < screen_lines d → g_line (t_grid t) l = Some (fresh_row (columns d))).
Proof.
  intros P (Hc & Hl & Hh & Hs). unfold MIN_COLUMNS, MIN_SCREEN_LINES in *.
  unfold term_new. cbv zeta. wp_step.
  wp_use (grid_new_spec (screen_lines d) (columns d) (scrolling_history config)); [done|lia..|].
  intros g (Wg & Hcur & Hsav & Hgl & Hgc & Hlim & Hoff & Hlen & Hrows). wp_step.
  wp_use (grid_new_spec (screen_lines d) (columns d) 0); [done|lia..|].
  intros g' (Wg' & Hcur' & Hsav' & Hgl' & Hgc' & Hlim' & Hoff' & Hlen' & Hrows').
  assert (Hok : grid_ok R g) by (split; rewrite ?Hcur, ?Hsav; try done;
    apply cursor_default_ok; lia).
  assert (Hok' : grid_ok R g') by (split; rewrite ?Hcur', ?Hsav'; try done;
    apply cursor_default_ok; lia).
  apply wp_ret. split.
  - split; simpl; rewrite ?as_i32_id by lia; try done; try lia.
    + split; congruence.
    + unfold MIN_COLUMNS; lia.
    + rewrite Hgc. apply tabs_new_len. lia.
    + rewrite Hgl. apply undamaged_lines_ok. lia.
    + split; simpl; lia.
  - split_and!; try done; simpl; try lia.
    + unfold history_size, saturating_sub. simpl. lia.
    + rewrite Hgl. by rewrite as_i32_id by lia.
Qed.

(** ** Options and display *)

Lemma set_options_spec B t options :
  term_wf B t → 0 ≤ scrolling_history options → screen_lines t + scrolling_history options ≤ 536870912 →
  wp (set_options options t) (λ t', term_wf B t' ∧ same_size t t' ∧ t_config t' = options ∧
    term_cursor t' = term_cursor t ∧ d_full (t_damage t') = true ∧
    (kitty_keyboard options ≠ kitty_keyboard (t_config t) →
     t_keyboard_mode_stack t' = [] ∧ t_inactive_keyboard_mode_stack t' = [] ∧
     Bitflags.intersects (t_mode t') TermMode.KITTY_KEYBOARD_PROTOCOL = false)).
Proof.
  intros W Hh Hs. pose proof (tw_dims _ _ _ W) as [Hdl Hdc]. unfold set_options. cbv zeta. wp_step.
  set (t1 := send_event _ _).
  assert (W1 : term_wf B t1) by (apply send_event_wf, upd_config_wf; done).
  assert (Hg : t_grid t1 = t_grid t ∧ t_inactive_grid t1 = t_inactive_grid t ∧
    t_config t1 = options) by done. destruct Hg as (Eg & Ei & Ec).
  clearbody t1. rewrite Ec.
  eapply wp_mono with (Q := λ t2, term_wf B t2 ∧ same_size t1 t2 ∧ t_config t2 = options ∧
    term_cursor t2 = term_cursor t1).
  { apply wp_if; intros E; wp_step.
    - wp_use (update_history_spec R); [apply W1|done|rewrite Ei, Hdl; done|].
      intros g (Wg & Hcur & Hsav & Hgc & Hgl & _). apply wp_ret.
      pose proof (tw_inactive _ _ _ W1) as [Wi [Hp1 Hp2] [Hs1 Hs2]].
      split_and!; try done. apply upd_inactive_wf; [done| |].
      + split; [done|..]; unfold cursor_ok, in_screen in *; simpl in *;
          rewrite ?Hcur, ?Hsav, ?Hgl, ?Hgc; done.
      + pose proof (tw_dims _ _ _ W1) as [? ?]. split; congruence.
    - wp_use (update_history_spec R); [apply W1|done|rewrite Eg; done|].
      intros g (Wg & Hcur & Hsav & Hgc & Hgl & _). apply wp_ret.
      pose proof (tw_grid _ _ _ W1) as [Wi [Hp1 Hp2] [Hs1 Hs2]].
      split_and!; try done; [|unfold term_cursor; simpl; by rewrite Hcur].
      apply upd_grid_wf; [done| |by split].
      split; [done|..]; unfold cursor_ok, in_screen in *; simpl in *;
        rewrite ?Hcur, ?Hsav, ?Hgl, ?Hgc; done. }
  intros t2 (W2 & S2 & C2 & P2). rewrite C2. apply wp_ret.
  assert (S2' : same_size t t2) by (destruct S2; simpl in *; rewrite Eg in *; done).
  assert (P2' : term_cursor t2 = term_cursor t) by (rewrite P2; unfold term_cursor; by rewrite Eg).
  destruct (eqb_spec (kitty_keyboard options) (kitty_keyboard (t_config t))); simpl.
  - split_and!; try done. by apply mark_fully_damaged_wf.
  - split_and!; try done; [by apply mark_fully_damaged_wf, upd_mode_wf,
      upd_inactive_keyboard_mode_stack_wf, upd_keyboard_mode_stack_wf|].
    intros _. split_and!; try done. simpl. apply Bitflags.intersects_remove.
Qed.

Lemma selection_is_empty_ok B s :
  sel_in B s → wp (selection_is_empty s) (λ _, True).
Proof.
  intros Hs. pose proof (ordered_in B s Hs) as Ho. unfold selection_is_empty.
  destruct (ordered s) as [[a b] sw]. destruct Ho as [[? ?] [? ?]].
  destruct Hs as [[? ?] [? ?]]. destruct (ty s); wp_steps; done.
Qed.

Lemma include_all_in B s : sel_in B s → sel_in B (include_all s).
Proof. intros [? ?]. unfold include_all. destruct (match ty s with BlockType => _ | _ => _ end); done. Qed.

(** The budget that also covers a selection whose end is the vi mode cursor. *)
Definition vi_budget (B : Z) : Z := Z.max B 536870912.

Lemma recompute_selection_spec B t :
  term_wf B t → -536870912 ≤ line (t_vi_mode_cursor t) ≤ 536870912 →
  wp (vi_mode_recompute_selection t) (λ t', ∃ o, t' = upd_selection o t ∧
    term_wf (vi_budget B) t' ∧ (t_selection t = None → o = None)).
Proof.
  intros W Hv. pose proof (tw_budget _ _ _ W). pose proof (tw_vi _ _ _ W) as [_ Hc].
  assert (W' : term_wf (vi_budget B) t) by (apply (term_wf_mono R B); [unfold vi_budget; lia|done]).
  assert (Hid : upd_selection (t_selection t) t = t) by by destruct t.
  unfold vi_mode_recompute_selection. apply wp_if; intros _.
  { apply wp_ret. exists (t_selection t). by rewrite Hid. }
  destruct (t_selection t) as [s|] eqn:Es;
    [|apply wp_ret; exists None; split_and!; congruence].
  wp_step. wp_use (selection_is_empty_ok B); [by apply (tw_selection _ _ _ W)|].
  intros e _. apply wp_if; intros _; apply wp_ret.
  { exists (Some s). split_and!; congruence. }
  eexists. split_and!; [done| |done].
  apply (upd_selection_wf _ B); [done|unfold vi_budget; lia|]. intros s' [= <-].
  apply include_all_in. destruct (tw_selection _ _ _ W s Es) as [[? ?] _].
  split; split; simpl; unfold vi_budget; lia.
Qed.

Definition delta_ok (sc : Scroll) : Prop :=
  ∀ n, sc = Delta n → -1073741824 ≤ n ≤ 1073741824.

(** The viewport: the lines that are displayed. *)
Definition in_viewport t (l : Z) : Prop :=
  - display_offset (t_grid t) ≤ l < screen_lines t - display_offset (t_grid t).

Lemma term_scroll_display_spec B t sc :
  term_wf B t → delta_ok sc →
  wp (term_scroll_display sc t) (λ t', term_wf (vi_budget B) t' ∧ same_size t t' ∧
    term_cursor t' = term_cursor t ∧ in_viewport t' (line (t_vi_mode_cursor t')) ∧
    column (t_vi_mode_cursor t') = column (t_vi_mode_cursor t) ∧
    raw (t_grid t') = raw (t_grid t) ∧
    (offset_ok (t_grid t) → offset_ok (t_grid t')) ∧
    scroll_display (t_grid t) sc = Ok (t_grid t') ∧
    (display_offset (t_grid t') ≠ display_offset (t_grid t) → d_full (t_damage t') = true) ∧
    (in_viewport t' (line (t_vi_mode_cursor t)) → t_vi_mode_cursor t' = t_vi_mode_cursor t)).
Proof.
  intros W Hd. pose proof (term_bounds R B t W) as Hb. unfold term_scroll_display. cbv zeta.
  pose proof (scroll_display_spec R (t_grid t) sc (go_wf _ _ (tw_grid _ _ _ W)) Hd) as G.
  apply wp_exists in G as (g & Eg & Wg & Fr & Hraw & Hoff & _). wp_step.
  apply (wp_on_grid_frame R B) with (P := λ g', g' = g); [done|by rewrite Eg|by intros ? ->|].
  intros ? -> W1. pose proof (term_bounds R B _ W1) as Hb1.
  pose proof (term_dims R B _ (send_event_wf R B _ MouseCursorDirty W1)) as Hdim.
  pose proof Fr as (Hcur & _ & Hc & Hl & Hlim). simpl in *. casts.
  do 2 wp_step. wp_step. rewrite bottommost_line_ok by done. simpl. wp_step. wp_step.
  set (t2 := set_vi_line _ _).
  assert (Hv2 : t_vi_mode_cursor t2 = mkPoint (Z.min (- display_offset g + (g_lines g - 1))
    (Z.max (- display_offset g) (line (t_vi_mode_cursor t)))) (column (t_vi_mode_cursor t))) by done.
  assert (W2 : term_wf B t2) by (apply set_vi_line_wf; [by apply send_event_wf|lia]).
  assert (E2 : t_grid t2 = g) by done. clearbody t2.
  wp_step. wp_use (recompute_selection_spec B); [done|rewrite Hv2; simpl; lia|].
  intros t3 (o & -> & W3 & _). apply wp_ret.
  assert (H3 : t_grid (upd_selection o t2) = g ∧ t_vi_mode_cursor (upd_selection o t2)
    = t_vi_mode_cursor t2) by done. destruct H3 as [Eg3 Ev3].
  set (t3 := upd_selection o t2) in *. clearbody t3.
  set (t' := if negb _ then _ else _).
  assert (E' : t_grid t' = g ∧ t_vi_mode_cursor t' = t_vi_mode_cursor t2 ∧
    term_wf (vi_budget B) t' ∧
    (display_offset g ≠ display_offset (t_grid t) → d_full (t_damage t') = true)).
  { unfold t'. rewrite Eg3. destruct (Z.eqb_spec (display_offset (t_grid t)) (display_offset g));
      simpl; split_and!; try done; by apply mark_fully_damaged_wf. }
  clearbody t'. destruct E' as (E' & V' & W' & D'). split_and!; try done.
  - by split; simpl; rewrite E'.
  - unfold term_cursor. by rewrite E', Hcur.
  - unfold in_viewport. simpl. rewrite V', Hv2, E'. simpl. lia.
  - rewrite V', Hv2. done.
  - by rewrite E'.
  - by rewrite E'.
  - by rewrite E'.
  - by rewrite E'.
  - unfold in_viewport. simpl. rewrite V', Hv2, E'. simpl. intros Hin.
    destruct (t_vi_mode_cursor t) as [l c']. simpl in *. f_equal. lia.
Qed.

(** After [scroll_to_point] the line is displayed. *)
Lemma scroll_to_point_spec B t p :
  term_wf B t → offset_ok (t_grid t) → in_grid (t_grid t) p →
  wp (scroll_to_point p t) (λ t', term_wf (vi_budget B) t' ∧ same_size t t' ∧
    term_cursor t' = term_cursor t ∧ raw (t_grid t') = raw (t_grid t) ∧
    offset_ok (t_grid t') ∧ in_viewport t' (line p)).
Proof.
  intros W Ho [Hp _]. pose proof (term_bounds R B t W) as Hb.
  pose proof (tw_budget _ _ _ W) as Hbud. pose proof (go_wf _ _ (tw_grid _ _ _ W)) as Wg.
  pose proof (grid_history R _ Wg) as Hh. unfold offset_ok, top_of in *. simpl in *.
  assert (Hgo : ∀ n, -1073741824 ≤ n ≤ 1073741824 →
    0 ≤ display_offset (t_grid t) + n ≤ history_size (t_grid t) →
    - (display_offset (t_grid t) + n) ≤ line p < g_lines (t_grid t) - (display_offset (t_grid t) + n) →
    wp (term_scroll_display (Delta n) t) (λ t', term_wf (vi_budget B) t' ∧ same_size t t' ∧
      term_cursor t' = term_cursor t ∧ raw (t_grid t') = raw (t_grid t) ∧
      offset_ok (t_grid t') ∧ in_viewport t' (line p))).
  { intros n Hn Hr Hl. wp_use (term_scroll_display_spec B); [done|by intros ? [= <-]|].
    intros t' (W' & S' & C' & _ & _ & R' & O' & G' & _). split_and!; try done; [by apply O'|].
    pose proof (scroll_display_spec R (t_grid t) (Delta n) Wg ltac:(by intros ? [= <-])) as G.
    rewrite G' in G. destruct G as (_ & Fr & _ & _ & E). pose proof Fr as (_ & _ & _ & El & _).
    unfold in_viewport. simpl. lia. }
  unfold scroll_to_point. cbv zeta. simpl. casts. do 2 wp_step. apply wp_if; intros E.
  - do 4 wp_step. apply Hgo; lia.
  - do 2 wp_step. apply wp_if; intros E'.
    + do 8 wp_step. apply Hgo; lia.
    + apply wp_ret. split; [apply (term_wf_mono R B); [unfold vi_budget; lia|done]|].
      unfold in_viewport; simpl. split_and!; try done; lia.
Qed.

Lemma toggle_vi_mode_spec B t :
  term_wf B t →
  wp (toggle_vi_mode t) (λ t', term_wf B t' ∧ same_size t t' ∧ t_grid t' = t_grid t ∧
    t_mode t' = Bitflags.toggle (t_mode t) TermMode.VI ∧
    (has_mode t' TermMode.VI = true → in_viewport t' (line (t_vi_mode_cursor t')))).
Proof.
  intros W. pose proof (term_bounds R B t W) as Hb. unfold toggle_vi_mode. cbv zeta.
  set (t1 := upd_mode _ t). assert (W1 : term_wf B t1) by by apply upd_mode_wf.
  assert (E1 : t_grid t1 = t_grid t ∧ t_mode t1 = Bitflags.toggle (t_mode t) TermMode.VI) by done.
  clearbody t1. destruct E1 as [Eg Em]. pose proof (term_dims R B t1 W1) as Hdim. wp_step.
  eapply wp_mono with (Q := λ t2, term_wf B t2 ∧ t_grid t2 = t_grid t ∧ t_mode t2 = t_mode t1 ∧
    (has_mode t2 TermMode.VI = true → in_viewport t2 (line (t_vi_mode_cursor t2)))).
  { destruct (has_mode t1 TermMode.VI) eqn:Ev.
    - unfold term_cursor. simpl. rewrite Eg. wp_step. rewrite bottommost_line_ok by done.
      simpl. rewrite Eg. casts. do 2 wp_step.
      apply wp_if; intros E; [do 2 wp_step|]; apply wp_ret;
        unfold in_viewport, term_cursor in *; simpl in *; rewrite ?Eg; split_and!; try done; try lia;
        apply upd_vi_wf; try done; split; simpl; lia.
    - apply wp_ret. split_and!; try done. congruence. }
  intros t2 (W2 & Eg2 & Em2 & Hin). apply wp_ret. split_and!; try done.
  - by apply send_event_wf.
  - by split; simpl; rewrite Eg2.
  - by rewrite <- Em, <- Em2.
Qed.

Lemma vi_goto_point_spec B t p :
  term_wf B t → offset_ok (t_grid t) → in_grid (t_grid t) p →
  wp (vi_goto_point p t) (λ t', term_wf (vi_budget B) t' ∧ same_size t t' ∧
    t_vi_mode_cursor t' = p ∧ offset_ok (t_grid t') ∧ in_viewport t' (line p)).
Proof.
  intros W Ho Hp. pose proof (term_bounds R B t W) as Hb. unfold vi_goto_point. wp_step.
  wp_use (scroll_to_point_spec B); [done..|]. intros t1 (W1 & S1 & C1 & R1 & O1 & V1). cbv zeta.
  assert (Hl : -536870912 ≤ line p ≤ 536870912 ∧ 0 ≤ column p ≤ 1073741824).
  { destruct Hp as [? ?]. unfold top_of in *. simpl in *. lia. }
  wp_use (recompute_selection_spec (vi_budget B)); [|simpl; lia|].
  { apply upd_vi_wf; [done|]. split; lia. }
  intros t2 (o & -> & W2 & _).
  split_and!; try done.
  unfold vi_budget in *. by replace (Z.max (Z.max B 536870912) 536870912) with (Z.max B 536870912) in W2 by lia.
Qed.

(** ** Damage *)

(** The point is covered by the damage that was recorded. *)
Definition damaged (d : TermDamageState) (p : Point) : Prop :=
  d_full d = true ∨
  ∃ b, zlookup (d_lines d) (line p) = Some b ∧ d_left b ≤ column p ≤ d_right b.

Lemma damaged_line B t l left right :
  term_wf B t → 0 ≤ l < screen_lines t →
  wp (damage_line l left right t) (λ t', ∃ d, t' = upd_damage d t ∧ term_wf B t' ∧
    d_last_cursor d = d_last_cursor (t_damage t) ∧ d_full d = d_full (t_damage t) ∧
    (∀ p, damaged (t_damage t) p → damaged d p) ∧
    (∀ c, left ≤ c ≤ right → damaged d (mkPoint l c))).
Proof.
  intros W Hl. pose proof (tw_damage _ _ _ W) as [Hn _].
  apply (wp_damage_line R B); [done..|]. intros d W' Hc Hf Hlines. exists d.
  split_and!; try done.
  - intros p [Hp|(b & Hb & Hp)]; [left; congruence|right]. rewrite Hlines, Hb.
    destruct (line p =? l); eexists; (split; [done|simpl; lia]).
  - intros c' Hc'. right. rewrite Hlines. simpl. rewrite Z.eqb_refl.
    destruct (zlookup_some (d_lines (t_damage t)) l) as [b ->]; [lia|].
    eexists. split; [done|simpl; lia].
Qed.

Lemma damage_items_spec lines off :
  0 ≤ off ≤ 536870912 →
  Forall (λ b, 0 ≤ d_line b ≤ 536870912) lines →
  wp (damage_items lines off) (λ items, ∀ b, b ∈ lines → d_left b ≤ d_right b →
    mkBounds (d_line b + off) (d_left b) (d_right b) ∈ items).
Proof.
  intros Ho. induction 1 as [|b lines Hb _ IH]; simpl; [by intros b Hb%elem_of_nil|].
  do 2 wp_step. wp_step. wp_use IH. intros items Hi. apply wp_ret. intros b' Hb' Hd.
  apply elem_of_cons in Hb' as [->|Hb'].
  - unfold is_damaged. destruct (Z.leb_spec (d_left b) (d_right b)); [|lia]. by left.
  - destruct (is_damaged b); [right|]; by apply Hi.
Qed.

Lemma zlookup_elem {A} (l : list A) i a : zlookup l i = Some a → a ∈ l.
Proof. intros [_ Hl]%zlookup_spec. by eapply list_elem_of_lookup_2. Qed.

Lemma damage_iterator_spec n lines off :
  damage_lines_ok n lines → 0 ≤ n ≤ 536870912 → 0 ≤ off ≤ 536870912 →
  wp (damage_iterator lines off) (λ items, ∀ l b, l + off < n → zlookup lines l = Some b →
    d_left b ≤ d_right b → mkBounds (l + off) (d_left b) (d_right b) ∈ items).
Proof.
  intros [Hn Hl] ? ?. unfold damage_iterator, saturating_sub.
  wp_use damage_items_spec; [done| |].
  - apply Forall_forall. intros b Hb. apply list_elem_of_lookup_1 in Hb as [i Hb].
    apply lookup_take_Some in Hb as [Hb _]. pose proof (lookup_lt_Some _ _ _ Hb).
    rewrite (Hl (Z.of_nat i)); [unfold zlen in *; lia|].
    by rewrite zlookup_nat, Nat2Z.id by lia.
  - simpl. intros items Hi l b Hlt Hb Hd. pose proof (zlookup_bound _ _ _ Hb).
    rewrite <- (Hl l b Hb) at 1. apply Hi; [|done]. apply (zlookup_elem _ l).
    rewrite zlookup_take. destruct (Z.ltb_spec l (Z.of_nat (Z.to_nat (Z.max 0 (zlen lines - off)))));
      [done|lia].
Qed.

(** What the renderer has to be told about: recorded damage and the old and the
    new position of the cursor. *)
Definition must_draw t (p : Point) : Prop :=
  damaged (t_damage t) p ∨ p = d_last_cursor (t_damage t) ∨ p = term_cursor t.

(** The reported damage covers a point of the screen that is displayed. *)
Definition reported t (dmg : TermDamage) (p : Point) : Prop :=
  match dmg with
  | FullDamage => True
  | PartialDamage items => ∃ b, b ∈ items ∧
      d_line b = line p + display_offset (t_grid t) ∧ d_left b ≤ column p ≤ d_right b
  end.

Lemma damage_cursor_damaged B t :
  term_wf B t →
  wp (damage_cursor t) (λ t', ∃ d, t' = upd_damage d t ∧ term_wf B t' ∧
    d_last_cursor d = d_last_cursor (t_damage t) ∧ d_full d = d_full (t_damage t) ∧
    (∀ p, damaged (t_damage t) p → damaged d p) ∧ damaged d (term_cursor t)).
Proof.
  intros W. pose proof (term_bounds R B t W). rewrite damage_cursor_line. casts.
  wp_use (damaged_line B); [done|simpl; lia|]. intros t' (d & -> & W' & Hc & Hf & Hp & Hl).
  exists d. split_and!; try done. destruct (term_cursor t) as [l c']. apply Hl. simpl. lia.
Qed.

Lemma collect_damage_spec B t :
  term_wf B t →
  wp (collect_damage t) (λ '(t', dmg), term_wf B t' ∧
    (∃ d, t' = upd_damage d t ∧ d_last_cursor d = term_cursor t) ∧
    ∀ p, in_screen t p → line p + display_offset (t_grid t) < screen_lines t →
      must_draw t p → reported t dmg p).
Proof.
  intros W. pose proof (term_bounds R B t W) as Hb. unfold collect_damage. cbv zeta.
  set (t1 := if has_mode t TermMode.INSERT then _ else _).
  assert (H1 : ∃ full, t1 = upd_damage (mkDamage full (d_lines (t_damage t))
      (d_last_cursor (t_damage t))) t ∧ (d_full (t_damage t) = true → full = true)).
  { unfold t1. destruct (has_mode t TermMode.INSERT); [by exists true|].
    exists (d_full (t_damage t)). split; [|done]. destruct t as [? ? ? ? ? ? ? ? ? ? ? ? ? ? ? ? []]. done. }
  destruct H1 as (full & -> & Hfull).
  set (t2 := upd_damage _ (upd_damage _ t)).
  assert (E2 : t2 = upd_damage (mkDamage full (d_lines (t_damage t)) (term_cursor t)) t) by done.
  assert (W2 : term_wf B t2).
  { rewrite E2. apply upd_damage_wf; [done|apply W|apply (tw_grid _ _ _ W)]. }
  clearbody t2. subst t2. simpl. destruct full.
  { apply wp_ret. split; [done|]. split; [by eexists|]. done. }
  assert (Hnf : d_full (t_damage t) = false) by (destruct (d_full (t_damage t)); naive_solver).
  pose proof (tw_last_cursor _ _ _ W) as [Hlc Hcc]. wp_step.
  set (d0 := mkDamage false (d_lines (t_damage t)) (term_cursor t)) in *.
  eapply wp_mono with (Q := λ t3, ∃ d, t3 = upd_damage d t ∧ term_wf B t3 ∧
    d_last_cursor d = term_cursor t ∧ d_full d = false ∧
    (∀ p, damaged (t_damage t) p → damaged d p) ∧
    (d_last_cursor (t_damage t) = term_cursor t ∨ damaged d (d_last_cursor (t_damage t)))).
  { apply wp_if; intros E; [|apply wp_ret; exists d0; split_and!; try done].
    - simpl in Hlc. casts. change (wp (damage_line (line (d_last_cursor (t_damage t)))
        (column (d_last_cursor (t_damage t))) (column (d_last_cursor (t_damage t))) (upd_damage d0 t))
        (λ t3, ∃ d, t3 = upd_damage d t ∧ term_wf B t3 ∧
          d_last_cursor d = term_cursor t ∧ d_full d = false ∧
          (∀ p, damaged (t_damage t) p → damaged d p) ∧
          (d_last_cursor (t_damage t) = term_cursor t ∨ damaged d (d_last_cursor (t_damage t))))).
      wp_use (damaged_line B); [done|done|]. intros t3 (d & -> & W3 & Hc & Hf & Hp & Hl).
      exists d. split_and!; try done; [intros p [Hd|Hd]; [congruence|apply Hp; by right]|].
      right. destruct (d_last_cursor (t_damage t)). apply Hl. simpl. lia.
    - intros p [Hd|Hd]; [congruence|by right].
    - left. apply bool_decide_eq_false in E. by apply dec_stable in E. }
  intros t3 (d & -> & W3 & Hc & Hf & Hp & Hlast). wp_step.
  wp_use (damage_cursor_damaged B); [done|]. intros t4 (d' & -> & W4 & Hc' & Hf' & Hp' & Hcur').
  simpl in Hc', Hf', Hp'. wp_step.
  wp_use damage_iterator_spec; [apply (tw_damage _ _ _ W4)|simpl; lia|simpl; lia|].
  intros items Hi. apply wp_ret. split; [done|]. split; [exists d'; split; [done|congruence]|].
  intros p [Hpl Hpc] Hvis Hm. simpl.
  assert (Hd : damaged d' p).
  { destruct Hm as [Hm|[->| ->]]; [by apply Hp', Hp| |done].
    destruct Hlast as [->|]; [done|by apply Hp']. }
  destruct Hd as [Hd|(b & Hb' & Hbc)]; [congruence|].
  exists (mkBounds (line p + display_offset (t_grid t)) (d_left b) (d_right b)).
  split; [|done]. apply (Hi (line p) b); [done|done|lia].
Qed.

Lemma reset_damage_spec B t :
  term_wf B t → term_wf B (reset_damage t) ∧
  ∀ p, in_screen t p → ¬ damaged (t_damage (reset_damage t)) p.
Proof.
  intros W. pose proof (tw_damage _ _ _ W) as [Hn Hl]. pose proof (term_bounds R B t W). split.
  - apply upd_damage_wf; [done| |apply W]. simpl. split; [by rewrite zlen_fmap|].
    intros i b. rewrite zlookup_fmap, fmap_Some. intros (b0 & Hb0 & ->). simpl. by apply Hl.
  - intros p [? Hc] [?|(b & Hb & Hcol)]; [done|]. simpl in Hb, Hc.
    rewrite zlookup_fmap, fmap_Some in Hb. destruct Hb as (b0 & _ & ->). simpl in Hcol. lia.
Qed.
End facts.

(** ** The size of a resized grid

    A resize that returns leaves a grid, and a terminal, of the new size, whatever the
    content was; the operations inside of it do not change the size in any other way. *)

Lemma wlp_ret {A} (a : A) (Q : A → Prop) : Q a → wlp (mret a) Q.
Proof. done. Qed.

(** [wlp_go]: run through the steps of an operation; [wlp_call H] uses what is known of a call. *)
Ltac wlp_go :=
  repeat (cbv zeta; lazymatch goal with
    | |- wlp (mret _) _ => apply wlp_ret
    | |- wlp (mbind _ _) _ => apply wlp_bind
    | |- wlp (if ?b then _ else _) _ => destruct b
    | |- wlp (match ?x with _ => _ end) _ => destruct x
    | |- wlp (usize_add _ _) _ => apply wlp_any; intros ?
    | |- wlp (usize_sub _ _) _ => apply wlp_any; intros ?
    | |- wlp (i32_add _ _) _ => apply wlp_any; intros ?
    | |- wlp (i32_sub _ _) _ => apply wlp_any; intros ?
    end).
Ltac wlp_call H := eapply wlp_mono; [apply H|].
Ltac wlp_skip :=
  lazymatch goal with
  | |- @wlp (Grid _) _ _ => fail
  | |- wlp _ _ => apply wlp_any; intros ?
  end.

Lemma wlp_for_down {S} (I : S → Prop) f n : ∀ i s,
  I s → (∀ i s, I s → wlp (f i s) I) → wlp (for_down n i f s) I.
Proof.
  induction n as [|n IH]; intros i s Hs Hf; [done|]. cbn [for_down]. apply wlp_bind.
  eapply wlp_mono; [by apply Hf|]. intros s' Hs'. by apply IH.
Qed.

Section sizes.
Context `{Ansi} {T D : Type} `{GridCell T D}.
Implicit Types (g : Grid T) (n m : Z).

Definition sized n m g : Prop := g_lines g = n ∧ g_columns g = m.

Lemma reset_lines_sized n m g a b : sized n m g → wlp (reset_lines g a b) (sized n m).
Proof. intros Hg. unfold reset_lines. wlp_go. wlp_skip. done. Qed.

Lemma increase_sized n m g count : sized n m g → wlp (increase_scroll_limit g count) (sized n m).
Proof. intros Hg. unfold increase_scroll_limit. wlp_go; [wlp_skip|]; done. Qed.

Lemma decrease_sized n m g count : sized n m g → wlp (decrease_scroll_limit g count) (sized n m).
Proof. intros Hg. unfold decrease_scroll_limit. wlp_go; [wlp_skip|]; done. Qed.

Lemma scroll_up_sized n m g a b positions : sized n m g → wlp (scroll_up g a b positions) (sized n m).
Proof.
  intros Hg. unfold scroll_up. wlp_go; try by apply reset_lines_sized.
  all: first [wlp_call (increase_sized n m); [done|]; intros g' Hg'; wlp_go | idtac]; repeat (wlp_skip; wlp_go); by apply reset_lines_sized.
Qed.

Lemma grow_lines_sized g target : wlp (grow_lines g target) (sized target (g_columns g)).
Proof.
  unfold grow_lines. wlp_go; wlp_skip; wlp_go.
  - wlp_call (scroll_up_sized target (g_columns g)); [done|]. intros g' Hg'. wlp_go. wlp_skip. wlp_go. wlp_skip. by apply decrease_sized.
  - wlp_skip. wlp_go. wlp_skip. by apply decrease_sized.
Qed.

Lemma shrink_lines_sized g target : wlp (grid_shrink_lines g target) (sized target (g_columns g)).
Proof.
  unfold grid_shrink_lines. wlp_go.
  - wlp_call (scroll_up_sized (g_lines g) (g_columns g)); [done|]. intros g' [_ Hg']. wlp_go. wlp_skip. wlp_go. wlp_skip. by split.
  - wlp_skip. wlp_go. wlp_skip. done.
Qed.

Lemma unwrap_sized n m g reflow : sized n m g → wlp (unwrap_cursor reflow g) (sized n m).
Proof. intros Hg. unfold unwrap_cursor. wlp_go; done. Qed.

Lemma grow_cursor_sized n m reflow i num row (st : GrowState) :
  sized n m (gr_grid st) → wlp (grow_cursor reflow i num row st) (λ '(st, _), sized n m (gr_grid st)).
Proof.
  intros Hg. unfold grow_cursor. wlp_go; [wlp_skip; wlp_go|..]; try done.
  all: repeat (wlp_skip; wlp_go); try done.
  all: by repeat case_match.
Qed.

Lemma grow_row_sized n m reflow columns i row (st : GrowState) :
  sized n m (gr_grid st) → wlp (grow_row reflow columns i row st) (λ st, sized n m (gr_grid st)).
Proof.
  intros Hg. unfold grow_row. wlp_go; [wlp_skip; wlp_go|done].
  - wlp_skip. wlp_go. wlp_call (grow_cursor_sized n m); [done|]. intros [st' dropped] Hst. wlp_go; done.
  - done.
Qed.

Lemma grow_columns_sized g reflow columns : wlp (grow_columns g reflow columns) (sized (g_lines g) columns).
Proof.
  unfold grow_columns. wlp_go. wlp_call (unwrap_sized (g_lines g) columns); [done|]. intros g1 Hg1. wlp_go. wlp_skip. wlp_go.
  wlp_call (wlp_for_down (λ st, sized (g_lines g) columns (gr_grid st))); [done| |].
  { intros i st Hst. wlp_go. wlp_skip. by apply grow_row_sized. }
  intros st Hst. wlp_go; repeat (wlp_skip; wlp_go); done.
Qed.

Lemma wrap_cursor_sized n m columns i g : sized n m g → wlp (wrap_cursor columns i g) (sized n m).
Proof. intros Hg. unfold wrap_cursor. wlp_go; wlp_skip; wlp_go; done. Qed.

Lemma shrink_row_sized n m fuel reflow columns i : ∀ row (st : ShrinkState),
  sized n m (sh_grid st) → wlp (shrink_row fuel reflow columns i row st) (λ st, sized n m (sh_grid st)).
Proof.
  induction fuel as [|fuel IH]; intros row st Hg; [done|]. cbn [shrink_row]. wlp_go. wlp_skip. wlp_go; [|done].
  wlp_skip. wlp_go. wlp_skip. wlp_go; [wlp_skip; wlp_go; done|..]; try (wlp_skip; wlp_go; done).
  all: repeat (wlp_skip; wlp_go); try done.
  all: wlp_call (wrap_cursor_sized n m); [done|]; intros g' Hg'; by apply IH.
Qed.

Lemma shrink_one_sized n m reflow columns i row (st : ShrinkState) :
  sized n m (sh_grid st) → wlp (shrink_one reflow columns i row st) (λ st, sized n m (sh_grid st)).
Proof.
  intros Hg. unfold shrink_one. wlp_go; [wlp_skip; wlp_go; wlp_skip; wlp_go|]; by apply shrink_row_sized.
Qed.

Lemma shrink_cursor_sized n m reflow columns g : sized n m g → wlp (shrink_cursor reflow columns g) (sized n m).
Proof. intros Hg. unfold shrink_cursor. wlp_go; try done; repeat (wlp_skip; wlp_go); done. Qed.

Lemma shrink_columns_sized g reflow columns : wlp (shrink_columns g reflow columns) (sized (g_lines g) columns).
Proof.
  unfold shrink_columns. wlp_go. wlp_call (unwrap_sized (g_lines g) columns); [done|]. intros g1 Hg1. wlp_go. wlp_skip. wlp_go.
  wlp_call (wlp_for_down (λ st, sized (g_lines g) columns (sh_grid st))); [done| |].
  { intros i st Hst. wlp_go. wlp_skip. by apply shrink_one_sized. }
  intros st Hst. wlp_go. by apply shrink_cursor_sized.
Qed.

Lemma grid_resize_sized g reflow lines columns : wlp (grid_resize g reflow lines columns) (sized lines columns).
Proof.
  unfold grid_resize. cbv zeta. apply wlp_bind.
  apply (wlp_mono _ (sized lines (g_columns g))).
  { set (g0 := with_cursor g _). change (g_columns g) with (g_columns g0). clearbody g0.
    destruct (Z.compare_spec (g_lines g0) lines) as [E|E|E]; [done|apply grow_lines_sized|apply shrink_lines_sized]. }
  intros g1 [El Ec]. apply wlp_bind. apply (wlp_mono _ (sized lines columns)).
  { rewrite <- El. destruct (Z.compare_spec (g_columns g1) columns) as [E|E|E]; [done|apply grow_columns_sized|apply shrink_columns_sized]. }
  intros g2 Hg2. done.
Qed.
End sizes.

(** [Term::resize] resizes both grids, the tab stops and the damage. *)
Lemma term_resize_sized `{Ansi} {D} `{Dimensions D} (size : D) (t : Term) :
  wlp (term_resize size t) (λ t', Index.columns t' = Index.columns size ∧ Index.screen_lines t' = Index.screen_lines size).
Proof.
  unfold term_resize. cbv zeta. destruct (_ && _) eqn:E; [apply wlp_ret; lia|]. wlp_go.
  wlp_call (grid_resize_sized (T := Cell)). intros g1 [E1 E2]. wlp_go. wlp_call (grid_resize_sized (T := Cell)). intros g2 _.
  wlp_go; repeat (wlp_skip; wlp_go); done.
Qed.
