(* ===== verification/Handler.v ===== *)
(** * The escape sequence handler (alacritty_terminal/src/term/mod.rs)

    [impl Handler for Term]: one definition per method, named like the method,
    and the dispatch [handle] over a value of [call], the calls the parser makes. *)

From S2P Require Import Prelude Index Ansi GridCell Row Storage Cell Grid Resize Selection Term.
#[local] Open Scope Z_scope.

(** ** Text helpers *)

(** Lower case hexadecimal digit, and [{:02x}] of a byte. *)
Definition hex_digit (d : Z) : char := if d <? 10 then 48 + d else 87 + d.
Definition hex2 (b : Z) : text := [hex_digit (b / 16); hex_digit (b mod 16)].

(** [str::rfind(c)] and the prefix in front of the match. *)
Fixpoint rfind_prefix (c : char) (s : text) : option text :=
  match s with
  | [] => None
  | x :: s =>
      match rfind_prefix c s with
      | Some p => Some (x :: p)
      | None => if x =? c then Some [] else None
      end
  end.

(** [str::split(c)]. *)
Fixpoint split_on (c : char) (s : text) : list text :=
  match s with
  | [] => [[]]
  | x :: s =>
      if x =? c then [] :: split_on c s
      else match split_on c s with
           | w :: ws => (x :: w) :: ws
           | [] => [[x]]
           end
  end.

(** [str::parse::<usize>]: an optional sign, then decimal digits in range. *)
Fixpoint parse_digits (acc : Z) (s : text) : option Z :=
  match s with
  | [] => Some acc
  | x :: s =>
      if (48 <=? x) && (x <=? 57) then
        let acc := acc * 10 + (x - 48) in
        if acc <=? usize_max then parse_digits acc s else None
      else None
  end.
Definition parse_usize (s : text) : option Z :=
  let digits := match s with x :: rest => if x =? 43 then rest else s | [] => [] end in
  match digits with [] => None | _ => parse_digits 0 digits end.

(** The loop of [version_number] over the reversed components. *)
Fixpoint version_loop (i : nat) (acc : Z) (words : list text) : exec Z :=
  match words with
  | [] => mret acc
  | w :: ws =>
      let n := default 0 (parse_usize w) in
      p ← checked in_usize (100 ^ Z.of_nat i);
      x ← usize_mul p n;
      acc ← usize_add acc x;
      version_loop (S i) acc ws
  end.

Definition version_number (version : text) : exec Z :=
  let version := default version (rfind_prefix 45 version) in
  version_loop 0 0 (reverse (split_on 46 version)).

(** [env!("CARGO_PKG_VERSION")], from alacritty_terminal/Cargo.toml. *)
Definition CARGO_PKG_VERSION : text := str "0.25.2-dev".

Inductive ModeState := NotSupported | StateSet | StateReset.
Definition mode_state_as_u8 (s : ModeState) : Z :=
  match s with NotSupported => 0 | StateSet => 1 | StateReset => 2 end.
Definition mode_state_of (b : bool) : ModeState := if b then StateSet else StateReset.

Section handler.
Context `{Ansi}.
Implicit Types (t : Term).

Definition private_mode_raw (m : PrivateMode) : Z :=
  match m with PrivateNamed m => named_private_mode_raw m | PrivateUnknown m => m end.
Definition mode_raw (m : Mode) : Z :=
  match m with ModeNamed m => named_mode_raw m | ModeUnknown m => m end.

(** ** Scrolling *)

Definition scroll_up (lines : Z) t : exec Term :=
  scroll_up_relative (r_start (t_scroll_region t)) lines t.

Definition scroll_down (lines : Z) t : exec Term :=
  scroll_down_relative (r_start (t_scroll_region t)) lines t.

Definition insert_blank_lines (lines : Z) t : exec Term :=
  let origin := line (term_cursor t) in
  if range_has (t_scroll_region t) origin then scroll_down_relative origin lines t else mret t.

Definition delete_lines (lines : Z) t : exec Term :=
  let origin := line (term_cursor t) in
  n ← usize_sub (screen_lines t) (as_usize origin);
  let lines := Z.min n lines in
  if (0 <? lines) && range_has (t_scroll_region t) origin
  then scroll_up_relative origin lines t else mret t.

(** ** Cursor movement *)

(** [self.grid.cursor.point.line = l], [..column = c]. *)
Definition set_line (l : Z) t : Term := set_cursor_point (mkPoint l (column (term_cursor t))) t.
Definition set_column (col : Z) t : Term := set_cursor_point (mkPoint (line (term_cursor t)) col) t.

Definition goto (l col : Z) t : exec Term :=
  '(y_offset, max_y) ←
    (if has_mode t TermMode.ORIGIN then
       last ← i32_sub (r_end (t_scroll_region t)) 1;
       mret (r_start (t_scroll_region t), last)
     else
       bottom ← bottommost_line t;
       mret (0, bottom));
  t ← damage_cursor t;
  y ← i32_add l y_offset;
  let t := set_line (Z.max (Z.min y max_y) 0) t in
  last ← last_column t;
  let t := set_column (Z.min col last) t in
  t ← damage_cursor t;
  mret (set_needs_wrap false t).

Definition goto_line (l : Z) t : exec Term := goto l (column (term_cursor t)) t.
Definition goto_col (col : Z) t : exec Term := goto (line (term_cursor t)) col t.

Definition move_up (lines : Z) t : exec Term :=
  l ← line_sub_usize (line (term_cursor t)) lines;
  goto l (column (term_cursor t)) t.

Definition move_down (lines : Z) t : exec Term :=
  l ← line_add_usize (line (term_cursor t)) lines;
  goto l (column (term_cursor t)) t.

Definition move_down_and_cr (lines : Z) t : exec Term :=
  l ← line_add_usize (line (term_cursor t)) lines;
  goto l 0 t.

Definition move_up_and_cr (lines : Z) t : exec Term :=
  l ← line_sub_usize (line (term_cursor t)) lines;
  goto l 0 t.

Definition move_forward (cols : Z) t : exec Term :=
  x ← usize_add (column (term_cursor t)) cols;
  last ← last_column t;
  let last_col := Z.min x last in
  t ← damage_line (as_usize (line (term_cursor t))) (column (term_cursor t)) last_col t;
  mret (set_needs_wrap false (set_column last_col t)).

Definition move_backward (cols : Z) t : exec Term :=
  let col := saturating_sub (column (term_cursor t)) cols in
  t ← damage_line (as_usize (line (term_cursor t))) col (column (term_cursor t)) t;
  mret (set_needs_wrap false (set_column col t)).

Definition backspace t : exec Term :=
  let col := column (term_cursor t) in
  if 0 <? col then
    c' ← usize_sub col 1;
    let l := as_usize (line (term_cursor t)) in
    let t := set_needs_wrap false (set_column c' t) in
    damage_line l c' col t
  else mret t.

Definition carriage_return t : exec Term :=
  t ← damage_line (as_usize (line (term_cursor t))) 0 (column (term_cursor t)) t;
  mret (set_needs_wrap false (set_column 0 t)).

Definition linefeed t : exec Term :=
  next ← i32_add (line (term_cursor t)) 1;
  if next =? r_end (t_scroll_region t) then scroll_up 1 t
  else if next <? as_i32 (screen_lines t) then
    t ← damage_cursor t;
    l ← i32_add (line (term_cursor t)) 1;
    let t := set_line l t in
    damage_cursor t
  else mret t.

Definition newline t : exec Term :=
  t ← linefeed t;
  if has_mode t TermMode.LINE_FEED_NEW_LINE then carriage_return t else mret t.

Definition reverse_index t : exec Term :=
  if line (term_cursor t) =? r_start (t_scroll_region t) then scroll_down 1 t
  else
    t ← damage_cursor t;
    l ← i32_sub (line (term_cursor t)) 1;
    let t := set_line (Z.max l 0) t in
    damage_cursor t.

Definition save_cursor_position t : Term :=
  upd_grid (with_saved_cursor (t_grid t) (cursor (t_grid t))) t.

Definition restore_cursor_position t : exec Term :=
  t ← damage_cursor t;
  let t := upd_grid (with_cursor (t_grid t) (saved_cursor (t_grid t))) t in
  damage_cursor t.

(** ** Tabs *)

(** The inner loop of [put_tab]: to the next tab stop or the last column. *)
Fixpoint tab_advance (fuel : nat) t : exec Term :=
  match fuel with
  | O => Panic OutOfFuel
  | S fuel =>
      x ← usize_add (column (term_cursor t)) 1;
      if x =? columns t then mret t
      else
        let t := set_column x t in
        stop ← vec_get (t_tabs t) (column (term_cursor t));
        if (stop : bool) then mret t else tab_advance fuel t
  end.

Definition set_horizontal_tabstop t : exec Term :=
  tabs ← vec_set (t_tabs t) (column (term_cursor t)) true;
  mret (upd_tabs tabs t).

Definition clear_tabs (mode : TabulationClearMode) t : exec Term :=
  match mode with
  | TabCurrent =>
      tabs ← vec_set (t_tabs t) (column (term_cursor t)) false;
      mret (upd_tabs tabs t)
  | TabAll => mret (upd_tabs (tabs_clear_all (t_tabs t)) t)
  end.

(** [for i in (0..col).rev() { if tabs[i] { col = i; break; } }]; [n] counts the
    columns that are left. *)
Fixpoint previous_tab (n : nat) (tabs : list bool) (col : Z) : exec Z :=
  match n with
  | O => mret col
  | S n =>
      stop ← vec_get tabs (Z.of_nat n);
      if (stop : bool) then mret (Z.of_nat n) else previous_tab n tabs col
  end.

(** [for i in col + 1..num_cols { col = i; if tabs[col] { break; } }]. *)
Fixpoint next_tab (n : nat) (tabs : list bool) (col : Z) : exec Z :=
  match n with
  | O => mret col
  | S n =>
      let col := col + 1 in
      stop ← vec_get tabs col;
      if (stop : bool) then mret col else next_tab n tabs col
  end.

(** [for _ in 0..count]. *)
Fixpoint move_backward_tabs_loop (count : nat) t : exec Term :=
  match count with
  | O => mret t
  | S count =>
      let col := column (term_cursor t) in
      if col =? 0 then mret t
      else
        col ← previous_tab (Z.to_nat col) (t_tabs t) col;
        move_backward_tabs_loop count (set_column col t)
  end.

Fixpoint move_forward_tabs_loop (count : nat) t : exec Term :=
  match count with
  | O => mret t
  | S count =>
      let col := column (term_cursor t) in
      last ← usize_sub (columns t) 1;
      if col =? last then mret t
      else
        first ← usize_add col 1;
        col ← next_tab (Z.to_nat (columns t - first)) (t_tabs t) col;
        move_forward_tabs_loop count (set_column col t)
  end.

Definition move_backward_tabs (count : Z) t : exec Term :=
  let old_col := column (term_cursor t) in
  t ← move_backward_tabs_loop (Z.to_nat count) t;
  damage_line (as_usize (line (term_cursor t))) (column (term_cursor t)) old_col t.

Definition move_forward_tabs (count : Z) t : exec Term :=
  let old_col := column (term_cursor t) in
  t ← move_forward_tabs_loop (Z.to_nat count) t;
  damage_line (as_usize (line (term_cursor t))) old_col (column (term_cursor t)) t.

(** ** Input *)

Definition wrapline t : exec Term :=
  if negb (has_mode t TermMode.LINE_WRAP) then mret t
  else
    t ← on_grid (λ g, update_cursor_cell g (insert_flags Flags.WRAPLINE)) t;
    x ← i32_add (line (term_cursor t)) 1;
    t ← (if r_end (t_scroll_region t) <=? x then linefeed t
         else
           t ← damage_cursor t;
           l ← i32_add (line (term_cursor t)) 1;
           mret (set_line l t));
    let t := set_needs_wrap false (set_column 0 t) in
    damage_cursor t.

(** The part of [write_at_cursor] that repairs the neighbours of an overwritten
    fullwidth cell. *)
Definition clear_overwritten_wide (cell : Cell) t : exec Term :=
  if Bitflags.intersects (flags cell) (Z.lor Flags.WIDE_CHAR Flags.WIDE_CHAR_SPACER) then
    let wide := Bitflags.contains (flags cell) Flags.WIDE_CHAR in
    let p := term_cursor t in
    last ← last_column t;
    t ← (if (wide : bool) && (column p <? last) then
           col ← usize_add (column p) 1;
           on_grid (λ g, grid_update_cell g (mkPoint (line p) col)
                           (remove_flags Flags.WIDE_CHAR_SPACER)) t
         else if 0 <? column p then
           col ← usize_sub (column p) 1;
           on_grid (λ g, grid_update_cell g (mkPoint (line p) col) clear_wide) t
         else mret t);
    top ← topmost_line t;
    if (column p <=? 1) && negb (line p =? top) then
      l ← i32_sub (line p) 1;
      on_grid (λ g, grid_update_cell g (mkPoint l last)
                      (remove_flags Flags.LEADING_WIDE_CHAR_SPACER)) t
    else mret t
  else mret t.

Definition write_at_cursor (ch : char) t : exec Term :=
  charset ← charsets_get (charsets (cursor (t_grid t))) (t_active_charset t);
  let ch := charset_map charset ch in
  let tmpl := term_template t in
  cell ← grid_cell (t_grid t) (term_cursor t);
  t ← clear_overwritten_wide cell t;
  on_grid (λ g, update_cursor_cell g
    (λ _, mkCell ch (fg tmpl) (bg tmpl) (flags tmpl) (extra tmpl))) t.

(** [self.grid.cursor.template.flags.insert(f)] around a write. *)
Definition write_with_flag (f : Z) (ch : char) t : exec Term :=
  let t := set_template (insert_flags f (term_template t)) t in
  t ← write_at_cursor ch t;
  mret (set_template (remove_flags f (term_template t)) t).

(** A zero-width character is added to the previous cell. *)
Definition input_zerowidth (ch : char) t : exec Term :=
  let cur := cursor (t_grid t) in
  let col := if input_needs_wrap cur then column (point cur)
             else saturating_sub (column (point cur)) 1 in
  let l := line (point cur) in
  cell ← grid_cell (t_grid t) (mkPoint l col);
  let col := if Bitflags.contains (flags cell) Flags.WIDE_CHAR_SPACER
             then saturating_sub col 1 else col in
  on_grid (λ g, grid_update_cell g (mkPoint l col) (push_zerowidth ch)) t.

(** In insert mode the rest of the row moves right by [width]. *)
Definition shift_right (width : Z) t : exec Term :=
  let col := column (term_cursor t) in
  if has_mode t TermMode.INSERT then
    x ← usize_add col width;
    if x <? columns t then
      n ← usize_sub (columns t) width;
      on_grid (λ g, grid_update_row g (line (term_cursor t)) (λ r,
        row_with_slice r (for_range_rev col n (λ i row,
          j ← usize_add i width; vec_swap row j i)))) t
    else mret t
  else mret t.

(** A fullwidth character: the glyph and a spacer behind it.  The result says
    whether the glyph was written. *)
Definition input_wide (ch : char) t : exec (Term * bool) :=
  x ← usize_add (column (term_cursor t)) 1;
  '(t, go) ←
    (if columns t <=? x then
       if has_mode t TermMode.LINE_WRAP then
         t ← write_with_flag Flags.LEADING_WIDE_CHAR_SPACER SPACE t;
         t ← wrapline t;
         mret (t, true)
       else mret (set_needs_wrap true t, false)
     else mret (t, true));
  if negb go then mret (t, false)
  else
    t ← write_with_flag Flags.WIDE_CHAR ch t;
    col ← usize_add (column (term_cursor t)) 1;
    let t := set_column col t in
    t ← write_with_flag Flags.WIDE_CHAR_SPACER SPACE t;
    mret (t, true).

(** The cursor after a character was written. *)
Definition advance_cursor t : exec Term :=
  x ← usize_add (column (term_cursor t)) 1;
  if x <? columns t then mret (set_column x t) else mret (set_needs_wrap true t).

Definition input (ch : char) t : exec Term :=
  match char_width ch with
  | None => mret t
  | Some width =>
      if width =? 0 then input_zerowidth ch t
      else
        t ← (if input_needs_wrap (cursor (t_grid t)) then wrapline t else mret t);
        t ← shift_right width t;
        if width =? 1 then
          t ← write_at_cursor ch t;
          advance_cursor t
        else
          '(t, written) ← input_wide ch t;
          if (written : bool) then advance_cursor t else mret t
  end.

(** The outer loop of [put_tab]. *)
Fixpoint put_tab_loop (count : nat) t : exec Term :=
  match count with
  | O => mret t
  | S count =>
      if column (term_cursor t) <? columns t then
        charset ← charsets_get (charsets (cursor (t_grid t))) (t_active_charset t);
        let ch := charset_map charset TAB in
        t ← on_grid (λ g, update_cursor_cell g
              (λ cell, if c cell =? SPACE then with_c ch cell else cell)) t;
        t ← tab_advance (Z.to_nat (columns t)) t;
        put_tab_loop count t
      else mret t
  end.

Definition put_tab (count : Z) t : exec Term :=
  if input_needs_wrap (cursor (t_grid t)) then wrapline t
  else put_tab_loop (Z.to_nat count) t.

(** ** Editing a line *)

Definition insert_blank (count : Z) t : exec Term :=
  let cur := term_cursor t in
  let bg := bg (term_template t) in
  room ← usize_sub (columns t) (column cur);
  let count := Z.min count room in
  let source := column cur in
  destination ← usize_add (column cur) count;
  num_cells ← usize_sub (columns t) destination;
  last ← usize_sub (columns t) 1;
  t ← damage_line (as_usize (line cur)) 0 last t;
  on_grid (λ g, grid_update_row g (line cur) (λ r, row_with_slice r (λ row,
    row ← for_range_rev 0 num_cells (λ offset row,
      i ← usize_add destination offset; j ← usize_add source offset; vec_swap row i j) row;
    vec_map_range row source destination (λ _, cell_from bg)))) t.

Definition delete_chars (count : Z) t : exec Term :=
  let columns := columns t in
  let cur := term_cursor t in
  let bg := bg (term_template t) in
  let count := Z.min count columns in
  let start := column cur in
  x ← usize_add start count;
  last ← usize_sub columns 1;
  let end_ := Z.min x last in
  num_cells ← usize_sub columns end_;
  t ← damage_line (as_usize (line cur)) 0 last t;
  on_grid (λ g, grid_update_row g (line cur) (λ r, row_with_slice r (λ row,
    row ← for_range 0 num_cells (λ offset row,
      i ← usize_add start offset; j ← usize_add end_ offset; vec_swap row i j) row;
    end_ ← usize_sub columns count;
    vec_map_range row end_ (zlen row) (λ _, cell_from bg)))) t.

Definition erase_chars (count : Z) t : exec Term :=
  let cur := term_cursor t in
  let start := column cur in
  x ← usize_add start count;
  let end_ := Z.min x (columns t) in
  let bg := bg (term_template t) in
  t ← damage_line (as_usize (line cur)) start end_ t;
  on_grid (λ g, grid_update_row g (line cur) (λ r,
    row_map_range r start end_ (λ _, cell_from bg))) t.

(** [self.selection.take().filter(|s| !s.intersects_range(range))]. *)
Definition drop_selection (lo hi : Bound) t : exec Term :=
  match t_selection t with
  | Some s =>
      hit ← intersects_range s lo hi;
      mret (if (hit : bool) then upd_selection None t else t)
  | None => mret t
  end.

Definition clear_line (mode : LineClearMode) t : exec Term :=
  let cur := cursor (t_grid t) in
  let bg := bg (template cur) in
  let p := point cur in
  bounds ← match mode with
    | LineRight => if input_needs_wrap cur then mret None else mret (Some (column p, columns t))
    | LineLeft => x ← usize_add (column p) 1; mret (Some (0, x))
    | LineAll => mret (Some (0, columns t))
    end;
  match bounds with
  | None => mret t
  | Some (from, to) =>
      last ← usize_sub to 1;
      t ← damage_line (as_usize (line p)) from last t;
      t ← on_grid (λ g, grid_update_row g (line p) (λ r,
            row_map_range r from to (λ _, cell_from bg))) t;
      let l := line (term_cursor t) in
      drop_selection (Included l) (Included l) t
  end.

(** ** Clearing the screen *)

Definition clear_screen (mode : ClearMode) t : exec Term :=
  let bg := bg (term_template t) in
  let screen_lines := screen_lines t in
  t ← match mode with
    | ClearAbove =>
        let cur := term_cursor t in
        t ← (if 1 <? line cur
             then on_grid (λ g, reset_region g Unbounded (Excluded (line cur))) t
             else mret t);
        x ← usize_add (column cur) 1;
        let end_ := Z.min x (columns t) in
        t ← on_grid (λ g, grid_update_row g (line cur) (λ r,
              row_map_range_to r end_ (λ _, cell_from bg))) t;
        drop_selection (Included 0) (Included (line cur)) t
    | ClearBelow =>
        let cur := term_cursor t in
        t ← on_grid (λ g, grid_update_row g (line cur) (λ r,
              row_map_range_from r (column cur) (λ _, cell_from bg))) t;
        last ← usize_sub screen_lines 1;
        t ← (if as_usize (line cur) <? last then
               l ← i32_add (line cur) 1;
               on_grid (λ g, reset_region g (Included l) Unbounded) t
             else mret t);
        drop_selection (Included (line cur)) (Excluded (as_i32 screen_lines)) t
    | ClearAll =>
        t ← (if has_mode t TermMode.ALT_SCREEN
             then on_grid (λ g, reset_region g Unbounded Unbounded) t
             else
               let old_offset := display_offset (t_grid t) in
               t ← on_grid clear_viewport t;
               let lines := saturating_sub (display_offset (t_grid t)) old_offset in
               l ← line_sub_usize (line (t_vi_mode_cursor t)) lines;
               l ← line_grid_clamp l t BGrid;
               mret (set_vi_line l t));
        mret (upd_selection None t)
    | ClearSaved =>
        if 0 <? history_size t then
          t ← on_grid clear_history t;
          l ← line_grid_clamp (line (t_vi_mode_cursor t)) t BCursor;
          let t := set_vi_line l t in
          drop_selection Unbounded (Excluded 0) t
        else mret t
    end;
  mret (mark_fully_damaged t).

Definition decaln t : exec Term :=
  t ← on_grid (for_range 0 (screen_lines t) (λ l,
        for_range 0 (columns t) (λ col g,
          grid_update_cell g (mkPoint (as_i32 l) col) (λ _, with_c 69 default_cell)))) t;
  mret (mark_fully_damaged t).

(** ** Modes *)

Definition set_scrolling_region (top : Z) (bottom : option Z) t : exec Term :=
  let bottom := default (screen_lines t) bottom in
  if bottom <=? top then mret t
  else
    start ← i32_sub (as_i32 top) 1;
    let end_ := as_i32 bottom in
    let screen_lines := as_i32 (screen_lines t) in
    let t := upd_scroll_region
               (mkLines (Z.min start screen_lines) (Z.min end_ screen_lines)) t in
    goto 0 0 t.

Definition deccolm t : exec Term :=
  t ← set_scrolling_region 1 None t;
  t ← on_grid (λ g, reset_region g Unbounded Unbounded) t;
  mret (mark_fully_damaged t).

(** [self.cursor_style.get_or_insert(self.config.default_cursor_style)]. *)
Definition style_or_default t : CursorStyle :=
  default (default_cursor_style (t_config t)) (t_cursor_style t).

Definition set_blinking (b : bool) t : Term :=
  send_event CursorBlinkingChange
    (upd_cursor_style (Some (mkCursorStyle (shape (style_or_default t)) b)) t).

Definition set_private_mode (m : PrivateMode) t : exec Term :=
  match m with
  | PrivateUnknown _ => mret t
  | PrivateNamed m =>
      match m with
      | UrgencyHints => mret (insert_mode TermMode.URGENCY_HINTS t)
      | SwapScreenAndSetRestoreCursor =>
          if negb (has_mode t TermMode.ALT_SCREEN) then swap_alt t else mret t
      | ShowCursor => mret (insert_mode TermMode.SHOW_CURSOR t)
      | CursorKeys => mret (insert_mode TermMode.APP_CURSOR t)
      | ReportMouseClicks =>
          mret (send_event MouseCursorDirty
            (insert_mode TermMode.MOUSE_REPORT_CLICK (remove_mode TermMode.MOUSE_MODE t)))
      | ReportCellMouseMotion =>
          mret (send_event MouseCursorDirty
            (insert_mode TermMode.MOUSE_DRAG (remove_mode TermMode.MOUSE_MODE t)))
      | ReportAllMouseMotion =>
          mret (send_event MouseCursorDirty
            (insert_mode TermMode.MOUSE_MOTION (remove_mode TermMode.MOUSE_MODE t)))
      | ReportFocusInOut => mret (insert_mode TermMode.FOCUS_IN_OUT t)
      | BracketedPaste => mret (insert_mode TermMode.BRACKETED_PASTE t)
      | SgrMouse => mret (insert_mode TermMode.SGR_MOUSE (remove_mode TermMode.UTF8_MOUSE t))
      | Utf8Mouse => mret (insert_mode TermMode.UTF8_MOUSE (remove_mode TermMode.SGR_MOUSE t))
      | AlternateScroll => mret (insert_mode TermMode.ALTERNATE_SCROLL t)
      | LineWrap => mret (insert_mode TermMode.LINE_WRAP t)
      | Origin => goto 0 0 (insert_mode TermMode.ORIGIN t)
      | ColumnMode => deccolm t
      | BlinkingCursor => mret (set_blinking true t)
      | SyncUpdate => mret t
      end
  end.

Definition unset_private_mode (m : PrivateMode) t : exec Term :=
  match m with
  | PrivateUnknown _ => mret t
  | PrivateNamed m =>
      match m with
      | UrgencyHints => mret (remove_mode TermMode.URGENCY_HINTS t)
      | SwapScreenAndSetRestoreCursor =>
          if has_mode t TermMode.ALT_SCREEN then swap_alt t else mret t
      | ShowCursor => mret (remove_mode TermMode.SHOW_CURSOR t)
      | CursorKeys => mret (remove_mode TermMode.APP_CURSOR t)
      | ReportMouseClicks =>
          mret (send_event MouseCursorDirty (remove_mode TermMode.MOUSE_REPORT_CLICK t))
      | ReportCellMouseMotion =>
          mret (send_event MouseCursorDirty (remove_mode TermMode.MOUSE_DRAG t))
      | ReportAllMouseMotion =>
          mret (send_event MouseCursorDirty (remove_mode TermMode.MOUSE_MOTION t))
      | ReportFocusInOut => mret (remove_mode TermMode.FOCUS_IN_OUT t)
      | BracketedPaste => mret (remove_mode TermMode.BRACKETED_PASTE t)
      | SgrMouse => mret (remove_mode TermMode.SGR_MOUSE t)
      | Utf8Mouse => mret (remove_mode TermMode.UTF8_MOUSE t)
      | AlternateScroll => mret (remove_mode TermMode.ALTERNATE_SCROLL t)
      | LineWrap => mret (remove_mode TermMode.LINE_WRAP t)
      | Origin => mret (remove_mode TermMode.ORIGIN t)
      | ColumnMode => deccolm t
      | BlinkingCursor => mret (set_blinking false t)
      | SyncUpdate => mret t
      end
  end.

(** [format!("\x1b[?{};{}$y", mode, state)]. *)
Definition report_private_mode (m : PrivateMode) t : Term :=
  let has f := mode_state_of (has_mode t f) in
  let '(t, state) :=
    match m with
    | PrivateUnknown _ => (t, NotSupported)
    | PrivateNamed m =>
        match m with
        | CursorKeys => (t, has TermMode.APP_CURSOR)
        | Origin => (t, has TermMode.ORIGIN)
        | LineWrap => (t, has TermMode.LINE_WRAP)
        | BlinkingCursor =>
            (upd_cursor_style (Some (style_or_default t)) t,
             mode_state_of (blinking (style_or_default t)))
        | ShowCursor => (t, has TermMode.SHOW_CURSOR)
        | ReportMouseClicks => (t, has TermMode.MOUSE_REPORT_CLICK)
        | ReportCellMouseMotion => (t, has TermMode.MOUSE_DRAG)
        | ReportAllMouseMotion => (t, has TermMode.MOUSE_MOTION)
        | ReportFocusInOut => (t, has TermMode.FOCUS_IN_OUT)
        | Utf8Mouse => (t, has TermMode.UTF8_MOUSE)
        | SgrMouse => (t, has TermMode.SGR_MOUSE)
        | AlternateScroll => (t, has TermMode.ALTERNATE_SCROLL)
        | UrgencyHints => (t, has TermMode.URGENCY_HINTS)
        | SwapScreenAndSetRestoreCursor => (t, has TermMode.ALT_SCREEN)
        | BracketedPaste => (t, has TermMode.BRACKETED_PASTE)
        | SyncUpdate => (t, StateReset)
        | ColumnMode => (t, NotSupported)
        end
    end in
  send_event (PtyWrite ([ESC] ++ str "[?" ++ show (private_mode_raw m) ++ str ";"
    ++ show (mode_state_as_u8 state) ++ str "$y")) t.

Definition set_mode (m : Mode) t : Term :=
  match m with
  | ModeUnknown _ => t
  | ModeNamed Insert => insert_mode TermMode.INSERT t
  | ModeNamed LineFeedNewLine => insert_mode TermMode.LINE_FEED_NEW_LINE t
  end.

Definition unset_mode (m : Mode) t : Term :=
  match m with
  | ModeUnknown _ => t
  | ModeNamed Insert => mark_fully_damaged (remove_mode TermMode.INSERT t)
  | ModeNamed LineFeedNewLine => remove_mode TermMode.LINE_FEED_NEW_LINE t
  end.

Definition report_mode (m : Mode) t : Term :=
  let state :=
    match m with
    | ModeNamed Insert => mode_state_of (has_mode t TermMode.INSERT)
    | ModeNamed LineFeedNewLine => mode_state_of (has_mode t TermMode.LINE_FEED_NEW_LINE)
    | ModeUnknown _ => NotSupported
    end in
  send_event (PtyWrite ([ESC] ++ str "[" ++ show (mode_raw m) ++ str ";"
    ++ show (mode_state_as_u8 state) ++ str "$y")) t.

Definition set_keypad_application_mode t : Term := insert_mode TermMode.APP_KEYPAD t.
Definition unset_keypad_application_mode t : Term := remove_mode TermMode.APP_KEYPAD t.

(** ** Keyboard protocol *)

Definition report_keyboard_mode t : Term :=
  if negb (kitty_keyboard (t_config t)) then t
  else
    let current_mode := default KM_NO_MODE (last (t_keyboard_mode_stack t)) in
    send_event (PtyWrite ([ESC] ++ str "[?" ++ show current_mode ++ str "u")) t.

(** [vec.remove(0)]. *)
Definition vec_remove_first {A} (l : list A) : exec (list A) :=
  match l with [] => Panic PanicIndex | _ :: l => Ok l end.

Definition push_keyboard_mode (mode : Z) t : exec Term :=
  if negb (kitty_keyboard (t_config t)) then mret t
  else
    t ← (if KEYBOARD_MODE_STACK_MAX_DEPTH <=? zlen (t_keyboard_mode_stack t) then
           titles ← vec_remove_first (t_title_stack t);
           mret (upd_title_stack titles t)
         else mret t);
    let t := upd_keyboard_mode_stack (t_keyboard_mode_stack t ++ [mode]) t in
    mret (apply_keyboard_mode (term_mode_of mode) Replace t).

Definition pop_keyboard_modes (to_pop : Z) t : Term :=
  if negb (kitty_keyboard (t_config t)) then t
  else
    let new_len := saturating_sub (zlen (t_keyboard_mode_stack t)) to_pop in
    let t := upd_keyboard_mode_stack (take (Z.to_nat new_len) (t_keyboard_mode_stack t)) t in
    let mode := default KM_NO_MODE (last (t_keyboard_mode_stack t)) in
    apply_keyboard_mode (term_mode_of mode) Replace t.

Definition set_keyboard_mode (mode : Z) (apply : KeyboardModesApplyBehavior) t : Term :=
  if negb (kitty_keyboard (t_config t)) then t
  else apply_keyboard_mode (term_mode_of mode) apply t.

(** ** Reports *)

Definition identify_terminal (intermediate : option char) t : exec Term :=
  match intermediate with
  | None => mret (send_event (PtyWrite ([ESC] ++ str "[?6c")) t)
  | Some ch =>
      if ch =? 62 then
        version ← version_number CARGO_PKG_VERSION;
        mret (send_event (PtyWrite ([ESC] ++ str "[>0;" ++ show version ++ str ";1c")) t)
      else mret t
  end.

Definition device_status (arg : Z) t : exec Term :=
  if arg =? 5 then mret (send_event (PtyWrite ([ESC] ++ str "[0n")) t)
  else if arg =? 6 then
    l ← i32_add (line (term_cursor t)) 1;
    col ← usize_add (column (term_cursor t)) 1;
    mret (send_event (PtyWrite ([ESC] ++ str "[" ++ show l ++ str ";" ++ show col ++ str "R")) t)
  else mret t.

Definition text_area_size_pixels t : Term :=
  send_event (TextAreaSizeRequest (λ w,
    height ← u16_mul (num_lines w) (cell_height w);
    width ← u16_mul (num_cols w) (cell_width w);
    mret ([ESC] ++ str "[4;" ++ show height ++ str ";" ++ show width ++ str "t"))) t.

Definition text_area_size_chars t : Term :=
  send_event (PtyWrite ([ESC] ++ str "[8;" ++ show (screen_lines t) ++ str ";"
    ++ show (columns t) ++ str "t")) t.

Definition bell t : Term := send_event Bell t.
Definition substitute t : Term := t.

(** ** Colors *)

Definition set_color (index : Z) (color : Rgb) t : exec Term :=
  t ← (if negb (index =? named_color_as_usize CursorColor) then
         old ← vec_get (t_colors t) index;
         mret (if bool_decide (old ≠ Some color) then mark_fully_damaged t else t)
       else mret t);
  colors ← vec_set (t_colors t) index (Some color);
  mret (upd_colors colors t).

Definition reset_color (index : Z) t : exec Term :=
  t ← (if negb (index =? named_color_as_usize CursorColor) then
         old ← vec_get (t_colors t) index;
         mret (if negb (is_none old) then mark_fully_damaged t else t)
       else mret t);
  colors ← vec_set (t_colors t) index None;
  mret (upd_colors colors t).

Definition dynamic_color_sequence (prefix : text) (index : Z) (terminator : text) t : Term :=
  send_event (ColorRequest index (λ color,
    [ESC] ++ str "]" ++ prefix ++ str ";rgb:" ++ hex2 (red color) ++ hex2 (red color) ++ str "/"
    ++ hex2 (green color) ++ hex2 (green color) ++ str "/"
    ++ hex2 (blue color) ++ hex2 (blue color) ++ terminator)) t.

(** ** Clipboard *)

Definition clipboard_type (clipboard : Z) : option ClipboardType :=
  if clipboard =? 99 then Some Clipboard
  else if (clipboard =? 112) || (clipboard =? 115) then Some SelectionClipboard
  else None.

Definition clipboard_store (clipboard : Z) (base64 : list Z) t : Term :=
  match osc52 (t_config t) with
  | OnlyCopy | CopyPaste =>
      match clipboard_type clipboard with
      | None => t
      | Some ty =>
          match base64_decode base64 with
          | Some bytes =>
              match string_from_utf8 bytes with
              | Some s => send_event (ClipboardStore ty s) t
              | None => t
              end
          | None => t
          end
      end
  | _ => t
  end.

Definition clipboard_load (clipboard : Z) (terminator : text) t : Term :=
  match osc52 (t_config t) with
  | OnlyPaste | CopyPaste =>
      match clipboard_type clipboard with
      | None => t
      | Some ty =>
          send_event (ClipboardLoad ty (λ s,
            [ESC] ++ str "]52;" ++ [clipboard] ++ str ";" ++ base64_encode s ++ terminator)) t
      end
  | _ => t
  end.

(** ** Attributes, charsets, titles *)

Definition set_hyperlink (h : option VteHyperlink) t : Term :=
  match h with
  | None => set_template (Cell.set_hyperlink None (term_template t)) t
  | Some h =>
      let '(h, suffix) := hyperlink_of_vte (t_hyperlink_suffix t) h in
      let t := upd_hyperlink_suffix suffix t in
      set_template (Cell.set_hyperlink (Some h) (term_template t)) t
  end.

(** Only one kind of underline is set. *)
Definition underline_with (f : Z) (x : Cell) : Cell :=
  insert_flags f (remove_flags Flags.ALL_UNDERLINES x).

(** What an attribute does to the cursor's template. *)
Definition apply_attribute (attr : Attr) (x : Cell) : Cell :=
  match attr with
  | AttrForeground color => with_fg color x
  | AttrBackground color => with_bg color x
  | UnderlineColor color => set_underline_color color x
  | AttrReset =>
      set_underline_color None
        (with_flags Flags.empty (with_bg (Named Background) (with_fg (Named Foreground) x)))
  | Reverse => insert_flags Flags.INVERSE x
  | CancelReverse => remove_flags Flags.INVERSE x
  | Bold => insert_flags Flags.BOLD x
  | CancelBold => remove_flags Flags.BOLD x
  | Dim => insert_flags Flags.DIM x
  | CancelBoldDim => remove_flags (Z.lor Flags.BOLD Flags.DIM) x
  | Italic => insert_flags Flags.ITALIC x
  | CancelItalic => remove_flags Flags.ITALIC x
  | AttrUnderline => underline_with Flags.UNDERLINE x
  | DoubleUnderline => underline_with Flags.DOUBLE_UNDERLINE x
  | Undercurl => underline_with Flags.UNDERCURL x
  | DottedUnderline => underline_with Flags.DOTTED_UNDERLINE x
  | DashedUnderline => underline_with Flags.DASHED_UNDERLINE x
  | CancelUnderline => remove_flags Flags.ALL_UNDERLINES x
  | AttrHidden => insert_flags Flags.HIDDEN x
  | CancelHidden => remove_flags Flags.HIDDEN x
  | Strike => insert_flags Flags.STRIKEOUT x
  | CancelStrike => remove_flags Flags.STRIKEOUT x
  | AttrOther => x
  end.

Definition terminal_attribute (attr : Attr) t : Term :=
  set_template (apply_attribute attr (term_template t)) t.

Definition configure_charset (index : CharsetIndex) (charset : StandardCharset) t : exec Term :=
  let cur := cursor (t_grid t) in
  cs ← charsets_set (charsets cur) index charset;
  mret (upd_grid (with_cursor (t_grid t) (cursor_with_charsets cur cs)) t).

Definition set_active_charset (index : CharsetIndex) t : Term := upd_active_charset index t.

Definition set_cursor_style (style : option CursorStyle) t : Term :=
  send_event CursorBlinkingChange (upd_cursor_style style t).

Definition set_cursor_shape (sh : CursorShape) t : Term :=
  upd_cursor_style (Some (mkCursorStyle sh (blinking (style_or_default t)))) t.

Definition set_title (title : option text) t : Term :=
  send_event (match title with Some s => Title s | None => ResetTitle end) (upd_title title t).

Definition push_title t : exec Term :=
  t ← (if TITLE_STACK_MAX_DEPTH <=? zlen (t_title_stack t) then
         titles ← vec_remove_first (t_title_stack t);
         mret (upd_title_stack titles t)
       else mret t);
  mret (upd_title_stack (t_title_stack t ++ [t_title t]) t).

Definition pop_title t : Term :=
  match last (t_title_stack t) with
  | Some popped =>
      let n := pred (length (t_title_stack t)) in
      set_title popped (upd_title_stack (take n (t_title_stack t)) t)
  | None => t
  end.

Definition reset_state t : exec Term :=
  let t := if has_mode t TermMode.ALT_SCREEN then
             let g := t_grid t in upd_inactive_grid g (upd_grid (t_inactive_grid t) t)
           else t in
  let t := upd_active_charset charset_index_default t in
  let t := upd_cursor_style None t in
  t ← on_grid grid_reset t;
  g ← grid_reset (t_inactive_grid t);
  let t := upd_inactive_grid g t in
  let t := upd_scroll_region (mkLines 0 (as_i32 (screen_lines t))) t in
  let t := upd_tabs (tabs_new (columns t)) t in
  let t := upd_title_stack [] t in
  let t := upd_title None t in
  let t := upd_selection None t in
  let t := upd_vi_mode_cursor default_point t in
  let t := upd_keyboard_mode_stack [] t in
  let t := upd_inactive_keyboard_mode_stack [] t in
  let t := upd_mode (Z.land (t_mode t) TermMode.VI) t in
  let t := insert_mode TermMode.default t in
  let t := send_event CursorBlinkingChange t in
  mret (mark_fully_damaged t).

(** ** The calls of the parser *)

Inductive call :=
  | Input (ch : char) | Decaln | Goto (l col : Z) | GotoLine (l : Z) | GotoCol (col : Z)
  | InsertBlank (count : Z) | MoveUp (lines : Z) | MoveDown (lines : Z)
  | MoveForward (cols : Z) | MoveBackward (cols : Z)
  | MoveDownAndCr (lines : Z) | MoveUpAndCr (lines : Z)
  | IdentifyTerminal (intermediate : option char) | DeviceStatus (arg : Z)
  | ReportKeyboardMode | PushKeyboardMode (mode : Z) | PopKeyboardModes (to_pop : Z)
  | SetKeyboardMode (mode : Z) (apply : KeyboardModesApplyBehavior)
  | PutTab (count : Z) | Backspace | CarriageReturn | Linefeed | BellCall | Substitute | Newline
  | SetHorizontalTabstop | ScrollUp (lines : Z) | ScrollDown (lines : Z)
  | InsertBlankLines (lines : Z) | DeleteLines (lines : Z) | EraseChars (count : Z)
  | DeleteChars (count : Z) | MoveBackwardTabs (count : Z) | MoveForwardTabs (count : Z)
  | SaveCursorPosition | RestoreCursorPosition | ClearLine (mode : LineClearMode)
  | SetColor (index : Z) (color : Rgb) | ResetColor (index : Z)
  | DynamicColorSequence (prefix : text) (index : Z) (terminator : text)
  | ClipboardStoreCall (clipboard : Z) (base64 : list Z)
  | ClipboardLoadCall (clipboard : Z) (terminator : text)
  | ClearScreen (mode : ClearMode) | ClearTabs (mode : TabulationClearMode) | ResetState
  | ReverseIndex | SetHyperlink (h : option VteHyperlink) | TerminalAttribute (attr : Attr)
  | SetPrivateMode (m : PrivateMode) | UnsetPrivateMode (m : PrivateMode)
  | ReportPrivateMode (m : PrivateMode)
  | SetMode (m : Mode) | UnsetMode (m : Mode) | ReportMode (m : Mode)
  | SetScrollingRegion (top : Z) (bottom : option Z)
  | SetKeypadApplicationMode | UnsetKeypadApplicationMode
  | ConfigureCharset (index : CharsetIndex) (charset : StandardCharset)
  | SetActiveCharset (index : CharsetIndex)
  | SetCursorStyle (style : option CursorStyle) | SetCursorShape (sh : CursorShape)
  | SetTitle (title : option text) | PushTitle | PopTitle
  | TextAreaSizePixels | TextAreaSizeChars.

Definition handle (h : call) t : exec Term :=
  match h with
  | Input ch => input ch t
  | Decaln => decaln t
  | Goto l col => goto l col t
  | GotoLine l => goto_line l t
  | GotoCol col => goto_col col t
  | InsertBlank count => insert_blank count t
  | MoveUp lines => move_up lines t
  | MoveDown lines => move_down lines t
  | MoveForward cols => move_forward cols t
  | MoveBackward cols => move_backward cols t
  | MoveDownAndCr lines => move_down_and_cr lines t
  | MoveUpAndCr lines => move_up_and_cr lines t
  | IdentifyTerminal i => identify_terminal i t
  | DeviceStatus arg => device_status arg t
  | ReportKeyboardMode => mret (report_keyboard_mode t)
  | PushKeyboardMode m => push_keyboard_mode m t
  | PopKeyboardModes n => mret (pop_keyboard_modes n t)
  | SetKeyboardMode m a => mret (set_keyboard_mode m a t)
  | PutTab count => put_tab count t
  | Backspace => backspace t
  | CarriageReturn => carriage_return t
  | Linefeed => linefeed t
  | BellCall => mret (bell t)
  | Substitute => mret (substitute t)
  | Newline => newline t
  | SetHorizontalTabstop => set_horizontal_tabstop t
  | ScrollUp lines => scroll_up lines t
  | ScrollDown lines => scroll_down lines t
  | InsertBlankLines lines => insert_blank_lines lines t
  | DeleteLines lines => delete_lines lines t
  | EraseChars count => erase_chars count t
  | DeleteChars count => delete_chars count t
  | MoveBackwardTabs count => move_backward_tabs count t
  | MoveForwardTabs count => move_forward_tabs count t
  | SaveCursorPosition => mret (save_cursor_position t)
  | RestoreCursorPosition => restore_cursor_position t
  | ClearLine m => clear_line m t
  | SetColor i col => set_color i col t
  | ResetColor i => reset_color i t
  | DynamicColorSequence p i s => mret (dynamic_color_sequence p i s t)
  | ClipboardStoreCall k b => mret (clipboard_store k b t)
  | ClipboardLoadCall k s => mret (clipboard_load k s t)
  | ClearScreen m => clear_screen m t
  | ClearTabs m => clear_tabs m t
  | ResetState => reset_state t
  | ReverseIndex => reverse_index t
  | SetHyperlink h => mret (set_hyperlink h t)
  | TerminalAttribute a => mret (terminal_attribute a t)
  | SetPrivateMode m => set_private_mode m t
  | UnsetPrivateMode m => unset_private_mode m t
  | ReportPrivateMode m => mret (report_private_mode m t)
  | SetMode m => mret (set_mode m t)
  | UnsetMode m => mret (unset_mode m t)
  | ReportMode m => mret (report_mode m t)
  | SetScrollingRegion top bottom => set_scrolling_region top bottom t
  | SetKeypadApplicationMode => mret (set_keypad_application_mode t)
  | UnsetKeypadApplicationMode => mret (unset_keypad_application_mode t)
  | ConfigureCharset i cs => configure_charset i cs t
  | SetActiveCharset i => mret (set_active_charset i t)
  | SetCursorStyle s => mret (set_cursor_style s t)
  | SetCursorShape s => mret (set_cursor_shape s t)
  | SetTitle s => mret (set_title s t)
  | PushTitle => push_title t
  | PopTitle => mret (pop_title t)
  | TextAreaSizePixels => mret (text_area_size_pixels t)
  | TextAreaSizeChars => mret (text_area_size_chars t)
  end.

(** A sequence of calls, as a parser makes them. *)
Fixpoint handle_all (hs : list call) t : exec Term :=
  match hs with
  | [] => mret t
  | h :: hs => t ← handle h t; handle_all hs t
  end.
End handler.
