(* ===== verification/HandlerFacts.v ===== *)
(** * The handler keeps the invariant of the terminal

    For every method of the handler: on a well-formed terminal and for
    arguments in the range the parser produces, it returns, and the result is
    well-formed again.  The lemmas also describe the part of the effect that the
    claims in Claims.v need. *)

From S2P Require Import Prelude Index Ansi GridCell Row Storage Cell Grid GridFacts GridOps.
From S2P Require Import Resize Selection Term TermFacts Handler.
#[local] Open Scope Z_scope.

Section facts.
Context `{AnsiLaws} (R : Row Cell → Prop).
Implicit Types (t : Term) (g : Grid Cell).
#[local] Abbreviation term_wf := (term_wf R).

(** ** Rows and cells of the screen *)

Lemma screen_active B t l :
  term_wf B t → 0 ≤ l < screen_lines t → g_active (t_grid t) l.
Proof. intros W Hl. pose proof (term_bounds R B t W). unfold g_active. simpl in *. lia. Qed.

Lemma screen_grid B t p : term_wf B t → in_screen t p → in_grid (t_grid t) p.
Proof.
  intros W [? ?]. pose proof (term_bounds R B t W). unfold in_grid, top_of. simpl in *. lia.
Qed.

Lemma cursor_in_screen B t : term_wf B t → in_screen t (term_cursor t).
Proof. intros W. apply (go_cursor _ _ (tw_grid _ _ _ W)). Qed.

(** A write through [&mut row[a..b]] on the line [l]. *)
Lemma wp_update_row B t l f h a b (Q : Term → Prop) :
  term_wf B t → g_active (t_grid t) l →
  (∀ r, row_len r = columns t → 0 ≤ occ r ≤ columns t → wp (f r) (row_written a b h r)) →
  (∀ g r r', term_wf B (upd_grid g t) → row_replaced l r' (t_grid t) g →
     g_line (t_grid t) l = Some r → row_written a b h r r' → Q (upd_grid g t)) →
  wp (on_grid (λ g, grid_update_row g l f) t) Q.
Proof.
  intros W Hl Hf HQ.
  apply (wp_on_grid_frame R B) with (P := λ g, grid_wf R g ∧ ∃ r r',
    row_replaced l r' (t_grid t) g ∧ g_line (t_grid t) l = Some r ∧ row_written a b h r r');
    [done| | |].
  - apply (wp_grid_write R _ l f h a b); [apply W|done|done|].
    intros g r r' Wg Hrep Hr Hw. split; [done|]. by exists r, r'.
  - intros g (? & r & r' & Hrep & _). split; [done|apply Hrep].
  - intros g (? & r & r' & Hrep & Hr & Hw) W'. by eapply HQ.
Qed.

(** Code that works on the slice of a whole row. *)
Lemma wp_update_slice B t l f (P : list Cell → list Cell → Prop) (Q : Term → Prop) :
  term_wf B t → 0 ≤ l < screen_lines t →
  (∀ row, zlen row = columns t → wp (f row) (λ row', zlen row' = columns t ∧ P row row')) →
  (∀ g r r', term_wf B (upd_grid g t) → row_replaced l r' (t_grid t) g →
     g_line (t_grid t) l = Some r → zlen (r_inner r) = columns t →
     P (r_inner r) (r_inner r') → Q (upd_grid g t)) →
  wp (on_grid (λ g, grid_update_row g l (λ r, row_with_slice r f)) t) Q.
Proof.
  intros W Hl Hf HQ. pose proof (go_wf _ _ (tw_grid _ _ _ W)) as Wg.
  pose proof (sw_pred _ _ _ (gw_storage _ _ Wg)) as Pr.
  destruct (g_line_some R (t_grid t) l Wg) as (r & Hr & HR).
  destruct (grid_row_len R _ r Wg HR) as [Hlen _].
  apply (wp_on_grid_frame R B) with (P := λ g, grid_wf R g ∧ ∃ r',
    row_replaced l r' (t_grid t) g ∧ P (r_inner r) (r_inner r')); [done| | |].
  - apply (wp_grid_update_row R) with (P := λ r', P (r_inner r) (r_inner r'));
      [done|by apply (screen_active B)| |].
    + intros r0 Hr0 _. rewrite Hr in Hr0. injection Hr0 as <-. unfold row_with_slice. wp_step.
      wp_use Hf; [done|]. intros row' [Hz HP]. wp_step. split; [|done].
      apply (rp_full _ _ Pr); simpl; done.
    + intros g' r' Wg' Hrep _ HP. split; [done|]. by exists r'.
  - intros g (? & r' & Hrep & _). split; [done|apply Hrep].
  - intros g (? & r' & Hrep & HP) W'. by eapply HQ.
Qed.

(** A write to one cell. *)
Lemma wp_update_cell B t p f (Q : Term → Prop) :
  term_wf B t → in_grid (t_grid t) p →
  (∀ g r r', term_wf B (upd_grid g t) → row_replaced (line p) r' (t_grid t) g →
     g_line (t_grid t) (line p) = Some r →
     row_written (column p) (column p + 1) f r r' → Q (upd_grid g t)) →
  wp (on_grid (λ g, grid_update_cell g p f) t) Q.
Proof.
  intros W [Hl Hc] HQ. pose proof (term_bounds R B t W).
  unfold in_grid, top_of in Hl. simpl in *.
  apply (wp_update_row B t (line p) _ f (column p) (column p + 1));
    [done|unfold g_active; lia| |done].
  intros r Hr _. apply row_modify_written; simpl in *; lia.
Qed.

Lemma wp_term_cell B t p (Q : Cell → Prop) :
  term_wf B t → in_grid (t_grid t) p → (∀ x, g_cell (t_grid t) p = Some x → Q x) →
  wp (grid_cell (t_grid t) p) Q.
Proof.
  intros W Hp HQ. apply (wp_grid_cell R); [apply W|done|done].
Qed.

Lemma wp_charset B t (Q : StandardCharset → Prop) :
  term_wf B t → (∀ cs, Q cs) →
  wp (charsets_get (charsets (cursor (t_grid t))) (t_active_charset t)) Q.
Proof.
  intros W HQ. destruct (tw_grid _ _ _ W) as [_ [_ Hc] _].
  pose proof (charset_index_range (t_active_charset t)).
  apply wp_vec_get; [lia|]. intros. apply HQ.
Qed.

(** ** Cursor movement *)

(** Where [goto] puts the cursor. *)
Definition goto_target t (l col : Z) : Point :=
  let off := if has_mode t TermMode.ORIGIN then r_start (t_scroll_region t) else 0 in
  let last := if has_mode t TermMode.ORIGIN then r_end (t_scroll_region t) - 1
              else screen_lines t - 1 in
  mkPoint (Z.max (Z.min (l + off) last) 0) (Z.min col (columns t - 1)).

Lemma goto_target_screen B t l col : term_wf B t → 0 ≤ col → in_screen t (goto_target t l col).
Proof.
  intros W Hc. pose proof (term_bounds R B t W). pose proof (tw_region _ _ _ W).
  unfold goto_target, in_screen; simpl in *. destruct (has_mode t TermMode.ORIGIN); lia.
Qed.

(** The result of a pure cursor movement to [p]. *)
Definition moved t (p : Point) (t' : Term) : Prop :=
  ∃ d, t' = upd_damage d (upd_grid (set_wrap (goto_point (t_grid t) p) false) t).

Lemma goto_spec B t l col :
  term_wf B t → -1073741824 ≤ l ≤ 1073741824 → 0 ≤ col →
  wp (goto l col t) (λ t', term_wf B t' ∧ moved t (goto_target t l col) t').
Proof.
  intros W Hl Hc. pose proof (term_bounds R B t W). pose proof (tw_region _ _ _ W) as Hr.
  simpl in Hr. pose proof (goto_target_screen B t l col W Hc) as Hp.
  unfold goto. rewrite (term_bottommost R B) by done. wp_step.
  eapply wp_mono with (Q := λ '(off, last), last = (if has_mode t TermMode.ORIGIN
    then r_end (t_scroll_region t) - 1 else screen_lines t - 1) ∧
    off = (if has_mode t TermMode.ORIGIN then r_start (t_scroll_region t) else 0)).
  { destruct (has_mode t TermMode.ORIGIN); cbn [mbind exec_bind]; wp_steps; done. }
  intros [off last] [-> ->]. wp_step. wp_use (damage_cursor_wf R B); [done|].
  intros t1 (d1 & -> & W1).
  wp_step. wp_step. { destruct (has_mode t TermMode.ORIGIN); lia. }
  cbv zeta. wp_step.
  change (last_column (set_line _ _)) with (last_column t).
  rewrite (term_last_column R B) by done. simpl.
  change (wp _ _) with (wp (t' ← damage_cursor (set_cursor_point (goto_target t l col)
    (upd_damage d1 t)); mret (set_needs_wrap false t'))
    (λ t', term_wf B t' ∧ moved t (goto_target t l col) t')).
  wp_step. wp_use (damage_cursor_wf R B); [by apply set_cursor_point_wf|].
  intros t2 (d2 & -> & W2). wp_step. split; [by apply set_needs_wrap_wf|]. by exists d2.
Qed.

Lemma moved_size t p t' : moved t p t' → same_size t t'.
Proof. by intros [d ->]. Qed.

Lemma moved_cursor t p t' : moved t p t' → term_cursor t' = p.
Proof. by intros [d ->]. Qed.

(** [goto] relative to the cursor. *)
Ltac relative_goto B W :=
  pose proof (term_bounds R B _ W);
  unfold move_up, move_down, move_up_and_cr, move_down_and_cr, line_add_usize, line_sub_usize;
  casts; wp_steps; apply (goto_spec B); [done|lia|lia].

Lemma move_up_spec B t n :
  term_wf B t → 0 ≤ n ≤ 536870912 →
  wp (move_up n t) (λ t', term_wf B t' ∧
    moved t (goto_target t (line (term_cursor t) - n) (column (term_cursor t))) t').
Proof. intros W Hn. relative_goto B W. Qed.

Lemma move_down_spec B t n :
  term_wf B t → 0 ≤ n ≤ 536870912 →
  wp (move_down n t) (λ t', term_wf B t' ∧
    moved t (goto_target t (line (term_cursor t) + n) (column (term_cursor t))) t').
Proof. intros W Hn. relative_goto B W. Qed.

Lemma move_up_and_cr_spec B t n :
  term_wf B t → 0 ≤ n ≤ 536870912 →
  wp (move_up_and_cr n t) (λ t', term_wf B t' ∧
    moved t (goto_target t (line (term_cursor t) - n) 0) t').
Proof. intros W Hn. relative_goto B W. Qed.

Lemma move_down_and_cr_spec B t n :
  term_wf B t → 0 ≤ n ≤ 536870912 →
  wp (move_down_and_cr n t) (λ t', term_wf B t' ∧
    moved t (goto_target t (line (term_cursor t) + n) 0) t').
Proof. intros W Hn. relative_goto B W. Qed.

(** A movement within the line of the cursor. *)
Lemma set_column_moved B t d col :
  term_wf B (upd_damage d t) → 0 ≤ col < columns t →
  term_wf B (set_needs_wrap false (set_column col (upd_damage d t))) ∧
  moved t (mkPoint (line (term_cursor t)) col)
    (set_needs_wrap false (set_column col (upd_damage d t))).
Proof.
  intros W Hc. pose proof (cursor_in_screen B _ W) as [Hl _]. split; [|by exists d].
  apply set_needs_wrap_wf, set_cursor_point_wf; [done|]. by split.
Qed.

Lemma move_forward_spec B t n :
  term_wf B t → 0 ≤ n ≤ 1073741824 →
  wp (move_forward n t) (λ t', term_wf B t' ∧
    moved t (mkPoint (line (term_cursor t)) (Z.min (column (term_cursor t) + n) (columns t - 1))) t').
Proof.
  intros W Hn. pose proof (term_bounds R B t W). unfold move_forward.
  rewrite (term_last_column R B) by done. do 2 wp_step. casts. cbn [mbind exec_bind].
  wp_step. wp_use (damage_line_wf R B); [done|simpl; lia|]. intros t1 (d & -> & W1). wp_step.
  apply set_column_moved; [done|simpl; lia].
Qed.

Lemma move_backward_spec B t n :
  term_wf B t → 0 ≤ n →
  wp (move_backward n t) (λ t', term_wf B t' ∧
    moved t (mkPoint (line (term_cursor t)) (Z.max 0 (column (term_cursor t) - n))) t').
Proof.
  intros W Hn. pose proof (term_bounds R B t W). unfold move_backward, saturating_sub. casts.
  wp_step. wp_use (damage_line_wf R B); [done|simpl; lia|]. intros t1 (d & -> & W1). wp_step.
  apply set_column_moved; [done|simpl; lia].
Qed.

Lemma carriage_return_spec B t :
  term_wf B t →
  wp (carriage_return t) (λ t', term_wf B t' ∧ moved t (mkPoint (line (term_cursor t)) 0) t').
Proof.
  intros W. pose proof (term_bounds R B t W). unfold carriage_return. casts.
  wp_step. wp_use (damage_line_wf R B); [done|simpl; lia|]. intros t1 (d & -> & W1). wp_step.
  apply set_column_moved; [done|simpl; lia].
Qed.

Lemma backspace_spec B t :
  term_wf B t →
  wp (backspace t) (λ t', term_wf B t' ∧
    if 0 <? column (term_cursor t)
    then moved t (mkPoint (line (term_cursor t)) (column (term_cursor t) - 1)) t'
    else t' = t).
Proof.
  intros W. pose proof (term_bounds R B t W). unfold backspace.
  destruct (Z.ltb_spec 0 (column (term_cursor t))); [|by wp_step]. casts. do 2 wp_step. cbv zeta.
  assert (W1 : term_wf B (set_needs_wrap false (set_column (column (term_cursor t) - 1) t))).
  { apply set_needs_wrap_wf, set_cursor_point_wf; [done|]. split; simpl; lia. }
  wp_use (damage_line_wf R B); [done|simpl; lia|]. intros t1 (d & -> & W2). split; [done|].
  by exists d.
Qed.

(** The cursor was moved to [p], the rest of the line state is kept. *)
Definition stepped t (p : Point) (t' : Term) : Prop :=
  ∃ d, t' = upd_damage d (set_cursor_point p t).

Lemma step_cursor B t p :
  term_wf B t → in_screen t p →
  wp (t ← damage_cursor t; damage_cursor (set_cursor_point p t))
    (λ t', term_wf B t' ∧ stepped t p t').
Proof.
  intros W Hp. wp_step. wp_use (damage_cursor_wf R B); [done|]. intros t1 (d & -> & W1).
  wp_use (damage_cursor_wf R B); [by apply set_cursor_point_wf|]. intros t2 (d2 & -> & W2).
  split; [done|]. by exists d2.
Qed.

(** ** Linefeed and reverse index *)

(** The state after a scroll of the region by [scroll_lines t n]. *)
Definition scrolled t (n : Z) (t' : Term) : Prop :=
  same_rest t t' ∧ cursor (t_grid t') = cursor (t_grid t) ∧
  saved_cursor (t_grid t') = saved_cursor (t_grid t) ∧
  Grid.scroll_up (t_grid t) (r_start (t_scroll_region t)) (r_end (t_scroll_region t))
    (scroll_lines t n) = Ok (t_grid t').

Lemma scroll_up_spec B t n :
  term_wf B t → B + g_lines (t_grid t) ≤ 1073741824 → 0 ≤ n →
  wp (scroll_up n t) (λ t', term_wf (B + g_lines (t_grid t)) t' ∧ same_size t t' ∧ scrolled t n t').
Proof.
  intros W HB Hn. pose proof (tw_region _ _ _ W). unfold scroll_up.
  wp_use (scroll_up_relative_wf R B); [done|done|done|lia|].
  intros t' (? & ? & ? & ? & ? & _ & ?). done.
Qed.

(** What a linefeed does, by the position of the cursor. *)
Definition linefed t (t' : Term) : Prop :=
  let next := line (term_cursor t) + 1 in
  if next =? r_end (t_scroll_region t) then scrolled t 1 t'
  else if next <? screen_lines t then stepped t (mkPoint next (column (term_cursor t))) t'
  else t' = t.

Lemma linefeed_spec B t :
  term_wf B t → B + g_lines (t_grid t) ≤ 1073741824 →
  wp (linefeed t) (λ t', term_wf (B + g_lines (t_grid t)) t' ∧ same_size t t' ∧ linefed t t').
Proof.
  intros W HB. pose proof (term_bounds R B t W). pose proof (tw_budget _ _ _ W).
  assert (W' : term_wf (B + g_lines (t_grid t)) t) by (eapply term_wf_mono; [|done]; lia).
  unfold linefeed, linefed. do 2 wp_step. simpl. casts.
  destruct (_ =? _); [by apply scroll_up_spec|].
  destruct (Z.ltb_spec (line (term_cursor t) + 1) (g_lines (t_grid t))); [|by wp_step].
  eapply wp_mono with (Q := λ t', term_wf (B + g_lines (t_grid t)) t' ∧
    stepped t (mkPoint (line (term_cursor t) + 1) (column (term_cursor t))) t').
  - wp_step. wp_use (damage_cursor_wf R); [done|]. intros t1 (d & -> & W1).
    change (term_cursor (upd_damage d t)) with (term_cursor t). do 2 wp_step.
    change (set_line _ _) with (set_cursor_point
      (mkPoint (line (term_cursor t) + 1) (column (term_cursor t))) (upd_damage d t)).
    wp_use (damage_cursor_wf R); [apply set_cursor_point_wf; [done|split; simpl; lia]|].
    intros t2 (d2 & -> & W2). split; [done|]. by exists d2.
  - intros t' [? [d ->]]. split; [done|]. split; [done|]. by exists d.
Qed.

Lemma newline_spec B t :
  term_wf B t → B + g_lines (t_grid t) ≤ 1073741824 →
  wp (newline t) (λ t', term_wf (B + g_lines (t_grid t)) t' ∧ same_size t t').
Proof.
  intros W HB. unfold newline. wp_step. wp_use (linefeed_spec B); [done|done|].
  intros t1 (W1 & S1 & _). wp_step; [|by wp_step].
  wp_use carriage_return_spec; [done|]. intros t2 [W2 M2]. split; [done|].
  eapply same_size_trans; [done|by eapply moved_size].
Qed.

Lemma reverse_index_spec B t :
  term_wf B t →
  wp (reverse_index t) (λ t', term_wf B t' ∧ same_size t t' ∧
    if line (term_cursor t) =? r_start (t_scroll_region t)
    then cursor (t_grid t') = cursor (t_grid t) ∧
      Grid.scroll_down (t_grid t) (r_start (t_scroll_region t)) (r_end (t_scroll_region t))
        (scroll_lines t 1) = Ok (t_grid t')
    else stepped t (mkPoint (Z.max (line (term_cursor t) - 1) 0) (column (term_cursor t))) t').
Proof.
  intros W. pose proof (term_bounds R B t W). pose proof (tw_region _ _ _ W) as Hr.
  unfold reverse_index. destruct (_ =? _).
  - wp_use (scroll_down_relative_wf R B); [done|lia|lia|].
    intros t' (? & ? & ? & ? & _ & _ & E). rewrite Z.min_l in E by (unfold scroll_lines; lia). done.
  - wp_step. wp_use (damage_cursor_wf R B); [done|]. intros t1 (d & -> & W1).
    change (term_cursor (upd_damage d t)) with (term_cursor t). do 2 wp_step.
    change (set_line _ _) with (set_cursor_point
      (mkPoint (Z.max (line (term_cursor t) - 1) 0) (column (term_cursor t))) (upd_damage d t)).
    wp_use (damage_cursor_wf R B); [apply set_cursor_point_wf; [done|split; simpl; lia]|].
    intros t2 (d2 & -> & W2). split; [done|]. split; [done|]. by exists d2.
Qed.

Lemma save_cursor_wf B t : term_wf B t → term_wf B (save_cursor_position t).
Proof.
  intros W. apply upd_grid_wf; [done| |done]. destruct (tw_grid _ _ _ W).
  split; [by apply with_saved_cursor_wf|done|done].
Qed.

Lemma restore_cursor_spec B t :
  term_wf B t →
  wp (restore_cursor_position t) (λ t', term_wf B t' ∧ ∃ d,
    t' = upd_damage d (upd_grid (with_cursor (t_grid t) (saved_cursor (t_grid t))) t)).
Proof.
  intros W. unfold restore_cursor_position. wp_step. wp_use (damage_cursor_wf R B); [done|].
  intros t1 (d & -> & W1).
  wp_use (damage_cursor_wf R B).
  { destruct (tw_grid _ _ _ W). apply upd_grid_wf; [done| |done].
    split; [by apply with_cursor_wf|done|done]. }
  intros t2 (d2 & -> & W2). split; [done|]. by exists d2.
Qed.

(** ** Input *)

(** A change of the grid that leaves everything but the rows alone and keeps
    the cells of the buffer outside of [P]. *)
Record edited (P : Point → Prop) t (t' : Term) : Prop := {
  ed_term : t' = upd_grid (t_grid t') t;
  ed_frame : same_frame (t_grid t) (t_grid t');
  ed_offset : display_offset (t_grid t') = display_offset (t_grid t);
  ed_len : s_len (raw (t_grid t')) = s_len (raw (t_grid t));
  ed_cells p : in_grid (t_grid t) p → ¬ P p → g_cell (t_grid t') p = g_cell (t_grid t) p }.

Lemma edited_refl P t : edited P t t.
Proof. split; try done. by destruct t. Qed.

Lemma edited_trans P t1 t2 t3 : edited P t1 t2 → edited P t2 t3 → edited P t1 t3.
Proof.
  intros [E1 F1 O1 L1 C1] [E2 F2 O2 L2 C2]. split.
  - rewrite E2, E1. by destruct t1.
  - by eapply same_frame_trans.
  - congruence.
  - congruence.
  - intros p Hp HP. rewrite C2, C1; try done.
    destruct F1 as (_ & _ & Hc & Hl & _). revert Hp. unfold in_grid, top_of; simpl.
    by rewrite Hc, Hl, L1.
Qed.

Lemma edited_mono (P P' : Point → Prop) t t' :
  (∀ p, P p → P' p) → edited P t t' → edited P' t t'.
Proof. intros HP [? ? ? ? C]. split; try done. intros p ? Hn. apply C; [done|]. auto. Qed.

Lemma edited_size P t t' : edited P t t' → same_size t t'.
Proof. intros [_ (_ & _ & ? & ? & _) _ _ _]. by split. Qed.

Lemma edited_cursor P t t' : edited P t t' → cursor (t_grid t') = cursor (t_grid t).
Proof. by intros [_ (? & _) _ _ _]. Qed.

Lemma row_edited l r' g t a b f r :
  row_replaced l r' (t_grid t) g → g_line (t_grid t) l = Some r → row_written a b f r r' →
  edited (λ p, line p = l ∧ a ≤ column p < b) t (upd_grid g t).
Proof.
  intros Hrep Hl Hw. pose proof Hrep as [? ? ? ? ?]. split; try done.
  intros p [Hp1 Hp2] HP. unfold top_of in Hp1. simpl in *.
  rewrite (row_written_cell l r r' (t_grid t) g a b f p) by (done || unfold g_active; lia).
  destruct (Z.eqb_spec (line p) l), (Z.leb_spec a (column p)), (Z.ltb_spec (column p) b);
    simpl; try done. tauto.
Qed.

(** The cells that writing a character at [p] may touch: its neighbours, and the
    last cell of the line above. *)
Definition near t (p q : Point) : Prop :=
  (line q = line p ∧ column p - 1 ≤ column q ≤ column p + 1) ∨
  (line q = line p - 1 ∧ column q = columns t - 1).

Lemma wp_edit_cell B t p f (Q : Term → Prop) :
  term_wf B t → in_grid (t_grid t) p →
  (∀ t', term_wf B t' → edited (λ q, q = p) t t' →
     g_cell (t_grid t') p = f <$> g_cell (t_grid t) p → Q t') →
  wp (on_grid (λ g, grid_update_cell g p f) t) Q.
Proof.
  intros W Hp HQ. apply (wp_update_cell B); [done|done|]. intros g r r' W' Hrep Hr Hw.
  apply HQ; [done| |].
  - eapply edited_mono; [|by eapply row_edited]. intros q [? ?]. destruct p, q; simpl in *.
    f_equal; lia.
  - destruct Hp as [Hp _]. unfold top_of in Hp. simpl in *.
    rewrite (row_written_cell _ r r' (t_grid t) g _ _ f p Hrep Hr Hw) by (unfold g_active; lia).
    destruct (Z.eqb_spec (line p) (line p)), (Z.leb_spec (column p) (column p)),
      (Z.ltb_spec (column p) (column p + 1)); simpl; (done || lia).
Qed.

Lemma clear_overwritten_wide_spec B t cell :
  term_wf B t →
  wp (clear_overwritten_wide cell t) (λ t', term_wf B t' ∧ edited (near t (term_cursor t)) t t').
Proof.
  intros W. pose proof (term_bounds R B t W). unfold clear_overwritten_wide.
  destruct (Bitflags.intersects _ _); [|wp_step; split; [done|apply edited_refl]].
  rewrite (term_last_column R B) by done. cbn [mbind exec_bind]. set (p := term_cursor t) in *.
  wp_step. eapply wp_mono with (Q := λ t', term_wf B t' ∧ edited (near t p) t t').
  { destruct (_ && _) eqn:E; [|destruct (Z.ltb_spec 0 (column p))]; wp_steps;
      [| |split; [done|apply edited_refl]];
      (apply (wp_edit_cell B); [done|unfold in_grid, top_of; simpl; lia|]);
      intros t' W' He _; (split; [done|]); (eapply edited_mono; [|exact He]);
      intros q ->; left; simpl; lia. }
  intros t1 [W1 E1]. pose proof (edited_size _ _ _ E1) as [Hc Hl].
  pose proof (ed_len _ _ _ E1) as Hn. rewrite (term_topmost R B) by done. simpl in Hc, Hl.
  cbn [mbind exec_bind]. unfold top_of. simpl. rewrite Hl, Hn.
  apply wp_if; intros E; [|by wp_step]. wp_steps.
  apply (wp_edit_cell B); [done|unfold in_grid, top_of; simpl; lia|].
  intros t' W' He _. split; [done|]. eapply edited_trans; [done|].
  eapply edited_mono; [|exact He]. intros q ->. right. simpl. lia.
Qed.

(** The cell [write_at_cursor] writes. *)
Definition written_cell (ch : char) (tmpl : Cell) : Cell :=
  mkCell ch (fg tmpl) (bg tmpl) (flags tmpl) (extra tmpl).

Lemma write_at_cursor_spec B t ch :
  term_wf B t →
  wp (write_at_cursor ch t) (λ t', term_wf B t' ∧ edited (near t (term_cursor t)) t t' ∧
    ∃ cs, zlookup (charsets (cursor (t_grid t))) (charset_index_as_usize (t_active_charset t))
            = Some cs ∧
      g_cell (t_grid t') (term_cursor t)
        = Some (written_cell (charset_map cs ch) (term_template t))).
Proof.
  intros W. unfold write_at_cursor. wp_step.
  destruct (tw_grid _ _ _ W) as [_ [Hcur Hcs] _].
  pose proof (charset_index_range (t_active_charset t)).
  apply wp_vec_get; [lia|]. intros cs Hlk. wp_step.
  assert (Hg : in_grid (t_grid t) (term_cursor t)) by by apply (screen_grid B).
  apply (wp_term_cell B); [done|done|]. intros x Hx.
  wp_step. wp_use clear_overwritten_wide_spec; [done|]. intros t1 [W1 E1].
  assert (Hp : point (cursor (t_grid t1)) = term_cursor t).
  { unfold term_cursor. by rewrite (edited_cursor _ _ _ E1). }
  unfold update_cursor_cell. unfold on_grid. rewrite Hp.
  change (wp _ _) with (wp (on_grid (λ g, grid_update_cell g (term_cursor t)
    (λ _, written_cell (charset_map cs ch) (term_template t))) t1) (λ t', term_wf B t' ∧
      edited (near t (term_cursor t)) t t' ∧
      ∃ cs, zlookup (charsets (cursor (t_grid t))) (charset_index_as_usize (t_active_charset t))
            = Some cs ∧
      g_cell (t_grid t') (term_cursor t)
        = Some (written_cell (charset_map cs ch) (term_template t)))).
  assert (Hg1 : in_grid (t_grid t1) (term_cursor t)).
  { rewrite <- Hp. apply (screen_grid B); [done|]. by apply (cursor_in_screen B). }
  apply (wp_edit_cell B); [done|done|].
  intros t' W' E' Hcell. split; [done|]. split.
  - eapply edited_trans; [done|]. eapply edited_mono; [|exact E']. intros q ->. left. lia.
  - exists cs. split; [done|]. rewrite Hcell.
    destruct (g_cell_some R (t_grid t1) (term_cursor t)) as [y ->]; [apply W1|done|done].
Qed.

Lemma edited_wf_cursor B P t t' : term_wf B t' → edited P t t' → term_cursor t' = term_cursor t.
Proof. intros _ E. unfold term_cursor. by rewrite (edited_cursor _ _ _ E). Qed.

(** [wrapline] moves to the start of the next line, if line wrapping is on. *)
Lemma wrapline_spec B t :
  term_wf B t → B + g_lines (t_grid t) ≤ 1073741824 →
  wp (wrapline t) (λ t', term_wf (B + g_lines (t_grid t)) t' ∧ same_size t t' ∧
    t_mode t' = t_mode t ∧
    (has_mode t TermMode.LINE_WRAP = true →
       column (term_cursor t') = 0 ∧ input_needs_wrap (cursor (t_grid t')) = false)).
Proof.
  intros W HB. pose proof (term_bounds R B t W). pose proof (tw_budget _ _ _ W).
  assert (W' : term_wf (B + g_lines (t_grid t)) t) by (eapply term_wf_mono; [|done]; lia).
  unfold wrapline. destruct (has_mode t TermMode.LINE_WRAP) eqn:Em; cbn [negb]; [|by wp_step].
  wp_step. unfold update_cursor_cell.
  apply (wp_edit_cell B); [done|by apply (screen_grid B), (cursor_in_screen B)|].
  intros t1 W1 E1 _. pose proof (edited_size _ _ _ E1) as S1. pose proof S1 as [Hc1 Hl1].
  pose proof (edited_wf_cursor _ _ _ _ W1 E1) as Hcur. simpl in Hc1, Hl1.
  assert (Hm1 : t_mode t1 = t_mode t) by (by rewrite (ed_term _ _ _ E1)).
  rewrite Hcur. do 2 wp_step. wp_step.
  eapply wp_mono with (Q := λ t2, term_wf (B + g_lines (t_grid t)) t2 ∧ same_size t1 t2 ∧
    t_mode t2 = t_mode t1).
  { apply wp_if; intros E.
    - rewrite <- Hl1. wp_use linefeed_spec; [done|lia|]. intros t2 (W2 & S2 & F2).
      split_and!; [done..|]. revert F2. unfold linefed.
      destruct (_ =? _); [intros (Hrest & _); apply Hrest|].
      destruct (_ <? _); [by intros [d ->]|by intros ->].
    - pose proof (tw_region _ _ _ W1) as Hr. simpl in Hr.
      wp_step. wp_use (damage_cursor_wf R B); [done|]. intros t2 (d & -> & W2).
      change (term_cursor (upd_damage d t1)) with (term_cursor t1). rewrite Hcur. do 3 wp_step.
      split_and!; [|done..]. eapply (term_wf_mono R B); [lia|].
      change (set_line _ _) with (set_cursor_point (mkPoint (line (term_cursor t) + 1)
        (column (term_cursor t1))) (upd_damage d t1)).
      rewrite Hcur. apply set_cursor_point_wf; [done|]. split; simpl; lia. }
  intros t2 (W2 & S2 & Hm2). cbv zeta.
  pose proof (term_bounds R _ t2 W2).
  wp_use (damage_cursor_wf R (B + g_lines (t_grid t))).
  { apply set_needs_wrap_wf, set_cursor_point_wf; [done|]. split; simpl; lia. }
  intros t3 (d & -> & W3). split_and!; [done| |simpl; congruence|done].
  eapply same_size_trans; [exact S1|]. destruct S2. by split.
Qed.

Lemma write_with_flag_spec B t f ch :
  term_wf B t →
  wp (write_with_flag f ch t) (λ t', term_wf B t' ∧ same_size t t' ∧
    term_cursor t' = term_cursor t ∧ t_mode t' = t_mode t ∧
    input_needs_wrap (cursor (t_grid t')) = input_needs_wrap (cursor (t_grid t))).
Proof.
  intros W. unfold write_with_flag. wp_step.
  wp_use write_at_cursor_spec; [by apply set_template_wf|]. intros t1 (W1 & E1 & _). wp_step.
  pose proof (edited_cursor _ _ _ E1) as Hc.
  split_and!; [by apply set_template_wf|by apply (edited_size _ _ _ E1)| | |].
  - unfold term_cursor, set_template; simpl. by rewrite Hc.
  - simpl. by rewrite (ed_term _ _ _ E1).
  - simpl. by rewrite Hc.
Qed.

Lemma input_zerowidth_spec B t ch :
  term_wf B t → wp (input_zerowidth ch t) (λ t', term_wf B t' ∧ same_size t t').
Proof.
  intros W. pose proof (term_bounds R B t W). unfold input_zerowidth, saturating_sub.
  change (point (cursor (t_grid t))) with (term_cursor t). cbv zeta.
  set (col := if input_needs_wrap _ then _ else _).
  assert (Hcol : 0 ≤ col < g_columns (t_grid t)) by (unfold col; case_match; lia). clearbody col.
  wp_step. apply (wp_term_cell B); [done|unfold in_grid, top_of; simpl; lia|]. intros x _.
  set (col' := if Bitflags.contains _ _ then _ else _).
  assert (0 ≤ col' < g_columns (t_grid t)) by (unfold col'; case_match; lia). clearbody col'.
  apply (wp_edit_cell B); [done|unfold in_grid, top_of; simpl; lia|].
  intros t' W' E' _. split; [done|]. by eapply edited_size.
Qed.

(** A loop of swaps keeps the length of a row. *)
Lemma swap_loop_len (rev_ : bool) (row : list Cell) a b f :
  (∀ i row', zlen row' = zlen row → a ≤ i < b → wp (f i row') (λ row'', zlen row'' = zlen row)) →
  wp ((if rev_ then for_range_rev a b f row else for_range a b f row))
    (λ row', zlen row' = zlen row).
Proof.
  intros Hf. destruct rev_.
  - apply wp_for_range_rev with (I := λ _ row', zlen row' = zlen row); [done| |done].
    intros i row' Hi Hz. by apply Hf.
  - apply wp_for_range with (I := λ _ row', zlen row' = zlen row); [done| |done].
    intros i row' Hi Hz. by apply Hf.
Qed.

Lemma shift_right_spec B t width :
  term_wf B t → 1 ≤ width ≤ 2 →
  wp (shift_right width t) (λ t', term_wf B t' ∧ same_size t t' ∧ cursor (t_grid t') = cursor (t_grid t) ∧
    t_mode t' = t_mode t).
Proof.
  intros W Hw. pose proof (term_bounds R B t W). unfold shift_right.
  destruct (has_mode t TermMode.INSERT); [|by wp_step].
  do 2 wp_step. apply wp_if; intros E; [|by wp_step]. simpl in *. do 2 wp_step.
  apply (wp_update_slice B) with (P := λ _ _, True); [done|simpl; lia| |].
  - intros row Hz. eapply wp_mono; [apply (swap_loop_len true)|intros; split; [congruence|done]].
    intros i row' Hz' Hi. simpl in *. do 2 wp_step. apply wp_vec_swap; [lia|lia|].
    intros l' -> _. done.
  - intros g r r' W' Hrep _ _ _. split; [done|]. destruct Hrep as [(? & ? & ? & ? & ?) ? ? ? ?].
    split; [by split|done].
Qed.

Lemma advance_cursor_spec B t :
  term_wf B t → wp (advance_cursor t) (λ t', term_wf B t' ∧ same_size t t').
Proof.
  intros W. pose proof (term_bounds R B t W). unfold advance_cursor. do 2 wp_step.
  apply wp_if; intros E; wp_step; (split; [|done]); [|by apply set_needs_wrap_wf].
  apply set_cursor_point_wf; [done|]. split; simpl in *; lia.
Qed.

Lemma input_wide_spec B t ch :
  term_wf B t → B + g_lines (t_grid t) ≤ 1073741824 →
  wp (input_wide ch t) (λ r, term_wf (B + g_lines (t_grid t)) r.1 ∧ same_size t r.1).
Proof.
  intros W HB. pose proof (term_bounds R B t W). pose proof (tw_budget _ _ _ W).
  set (B' := B + g_lines (t_grid t)).
  assert (W' : term_wf B' t) by (eapply term_wf_mono; [|done]; lia).
  unfold input_wide. do 2 wp_step. wp_step.
  eapply wp_mono with (Q := λ r : Term * bool, term_wf B' r.1 ∧ same_size t r.1 ∧
    (r.2 = true → column (term_cursor r.1) + 1 < columns r.1)).
  { apply wp_if; intros E; [|wp_step; split_and!; [done|done|simpl in *; lia]].
    destruct (has_mode t TermMode.LINE_WRAP) eqn:Em;
      [|wp_step; split_and!; [by apply set_needs_wrap_wf|done|done]].
    wp_step. wp_use (write_with_flag_spec B); [done|]. intros t1 (W1 & S1 & _ & Hm & _).
    pose proof S1 as [_ Hl1]. simpl in Hl1.
    wp_step. wp_use (wrapline_spec B); [done|lia|]. intros t2 (W2 & S2 & _ & Hw). wp_step.
    rewrite Hl1 in W2. split_and!; [done|by eapply same_size_trans|]. intros _. cbn [fst snd].
    destruct Hw as [-> _]; [unfold has_mode in *; congruence|].
    pose proof (tw_columns _ _ _ W2). unfold MIN_COLUMNS in *. lia. }
  intros [t1 go] (W1 & S1 & Hgo). cbn [fst snd] in *. destruct go; cbn [negb]; [|by wp_step].
  specialize (Hgo eq_refl). pose proof (term_bounds R _ t1 W1).
  wp_step. wp_use write_with_flag_spec; [done|]. intros t2 (W2 & S2 & Hc2 & _).
  pose proof S2 as [Hcol2 Hl2]. simpl in Hcol2, Hl2, Hgo. rewrite Hc2. do 2 wp_step. cbv zeta.
  wp_step. wp_use (write_with_flag_spec B').
  { apply set_cursor_point_wf; [done|]. split; simpl; rewrite ?Hc2; lia. }
  intros t3 (W3 & S3 & _). wp_step. split; [done|].
  eapply same_size_trans; [exact S1|]. eapply same_size_trans; [exact S2|]. done.
Qed.

Lemma input_spec B t ch :
  term_wf B t → B + 2 * g_lines (t_grid t) ≤ 1073741824 →
  wp (input ch t) (λ t', term_wf (B + 2 * g_lines (t_grid t)) t' ∧ same_size t t').
Proof.
  intros W HB. pose proof (term_bounds R B t W). pose proof (tw_budget _ _ _ W).
  assert (Hmono : ∀ t' b, term_wf b t' → b ≤ B + 2 * g_lines (t_grid t) →
    term_wf (B + 2 * g_lines (t_grid t)) t').
  { intros t' b ? ?. by eapply (term_wf_mono R b); [lia|]. }
  unfold input. destruct (char_width ch) as [width|] eqn:Ew; [|wp_step; split; [eapply Hmono; [done|lia]|done]].
  pose proof (char_width_range ch width Ew).
  destruct (Z.eqb_spec width 0).
  { wp_use input_zerowidth_spec; [done|]. intros t' [? ?]. split; [|done]. eapply Hmono; [done|lia]. }
  wp_step. eapply wp_mono with (Q := λ t1, term_wf (B + g_lines (t_grid t)) t1 ∧ same_size t t1).
  { destruct (input_needs_wrap _).
    - wp_use wrapline_spec; [done|lia|]. by intros t1 (? & ? & _).
    - wp_step. split; [|done]. by eapply (term_wf_mono R B); [lia|]. }
  intros t1 [W1 S1]. wp_step. wp_use shift_right_spec; [done|lia|]. intros t2 (W2 & S2 & _).
  assert (S12 : same_size t t2) by by eapply same_size_trans. pose proof S12 as [_ Hl].
  simpl in Hl.
  destruct (Z.eqb_spec width 1).
  - wp_step. wp_use write_at_cursor_spec; [done|]. intros t3 (W3 & E3 & _).
    wp_use advance_cursor_spec; [done|]. intros t4 [W4 S4].
    split; [eapply Hmono; [done|lia]|]. eapply same_size_trans; [exact S12|].
    eapply same_size_trans; [by eapply edited_size|done].
  - wp_step. wp_use input_wide_spec; [done|lia|]. intros [t3 w] [W3 S3]. cbn [fst snd] in *.
    rewrite Hl in W3. replace (B + g_lines (t_grid t) + g_lines (t_grid t))
      with (B + 2 * g_lines (t_grid t)) in W3 by lia.
    assert (S13 : same_size t t3) by by eapply same_size_trans.
    destruct w; [|by wp_step]. wp_use advance_cursor_spec; [done|]. intros t4 [W4 S4].
    split; [done|]. by eapply same_size_trans.
Qed.

(** ** Tabs *)

(** Only the column of the cursor changed, and it is on the screen. *)
Definition in_line B t (t' : Term) : Prop :=
  term_wf B t' ∧ ∃ col, t' = set_column col t ∧ 0 ≤ col < columns t.

Lemma set_column_wf B t col : term_wf B t → 0 ≤ col < columns t → term_wf B (set_column col t).
Proof.
  intros W ?. pose proof (cursor_in_screen B t W) as [? ?].
  apply set_cursor_point_wf; [done|]. by split.
Qed.

Lemma set_column_twice t a b : set_column b (set_column a t) = set_column b t.
Proof. done. Qed.

Lemma set_column_same t : set_column (column (term_cursor t)) t = t.
Proof. destruct t as [? ? ? [[[] ? ? ?] ? ? ? ? ? ?] ? ? ? ? ? ? ? ? ? ? ? ? ? ? ?]. done. Qed.

Lemma tab_advance_spec B fuel t :
  term_wf B t → columns t - column (term_cursor t) ≤ Z.of_nat fuel →
  wp (tab_advance fuel t) (λ t', term_wf B t' ∧ ∃ col, t' = set_column col t ∧
    column (term_cursor t) ≤ col < columns t ∧
    (∀ i, column (term_cursor t) < i < col → zlookup (t_tabs t) i = Some false) ∧
    (col = columns t - 1 ∨ zlookup (t_tabs t) col = Some true)).
Proof.
  revert t. induction fuel as [|fuel IH]; intros t W Hf.
  { pose proof (term_bounds R B t W). simpl in *. lia. }
  pose proof (term_bounds R B t W). pose proof (tw_tabs _ _ _ W) as Ht. simpl in Ht.
  cbn [tab_advance]. do 2 wp_step. destruct (Z.eqb_spec (column (term_cursor t) + 1) (columns t)).
  { wp_step. split; [done|]. exists (column (term_cursor t)). rewrite set_column_same.
    split_and!; [done|lia|simpl in *; lia|lia|left; lia]. }
  cbv zeta. set (t1 := set_column _ t). simpl in *.
  assert (W1 : term_wf B t1) by (apply set_column_wf; [done|simpl; lia]).
  change (t_tabs t1) with (t_tabs t).
  change (column (term_cursor t1)) with (column (term_cursor t) + 1).
  wp_step. apply wp_vec_get; [lia|]. intros stop Hs. destruct stop.
  - wp_step. split; [done|]. eexists. split_and!; [done|lia|lia|lia|by right].
  - wp_use IH; [done|simpl in *; lia|]. intros t2 (W2 & col & -> & Hcol & Hno & Hend).
    split; [done|]. exists col. unfold t1 in *. simpl in *. split_and!; [done|lia|lia| |done].
    intros i Hi. destruct (decide (i = column (term_cursor t) + 1)) as [->|]; [done|].
    apply Hno. lia.
Qed.

Lemma put_tab_loop_spec B count t :
  term_wf B t → wp (put_tab_loop count t) (λ t', term_wf B t' ∧ same_size t t').
Proof.
  revert t. induction count as [|count IH]; intros t W; [done|].
  pose proof (term_bounds R B t W). cbn [put_tab_loop]. apply wp_if; intros E; [|by wp_step].
  wp_step. apply (wp_charset B); [done|]. intros cs. cbv zeta. wp_step.
  unfold update_cursor_cell.
  apply (wp_edit_cell B); [done|by apply (screen_grid B), (cursor_in_screen B)|].
  intros t1 W1 E1 _. pose proof (edited_size _ _ _ E1) as S1.
  pose proof (term_bounds R B t1 W1).
  wp_step. wp_use tab_advance_spec; [done|simpl; lia|]. intros t2 (W2 & col & -> & _).
  wp_use IH; [done|]. intros t3 [W3 S3]. split; [done|].
  eapply same_size_trans; [exact S1|]. done.
Qed.

Lemma put_tab_spec B t count :
  term_wf B t → B + g_lines (t_grid t) ≤ 1073741824 →
  wp (put_tab count t) (λ t', term_wf (B + g_lines (t_grid t)) t' ∧ same_size t t').
Proof.
  intros W HB. pose proof (term_bounds R B t W). pose proof (tw_budget _ _ _ W).
  unfold put_tab. destruct (input_needs_wrap _).
  - wp_use wrapline_spec; [done|done|]. by intros t' (? & ? & _).
  - wp_use put_tab_loop_spec; [done|]. intros t' [? ?]. split; [|done].
    by eapply (term_wf_mono R B); [lia|].
Qed.

(** The largest tab stop below [n], or [col] if there is none. *)
Lemma previous_tab_spec (n : nat) tabs col :
  Z.of_nat n ≤ zlen tabs →
  wp (previous_tab n tabs col) (λ c', (c' = col ∧ ∀ i, 0 ≤ i < Z.of_nat n →
      zlookup tabs i = Some false) ∨
    (0 ≤ c' < Z.of_nat n ∧ zlookup tabs c' = Some true ∧
     ∀ i, c' < i < Z.of_nat n → zlookup tabs i = Some false)).
Proof.
  induction n as [|n IH]; intros Hn; cbn [previous_tab]; [wp_step; left; split; [done|lia]|].
  wp_step. apply wp_vec_get; [lia|]. intros stop Hs. destruct stop.
  - wp_step. right. split_and!; [lia|lia|done|lia].
  - wp_use IH; [lia|]. intros c' [[-> Hno]|(Hc & Ht & Hno)]; [left|right]; split_and!; try done;
      try lia; intros i Hi; destruct (decide (i = Z.of_nat n)) as [->|]; try done; apply Hno; lia.
Qed.

(** The first tab stop behind [col] among the next [n] columns, or the last of them. *)
Lemma next_tab_spec (n : nat) tabs col :
  0 ≤ col → col + Z.of_nat n < zlen tabs →
  wp (next_tab n tabs col) (λ c', col ≤ c' ≤ col + Z.of_nat n ∧
    (∀ i, col < i < c' → zlookup tabs i = Some false) ∧
    (c' = col + Z.of_nat n ∨ zlookup tabs c' = Some true)).
Proof.
  revert col. induction n as [|n IH]; intros col Hc Hn; cbn [next_tab].
  { wp_step. split_and!; [lia|lia|lia|left; lia]. }
  wp_step. apply wp_vec_get; [lia|]. intros stop Hs. destruct stop.
  - wp_step. split_and!; [lia|lia|lia|by right].
  - wp_use IH; [lia|lia|]. intros c' (H1 & H2 & H3). split_and!; [lia|lia| |].
    + intros i Hi. destruct (decide (i = col + 1)) as [->|]; [done|]. apply H2. lia.
    + destruct H3; [left; lia|by right].
Qed.

Lemma backward_loop_wf B count t :
  term_wf B t → wp (move_backward_tabs_loop count t) (in_line B t).
Proof.
  revert t. induction count as [|count IH]; intros t W; cbn [move_backward_tabs_loop];
    pose proof (term_bounds R B t W); pose proof (tw_tabs _ _ _ W) as Ht; simpl in Ht.
  { wp_step. split; [done|]. exists (column (term_cursor t)). rewrite set_column_same.
    split; [done|simpl; lia]. }
  destruct (Z.eqb_spec (column (term_cursor t)) 0).
  { wp_step. split; [done|]. exists (column (term_cursor t)). rewrite set_column_same.
    split; [done|simpl; lia]. }
  wp_step. wp_use previous_tab_spec; [lia|]. intros col Hcol.
  assert (0 ≤ col < columns t) by (simpl; destruct Hcol as [[-> _]|[? _]]; lia).
  wp_use IH; [by apply set_column_wf|]. intros t' [W' (c' & -> & Hc')]. split; [done|].
  by exists c'.
Qed.

Lemma forward_loop_wf B count t :
  term_wf B t → wp (move_forward_tabs_loop count t) (in_line B t).
Proof.
  revert t. induction count as [|count IH]; intros t W; cbn [move_forward_tabs_loop];
    pose proof (term_bounds R B t W); pose proof (tw_tabs _ _ _ W) as Ht; simpl in Ht.
  { wp_step. split; [done|]. exists (column (term_cursor t)). rewrite set_column_same.
    split; [done|simpl; lia]. }
  simpl. do 2 wp_step. destruct (Z.eqb_spec (column (term_cursor t)) (g_columns (t_grid t) - 1)).
  { wp_step. split; [done|]. exists (column (term_cursor t)). rewrite set_column_same.
    split; [done|simpl; lia]. }
  do 2 wp_step. wp_step. wp_use next_tab_spec; [lia|lia|]. intros col (Hcol & _).
  wp_use IH; [apply set_column_wf; [done|simpl; lia]|]. intros t' [W' (c' & -> & Hc')].
  split; [done|]. by exists c'.
Qed.

Lemma move_tabs_spec B t (f : Term → exec Term) (Q : Term → Term → Z * Z) :
  term_wf B t → (wp (f t) (in_line B t)) →
  wp (t' ← f t; damage_line (as_usize (line (term_cursor t'))) (Q t t').1 (Q t t').2 t')
    (λ t', term_wf B t' ∧ same_size t t').
Proof.
  intros W Hf. wp_step. eapply wp_mono; [done|]. intros t1 [W1 (col & -> & Hc)].
  pose proof (term_bounds R B _ W1). casts.
  wp_use (damage_line_wf R B); [done|simpl in *; lia|]. intros t2 (d & -> & W2). done.
Qed.

Lemma move_backward_tabs_spec B t count :
  term_wf B t → wp (move_backward_tabs count t) (λ t', term_wf B t' ∧ same_size t t').
Proof.
  intros W. apply (move_tabs_spec B t _ (λ t t', (column (term_cursor t'), column (term_cursor t))));
    [done|by apply backward_loop_wf].
Qed.

Lemma move_forward_tabs_spec B t count :
  term_wf B t → wp (move_forward_tabs count t) (λ t', term_wf B t' ∧ same_size t t').
Proof.
  intros W. apply (move_tabs_spec B t _ (λ t t', (column (term_cursor t), column (term_cursor t'))));
    [done|by apply forward_loop_wf].
Qed.

Lemma set_tab_spec B t b :
  term_wf B t →
  wp (tabs ← vec_set (t_tabs t) (column (term_cursor t)) b; mret (upd_tabs tabs t))
    (λ t', term_wf B t' ∧ same_size t t').
Proof.
  intros W. pose proof (term_bounds R B t W). pose proof (tw_tabs _ _ _ W) as Ht. simpl in Ht.
  wp_step. apply wp_vec_set; [lia|]. wp_step. split; [|done].
  apply upd_tabs_wf; [done|]. by rewrite zlen_insert.
Qed.

Lemma clear_tabs_spec B t m :
  term_wf B t → wp (clear_tabs m t) (λ t', term_wf B t' ∧ same_size t t').
Proof.
  intros W. destruct m; [by apply set_tab_spec|]. apply wp_ret. split; [|done].
  apply upd_tabs_wf; [done|]. unfold tabs_clear_all. rewrite zlen_replicate. apply W.
Qed.
End facts.
