(* ===== verification/HandlerEdit.v ===== *)
(** * Editing, clearing and modes of the handler

    The methods that edit the line of the cursor, clear parts of the screen and
    change modes: each keeps the invariant of the terminal, and the editing
    methods do to the cells what they are meant to do. *)

From S2P Require Import Prelude Index Ansi GridCell Row Storage Cell Grid GridFacts GridOps.
From S2P Require Import Resize Selection Term TermFacts TermOps Handler HandlerFacts.
#[local] Open Scope Z_scope.

(** ** Loops of swaps in a vector *)

Section swaps.
Context {A : Type}.
Implicit Types (row : list A).

(** Descending: the [n] cells from [a] on move right by [k]. *)
Lemma vec_swap_down row a k n :
  0 ≤ a → 0 ≤ k → 0 ≤ n → a + k + n ≤ zlen row → zlen row ≤ 1073741824 →
  wp (for_range_rev 0 n (λ offset row,
        i ← usize_add (a + k) offset; j ← usize_add a offset; vec_swap row i j) row)
    (λ row', zlen row' = zlen row ∧
      (∀ m, a + k ≤ m < a + k + n → zlookup row' m = zlookup row (m - k)) ∧
      (∀ m, m < a ∨ a + k + n ≤ m → zlookup row' m = zlookup row m)).
Proof.
  intros Ha Hk Hn Hl Hb.
  apply wp_for_range_rev with (I := λ o row', zlen row' = zlen row ∧
    (∀ m, a + k + o ≤ m < a + k + n → zlookup row' m = zlookup row (m - k)) ∧
    (∀ m, m < a + o ∨ a + k + n ≤ m → zlookup row' m = zlookup row m)).
  - split_and!; [done|lia|done].
  - intros o row1 Ho (Hz & H1 & H2). do 2 wp_step. do 2 wp_step.
    apply wp_vec_swap; [lia|lia|]. intros row2 Hz2 Hs. split_and!; [lia| |].
    + intros m Hm. rewrite Hs. destruct (Z.eqb_spec m (a + o)) as [->|].
      * rewrite H2 by lia. f_equal. lia.
      * destruct (Z.eqb_spec m (a + k + o)) as [->|]; [rewrite H2 by lia; f_equal; lia|].
        apply H1. lia.
    + intros m Hm. rewrite Hs. destruct (Z.eqb_spec m (a + o)), (Z.eqb_spec m (a + k + o));
        try lia. apply H2. lia.
  - intros row' (Hz & H1 & H2). rewrite Z.min_l in H1, H2 by lia.
    split_and!; [done| |]; intros m Hm; [apply H1|apply H2]; lia.
Qed.

(** Ascending: the [n] cells from [a + k] on move left by [k]. *)
Lemma vec_swap_up row a k n :
  0 ≤ a → 0 ≤ k → 0 ≤ n → a + k + n ≤ zlen row → zlen row ≤ 1073741824 →
  wp (for_range 0 n (λ offset row,
        i ← usize_add a offset; j ← usize_add (a + k) offset; vec_swap row i j) row)
    (λ row', zlen row' = zlen row ∧
      (∀ m, a ≤ m < a + n → zlookup row' m = zlookup row (m + k)) ∧
      (∀ m, m < a ∨ a + k + n ≤ m → zlookup row' m = zlookup row m)).
Proof.
  intros Ha Hk Hn Hl Hb.
  apply wp_for_range with (I := λ o row', zlen row' = zlen row ∧
    (∀ m, a ≤ m < a + o → zlookup row' m = zlookup row (m + k)) ∧
    (∀ m, m < a ∨ a + k + o ≤ m → zlookup row' m = zlookup row m)).
  - split_and!; [done|lia|done].
  - intros o row1 Ho (Hz & H1 & H2). do 2 wp_step. do 2 wp_step.
    apply wp_vec_swap; [lia|lia|]. intros row2 Hz2 Hs. split_and!; [lia| |].
    + intros m Hm. rewrite Hs. destruct (Z.eqb_spec m (a + k + o)) as [->|].
      * assert (k = 0) by lia. subst k. rewrite H2 by lia. f_equal. lia.
      * destruct (Z.eqb_spec m (a + o)) as [->|]; [rewrite H2 by lia; f_equal; lia|].
        apply H1. lia.
    + intros m Hm. rewrite Hs. destruct (Z.eqb_spec m (a + k + o)), (Z.eqb_spec m (a + o));
        try lia. apply H2. lia.
  - intros row' (Hz & H1 & H2). rewrite Z.max_r in H1, H2 by lia.
    split_and!; [done| |]; intros m Hm; [apply H1|apply H2]; lia.
Qed.
End swaps.

Section facts.
Context `{AnsiLaws} (R : Row Cell → Prop).
Implicit Types (t : Term) (g : Grid Cell).
#[local] Abbreviation term_wf := (TermFacts.term_wf R).

(** The cells of the cursor's line, before and after. *)
Definition line_cell t (col : Z) : option Cell :=
  g_cell (t_grid t) (mkPoint (line (term_cursor t)) col).

(** The blank cell with the background of the template. *)
Definition blank t : Cell := cell_from (bg (term_template t)).

(** The line of the cursor was rewritten: column [i] now holds [f i]. *)
Record line_edit (f : Z → option Cell) t (t' : Term) : Prop := {
  le_cursor : cursor (t_grid t') = cursor (t_grid t);
  le_rest p : in_grid (t_grid t) p → line p ≠ line (term_cursor t) →
    g_cell (t_grid t') p = g_cell (t_grid t) p;
  le_line i : 0 ≤ i < columns t → line_cell t' i = f i }.

Lemma line_edit_intro t d r r' g f :
  row_replaced (line (term_cursor t)) r' (t_grid t) g →
  g_line (t_grid t) (line (term_cursor t)) = Some r →
  (∀ i, 0 ≤ i < columns t → zlookup (r_inner r') i = f i) →
  line_edit f t (upd_grid g (upd_damage d t)).
Proof.
  intros Hrep Hr Hf. pose proof Hrep as [(Hc & _) _ _ Hl _]. split; [done| |].
  - intros p [Hp _] Hne. apply (row_replaced_cell (line (term_cursor t)) r' (t_grid t) g); [done| |done].
    unfold g_active, top_of in *. simpl in *. lia.
  - intros i Hi. unfold line_cell, g_cell. simpl.
    replace (line (term_cursor (upd_grid g (upd_damage d t)))) with (line (term_cursor t))
      by (unfold term_cursor; simpl; by rewrite Hc).
    rewrite Hl. simpl. by apply Hf.
Qed.

Lemma row_cell t r i :
  g_line (t_grid t) (line (term_cursor t)) = Some r → zlookup (r_inner r) i = line_cell t i.
Proof. intros Hr. unfold line_cell, g_cell; simpl. by rewrite Hr. Qed.

Lemma row_replaced_size l r' g t d :
  row_replaced l r' (t_grid t) g → same_size t (upd_grid g (upd_damage d t)).
Proof. intros [(_ & _ & ? & ? & _) _ _ _ _]. by split. Qed.

(** The columns [a..b] of the cursor's line are damaged. *)
Definition damaged_columns (a b : Z) t (t' : Term) : Prop :=
  ∀ i, a ≤ i < b → damaged (t_damage t') (mkPoint (line (term_cursor t)) i).

(** ** Editing the line of the cursor *)

Lemma insert_blank_spec B t count :
  term_wf B t → 0 ≤ count →
  let col := column (term_cursor t) in
  let n := Z.min count (columns t - col) in
  wp (insert_blank count t) (λ t', term_wf B t' ∧ same_size t t' ∧
    line_edit (λ i, if i <? col then line_cell t i
                    else if i <? col + n then Some (blank t) else line_cell t (i - n)) t t' ∧
    damaged_columns 0 (columns t) t t').
Proof.
  intros W Hn col n. pose proof (term_bounds R B t W). unfold insert_blank.
  simpl in *. fold col. do 2 wp_step. change (Z.min count _) with n. assert (0 ≤ n ≤ g_columns (t_grid t) - col) by lia.
  clearbody n. cbv zeta. do 2 wp_step. do 2 wp_step. do 2 wp_step. casts.
  wp_step. wp_use (damaged_line R B); [done|simpl; lia|]. intros t1 (d & -> & W1 & _ & _ & _ & Hdam).
  apply (wp_update_slice R B) with (P := λ row row', ∀ i, 0 ≤ i < g_columns (t_grid t) →
    zlookup row' i = if i <? col then zlookup row i
      else if i <? col + n then Some (blank t) else zlookup row (i - n)); [done|simpl; lia| |].
  - intros row Hz. simpl in Hz. wp_step. wp_use (vec_swap_down row col n); [lia..|].
    intros row1 (Hz1 & M1 & M2).
    apply wp_vec_map_range; [lia|lia|]. intros row2 Hz2 M3. simpl. split; [lia|].
    intros i Hi. rewrite M3. destruct (Z.ltb_spec i col), (Z.leb_spec col i); try lia; simpl.
    + by rewrite M2 by lia.
    + destruct (Z.ltb_spec i (col + n)); [|apply M1; lia].
      destruct (zlookup_some row1 i) as [y ->]; [lia|done].
  - intros g r r' W' Hrep Hr Hz HP. split; [done|].
    split; [by eapply (row_replaced_size _ _ _ t)|].
    split; [|intros i Hi; apply Hdam; simpl in *; lia].
    eapply line_edit_intro; [exact Hrep|exact Hr|]. intros i Hi. rewrite HP by done.
    by rewrite <- !(row_cell t r) by done.
Qed.

Lemma delete_chars_wf B t count :
  term_wf B t → 0 ≤ count →
  wp (delete_chars count t) (λ t', term_wf B t' ∧ same_size t t' ∧
    let col := column (term_cursor t) in
    let n := Z.min count (columns t) in
    let k := Z.min (col + n) (columns t - 1) - col in
    line_edit (λ i, if columns t - n <=? i then Some (blank t)
                    else if i <? col then line_cell t i else line_cell t (i + k)) t t' ∧
    damaged_columns 0 (columns t) t t').
Proof.
  intros W Hn. pose proof (term_bounds R B t W). unfold delete_chars. simpl in *.
  set (col := column (term_cursor t)) in *.
  set (n := Z.min count (g_columns (t_grid t))).
  assert (0 ≤ n ≤ g_columns (t_grid t)) by lia. clearbody n. do 2 wp_step. do 2 wp_step.
  set (k := Z.min (col + n) (g_columns (t_grid t) - 1) - col).
  replace (Z.min (col + n) (g_columns (t_grid t) - 1)) with (col + k) by lia.
  assert (0 ≤ k ≤ n) by lia. assert (col + k < g_columns (t_grid t)) by lia.
  assert (Hk : col + n ≤ g_columns (t_grid t) - 1 ∨ col + k = g_columns (t_grid t) - 1) by lia.
  clearbody k. do 2 wp_step. casts.
  wp_step. wp_use (damaged_line R B); [done|simpl; lia|]. intros t1 (d & -> & W1 & _ & _ & _ & Hdam).
  apply (wp_update_slice R B) with (P := λ row row', ∀ i, 0 ≤ i < g_columns (t_grid t) →
    (g_columns (t_grid t) - n ≤ i → zlookup row' i = Some (blank t)) ∧
    (i < g_columns (t_grid t) - n → i < col → zlookup row' i = zlookup row i) ∧
    (i < g_columns (t_grid t) - n → col ≤ i → zlookup row' i = zlookup row (i + k)));
    [done|simpl; lia| |].
  - intros row Hz. simpl in Hz. wp_step. wp_use (vec_swap_up row col k); [lia..|].
    intros row1 (Hz1 & M1 & M2). do 2 wp_step.
    apply wp_vec_map_range; [lia|lia|]. intros row2 Hz2 M3. simpl. split; [lia|].
    intros i Hi. rewrite M3.
    destruct (Z.leb_spec (g_columns (t_grid t) - n) i), (Z.ltb_spec i (zlen row1)); try lia; simpl;
      split_and!; try lia; intros; [|by rewrite M2 by lia|by rewrite M1 by lia].
    destruct (zlookup_some row1 i) as [y ->]; [lia|done].
  - intros g r r' W' Hrep Hr Hz HP. split; [done|].
    split; [by eapply (row_replaced_size _ _ _ t)|]. cbv zeta.
    split; [|intros i Hi; apply Hdam; simpl in *; lia].
    eapply line_edit_intro; [exact Hrep|exact Hr|]. intros i Hi.
    destruct (HP i Hi) as (P1 & P2 & P3). simpl.
    destruct (Z.leb_spec (g_columns (t_grid t) - n) i); [by apply P1|].
    destruct (Z.ltb_spec i col); [rewrite P2 by lia|rewrite P3 by lia]; by apply row_cell.
Qed.

(** [for cell in &mut row[a..b] { *cell = bg.into() }] on the cursor's line. *)
Lemma wp_blank_range B t d a b f (Q : Term → Prop) :
  term_wf B (upd_damage d t) → 0 ≤ a ≤ b → b ≤ columns t →
  (∀ r, row_len r = columns t → 0 ≤ occ r ≤ columns t →
     wp (f r) (row_written a b (λ _, blank t) r)) →
  (∀ g, term_wf B (upd_grid g (upd_damage d t)) → same_size t (upd_grid g (upd_damage d t)) →
     same_frame (t_grid t) g → s_len (raw g) = s_len (raw (t_grid t)) →
     line_edit (λ i, if (a <=? i) && (i <? b) then Some (blank t) else line_cell t i) t
       (upd_grid g (upd_damage d t)) → Q (upd_grid g (upd_damage d t))) →
  wp (on_grid (λ g, grid_update_row g (line (term_cursor t)) f) (upd_damage d t)) Q.
Proof.
  intros W Hab Hb Hf HQ. pose proof (term_bounds R B _ W) as Hbd. simpl in Hbd.
  change (term_cursor (upd_damage d t)) with (term_cursor t) in Hbd.
  apply (wp_update_row R B) with (a := a) (b := b) (h := λ _, blank t);
    [done|unfold g_active; simpl; lia|done|].
  intros g r r' W' Hrep Hr Hw. simpl in *. pose proof (row_replaced_size _ _ _ t d Hrep) as Hs.
  pose proof Hrep as [Fr _ Ln _ _]. apply HQ; [done|done|done|done|].
  eapply line_edit_intro; [exact Hrep|exact Hr|]. intros i Hi.
  rewrite (rw_cells _ _ _ _ _ Hw), <- (row_cell t r) by done.
  destruct ((a <=? i) && (i <? b)) eqn:E; [|done].
  destruct (zlookup_some (r_inner r) i) as [y ->]; [|done].
  destruct (g_line_some R (t_grid t) (line (term_cursor t))) as (r0 & Hr0 & HR); [apply W|].
  rewrite Hr in Hr0. injection Hr0 as <-.
  destruct (grid_row_len R (t_grid t) r) as [Hl _]; [apply W|done|].
  unfold row_len in Hl. simpl in *. lia.
Qed.

Lemma upd_damage_id t : upd_damage (t_damage t) t = t.
Proof. by destruct t. Qed.

(** The same without a damage update in front. *)
Lemma wp_blank_range' B t l x a b f (Q : Term → Prop) :
  term_wf B t → l = line (term_cursor t) → x = blank t → 0 ≤ a ≤ b → b ≤ columns t →
  (∀ r, row_len r = columns t → 0 ≤ occ r ≤ columns t →
     wp (f r) (row_written a b (λ _, x) r)) →
  (∀ g, term_wf B (upd_grid g t) → same_size t (upd_grid g t) →
     same_frame (t_grid t) g → s_len (raw g) = s_len (raw (t_grid t)) →
     line_edit (λ i, if (a <=? i) && (i <? b) then Some (blank t) else line_cell t i) t
       (upd_grid g t) → Q (upd_grid g t)) →
  wp (on_grid (λ g, grid_update_row g l f) t) Q.
Proof.
  intros W -> -> Hab Hb Hf HQ. pose proof (wp_blank_range B t (t_damage t) a b f Q) as G.
  rewrite upd_damage_id in G. by apply G.
Qed.

Lemma erase_chars_spec B t count :
  term_wf B t → 0 ≤ count ≤ 1073741824 →
  wp (erase_chars count t) (λ t', term_wf B t' ∧ same_size t t' ∧
    line_edit (λ i, if (column (term_cursor t) <=? i) && (i <? column (term_cursor t) + count)
                    then Some (blank t) else line_cell t i) t t' ∧
    damaged_columns (column (term_cursor t))
      (Z.min (columns t) (column (term_cursor t) + count)) t t').
Proof.
  intros W Hn. pose proof (term_bounds R B t W). unfold erase_chars. do 2 wp_step. simpl in *.
  casts. wp_step. wp_use (damaged_line R B); [done|simpl; lia|]. intros t1 (d & -> & W1 & _ & _ & _ & Hdam).
  eapply (wp_blank_range B _ _ _ _ _ _ W1); [| | |].
  3: { intros r Hl Ho. apply row_map_range_written; simpl in *; lia. }
  all: simpl; try lia. intros g W' Hs _ _ [E1 E2 E3]. split; [done|]. split; [done|].
  split; [|intros i Hi; apply Hdam; simpl in *; lia].
  split; [done|done|]. intros i Hi. rewrite E3 by done. simpl in *.
  destruct (Z.leb_spec (column (term_cursor t)) i),
    (Z.ltb_spec i (Z.min (column (term_cursor t) + count) (g_columns (t_grid t)))),
    (Z.ltb_spec i (column (term_cursor t) + count)); simpl; (done || lia).
Qed.

(** Selections are only dropped. *)
Lemma drop_selection_spec B t lo hi :
  term_wf B t →
  (∀ l, lo = Excluded l → -1073741824 ≤ l ≤ 1073741824) →
  (∀ l, hi = Excluded l → -1073741824 ≤ l ≤ 1073741824) →
  wp (drop_selection lo hi t) (λ t', term_wf B t' ∧ ∃ o, t' = upd_selection o t ∧
    (o = None ∨ o = t_selection t)).
Proof.
  intros W Hlo Hhi. unfold drop_selection. destruct (t_selection t) as [s|] eqn:Es.
  - wp_step. eapply wp_mono with (Q := λ _, True).
    { unfold intersects_range.
      destruct (line (a_point (region_end s)) <? line (a_point (region_start s)));
      destruct lo as [l|l|], hi as [l'|l'|]; try specialize (Hlo l eq_refl);
        try specialize (Hhi l' eq_refl); wp_steps; done. }
    intros hit _. wp_step. destruct hit.
    + split; [by apply upd_selection_none_wf|]. exists None. split; [done|by left].
    + split; [done|]. exists (t_selection t). split; [by destruct t|by right].
  - wp_step. split; [done|]. exists None. split; [by destruct t; simpl in *; subst|by left].
Qed.

(** The columns [clear_line] blanks. *)
Definition clear_line_range t (m : LineClearMode) : Z * Z :=
  match m with
  | LineRight => if input_needs_wrap (cursor (t_grid t)) then (0, 0)
                 else (column (term_cursor t), columns t)
  | LineLeft => (0, column (term_cursor t) + 1)
  | LineAll => (0, columns t)
  end.

Lemma clear_line_spec B t m :
  term_wf B t →
  wp (clear_line m t) (λ t', term_wf B t' ∧ same_size t t' ∧
    let '(a, b) := clear_line_range t m in
    line_edit (λ i, if (a <=? i) && (i <? b) then Some (blank t) else line_cell t i) t t' ∧
    damaged_columns a b t t').
Proof.
  intros W. pose proof (term_bounds R B t W). unfold clear_line.
  change (point (cursor (t_grid t))) with (term_cursor t).
  change (bg (template (cursor (t_grid t)))) with (bg (term_template t)).
  wp_step. eapply wp_mono with (Q := λ o, match o with
    | None => clear_line_range t m = (0, 0)
    | Some (a, b) => clear_line_range t m = (a, b) ∧ 0 ≤ a < b ∧ b ≤ columns t end).
  { unfold clear_line_range. simpl. destruct m; [destruct (input_needs_wrap _)| |]; wp_steps;
      try done; simpl; (split; [done|lia]). }
  intros [[a b]|] Hr.
  - destruct Hr as (-> & Hab & Hb). cbv beta iota. simpl in Hb. do 2 wp_step. casts.
    wp_step. wp_use (damaged_line R B); [done|simpl; lia|]. intros t1 (d & -> & W1 & _ & _ & _ & Hdam).
    wp_step. apply (wp_blank_range B _ _ a b _ _ W1); [lia|simpl; lia| |].
    { intros r Hl Ho. apply row_map_range_written; simpl in *; lia. }
    intros g W2 Hs Fr _ [E1 E2 E3]. cbv zeta.
    wp_use (drop_selection_spec B); [done|done|done|].
    intros t3 (W3 & o & -> & _). split; [done|]. split; [done|].
    split; [by split|intros i Hi; apply Hdam; simpl in *; lia].
  - rewrite Hr. wp_step. split; [done|]. split; [done|]. split; [|by intros i ?; lia].
    split; [done|done|].
    intros i Hi. by destruct (Z.leb_spec 0 i), (Z.ltb_spec i 0); try lia.
Qed.

(** ** Clearing the screen *)

(** The lines [a..b] other than the cursor's were reset, column [i] of the
    cursor's line holds [f i], the remaining cells of the buffer are kept. *)
Record cleared (a b : Z) (f : Z → option Cell) t (t' : Term) : Prop := {
  cl_cursor : cursor (t_grid t') = cursor (t_grid t);
  cl_reset p : in_screen t p → line p ≠ line (term_cursor t) → a ≤ line p < b →
    ∃ r, is_reset R (term_template t) r ∧ g_cell (t_grid t') p = zlookup (r_inner r) (column p);
  cl_keep p : in_grid (t_grid t) p → line p ≠ line (term_cursor t) → line p < a ∨ b ≤ line p →
    g_cell (t_grid t') p = g_cell (t_grid t) p;
  cl_line i : 0 ≤ i < columns t → line_cell t' i = f i }.

(** [self.grid.reset_region(range)]. *)
Lemma wp_reset_region B t lo hi (Q : Term → Prop) :
  term_wf B t → 0 ≤ bound_start lo < screen_lines t →
  0 ≤ bound_end (t_grid t) hi ≤ screen_lines t →
  (∀ g, term_wf B (upd_grid g t) → same_size t (upd_grid g t) →
     grid_lines_reset R (bound_start lo) (bound_end (t_grid t) hi) (t_grid t) g → Q (upd_grid g t)) →
  wp (on_grid (λ g, reset_region g lo hi) t) Q.
Proof.
  intros W Hlo Hhi HQ. apply (wp_on_grid_frame R B) with (P := λ g, grid_wf R g ∧
    grid_lines_reset R (bound_start lo) (bound_end (t_grid t) hi) (t_grid t) g); [done| | |].
  - apply reset_region_spec; [apply W|done|done].
  - intros g [? [? _]]. done.
  - intros g [? Hg] W'. apply HQ; [done| |done]. apply upd_grid_size, same_frame_dims, Hg.
Qed.

Lemma reset_then_edit B t g t' a b f :
  term_wf B t → grid_lines_reset R a b (t_grid t) g → 0 ≤ a → b ≤ screen_lines t →
  line_edit f (upd_grid g t) t' → cleared a b f t t'.
Proof.
  intros W (Fr & _ & Hlen & Hb & Hk) Ha Hbl [E1 E2 E3]. pose proof (term_bounds R B t W).
  pose proof (same_frame_dims _ _ Fr) as [Hl Hc]. pose proof Fr as (Hcur & _).
  pose proof (active_ring R (t_grid t)) as Hring.
  assert (Hcp : term_cursor (upd_grid g t) = term_cursor t).
  { unfold term_cursor; simpl. by rewrite Hcur. }
  rewrite Hcp in *. simpl in *. split.
  - by rewrite E1.
  - intros p [Hp1 Hp2] Hne Hr. simpl in *. destruct (Hb (line p)) as (r & Hgl & Hres); [lia|].
    exists r. split; [done|]. rewrite E2; [|unfold in_grid, top_of; simpl; lia|done].
    unfold g_cell. by rewrite Hgl.
  - intros p Hp Hne Hr. destruct Hp as [Hp1 Hp2]. unfold top_of in Hp1. simpl in *.
    rewrite E2; [|unfold in_grid, top_of; simpl; lia|done]. unfold g_cell.
    rewrite Hk; [done| |done]. apply Hring; [apply W|]. unfold g_active. lia.
  - intros i Hi. apply E3. simpl in *. lia.
Qed.

Lemma clear_above_spec B t :
  term_wf B t →
  wp (clear_screen ClearAbove t) (λ t', term_wf B t' ∧ same_size t t' ∧
    cleared 0 (if 1 <? line (term_cursor t) then line (term_cursor t) else 0)
      (λ i, if i <? column (term_cursor t) + 1 then Some (blank t) else line_cell t i) t t').
Proof.
  intros W. pose proof (term_bounds R B t W) as Hb. unfold clear_screen. cbv zeta.
  set (last := if 1 <? line (term_cursor t) then line (term_cursor t) else 0).
  wp_step. wp_step. eapply wp_mono with (Q := λ t1, ∃ g, t1 = upd_grid g t ∧ term_wf B t1 ∧
    same_size t t1 ∧ grid_lines_reset R 0 last (t_grid t) g).
  { unfold last. destruct (Z.ltb_spec 1 (line (term_cursor t))).
    - apply (wp_reset_region B); [done|simpl; lia|simpl; lia|]. intros g W' S' Hg. by exists g.
    - wp_step. exists (t_grid t). split; [by destruct t|]. split; [done|]. split; [done|].
      unfold grid_lines_reset. split_and!; try done; lia. }
  intros t1 (g & -> & W1 & S1 & Hg). pose proof Hg as (Fr & _).
  pose proof (same_frame_dims _ _ Fr) as [Hl Hc]. pose proof Fr as (Hcur & _).
  do 2 wp_step. simpl. rewrite Hc. wp_step.
  assert (Hcp : term_cursor (upd_grid g t) = term_cursor t).
  { unfold term_cursor; simpl. by rewrite Hcur. }
  assert (Htmp : term_template (upd_grid g t) = term_template t).
  { unfold term_template; simpl. by rewrite Hcur. }
  apply (wp_blank_range' B _ _ (blank t) 0
    (Z.min (column (term_cursor t) + 1) (g_columns (t_grid t))));
    [done|by rewrite Hcp|unfold blank; by rewrite Htmp|lia|simpl; lia| |].
  { intros r Hrl Ho. apply row_map_range_to_written. simpl in *. lia. }
  intros g2 W2 S2 F2 L2 E2. wp_use (drop_selection_spec B); [done|done|done|].
  intros t3 (W3 & o & -> & _). 
  split; [by apply mark_fully_damaged_wf|]. split; [by eapply same_size_trans|].
  assert (E2' : cleared 0 last (λ i, if (0 <=? i) &&
      (i <? Z.min (column (term_cursor t) + 1) (g_columns (t_grid t)))
      then Some (blank (upd_grid g t)) else line_cell (upd_grid g t) i) t (upd_grid g2 (upd_grid g t))).
  { eapply reset_then_edit; [done|done|lia|unfold last; case_match; simpl; lia|exact E2]. }
  destruct E2' as [C1 C2 C3 C4]. split; [done|done|done|]. intros i Hi.
  change (line_cell (mark_fully_damaged _) i) with (line_cell (upd_grid g2 (upd_grid g t)) i).
  rewrite C4 by done. unfold blank at 1. rewrite Htmp.
  assert (line_cell (upd_grid g t) i = line_cell t i) as ->.
  { unfold line_cell, g_cell. rewrite Hcp. cbn [line column]. destruct Hg as (_ & _ & _ & _ & Hk).
    simpl. rewrite Hk; [done| |unfold last; case_match; lia].
    apply (active_ring R); [apply W|]. unfold g_active. lia. }
  simpl in *. destruct (Z.leb_spec 0 i), (Z.ltb_spec i (Z.min (column (term_cursor t) + 1)
    (g_columns (t_grid t)))), (Z.ltb_spec i (column (term_cursor t) + 1)); simpl; (done || lia).
Qed.

Lemma clear_below_spec B t :
  term_wf B t →
  wp (clear_screen ClearBelow t) (λ t', term_wf B t' ∧ same_size t t' ∧
    cleared (line (term_cursor t) + 1) (screen_lines t)
      (λ i, if column (term_cursor t) <=? i then Some (blank t) else line_cell t i) t t').
Proof.
  intros W. pose proof (term_bounds R B t W) as Hb. unfold clear_screen. cbv zeta.
  wp_step. wp_step.
  apply (wp_blank_range' B t _ (blank t) (column (term_cursor t)) (columns t));
    [done|done|done|simpl; lia|simpl; lia| |].
  { intros r Hrl Ho. rewrite <- Hrl. apply row_map_range_from_written; simpl in *; lia. }
  intros g W1 S1 F1 L1 E1. pose proof (same_frame_dims _ _ F1) as [Hl Hc].
  pose proof F1 as (Hcur & _). simpl in *. do 2 wp_step. casts.
  assert (Hcp : term_cursor (upd_grid g t) = term_cursor t).
  { unfold term_cursor; simpl. by rewrite Hcur. }
  wp_step. eapply wp_mono with (Q := λ t2, ∃ g2, t2 = upd_grid g2 t ∧ term_wf B t2 ∧
    grid_lines_reset R (line (term_cursor t) + 1) (g_lines (t_grid t)) g g2).
  { apply wp_if; intros E.
    - do 2 wp_step. apply (wp_reset_region B); [done|simpl; lia|simpl; lia|].
      intros g2 W' S' Hg. exists g2. split; [done|]. split; [done|].
      simpl in Hg. by rewrite Hl in Hg.
    - wp_step. exists g. split; [done|]. split; [done|].
      unfold grid_lines_reset. split_and!; try done; lia. }
  intros t2 (g2 & -> & W2 & Hg2). pose proof Hg2 as (F2 & _ & L2 & Hb2 & Hk2).
  pose proof (same_frame_dims _ _ F2) as [Hl2 Hc2]. pose proof F2 as (Hcur2 & _).
  wp_use (drop_selection_spec B); [done|done|intros l [= <-]; lia|].
  intros t3 (W3 & o & -> & _). split; [by apply mark_fully_damaged_wf|].
  split; [split; simpl; congruence|]. destruct E1 as [C1 C2 C3].
  pose proof (active_ring R g) as Hring. assert (Wg : grid_wf R g) by apply W1.
  assert (Hcp2 : term_cursor (mark_fully_damaged (upd_selection o (upd_grid g2 t))) = term_cursor t).
  { unfold term_cursor; simpl. by rewrite Hcur2, Hcur. }
  split; simpl.
  - congruence.
  - intros p [Hp1 Hp2] Hne Hr. destruct (Hb2 (line p)) as (r & Hgl & Hres); [lia|]. exists r.
    split; [unfold term_template; by rewrite <- Hcur|]. unfold g_cell. by rewrite Hgl.
  - intros p Hp Hne Hr. rewrite <- C2 by done. unfold g_cell. rewrite Hk2; [done| |lia].
    destruct Hp as [Hp1 _]. unfold top_of in Hp1. simpl in Hp1. apply Hring; [done|].
    unfold g_active. lia.
  - intros i Hi. unfold line_cell. rewrite Hcp2. unfold g_cell. cbn [line column].
    change (t_grid (mark_fully_damaged _)) with g2.
    rewrite Hk2; [|apply Hring; [done|unfold g_active; lia]|lia].
    specialize (C3 i Hi). unfold line_cell in C3. rewrite Hcp in C3. unfold g_cell in C3.
    cbn [line column] in C3. simpl in C3. rewrite C3.
    by destruct (Z.leb_spec (column (term_cursor t)) i), (Z.ltb_spec i (g_columns (t_grid t))); try lia.
Qed.

Lemma line_clamp_grid_bound B t l :
  term_wf B t →
  wp (line_grid_clamp l t BGrid) (λ l', -1073741824 ≤ l' ≤ 1073741824).
Proof.
  intros W. pose proof (term_bounds R B t W). unfold line_grid_clamp.
  rewrite (term_bottommost R B), (term_topmost R B) by done. simpl. unfold top_of; simpl. lia.
Qed.

Lemma line_clamp_cursor_bound B t l :
  term_wf B t →
  wp (line_grid_clamp l t BCursor) (λ l', -1073741824 ≤ l' ≤ 1073741824).
Proof.
  intros W. pose proof (term_bounds R B t W). unfold line_grid_clamp.
  rewrite (term_bottommost R B) by done. simpl. lia.
Qed.

Lemma clear_all_spec B t :
  term_wf B t →
  wp (clear_screen ClearAll t) (λ t', term_wf B t' ∧ same_size t t' ∧
    cursor (t_grid t') = cursor (t_grid t) ∧ t_selection t' = None ∧
    ∀ l, 0 ≤ l < screen_lines t →
      ∃ r, g_line (t_grid t') l = Some r ∧ is_reset R (term_template t) r).
Proof.
  intros W. pose proof (term_bounds R B t W). unfold clear_screen. cbv zeta. wp_step.
  wp_step. eapply wp_mono with (Q := λ t1, term_wf B t1 ∧ same_frame (t_grid t) (t_grid t1) ∧
    ∀ l, 0 ≤ l < screen_lines t →
      ∃ r, g_line (t_grid t1) l = Some r ∧ is_reset R (term_template t) r).
  { destruct (has_mode t TermMode.ALT_SCREEN).
    - apply (wp_reset_region B); [done|simpl; lia|simpl; lia|].
      intros g W' S' (Fr & _ & _ & Hb & _). split; [done|]. split; [done|]. apply Hb.
    - wp_step. apply (wp_on_grid_frame R B) with (P := λ g, grid_wf R g ∧ same_frame (t_grid t) g ∧
        ∀ l, 0 ≤ l < screen_lines t →
          ∃ r, g_line g l = Some r ∧ is_reset R (term_template t) r); [done| |by intros g (? & ? & _)|].
      { wp_use (clear_viewport_spec R); [apply W|]. intros g (? & ? & ? & _). done. }
      intros g (Wg & Fr & Hrows) W1. pose proof (term_bounds R B _ W1) as Hb1.
      pose proof (tw_vi _ _ _ W1) as [Hvl _]. pose proof Fr as (_ & _ & _ & _ & Hlim). simpl in *.
      unfold line_sub_usize, saturating_sub. casts. do 2 wp_step. wp_step.
      wp_use (line_clamp_grid_bound B); [done|]. intros l Hl. wp_step.
      split; [by apply set_vi_line_wf|]. done. }
  intros t1 (W1 & Fr & Hrows). pose proof Fr as (Hcur & _). do 1 wp_step.
  split_and!; [by apply mark_fully_damaged_wf, upd_selection_none_wf| |done|done|done].
  apply same_frame_dims in Fr as [? ?]. by split.
Qed.

Lemma clear_saved_spec B t :
  term_wf B t →
  wp (clear_screen ClearSaved t) (λ t', term_wf B t' ∧ same_size t t' ∧
    cursor (t_grid t') = cursor (t_grid t) ∧ history_size t' = 0 ∧
    ∀ l, 0 ≤ l < screen_lines t → g_line (t_grid t') l = g_line (t_grid t) l).
Proof.
  intros W. pose proof (term_bounds R B t W). unfold clear_screen. cbv zeta. wp_step.
  apply wp_if; intros E; wp_steps.
  - apply (wp_on_grid_frame R B) with (P := λ g, grid_wf R g ∧ same_frame (t_grid t) g ∧
      s_len (raw g) = g_lines (t_grid t) ∧
      ∀ l, 0 ≤ l < screen_lines t → g_line g l = g_line (t_grid t) l); [done| |by intros g (? & ? & _)|].
    { wp_use (clear_history_spec R); [apply W|]. intros g (? & ? & _ & ? & ?). done. }
    intros g (Wg & Fr & Hlen & Hrows) W1. wp_step. wp_use (line_clamp_cursor_bound B); [done|].
    intros l Hl. wp_use (drop_selection_spec B); [by apply set_vi_line_wf|done|intros ? [= <-]; lia|].
    intros t3 (W3 & o & -> & _). pose proof Fr as (Hcur & _).
    split_and!; [by apply mark_fully_damaged_wf|apply same_frame_dims in Fr as [? ?]; by split|done| |done].
    unfold history_size, saturating_sub; simpl.
    pose proof (same_frame_dims _ _ Fr) as [? ?]. simpl in *. lia.
  - split_and!; [by apply mark_fully_damaged_wf|done|done| |done].
    unfold history_size, saturating_sub in *. simpl in *. lia.
Qed.

Lemma clear_screen_wf B t m :
  term_wf B t → wp (clear_screen m t) (λ t', term_wf B t' ∧ same_size t t').
Proof.
  intros W. destruct m;
    [wp_use clear_below_spec|wp_use clear_above_spec|wp_use clear_all_spec|wp_use clear_saved_spec];
    try done; by intros t' (? & ? & _).
Qed.

Lemma decaln_spec B t :
  term_wf B t →
  wp (decaln t) (λ t', term_wf B t' ∧ same_size t t').
Proof.
  intros W. pose proof (term_bounds R B t W). unfold decaln. wp_step.
  apply (wp_on_grid_frame R B) with (P := λ g, grid_wf R g ∧ same_frame (t_grid t) g ∧
    s_len (raw g) = s_len (raw (t_grid t))); [done| |by intros g (? & ? & _)|].
  - apply wp_for_range with (I := λ _ g, grid_wf R g ∧ same_frame (t_grid t) g ∧
      s_len (raw g) = s_len (raw (t_grid t))); [split; [apply W|done]| |done].
    intros l g Hl Hg. apply wp_for_range with (I := λ _ g, grid_wf R g ∧
      same_frame (t_grid t) g ∧ s_len (raw g) = s_len (raw (t_grid t))); [done| |done].
    intros col g1 Hcol (Wg & Fr & Ln). pose proof (same_frame_dims _ _ Fr) as [Hl1 Hc1].
    simpl in *. casts. apply (wp_grid_update_cell R); [done|unfold in_grid, top_of; simpl; lia|].
    intros g2 r r' W2 Hrep _ _. destruct Hrep as [F2 _ L2 _ _].
    split_and!; [done|by eapply same_frame_trans|congruence].
  - intros g (Wg & Fr & _) W1. wp_step. split; [by apply mark_fully_damaged_wf|].
    apply same_frame_dims in Fr as [? ?]. by split.
Qed.
End facts.

(** ** Tab stops

    The loops of [move_forward_tabs] and [move_backward_tabs] compute the next and the
    previous tab stop of the list of tab stops. *)

(** The first set element, counting from [i]. *)
Fixpoint first_stop (tabs : list bool) (i : Z) : option Z :=
  match tabs with
  | [] => None
  | b :: tabs => if b then Some i else first_stop tabs (i + 1)
  end.

(** The last set element, counting from [i], or [acc]. *)
Fixpoint last_stop (tabs : list bool) (i acc : Z) : Z :=
  match tabs with
  | [] => acc
  | b :: tabs => last_stop tabs (i + 1) (if b then i else acc)
  end.

(** The next tab stop right of [col], or the last column. *)
Definition next_stop (tabs : list bool) (col : Z) : Z :=
  default (zlen tabs - 1) (first_stop (drop (Z.to_nat (col + 1)) tabs) (col + 1)).

(** The next tab stop left of [col], or [col]. *)
Definition previous_stop (tabs : list bool) (col : Z) : Z :=
  last_stop (take (Z.to_nat col) tabs) 0 col.

Lemma next_tab_next_stop n tabs col :
  0 ≤ col → Z.of_nat n = zlen tabs - 1 - col → next_tab n tabs col = Ok (next_stop tabs col).
Proof.
  revert col. induction n as [|n IH]; intros col Hc Hn; simpl; unfold next_stop.
  - rewrite drop_ge by (unfold zlen in *; lia). simpl. f_equal. lia.
  - destruct (zlookup_some tabs (col + 1)) as [b Hb]; [lia|].
    rewrite (vec_get_ok _ _ _ Hb). cbn [mbind exec_bind].
    apply zlookup_spec in Hb as [_ Hb]. rewrite (drop_S _ _ _ Hb). simpl.
    destruct b; [done|]. rewrite IH by lia. unfold next_stop.
    by replace (Z.to_nat (col + 1 + 1)) with (S (Z.to_nat (col + 1))) by lia.
Qed.

Lemma last_stop_snoc tabs b i acc :
  last_stop (tabs ++ [b]) i acc = if b then i + zlen tabs else last_stop tabs i acc.
Proof.
  revert i acc. induction tabs as [|x tabs IH]; intros i acc; simpl.
  - destruct b; [unfold zlen; simpl; lia|done].
  - rewrite IH. destruct b; [|done]. unfold zlen. simpl length. lia.
Qed.

Lemma previous_tab_previous_stop n tabs col :
  Z.of_nat n ≤ zlen tabs → previous_tab n tabs col = Ok (last_stop (take n tabs) 0 col).
Proof.
  induction n as [|n IH]; intros Hn; [done|]. simpl previous_tab.
  destruct (zlookup_some tabs (Z.of_nat n)) as [b Hb]; [lia|].
  rewrite (vec_get_ok _ _ _ Hb). cbn [mbind exec_bind].
  apply zlookup_spec in Hb as [_ Hb]. rewrite Nat2Z.id in Hb.
  rewrite (take_S_r _ _ _ Hb), last_stop_snoc. unfold zlen in *.
  rewrite length_take_le by lia. destruct b; [done|]. apply IH. lia.
Qed.

Section facts.
Context `{AnsiLaws} (R : Row Cell → Prop).
Implicit Types (t : Term).
#[local] Abbreviation term_wf := (TermFacts.term_wf R).

Lemma set_column_id t : set_column (column (term_cursor t)) t = t.
Proof. by destruct t as [? ? ? [[[]]]]. Qed.

Lemma previous_stop_range tabs col : 0 ≤ col → 0 ≤ previous_stop tabs col ≤ col.
Proof.
  intros Hc. unfold previous_stop.
  assert (G : ∀ l i acc, 0 ≤ i → i + zlen l ≤ col → 0 ≤ acc ≤ col → 0 ≤ last_stop l i acc ≤ col).
  { induction l as [|b l IH]; intros i acc Hi Hl Ha; simpl; [done|].
    assert (zlen (b :: l) = zlen l + 1) by (unfold zlen; simpl length; lia).
    pose proof (zlen_nonneg l). apply IH; [lia|lia|]. destruct b; lia. }
  apply G; [lia| |lia]. rewrite zlen_take. lia.
Qed.

Lemma next_stop_range tabs col : 0 ≤ col < zlen tabs → 0 ≤ next_stop tabs col < zlen tabs.
Proof.
  intros Hc. unfold next_stop.
  assert (G : ∀ l i, 0 ≤ i → match first_stop l i with Some x => i ≤ x < i + zlen l | None => True end).
  { induction l as [|b l IH]; intros i Hi; simpl; [done|].
    assert (zlen (b :: l) = zlen l + 1) by (unfold zlen; simpl length; lia).
    pose proof (zlen_nonneg l). destruct b; [lia|].
    specialize (IH (i + 1) ltac:(lia)). destruct (first_stop l (i + 1)); [lia|done]. }
  specialize (G (drop (Z.to_nat (col + 1)) tabs) (col + 1) ltac:(lia)).
  rewrite zlen_drop in G. destruct (first_stop _ _); simpl; lia.
Qed.

Lemma forward_loop_stops B count t :
  term_wf B t →
  move_forward_tabs_loop count t =
    Ok (set_column (Nat.iter count (next_stop (t_tabs t)) (column (term_cursor t))) t) ∧
  0 ≤ Nat.iter count (next_stop (t_tabs t)) (column (term_cursor t)) < columns t.
Proof.
  revert t. induction count as [|count IH]; intros t W; simpl move_forward_tabs_loop.
  - cbn [Nat.iter nat_rect]. rewrite set_column_id. pose proof (term_bounds R B t W).
    simpl in *. split; [done|lia].
  - pose proof (term_bounds R B t W) as Hb. pose proof (tw_tabs _ _ _ W) as Ht. simpl columns in *.
    rewrite usize_sub_ok by lia. cbn [mbind exec_bind].
    set (col := column (term_cursor t)) in *. rewrite Nat.iter_succ_r.
    destruct (Z.eqb_spec col (g_columns (t_grid t) - 1)) as [E|E].
    + assert (Hs : next_stop (t_tabs t) col = col).
      { unfold next_stop. rewrite drop_ge by (unfold zlen in *; lia). simpl. lia. }
      assert (Hi : Nat.iter count (next_stop (t_tabs t)) col = col).
      { clear -Hs. induction count; simpl; congruence. }
      rewrite Hs, Hi. unfold col. rewrite set_column_id. split; [done|lia].
    + rewrite usize_add_ok by lia. cbn [mbind exec_bind].
      rewrite next_tab_next_stop by lia. cbn [mbind exec_bind].
      pose proof (next_stop_range (t_tabs t) col ltac:(lia)).
      destruct (IH (set_column (next_stop (t_tabs t) col) t)) as [-> Hr].
      { apply set_column_wf; [done|simpl; lia]. }
      split; [by rewrite set_column_twice|done].
Qed.

Lemma backward_loop_stops B count t :
  term_wf B t →
  move_backward_tabs_loop count t =
    Ok (set_column (Nat.iter count (previous_stop (t_tabs t)) (column (term_cursor t))) t) ∧
  0 ≤ Nat.iter count (previous_stop (t_tabs t)) (column (term_cursor t)) < columns t.
Proof.
  revert t. induction count as [|count IH]; intros t W; simpl move_backward_tabs_loop.
  - cbn [Nat.iter nat_rect]. rewrite set_column_id. pose proof (term_bounds R B t W).
    simpl in *. split; [done|lia].
  - pose proof (term_bounds R B t W) as Hb. pose proof (tw_tabs _ _ _ W) as Ht. simpl columns in *.
    set (col := column (term_cursor t)) in *. rewrite Nat.iter_succ_r.
    pose proof (previous_stop_range (t_tabs t) col ltac:(lia)).
    destruct (Z.eqb_spec col 0) as [E|E].
    + assert (Hs : previous_stop (t_tabs t) col = col) by lia.
      assert (Hi : Nat.iter count (previous_stop (t_tabs t)) col = col).
      { clear -Hs. induction count; simpl; congruence. }
      rewrite Hs, Hi. unfold col. rewrite set_column_id. split; [done|lia].
    + rewrite previous_tab_previous_stop by lia. cbn [mbind exec_bind].
      change (last_stop _ 0 col) with (previous_stop (t_tabs t) col).
      destruct (IH (set_column (previous_stop (t_tabs t) col) t)) as [-> Hr].
      { apply set_column_wf; [done|simpl; lia]. }
      split; [by rewrite set_column_twice|done].
Qed.
End facts.
