(* ===== verification/HandlerSafe.v ===== *)
(** * No escape sequence breaks the terminal

    The remaining methods of the handler, and the theorem that every call the
    parser can make returns and keeps the invariant. *)

From S2P Require Import Prelude Index Ansi GridCell Row Storage Cell Grid GridFacts GridOps.
From S2P Require Import Resize Selection Term TermFacts TermOps Handler HandlerFacts HandlerEdit.
#[local] Open Scope Z_scope.

Section facts.
Context `{AnsiLaws} (R : Row Cell → Prop).
Implicit Types (t : Term) (g : Grid Cell).
#[local] Abbreviation term_wf := (TermFacts.term_wf R).

(** ** Regions and modes *)

(** The region [set_scrolling_region] sets, or the old one. *)
Definition new_region t (top : Z) (bottom : option Z) : LineRange :=
  let bottom := default (screen_lines t) bottom in
  if bottom <=? top then t_scroll_region t
  else mkLines (Z.min (top - 1) (screen_lines t)) (Z.min bottom (screen_lines t)).

Lemma set_scrolling_region_spec B t top bottom :
  term_wf B t → 1 ≤ top ≤ 536870912 → (∀ b, bottom = Some b → 0 ≤ b ≤ 536870912) →
  wp (set_scrolling_region top bottom t) (λ t', term_wf B t' ∧ same_size t t' ∧
    t_scroll_region t' = new_region t top bottom).
Proof.
  intros W Ht Hb. pose proof (term_bounds R B t W). unfold set_scrolling_region, new_region.
  simpl in *. set (b := default _ bottom).
  assert (Hb' : 0 ≤ b ≤ 536870912) by (unfold b; destruct bottom; simpl; [by apply Hb|lia]).
  clearbody b. destruct (Z.leb_spec b top); [by wp_step|]. casts. do 2 wp_step. cbv zeta.
  wp_use (goto_spec R B); [apply upd_region_wf; [done|lia|simpl; lia]|lia|lia|].
  intros t' [W' [d ->]]. done.
Qed.

Lemma deccolm_spec B t :
  term_wf B t → wp (deccolm t) (λ t', term_wf B t' ∧ same_size t t').
Proof.
  intros W. pose proof (term_bounds R B t W). unfold deccolm. wp_step.
  wp_use (set_scrolling_region_spec B); [done|lia|done|]. intros t1 (W1 & S1 & _).
  pose proof (term_bounds R B t1 W1). wp_step.
  apply (wp_reset_region R B); [done|simpl; lia|simpl; lia|]. intros g W2 S2 _. wp_step.
  split; [by apply mark_fully_damaged_wf|]. by eapply same_size_trans.
Qed.

Lemma swap_alt_safe B t :
  term_wf B t → wp (swap_alt t) (λ t', term_wf B t' ∧ same_size t t').
Proof. intros W. wp_use (swap_alt_wf R B); [done|]. by intros t' (? & ? & _). Qed.

Lemma set_private_mode_safe B t m :
  term_wf B t → wp (set_private_mode m t) (λ t', term_wf B t' ∧ same_size t t').
Proof.
  intros W. destruct m as [m|]; [|done]. destruct m; cbn [set_private_mode];
    try (apply wp_ret; split; [|done]; unfold set_blinking; auto with term_wf; fail).
  - by apply deccolm_spec.
  - wp_use (goto_spec R B); [by apply insert_mode_wf|lia|lia|]. intros t' [? M].
    split; [done|]. by apply moved_size in M.
  - destruct (has_mode _ _); [done|]. by apply swap_alt_safe.
Qed.

Lemma unset_private_mode_safe B t m :
  term_wf B t → wp (unset_private_mode m t) (λ t', term_wf B t' ∧ same_size t t').
Proof.
  intros W. destruct m as [m|]; [|done]. destruct m; cbn [unset_private_mode];
    try (apply wp_ret; split; [|done]; unfold set_blinking; auto with term_wf; fail).
  - by apply deccolm_spec.
  - destruct (has_mode _ _); [|done]. by apply swap_alt_safe.
Qed.

Lemma report_private_mode_wf B t m :
  term_wf B t → term_wf B (report_private_mode m t) ∧ same_size t (report_private_mode m t).
Proof.
  intros W. unfold report_private_mode. destruct m as [m|]; [destruct m|];
    (split; [|done]); auto with term_wf.
Qed.

(** ** Colors, charsets, titles *)

Lemma set_color_safe B t i col :
  term_wf B t → 0 ≤ i < COUNT →
  wp (set_color i col t) (λ t', term_wf B t' ∧ same_size t t').
Proof.
  intros W Hi. pose proof (tw_colors _ _ _ W) as Hn. unfold set_color. wp_step.
  eapply wp_mono with (Q := λ t1, t1 = t ∨ t1 = mark_fully_damaged t).
  { apply wp_if; intros E; [|wp_step; by left]. wp_step. apply wp_vec_get; [lia|].
    intros old _. wp_step. case_bool_decide; [by right|by left]. }
  intros t1 Ht1. assert (W1 : term_wf B t1 ∧ same_size t t1 ∧ t_colors t1 = t_colors t).
  { destruct Ht1 as [-> | ->]; [done|]. split; [by apply mark_fully_damaged_wf|done]. }
  destruct W1 as (W1 & S1 & Hc). wp_step. apply wp_vec_set; [rewrite Hc; lia|]. wp_step.
  split; [|done]. apply upd_colors_wf; [done|]. rewrite zlen_insert. congruence.
Qed.

Lemma reset_color_safe B t i :
  term_wf B t → 0 ≤ i < COUNT →
  wp (reset_color i t) (λ t', term_wf B t' ∧ same_size t t').
Proof.
  intros W Hi. pose proof (tw_colors _ _ _ W) as Hn. unfold reset_color. wp_step.
  eapply wp_mono with (Q := λ t1, t1 = t ∨ t1 = mark_fully_damaged t).
  { apply wp_if; intros E; [|wp_step; by left]. wp_step. apply wp_vec_get; [lia|].
    intros old _. wp_step. destruct (is_none old); [by left|by right]. }
  intros t1 Ht1. assert (W1 : term_wf B t1 ∧ same_size t t1 ∧ t_colors t1 = t_colors t).
  { destruct Ht1 as [-> | ->]; [done|]. split; [by apply mark_fully_damaged_wf|done]. }
  destruct W1 as (W1 & S1 & Hc). wp_step. apply wp_vec_set; [rewrite Hc; lia|]. wp_step.
  split; [|done]. apply upd_colors_wf; [done|]. rewrite zlen_insert. congruence.
Qed.

Lemma configure_charset_safe B t i cs :
  term_wf B t → wp (configure_charset i cs t) (λ t', term_wf B t' ∧ same_size t t').
Proof.
  intros W. pose proof (tw_grid _ _ _ W) as [Wg [Hp Hc] Hs].
  pose proof (charset_index_range i). unfold configure_charset. wp_step.
  apply wp_vec_set; [lia|]. wp_step. split; [|done].
  apply upd_grid_wf; [done| |done]. split; [by apply with_cursor_wf| |done].
  split; [done|]. simpl. by rewrite zlen_insert.
Qed.

Lemma push_title_safe B t :
  term_wf B t → wp (push_title t) (λ t', term_wf B t' ∧ same_size t t' ∧
    (zlen (t_title_stack t) ≤ TITLE_STACK_MAX_DEPTH →
     zlen (t_title_stack t') ≤ TITLE_STACK_MAX_DEPTH)).
Proof.
  intros W. unfold push_title. wp_step. unfold TITLE_STACK_MAX_DEPTH.
  eapply wp_mono with (Q := λ t1, ∃ l, t1 = upd_title_stack l t ∧
    (zlen (t_title_stack t) ≤ 4096 → zlen l < 4096)).
  { apply wp_if; intros E.
    - wp_step. unfold vec_remove_first. destruct (t_title_stack t) as [|x l] eqn:El; [done|].
      apply wp_ok. wp_step. exists l. split; [done|]. unfold zlen in *. simpl in *. lia.
    - wp_step. exists (t_title_stack t). split; [by destruct t|lia]. }
  intros t1 (l & -> & Hl). wp_step. split; [by apply upd_title_stack_wf, upd_title_stack_wf|].
  split; [done|]. simpl. rewrite zlen_app. intros Hs. specialize (Hl Hs). unfold zlen at 2; simpl.
  lia.
Qed.

Lemma version_ok : version_number CARGO_PKG_VERSION = Ok 2502.
Proof. vm_compute. done. Qed.

Lemma device_status_safe B t n :
  term_wf B t → wp (device_status n t) (λ t', term_wf B t' ∧ same_size t t').
Proof.
  intros W. pose proof (term_bounds R B t W). unfold device_status.
  destruct (_ =? 5); [apply wp_ret; split; [by apply send_event_wf|done]|].
  destruct (_ =? 6); [|by apply wp_ret]. wp_steps. split; [by apply send_event_wf|done].
Qed.

Lemma identify_terminal_safe B t i :
  term_wf B t → wp (identify_terminal i t) (λ t', term_wf B t' ∧ same_size t t').
Proof.
  intros W. unfold identify_terminal. destruct i as [ch|].
  - destruct (ch =? 62); [|by apply wp_ret]. rewrite version_ok. cbn [mbind exec_bind].
    apply wp_ret. split; [by apply send_event_wf|done].
  - apply wp_ret. split; [by apply send_event_wf|done].
Qed.

(** ** Reset *)

Lemma grid_reset_ok g :
  grid_ok R g → wp (grid_reset g) (λ g', grid_ok R g' ∧ same_dims g g' ∧
    cursor g' = cursor_default ∧ saved_cursor g' = cursor_default ∧ s_len (raw g') = g_lines g ∧
    ∀ l, 0 ≤ l < g_lines g → ∃ r, g_line g' l = Some r ∧ is_reset R default_cell r).
Proof.
  intros [W _ _]. pose proof (grid_columns R g W). pose proof W as [[? ? ? ? ? ?] ? ? ? ?].
  wp_use (grid_reset_spec R); [done|]. intros g' (W' & Hc & Hs & Ho & Hl & Hcol & _ & Hn & Hr).
  split_and!; try done. split; [done| |]; rewrite ?Hc, ?Hs; apply cursor_default_ok; lia.
Qed.

(** The grids of a terminal in their primary order. *)
Definition primary t : Term := if has_mode t TermMode.ALT_SCREEN then swap_grids t else t.

Lemma primary_wf B t : term_wf B t → term_wf B (primary t) ∧ same_size t (primary t).
Proof.
  intros W. unfold primary. destruct (has_mode _ _); [|done].
  split; [by apply swap_grids_wf|]. by apply (swap_grids_size R B).
Qed.

Lemma reset_state_spec B t :
  term_wf B t →
  wp (reset_state t) (λ t', term_wf B t' ∧ same_size t t' ∧
    cursor (t_grid t') = cursor_default ∧ saved_cursor (t_grid t') = cursor_default ∧
    cursor (t_inactive_grid t') = cursor_default ∧
    history_size t' = 0 ∧ t_scroll_region t' = mkLines 0 (screen_lines t) ∧
    t_tabs t' = tabs_new (columns t) ∧ t_title t' = None ∧ t_title_stack t' = [] ∧
    t_selection t' = None ∧ t_keyboard_mode_stack t' = [] ∧
    t_mode t' = Bitflags.insert (Z.land (t_mode t) TermMode.VI) TermMode.default ∧
    ∀ l, 0 ≤ l < screen_lines t →
      ∃ r, g_line (t_grid t') l = Some r ∧ is_reset R default_cell r).
Proof.
  intros W. pose proof (term_bounds R B t W) as Hbd. unfold reset_state.
  change (if has_mode t TermMode.ALT_SCREEN then _ else t) with (primary t). cbv zeta.
  destruct (primary_wf B t W) as [W0 [Hc0 Hl0]].
  set (t0 := upd_cursor_style None (upd_active_charset charset_index_default (primary t))).
  assert (W1 : term_wf B t0) by (unfold t0; auto with term_wf).
  assert (Hm : t_mode t0 = t_mode t) by (unfold t0, primary; simpl; by destruct (has_mode _ _)).
  assert (Hl1 : g_lines (t_grid t0) = g_lines (t_grid t)) by done.
  assert (Hc1 : g_columns (t_grid t0) = g_columns (t_grid t)) by done.
  clearbody t0. clear W0 Hc0 Hl0. wp_step.
  eapply (wp_on_grid R B) with (P := λ g, grid_ok R g ∧ same_dims (t_grid t0) g ∧
    cursor g = cursor_default ∧ saved_cursor g = cursor_default ∧
    s_len (raw g) = g_lines (t_grid t0) ∧
    ∀ l, 0 ≤ l < g_lines (t_grid t0) → ∃ r, g_line g l = Some r ∧ is_reset R default_cell r);
    [done|apply grid_reset_ok, W1|by intros g (? & ? & _)|].
  intros g (Wg & [Hdl Hdc] & Hcu & Hsv & Hn & Hrows) W2. wp_step.
  wp_use grid_reset_ok; [apply W2|]. intros g' (Wg' & Hdim' & Hcu' & _).
  cbv zeta. apply wp_ret. set (t' := mark_fully_damaged _).
  assert (Hg' : t_grid t' = g) by done. assert (Hi' : t_inactive_grid t' = g') by done.
  assert (Hmode : t_mode t' = Bitflags.insert (Z.land (t_mode t0) TermMode.VI) TermMode.default)
    by done.
  assert (Hreg : t_scroll_region t' = mkLines 0 (as_i32 (g_lines g))) by done.
  assert (Htab : t_tabs t' = tabs_new (g_columns g)) by done.
  assert (Hrest : t_title t' = None ∧ t_title_stack t' = [] ∧ t_selection t' = None ∧
    t_keyboard_mode_stack t' = []) by done.
  assert (W3 : term_wf B (upd_inactive_grid g' (upd_grid g t0))) by by apply upd_inactive_wf.
  assert (W' : term_wf B t').
  { unfold t'. apply mark_fully_damaged_wf, send_event_wf, insert_mode_wf, upd_mode_wf,
      upd_inactive_keyboard_mode_stack_wf, upd_keyboard_mode_stack_wf.
    apply upd_vi_wf; [|split; cbn [line column default_point]; lia].
    apply upd_selection_none_wf, upd_title_wf, upd_title_stack_wf.
    change (screen_lines (upd_inactive_grid g' (upd_grid g t0))) with (g_lines g).
    apply upd_tabs_wf.
    - casts. apply upd_region_wf; [done|lia|]. change (screen_lines _) with (g_lines g). lia.
    - change (columns _) with (g_columns g). rewrite tabs_new_len; [done|lia]. }
  clearbody t'. destruct Hrest as (? & ? & ? & ?).
  assert (Hcol : columns t' = g_columns g) by (simpl; by rewrite Hg').
  assert (Hlin : screen_lines t' = g_lines g) by (simpl; by rewrite Hg').
  rewrite Hg', Hi', Htab, Hreg, Hmode, Hm. casts. split_and!; try done.
  - split; rewrite ?Hcol, ?Hlin; simpl; lia.
  - unfold history_size, saturating_sub. rewrite Hlin. simpl. rewrite Hg'. lia.
  - f_equal. simpl. lia.
  - f_equal. simpl. lia.
  - intros l Hl. apply Hrows. simpl in Hl. lia.
Qed.

(** ** Every call *)

(** The arguments the parser produces: its numeric parameters are at most
    [u16::MAX] and default to 1 where 0 makes no sense.  The bounds here are
    wider. *)
Definition count_ok (n : Z) : Prop := 0 ≤ n ≤ 536870912.

Definition call_ok (h : call) : Prop :=
  match h with
  | Goto l col => -536870912 ≤ l ≤ 536870912 ∧ count_ok col
  | GotoLine l => -536870912 ≤ l ≤ 536870912
  | GotoCol n | InsertBlank n | MoveUp n | MoveDown n | MoveForward n | MoveBackward n
  | MoveDownAndCr n | MoveUpAndCr n | ScrollUp n | ScrollDown n | InsertBlankLines n
  | DeleteLines n | EraseChars n | DeleteChars n => count_ok n
  | SetColor i _ | ResetColor i => 0 ≤ i < COUNT
  | SetScrollingRegion top bottom =>
      1 ≤ top ≤ 536870912 ∧ ∀ b, bottom = Some b → count_ok b
  | _ => True
  end.

(** [push_keyboard_mode] on a full stack removes the oldest window title. *)
Definition push_ok (h : call) t : Prop :=
  match h with
  | PushKeyboardMode _ =>
      kitty_keyboard (t_config t) = false ∨
      zlen (t_keyboard_mode_stack t) < KEYBOARD_MODE_STACK_MAX_DEPTH ∨ t_title_stack t ≠ []
  | _ => True
  end.

Lemma push_keyboard_mode_safe B t m :
  term_wf B t → push_ok (PushKeyboardMode m) t →
  wp (push_keyboard_mode m t) (λ t', term_wf B t' ∧ same_size t t').
Proof.
  intros W Hok. cbn [push_ok] in Hok. unfold push_keyboard_mode. destruct (kitty_keyboard (t_config t)) eqn:Ek;
    [|by apply wp_ret]. cbn [negb]. wp_step.
  eapply wp_mono with (Q := λ t1, term_wf B t1 ∧ same_size t t1).
  { apply wp_if; intros E; [|by wp_step]. wp_step. unfold vec_remove_first.
    destruct (t_title_stack t); [exfalso; destruct Hok as [?|[?|?]]; [congruence|lia|done]|].
    apply wp_ok. wp_step. split; [by apply upd_title_stack_wf|done]. }
  intros t1 [W1 S1]. wp_step. split; [|done]. auto with term_wf.
Qed.

Lemma mret_safe B t t' : term_wf B t' → same_size t t' →
  wp (mret t' : exec Term) (λ t', term_wf B t' ∧ same_size t t').
Proof. done. Qed.

Lemma mono_safe B B' t m :
  B ≤ B' ≤ 1073741824 → wp m (λ t', term_wf B t' ∧ same_size t t') →
  wp m (λ t', term_wf B' t' ∧ same_size t t').
Proof.
  intros HB Hm. eapply wp_mono; [exact Hm|]. intros t' [? ?]. split; [|done].
  by eapply (term_wf_mono R B).
Qed.

(** Calls that never move the selection down the scrollback. *)
Definition scrolls (h : call) : bool :=
  match h with
  | Input _ | PutTab _ | Linefeed | Newline | ScrollUp _ | DeleteLines _ => true
  | _ => false
  end.

Lemma scrolls_safe B t h :
  term_wf B t → B + 2 * g_lines (t_grid t) ≤ 1073741824 → call_ok h → scrolls h = true →
  wp (handle h t) (λ t', term_wf (B + 2 * g_lines (t_grid t)) t' ∧ same_size t t').
Proof.
  intros W HB Hok Hs. pose proof (term_bounds R B t W). pose proof (tw_budget _ _ _ W).
  destruct h; try discriminate; cbn [handle call_ok] in *; unfold count_ok in *.
  - by apply input_spec.
  - apply (mono_safe (B + g_lines (t_grid t))); [lia|]. apply put_tab_spec; [done|lia].
  - apply (mono_safe (B + g_lines (t_grid t))); [lia|].
    wp_use (linefeed_spec R B); [done|lia|]. by intros t' (? & ? & _).
  - apply (mono_safe (B + g_lines (t_grid t))); [lia|]. apply newline_spec; [done|lia].
  - apply (mono_safe (B + g_lines (t_grid t))); [lia|].
    wp_use (scroll_up_spec R B); [done|lia|lia|]. by intros t' (? & ? & _).
  - apply (mono_safe (B + g_lines (t_grid t))); [lia|]. unfold delete_lines. casts. simpl.
    do 2 wp_step. apply wp_if; intros E; [|wp_step; split; [|done]; by eapply (term_wf_mono R B); [lia|]].
    unfold range_has in E. wp_use (scroll_up_relative_wf R B); [done|lia|lia|lia|].
    by intros t' (? & ? & _).
Qed.

(** Discharges the goals of [handle_safe]: [safe lem] uses a lemma about one method. *)
Ltac safe lem := wp_use lem; try done; try lia; intros ? [? ?]; naive_solver.
Ltac safe_move lem :=
  wp_use lem; try done; try lia; intros ? [? M]; split; [done|by apply moved_size in M].

Lemma calm_safe B t h :
  term_wf B t → call_ok h → push_ok h t → scrolls h = false →
  wp (handle h t) (λ t', term_wf B t' ∧ same_size t t').
Proof.
  intros W Hok Hp Hs. pose proof (term_bounds R B t W). pose proof (tw_region _ _ _ W).
  destruct h; try discriminate; cbn [handle call_ok] in *; unfold count_ok in *;
    try (apply mret_safe; [|done]; unfold bell, substitute, dynamic_color_sequence,
      text_area_size_pixels, text_area_size_chars, terminal_attribute, report_mode,
      set_keypad_application_mode, unset_keypad_application_mode, set_active_charset,
      set_cursor_style, set_cursor_shape, set_title; auto with term_wf; fail).
  - safe (decaln_spec R B).
  - safe_move (goto_spec R B).
  - safe_move (goto_spec R B).
  - safe_move (goto_spec R B).
  - safe (insert_blank_spec R B).
  - safe_move (move_up_spec R B).
  - safe_move (move_down_spec R B).
  - safe_move (move_forward_spec R B).
  - safe_move (move_backward_spec R B).
  - safe_move (move_down_and_cr_spec R B).
  - safe_move (move_up_and_cr_spec R B).
  - safe (identify_terminal_safe B).
  - safe (device_status_safe B).
  - apply mret_safe; unfold report_keyboard_mode; destruct (negb _); auto with term_wf; done.
  - by apply push_keyboard_mode_safe.
  - apply mret_safe; unfold pop_keyboard_modes; destruct (negb _); auto with term_wf; done.
  - apply mret_safe; unfold set_keyboard_mode; destruct (negb _); auto with term_wf; done.
  - wp_use (backspace_spec R B); [done|]. intros t' [? Hb]. split; [done|].
    revert Hb. case_match; [apply moved_size|by intros ->].
  - safe_move (carriage_return_spec R B).
  - by apply set_tab_spec.
  - wp_use (scroll_down_relative_wf R B); [done|lia|lia|]. by intros t' (? & ? & _).
  - unfold insert_blank_lines. apply wp_if; intros E; [|by wp_step]. unfold range_has in E.
    wp_use (scroll_down_relative_wf R B); [done|lia|lia|]. by intros t' (? & ? & _).
  - safe (erase_chars_spec R B).
  - safe (delete_chars_wf R B).
  - by apply move_backward_tabs_spec.
  - by apply move_forward_tabs_spec.
  - apply mret_safe; [by apply save_cursor_wf|done].
  - wp_use (restore_cursor_spec R B); [done|]. by intros t' (? & d & ->).
  - safe (clear_line_spec R B).
  - by apply set_color_safe.
  - by apply reset_color_safe.
  - apply mret_safe; unfold clipboard_store; repeat case_match; auto with term_wf; done.
  - apply mret_safe; unfold clipboard_load; repeat case_match; auto with term_wf; done.
  - by apply clear_screen_wf.
  - by apply clear_tabs_spec.
  - safe (reset_state_spec B).
  - safe (reverse_index_spec R B).
  - apply mret_safe; unfold set_hyperlink; destruct h as [h|];
      try (destruct (hyperlink_of_vte _ h)); auto with term_wf; done.
  - by apply set_private_mode_safe.
  - by apply unset_private_mode_safe.
  - destruct (report_private_mode_wf B t m W); by apply mret_safe.
  - apply mret_safe; destruct m as [[]|]; cbn [set_mode]; auto with term_wf; done.
  - apply mret_safe; destruct m as [[]|]; cbn [unset_mode]; auto with term_wf; done.
  - destruct Hok. wp_use (set_scrolling_region_spec B); [done..|]. naive_solver.
  - by apply configure_charset_safe.
  - safe (push_title_safe B).
  - apply mret_safe; unfold pop_title, set_title; case_match; auto with term_wf; done.
Qed.

Lemma handle_safe B t h :
  term_wf B t → B + 2 * g_lines (t_grid t) ≤ 1073741824 → call_ok h → push_ok h t →
  wp (handle h t) (λ t', term_wf (B + 2 * g_lines (t_grid t)) t' ∧ same_size t t').
Proof.
  intros W HB Hok Hp. pose proof (term_bounds R B t W). pose proof (tw_budget _ _ _ W).
  destruct (scrolls h) eqn:Es; [by apply scrolls_safe|].
  apply (mono_safe B); [lia|]. by apply calm_safe.
Qed.
End facts.
