(* ===== verification/Session.v ===== *)
(** * Sessions: sequences of operations on a terminal

    A session starts with [Term::new] and is a sequence of calls of the parser
    and of operations of the embedding application.  The invariant of
    TermFacts.v holds in all of its states. *)

From S2P Require Import Prelude Index Ansi GridCell Row Storage Cell Grid GridFacts GridOps.
From S2P Require Import Resize Selection Term TermFacts TermOps Handler HandlerFacts HandlerEdit.
From S2P Require Import HandlerSafe.
#[local] Open Scope Z_scope.

Section session.
Context `{AnsiLaws}.
Implicit Types (t : Term).

(** What happens to a terminal. *)
Inductive op :=
  | Call (h : call)
  | ScrollDisplay (sc : Scroll)
  | ToggleViMode
  | SetOptions (options : Config)
  | Select (s : option Selection)
  | TakeDamage
  | ResetDamage.

Definition perform (o : op) t : exec Term :=
  match o with
  | Call h => handle h t
  | ScrollDisplay sc => term_scroll_display sc t
  | ToggleViMode => toggle_vi_mode t
  | SetOptions options => set_options options t
  | Select s => mret (upd_selection s t)
  | TakeDamage => '(t, _) ← collect_damage t; mret t
  | ResetDamage => mret (reset_damage t)
  end.

(** The arguments are in range: parameters of the parser, a scroll distance and
    anchors that fit the buffer, a scrollback that fits an [i32]. *)
Definition op_ok t (o : op) : Prop :=
  match o with
  | Call h => call_ok h ∧ push_ok h t
  | ScrollDisplay sc => delta_ok sc
  | SetOptions options =>
      0 ≤ scrolling_history options ∧ screen_lines t + scrolling_history options ≤ 536870912
  | Select (Some s) => sel_in 536870912 s
  | _ => True
  end.

Lemma perform_safe R B t o :
  term_wf R B t → 536870912 ≤ B → B + 2 * g_lines (t_grid t) ≤ 1073741824 → op_ok t o →
  wp (perform o t) (λ t', term_wf R (B + 2 * g_lines (t_grid t)) t' ∧ same_size t t').
Proof.
  intros W HB Hmax Hok. pose proof (term_bounds R B t W).
  assert (Hvi : vi_budget B = B) by (unfold vi_budget; lia).
  destruct o as [h|sc| |options|s| |]; simpl in Hok;
    [destruct Hok; by apply handle_safe|..]; apply (mono_safe R B); try lia; simpl.
  - wp_use (term_scroll_display_spec R B); [done..|]. rewrite Hvi. naive_solver.
  - wp_use (toggle_vi_mode_spec R B); [done|]. naive_solver.
  - wp_use (set_options_spec R B); [done|apply Hok|apply Hok|]. naive_solver.
  - apply wp_ret. split; [|done]. apply (upd_selection_wf R B); [done|lia|].
    intros s' ->. by eapply sel_in_mono; [|apply Hok].
  - wp_step. wp_use (collect_damage_spec R B); [done|]. intros [t' dmg] (W' & (d & -> & _) & _).
    by apply wp_ret.
  - apply wp_ret. split; [by apply reset_damage_spec|done].
Qed.

(** A sequence of calls of the parser; none of them pushes a keyboard mode on a
    full stack. *)
Lemma handle_all_safe R hs : ∀ B t,
  term_wf R B t → B + 2 * screen_lines t * zlen hs ≤ 1073741824 →
  Forall (λ h, call_ok h ∧ ∀ t, push_ok h t) hs →
  wp (handle_all hs t) (λ t',
    term_wf R (B + 2 * screen_lines t * zlen hs) t' ∧ same_size t t').
Proof.
  induction hs as [|h hs IH]; intros B t W HB Hok; simpl handle_all.
  - apply wp_ret. replace (B + _) with B by (unfold zlen; simpl; lia). done.
  - apply Forall_cons in Hok as [[Hc Hp] Hok].
    assert (Hz : zlen (h :: hs) = 1 + zlen hs) by (unfold zlen; simpl length; lia).
    rewrite Hz in *. pose proof (term_bounds R B t W). pose proof (zlen_nonneg hs).
    change (screen_lines t) with (g_lines (t_grid t)) in *.
    wp_step. wp_use (handle_safe R B); [done|nia|done|done|].
    intros t1 [W1 S1]. pose proof S1 as [_ Hl]. simpl in Hl.
    wp_use IH; [done|simpl; rewrite Hl; nia|done|]. intros t2 [W2 S2].
    split; [|by eapply same_size_trans]. simpl in W2. rewrite Hl in W2.
    by replace (B + 2 * g_lines (t_grid t) * (1 + zlen hs)) with
      (B + 2 * g_lines (t_grid t) + 2 * g_lines (t_grid t) * zlen hs) by lia.
Qed.

(** The states a session can reach in [n] operations. *)
Inductive session {D} `{Dimensions D} (config : Config) (d : D) (suffix : Z) : nat → Term → Prop :=
  | session_new t : term_new config d suffix = Ok t → session config d suffix 0 t
  | session_step n t o t' :
      session config d suffix n t → op_ok t o → perform o t = Ok t' →
      session config d suffix (S n) t'.

(** How far a selection can be above the screen after [n] operations. *)
Definition session_budget (lines : Z) (n : nat) : Z := 536870912 + 2 * lines * Z.of_nat n.

Lemma session_wf {D} `{Dimensions D} config (d : D) suffix n t :
  size_ok (screen_lines d) (columns d) (scrolling_history config) →
  session_budget (screen_lines d) n ≤ 1073741824 → session config d suffix n t →
  term_wf (row_clean (columns d)) (session_budget (screen_lines d) n) t ∧
  columns t = columns d ∧ screen_lines t = screen_lines d.
Proof.
  intros Hsize Hn Hs. unfold session_budget in *.
  assert (Hl : 1 ≤ screen_lines d) by (destruct Hsize as (_ & ? & _); done).
  assert (P : row_pred (columns d) (row_clean (columns d) (T := Cell))).
  { apply row_pred_clean. destruct Hsize as (? & _). unfold MIN_COLUMNS in *. lia. }
  induction Hs as [t E|n t o t' _ IH Hok E].
  - pose proof (term_new_spec _ config d suffix P Hsize) as G. rewrite E in G.
    destruct G as (W & ? & ? & _). split; [|done]. by apply (term_wf_mono _ 0); [lia|].
  - destruct IH as (W & Hc & Hsl); [lia|].
    pose proof (perform_safe _ _ t o W) as G. change (g_lines (t_grid t)) with (screen_lines t) in G.
    rewrite Hsl, E in G. destruct G as (W' & Hc' & Hl'); [lia|lia|done|].
    split; [|split; congruence].
    by replace (536870912 + 2 * screen_lines d * Z.of_nat (S n)) with
      (536870912 + 2 * screen_lines d * Z.of_nat n + 2 * screen_lines d) by lia.
Qed.
End session.
