(* ===== verification/Search.v ===== *)
(** * Searching the grid and reading selections
    (alacritty_terminal/src/term/search.rs, selection.rs and term/mod.rs)

    Bracket, semantic and line searches, the conversion of selections to ranges
    and to text, and the content handed to the renderer.  A loop over the cells
    of the grid runs with [cell_fuel], more than the number of cells; a loop
    over lines with [line_fuel]. *)

From S2P Require Import Prelude Index Ansi GridCell Row Storage Cell Grid Selection Term.
#[local] Open Scope Z_scope.

Definition BRACKET_PAIRS : list (char * char) := [(40, 41); (91, 93); (123, 125); (60, 62)].

(** The flags of the spacer cells of fullwidth characters. *)
Definition WIDE_SPACER : Z := Z.lor Flags.WIDE_CHAR_SPACER Flags.LEADING_WIDE_CHAR_SPACER.

(** [Result<Point, Point>] of the inline searches. *)
Inductive inline_result := Found (p : Point) | NotFound (p : Point).

(** [needles.contains(c)]. *)
Definition text_contains (needles : text) (ch : char) : bool := existsb (Z.eqb ch) needles.

(** [char::is_whitespace], the characters with the property White_Space. *)
Definition is_whitespace (ch : char) : bool :=
  ((9 <=? ch) && (ch <=? 13)) || (ch =? 32) || (ch =? 133) || (ch =? 160) || (ch =? 5760)
  || ((8192 <=? ch) && (ch <=? 8202)) || (ch =? 8232) || (ch =? 8233) || (ch =? 8239)
  || (ch =? 8287) || (ch =? 12288).

(** [str::trim_end]. *)
Fixpoint trim_end (s : text) : text :=
  match s with
  | [] => []
  | x :: s =>
      match trim_end s with
      | [] => if is_whitespace x then [] else [x]
      | s' => x :: s'
      end
  end.

Section search.
Context `{Ansi}.
Implicit Types (t : Term) (p : Point).

Definition cell_fuel t : nat := Z.to_nat (total_lines t * columns t + 2).
Definition line_fuel t : nat := Z.to_nat (total_lines t + 1).

(** ** Brackets *)

(** [BRACKET_PAIRS.iter().find_map(..)]. *)
Fixpoint find_bracket (pairs : list (char * char)) (start_char : char) : option (bool * char) :=
  match pairs with
  | [] => None
  | (open_, close) :: pairs =>
      if open_ =? start_char then Some (true, close)
      else if close =? start_char then Some (false, open_)
      else find_bracket pairs start_char
  end.

(** [iter.next()] or [iter.prev()]. *)
Definition iter_step (forward : bool) (g : Grid Cell) (it : GridIterator)
    : exec (option (Point * Cell) * GridIterator) :=
  if forward then iter_next g it else iter_prev g it.

Fixpoint bracket_loop (fuel : nat) (forward : bool) (start_char end_char : char) (skip_pairs : Z)
    (g : Grid Cell) (it : GridIterator) : exec (option Point) :=
  match fuel with
  | O => Panic OutOfFuel
  | S fuel =>
      '(item, it) ← iter_step forward g it;
      match item with
      | None => mret None
      | Some (p, cell) =>
          if (c cell =? end_char) && (skip_pairs =? 0) then mret (Some p)
          else if c cell =? start_char then
            n ← i32_add skip_pairs 1;
            bracket_loop fuel forward start_char end_char n g it
          else if c cell =? end_char then
            n ← i32_sub skip_pairs 1;
            bracket_loop fuel forward start_char end_char n g it
          else bracket_loop fuel forward start_char end_char skip_pairs g it
      end
  end.

Definition bracket_search t p : exec (option Point) :=
  cell ← grid_cell (t_grid t) p;
  let start_char := c cell in
  match find_bracket BRACKET_PAIRS start_char with
  | None => mret None
  | Some (forward, end_char) =>
      it ← iter_from (t_grid t) p;
      bracket_loop (cell_fuel t) forward start_char end_char 0 (t_grid t) it
  end.

(** ** Inline and semantic search *)

Fixpoint inline_left_loop (fuel : nat) (needles : text) (last_col : Z) (g : Grid Cell)
    (p : Point) (it : GridIterator) : exec inline_result :=
  match fuel with
  | O => Panic OutOfFuel
  | S fuel =>
      '(item, it) ← iter_prev g it;
      match item with
      | None => mret (NotFound p)
      | Some (q, cell) =>
          if (column q =? last_col) && negb (Bitflags.contains (flags cell) Flags.WRAPLINE)
          then mret (NotFound p)
          else if negb (Bitflags.intersects (flags cell) WIDE_SPACER)
                  && text_contains needles (c cell)
          then mret (Found q)
          else inline_left_loop fuel needles last_col g q it
      end
  end.

Definition inline_search_left t p (needles : text) : exec inline_result :=
  top ← topmost_line t;
  let p := mkPoint (Z.max (line p) top) (column p) in
  it ← iter_from (t_grid t) p;
  last_col ← usize_sub (columns t) 1;
  inline_left_loop (cell_fuel t) needles last_col (t_grid t) p it.

Fixpoint inline_right_loop (fuel : nat) (needles : text) (last_col : Z) (g : Grid Cell)
    (p : Point) (it : GridIterator) : exec inline_result :=
  match fuel with
  | O => Panic OutOfFuel
  | S fuel =>
      '(item, it) ← iter_next g it;
      match item with
      | None => mret (NotFound p)
      | Some (q, cell) =>
          if negb (Bitflags.intersects (flags cell) WIDE_SPACER)
             && text_contains needles (c cell)
          then mret (Found q)
          else if (column q =? last_col) && negb (Bitflags.contains (flags cell) Flags.WRAPLINE)
          then mret (NotFound q)
          else inline_right_loop fuel needles last_col g q it
      end
  end.

Definition inline_search_right t p (needles : text) : exec inline_result :=
  top ← topmost_line t;
  let p := mkPoint (Z.max (line p) top) (column p) in
  last_col ← usize_sub (columns t) 1;
  stop ← (if column p =? last_col then
            cell ← grid_cell (t_grid t) p;
            mret (negb (Bitflags.contains (flags cell) Flags.WRAPLINE))
          else mret false);
  if (stop : bool) then mret (NotFound p)
  else
    it ← iter_from (t_grid t) p;
    inline_right_loop (cell_fuel t) needles last_col (t_grid t) p it.

(** [iter_from(point).find(|cell| !cell.flags.intersects(wide_spacer))]. *)
Fixpoint find_non_spacer (fuel : nat) (g : Grid Cell) (it : GridIterator) : exec (option Point) :=
  match fuel with
  | O => Panic OutOfFuel
  | S fuel =>
      '(item, it) ← iter_next g it;
      match item with
      | None => mret None
      | Some (q, cell) =>
          if negb (Bitflags.intersects (flags cell) WIDE_SPACER) then mret (Some q)
          else find_non_spacer fuel g it
      end
  end.

Definition semantic_search_left t p : exec Point :=
  r ← inline_search_left t p (semantic_escape_chars (t_config t));
  match r with
  | Found p =>
      it ← iter_from (t_grid t) p;
      q ← find_non_spacer (cell_fuel t) (t_grid t) it;
      mret (default p q)
  | NotFound p => mret p
  end.

Definition semantic_search_right t p : exec Point :=
  r ← inline_search_right t p (semantic_escape_chars (t_config t));
  match r with
  | Found p =>
      it ← iter_from (t_grid t) p;
      '(item, _) ← iter_prev (t_grid t) it;
      mret (match item with Some (q, _) => q | None => p end)
  | NotFound p => mret p
  end.

(** ** Lines *)

(** [self.grid[line][self.last_column()].flags.contains(Flags::WRAPLINE)]. *)
Definition line_wraps t (l : Z) : exec bool :=
  last ← last_column t;
  cell ← grid_cell (t_grid t) (mkPoint l last);
  mret (Bitflags.contains (flags cell) Flags.WRAPLINE).

Fixpoint line_left_loop (fuel : nat) t (l : Z) : exec Z :=
  match fuel with
  | O => Panic OutOfFuel
  | S fuel =>
      top ← topmost_line t;
      if top <? l then
        l' ← i32_sub l 1;
        wraps ← line_wraps t l';
        if (wraps : bool) then line_left_loop fuel t l' else mret l
      else mret l
  end.

Definition line_search_left t p : exec Point :=
  l ← line_left_loop (line_fuel t) t (line p);
  mret (mkPoint l 0).

Fixpoint line_right_loop (fuel : nat) t (l : Z) : exec Z :=
  match fuel with
  | O => Panic OutOfFuel
  | S fuel =>
      l' ← i32_add l 1;
      if l' <? as_i32 (screen_lines t) then
        wraps ← line_wraps t l;
        if (wraps : bool) then line_right_loop fuel t l' else mret l
      else mret l
  end.

Definition line_search_right t p : exec Point :=
  l ← line_right_loop (line_fuel t) t (line p);
  last ← last_column t;
  mret (mkPoint l last).

(** ** Selections *)

Definition range_semantic t (start end_ : Point) : exec SelectionRange :=
  matching ← (if bool_decide (start = end_) then bracket_search t start else mret None);
  match matching with
  | Some m =>
      if ((line m =? line start) && (column m <? column start)) || (line m <? line start)
      then mret (mkRange m end_ false)
      else mret (mkRange start m false)
  | None =>
      start ← semantic_search_left t start;
      end_ ← semantic_search_right t end_;
      mret (mkRange start end_ false)
  end.

Definition range_lines t (start end_ : Point) : exec SelectionRange :=
  start ← line_search_left t start;
  end_ ← line_search_right t end_;
  mret (mkRange start end_ false).

(** [Selection::to_range]. *)
Definition to_range (s : Selection) t : exec (option SelectionRange) :=
  let '(start, end_, _) := ordered s in
  top ← topmost_line t;
  if line (a_point end_) <? top then mret None
  else
    ps ← grid_clamp (a_point start) t BGrid;
    pe ← grid_clamp (a_point end_) t BGrid;
    let start := mkAnchor ps (a_side start) in
    let end_ := mkAnchor pe (a_side end_) in
    match ty s with
    | Simple => range_simple s start end_ (columns (t_grid t))
    | BlockType => range_block s start end_
    | Semantic => r ← range_semantic t ps pe; mret (Some r)
    | Lines => r ← range_lines t ps pe; mret (Some r)
    end.

(** The text of the columns [from..line_length] of a row; the state is the text
    and [tab_mode]. *)
Definition push_column (tabs : list bool) (r : Row Cell) (col : Z) (st : text * bool)
    : exec (text * bool) :=
  let '(s, tab_mode) := st in
  cell ← row_get r col;
  skip ← (if (tab_mode : bool) then
            stop ← vec_get tabs col;
            mret (negb (stop || negb (c cell =? SPACE)))
          else mret false);
  if (skip : bool) then mret (s, true)
  else
    let tab_mode := c cell =? TAB in
    let s := if negb (Bitflags.intersects (flags cell) WIDE_SPACER)
             then s ++ [c cell] ++ default [] (zerowidth cell) else s in
    mret (s, tab_mode).

Definition line_to_string t (l from to : Z) (include_wrapped_wide : bool) : exec text :=
  r ← grid_row (t_grid t) l;
  len ← line_length r;
  x ← usize_add to 1;
  let len := Z.min len x in
  cell ← row_get r from;
  from ← (if Bitflags.contains (flags cell) Flags.WIDE_CHAR_SPACER
          then usize_sub from 1 else mret from);
  '(s, _) ← for_range from len (push_column (t_tabs t) r) ([], false);
  last ← usize_sub (columns t) 1;
  s ← (if last <=? to then
         if len =? 0 then mret (s ++ [NEWLINE])
         else
           i ← usize_sub len 1;
           cell ← grid_cell (t_grid t) (mkPoint l i);
           mret (if negb (Bitflags.contains (flags cell) Flags.WRAPLINE)
                 then s ++ [NEWLINE] else s)
       else mret s);
  if (len =? columns t) && (2 <=? len) then
    i ← usize_sub len 1;
    cell ← row_get r i;
    if Bitflags.contains (flags cell) Flags.LEADING_WIDE_CHAR_SPACER && include_wrapped_wide then
      above ← i32_sub l 1;
      cell ← grid_cell (t_grid t) (mkPoint above 0);
      mret (s ++ [c cell])
    else mret s
  else mret s.

(** [res.strip_suffix('\n')]. *)
Definition strip_newline (s : text) : text :=
  match last s with
  | Some ch => if ch =? NEWLINE then take (pred (length s)) s else s
  | None => s
  end.

Definition bounds_to_string t (start end_ : Point) : exec text :=
  s ← for_range (line start) (line end_ + 1) (λ l s,
    end_col ← (if l =? line end_ then mret (column end_) else last_column t);
    let start_col := if l =? line start then column start else 0 in
    x ← line_to_string t l start_col end_col (l =? line end_);
    mret (s ++ x)) [];
  mret (strip_newline s).

Definition selection_to_string t : exec (option text) :=
  match t_selection t with
  | None => mret None
  | Some sel =>
      range ← to_range sel t;
      match range with
      | None => mret None
      | Some (mkRange start end_ _) =>
          match ty sel with
          | BlockType =>
              s ← for_range (line start) (line end_) (λ l s,
                x ← line_to_string t l (column start) (column end_) (negb (column start =? 0));
                mret (s ++ trim_end x ++ [NEWLINE])) [];
              x ← line_to_string t (line end_) (column start) (column end_) true;
              mret (Some (s ++ trim_end x))
          | Lines => s ← bounds_to_string t start end_; mret (Some (s ++ [NEWLINE]))
          | _ => s ← bounds_to_string t start end_; mret (Some s)
          end
      end
  end.

(** ** Content for the renderer *)

Record RenderableCursor := mkRCursor { rc_shape : CursorShape; rc_point : Point }.

Definition renderable_cursor t : exec RenderableCursor :=
  let vi_mode := has_mode t TermMode.VI in
  let p := if (vi_mode : bool) then t_vi_mode_cursor t else term_cursor t in
  cell ← grid_cell (t_grid t) p;
  p ← (if Bitflags.contains (flags cell) Flags.WIDE_CHAR_SPACER then
         col ← usize_sub (column p) 1; mret (mkPoint (line p) col)
       else mret p);
  let sh := if negb vi_mode && negb (has_mode t TermMode.SHOW_CURSOR)
            then Hidden else shape (active_cursor_style t) in
  mret (mkRCursor sh p).

Record RenderableContent := mkRContent {
  rd_display_iter : GridIterator;
  rd_selection : option SelectionRange;
  rd_cursor : RenderableCursor;
  rd_display_offset : Z;
  rd_colors : list (option Rgb);
  rd_mode : Z }.

Definition renderable_content t : exec RenderableContent :=
  it ← display_iter (t_grid t);
  cur ← renderable_cursor t;
  sel ← match t_selection t with Some s => to_range s t | None => mret None end;
  mret (mkRContent it sel cur (display_offset (t_grid t)) (t_colors t) (t_mode t)).
End search.
