(* ===== verification/SearchFacts.v ===== *)
(** * Facts about searches and selections

    The loops of the searches terminate within the fuel Search.v gives them and
    find what they look for; selections select the cells between their anchors
    and follow the content when it scrolls. *)

From S2P Require Import Prelude Index Ansi GridCell Row Storage Cell Grid GridFacts GridOps.
From S2P Require Import Resize Selection Term TermFacts TermOps HandlerFacts Search.
#[local] Open Scope Z_scope.

(** ** Wrapped lines *)

Section lines.
Context `{AnsiLaws} (R : Row Cell → Prop).
Implicit Types (t : Term).
#[local] Abbreviation term_wf := (TermFacts.term_wf R).

(** The line continues on the next one. *)
Definition wrapped t (l : Z) : bool :=
  match g_cell (t_grid t) (mkPoint l (columns t - 1)) with
  | Some x => Bitflags.contains (flags x) Flags.WRAPLINE
  | None => false
  end.

Lemma line_wraps_ok B t l :
  term_wf B t → top_of t ≤ l < screen_lines t → line_wraps t l = Ok (wrapped t l).
Proof.
  intros W Hl. pose proof (term_bounds R B t W). unfold line_wraps.
  rewrite last_column_ok by by apply (term_dims R B). cbn [mbind exec_bind].
  assert (G : wp (grid_cell (t_grid t) (mkPoint l (columns t - 1)))
    (λ x, g_cell (t_grid t) (mkPoint l (columns t - 1)) = Some x)).
  { apply (wp_term_cell R B); [done| |done]. split; simpl in *; [done|lia]. }
  apply wp_exists in G as (x & -> & E). cbn [mbind exec_bind]. unfold wrapped. by rewrite E.
Qed.

Lemma line_left_loop_spec B fuel t l :
  term_wf B t → top_of t ≤ l < screen_lines t → l - top_of t < Z.of_nat fuel →
  wp (line_left_loop fuel t l) (λ l', top_of t ≤ l' ≤ l ∧
    (∀ m, l' ≤ m < l → wrapped t m = true) ∧ (top_of t < l' → wrapped t (l' - 1) = false)).
Proof.
  intros W. revert l. induction fuel as [|fuel IH]; intros l Hl Hf; [lia|]. simpl.
  pose proof (term_bounds R B t W) as Hb. pose proof (term_dims R B t W) as Hd.
  assert (Htop : -536870912 ≤ top_of t).
  { unfold top_of. simpl. lia. }
  rewrite topmost_line_ok by done. cbn [mbind exec_bind].
  destruct (Z.ltb_spec (top_of t) l).
  - simpl in Hl. do 2 wp_step. rewrite (line_wraps_ok B) by (simpl; (done || lia)). cbn [mbind exec_bind].
    destruct (wrapped t (l - 1)) eqn:E.
    + wp_use IH; [simpl; lia|lia|]. intros l' (Hr & Hw & Hs). split; [lia|]. split; [|done].
      intros m Hm. destruct (decide (m = l - 1)) as [->|]; [done|]. apply Hw. lia.
    + apply wp_ret. split; [lia|]. split; [lia|]. done.
  - apply wp_ret. split; [lia|]. split; lia.
Qed.

Lemma line_right_loop_spec B fuel t l :
  term_wf B t → top_of t ≤ l < screen_lines t → screen_lines t - l ≤ Z.of_nat fuel →
  wp (line_right_loop fuel t l) (λ l', l ≤ l' < screen_lines t ∧
    (∀ m, l ≤ m < l' → wrapped t m = true) ∧ (l' < screen_lines t - 1 → wrapped t l' = false)).
Proof.
  intros W. revert l. induction fuel as [|fuel IH]; intros l Hl Hf; [lia|]. simpl.
  pose proof (term_bounds R B t W) as Hb.
  assert (Htop : -536870912 ≤ top_of t).
  { unfold top_of. simpl. lia. }
  simpl in Hl, Hf. do 2 wp_step. casts.
  destruct (Z.ltb_spec (l + 1) (g_lines (t_grid t))).
  - rewrite (line_wraps_ok B) by (simpl; (done || lia)). cbn [mbind exec_bind].
    destruct (wrapped t l) eqn:E.
    + wp_use IH; [simpl; lia|simpl; lia|]. intros l' (Hr & Hw & Hs). simpl in *.
      split; [lia|]. split; [|done].
      intros m Hm. destruct (decide (m = l)) as [->|]; [done|]. apply Hw. lia.
    + apply wp_ret. split; [simpl; lia|]. split; [lia|]. done.
  - apply wp_ret. split; [simpl; lia|]. split; simpl; lia.
Qed.

Lemma line_fuel_enough B t l :
  term_wf B t → top_of t ≤ l < screen_lines t →
  l - top_of t < Z.of_nat (line_fuel t) ∧ screen_lines t - l ≤ Z.of_nat (line_fuel t).
Proof.
  intros W Hl. pose proof (term_bounds R B t W). unfold line_fuel, top_of in *. simpl in *. lia.
Qed.
End lines.

(** ** Brackets *)

(** The brackets of [BRACKET_PAIRS] are pairwise different. *)
Lemma find_bracket_pair ch fw other :
  find_bracket BRACKET_PAIRS ch = Some (fw, other) →
  ch ≠ other ∧ In (if (fw : bool) then (ch, other) else (other, ch)) BRACKET_PAIRS.
Proof.
  unfold BRACKET_PAIRS. cbn [find_bracket].
  repeat (match goal with |- context [?a =? ch] => destruct (Z.eqb_spec a ch) as [<-|] end;
    [intros [= <- <-]; (split; [lia|simpl; tauto])|]). done.
Qed.

Section brackets.
Context `{AnsiLaws} (R : Row Cell → Prop).
Implicit Types (t : Term) (p : Point).
#[local] Abbreviation term_wf := (TermFacts.term_wf R).

(** The character of the cell number [k] of the buffer, in reading order. *)
Definition char_at t (k : Z) : option char :=
  c <$> g_cell (t_grid t) (mkPoint (k / columns t) (k mod columns t)).

Lemma char_at_linear t p :
  0 ≤ column p < columns t → char_at t (linear t p) = c <$> g_cell (t_grid t) p.
Proof.
  intros Hp. unfold char_at, linear. rewrite Z.div_add_l, Z.div_small, Z.add_0_r by lia.
  rewrite (Z.add_comm (line p * _)), Z.mod_add, Z.mod_small by lia. by rewrite point_eta.
Qed.

Section direction.
Context t (k0 step : Z) (start_char end_char : char).

(** The cell after [n] steps, and the nesting depth behind it. *)
Definition nth_char (n : nat) : option char := char_at t (k0 + step * Z.of_nat n).
Fixpoint depth (n : nat) : Z :=
  match n with
  | O => 0
  | S m =>
      depth m + (if decide (nth_char n = Some start_char) then 1
                 else if decide (nth_char n = Some end_char) then -1 else 0)
  end.

(** The cell after [n] steps closes the bracket that was open at the start. *)
Definition closes (n : nat) : Prop :=
  ∃ m, n = S m ∧ nth_char n = Some end_char ∧ depth m = 0.
End direction.

Lemma depth_bound t k0 step sc ec n : depth t k0 step sc ec n ≤ Z.of_nat n.
Proof. induction n as [|n IH]; simpl; [lia|]. repeat case_decide; lia. Qed.

Lemma depth_nonneg t k0 step sc ec n :
  (∀ m, (m ≤ n)%nat → ¬ closes t k0 step sc ec m) → 0 ≤ depth t k0 step sc ec n.
Proof.
  induction n as [|n IH]; intros Hc; simpl; [lia|].
  assert (0 ≤ depth t k0 step sc ec n) by (apply IH; intros; apply Hc; lia).
  repeat case_decide; try lia. destruct (decide (depth t k0 step sc ec n = 0)); [|lia].
  destruct (Hc (S n)); [lia|]. by exists n.
Qed.

(** One step of the iterator in either direction. *)
Lemma iter_step_spec B t (forward : bool) it :
  term_wf B t → in_grid (t_grid t) (it_point it) →
  it_end it = mkPoint (screen_lines t - 1) (columns t - 1) →
  wp (iter_step forward (t_grid t) it) (λ '(item, it'), it_end it' = it_end it ∧
    match item with
    | None => linear t (it_point it) =
        if forward then linear t (it_end it) else linear t (mkPoint (top_of t) 0)
    | Some (q, x) => q = it_point it' ∧ in_grid (t_grid t) q ∧ g_cell (t_grid t) q = Some x ∧
        linear t q = linear t (it_point it) + if forward then 1 else -1
    end).
Proof.
  intros W Hp Hend. pose proof (term_bounds R B t W) as Hb. pose proof (go_wf _ _ (tw_grid _ _ _ W)) as Wg.
  change (linear t) with (linear (t_grid t)). change (top_of t) with (top_of (t_grid t)).
  simpl in Hend. destruct forward; unfold iter_step.
  - wp_use (iter_next_spec R); [done|destruct Hp as [? ?]; unfold iter_pos; lia| |].
    { rewrite Hend. split; simpl; unfold top_of in *; simpl in *; lia. }
    intros [item it'] [He Hi]. split; [done|].
    destruct (point_ge (it_point it) (it_end it)) eqn:E.
    + destruct Hi as [-> ->]. destruct Hp as [? ?]. rewrite Hend in *. simpl in *.
      unfold point_ge in E. rewrite point_le_spec in E. unfold linear. simpl in *. nia.
    + destruct Hi as (Hl & Hg & x & -> & Hx). done.
  - wp_use (iter_prev_spec R); [done|apply Hp|destruct Hp as [? ?]; lia|].
    intros [item it'] [He Hi]. split; [done|].
    destruct (point_le (it_point it) (mkPoint (top_of (t_grid t)) 0)) eqn:E.
    + destruct Hi as [-> ->]. destruct Hp as [? ?].
      rewrite point_le_spec in E. unfold linear. simpl in *. nia.
    + destruct Hi as (Hl & Hg & x & -> & Hx). by split_and!.
Qed.

Lemma bracket_loop_spec B t (forward : bool) sc ec k0 fuel n it :
  term_wf B t → sc ≠ ec → total_lines t * columns t ≤ 2147483647 →
  in_grid (t_grid t) (it_point it) →
  it_end it = mkPoint (screen_lines t - 1) (columns t - 1) →
  let step := if forward then 1 else -1 in
  let last := if forward then linear t (it_end it) else linear t (mkPoint (top_of t) 0) in
  linear t (it_point it) = k0 + step * Z.of_nat n →
  Z.of_nat n + Z.abs (last - linear t (it_point it)) < total_lines t * columns t →
  (∀ m, (m ≤ n)%nat → ¬ closes t k0 step sc ec m) →
  Z.abs (last - linear t (it_point it)) < Z.of_nat fuel →
  wp (bracket_loop fuel forward sc ec (depth t k0 step sc ec n) (t_grid t) it) (λ r,
    match r with
    | Some q => in_grid (t_grid t) q ∧ ∃ j, linear t q = k0 + step * Z.of_nat j ∧
        closes t k0 step sc ec j ∧ ∀ m, (m < j)%nat → ¬ closes t k0 step sc ec m
    | None => ∀ m, Z.of_nat m ≤ Z.abs (last - k0) → ¬ closes t k0 step sc ec m
    end).
Proof.
  intros W Hne Htot Hp Hend step last. revert n it Hp Hend last.
  induction fuel as [|fuel IH]; intros n it Hp Hend last Hk Hn Hc Hf; [lia|]. cbn [bracket_loop].
  pose proof (term_bounds R B t W) as Hb. wp_step.
  wp_use (iter_step_spec B t forward it); [done..|]. intros [[[q x]|] it'] [He Hi].
  - destruct Hi as (-> & Hq & Hx & Hl). set (q := it_point it') in *.
    assert (Hnth : nth_char t k0 step (S n) = Some (c x)).
    { unfold nth_char. replace (k0 + step * Z.of_nat (S n)) with (linear t q)
        by (unfold step in *; destruct forward; lia).
      rewrite char_at_linear by apply Hq. by rewrite Hx. }
    assert (Hdepth : 0 ≤ depth t k0 step sc ec n ≤ Z.of_nat n)
      by (split; [by apply depth_nonneg|apply depth_bound]).
    set (d := depth t k0 step sc ec n) in *.
    assert (HS : depth t k0 step sc ec (S n) = d + (if decide (c x = sc) then 1
      else if decide (c x = ec) then -1 else 0)).
    { cbn [depth]. rewrite Hnth. fold d. repeat case_decide; naive_solver. }
    assert (Hcl : closes t k0 step sc ec (S n) ↔ c x = ec ∧ d = 0).
    { unfold closes. rewrite Hnth. split.
      - intros (m & [= <-] & [= E] & Hm). done.
      - intros [-> Hd]. by exists n. }
    assert (Hlast : linear t q ≠ last + step ∧ (forward = true → linear t q ≤ last) ∧
      (forward = false → last ≤ linear t q)).
    { destruct Hq as [Hql Hqc]. unfold last, step, linear, top_of in *. rewrite Hend.
      simpl in *. destruct forward; split_and!; intros; try done; nia. }
    assert (Hnext : ∀ d', d' = depth t k0 step sc ec (S n) → ¬ closes t k0 step sc ec (S n) →
      wp (bracket_loop fuel forward sc ec d' (t_grid t) it') (λ r,
        match r with
        | Some q => in_grid (t_grid t) q ∧ ∃ j, linear t q = k0 + step * Z.of_nat j ∧
            closes t k0 step sc ec j ∧ ∀ m, (m < j)%nat → ¬ closes t k0 step sc ec m
        | None => ∀ m, Z.of_nat m ≤ Z.abs (last - k0) → ¬ closes t k0 step sc ec m
        end)).
    { intros d' -> Hnc. pose proof (IH (S n) it' Hq ltac:(congruence)) as G. rewrite He in G.
      fold last in G. fold q in G. apply G.
      - unfold step in *. destruct forward; lia.
      - unfold step in *. destruct forward; lia.
      - intros m Hm. destruct (decide (m = S n)) as [->|]; [done|apply Hc; lia].
      - unfold step in *. destruct forward; lia. }
    destruct (Z.eqb_spec (c x) ec) as [E|E], (Z.eqb_spec d 0) as [E0|E0]; cbn [andb].
    + apply wp_ret. split; [done|]. exists (S n). split_and!; [|by apply Hcl|].
      * unfold step in *. destruct forward; lia.
      * intros m Hm. apply Hc. lia.
    + destruct (Z.eqb_spec (c x) sc); [congruence|]. do 2 wp_step. apply Hnext.
      * rewrite HS, decide_False, decide_True by done. done.
      * rewrite Hcl. naive_solver.
    + destruct (Z.eqb_spec (c x) sc); [do 2 wp_step|]; apply Hnext;
        try (rewrite Hcl; naive_solver).
      * by rewrite HS, decide_True by done.
      * rewrite HS, !decide_False by done. lia.
    + destruct (Z.eqb_spec (c x) sc); [do 2 wp_step|]; apply Hnext;
        try (rewrite Hcl; naive_solver).
      * by rewrite HS, decide_True by done.
      * rewrite HS, !decide_False by done. lia.
  - apply wp_ret. intros m Hm. apply Hc. unfold last, step in *. destruct forward; lia.
Qed.
Lemma in_grid_range B t p :
  term_wf B t → in_grid (t_grid t) p →
  linear t (mkPoint (top_of t) 0) ≤ linear t p ≤ linear t (mkPoint (screen_lines t - 1) (columns t - 1)) ∧
  linear t (mkPoint (screen_lines t - 1) (columns t - 1)) - linear t (mkPoint (top_of t) 0)
    = total_lines t * columns t - 1.
Proof.
  intros W [Hl Hc]. pose proof (term_bounds R B t W). unfold linear, top_of in *. simpl in *. nia.
Qed.

(** [iter_from] starts at the point, for the rest of the grid. *)
Lemma iter_from_ok B t p :
  term_wf B t → iter_from (t_grid t) p = Ok (mkIter p (mkPoint (screen_lines t - 1) (columns t - 1))).
Proof.
  intros W. unfold iter_from.
  by rewrite bottommost_line_ok, last_column_ok by (apply (grid_dims R), W).
Qed.

Lemma bracket_search_spec B t p :
  term_wf B t → in_grid (t_grid t) p → total_lines t * columns t ≤ 2147483647 →
  wp (bracket_search t p) (λ r, ∃ x, g_cell (t_grid t) p = Some x ∧
    match find_bracket BRACKET_PAIRS (c x) with
    | None => r = None
    | Some (forward, other) =>
        let step := if (forward : bool) then 1 else -1 in
        let closing := closes t (linear t p) step (c x) other in
        match r with
        | Some q => in_grid (t_grid t) q ∧ ∃ n, linear t q = linear t p + step * Z.of_nat n ∧
            closing n ∧ ∀ m, (m < n)%nat → ¬ closing m
        | None => ∀ m, (∃ q, in_grid (t_grid t) q ∧ linear t q = linear t p + step * Z.of_nat m) →
            ¬ closing m
        end
    end).
Proof.
  intros W Hp Htot. pose proof (term_bounds _ B t W) as Hb.
  destruct (in_grid_range B t p W Hp) as [Hrange Htotal].
  unfold bracket_search. wp_step. apply (wp_term_cell R B); [done|done|]. intros x Hx. cbv zeta.
  destruct (find_bracket BRACKET_PAIRS (c x)) as [[fw other]|] eqn:Ef;
    [|apply wp_ret; exists x; by rewrite Ef]. pose proof (find_bracket_pair _ _ _ Ef) as [Hne _].
  rewrite (iter_from_ok B) by done. cbn [mbind exec_bind].
  set (it := mkIter p (mkPoint (screen_lines t - 1) (columns t - 1))).
  pose proof (bracket_loop_spec B t fw (c x) other (linear t p) (cell_fuel t) 0 it W Hne Htot Hp
    eq_refl) as G. cbv zeta in G. unfold it in G at 1 2 3 4 5 6 7.
  cbn [it_point it_end] in G.
  assert (H0' : ∀ m, (m ≤ 0)%nat → ¬ closes t (linear t p) (if fw then 1 else -1) (c x) other m)
    by (intros m Hm (m' & -> & _); lia).
  specialize (G ltac:(lia) ltac:(destruct fw; lia) H0'
    ltac:(unfold cell_fuel; destruct fw; lia)).
  wp_use G. intros r Hr. exists x. split; [done|]. rewrite Ef.
  destruct r as [q|]; [done|]. intros m (q & Hq & Eq). apply Hr.
  destruct (in_grid_range B t q W Hq). destruct fw; lia.
Qed.
End brackets.

(** ** Selections *)

Section selections.
Context {D : Type} `{Dimensions D} (d : D) (Hd : dims_ok d).
Implicit Types (s : Selection) (p : Point).

(** The same anchor on another line. *)
Definition shift_anchor (delta : Z) (a : Anchor) : Anchor :=
  anchor_at_line a (line (a_point a) - delta).

Definition shift_selection (delta : Z) s : Selection :=
  mkSelection (ty s) (shift_anchor delta (region_start s)) (shift_anchor delta (region_end s)).

(** The line is moved by a rotation of the region, and still is in it afterwards. *)
Definition moves_within (top bottom delta l : Z) : Prop :=
  (top ≤ l ∨ top = 0) ∧ l < bottom ∧ (top ≤ l - delta ∨ top = 0) ∧ l - delta < bottom ∧
  l - delta ≤ screen_lines d - 1 ∧ -2147483648 ≤ l - delta.

Lemma ordered_cases s :
  (ordered s = (region_start s, region_end s, false) ∧
   point_le (a_point (region_start s)) (a_point (region_end s)) = true) ∨
  (ordered s = (region_end s, region_start s, true) ∧
   point_lt (a_point (region_end s)) (a_point (region_start s)) = true).
Proof.
  unfold ordered, point_gt. rewrite point_le_ngt.
  destruct (point_lt (a_point (region_end s)) (a_point (region_start s))); [by right|by left].
Qed.

Lemma ordered_lines s a b sw : ordered s = (a, b, sw) → line (a_point a) ≤ line (a_point b).
Proof.
  destruct (ordered_cases s) as [[-> Hle]|[-> Hle]]; intros [= <- <- <-];
    [rewrite point_le_spec in Hle|rewrite point_lt_spec in Hle]; lia.
Qed.

Lemma rotate_within s top bottom delta :
  0 ≤ top → bottom ≤ 536870912 →
  moves_within top bottom delta (line (a_point (region_start s))) →
  moves_within top bottom delta (line (a_point (region_end s))) →
  selection_rotate s d top bottom delta = Ok (Some (shift_selection delta s)).
Proof using Hd.
  intros Ht Hbt Hs He. unfold selection_rotate. rewrite bottommost_line_ok by done.
  cbn [mbind mret exec_bind exec_ret]. destruct (ordered s) as [[a b] sw] eqn:Eo.
  pose proof (ordered_lines _ _ _ _ Eo) as Hab.
  assert (Ha : moves_within top bottom delta (line (a_point a)) ∧
    moves_within top bottom delta (line (a_point b)) ∧
    with_ordered s (shift_anchor delta a) (shift_anchor delta b) sw = shift_selection delta s).
  { destruct (ordered_cases s) as [[E _]|[E _]]; rewrite E in Eo; injection Eo as <- <- <-; done. }
  destruct Ha as ((Ha1 & Ha2 & Ha3 & Ha4 & Ha5 & Ha6) & (Hb1 & Hb2 & Hb3 & Hb4 & Hb5 & Hb6) & Hw).
  pose proof Hd as [? [? ?]].
  assert (Hin : ∀ l, (top ≤ l ∨ top = 0) → l < bottom →
    ((top <=? l) || (top =? 0)) && (l <? bottom) = true) by (intros; lia).
  rewrite !Hin by done. rewrite !i32_sub_ok by lia. cbn [mbind mret exec_bind exec_ret].
  rewrite !Z.min_l by lia.
  destruct (Z.leb_spec bottom (line (a_point a) - delta)); [lia|]. cbn [andb].
  assert ((line (a_point a) - delta <? top) && negb (top =? 0) = false) as -> by lia.
  cbn [mbind mret exec_bind exec_ret anchor_at_line a_point line].
  destruct (Z.ltb_spec (line (a_point b) - delta) (line (a_point a) - delta)); [lia|].
  destruct (Z.leb_spec bottom (line (a_point b) - delta)); [lia|].
  cbn [mbind mret exec_bind exec_ret]. by rewrite <- Hw.
Qed.

(** A selection outside of the region is not affected. *)
Lemma rotate_outside s top bottom delta :
  let outside l := (l < top ∧ top ≠ 0) ∨ bottom ≤ l in
  outside (line (a_point (region_start s))) → outside (line (a_point (region_end s))) →
  selection_rotate s d top bottom delta = Ok (Some s).
Proof using Hd.
  intros outside Hs He. unfold selection_rotate. rewrite bottommost_line_ok by done.
  cbn [mbind mret exec_bind exec_ret]. destruct (ordered s) as [[a b] sw] eqn:Eo.
  assert (Ha : outside (line (a_point a)) ∧ outside (line (a_point b)) ∧ with_ordered s a b sw = s).
  { destruct (ordered_cases s) as [[E _]|[E _]]; rewrite E in Eo; injection Eo as <- <- <-;
      split_and!; try done; by destruct s. }
  destruct Ha as (Ha & Hb & Hw). unfold outside in *.
  assert (Hin : ∀ l, (l < top ∧ top ≠ 0) ∨ bottom ≤ l →
    ((top <=? l) || (top =? 0)) && (l <? bottom) = false) by (intros; lia).
  rewrite !Hin by done. cbn [mbind mret exec_bind exec_ret]. by rewrite Hw.
Qed.

(** The cell numbers a simple selection with the anchors [a] and [b] covers. *)
Definition simple_last (a b : Anchor) : Z :=
  linear d (a_point b) -
  (if bool_decide (a_side b = Left) && bool_decide (a_point a ≠ a_point b) then 1 else 0).
Definition simple_first (a b : Anchor) : Z :=
  linear d (a_point a) +
  (if bool_decide (a_side a = Right) && negb (linear d (a_point a) =? simple_last a b) then 1 else 0).

Lemma range_contains_linear (r : SelectionRange) p :
  is_block r = false → 0 ≤ column (sr_start r) < columns d → 0 ≤ column (sr_end r) < columns d →
  0 ≤ column p < columns d →
  range_contains r p = true ↔ linear d (sr_start r) ≤ linear d p ≤ linear d (sr_end r).
Proof using Type.
  intros Hb Hs He Hp. unfold range_contains, linear. rewrite Hb. cbn [negb].
  rewrite !andb_true_r, !andb_true_iff, !orb_true_iff, !negb_true_iff, !Z.leb_le, !Z.eqb_neq.
  split; [intros (((? & ?) & ?) & ?)|intros ?; split_and!]; nia.
Qed.

Lemma range_simple_linear s a b :
  ty s = Simple → in_grid d (a_point a) → in_grid d (a_point b) →
  linear d (a_point a) ≤ linear d (a_point b) → selection_is_empty s = Ok false →
  wp (range_simple s a b (columns d)) (λ o, ∃ r, o = Some r ∧ is_block r = false ∧
    linear d (sr_start r) = simple_first a b ∧ linear d (sr_end r) = simple_last a b ∧
    0 ≤ column (sr_start r) < columns d ∧ 0 ≤ column (sr_end r) < columns d ∧
    simple_first a b ≤ simple_last a b).
Proof using Hd.
  intros Hty [Hal Hac] [Hbl Hbc] Hab Hne. pose proof Hd as (Hc & Hs & Ht).
  unfold range_simple. rewrite Hne. cbn [mbind exec_bind]. wp_step.
  assert (Htop : -536870912 ≤ top_of d) by (unfold top_of; lia).
  eapply wp_mono with (Q := λ e, linear d e = simple_last a b ∧ 0 ≤ column e < columns d ∧
    -1073741824 ≤ line e ≤ 1073741824).
  { unfold simple_last. destruct (bool_decide (a_side b = Left) && bool_decide (a_point a ≠ a_point b)) eqn:E.
    - apply andb_true_iff in E as [_ Hdiff%bool_decide_eq_true].
      destruct (Z.eqb_spec (column (a_point b)) 0); [do 4 wp_step|do 2 wp_step]; apply wp_ret;
        unfold linear; simpl; split_and!; lia.
    - apply wp_ret. split; [lia|]. split; [done|lia]. }
  intros e (He & Hec & Hel).
  assert (Hle : linear d (a_point a) ≤ simple_last a b).
  { unfold simple_last. destruct (bool_decide (a_side b = Left)); cbn [andb]; [|lia].
    destruct (bool_decide_reflect (a_point a ≠ a_point b)) as [Hdiff|]; [|lia].
    destruct (Z.eq_dec (linear d (a_point a)) (linear d (a_point b))) as [E|]; [|lia].
    by apply (linear_inj d) in E. }
  assert (Hd' : bool_decide (a_point a ≠ e) = negb (linear d (a_point a) =? simple_last a b)).
  { rewrite <- He. destruct (Z.eqb_spec (linear d (a_point a)) (linear d e)) as [E|E].
    - apply (linear_inj d) in E; [|done..]. rewrite bool_decide_eq_false. naive_solver.
    - rewrite bool_decide_eq_true. congruence. }
  rewrite Hd'. wp_step.
  eapply wp_mono with (Q := λ x, linear d x = simple_first a b ∧ 0 ≤ column x < columns d).
  { unfold simple_first. destruct (bool_decide (a_side a = Right) &&
      negb (linear d (a_point a) =? simple_last a b)).
    - do 2 wp_step. destruct (Z.eqb_spec (column (a_point a) + 1) (columns d)); [do 2 wp_step|];
        apply wp_ret; unfold linear; simpl; split; lia.
    - apply wp_ret. split; [lia|done]. }
  intros x (Hx & Hxc). apply wp_ret. eexists. split; [done|].
  cbn [sr_start sr_end is_block]. do 5 (split; [done|]).
  unfold simple_first. destruct (bool_decide (a_side a = Right)); cbn [andb]; [|lia].
  destruct (Z.eqb_spec (linear d (a_point a)) (simple_last a b)); simpl; lia.
Qed.
End selections.
