(* ===== verification/RegexSearch.v ===== *)
(** * Regular expression search (alacritty_terminal/src/term/search.rs)

    The search for regular expressions walks over the cells of the grid, feeds
    their characters byte by byte to an automaton and wraps around at the ends of
    the buffer.  The automata are lazy DFAs of the regex-automata crate: an
    automaton is an argument, with its states, transitions and the predicates the
    search uses; [None] is the error of a transition that exceeded the cache. *)

From S2P Require Import Prelude Index Ansi GridCell Row Storage Cell Grid Selection Term Search.
#[local] Open Scope Z_scope.

(** [LazyDfa]: the DFA (whose start state depends on [match_all]) and the
    direction in which it reads. *)
Record LazyDfa := mkDfa {
  dfa_state : Type;
  start_state : option dfa_state;
  next_state : dfa_state → Z → option dfa_state;
  next_eoi_state : dfa_state → option dfa_state;
  is_match : dfa_state → bool;
  is_dead : dfa_state → bool;
  dfa_direction : Direction }.

Record RegexSearch := mkRegex {
  left_fdfa : LazyDfa;
  left_rdfa : LazyDfa;
  right_rdfa : LazyDfa;
  right_fdfa : LazyDfa }.

(** [RangeInclusive<Point>]. *)
Record Match := mkMatch { m_start : Point; m_end : Point }.
#[global] Instance Match_eq_dec : EqDecision Match.
Proof. solve_decision. Defined.

(** [char::encode_utf8]. *)
Definition encode_utf8 (ch : char) : list Z :=
  if ch <? 128 then [ch]
  else if ch <? 2048 then [192 + ch / 64; 128 + ch mod 64]
  else if ch <? 65536 then [224 + ch / 4096; 128 + ch / 64 mod 64; 128 + ch mod 64]
  else [240 + ch / 262144; 128 + ch / 4096 mod 64; 128 + ch / 64 mod 64; 128 + ch mod 64].

Section regex.
Context `{Ansi}.
Implicit Types (t : Term) (p : Point) (it : GridIterator).

(** [iter.cell()]. *)
Definition iter_cell t it : exec Cell := grid_cell (t_grid t) (it_point it).

(** [skip_fullwidth]: the cell and the iterator after it. *)
Definition skip_fullwidth t it (cell : Cell) (direction : Direction) : exec (Cell * GridIterator) :=
  last_col ← last_column t;
  let g := t_grid t in
  match direction with
  | Right =>
      if Bitflags.contains (flags cell) Flags.WIDE_CHAR && (column (it_point it) <? last_col) then
        '(_, it) ← iter_next g it;
        mret (cell, it)
      else if Bitflags.contains (flags cell) Flags.LEADING_WIDE_CHAR_SPACER then
        '(item, it) ← iter_next g it;
        let cell := match item with Some (_, new_cell) => new_cell | None => cell end in
        '(_, it) ← iter_next g it;
        mret (cell, it)
      else mret (cell, it)
  | Left =>
      if Bitflags.contains (flags cell) Flags.WIDE_CHAR_SPACER then
        '(item, it) ← iter_prev g it;
        let cell := match item with Some (_, new_cell) => new_cell | None => cell end in
        prev ← point_sub (it_point it) t BGrid 1;
        x ← grid_cell g prev;
        it ← (if Bitflags.contains (flags x) Flags.LEADING_WIDE_CHAR_SPACER
              then '(_, it) ← iter_prev g it; mret it else mret it);
        mret (cell, it)
      else mret (cell, it)
  end.

Section automaton.
Context (D : LazyDfa).

(** The locals of [regex_search_internal] that its loop changes. *)
Record Search := mkSearch {
  s_state : dfa_state D;
  s_iter : GridIterator;
  s_match : option Point;
  s_done : bool;
  s_char : char;
  s_last_wrapped : bool;
  s_point : Point;
  s_last_point : Point;
  s_consumed : Z }.

(** [reset_state!()]. *)
Definition reset_search (s : Search) : option Search :=
  state ← start_state D;
  Some (mkSearch state (s_iter s) None (s_done s) (s_char s) (s_last_wrapped s) (s_point s)
          (s_last_point s) 0).

Definition with_state (state : dfa_state D) (m : option Point) (consumed : Z) (s : Search) : Search :=
  mkSearch state (s_iter s) m (s_done s) (s_char s) (s_last_wrapped s) (s_point s)
    (s_last_point s) consumed.

(** How the loop over the bytes of a character ends: at its end, with
    [continue 'outer] or with [break 'outer]. *)
Inductive flow := Fed | Retry | Abort.

(** The loop over the bytes; [first] is [i == 0].  [None] is an error of the
    automaton. *)
Fixpoint feed (bytes : list Z) (first : bool) (s : Search) : exec (option (flow * Search)) :=
  match bytes with
  | [] => mret (Some (Fed, s))
  | byte :: bytes =>
      match next_state D (s_state s) byte with
      | None => mret None
      | Some state =>
          consumed ← i32_add (s_consumed s) 1;
          let s := with_state state (s_match s) consumed s in
          if first && is_match D state then
            feed bytes false (with_state state (Some (s_last_point s)) consumed s)
          else if is_dead D state then
            if consumed =? 2 then
              match reset_search s with
              | None => mret None
              | Some s => if first then mret (Some (Retry, s)) else feed bytes false s
              end
            else mret (Some (Abort, s))
          else feed bytes false s
      end
  end.

(** The bytes of a character in the order in which the automaton reads them. *)
Definition char_bytes (ch : char) : list Z :=
  match dfa_direction D with Right => encode_utf8 ch | Left => reverse (encode_utf8 ch) end.

Definition forward : bool := match dfa_direction D with Right => true | Left => false end.

(** Advance the iterator by one cell, or to the other end of the buffer. *)
Definition advance_iter t (s : Search) : exec (Cell * GridIterator) :=
  '(item, it) ← iter_step forward (t_grid t) (s_iter s);
  match item with
  | Some (_, cell) => mret (cell, it)
  | None =>
      top ← topmost_line t;
      last_col ← last_column t;
      x ← i32_sub top (line (s_point s));
      x ← i32_add x (as_i32 (screen_lines t));
      l ← i32_sub x 1;
      col ← usize_sub last_col (column (s_point s));
      it ← iter_from (t_grid t) (mkPoint l col);
      cell ← iter_cell t it;
      mret (cell, it)
  end.

(** One iteration of the loop ['outer]: it ends the loop with a result, where the
    outer [None] is an error of the automaton, or goes on. *)
Definition search_step t (end_ : Point) (s : Search) : exec (option (option Point) + Search) :=
  r ← feed (char_bytes (s_char s)) true s;
  match r with
  | None => mret (inl None)
  | Some (Retry, s) => mret (inr s)
  | Some (Abort, s) => mret (inl (Some (s_match s)))
  | Some (Fed, s) =>
      if bool_decide (s_point s = end_) || s_done s then
        match next_eoi_state D (s_state s) with
        | None => mret (inl None)
        | Some state =>
            mret (inl (Some (if is_match D state then Some (s_point s)
                             else if is_dead D state && (s_consumed s =? 1) then None
                             else s_match s)))
        end
      else
        '(cell, it) ← advance_iter t s;
        let done := bool_decide (it_point it = end_) in
        '(cell, it) ← skip_fullwidth t it cell (dfa_direction D);
        x ← iter_cell t it;
        let wrapped := Bitflags.contains (flags x) Flags.WRAPLINE in
        let last_point := s_point s in
        let p := it_point it in
        last_col ← last_column t;
        let s' state m consumed :=
          mkSearch state it m done (c cell) wrapped p last_point consumed in
        if ((column last_point =? last_col) && (column p =? 0) && negb (s_last_wrapped s))
           || ((column last_point =? 0) && (column p =? last_col) && negb wrapped) then
          match next_eoi_state D (s_state s) with
          | None => mret (inl None)
          | Some state =>
              let m := if is_match D state then Some last_point else s_match s in
              if match m with Some _ => true | None => false end
                 && (negb (is_dead D state) || (1 <? s_consumed s)) && negb (s_consumed s =? 0)
              then mret (inl (Some m))
              else
                match reset_search (s' state m (s_consumed s)) with
                | None => mret (inl None)
                | Some s => mret (inr s)
                end
          end
        else mret (inr (s' (s_state s) (s_match s) (s_consumed s)))
  end.

Fixpoint search_loop (fuel : nat) t (end_ : Point) (s : Search) : exec (option (option Point)) :=
  match fuel with
  | O => Panic OutOfFuel
  | S fuel =>
      r ← search_step t end_ s;
      match r with
      | inl r => mret r
      | inr s => search_loop fuel t end_ s
      end
  end.

(** [regex_search]: an error of the automaton is logged and gives no match. *)
Definition regex_search (fuel : nat) t (start end_ : Point) : exec (option Point) :=
  state ← unwrap (start_state D);
  it ← iter_from (t_grid t) start;
  cell ← iter_cell t it;
  '(cell, it) ← skip_fullwidth t it cell (dfa_direction D);
  x ← iter_cell t it;
  let last_wrapped := Bitflags.contains (flags x) Flags.WRAPLINE in
  let p := it_point it in
  r ← search_loop fuel t end_ (mkSearch state it None false (c cell) last_wrapped p p 0);
  mret (default None r).
End automaton.

(** ** Matches *)

Section matches.
Context (fuel : nat) (regex : RegexSearch).

Definition regex_search_left t (start end_ : Point) : exec (option Match) :=
  match_start ← regex_search (left_fdfa regex) fuel t start end_;
  match match_start with
  | None => mret None
  | Some match_start =>
      match_end ← regex_search (left_rdfa regex) fuel t match_start start;
      mret (mkMatch match_start <$> match_end)
  end.

Definition regex_search_right t (start end_ : Point) : exec (option Match) :=
  match_end ← regex_search (right_fdfa regex) fuel t start end_;
  match match_end with
  | None => mret None
  | Some match_end =>
      match_start ← regex_search (right_rdfa regex) fuel t match_end start;
      mret ((λ s, mkMatch s match_end) <$> match_start)
  end.

Record RegexIter := mkRegexIter {
  ri_point : Point;
  ri_end : Point;
  ri_direction : Direction;
  ri_done : bool }.

Definition regex_iter_new (start end_ : Point) (direction : Direction) : RegexIter :=
  mkRegexIter start end_ direction false.

Definition regex_iter_skip t (p : Point) (direction : Direction) : exec Point :=
  p ← expand_wide t p direction;
  match direction with
  | Right => point_add p t BNone 1
  | Left => point_sub p t BNone 1
  end.

Definition regex_iter_next t (ri : RegexIter) : exec (option Match * RegexIter) :=
  if ri_done ri then mret (None, ri)
  else
    let done := bool_decide (ri_point ri = ri_end ri) in
    regex_match ← (match ri_direction ri with
                   | Right => regex_search_right t (ri_point ri) (ri_end ri)
                   | Left => regex_search_left t (ri_point ri) (ri_end ri)
                   end);
    match regex_match with
    | None => mret (None, mkRegexIter (ri_point ri) (ri_end ri) (ri_direction ri) done)
    | Some m =>
        if bool_decide (m_end m = ri_end ri) then
          mret (Some m, mkRegexIter (m_end m) (ri_end ri) (ri_direction ri) true)
        else
          p ← regex_iter_skip t (m_end m) (ri_direction ri);
          mret (Some m, mkRegexIter p (ri_end ri) (ri_direction ri) done)
    end.

(** [Iterator::find]; [n] bounds the number of matches. *)
Fixpoint regex_iter_find (n : nat) t (P : Match → bool) (ri : RegexIter) : exec (option Match) :=
  match n with
  | O => Panic OutOfFuel
  | S n =>
      '(m, ri) ← regex_iter_next t ri;
      match m with
      | None => mret None
      | Some m => if P m then mret (Some m) else regex_iter_find n t P ri
      end
  end.

(** [regex_iter.peek()] and then [regex_iter.find(..).unwrap_or(first_match)]. *)
Definition find_or_first (n : nat) t (P : Match → bool) (ri : RegexIter) : exec (option Match) :=
  '(first, ri) ← regex_iter_next t ri;
  match first with
  | None => mret None
  | Some first =>
      if P first then mret (Some first)
      else m ← regex_iter_find n t P ri; mret (Some (default first m))
  end.

Definition match_side (m : Match) (side : Side) : Point :=
  match side with Right => m_end m | Left => m_start m end.

Definition next_match_right (n : nat) t (origin : Point) (side : Side) (max_lines : option Z)
    : exec (option Match) :=
  start ← line_search_left t origin;
  end_ ← match max_lines with
         | Some max_lines =>
             l ← line_add_usize (line start) max_lines;
             l ← line_grid_clamp l t BNone;
             last_col ← last_column t;
             mret (mkPoint l last_col)
         | None => point_sub start t BNone 1
         end;
  find_or_first n t (λ m,
    let q := match_side m side in
    (line q <? line start) || (line origin <? line q)
    || ((line q =? line origin) && (column origin <=? column q)))
    (regex_iter_new start end_ Right).

Definition next_match_left (n : nat) t (origin : Point) (side : Side) (max_lines : option Z)
    : exec (option Match) :=
  start ← line_search_right t origin;
  end_ ← match max_lines with
         | Some max_lines =>
             l ← line_sub_usize (line start) max_lines;
             l ← line_grid_clamp l t BNone;
             mret (mkPoint l 0)
         | None => point_add start t BNone 1
         end;
  find_or_first n t (λ m,
    let q := match_side m side in
    (line start <? line q) || (line q <? line origin)
    || ((line q =? line origin) && (column q <=? column origin)))
    (regex_iter_new start end_ Left).

Definition search_next (n : nat) t (origin : Point) (direction : Direction) (side : Side)
    (max_lines : option Z) : exec (option Match) :=
  origin ← expand_wide t origin direction;
  max_lines ← match max_lines with
              | Some m => x ← usize_add m 1; mret (if x <? total_lines t then Some m else None)
              | None => mret None
              end;
  match direction with
  | Right => next_match_right n t origin side max_lines
  | Left => next_match_left n t origin side max_lines
  end.
End matches.
End regex.
