(* ===== verification/RegexFacts.v ===== *)
(** * The regular expression search terminates

    For every automaton: on a terminal without fullwidth characters the search
    visits every cell of the buffer at most once, wraps around at its ends, and
    returns a point of the grid. *)

From S2P Require Import Prelude Index Ansi GridCell Row Storage Cell Grid GridFacts GridOps.
From S2P Require Import Resize Selection Term TermFacts TermOps HandlerFacts Search SearchFacts.
From S2P Require Import RegexSearch.
#[local] Open Scope Z_scope.

Lemma encode_utf8_len ch : (length (encode_utf8 ch) ≤ 4)%nat.
Proof. unfold encode_utf8. repeat case_match; simpl; lia. Qed.

Section facts.
Context `{AnsiLaws} (R : Row Cell → Prop) (D : LazyDfa).
Implicit Types (t : Term) (p : Point) (it : GridIterator).
#[local] Abbreviation term_wf := (TermFacts.term_wf R).

Lemma char_bytes_len ch : (length (char_bytes D ch) ≤ 4)%nat.
Proof.
  unfold char_bytes. pose proof (encode_utf8_len ch).
  destruct (dfa_direction D); [rewrite length_reverse|]; lia.
Qed.

(** The part of the state that the automaton does not change. *)
Definition same_place (s s' : Search D) : Prop :=
  s_iter D s' = s_iter D s ∧ s_done D s' = s_done D s ∧ s_char D s' = s_char D s ∧
  s_last_wrapped D s' = s_last_wrapped D s ∧ s_point D s' = s_point D s ∧
  s_last_point D s' = s_last_point D s.

(** A point that the search may return. *)
Definition match_ok t (m : option Point) : Prop := ∀ p, m = Some p → in_grid (t_grid t) p.

Lemma feed_spec t bytes : ∀ first (s : Search D),
  in_grid (t_grid t) (s_last_point D s) → match_ok t (s_match D s) → 0 ≤ s_consumed D s →
  s_consumed D s + zlen bytes ≤ 2147483647 →
  wp (feed D bytes first s) (λ r,
    match r with
    | None => True
    | Some (fl, s') => same_place s s' ∧ match_ok t (s_match D s') ∧
        0 ≤ s_consumed D s' ≤ s_consumed D s + zlen bytes ∧
        (fl = Retry → first = true ∧ s_consumed D s = 1 ∧ s_consumed D s' = 0)
    end).
Proof.
  induction bytes as [|byte bytes IH]; intros first s Hl Hm Hc Hi; cbn [feed].
  - apply wp_ret. unfold zlen in *. simpl in *. split_and!; try done; lia.
  - assert (Hz : zlen (byte :: bytes) = zlen bytes + 1) by (unfold zlen; simpl; lia).
    assert (0 ≤ zlen bytes) by (unfold zlen; lia).
    destruct (next_state D (s_state D s) byte) as [state|]; [|by apply wp_ret].
    do 2 wp_step. cbv zeta.
    assert (Hrec : ∀ s1, same_place s s1 → match_ok t (s_match D s1) →
      0 ≤ s_consumed D s1 ≤ s_consumed D s + 1 →
      wp (feed D bytes false s1) (λ r, match r with
        | None => True
        | Some (fl, s') => same_place s s' ∧ match_ok t (s_match D s') ∧
            0 ≤ s_consumed D s' ≤ s_consumed D s + zlen (byte :: bytes) ∧
            (fl = Retry → first = true ∧ s_consumed D s = 1 ∧ s_consumed D s' = 0)
        end)).
    { intros s1 (E1 & E2 & E3 & E4 & E5 & E6) Hm1 Hc1. wp_use IH; [by rewrite E6|done|lia|lia|].
      intros [[fl s']|]; [|done]. intros ((F1 & F2 & F3 & F4 & F5 & F6) & Hm' & Hc' & Hr).
      split; [by repeat split; etransitivity|]. split; [done|]. split; [lia|].
      intros ->. by destruct Hr. }
    assert (Hp : ∀ m consumed, same_place s (with_state D state m consumed s)) by done.
    destruct (first && is_match D state).
    { apply Hrec; [apply Hp|simpl; by intros q [= <-]|simpl; lia]. }
    destruct (is_dead D state); [|apply Hrec; [apply Hp|done|simpl; lia]].
    destruct (Z.eqb_spec (s_consumed D s + 1) 2) as [E2|_].
    + unfold reset_search. destruct (start_state D) as [st0|]; simpl; [|exact I].
      destruct first; [|apply Hrec; [by repeat split|by intros q [=]|simpl; lia]].
      apply wp_ret. split; [by repeat split|]. split; [by intros q [=]|]. simpl. split; [lia|].
      intros _. split_and!; try done; lia.
    + apply wp_ret. split; [by repeat split|]. split; [done|]. simpl. split; [lia|done].
Qed.

(** ** Cells without fullwidth characters *)

Definition narrow (x : Cell) : Prop :=
  Bitflags.contains (flags x) Flags.WIDE_CHAR = false ∧
  Bitflags.contains (flags x) Flags.WIDE_CHAR_SPACER = false ∧
  Bitflags.contains (flags x) Flags.LEADING_WIDE_CHAR_SPACER = false.
Definition no_wide t : Prop := ∀ p x, g_cell (t_grid t) p = Some x → narrow x.

Lemma skip_fullwidth_narrow B t it x direction :
  term_wf B t → narrow x → skip_fullwidth t it x direction = Ok (x, it).
Proof.
  intros W (H1' & H2' & H3'). unfold skip_fullwidth.
  rewrite last_column_ok by (apply (grid_dims R), W). cbn [mbind exec_bind].
  rewrite H1', H2', H3'. by destruct direction.
Qed.

(** How many steps the search needs to reach [end_]. *)
Definition cells t : Z := total_lines t * columns t.
Definition distance t p (end_ : Point) : Z :=
  (if forward D then linear t end_ - linear t p else linear t p - linear t end_) mod cells t.

(** The iterator stands on a cell of the grid. *)
Definition at_cell t it : Prop :=
  in_grid (t_grid t) (it_point it) ∧ it_end it = mkPoint (screen_lines t - 1) (columns t - 1).

Lemma linear_range B t p :
  term_wf B t → in_grid (t_grid t) p →
  linear t (mkPoint (top_of t) 0) ≤ linear t p < linear t (mkPoint (top_of t) 0) + cells t ∧
  0 < cells t ∧
  linear t (mkPoint (screen_lines t - 1) (columns t - 1)) = linear t (mkPoint (top_of t) 0) + cells t - 1.
Proof.
  intros W [Hl Hc]. pose proof (term_bounds R B t W). unfold cells, linear, top_of in *. simpl in *. nia.
Qed.

Lemma advance_iter_spec B t (s : Search D) end_ :
  term_wf B t → at_cell t (s_iter D s) → s_point D s = it_point (s_iter D s) →
  in_grid (t_grid t) end_ → s_point D s ≠ end_ →
  wp (advance_iter D t s) (λ '(x, it), at_cell t it ∧ g_cell (t_grid t) (it_point it) = Some x ∧
    distance t (it_point it) end_ = distance t (s_point D s) end_ - 1).
Proof.
  intros W [Hp He] Hsp Hend Hne. pose proof (term_bounds R B t W) as Hb.
  destruct (linear_range B t _ W Hp) as (Hr & Hpos & Hlast). destruct (linear_range B t _ W Hend) as (Hre & _ & _).
  assert (Hlin : linear t (it_point (s_iter D s)) ≠ linear t end_).
  { intros E. apply Hne. rewrite Hsp. apply (linear_inj t) in E; [done|apply Hp|apply Hend]. }
  assert (Hdist : distance t (s_point D s) end_ =
    let d := if forward D then linear t end_ - linear t (it_point (s_iter D s))
             else linear t (it_point (s_iter D s)) - linear t end_ in
    if 0 <? d then d else d + cells t).
  { rewrite Hsp. unfold distance. cbv zeta. destruct (forward D).
    all: case (Z.ltb_spec 0 _); intros; [apply Z.mod_small; lia|].
    all: rewrite <- (Z_mod_plus_full _ 1), Z.mul_1_l; apply Z.mod_small; lia. }
  cbv zeta in Hdist. unfold advance_iter. rewrite Hsp in Hdist |- *. wp_step.
  wp_use (iter_step_spec R B t (forward D)); [done..|]. intros [[[q x]|] it'] [He' Hi].
  - destruct Hi as (-> & Hq & Hx & Hl). apply wp_ret. split; [split; [done|by rewrite He']|].
    split; [done|]. rewrite Hdist. destruct (linear_range B t _ W Hq) as (Hrq & _ & _).
    unfold distance. rewrite Hl. destruct (forward D).
    all: case (Z.ltb_spec 0 _); intros; [rewrite Z.mod_small; lia|].
    all: rewrite <- (Z_mod_plus_full _ 1), Z.mul_1_l; rewrite Z.mod_small; lia.
  - rewrite topmost_line_ok, last_column_ok by (apply (grid_dims R), W).
    cbn [mbind exec_bind]. destruct Hp as [Hpl Hpc].
    unfold top_of in Hpl |- *. simpl in Hpl, Hpc. simpl. casts. do 8 wp_step.
    unfold iter_from. rewrite bottommost_line_ok, last_column_ok by (apply (grid_dims R), W).
    cbn [mbind exec_bind]. do 2 wp_step. set (q := mkPoint _ _).
    assert (Hq : in_grid (t_grid t) q /\ linear t q = linear t (it_point (s_iter D s)) +
      if forward D then 1 - cells t else cells t - 1).
    { rewrite He in Hi. unfold q, cells, linear, in_grid, top_of in *. simpl in *.
      destruct (forward D); (split; [split|]); nia. }
    destruct Hq as [Hq Hlq]. unfold iter_cell. wp_step. simpl.
    apply (wp_term_cell R B); [done|done|]. intros x Hx. apply wp_ret.
    split; [by split|]. split; [done|]. simpl. rewrite Hdist. unfold distance. rewrite Hlq.
    destruct (forward D).
    + rewrite He, Hlast in Hi. destruct (Z.ltb_spec 0 (linear t end_ - linear t (it_point (s_iter D s)))); [lia|].
      rewrite Z.mod_small; lia.
    + destruct (Z.ltb_spec 0 (linear t (it_point (s_iter D s)) - linear t end_)); [lia|].
      rewrite Z.mod_small; lia.
Qed.

(** The invariant of the search. *)
Record search_ok t (end_ : Point) (s : Search D) : Prop := {
  so_iter : at_cell t (s_iter D s);
  so_point : s_point D s = it_point (s_iter D s);
  so_last : in_grid (t_grid t) (s_last_point D s);
  so_match : match_ok t (s_match D s);
  so_consumed : 0 ≤ s_consumed D s;
  so_bound : s_consumed D s + 4 * distance t (s_point D s) end_ + 4 ≤ 2147483647 }.

Lemma distance_nonneg B t p end_ : term_wf B t → 0 ≤ distance t p end_.
Proof.
  intros W. pose proof (term_bounds R B t W). apply Z.mod_pos_bound. unfold cells. simpl. nia.
Qed.

(** An iteration ends the loop or decreases this number. *)
Definition steps_left t (end_ : Point) (s : Search D) : Z :=
  2 * distance t (s_point D s) end_ + (if s_consumed D s =? 1 then 1 else 0).

Lemma search_step_spec B t end_ (s : Search D) :
  term_wf B t → no_wide t → in_grid (t_grid t) end_ → search_ok t end_ s →
  wp (search_step D t end_ s) (λ r,
    match r with
    | inl r => match_ok t (default None r)
    | inr s' => search_ok t end_ s' ∧ steps_left t end_ s' < steps_left t end_ s
    end).
Proof.
  intros W Hnw Hend [Hit Hp Hl Hm Hc Hbd].
  pose proof (distance_nonneg B t (s_point D s) end_ W) as Hd0.
  pose proof (char_bytes_len (s_char D s)) as Hlen. unfold search_step, steps_left. wp_step.
  wp_use feed_spec; [done|done|lia|unfold zlen; lia|].
  intros [[fl s1]|]; [|by intros _; apply wp_ret].
  intros ((E1 & E2 & E3 & E4 & E5 & E6) & Hm1 & Hc1 & Hretry).
  assert (Hz : 0 ≤ zlen (char_bytes D (s_char D s)) ≤ 4) by (unfold zlen; lia).
  destruct fl; cycle 1.
  { (* the character is retried *)
    destruct (Hretry eq_refl) as (_ & Ec & Ec1). apply wp_ret. split.
    - split; rewrite ?E1, ?E5, ?E6, ?Ec1; (done || lia).
    - rewrite E5, Ec1, Ec. simpl. lia. }
  { by apply wp_ret. }
  assert (Hps : in_grid (t_grid t) (s_point D s1)) by (rewrite E5, Hp; apply Hit).
  destruct (bool_decide (s_point D s1 = end_) || s_done D s1) eqn:Estop.
  { destruct (next_eoi_state D (s_state D s1)) as [state|]; [|by apply wp_ret].
    apply wp_ret. simpl. destruct (is_match D state); [by intros q [= <-]|].
    destruct (is_dead D state && (s_consumed D s1 =? 1)); [by intros q [=]|done]. }
  apply orb_false_iff in Estop as [Hne _]. apply bool_decide_eq_false in Hne.
  wp_step. wp_use (advance_iter_spec B t s1 end_); [done|by rewrite E1|by rewrite E5, E1|done|done|].
  intros [x it] (Hat & Hx & Hdist). cbv zeta. wp_step.
  rewrite (skip_fullwidth_narrow B) by (done || by eapply Hnw). apply wp_ok. unfold iter_cell. wp_step.
  apply (wp_term_cell R B); [done|apply Hat|]. intros y _.
  rewrite last_column_ok by (apply (grid_dims R), W). cbn [mbind exec_bind].
  assert (Hd1 : distance t (s_point D s1) end_ = distance t (s_point D s) end_) by by rewrite E5.
  assert (Hnext : ∀ s2, s_iter D s2 = it → s_point D s2 = it_point it →
    s_last_point D s2 = s_point D s1 → match_ok t (s_match D s2) →
    0 ≤ s_consumed D s2 ≤ s_consumed D s1 → search_ok t end_ s2 ∧ steps_left t end_ s2 < steps_left t end_ s).
  { intros s2 F1 F2 F3 F4 F5. split.
    - split; rewrite ?F1, ?F2, ?F3; (done || lia).
    - unfold steps_left. rewrite F2, Hdist, Hd1.
      destruct (s_consumed D s2 =? 1), (s_consumed D s =? 1); lia. }
  match goal with |- wp (if ?b then _ else _) _ => destruct b end.
  - destruct (next_eoi_state D (s_state D s1)) as [state|]; [|by apply wp_ret].
    assert (Hmm : match_ok t (if is_match D state then Some (s_point D s1) else s_match D s1))
      by (destruct (is_match D state); [by intros q [= <-]|done]).
    match goal with |- wp (if ?b then _ else _) _ => destruct b end; [by apply wp_ret|].
    unfold reset_search. destruct (start_state D) as [st0|]; simpl; [|by intros q [=]].
    apply Hnext; simpl; (done || lia || by intros q [=]).
  - apply wp_ret, Hnext; simpl; (done || lia).
Qed.

Lemma search_loop_spec B t end_ fuel : ∀ (s : Search D),
  term_wf B t → no_wide t → in_grid (t_grid t) end_ → search_ok t end_ s →
  steps_left t end_ s < Z.of_nat fuel →
  wp (search_loop D fuel t end_ s) (λ r, match_ok t (default None r)).
Proof.
  induction fuel as [|fuel IH]; intros s W Hnw Hend Hs Hf.
  { pose proof (distance_nonneg B t (s_point D s) end_ W). unfold steps_left in Hf.
    destruct (s_consumed D s =? 1); lia. }
  cbn [search_loop]. wp_step. wp_use (search_step_spec B); [done..|].
  intros [r|s']; [by intros Hr; apply wp_ret|]. intros [Hs' Hlt]. apply IH; (done || lia).
Qed.

Lemma regex_search_spec B t start end_ fuel :
  term_wf B t → no_wide t → in_grid (t_grid t) start → in_grid (t_grid t) end_ →
  is_Some (start_state D) → 4 * cells t ≤ 2147483647 → 2 * cells t < Z.of_nat fuel →
  wp (regex_search D fuel t start end_) (match_ok t).
Proof.
  intros W Hnw Hs He [st0 Est] Hb Hf. unfold regex_search. rewrite Est. simpl unwrap.
  cbn [mbind exec_bind]. unfold iter_from.
  rewrite bottommost_line_ok, last_column_ok by (apply (grid_dims R), W).
  cbn [mbind mret exec_bind exec_ret]. unfold iter_cell at 1. wp_step. simpl.
  apply (wp_term_cell R B); [done|done|]. intros x Hx. wp_step.
  rewrite (skip_fullwidth_narrow B) by (done || by eapply Hnw). apply wp_ok. unfold iter_cell. wp_step.
  apply (wp_term_cell R B); [done|done|]. intros y _. wp_step.
  assert (Hd : 0 ≤ distance t start end_ < cells t).
  { apply Z.mod_pos_bound. by destruct (linear_range B t start W Hs) as (_ & ? & _). }
  wp_use (search_loop_spec B t end_); [done|done|done| |unfold steps_left; simpl; lia|].
  - split; simpl; try done; try lia.
  - intros r Hr. by apply wp_ret.
Qed.
End facts.
