(* ===== verification/ViMode.v ===== *)
(** * Vi mode motions (alacritty_terminal/src/vi_mode.rs)

    The motions of the vi mode cursor.  Loops over cells and lines carry fuel
    like the searches of Search.v. *)

From S2P Require Import Prelude Index Ansi GridCell Row Storage Cell Grid Selection Term Search.
#[local] Open Scope Z_scope.

Inductive ViMotion :=
  | ViUp | ViDown | ViLeft | ViRight | ViFirst | ViLast | ViFirstOccupied | ViHigh | ViMiddle | ViLow
  | SemanticLeft | SemanticRight | SemanticLeftEnd | SemanticRightEnd
  | WordLeft | WordRight | WordLeftEnd | WordRightEnd
  | Bracket | ParagraphUp | ParagraphDown.

Section vi_mode.
Context `{Ansi}.
Implicit Types (t : Term) (p : Point).

(** ** Helpers *)

Definition is_space t p : exec bool :=
  cell ← grid_cell (t_grid t) p;
  mret (negb (Bitflags.intersects (flags cell) WIDE_SPACER)
        && ((c cell =? SPACE) || (c cell =? TAB))).

Definition is_wrap t p : exec bool :=
  cell ← grid_cell (t_grid t) p;
  mret (Bitflags.contains (flags cell) Flags.WRAPLINE).

Definition is_boundary t p (direction : Direction) : exec bool :=
  top ← topmost_line t;
  if (line p <=? top) && (column p =? 0) && bool_decide (direction = Left) then mret true
  else
    bottom ← bottommost_line t;
    if line p =? bottom then
      x ← usize_add (column p) 1;
      mret ((columns t <=? x) && bool_decide (direction = Right))
    else mret false.

Definition advance t p (direction : Direction) : exec Point :=
  if bool_decide (direction = Left) then point_sub p t BGrid 1 else point_add p t BGrid 1.

(** [(0..columns).find(..)], from column [col] on. *)
Fixpoint first_occupied_from (n : nat) t (l col : Z) : exec (option Point) :=
  match n with
  | O => mret None
  | S n =>
      space ← is_space t (mkPoint l col);
      if negb space then mret (Some (mkPoint l col)) else first_occupied_from n t l (col + 1)
  end.

Definition first_occupied_in_line t (l : Z) : exec (option Point) :=
  first_occupied_from (Z.to_nat (columns t)) t l 0.

(** [(0..columns).rfind(..)]; [n] columns are left. *)
Fixpoint last_occupied_from (n : nat) t (l : Z) : exec (option Point) :=
  match n with
  | O => mret None
  | S n =>
      let col := Z.of_nat n in
      space ← is_space t (mkPoint l col);
      if negb space then mret (Some (mkPoint l col)) else last_occupied_from n t l
  end.

Definition last_occupied_in_line t (l : Z) : exec (option Point) :=
  last_occupied_from (Z.to_nat (columns t)) t l.

(** [.unwrap_or_default().column]. *)
Definition column_or_default (o : option Point) : Z := column (default default_point o).

(** ** Lines *)

(** [while is_wrap(term, point) { point.line += 1; }]. *)
Fixpoint wrap_down (fuel : nat) t p : exec Point :=
  match fuel with
  | O => Panic OutOfFuel
  | S fuel =>
      w ← is_wrap t p;
      if (w : bool) then
        l ← i32_add (line p) 1;
        wrap_down fuel t (mkPoint l (column p))
      else mret p
  end.

Definition last_motion t p : exec Point :=
  p ← expand_wide t p Right;
  occupied ← last_occupied_in_line t (line p);
  let occupied := default default_point occupied in
  if column p <? column occupied then mret occupied
  else
    w ← is_wrap t p;
    if (w : bool) then
      p ← wrap_down (line_fuel t) t p;
      o ← last_occupied_in_line t (line p);
      mret (default p o)
    else
      last ← last_column t;
      mret (mkPoint (line p) last).

(** The search in the previous lines, [for line in (top..line).rev()]. *)
Fixpoint occupied_above (n : nat) t (l last_col : Z) (acc : option Point)
    : exec (option Point) :=
  match n with
  | O => mret acc
  | S n =>
      let l := l - 1 in
      w ← is_wrap t (mkPoint l last_col);
      if negb w then mret acc
      else
        o ← first_occupied_in_line t l;
        occupied_above n t l last_col (match o with Some q => Some q | None => acc end)
  end.

(** The fallback loop to the next non-empty cell. *)
Fixpoint occupied_below (fuel : nat) t (l last_col : Z) : exec Point :=
  match fuel with
  | O => Panic OutOfFuel
  | S fuel =>
      o ← first_occupied_in_line t l;
      match o with
      | Some q => mret q
      | None =>
          let last_cell := mkPoint l last_col in
          w ← is_wrap t last_cell;
          if negb w then mret last_cell
          else
            l ← i32_add l 1;
            occupied_below fuel t l last_col
      end
  end.

Definition first_occupied t p : exec Point :=
  last_col ← last_column t;
  p ← expand_wide t p Left;
  o ← first_occupied_in_line t (line p);
  let occupied := default (mkPoint (line p) last_col) o in
  if bool_decide (p = occupied) then
    top ← topmost_line t;
    o ← occupied_above (Z.to_nat (line p - top)) t (line p) last_col None;
    match o with
    | Some q => mret q
    | None => occupied_below (line_fuel t) t (line p) last_col
    end
  else mret occupied.

(** The loop of [ViMotion::First]; the column is 0. *)
Fixpoint first_loop (fuel : nat) t p : exec Point :=
  match fuel with
  | O => Panic OutOfFuel
  | S fuel =>
      if column p =? 0 then
        top ← topmost_line t;
        if top <? line p then
          l ← i32_sub (line p) 1;
          last ← last_column t;
          w ← is_wrap t (mkPoint l last);
          if (w : bool) then first_loop fuel t (mkPoint l (column p)) else mret p
        else mret p
      else mret p
  end.

(** ** Words *)

(** [while !is_boundary(point) && is_space(next_point) == want { .. }]. *)
Fixpoint skip_next (fuel : nat) (want : bool) t p next (direction : Direction) : exec Point :=
  match fuel with
  | O => Panic OutOfFuel
  | S fuel =>
      b ← is_boundary t p direction;
      if (b : bool) then mret p
      else
        space ← is_space t next;
        if eqb space want then
          next' ← advance t next direction;
          skip_next fuel want t next next' direction
        else mret p
  end.

(** [while !is_boundary(point) && is_space(point) == want { point = advance(..) }]. *)
Fixpoint skip_here (fuel : nat) (want : bool) t p (direction : Direction) : exec Point :=
  match fuel with
  | O => Panic OutOfFuel
  | S fuel =>
      b ← is_boundary t p direction;
      if (b : bool) then mret p
      else
        space ← is_space t p;
        if eqb space want then
          p ← advance t p direction;
          skip_here fuel want t p direction
        else mret p
  end.

Definition expand_semantic t p (direction : Direction) : exec Point :=
  cell ← grid_cell (t_grid t) p;
  if text_contains (semantic_escape_chars (t_config t)) (c cell)
     && negb (Bitflags.intersects (flags cell) WIDE_SPACER)
  then mret p
  else if bool_decide (direction = Left) then semantic_search_left t p
  else semantic_search_right t p.

Definition semantic t p (direction : Direction) (side : Side) : exec Point :=
  p ← (if bool_decide (direction ≠ side) then
         b ← is_boundary t p direction;
         if negb b then expand_semantic t p direction else mret p
       else mret p);
  p ← expand_wide t p direction;
  next ← advance t p direction;
  p ← skip_next (cell_fuel t) true t p next direction;
  b ← is_boundary t p direction;
  p ← (if negb b then
         p ← advance t p direction;
         if bool_decide (direction = Left) then expand_wide t p direction else mret p
       else mret p);
  if bool_decide (direction = side) then
    b ← is_boundary t p direction;
    if negb b then expand_semantic t p direction else mret p
  else mret p.

Definition word t p (direction : Direction) (side : Side) : exec Point :=
  p ← expand_wide t p direction;
  if bool_decide (direction = side) then
    next ← advance t p direction;
    p ← skip_next (cell_fuel t) true t p next direction;
    next ← advance t p direction;
    skip_next (cell_fuel t) false t p next direction
  else
    p ← skip_here (cell_fuel t) false t p direction;
    skip_here (cell_fuel t) true t p direction.

(** ** Paragraphs *)

(** [range.skip_while(is_clear).find(is_clear)] over the lines [l], [l + step], ...;
    [skipping] is the phase of [skip_while]. *)
Fixpoint find_paragraph (n : nat) (step : Z) (skipping : bool) t (l : Z) : exec (option Z) :=
  match n with
  | O => mret None
  | S n =>
      r ← grid_row (t_grid t) l;
      let clear := row_is_clear r in
      if (skipping : bool) then find_paragraph n step clear t (l + step)
      else if (clear : bool) then mret (Some l)
      else find_paragraph n step false t (l + step)
  end.

(** ** Motions *)

(** The target of a motion, before the display is scrolled to it. *)
Definition motion_target t p (motion : ViMotion) : exec Point :=
  match motion with
  | ViUp =>
      top ← topmost_line t;
      if top <? line p then l ← i32_sub (line p) 1; mret (mkPoint l (column p)) else mret p
  | ViDown =>
      l ← i32_add (line p) 1;
      if l <? as_i32 (screen_lines t) then mret (mkPoint l (column p)) else mret p
  | ViLeft =>
      p ← expand_wide t p Left;
      l ← i32_sub (line p) 1;
      last ← last_column t;
      let wrap_point := mkPoint l last in
      top ← topmost_line t;
      w ← (if (column p =? 0) && (top <? line p) then is_wrap t wrap_point else mret false);
      mret (if (w : bool) then wrap_point else mkPoint (line p) (saturating_sub (column p) 1))
  | ViRight =>
      p ← expand_wide t p Right;
      w ← is_wrap t p;
      if (w : bool) then l ← i32_add (line p) 1; mret (mkPoint l 0)
      else
        x ← usize_add (column p) 1;
        last ← last_column t;
        mret (mkPoint (line p) (Z.min x last))
  | ViFirst =>
      p ← expand_wide t p Left;
      p ← first_loop (line_fuel t) t p;
      mret (mkPoint (line p) 0)
  | ViLast => last_motion t p
  | ViFirstOccupied => first_occupied t p
  | ViHigh =>
      l ← i32_neg (as_i32 (display_offset (t_grid t)));
      o ← first_occupied_in_line t l;
      mret (mkPoint l (column_or_default o))
  | ViMiddle =>
      x ← i32_neg (as_i32 (display_offset (t_grid t)));
      x ← i32_add x (Z.quot (as_i32 (screen_lines t)) 2);
      l ← i32_sub x 1;
      o ← first_occupied_in_line t l;
      mret (mkPoint l (column_or_default o))
  | ViLow =>
      x ← i32_neg (as_i32 (display_offset (t_grid t)));
      x ← i32_add x (as_i32 (screen_lines t));
      l ← i32_sub x 1;
      o ← first_occupied_in_line t l;
      mret (mkPoint l (column_or_default o))
  | SemanticLeft => semantic t p Left Left
  | SemanticRight => semantic t p Right Left
  | SemanticLeftEnd => semantic t p Left Right
  | SemanticRightEnd => semantic t p Right Right
  | WordLeft => word t p Left Left
  | WordRight => word t p Right Left
  | WordLeftEnd => word t p Left Right
  | WordRightEnd => word t p Right Right
  | Bracket => o ← bracket_search t p; mret (default p o)
  | ParagraphUp =>
      top ← topmost_line t;
      o ← find_paragraph (Z.to_nat (line p - top)) (-1) true t (line p - 1);
      mret (mkPoint (default top o) 0)
  | ParagraphDown =>
      bottom ← bottommost_line t;
      o ← find_paragraph (Z.to_nat (bottom - line p)) 1 true t (line p);
      mret (mkPoint (default bottom o) 0)
  end.

(** [ViModeCursor::motion]: the new cursor and the terminal. *)
Definition motion t p (m : ViMotion) : exec (Point * Term) :=
  p ← motion_target t p m;
  t ← scroll_to_point p t;
  mret (p, t).

(** [ViModeCursor::scroll]. *)
Definition vi_scroll t p (lines : Z) : exec Point :=
  l ← i32_sub (line p) lines;
  l ← line_grid_clamp l t BGrid;
  o ← first_occupied_in_line t l;
  mret (mkPoint l (column_or_default o)).

(** [Term::vi_motion]. *)
Definition vi_motion (m : ViMotion) t : exec Term :=
  if negb (has_mode t TermMode.VI) then mret t
  else
    '(p, t) ← motion t (t_vi_mode_cursor t) m;
    let t := upd_vi_mode_cursor p t in
    vi_mode_recompute_selection t.
End vi_mode.
