(* ===== verification/ViFacts.v ===== *)
(** * Facts about the motions of vi mode

    Every helper of ViMode.v returns within its fuel and stays in the grid; the loops over
    words stop at the first cell that is not of the kind they skip. *)

From S2P Require Import Prelude Index Ansi GridCell Row Storage Cell Grid GridFacts GridOps.
From S2P Require Import Resize Selection Term TermFacts TermOps HandlerFacts Search SearchFacts ViMode.
#[local] Open Scope Z_scope.

Section vi_facts.
Context `{AnsiLaws} (R : Row Cell → Prop) (B : Z) (t : Term).
Context (W : TermFacts.term_wf R B t).
Implicit Types (p q : Point) (d : Direction).

(** Where the motions are safe: no line below the screen is reached by wrapping on the
    last one, and no second half of a fullwidth character starts a line. *)
Record vi_safe : Prop := {
  vs_bottom l col x : l = screen_lines t - 1 → g_cell (t_grid t) (mkPoint l col) = Some x →
    Bitflags.contains (flags x) Flags.WRAPLINE = false ∧
    Bitflags.contains (flags x) Flags.LEADING_WIDE_CHAR_SPACER = false;
  vs_halves p x : g_cell (t_grid t) p = Some x →
    Bitflags.contains (flags x) Flags.WIDE_CHAR_SPACER = true → 0 < column p }.

#[local] Abbreviation in_grid p := (Index.in_grid (t_grid t) p).

(** The cells that are left in a direction. *)
Definition ahead d p : Z :=
  match d with
  | Left => linear t p - linear t (mkPoint (top_of t) 0)
  | Right => linear t (mkPoint (screen_lines t - 1) (columns t - 1)) - linear t p
  end.

Definition step_of d : Z := match d with Left => -1 | Right => 1 end.

Lemma ahead_range d p : in_grid p → 0 ≤ ahead d p < Z.of_nat (cell_fuel t) - 2.
Proof using W.
  intros Hp. destruct (in_grid_range R B t p W Hp) as [Hr Ht]. unfold cell_fuel, ahead.
  destruct d; lia.
Qed.

Lemma ahead_linear d p q : linear t q = linear t p + step_of d → ahead d q = ahead d p - 1.
Proof using Type. intros E. destruct d; simpl in *; lia. Qed.

Lemma space_wp p (Q : bool → Prop) :
  in_grid p →
  (∀ x, g_cell (t_grid t) p = Some x →
    Q (negb (Bitflags.intersects (flags x) WIDE_SPACER) && ((c x =? SPACE) || (c x =? TAB)))) →
  wp (is_space t p) Q.
Proof using W. intros Hp HQ. unfold is_space. wp_step. apply (wp_term_cell R B); [done..|]. intros x Hx. apply wp_ret. by apply HQ. Qed.

(** The cell number [k] is blank. *)
Definition blank (k : Z) : bool :=
  match g_cell (t_grid t) (mkPoint (k / columns t) (k mod columns t)) with
  | Some x => negb (Bitflags.intersects (flags x) WIDE_SPACER) && ((c x =? SPACE) || (c x =? TAB))
  | None => false
  end.

Lemma space_ok p : in_grid p → is_space t p = Ok (blank (linear t p)).
Proof using W.
  intros Hp. assert (G : wp (is_space t p) (λ b, b = blank (linear t p))).
  { apply space_wp; [done|]. intros x Hx. unfold blank, linear. destruct Hp as [_ Hc].
    change (columns (t_grid t)) with (columns t) in Hc.
    rewrite Z.div_add_l, Z.div_small, Z.add_0_r by lia.
    rewrite (Z.add_comm (line p * _)), Z.mod_add, Z.mod_small by lia. by rewrite point_eta, Hx. }
  by apply wp_exists in G as (b & -> & ->).
Qed.

Lemma wrap_wp p (Q : bool → Prop) :
  in_grid p → (∀ x, g_cell (t_grid t) p = Some x → Q (Bitflags.contains (flags x) Flags.WRAPLINE)) → wp (is_wrap t p) Q.
Proof using W. intros Hp HQ. unfold is_wrap. wp_step. apply (wp_term_cell R B); [done..|]. intros x Hx. apply wp_ret. by apply HQ. Qed.

Lemma boundary_ok d p : in_grid p → is_boundary t p d = Ok (ahead d p =? 0).
Proof using W.
  intros [Hl Hc]. pose proof (term_bounds R B t W) as Hb. unfold is_boundary.
  rewrite topmost_line_ok, bottommost_line_ok by by apply (term_dims R B). cbn [mbind exec_bind].
  assert (Hx : usize_add (column p) 1 = Ok (column p + 1)) by (simpl in *; by rewrite usize_add_ok by lia).
  unfold ahead, linear, top_of in *. simpl in *. destruct d; simpl; rewrite ?andb_false_r, ?andb_true_r; rewrite ?Hx.
  - destruct (Z.leb_spec (line p) (g_lines (t_grid t) - s_len (raw (t_grid t)))), (Z.eqb_spec (column p) 0); simpl.
    + f_equal. symmetry. apply Z.eqb_eq. nia.
    + transitivity (Ok (A := bool) false); [destruct (line p =? _); simpl; by rewrite ?andb_false_r|]. f_equal. symmetry. apply Z.eqb_neq. nia.
    + transitivity (Ok (A := bool) false); [destruct (line p =? _); simpl; by rewrite ?andb_false_r|]. f_equal. symmetry. apply Z.eqb_neq. nia.
    + transitivity (Ok (A := bool) false); [destruct (line p =? _); simpl; by rewrite ?andb_false_r|]. f_equal. symmetry. apply Z.eqb_neq. nia.
  - destruct (Z.eqb_spec (line p) (g_lines (t_grid t) - 1)); simpl; rewrite ?andb_true_r; f_equal.
    + destruct (Z.leb_spec (g_columns (t_grid t)) (column p + 1)); symmetry; [apply Z.eqb_eq|apply Z.eqb_neq]; nia.
    + symmetry; apply Z.eqb_neq; nia.
Qed.

Lemma advance_wp d p :
  in_grid p → wp (advance t p d) (λ q, in_grid q ∧ ahead d q = Z.max 0 (ahead d p - 1) ∧
    (ahead d p ≠ 0 → linear t q = linear t p + step_of d)).
Proof using W.
  intros Hp. pose proof (term_bounds R B t W) as Hb. pose proof (term_dims R B t W) as Hd.
  pose proof (ahead_range d p Hp) as Hr.
  assert (Hg : Index.in_grid t p) by exact Hp. pose proof Hp as [Hl Hc].
  unfold advance. destruct d; simpl.
  - destruct (point_sub_bounded t Hd p BGrid 1) as (q & -> & Hq & Hqc & E); [done|done|exact (proj1 Hl)|lia|].
    apply wp_ok. simpl clamp_top in *. unfold ahead, step_of in *. unfold linear at 2. simpl line. simpl column. split_and!.
    + by split.
    + unfold linear in *; simpl in *; lia.
    + intros. unfold linear in *; simpl in *; lia.
  - destruct (point_add_bounded t Hd p BGrid 1) as (q & -> & Hq & Hqc & E); [done|done|exact (proj1 Hl)|lia|].
    apply wp_ok. simpl clamp_top in *. unfold ahead, step_of in *. unfold linear at 1. simpl line. simpl column. split_and!.
    + by split.
    + unfold linear in *; simpl in *; nia.
    + intros. unfold linear in *; simpl in *; nia.
Qed.

(** ** Words *)

(** From [p] to [q] in a direction, over cells that are all blank or all not blank; [q]
    is at the end of the grid or the first cell of the other kind. *)
Definition skips d (want : bool) p q : Prop :=
  ∃ n : nat, linear t q = linear t p + step_of d * Z.of_nat n ∧
    (∀ i : nat, (i < n)%nat → blank (linear t p + step_of d * Z.of_nat i) = want) ∧
    (ahead d q = 0 ∨ blank (linear t q) = negb want).

(** The same for the cells behind [p]: [q] is at the end or the last cell of the kind. *)
Definition skips_next d (want : bool) p q : Prop :=
  ∃ n : nat, linear t q = linear t p + step_of d * Z.of_nat n ∧
    (∀ i : nat, (0 < i ≤ n)%nat → blank (linear t p + step_of d * Z.of_nat i) = want) ∧
    (ahead d q = 0 ∨ blank (linear t q + step_of d) = negb want).

Lemma skip_here_wp d want fuel : ∀ p,
  in_grid p → ahead d p < Z.of_nat fuel → wp (skip_here fuel want t p d) (λ q, in_grid q ∧ skips d want p q).
Proof using W.
  induction fuel as [|fuel IH]; intros p Hp Hf; [pose proof (ahead_range d p Hp); lia|]. cbn [skip_here].
  assert (Hstop : ahead d p = 0 ∨ blank (linear t p) = negb want → in_grid p ∧ skips d want p p).
  { intros Hs. split; [done|]. exists 0%nat. split; [lia|]. split; [lia|done]. }
  rewrite boundary_ok by done. cbn [mbind exec_bind]. destruct (Z.eqb_spec (ahead d p) 0) as [E|E].
  { apply wp_ret. auto. }
  rewrite space_ok by done. cbn [mbind exec_bind]. destruct (eqb (blank (linear t p)) want) eqn:Es.
  - apply eqb_prop in Es. wp_step. wp_use (advance_wp d p); [done|]. intros p' (Hp' & Ha & Hl). specialize (Hl E).
    wp_use IH; [done|pose proof (ahead_range d p Hp); lia|]. intros q (Hq & n & En & Hn & Hs). split; [done|].
    exists (S n). split_and!; [lia| |done]. intros [|i] Hi; [by rewrite Z.mul_0_r, Z.add_0_r|].
    rewrite <- (Hn i) by lia. f_equal. lia.
  - apply wp_ret. apply Hstop. right. apply eqb_false_iff in Es. by destruct (blank _), want.
Qed.

Lemma skip_next_wp d want fuel : ∀ p next,
  in_grid p → in_grid next → (ahead d p ≠ 0 → linear t next = linear t p + step_of d) → ahead d p < Z.of_nat fuel →
  wp (skip_next fuel want t p next d) (λ q, in_grid q ∧ skips_next d want p q).
Proof using W.
  induction fuel as [|fuel IH]; intros p next Hp Hne Hl Hf; [pose proof (ahead_range d p Hp); lia|]. cbn [skip_next].
  assert (Hstop : ahead d p = 0 ∨ blank (linear t p + step_of d) = negb want → in_grid p ∧ skips_next d want p p).
  { intros Hs. split; [done|]. exists 0%nat. split; [lia|]. split; [lia|done]. }
  rewrite boundary_ok by done. cbn [mbind exec_bind]. destruct (Z.eqb_spec (ahead d p) 0) as [E|E].
  { apply wp_ret. auto. }
  specialize (Hl E). rewrite space_ok by done. cbn [mbind exec_bind]. rewrite Hl.
  pose proof (ahead_linear d p next Hl) as Ha.
  destruct (eqb (blank _) want) eqn:Es.
  - apply eqb_prop in Es. wp_step. wp_use (advance_wp d next); [done|]. intros next' (Hp' & _ & Hl').
    wp_use IH; [done|done|done|lia|]. intros q (Hq & n & En & Hn & Hs). split; [done|].
    exists (S n). split_and!; [lia| |done]. intros [|[|i]] Hi; [lia|by replace (step_of d * Z.of_nat 1) with (step_of d) by lia|].
    rewrite <- (Hn (S i)) by lia. f_equal. lia.
  - apply wp_ret. apply Hstop. right. apply eqb_false_iff in Es. by destruct (blank _), want.
Qed.

(** ** Fullwidth characters *)

Lemma expand_wide_wp d p : vi_safe → in_grid p → wp (expand_wide t p d) (λ q, in_grid q).
Proof using W.
  intros Hs Hp. pose proof (term_bounds R B t W) as Hb. pose proof (term_dims R B t W) as Hd. pose proof Hp as [Hl Hc].
  unfold expand_wide. wp_step. apply (wp_term_cell R B); [done..|]. intros x Hx. cbv zeta. destruct d.
  - apply wp_if; intros _; [|by apply wp_ret].
    assert (Hgo : ∀ p', in_grid p' → wp (prev ← point_sub p' t BGrid 1; cell ← grid_cell (t_grid t) prev;
      mret (if Bitflags.contains (flags cell) Flags.LEADING_WIDE_CHAR_SPACER then prev else p')) (λ q, in_grid q)).
    { intros p' Hp'. wp_step. destruct (point_sub_bounded t Hd p' BGrid 1) as (q & -> & Hq & Hqc & _); [done|exact Hp'|apply Hp'|lia|].
      apply wp_ok. wp_step. assert (in_grid q) by by split. apply (wp_term_cell R B); [done..|]. intros y _. apply wp_ret. by destruct (Bitflags.contains _ _). }
    wp_step. apply wp_if; intros E.
    + pose proof (vs_halves Hs p x Hx E). wp_step. simpl in Hc. wp_step. wp_step. apply Hgo. split; simpl in *; lia.
    + apply wp_ret. by apply Hgo.
  - apply wp_if; intros E.
    + assert (line p ≠ screen_lines t - 1).
      { intros El. destruct (vs_bottom Hs (line p) (column p) x El) as [_ E']; [by destruct p|]. congruence. }
      unfold top_of in *. simpl in *. wp_step. wp_step. apply wp_ret. split; simpl; unfold top_of; simpl; lia.
    + apply wp_if; intros _; [|by apply wp_ret]. unfold top_of in *. simpl in *. wp_step. wp_step. wp_step. rewrite last_column_ok by done.
      apply wp_ok. apply wp_ret. split; simpl; unfold top_of; simpl; lia.
Qed.

Lemma word_wp d side p :
  vi_safe → in_grid p →
  wp (word t p d side) (λ q, in_grid q ∧ ∃ p0 m, expand_wide t p d = Ok p0 ∧ in_grid p0 ∧ in_grid m ∧
    if decide (d = side) then skips_next d true p0 m ∧ skips_next d false m q
    else skips d false p0 m ∧ skips d true m q).
Proof using W.
  intros Hs Hp. pose proof (expand_wide_wp d p Hs Hp) as G. apply wp_exists in G as (p0 & E & Hp0).
  unfold word. rewrite E. cbn [mbind exec_bind].
  assert (Hfuel : ∀ p', in_grid p' → ahead d p' < Z.of_nat (cell_fuel t)) by (intros p' Hp'; pose proof (ahead_range d p' Hp'); lia).
  rewrite (bool_decide_decide (d = side)). destruct (decide (d = side)).
  - wp_step. wp_use (advance_wp d p0); [done|]. intros n0 (Hn0 & _ & Hl0).
    wp_step. wp_use skip_next_wp; [done|done|done|by apply Hfuel|]. intros m [Hm Hsm].
    wp_step. wp_use (advance_wp d m); [done|]. intros n1 (Hn1 & _ & Hl1).
    wp_use skip_next_wp; [done|done|done|by apply Hfuel|]. intros q [Hq Hsq]. split; [done|]. by exists p0, m.
  - wp_step. wp_use skip_here_wp; [done|by apply Hfuel|]. intros m [Hm Hsm].
    wp_use skip_here_wp; [done|by apply Hfuel|]. intros q [Hq Hsq]. split; [done|]. by exists p0, m.
Qed.

(** ** Semantic words *)

Definition stop_of (r : inline_result) : Point := match r with Found p | NotFound p => p end.

#[local] Abbreviation grid_end := (mkPoint (screen_lines t - 1) (columns t - 1)).

Lemma iter_wp (forward : bool) it (Q : option (Point * Cell) * GridIterator → Prop) :
  in_grid (it_point it) → it_end it = grid_end →
  (∀ q x it', in_grid q → it_point it' = q → it_end it' = grid_end →
    ahead (if forward then Right else Left) q = ahead (if forward then Right else Left) (it_point it) - 1 → Q (Some (q, x), it')) →
  (∀ it', it_end it' = grid_end → Q (None, it')) →
  wp (iter_step forward (t_grid t) it) Q.
Proof using W.
  intros Hp He Hs Hn. wp_use (iter_step_spec R B t forward it W Hp He). intros [[[q x]|] it'] [He' Hi].
  - destruct Hi as (-> & Hq & _ & Hl). apply Hs; [done|done|congruence|].
    destruct forward; apply ahead_linear; simpl; lia.
  - apply Hn. congruence.
Qed.

Lemma inline_left_wp needles last_col fuel : ∀ p it,
  in_grid p → in_grid (it_point it) → it_end it = grid_end → ahead Left (it_point it) < Z.of_nat fuel →
  wp (inline_left_loop fuel needles last_col (t_grid t) p it) (λ r, in_grid (stop_of r)).
Proof using W.
  induction fuel as [|fuel IH]; intros p it Hp Hi He Hf; [pose proof (ahead_range Left _ Hi); lia|]. cbn [inline_left_loop].
  wp_step. apply (iter_wp false); [done|done| |intros; by apply wp_ret].
  intros q x it' Hq Eq He' Ha. apply wp_if; intros _; [by apply wp_ret|]. apply wp_if; intros _; [by apply wp_ret|].
  apply IH; rewrite ?Eq; [done..|]. simpl in *. lia.
Qed.

Lemma inline_right_wp needles last_col fuel : ∀ p it,
  in_grid p → in_grid (it_point it) → it_end it = grid_end → ahead Right (it_point it) < Z.of_nat fuel →
  wp (inline_right_loop fuel needles last_col (t_grid t) p it) (λ r, in_grid (stop_of r)).
Proof using W.
  induction fuel as [|fuel IH]; intros p it Hp Hi He Hf; [pose proof (ahead_range Right _ Hi); lia|]. cbn [inline_right_loop].
  wp_step. apply (iter_wp true); [done|done| |intros; by apply wp_ret].
  intros q x it' Hq Eq He' Ha. apply wp_if; intros _; [by apply wp_ret|]. apply wp_if; intros _; [by apply wp_ret|].
  apply IH; rewrite ?Eq; [done..|]. simpl in *. lia.
Qed.

Lemma find_non_spacer_wp fuel : ∀ it,
  in_grid (it_point it) → it_end it = grid_end → ahead Right (it_point it) < Z.of_nat fuel →
  wp (find_non_spacer fuel (t_grid t) it) (λ o, ∀ q, o = Some q → in_grid q).
Proof using W.
  induction fuel as [|fuel IH]; intros it Hi He Hf; [pose proof (ahead_range Right _ Hi); lia|]. cbn [find_non_spacer].
  wp_step. apply (iter_wp true); [done|done| |intros; by apply wp_ret].
  intros q x it' Hq Eq He' Ha. apply wp_if; intros _; [by apply wp_ret; intros ? [= <-]|].
  apply IH; rewrite ?Eq; [done..|]. simpl in *. lia.
Qed.

(** The searches start on the line itself, as it is not above the grid. *)
Lemma clamped_top p : in_grid p → mkPoint (Z.max (line p) (top_of t)) (column p) = p.
Proof using Type. intros [[Hl _] _]. change (top_of (t_grid t)) with (top_of t) in Hl. rewrite Z.max_l by done. apply point_eta. Qed.

Lemma semantic_left_wp p : in_grid p → wp (semantic_search_left t p) (λ q, in_grid q).
Proof using W.
  intros Hp. pose proof (term_bounds R B t W) as Hb. pose proof (term_dims R B t W) as Hd.
  unfold semantic_search_left. wp_step. unfold inline_search_left. rewrite topmost_line_ok by done. cbn [mbind exec_bind].
  cbv zeta. rewrite clamped_top by done. rewrite (iter_from_ok R B) by done. cbn [mbind exec_bind]. wp_step. simpl columns.
  wp_step. wp_use inline_left_wp; [done|done|done|pose proof (ahead_range Left p Hp); simpl it_point; lia|].
  intros [q|q] Hq; simpl in Hq; [|by apply wp_ret]. rewrite (iter_from_ok R B) by done. cbn [mbind exec_bind].
  wp_step. wp_use find_non_spacer_wp; [done|done|pose proof (ahead_range Right q Hq); simpl it_point; lia|].
  intros o Ho. apply wp_ret. destruct o as [q'|]; [by apply Ho|done].
Qed.

Lemma semantic_right_wp p : in_grid p → wp (semantic_search_right t p) (λ q, in_grid q).
Proof using W.
  intros Hp. pose proof (term_bounds R B t W) as Hb. pose proof (term_dims R B t W) as Hd.
  unfold semantic_search_right. wp_step. unfold inline_search_right. rewrite topmost_line_ok by done. cbn [mbind exec_bind].
  cbv zeta. rewrite clamped_top by done. wp_step. simpl columns. wp_step. wp_step.
  eapply wp_mono with (Q := λ _, True).
  { apply wp_if; intros _; [|by apply wp_ret]. wp_step. apply (wp_term_cell R B); [done..|]. intros x _. by apply wp_ret. }
  intros stop _. apply wp_if; intros _; [by apply wp_ret; apply wp_ret|].
  rewrite (iter_from_ok R B) by done. cbn [mbind exec_bind].
  wp_use inline_right_wp; [done|done|done|pose proof (ahead_range Right p Hp); simpl it_point; lia|].
  intros [q|q] Hq; simpl in Hq; [|by apply wp_ret]. rewrite (iter_from_ok R B) by done. cbn [mbind exec_bind].
  wp_step. apply (iter_wp false); [done|done| |intros; by apply wp_ret].
  intros q' x it' Hq' _ _ _. by apply wp_ret.
Qed.

Lemma expand_semantic_wp d p : in_grid p → wp (expand_semantic t p d) (λ q, in_grid q).
Proof using W.
  intros Hp. unfold expand_semantic. wp_step. apply (wp_term_cell R B); [done..|]. intros x _.
  apply wp_if; intros _; [by apply wp_ret|]. apply wp_if; intros _; [by apply semantic_left_wp|by apply semantic_right_wp].
Qed.

Lemma semantic_wp d side p : vi_safe → in_grid p → wp (semantic t p d side) (λ q, in_grid q).
Proof using W.
  intros Hs Hp. unfold semantic.
  assert (Hexp : ∀ (b : bool) p', in_grid p' →
    wp (if b then b ← is_boundary t p' d; if negb b then expand_semantic t p' d else mret p' else mret p') (λ q, in_grid q)).
  { intros b p' Hp'. apply wp_if; intros _; [|by apply wp_ret]. rewrite boundary_ok by done. cbn [mbind exec_bind].
    apply wp_if; intros _; [by apply expand_semantic_wp|by apply wp_ret]. }
  wp_step. wp_use Hexp; [done|]. intros p1 Hp1. wp_step. wp_use expand_wide_wp; [done|done|]. intros p2 Hp2.
  wp_step. wp_use (advance_wp d p2); [done|]. intros next (Hn & _ & Hl).
  wp_step. wp_use skip_next_wp; [done|done|done|pose proof (ahead_range d p2 Hp2); lia|]. intros p3 [Hp3 _].
  rewrite boundary_ok by done. cbn [mbind exec_bind]. wp_step.
  eapply wp_mono with (Q := λ q, in_grid q).
  { apply wp_if; intros _; [|by apply wp_ret]. wp_step. wp_use (advance_wp d p3); [done|]. intros p4 (Hp4 & _).
    apply wp_if; intros _; [by apply expand_wide_wp|by apply wp_ret]. }
  intros p5 Hp5. by apply Hexp.
Qed.

(** ** Lines *)

Lemma first_occupied_wp l n : ∀ col,
  top_of t ≤ l < screen_lines t → 0 ≤ col → col + Z.of_nat n = columns t →
  wp (first_occupied_from n t l col) (λ o, ∀ q, o = Some q → in_grid q ∧ line q = l).
Proof using W.
  induction n as [|n IH]; intros col Hl Hc Hn; cbn [first_occupied_from]; [by apply wp_ret|].
  assert (Hp : in_grid (mkPoint l col)) by (split; [done|simpl in *; lia]).
  rewrite space_ok by done. cbn [mbind exec_bind]. apply wp_if; intros _; [|apply IH; lia].
  apply wp_ret. by intros q [= <-].
Qed.

Lemma last_occupied_wp l n :
  top_of t ≤ l < screen_lines t → Z.of_nat n ≤ columns t →
  wp (last_occupied_from n t l) (λ o, ∀ q, o = Some q → in_grid q ∧ line q = l).
Proof using W.
  intros Hl. induction n as [|n IH]; intros Hn; cbn [last_occupied_from]; [by apply wp_ret|]. cbv zeta.
  assert (Hp : in_grid (mkPoint l (Z.of_nat n))) by (split; [done|simpl in *; lia]).
  rewrite space_ok by done. cbn [mbind exec_bind]. apply wp_if; intros _; [|apply IH; lia].
  apply wp_ret. by intros q [= <-].
Qed.

Lemma first_in_line_wp l :
  top_of t ≤ l < screen_lines t → wp (first_occupied_in_line t l) (λ o, ∀ q, o = Some q → in_grid q ∧ line q = l).
Proof using W. intros Hl. pose proof (term_bounds R B t W). apply first_occupied_wp; simpl in *; lia. Qed.

Lemma last_in_line_wp l :
  top_of t ≤ l < screen_lines t → wp (last_occupied_in_line t l) (λ o, ∀ q, o = Some q → in_grid q ∧ line q = l).
Proof using W. intros Hl. pose proof (term_bounds R B t W). apply last_occupied_wp; simpl in *; lia. Qed.

(** A wrapped cell is not on the last line. *)
Lemma wrapped_above p x :
  vi_safe → in_grid p → g_cell (t_grid t) p = Some x → Bitflags.contains (flags x) Flags.WRAPLINE = true →
  line p < screen_lines t - 1.
Proof using Type.
  intros Hs [Hl _] Hx Hw. destruct (decide (line p = screen_lines t - 1)) as [E|E]; [|simpl in *; lia].
  destruct (vs_bottom Hs (line p) (column p) x E) as [E' _]; [by destruct p|]. congruence.
Qed.

Lemma wrap_down_wp fuel : ∀ p,
  vi_safe → in_grid p → screen_lines t - line p ≤ Z.of_nat fuel → wp (wrap_down fuel t p) (λ q, in_grid q).
Proof using W.
  induction fuel as [|fuel IH]; intros p Hs Hp Hf; [destruct Hp as [? _]; simpl in *; lia|]. cbn [wrap_down].
  pose proof (term_bounds R B t W) as Hb. wp_step. apply wrap_wp; [done|]. intros x Hx. apply wp_if; intros Hw; [|by apply wp_ret].
  pose proof (wrapped_above p x Hs Hp Hx Hw). destruct Hp as [Hl Hc]. unfold top_of in *. simpl in *. wp_step. wp_step.
  apply IH; [done|split; unfold top_of; simpl; lia|simpl; lia].
Qed.

Lemma last_motion_wp p : vi_safe → in_grid p → wp (last_motion t p) (λ q, in_grid q).
Proof using W.
  intros Hs Hp. pose proof (term_bounds R B t W) as Hb. unfold last_motion. wp_step. wp_use expand_wide_wp; [done|done|].
  intros p1 Hp1. pose proof Hp1 as [Hl1 Hc1]. wp_step. wp_use last_in_line_wp; [exact Hl1|]. intros o Ho. cbv zeta.
  apply wp_if; intros E.
  { apply wp_ret. destruct o as [q|]; [by apply Ho|]. unfold default_point in E. simpl in E, Hc1. lia. }
  wp_step. apply wrap_wp; [done|]. intros x Hx. apply wp_if; intros Hw.
  - destruct (line_fuel_enough R B t (line p1) W Hl1) as [_ Hf].
    wp_step. wp_use wrap_down_wp; [done|done|done|]. intros p2 Hp2.
    wp_step. wp_use last_in_line_wp; [apply Hp2|]. intros o2 Ho2. apply wp_ret. destruct o2; [by apply Ho2|done].
  - rewrite last_column_ok by by apply (term_dims R B). cbn [mbind exec_bind]. apply wp_ret. split; [done|simpl; lia].
Qed.

Lemma occupied_above_wp n : ∀ l acc,
  top_of t ≤ l - Z.of_nat n → l < screen_lines t → (∀ q, acc = Some q → in_grid q) →
  wp (occupied_above n t l (columns t - 1) acc) (λ o, ∀ q, o = Some q → in_grid q).
Proof using W.
  induction n as [|n IH]; intros l acc Hl Hs Ha; cbn [occupied_above]; [by apply wp_ret|]. cbv zeta.
  pose proof (term_bounds R B t W) as Hb.
  assert (Hp : in_grid (mkPoint (l - 1) (columns t - 1))) by (split; unfold top_of in *; simpl in *; lia).
  wp_step. apply wrap_wp; [done|]. intros x _. apply wp_if; intros _; [by apply wp_ret|].
  wp_step. wp_use first_in_line_wp; [lia|]. intros o Ho. apply IH; [lia..|].
  intros q Eq. destruct o as [q'|]; [injection Eq as <-; by apply Ho|by apply Ha].
Qed.

Lemma occupied_below_wp fuel : ∀ l,
  vi_safe → top_of t ≤ l < screen_lines t → screen_lines t - l ≤ Z.of_nat fuel →
  wp (occupied_below fuel t l (columns t - 1)) (λ q, in_grid q).
Proof using W.
  induction fuel as [|fuel IH]; intros l Hs Hl Hf; [lia|]. cbn [occupied_below]. pose proof (term_bounds R B t W) as Hb.
  wp_step. wp_use first_in_line_wp; [done|]. intros [q|] Ho; [apply wp_ret; by apply Ho|]. cbv zeta.
  assert (Hp : in_grid (mkPoint l (columns t - 1))) by (split; unfold top_of in *; simpl in *; lia).
  wp_step. apply wrap_wp; [done|]. intros x Hx. apply wp_if; intros E; [by apply wp_ret|].
  apply negb_false_iff in E. pose proof (wrapped_above _ x Hs Hp Hx E). unfold top_of in *. simpl in *. wp_step. wp_step.
  apply IH; [done|unfold top_of; simpl; lia|simpl; lia].
Qed.

Lemma first_occupied_motion_wp p : vi_safe → in_grid p → wp (first_occupied t p) (λ q, in_grid q).
Proof using W.
  intros Hs Hp. pose proof (term_bounds R B t W) as Hb. pose proof (term_dims R B t W) as Hd. unfold first_occupied.
  rewrite last_column_ok by done. cbn [mbind exec_bind]. wp_step. wp_use expand_wide_wp; [done|done|]. intros p1 Hp1.
  pose proof Hp1 as [Hl1 Hc1]. wp_step. wp_use first_in_line_wp; [exact Hl1|]. intros o Ho. cbv zeta.
  apply wp_if; intros _.
  - rewrite topmost_line_ok by done. cbn [mbind exec_bind]. wp_step. wp_use occupied_above_wp; [change (top_of (t_grid t)) with (top_of t) in Hl1; lia|exact (proj2 Hl1)|done|].
    intros [q|] Ho'; [apply wp_ret; by apply Ho'|]. apply occupied_below_wp; [done|exact Hl1|].
    by apply (line_fuel_enough R B).
  - apply wp_ret. destruct o as [q|]; [by apply Ho|]. split; [done|simpl in *; lia].
Qed.

Lemma first_loop_wp fuel : ∀ p,
  in_grid p → line p - top_of t < Z.of_nat fuel → wp (first_loop fuel t p) (λ q, in_grid q).
Proof using W.
  induction fuel as [|fuel IH]; intros p Hp Hf; [destruct Hp as [? _]; unfold top_of in *; simpl in *; lia|]. cbn [first_loop].
  pose proof (term_bounds R B t W) as Hb. pose proof (term_dims R B t W) as Hd. pose proof Hp as [Hl Hc].
  apply wp_if; intros E; [|by apply wp_ret]. rewrite topmost_line_ok by done. cbn [mbind exec_bind].
  apply wp_if; intros E'; [|by apply wp_ret]. wp_step. unfold top_of in Hl, E'. simpl in Hl, Hc, E'. wp_step.
  rewrite last_column_ok by done. cbn [mbind exec_bind].
  wp_step. apply wrap_wp; [split; unfold top_of; simpl in *; lia|]. intros x _. apply wp_if; intros _; [|by apply wp_ret].
  apply IH; [split; unfold top_of; simpl in *; lia|unfold top_of in *; simpl in *; lia].
Qed.

Lemma find_paragraph_wp step n : ∀ skipping l,
  (∀ i : nat, (i < n)%nat → top_of t ≤ l + step * Z.of_nat i < screen_lines t) →
  wp (find_paragraph n step skipping t l) (λ o, ∀ m, o = Some m → top_of t ≤ m < screen_lines t).
Proof using W.
  induction n as [|n IH]; intros skipping l Hl; cbn [find_paragraph]; [by apply wp_ret|].
  assert (Hl0 : top_of t ≤ l < screen_lines t) by (specialize (Hl 0%nat ltac:(lia)); lia).
  assert (Hnext : ∀ sk, wp (find_paragraph n step sk t (l + step)) (λ o, ∀ m, o = Some m → top_of t ≤ m < screen_lines t)).
  { intros sk. apply IH. intros i Hi. specialize (Hl (S i) ltac:(lia)). lia. }
  wp_step. apply (wp_grid_row R); [apply W|unfold g_active, top_of in *; simpl in *; lia|]. intros r _ _. cbv zeta.
  apply wp_if; intros _; [apply Hnext|]. apply wp_if; intros _; [|apply Hnext]. apply wp_ret. by intros m [= <-].
Qed.
End vi_facts.
