(* ===== verification/HintLabels.v ===== *)
(** * Labels of keyboard hints (alacritty/src/display/hint.rs, [HintLabels])

    The generator of the key sequences that select a hint.  An alphabet is split
    into tail characters, which end a label, and head characters, which do not.
    The ratio is the constant [HINT_SPLIT_PERCENTAGE] = 0.5; its product with a
    length below [2^24] is exact in [f32], so the split point is the half of
    [alphabet.len() - 1], rounded down. *)

From S2P Require Import Prelude.
From stdpp Require Import sets.
#[local] Open Scope Z_scope.

Module HintLabels.
Notation char := Z (only parsing).

Record HintLabels := mkLabels {
  alphabet : list char;
  indices : list Z;
  split_point : Z }.
Implicit Types (g : HintLabels).

Definition new (chars : list char) : exec HintLabels :=
  n ← usize_sub (zlen chars) 1;
  mret (mkLabels chars [0] (n / 2)).

(** The loop over the indices behind the first one; [true] when it returned. *)
Fixpoint increment_heads (alphabet_len split : Z) (l : list Z) : exec (list Z * bool) :=
  match l with
  | [] => mret ([], false)
  | index :: l =>
      next ← usize_add index 1;
      if next =? alphabet_len then
        reset ← usize_add split 1;
        '(l, returned) ← increment_heads alphabet_len split l;
        mret (reset :: l, returned)
      else mret (next :: l, true)
  end.

Definition increment g : exec HintLabels :=
  tail ← vec_get (indices g) 0;
  let heads := drop 1 (indices g) in
  if tail <? split_point g then
    tail ← usize_add tail 1;
    mret (mkLabels (alphabet g) (tail :: heads) (split_point g))
  else
    '(heads, returned) ← increment_heads (zlen (alphabet g)) (split_point g) heads;
    heads ← (if (returned : bool) then mret heads
             else x ← usize_add (split_point g) 1; mret (heads ++ [x]));
    mret (mkLabels (alphabet g) (0 :: heads) (split_point g)).

(** [self.indices.iter().rev().map(|index| self.alphabet[*index]).collect()] *)
Fixpoint characters (a : list char) (l : list Z) : exec (list char) :=
  match l with
  | [] => mret []
  | i :: l => c ← vec_get a i; cs ← characters a l; mret (cs ++ [c])
  end.

Definition next g : exec (list char * HintLabels) :=
  cs ← characters (alphabet g) (indices g);
  g ← increment g;
  mret (cs, g).

(** The first [n] labels. *)
Fixpoint labels (n : nat) g : exec (list (list char)) :=
  match n with
  | O => mret []
  | S n => '(l, g) ← next g; ls ← labels n g; mret (l :: ls)
  end.

(** ** The number system of the labels *)

(** The first index is a tail character, the others are head characters. *)
Definition indices_ok (n split : Z) (l : list Z) : Prop :=
  ∃ tail heads, l = tail :: heads ∧ 0 ≤ tail ≤ split ∧ Forall (λ i, split < i < n) heads.

(** The heads are digits from 1 to [base], the least significant one first. *)
Fixpoint head_value (base split : Z) (l : list Z) : Z :=
  match l with [] => 0 | d :: l => (d - split) + base * head_value base split l end.
Definition value (n split : Z) (l : list Z) : Z :=
  match l with
  | [] => 0
  | tail :: heads => tail + (split + 1) * head_value (n - 1 - split) split heads
  end.

Definition labels_ok g : Prop :=
  let n := zlen (alphabet g) in
  2 ≤ n ≤ 16777216 ∧ split_point g = (n - 1) / 2 ∧ indices_ok n (split_point g) (indices g).

Lemma split_bounds n : 2 ≤ n → 0 ≤ (n - 1) / 2 < n - 1.
Proof. intros Hn. split; [apply Z.div_pos; lia|]. apply Z.div_lt_upper_bound; lia. Qed.

Lemma increment_heads_spec n split l :
  0 ≤ split < n - 1 → n ≤ 16777216 → Forall (λ i, split < i < n) l →
  wp (increment_heads n split l) (λ '(l', returned),
    Forall (λ i, split < i < n) l' ∧
    let l'' := if (returned : bool) then l' else l' ++ [split + 1] in
    head_value (n - 1 - split) split l'' = head_value (n - 1 - split) split l + 1).
Proof.
  intros Hs Hn. induction l as [|d l IH]; intros Hl; simpl.
  - apply wp_ret. split; [done|]. simpl. lia.
  - inversion_clear Hl as [|? ? Hd Hl']. do 2 wp_step.
    destruct (Z.eqb_spec (d + 1) n) as [He|Hne].
    + do 3 wp_step. wp_use IH; [done|]. intros [l' returned] [Hf Hv]. apply wp_ret.
      split; [constructor; [lia|done]|]. destruct returned; simpl in *; rewrite Hv; nia.
    + apply wp_ret. split; [constructor; [lia|done]|]. simpl. lia.
Qed.

Lemma increment_spec g :
  labels_ok g →
  wp (increment g) (λ g', labels_ok g' ∧ alphabet g' = alphabet g ∧
    value (zlen (alphabet g)) (split_point g) (indices g')
      = value (zlen (alphabet g)) (split_point g) (indices g) + 1).
Proof.
  intros (Hn & Hsp & tail & heads & Hi & Ht & Hh). pose proof (split_bounds _ (proj1 Hn)) as Hb.
  rewrite <- Hsp in Hb. unfold increment. rewrite Hi. wp_step. apply wp_vec_get; [by vm_compute|].
  intros x [= <-]. simpl. rewrite ?drop_0. unfold labels_ok. destruct (Z.ltb_spec tail (split_point g)) as [Hlt|Hge].
  - do 3 wp_step. simpl. split; [|split; [done|lia]]. split; [done|]. split; [done|].
    exists (tail + 1), heads. split; [done|]. split; [lia|done].
  - wp_step. wp_use increment_heads_spec; [lia|lia|done|]. intros [heads' returned] [Hf Hv].
    wp_step. eapply wp_mono with (Q := λ l, l = if (returned : bool) then heads' else heads' ++ [split_point g + 1]).
    { destruct returned; [by apply wp_ret|]. do 3 wp_step. done. }
    intros l ->. apply wp_ret. simpl. split; [|split; [done|]].
    + split; [done|]. split; [done|]. eexists _, _. split; [done|]. split; [lia|].
      destruct returned; [done|]. apply Forall_app. split; [done|]. repeat constructor; lia.
    + cbv zeta in Hv. rewrite Hv. assert (tail = split_point g) by lia. nia.
Qed.

Lemma characters_spec n (a : list char) l :
  zlen a = n → Forall (λ i, 0 ≤ i < n) l →
  wp (characters a l) (λ cs, length cs = length l ∧
    ∀ i k, l !! i = Some k → cs !! (length l - 1 - i)%nat = a !! Z.to_nat k).
Proof.
  intros Hn. induction l as [|d l IH]; intros Hl; simpl.
  - apply wp_ret. split; [done|]. intros i k Hk. by rewrite lookup_nil in Hk.
  - inversion_clear Hl as [|? ? Hd Hl']. wp_step. apply wp_vec_get; [lia|]. intros c Hc.
    wp_step. wp_use IH; [done|]. intros cs [Hlen Hcs]. apply wp_ret.
    split; [rewrite length_app; simpl; lia|]. intros [|i] k Hk; simpl in Hk.
    + injection Hk as <-. rewrite Nat.sub_0_r. rewrite lookup_app_r by lia.
      replace (length l - 0 - length cs)%nat with 0%nat by lia.
      apply zlookup_spec in Hc as [_ Hc]. by rewrite Hc.
    + apply lookup_lt_Some in Hk as Hlt. rewrite lookup_app_l by lia.
      replace (length l - 0 - S i)%nat with (length l - 1 - i)%nat by lia. by apply Hcs.
Qed.

(** ** Labels are unambiguous *)

(** The label of the indices [l]. *)
Definition label_of (a : list char) (l : list Z) (cs : list char) : Prop :=
  length cs = length l ∧ ∀ i k, l !! i = Some k → cs !! (length l - 1 - i)%nat = a !! Z.to_nat k.

Lemma indices_range n split l :
  0 ≤ split < n - 1 → indices_ok n split l → Forall (λ i, 0 ≤ i < n) l.
Proof.
  intros Hs (tail & heads & -> & Ht & Hh). constructor; [lia|].
  eapply Forall_impl; [exact Hh|]. simpl. lia.
Qed.

(** The head characters and the tail characters of a label in the alphabet. *)
Lemma label_prefix n split (a : list char) l1 l2 cs1 cs2 :
  zlen a = n → NoDup a → 0 ≤ split < n - 1 →
  indices_ok n split l1 → indices_ok n split l2 →
  label_of a l1 cs1 → label_of a l2 cs2 → cs1 `prefix_of` cs2 → l1 = l2.
Proof.
  intros Hn Ha Hs H1 H2 [Hlen1 Hc1] [Hlen2 Hc2] Hp.
  pose proof (indices_range _ _ _ Hs H1) as R1. pose proof (indices_range _ _ _ Hs H2) as R2.
  (* a position counted from the start of both labels holds the same index *)
  assert (Hsame : ∀ j i1 i2 k1 k2, (j = length l1 - 1 - i1)%nat → (j = length l2 - 1 - i2)%nat →
    l1 !! i1 = Some k1 → l2 !! i2 = Some k2 → k1 = k2).
  { intros j i1 i2 k1 k2 E1 E2 L1 L2.
    pose proof (Hc1 _ _ L1) as C1. pose proof (Hc2 _ _ L2) as C2. rewrite <- E1 in C1. rewrite <- E2 in C2.
    rewrite Forall_lookup in R1, R2. pose proof (R1 _ _ L1) as B1. pose proof (R2 _ _ L2) as B2. simpl in *.
    destruct (lookup_lt_is_Some_2 a (Z.to_nat k1)) as [c Ec]; [unfold zlen in Hn; lia|].
    rewrite Ec in C1. apply (prefix_lookup_Some _ _ _ _ C1) in Hp. rewrite Hp in C2. symmetry in C2.
    pose proof (NoDup_lookup _ _ _ _ Ha Ec C2). lia. }
  pose proof (prefix_length _ _ Hp) as Hle. rewrite Hlen1, Hlen2 in Hle.
  destruct (decide (length l1 = length l2)) as [He|Hne].
  - apply list_eq. intros i. destruct (l1 !! i) as [k1|] eqn:L1.
    + destruct (lookup_lt_is_Some_2 l2 i) as [k2 L2];
        [apply lookup_lt_Some in L1; lia|]. rewrite L2. f_equal.
      apply (Hsame (length l1 - 1 - i)%nat i i); (done || lia).
    + symmetry. apply lookup_ge_None. apply lookup_ge_None in L1. lia.
  - (* the tail character of the shorter label would be a head of the longer one *)
    destruct H1 as (t1 & h1 & -> & Ht1 & _), H2 as (t2 & h2 & -> & _ & Hh2). simpl in *.
    destruct (lookup_lt_is_Some_2 (t2 :: h2) (length h2 - length h1)) as [k2 L2]; [simpl; lia|].
    assert (E : t1 = k2).
    { apply (Hsame (length h1) 0%nat (length h2 - length h1)%nat); (done || simpl; lia). }
    destruct (length h2 - length h1)%nat as [|m] eqn:Em; [lia|]. simpl in L2.
    rewrite Forall_lookup in Hh2. specialize (Hh2 _ _ L2). simpl in Hh2. lia.
Qed.

Lemma next_spec g :
  labels_ok g →
  wp (next g) (λ '(cs, g'), label_of (alphabet g) (indices g) cs ∧ labels_ok g' ∧
    alphabet g' = alphabet g ∧
    value (zlen (alphabet g)) (split_point g) (indices g')
      = value (zlen (alphabet g)) (split_point g) (indices g) + 1).
Proof.
  intros Hg. pose proof Hg as (Hn & Hsp & Hi). pose proof (split_bounds _ (proj1 Hn)) as Hb.
  unfold next. wp_step. wp_use characters_spec; [done|eapply indices_range; [|exact Hi]; lia|].
  intros cs Hcs. wp_step. wp_use increment_spec; [done|]. intros g' (Hg' & Ha & Hv). apply wp_ret.
  by split_and!.
Qed.

(** The labels of a generator: each has the indices of its number. *)
Lemma labels_spec n : ∀ g,
  labels_ok g →
  wp (labels n g) (λ ls, length ls = n ∧ ∀ i cs, ls !! i = Some cs →
    ∃ l, indices_ok (zlen (alphabet g)) (split_point g) l ∧ label_of (alphabet g) l cs ∧
      value (zlen (alphabet g)) (split_point g) l
        = value (zlen (alphabet g)) (split_point g) (indices g) + Z.of_nat i).
Proof.
  induction n as [|n IH]; intros g Hg; simpl.
  - apply wp_ret. split; [done|]. intros i cs Hi. by rewrite lookup_nil in Hi.
  - wp_step. wp_use next_spec; [done|]. intros [cs g'] (Hcs & Hg' & Ha & Hv). wp_step.
    wp_use IH; [done|]. intros ls [Hlen Hls]. apply wp_ret. split; [simpl; lia|].
    assert (Hsp : split_point g' = split_point g).
    { destruct Hg as (_ & -> & _), Hg' as (_ & -> & _). by rewrite Ha. }
    intros [|i] cs' Hi; simpl in Hi.
    + injection Hi as <-. exists (indices g). split; [apply Hg|]. split; [done|]. lia.
    + destruct (Hls i cs' Hi) as (l & Hl & Hlab & Hval). rewrite Ha, Hsp in *. exists l.
      split; [done|]. split; [done|]. lia.
Qed.

Lemma new_ok (chars : list char) :
  2 ≤ zlen chars ≤ 16777216 →
  wp (new chars) (λ g, labels_ok g ∧ alphabet g = chars).
Proof.
  intros Hn. unfold new. do 2 wp_step. apply wp_ret. split; [|done]. split; [done|]. split; [done|].
  exists 0, []. simpl. pose proof (split_bounds _ (proj1 Hn)). split; [done|]. split; [lia|done].
Qed.

(** The characters of a label come from the alphabet. *)
Lemma label_chars (a : list char) l cs :
  Forall (λ i, 0 ≤ i < zlen a) l → label_of a l cs → Forall (λ ch, ch ∈ a) cs.
Proof.
  intros Hr [Hlen Hc]. apply Forall_lookup. intros j ch Hj. apply lookup_lt_Some in Hj as Hlt.
  destruct (lookup_lt_is_Some_2 l (length l - 1 - j)) as [k Hk]; [lia|].
  specialize (Hc _ _ Hk). replace (length l - 1 - (length l - 1 - j))%nat with j in Hc by lia.
  rewrite Hj in Hc. symmetry in Hc. by eapply list_elem_of_lookup_2.
Qed.

Lemma labels_unambiguous (chars : list char) (n : nat) :
  2 ≤ zlen chars ≤ 16777216 → NoDup chars →
  ∃ g ls, new chars = Ok g ∧ labels n g = Ok ls ∧ length ls = n ∧
    Forall (λ l, l ≠ [] ∧ Forall (λ ch, ch ∈ chars) l) ls ∧
    ∀ i j li lj, ls !! i = Some li → ls !! j = Some lj → li `prefix_of` lj → i = j.
Proof.
  intros Hn Hd. pose proof (new_ok chars Hn) as G. apply wp_exists in G as (g & E & Hg & Ha).
  pose proof (labels_spec n g Hg) as G. apply wp_exists in G as (ls & El & Hlen & Hls).
  exists g, ls. split; [done|]. split; [done|]. split; [done|].
  destruct Hg as (_ & Hsp & _). rewrite Ha in Hsp, Hls.
  pose proof (split_bounds _ (proj1 Hn)) as Hb. rewrite <- Hsp in Hb. split.
  - apply Forall_lookup. intros i cs Hi. destruct (Hls i cs Hi) as (l & Hl & Hc & _). split.
    + destruct Hl as (tl & hd & -> & _), Hc as [Hl' _]. by destruct cs.
    + eapply label_chars; [|exact Hc]. by eapply indices_range.
  - intros i j li lj Hi Hj Hp. destruct (Hls i li Hi) as (l1 & H1 & Hl1 & Hv1).
    destruct (Hls j lj Hj) as (l2 & H2 & Hl2 & Hv2).
    rewrite (label_prefix (zlen chars) (split_point g) chars l1 l2 li lj) in Hv1 by done. lia.
Qed.
End HintLabels.
