(* ===== verification/Hints.v ===== *)
(** * Keyboard hints (alacritty/src/display/hint.rs)

    Visible matches of a hint's expression and hyperlinks, the labels shown on
    them and the selection of a match with the keyboard. *)

From S2P Require Import Prelude Index Ansi GridCell Row Storage Cell Grid GridFacts GridOps.
From S2P Require Import Selection Term Search RegexSearch HintLabels.
From stdpp Require Import sorting.
#[local] Open Scope Z_scope.

Definition MAX_SEARCH_LINES : Z := 100.

(** The parts of [config::ui_config::Hint] that the code here uses; [h_regex] is
    the compiled expression. *)
Record HintMouse := mkHintMouse { hint_mouse_enabled : bool; hint_mouse_mods : Z }.
(** [HintAction]: a command with its arguments, or a built-in action. *)
Inductive HintAction :=
  | HintCommand (program : text) (args : list text)
  | HintCopy | HintPaste | HintSelect | HintMoveViModeCursor.
Record Hint := mkHint {
  h_hyperlinks : bool;
  h_regex : option RegexSearch;
  h_post_processing : bool;
  h_persist : bool;
  h_mouse : option HintMouse;
  h_action : HintAction }.

Record HintState := mkHints {
  hs_hint : option Hint;
  hs_alphabet : list char;
  hs_matches : list Match;
  hs_labels : list (list char);
  hs_keys : list char }.

Record HintMatch := mkHintMatch {
  hm_bounds : Match;
  hm_hyperlink : option Hyperlink;
  hm_hint : Hint }.

Definition hints_new (alphabet : list char) : HintState := mkHints None alphabet [] [] [].
Definition hints_active (h : HintState) : bool := match hs_hint h with Some _ => true | None => false end.
Definition hints_start (hint : Hint) (h : HintState) : HintState :=
  mkHints (Some hint) (hs_alphabet h) (hs_matches h) (hs_labels h) (hs_keys h).
Definition hints_stop (h : HintState) : HintState := mkHints None (hs_alphabet h) [] [] [].
Definition update_alphabet (alphabet : list char) (h : HintState) : HintState :=
  if bool_decide (hs_alphabet h = alphabet) then h
  else mkHints (hs_hint h) alphabet (hs_matches h) (hs_labels h) [].

(** ** Sorting *)

(** [sort_by_key(|bounds| (start, Reverse(end)))], a stable sort. *)
Definition match_before (m m' : Match) : bool :=
  point_lt (m_start m) (m_start m') ||
  (bool_decide (m_start m = m_start m') && point_ge (m_end m) (m_end m')).
Fixpoint insert_match (m : Match) (l : list Match) : list Match :=
  match l with
  | [] => [m]
  | m' :: l' => if match_before m m' then m :: l else m' :: insert_match m l'
  end.
Definition sort_matches (l : list Match) : list Match := foldr insert_match [] l.

(** [dedup_by_key(|bounds| start)]: [m] is the last match that was kept. *)
Fixpoint dedup_from (m : Match) (l : list Match) : list Match :=
  match l with
  | [] => [m]
  | m' :: l => if bool_decide (m_start m' = m_start m) then dedup_from m l else m :: dedup_from m' l
  end.
Definition dedup_matches (l : list Match) : list Match :=
  match l with [] => [] | m :: l => dedup_from m l end.

Section hints.
Context `{Ansi}.
Implicit Types (t : Term) (p : Point) (h : HintState).

(** ** Hyperlinks *)

(** [visible_unique_hyperlinks_iter] over the cells of [display_iter]: the first
    occurrence of every hyperlink, with the cells that continue it. *)
Fixpoint hyperlink_end (link : Hyperlink) (end_ : Point) (cells : list (Point * Cell))
    : Point * list (Point * Cell) :=
  match cells with
  | (p, x) :: rest =>
      if bool_decide (hyperlink x = Some link) then hyperlink_end link p rest else (end_, cells)
  | [] => (end_, [])
  end.

Fixpoint unique_hyperlinks (fuel : nat) (seen : list Hyperlink) (cells : list (Point * Cell))
    : exec (list Match) :=
  match fuel with
  | O => Panic OutOfFuel
  | S fuel =>
      match cells with
      | [] => mret []
      | (p, x) :: rest =>
          match hyperlink x with
          | Some link =>
              if bool_decide (link ∈ seen) then unique_hyperlinks fuel seen rest
              else
                let '(end_, rest) := hyperlink_end link p rest in
                ms ← unique_hyperlinks fuel (link :: seen) rest;
                mret (mkMatch p end_ :: ms)
          | None => unique_hyperlinks fuel seen rest
          end
      end
  end.

Definition visible_unique_hyperlinks t : exec (list Match) :=
  it ← display_iter (t_grid t);
  n ← iter_size_hint (t_grid t) it;
  cells ← iter_collect (Z.to_nat n + 1) (t_grid t) it;
  unique_hyperlinks (length cells + 1) [] cells.

(** The cells around [p] with the same hyperlink, in one direction. *)
Fixpoint hyperlink_run (fuel : nat) (forward : bool) t (link : Hyperlink) (p : Point)
    (it : GridIterator) : exec Point :=
  match fuel with
  | O => Panic OutOfFuel
  | S fuel =>
      '(item, it) ← iter_step forward (t_grid t) it;
      match item with
      | Some (q, x) =>
          if bool_decide (hyperlink x = Some link) then hyperlink_run fuel forward t link q it
          else mret p
      | None => mret p
      end
  end.

Definition hyperlink_at t p : exec (option (Hyperlink * Match)) :=
  x ← grid_cell (t_grid t) p;
  match hyperlink x with
  | None => mret None
  | Some link =>
      it ← iter_from (t_grid t) p;
      match_end ← hyperlink_run (cell_fuel t) true t link p it;
      match_start ← hyperlink_run (cell_fuel t) false t link p it;
      mret (Some (link, mkMatch match_start match_end))
  end.

(** ** Visible matches *)

Section visible.
Context (fuel n : nat).

(** All matches of an iterator; [n] bounds their number. *)
Fixpoint regex_iter_collect (n : nat) (regex : RegexSearch) t (ri : RegexIter) : exec (list Match) :=
  match n with
  | O => Panic OutOfFuel
  | S n =>
      '(m, ri) ← regex_iter_next fuel regex t ri;
      match m with
      | None => mret []
      | Some m => ms ← regex_iter_collect n regex t ri; mret (m :: ms)
      end
  end.

Fixpoint skip_while {A} (P : A → bool) (l : list A) : list A :=
  match l with [] => [] | x :: l' => if P x then skip_while P l' else l end.
Fixpoint take_while {A} (P : A → bool) (l : list A) : list A :=
  match l with [] => [] | x :: l' => if P x then x :: take_while P l' else [] end.

(** The lines of the viewport and the range of the search. *)
Definition visible_range t : exec (Z * Z * Point * Point) :=
  viewport_start ← i32_neg (as_i32 (display_offset (t_grid t)));
  bottom ← bottommost_line t;
  viewport_end ← i32_add viewport_start bottom;
  start ← line_search_left t (mkPoint viewport_start 0);
  end_ ← line_search_right t (mkPoint viewport_end 0);
  first ← line_sub_usize viewport_start MAX_SEARCH_LINES;
  last ← line_add_usize viewport_end MAX_SEARCH_LINES;
  mret (viewport_start, viewport_end, mkPoint (Z.max (line start) first) (column start),
        mkPoint (Z.min (line end_) last) (column end_)).

Definition visible_regex_matches (regex : RegexSearch) t : exec (list Match) :=
  '(viewport_start, viewport_end, start, end_) ← visible_range t;
  ms ← regex_iter_collect n regex t (regex_iter_new start end_ Right);
  mret (take_while (λ m, line (m_start m) <=? viewport_end)
         (skip_while (λ m, line (m_end m) <? viewport_start) ms)).

(** [visible_regex_match_iter(..).find(P)], which stops at the match that is
    found; [skipping] is the state of [skip_while]. *)
Fixpoint visible_regex_find (k : nat) (regex : RegexSearch) t (first last : Z) (P : Match → bool)
    (skipping : bool) (ri : RegexIter) : exec (option Match) :=
  match k with
  | O => Panic OutOfFuel
  | S k =>
      '(m, ri) ← regex_iter_next fuel regex t ri;
      match m with
      | None => mret None
      | Some m =>
          if skipping && (line (m_end m) <? first)
          then visible_regex_find k regex t first last P true ri
          else if negb (line (m_start m) <=? last) then mret None
          else if P m then mret (Some m)
          else visible_regex_find k regex t first last P false ri
      end
  end.

(** *** Post processing *)

(** Truncate at a bracket that was not opened; the iterator and the last
    character. *)
Fixpoint truncate_brackets (k : nat) t (end_ : Point) (open_parents open_brackets : Z) (ch : char)
    (it : GridIterator) : exec (char * GridIterator) :=
  match k with
  | O => Panic OutOfFuel
  | S k =>
      let back := '(_, it) ← iter_prev (t_grid t) it; mret (ch, it) in
      let go op ob :=
        if bool_decide (it_point it = end_) then mret (ch, it)
        else
          '(item, it) ← iter_next (t_grid t) it;
          match item with
          | Some (_, x) => truncate_brackets k t end_ op ob (c x) it
          | None => mret (ch, it)
          end in
      if ch =? 40 then go (open_parents + 1) open_brackets
      else if ch =? 91 then go open_parents (open_brackets + 1)
      else if ch =? 41 then
        if open_parents =? 0 then back else go (open_parents - 1) open_brackets
      else if ch =? 93 then
        if open_brackets =? 0 then back else go open_parents (open_brackets - 1)
      else go open_parents open_brackets
  end.

(** [. , : ; ? ! ( [ '] *)
Definition is_delimiter (ch : char) : bool :=
  existsb (Z.eqb ch) [46; 44; 58; 59; 63; 33; 40; 91; 39].

Fixpoint truncate_delimiters (k : nat) t (start : Point) (ch : char) (it : GridIterator)
    : exec GridIterator :=
  match k with
  | O => Panic OutOfFuel
  | S k =>
      if bool_decide (it_point it = start) || negb (is_delimiter ch) then mret it
      else
        '(item, it) ← iter_prev (t_grid t) it;
        match item with
        | Some (_, x) => truncate_delimiters k t start (c x) it
        | None => mret it
        end
  end.

Definition hint_post_processing t (m : Match) : exec (option Match) :=
  it ← iter_from (t_grid t) (m_start m);
  x ← grid_cell (t_grid t) (m_start m);
  '(ch, it) ← truncate_brackets (cell_fuel t) t (m_end m) 0 0 (c x) it;
  it ← truncate_delimiters (cell_fuel t) t (m_start m) ch it;
  mret (if point_gt (m_start m) (it_point it) then None
        else Some (mkMatch (m_start m) (it_point it))).

(** [next_processed_match]: the next match and the start of the next search. *)
Fixpoint next_processed_match (k : nat) (regex : RegexSearch) t (end_ : Point) (m : Match)
    : exec (option Match * Point) :=
  match k with
  | O => Panic OutOfFuel
  | S k =>
      r ← hint_post_processing t m;
      match r with
      | Some next => start ← point_add (m_end next) t BGrid 1; mret (Some next, start)
      | None =>
          start ← point_add (m_start m) t BGrid 1;
          if point_gt start end_ then mret (None, start)
          else
            rm ← regex_search_right fuel regex t start end_;
            match rm with
            | Some rm => next_processed_match k regex t end_ rm
            | None => mret (None, start)
            end
      end
  end.

(** The match behind the one that [HintPostProcessor::next] returns. *)
Definition following_match (regex : RegexSearch) t (end_ start : Point) : exec (option Match * Point) :=
  if point_le start end_ then
    rm ← regex_search_right fuel regex t start end_;
    match rm with
    | Some rm => next_processed_match n regex t end_ rm
    | None => mret (None, start)
    end
  else mret (None, start).

(** The matches of a [HintPostProcessor]. *)
Fixpoint post_processed (k : nat) (regex : RegexSearch) t (end_ : Point) (next : option Match)
    (start : Point) : exec (list Match) :=
  match k with
  | O => Panic OutOfFuel
  | S k =>
      match next with
      | None => mret []
      | Some m =>
          '(next, start) ← following_match regex t end_ start;
          ms ← post_processed k regex t end_ next start;
          mret (m :: ms)
      end
  end.

Definition post_process (regex : RegexSearch) t (m : Match) : exec (list Match) :=
  '(next, start) ← next_processed_match n regex t (m_end m) m;
  post_processed n regex t (m_end m) next start.

Fixpoint post_process_all (regex : RegexSearch) t (l : list Match) : exec (list Match) :=
  match l with
  | [] => mret []
  | m :: l => ms ← post_process regex t m; ms' ← post_process_all regex t l; mret (ms ++ ms')
  end.

(** [HintPostProcessor::find]. *)
Fixpoint post_processed_find (k : nat) (regex : RegexSearch) t (P : Match → bool) (end_ : Point)
    (next : option Match) (start : Point) : exec (option Match) :=
  match k with
  | O => Panic OutOfFuel
  | S k =>
      match next with
      | None => mret None
      | Some m =>
          '(next, start) ← following_match regex t end_ start;
          if P m then mret (Some m) else post_processed_find k regex t P end_ next start
      end
  end.

(** ** The match at a point *)

Definition match_contains (m : Match) p : bool := point_le (m_start m) p && point_le p (m_end m).

Definition regex_match_at t p (regex : RegexSearch) (post_processing : bool) : exec (option Match) :=
  '(first, last, start, end_) ← visible_range t;
  rm ← visible_regex_find n regex t first last (λ m, match_contains m p) true
         (regex_iter_new start end_ Right);
  match rm with
  | None => mret None
  | Some m =>
      if post_processing then
        '(next, start) ← next_processed_match n regex t (m_end m) m;
        post_processed_find n regex t (λ m, match_contains m p) (m_end m) next start
      else mret (Some m)
  end.

(** The modifiers are the bits of winit's [ModifiersState], with its [SHIFT]. *)
Fixpoint highlighted_at (SHIFT : Z) t p (mouse_mods : Z) (hints : list Hint) : exec (option HintMatch) :=
  match hints with
  | [] => mret None
  | hint :: hints =>
      let mouse_mode := Bitflags.intersects (t_mode t) TermMode.MOUSE_MODE in
      let highlight := match h_mouse hint with
                       | Some mouse => hint_mouse_enabled mouse
                           && Bitflags.contains mouse_mods (hint_mouse_mods mouse)
                           && (negb mouse_mode || Bitflags.contains mouse_mods SHIFT)
                       | None => false
                       end in
      if negb highlight then highlighted_at SHIFT t p mouse_mods hints
      else
        link ← (if h_hyperlinks hint then hyperlink_at t p else mret None);
        match link with
        | Some (link, bounds) => mret (Some (mkHintMatch bounds (Some link) hint))
        | None =>
            bounds ← (match h_regex hint with
                      | Some regex => regex_match_at t p regex (h_post_processing hint)
                      | None => mret None
                      end);
            match bounds with
            | Some bounds => mret (Some (mkHintMatch bounds None hint))
            | None => highlighted_at SHIFT t p mouse_mods hints
            end
        end
  end.

Definition should_highlight (hm : HintMatch) p (pointed : option Hyperlink) : bool :=
  bool_decide (hm_hyperlink hm = pointed) &&
  (bool_decide (is_Some (hm_hyperlink hm)) || match_contains (hm_bounds hm) p).

(** [HintMatch::text]. *)
Definition hint_text (hm : HintMatch) t : exec (option text) :=
  match hm_hyperlink hm with
  | Some link =>
      r ← hyperlink_at t (m_start (hm_bounds hm));
      match r with
      | None => mret None
      | Some (validated, bounds) =>
          mret (if bool_decide (validated = link) && bool_decide (bounds = hm_bounds hm)
                then Some (hyperlink_uri link) else None)
      end
  | None =>
      match h_regex (hm_hint hm) with
      | None => mret None
      | Some regex =>
          r ← regex_match_at t (m_start (hm_bounds hm)) regex (h_post_processing (hm_hint hm));
          match r with
          | None => mret None
          | Some bounds =>
              if bool_decide (bounds = hm_bounds hm)
              then s ← bounds_to_string t (m_start bounds) (m_end bounds); mret (Some s)
              else mret None
          end
      end
  end.

(** The matches that [update_matches] collects. *)
Definition visible_matches (hint : Hint) t : exec (list Match) :=
  links ← (if h_hyperlinks hint then visible_unique_hyperlinks t else mret []);
  ms ← (match h_regex hint with
        | None => mret []
        | Some regex =>
            ms ← visible_regex_matches regex t;
            if h_post_processing hint then post_process_all regex t ms else mret ms
        end);
  mret (links ++ ms).

(** ** The state *)

(** The rest of a label behind the keys that were pressed. *)
Definition label_rest (keys label : list char) : list char :=
  if (zlen keys <=? zlen label) && bool_decide (take (length keys) label = keys)
  then drop (length keys) label else [].

Definition update_matches t h : exec HintState :=
  match hs_hint h with
  | None => mret h
  | Some hint =>
      found ← visible_matches hint t;
      if bool_decide (found = []) then mret (hints_stop h)
      else
        let ms := dedup_matches (sort_matches found) in
        g ← HintLabels.new (hs_alphabet h);
        labels ← HintLabels.labels (length ms) g;
        mret (mkHints (Some hint) (hs_alphabet h) ms (reverse (label_rest (hs_keys h) <$> labels))
                (hs_keys h))
  end.

(** [labels.iter().enumerate().rev().find(..)]: the last label that starts with
    the character. *)
Fixpoint find_label (ch : char) (i : nat) (labels : list (list char)) : option (nat * list char) :=
  match labels with
  | [] => None
  | l :: labels =>
      match find_label ch (S i) labels with
      | Some r => Some r
      | None => match l with x :: _ => if x =? ch then Some (i, l) else None | [] => None end
      end
  end.

Definition keyboard_input t (ch : char) h : exec (HintState * option HintMatch) :=
  let h :=
    if (ch =? 8) || (ch =? 31) then
      mkHints (hs_hint h) (hs_alphabet h) (hs_matches h) (hs_labels h)
        (take (pred (length (hs_keys h))) (hs_keys h))
    else if (ch =? 27) || (ch =? 3) then hints_stop h else h in
  h ← update_matches t h;
  match hs_hint h with
  | None => mret (h, None)
  | Some hint =>
      match find_label ch 0 (hs_labels h) with
      | None => mret (h, None)
      | Some (index, label) =>
          if Nat.eqb (length label) 1 then
            bounds ← vec_get (hs_matches h) (Z.of_nat index);
            let h := if h_persist hint
                     then mkHints (Some hint) (hs_alphabet h) (hs_matches h) (hs_labels h) []
                     else hints_stop h in
            x ← grid_cell (t_grid t) (m_start bounds);
            mret (h, Some (mkHintMatch bounds (hyperlink x) hint))
          else
            mret (mkHints (Some hint) (hs_alphabet h) (hs_matches h) (hs_labels h)
                    (hs_keys h ++ [ch]), None)
      end
  end.
End visible.
End hints.
