(* ===== verification/Scheduler.v ===== *)
(** * Timers (alacritty/src/scheduler.rs)

    The scheduler of the application: a queue of timers ordered by deadline.
    The events it sends and the identifiers of windows belong to other parts of
    the application and stay abstract; instants and durations are integers
    (nanoseconds), and every call of [Instant::now()] is an argument. *)

From S2P Require Import Prelude.
From stdpp Require Import sorting sets.
#[local] Open Scope Z_scope.

Module Scheduler.

(** Available timer topics. *)
Inductive Topic :=
  | SelectionScrolling
  | DelayedSearch
  | BlinkCursor
  | BlinkTimeout
  | Frame.
#[global] Instance Topic_eq_dec : EqDecision Topic.
Proof. solve_decision. Defined.

Lemma filter_keeps {A} (P : A → Prop) `{∀ x, Decision (P x)} (l : list A) :
  Forall P l → filter P l = l.
Proof. induction 1; [done|]. by rewrite filter_cons, decide_True, IHForall. Qed.

Lemma filter_drops {A} (P : A → Prop) `{∀ x, Decision (P x)} (l : list A) :
  Forall (λ x, ¬ P x) l → filter P l = [].
Proof. induction 1; [done|]. by rewrite filter_cons, decide_False. Qed.

Section scheduler.
Context {Event WindowId : Type} `{!EqDecision WindowId}.

Record TimerId := mkTimerId { topic : Topic; window_id : WindowId }.
#[global] Instance TimerId_eq_dec : EqDecision TimerId.
Proof. solve_decision. Defined.

Record Timer := mkTimer {
  deadline : Z;
  event : Event;
  id : TimerId;
  interval : option Z }.

(** [sent] are the events passed to [event_proxy], oldest first. *)
Record Scheduler := mkScheduler { timers : list Timer; sent : list Event }.
Implicit Types (s : Scheduler) (t : Timer) (l : list Timer).

Definition new : Scheduler := mkScheduler [] [].

(** [VecDeque::insert] at the first position whose timer is later than [t]. *)
Fixpoint insert_timer t l : list Timer :=
  match l with
  | [] => [t]
  | t' :: l' => if deadline t <? deadline t' then t :: l else t' :: insert_timer t l'
  end.

Definition schedule (now : Z) (ev : Event) (iv : Z) (repeat : bool) (timer_id : TimerId) s
    : Scheduler :=
  let t := mkTimer (now + iv) ev timer_id (if repeat then Some iv else None) in
  mkScheduler (insert_timer t (timers s)) (sent s).

(** Cancel the first timer with this identifier; returns it. *)
Fixpoint remove_timer (i : TimerId) l : option Timer * list Timer :=
  match l with
  | [] => (None, [])
  | t :: l =>
      if bool_decide (id t = i) then (Some t, l)
      else let '(found, l') := remove_timer i l in (found, t :: l')
  end.

Definition unschedule (i : TimerId) s : option Timer * Scheduler :=
  let '(found, l) := remove_timer i (timers s) in (found, mkScheduler l (sent s)).

Definition scheduled (i : TimerId) s : bool :=
  existsb (λ t, bool_decide (id t = i)) (timers s).

Definition unschedule_window (w : WindowId) s : Scheduler :=
  mkScheduler (filter (λ t, window_id (id t) ≠ w) (timers s)) (sent s).

(** The loop of [update]: [now] is read once, [clock i] is what the [i]-th call
    of [schedule] reads, [fuel] bounds the iterations. *)
Fixpoint update_loop (fuel : nat) (now : Z) (clock : nat → Z) (i : nat) s : exec Scheduler :=
  match fuel with
  | O => Panic OutOfFuel
  | S fuel =>
      match timers s with
      | [] => mret s
      | t :: rest =>
          if deadline t <=? now then
            let s := mkScheduler rest (sent s) in
            let '(s, i) := match interval t with
                           | Some iv => (schedule (clock i) (event t) iv true (id t) s, S i)
                           | None => (s, i)
                           end in
            update_loop fuel now clock i (mkScheduler (timers s) (sent s ++ [event t]))
          else mret s
      end
  end.

Definition update (fuel : nat) (now : Z) (clock : nat → Z) s : exec (Scheduler * option Z) :=
  s ← update_loop fuel now clock 0 s;
  mret (s, deadline <$> head (timers s)).

(** ** The order of the queue *)

Definition earlier t t' : Prop := deadline t ≤ deadline t'.
Definition sorted s : Prop := StronglySorted earlier (timers s).

Lemma insert_timer_elem t t' l : t' ∈ insert_timer t l ↔ t' = t ∨ t' ∈ l.
Proof.
  induction l as [|x l IH]; simpl; [set_solver|]. case_match; set_solver.
Qed.

Lemma insert_timer_perm t l : insert_timer t l ≡ₚ t :: l.
Proof.
  induction l as [|x l IH]; simpl; [done|]. case_match; [done|].
  rewrite IH. apply Permutation_swap.
Qed.

Lemma insert_timer_sorted t l :
  StronglySorted earlier l → StronglySorted earlier (insert_timer t l).
Proof.
  induction 1 as [|x l Hl IH Hx]; simpl; [by repeat constructor|].
  destruct (Z.ltb_spec (deadline t) (deadline x)) as [Hlt|Hge].
  - constructor; [by constructor|]. constructor; [unfold earlier; lia|].
    eapply Forall_impl; [exact Hx|]. unfold earlier. lia.
  - constructor; [done|]. rewrite Forall_forall in Hx |- *. intros y Hy.
    apply insert_timer_elem in Hy as [->|Hy]; [exact Hge|by apply Hx].
Qed.

(** Equal deadlines fire in the order in which they were scheduled: the new
    timer comes after all timers that are not later. *)
Lemma insert_timer_split t l :
  StronglySorted earlier l →
  insert_timer t l = filter (λ x, deadline x ≤ deadline t) l ++ t ::
                     filter (λ x, ¬ deadline x ≤ deadline t) l.
Proof.
  induction 1 as [|x l Hl IH Hx]; simpl; [done|].
  rewrite !filter_cons. destruct (Z.ltb_spec (deadline t) (deadline x)) as [Hlt|Hge].
  - rewrite decide_False by lia. rewrite decide_True by lia.
    assert (Hall : Forall (λ y, ¬ deadline y ≤ deadline t) l).
    { eapply Forall_impl; [exact Hx|]. unfold earlier. lia. }
    rewrite (filter_drops (λ y, deadline y ≤ deadline t)) by done.
    by rewrite (filter_keeps (λ y, ¬ deadline y ≤ deadline t)).
  - rewrite decide_True by lia. rewrite decide_False by lia. simpl. by rewrite IH.
Qed.

Lemma remove_timer_spec i l :
  match remove_timer i l with
  | (Some t, l') => id t = i ∧ ∃ l1 l2, l = l1 ++ t :: l2 ∧ l' = l1 ++ l2 ∧
                    Forall (λ x, id x ≠ i) l1
  | (None, l') => l' = l ∧ Forall (λ x, id x ≠ i) l
  end.
Proof.
  induction l as [|x l IH]; simpl; [by split|].
  case_bool_decide as Hx; [split; [done|]; by exists [], l|].
  destruct (remove_timer i l) as [[t|] l'].
  - destruct IH as (Hi & l1 & l2 & -> & -> & Hl). split; [done|].
    exists (x :: l1), l2. split; [done|]. split; [done|by constructor].
  - destruct IH as [-> Hl]. split; [done|by constructor].
Qed.

Lemma sorted_sublist l l' : l' `sublist_of` l → StronglySorted earlier l → StronglySorted earlier l'.
Proof.
  intros Hs. induction Hs as [|x l1 l2 Hs IH|x l1 l2 Hs IH]; intros H; [done| |].
  - inversion_clear H as [|? ? Hl Hx]. constructor; [by apply IH|].
    rewrite Forall_forall in Hx |- *. intros y Hy. apply Hx. by eapply elem_of_sublist.
  - inversion_clear H. by apply IH.
Qed.

(** ** What [update] does *)

(** The timers that are due and those that are not. *)
Definition due (now : Z) l : list Timer := filter (λ t, deadline t ≤ now) l.
Definition pending (now : Z) l : list Timer := filter (λ t, ¬ deadline t ≤ now) l.

(** The timers that the repeating ones among [l] schedule. *)
Fixpoint rescheduled (clock : nat → Z) (i : nat) l : list Timer :=
  match l with
  | [] => []
  | t :: l =>
      match interval t with
      | Some iv => mkTimer (clock i + iv) (event t) (id t) (Some iv) :: rescheduled clock (S i) l
      | None => rescheduled clock i l
      end
  end.

(** Repeating timers have a positive interval. *)
Definition repeats_ok l : Prop := Forall (λ t, from_option (λ iv, 0 < iv) True (interval t)) l.

Lemma due_insert now t l :
  now < deadline t →
  due now (insert_timer t l) = due now l ∧ pending now (insert_timer t l) ≡ₚ t :: pending now l.
Proof.
  intros Ht. unfold due, pending. split.
  - induction l as [|x l IH]; simpl.
    + by rewrite filter_cons, decide_False by lia.
    + case_match; rewrite !filter_cons; [by rewrite (decide_False (P := deadline t ≤ now)) by lia|].
      by rewrite IH.
  - rewrite insert_timer_perm, filter_cons, decide_True by lia. done.
Qed.

(** The timers left when nothing is due any more. *)
Definition updated (now : Z) (clock : nat → Z) (i : nat) s (s' : Scheduler) : Prop :=
  sorted s' ∧ sent s' = sent s ++ (event <$> due now (timers s)) ∧
  timers s' ≡ₚ rescheduled clock i (due now (timers s)) ++ pending now (timers s) ∧
  Forall (λ t, now < deadline t) (timers s').

Lemma update_loop_spec now clock :
  (∀ k, now ≤ clock k) →
  ∀ fuel i s, sorted s → repeats_ok (timers s) → (length (due now (timers s)) < fuel)%nat →
  wp (update_loop fuel now clock i s) (updated now clock i s).
Proof.
  intros Hclock fuel. induction fuel as [|fuel IH]; [lia|].
  intros i [l out] Hs Hr Hf. unfold sorted in Hs. simpl in *. destruct l as [|t l].
  { apply wp_ret. split; [done|]. split; [by rewrite app_nil_r|]. by split. }
  inversion_clear Hs as [|? ? Hl Ht]. inversion_clear Hr as [|? ? Hiv Hr'].
  destruct (Z.leb_spec (deadline t) now) as [Hdue|Hnot].
  - unfold due in Hf. rewrite filter_cons, decide_True in Hf by done. simpl in Hf.
    assert (Hd : due now (t :: l) = t :: due now l)
      by (unfold due; by rewrite filter_cons, decide_True).
    assert (Hp : pending now (t :: l) = pending now l)
      by (unfold pending; rewrite filter_cons, decide_False by lia; done).
    destruct (interval t) as [iv|] eqn:Eiv; simpl in Hiv.
    + set (t' := mkTimer (clock i + iv) (event t) (id t) (Some iv)).
      specialize (Hclock i) as Hci.
      destruct (due_insert now t' l) as [Hdi Hpi]; [simpl; lia|]. simpl.
      wp_use (IH (S i)); simpl.
      * by apply insert_timer_sorted.
      * unfold repeats_ok. rewrite insert_timer_perm. by constructor.
      * change (length (due now (insert_timer t' l)) < fuel)%nat. rewrite Hdi. unfold due. lia.
      * intros s' (Hs' & Hout & Hperm & Hlate). unfold updated. simpl in *.
        fold t' in Hout, Hperm. rewrite Hdi in Hout, Hperm. rewrite Hd, Hp. simpl. rewrite Eiv.
        split; [done|]. split; [by rewrite Hout, <- app_assoc|]. split; [|done].
        rewrite Hperm, Hpi. fold t'. simpl. by rewrite Permutation_middle.
    + simpl. wp_use (IH i); simpl; [done|done|unfold due; lia|].
      intros s' (Hs' & Hout & Hperm & Hlate). unfold updated. simpl in *. rewrite Hd, Hp. simpl.
      rewrite Eiv. split_and!; try done. by rewrite Hout, <- app_assoc.
  - apply wp_ret. unfold updated. simpl.
    assert (Hlate : Forall (λ x, now < deadline x) (t :: l)).
    { constructor; [lia|]. eapply Forall_impl; [exact Ht|]. unfold earlier. lia. }
    unfold due, pending. rewrite filter_drops, filter_keeps; simpl.
    + rewrite app_nil_r. split; [by constructor|]. done.
    + eapply Forall_impl; [exact Hlate|]. simpl. lia.
    + eapply Forall_impl; [exact Hlate|]. simpl. lia.
Qed.

(** ** Sequences of operations *)

(** The states of a scheduler: the clock does not run backwards and repeating
    timers have a positive interval. *)
Inductive reachable : Scheduler → Prop :=
  | reach_new : reachable new
  | reach_schedule now ev iv (repeat : bool) i s :
      reachable s → (repeat = true → 0 < iv) → reachable (schedule now ev iv repeat i s)
  | reach_unschedule i s : reachable s → reachable (unschedule i s).2
  | reach_unschedule_window w s : reachable s → reachable (unschedule_window w s)
  | reach_update fuel now clock s s' next :
      reachable s → (∀ k, now ≤ clock k) → update fuel now clock s = Ok (s', next) →
      reachable s'.

Lemma rescheduled_ok clock l : ∀ i, repeats_ok l → repeats_ok (rescheduled clock i l).
Proof.
  induction l as [|t l IH]; intros i Hr; simpl; [done|]. inversion_clear Hr as [|? ? Hiv Hl].
  destruct (interval t); [constructor; [done|]|]; by apply IH.
Qed.

Lemma repeats_sublist l l' : l' `sublist_of` l → repeats_ok l → repeats_ok l'.
Proof.
  unfold repeats_ok. rewrite !Forall_forall. intros Hs Hr t Ht. apply Hr.
  by eapply elem_of_sublist.
Qed.

(** More iterations than there are due timers do not change the result. *)
Lemma update_loop_fuel now clock fuel fuel' : ∀ i s s' s'',
  update_loop fuel now clock i s = Ok s' → update_loop fuel' now clock i s = Ok s'' → s' = s''.
Proof.
  revert fuel'. induction fuel as [|fuel IH]; intros [|fuel'] i s s' s'' E E'; try done.
  simpl in E, E'. destruct (timers s) as [|t l]; [congruence|].
  destruct (deadline t <=? now); [|congruence].
  destruct (interval t); by eapply IH.
Qed.

Lemma update_updated fuel now clock s s' next :
  sorted s → repeats_ok (timers s) → (∀ k, now ≤ clock k) →
  update fuel now clock s = Ok (s', next) →
  updated now clock 0 s s' ∧ next = deadline <$> head (timers s').
Proof.
  intros Hs Hr Hc E. unfold update in E.
  destruct (update_loop fuel now clock 0 s) as [s0|] eqn:E0; simpl in E; [|done].
  injection E as -> <-. split; [|done].
  pose proof (update_loop_spec now clock Hc (S (length (due now (timers s)))) 0 s Hs Hr ltac:(lia))
    as G. apply wp_exists in G as (s1 & E1 & G). by rewrite (update_loop_fuel _ _ _ _ _ _ _ _ E0 E1).
Qed.

Lemma reachable_sorted s : reachable s → sorted s ∧ repeats_ok (timers s).
Proof.
  induction 1 as [|now ev iv repeat i s _ [Hs Hr] Hiv|i s _ [Hs Hr]|w s _ [Hs Hr]
    |fuel now clock s s' next _ [Hs Hr] Hc E].
  - split; constructor.
  - split; [by apply insert_timer_sorted|]. unfold repeats_ok. simpl.
    rewrite insert_timer_perm. constructor; [|done]. destruct repeat; simpl; auto.
  - unfold unschedule. pose proof (remove_timer_spec i (timers s)) as G.
    destruct (remove_timer i (timers s)) as [[t|] l]; simpl.
    + destruct G as (_ & l1 & l2 & E & -> & _).
      assert (Hsub : l1 ++ l2 `sublist_of` timers s).
      { rewrite E. apply sublist_app; [done|]. by apply sublist_cons. }
      split; [by eapply sorted_sublist|by eapply repeats_sublist].
    + destruct G as [-> _]. by split.
  - assert (Hsub : timers (unschedule_window w s) `sublist_of` timers s) by apply sublist_filter.
    split; [by eapply sorted_sublist|by eapply repeats_sublist].
  - destruct (update_updated _ _ _ _ _ _ Hs Hr Hc E) as [(Hs' & _ & Hp & _) _].
    split; [done|]. unfold repeats_ok. rewrite Hp. apply Forall_app. split.
    + apply rescheduled_ok. eapply repeats_sublist; [apply sublist_filter|done].
    + eapply repeats_sublist; [apply sublist_filter|done].
Qed.


(** Cancelling: [unschedule] removes the first timer with the identifier and
    returns it, [unschedule_window] removes the timers of the window; all others
    keep their order. *)
Theorem scheduler_cancels s (i : TimerId) (w : WindowId) :
  (let '(found, s') := unschedule i s in
   is_Some found ↔ scheduled i s = true) ∧
  (∀ i', window_id i' = w → scheduled i' (unschedule_window w s) = false) ∧
  (∀ i', window_id i' ≠ w → scheduled i' (unschedule_window w s) = scheduled i' s).
Proof.
  split; [|split].
  - unfold unschedule, scheduled. induction (timers s) as [|t l IH]; simpl.
    + split; [by intros []|done].
    + case_bool_decide; simpl; [split; eauto|].
      by destruct (remove_timer i l) as [found l'].
  - intros i' Hi. unfold scheduled, unschedule_window. simpl.
    induction (timers s) as [|t l IH]; [done|]. rewrite filter_cons. case_decide; [|done].
    simpl. rewrite IH, bool_decide_false by congruence. done.
  - intros i' Hi. unfold scheduled, unschedule_window. simpl.
    induction (timers s) as [|t l IH]; [done|]. rewrite filter_cons. simpl.
    case_decide as Hw; simpl; [by rewrite IH|].
    rewrite IH, (bool_decide_false (id t = i')) by (intros <-; done). done.
Qed.
End scheduler.

(** Three timers of one window at time 5: a one-shot timer at 2, a repeating one
    at 5 and one that is not due. *)
Definition demo_scheduler : @Scheduler nat nat :=
  let i := mkTimerId BlinkCursor 0%nat in
  schedule 0 3%nat 9 false i (schedule 0 2%nat 5 true i (schedule 0 1%nat 2 false i new)).

Lemma demo_scheduler_reachable : reachable demo_scheduler.
Proof. repeat (apply reach_schedule; [|done || (intros _; lia)]). apply reach_new. Qed.

End Scheduler.
