(* ===== verification/EventLoop.v ===== *)
(** * The event loop of the pseudo terminal (alacritty_terminal/src/event_loop.rs)

    The queue of bytes that wait to be written to the pseudo terminal, the
    channel it is filled from, and the two loops that move bytes: [pty_write]
    and [pty_read].  The operating system is an argument of these loops: what
    the [k]-th call of [read], [write] and [try_lock_unfair] returns.  The
    parser of the vte crate is an argument as well. *)

From S2P Require Import Prelude.
From stdpp Require Import sets.
#[local] Open Scope Z_scope.

Module EventLoop.
Notation byte := Z (only parsing).

Definition READ_BUFFER_SIZE : Z := 1048576.
Definition MAX_LOCKED_READ : Z := 65535.

(** ** The write queue *)

Record Writing := mkWriting { source : list byte; written : Z }.

Definition writing_new (c : list byte) : Writing := mkWriting c 0.
Definition advance (w : Writing) (n : Z) : exec Writing :=
  x ← usize_add (written w) n; mret (mkWriting (source w) x).
(** [&self.source[self.written..]] *)
Definition remaining_bytes (w : Writing) : exec (list byte) :=
  if written w <=? zlen (source w) then mret (drop (Z.to_nat (written w)) (source w))
  else Panic PanicIndex.
Definition finished (w : Writing) : bool := zlen (source w) <=? written w.

(** [parser] is passed separately. *)
Record State := mkState { write_list : list (list byte); writing : option Writing }.
Implicit Types (st : State).

Definition state_default : State := mkState [] None.
Definition goto_next st : State :=
  match write_list st with
  | [] => mkState [] None
  | c :: l => mkState l (Some (writing_new c))
  end.
Definition ensure_next st : State :=
  match writing st with None => goto_next st | Some _ => st end.
Definition take_current st : option Writing * State := (writing st, mkState (write_list st) None).
Definition needs_write st : bool :=
  match writing st with Some _ => true | None => negb (bool_decide (write_list st = [])) end.
Definition set_current (w : option Writing) st : State := mkState (write_list st) w.

(** ** The channel *)

Inductive Msg (Size : Type) := Input (b : list byte) | Shutdown | Resize (s : Size).
Arguments Input {Size} b.
Arguments Shutdown {Size}.
Arguments Resize {Size} s.

(** [PeekableReceiver]: the messages in the channel, and the peeked one. *)
Record Receiver (M : Type) := mkReceiver { rx : list M; peeked : option M }.
Arguments mkReceiver {M}.
Arguments rx {M}.
Arguments peeked {M}.

Definition peek {M} (r : Receiver M) : option M * Receiver M :=
  match peeked r with
  | Some m => (Some m, r)
  | None => match rx r with
            | [] => (None, r)
            | m :: l => (Some m, mkReceiver l (Some m))
            end
  end.
Definition recv {M} (r : Receiver M) : option M * Receiver M :=
  match peeked r with
  | Some m => (Some m, mkReceiver (rx r) None)
  | None => match rx r with
            | [] => (None, r)
            | m :: l => (Some m, mkReceiver l None)
            end
  end.

(** [Notifier::notify]: nothing is sent for an empty buffer. *)
Definition notify {Size} (bytes : list byte) (channel : list (Msg Size)) : list (Msg Size) :=
  if bool_decide (bytes = []) then channel else channel ++ [Input bytes].

(** [Notifier::on_resize]. *)
Definition on_resize {Size} (size : Size) (channel : list (Msg Size)) : list (Msg Size) :=
  channel ++ [Resize size].

(** [drain_recv_channel]: the state, the sizes passed to the pseudo terminal, the
    receiver, and [false] after a shutdown message.  The number of messages in
    the channel bounds the iterations. *)
Fixpoint drain_loop {Size} (fuel : nat) (r : Receiver (Msg Size)) st (sizes : list Size)
    : exec (bool * Receiver (Msg Size) * State * list Size) :=
  match fuel with
  | O => Panic OutOfFuel
  | S fuel =>
      let '(msg, r) := recv r in
      match msg with
      | None => mret (true, r, st, sizes)
      | Some (Input input) =>
          drain_loop fuel r (mkState (write_list st ++ [input]) (writing st)) sizes
      | Some (Resize s) => drain_loop fuel r st (sizes ++ [s])
      | Some Shutdown => mret (false, r, st, sizes)
      end
  end.
Definition drain_recv_channel {Size} (r : Receiver (Msg Size)) st :=
  drain_loop (length (rx r) + 2) r st [].

(** ** Writing *)

Inductive io_write := Wrote (n : Z) | WriteInterrupted | WriteWouldBlock | WriteError.

(** The state, the bytes accepted by the pseudo terminal and whether the result
    is [Ok(())]. *)
Definition write_result : Type := State * list byte * bool.

Section write.
Context (writer : nat → list byte → io_write).

(** The loops ['write_many] and ['write_one]: [current] is the buffer that was
    taken from the state, [k] counts the calls of [write]. *)
Fixpoint write_loop (fuel k : nat) (current : Writing) st (out : list byte) : exec write_result :=
  match fuel with
  | O => Panic OutOfFuel
  | S fuel =>
      rest ← remaining_bytes current;
      match writer k rest with
      | Wrote n =>
          if n =? 0 then mret (set_current (Some current) st, out, true)
          else
            current ← advance current n;
            let out := out ++ take (Z.to_nat n) rest in
            if finished current then
              let '(next, st) := take_current (goto_next st) in
              match next with
              | Some current => write_loop fuel (S k) current st out
              | None => mret (st, out, true)
              end
            else write_loop fuel (S k) current st out
      | WriteInterrupted | WriteWouldBlock => mret (set_current (Some current) st, out, true)
      | WriteError => mret (set_current (Some current) st, out, false)
      end
  end.

Definition pty_write (fuel : nat) st : exec write_result :=
  let '(current, st) := take_current (ensure_next st) in
  match current with
  | Some current => write_loop fuel 0 current st []
  | None => mret (st, [], true)
  end.
End write.

(** ** Reading *)

Inductive io_read := Got (b : list byte) | ReadInterrupted | ReadWouldBlock | ReadError.

Section read.
Context {P T : Type} (parser_advance : P → T → list byte → P * T) (sync_bytes_count : P → Z).
Context (reader : nat → io_read) (try_lock : nat → bool).

(** What [pty_read] changes: the parser, the terminal, the copy of the bytes for
    the reference tests, and the chunks that were parsed, for the statements. *)
Record ReadState := mkRead { parser : P; terminal : T; recording : list byte; chunks : list (list byte) }.

Definition parse_chunk (b : list byte) (rs : ReadState) : ReadState :=
  let '(p, t) := parser_advance (parser rs) (terminal rs) b in
  mkRead p t (recording rs ++ b) (chunks rs ++ [b]).

(** The loop; [buf] is [buf[..unprocessed]].  The result is [false] for an error
    that is returned to the caller. *)
Fixpoint read_loop (fuel k : nat) (locked : bool) (buf : list byte) (processed : Z) (rs : ReadState)
    : exec (ReadState * Z * bool) :=
  match fuel with
  | O => Panic OutOfFuel
  | S fuel =>
      let done := mret (rs, processed, true) in
      let go buf :=
        let locked' := locked || try_lock k || (READ_BUFFER_SIZE <=? zlen buf) in
        if locked' then
          let rs := parse_chunk buf rs in
          let processed := processed + zlen buf in
          if MAX_LOCKED_READ <=? processed then mret (rs, processed, true)
          else read_loop fuel (S k) true [] processed rs
        else read_loop fuel (S k) false buf processed rs in
      match reader k with
      | Got got => if bool_decide (got = []) && bool_decide (buf = []) then done else go (buf ++ got)
      | ReadInterrupted | ReadWouldBlock => if bool_decide (buf = []) then done else go buf
      | ReadError => mret (rs, processed, false)
      end
  end.

(** The last component says whether [Event::Wakeup] is sent. *)
Definition pty_read (fuel : nat) (rs : ReadState) : exec (ReadState * bool * bool) :=
  '(rs, processed, ok) ← read_loop fuel 0 false [] 0 rs;
  mret (rs, ok, ok && (sync_bytes_count (parser rs) <? processed) && (0 <? processed)).
End read.

(** ** The queue as a sequence of bytes *)

(** The bytes that wait to be written, in order. *)
Definition queued st : list byte :=
  match writing st with Some w => drop (Z.to_nat (written w)) (source w) | None => [] end
  ++ concat (write_list st).

(** Buffers fit into memory, and no more than the whole current one was written. *)
Definition writing_ok (w : Writing) : Prop :=
  0 ≤ written w ≤ zlen (source w) ∧ zlen (source w) ≤ isize_max.
Definition state_ok st : Prop :=
  from_option writing_ok True (writing st) ∧ Forall (λ c, zlen c ≤ isize_max) (write_list st).

(** The contract of [Write::write]: it accepts at most the bytes it is given. *)
Definition writer_ok (writer : nat → list byte → io_write) : Prop :=
  ∀ k b, match writer k b with Wrote n => 0 ≤ n ≤ zlen b | _ => True end.

(** The writer accepts something of every buffer that is not empty. *)
Definition accepting (writer : nat → list byte → io_write) : Prop :=
  ∀ k b, b ≠ [] → ∃ n, writer k b = Wrote n ∧ 0 < n.

(** No buffer is empty, and the current one is not finished. *)
Definition no_empty st : Prop :=
  from_option (λ w, written w < zlen (source w)) True (writing st) ∧
  Forall (λ c, c ≠ []) (write_list st).

Lemma goto_next_queued st : queued (goto_next st) = concat (write_list st).
Proof. destruct st as [[|c l] w]; simpl; [done|]. unfold queued. simpl. by rewrite drop_0. Qed.

Lemma goto_next_ok st : state_ok st → state_ok (goto_next st).
Proof.
  intros [_ Hl]. destruct st as [[|c l] w]; simpl in *; [by split|].
  inversion_clear Hl. split; simpl; [|done]. split; simpl; [unfold zlen in *; lia|done].
Qed.

Lemma goto_next_no_empty st : no_empty st → no_empty (goto_next st).
Proof.
  intros [_ Hl]. destruct st as [[|c l] w]; simpl in *; [by split|].
  inversion_clear Hl. split; simpl; [|done]. destruct c; [done|]. unfold zlen. simpl. lia.
Qed.

Section write_facts.
Context (writer : nat → list byte → io_write) (Hw : writer_ok writer).

(** What is written and what is left make up what was queued. *)
Definition written_prefix (st0 : State) (out0 : list byte) (r : write_result) : Prop :=
  let '(st, out, ok) := r in
  state_ok st ∧ out ++ queued st = out0 ++ queued st0 ∧
  (accepting writer → no_empty st0 → queued st = [] ∧ needs_write st = false ∧ ok = true).

Lemma write_loop_spec fuel : ∀ k current st out,
  state_ok (set_current (Some current) st) →
  (length (queued (set_current (Some current) st)) < fuel)%nat →
  wp (write_loop writer fuel k current st out)
     (written_prefix (set_current (Some current) st) out).
Proof.
  induction fuel as [|fuel IH]; intros k current st out Hst Hf; [lia|].
  destruct Hst as [[Hwr Hlen] Hl]. simpl in Hwr, Hlen, Hl. simpl. unfold remaining_bytes.
  destruct (Z.leb_spec (written current) (zlen (source current))); [|lia].
  cbn [mbind mret exec_bind exec_ret]. set (rest := drop _ _).
  assert (Hrest : zlen rest = zlen (source current) - written current).
  { unfold rest, zlen in *. rewrite length_drop. lia. }
  pose proof (Hw k rest) as Hn. destruct (writer k rest) as [n| | |] eqn:Ew.
  2, 3, 4: (apply wp_ret; split; [by split|]; split; [done|]; intros Ha [Hne _]; simpl in Hne;
    destruct (Ha k rest) as (n & E & _); [intros E; rewrite E in Hrest; unfold zlen in Hrest at 1; simpl in Hrest; lia|congruence]).
  simpl in Hn. destruct (Z.eqb_spec n 0) as [->|Hn0].
  { apply wp_ret. split; [by split|]. split; [done|]. intros Ha [Hne _]. simpl in Hne.
    destruct (Ha k rest) as (n & E & ?);
      [intros E; rewrite E in Hrest; unfold zlen in Hrest at 1; simpl in Hrest; lia|].
    rewrite Ew in E. injection E as <-. lia. }
  unfold isize_max in *. wp_step. unfold advance. wp_step. wp_step.
  apply wp_ret.
  assert (Hrest' : rest = take (Z.to_nat n) rest ++ drop (Z.to_nat (written current + n)) (source current)).
  { rewrite <- (take_drop (Z.to_nat n) rest) at 1. f_equal. unfold rest. rewrite drop_drop. f_equal. lia. }
  assert (Hlt : (length (take (Z.to_nat n) rest) = Z.to_nat n)%nat).
  { rewrite length_take. unfold zlen in Hn. lia. }
  assert (Hq : queued (set_current (Some current) st) = rest ++ concat (write_list st)) by done.
  rewrite Hq, Hrest', !length_app, Hlt in Hf.
  destruct (finished _) eqn:Efin; unfold finished in Efin; simpl in Efin.
  - apply Z.leb_le in Efin.
    assert (Hnil : drop (Z.to_nat (written current + n)) (source current) = []).
    { apply drop_ge. unfold zlen in Efin. lia. }
    rewrite Hnil, app_nil_r in Hrest'. rewrite Hnil in Hf. simpl in Hf.
    pose proof (goto_next_queued st) as Hnext.
    destruct st as [[|c l] w]; unfold take_current; simpl.
    + apply wp_ret. split; [by split|]. split; [|done]. rewrite Hq. unfold queued. simpl.
      by rewrite !app_nil_r, <- Hrest'.
    + inversion_clear Hl as [|? ? Hc Hl']. simpl in Hf.
      wp_use IH.
      * split; simpl; [|done]. split; simpl; [unfold zlen in *; lia|done].
      * unfold queued. simpl. rewrite drop_0. simpl. lia.
      * intros [[st' out'] ok] (Hok & Hc' & Hdrain). split; [done|]. split.
        { rewrite Hc', Hq. unfold queued. simpl. rewrite drop_0, <- Hrest', <- app_assoc. done. }
        intros Ha [_ Hne]. apply Hdrain; [done|]. simpl in Hne. inversion_clear Hne as [|? ? Hc0 ?].
        split; simpl; [|done]. destruct c; [done|]. unfold zlen. simpl. lia.
  - apply Z.leb_gt in Efin. wp_use IH.
    + split; simpl; [|done]. split; simpl; unfold isize_max; lia.
    + unfold queued. simpl. rewrite length_app. lia.
    + intros [[st' out'] ok] (Hok & Hc' & Hdrain). split; [done|]. split.
      { rewrite Hc', Hq. unfold queued. simpl. rewrite Hrest' at 2. by rewrite !app_assoc. }
      intros Ha [_ Hne]. apply Hdrain; [done|]. split; simpl; [done|exact Hne].
Qed.
End write_facts.

Lemma ensure_next_facts st :
  state_ok st →
  state_ok (ensure_next st) ∧ queued (ensure_next st) = queued st ∧
  (no_empty st → no_empty (ensure_next st)).
Proof.
  intros Hst. unfold ensure_next. destruct (writing st) eqn:E; [done|].
  split; [by apply goto_next_ok|]. split; [|by apply goto_next_no_empty].
  rewrite goto_next_queued. unfold queued. by rewrite E.
Qed.

Lemma pty_write_spec writer fuel st :
  writer_ok writer → state_ok st → (length (queued st) < fuel)%nat →
  wp (pty_write writer fuel st) (written_prefix writer st []).
Proof.
  intros Hw Hst Hf. destruct (ensure_next_facts st Hst) as (Hst' & Hq & Hne).
  unfold pty_write, take_current. destruct (ensure_next st) as [l [w|]] eqn:E; simpl.
  - wp_use (write_loop_spec writer Hw); [exact Hst'|by rewrite <- Hq in Hf|].
    intros [[st' out] ok] (H1 & H2 & H3). split; [done|]. split; [by rewrite H2, <- Hq|].
    intros Ha Hn. by apply H3, Hne.
  - apply wp_ret. split; [done|]. split; [by rewrite <- Hq|]. intros _ _.
    unfold ensure_next, goto_next in E. destruct (writing st) eqn:Ew.
    { subst st. done. }
    destruct (write_list st); [|done]. injection E as <-. split_and!; done.
Qed.

(** [pty_write] is a first-in-first-out queue of bytes: whatever the
    operating system accepts, refuses or reports as an error, the bytes it wrote
    are the first ones of the queue and all others are still queued, in order;
    and it returns.  If every buffer is accepted at least in part, and no empty
    buffer was queued, everything is written and no more write interest is
    registered. *)
Theorem pty_write_fifo (writer : nat → list byte → io_write) st :
  writer_ok writer → state_ok st →
  ∃ st' out ok, pty_write writer (S (length (queued st))) st = Ok (st', out, ok) ∧
    state_ok st' ∧ out ++ queued st' = queued st ∧
    (accepting writer → no_empty st → out = queued st ∧ needs_write st' = false ∧ ok = true).
Proof.
  intros Hw Hst. pose proof (pty_write_spec writer (S (length (queued st))) st Hw Hst ltac:(lia)) as G.
  apply wp_exists in G as ([[st' out] ok] & E & Hok & Hq & Hd). simpl in Hq.
  exists st', out, ok. split; [done|]. split; [done|]. split; [done|].
  intros Ha Hn. destruct (Hd Ha Hn) as (Hnil & Hneed & ->). rewrite Hnil, app_nil_r in Hq. done.
Qed.

(** ** From the channel to the pseudo terminal *)

(** The bytes of the input messages in front of a shutdown. *)
Fixpoint inputs {Size} (l : list (Msg Size)) : list (list byte) :=
  match l with
  | [] => []
  | Input b :: l => b :: inputs l
  | Resize _ :: l => inputs l
  | Shutdown :: _ => []
  end.

Lemma drain_loop_spec {Size} : ∀ (l : list (Msg Size)) fuel st sizes,
  Shutdown ∉ l → (length l < fuel)%nat →
  ∃ sizes', drain_loop fuel (mkReceiver l None) st sizes
    = Ok (true, mkReceiver [] None, mkState (write_list st ++ inputs l) (writing st), sizes').
Proof.
  induction l as [|m l IH]; intros [|fuel] st sizes Hs Hf; simpl in Hf; try lia; simpl.
  - exists sizes. rewrite app_nil_r. by destruct st.
  - apply not_elem_of_cons in Hs as [Hm Hs].
    destruct m as [b| |sz]; simpl.
    + destruct (IH fuel (mkState (write_list st ++ [b]) (writing st)) sizes) as [sizes' E];
        [done|lia|]. exists sizes'. rewrite E. simpl. by rewrite <- app_assoc.
    + done.
    + destruct (IH fuel st (sizes ++ [sz])) as [sizes' E]; [done|lia|]. by exists sizes'.
Qed.

Lemma notify_inputs {Size} (bs : list (list byte)) : ∀ (channel : list (Msg Size)),
  Shutdown ∉ channel →
  Shutdown ∉ fold_left (λ ch b, notify b ch) bs channel ∧
  inputs (fold_left (λ ch b, notify b ch) bs channel)
    = inputs channel ++ filter (λ b, b ≠ []) bs.
Proof.
  induction bs as [|b bs IH]; intros channel Hs; simpl; [by rewrite app_nil_r|].
  unfold notify at 2 4. rewrite filter_cons. case_bool_decide as Hb.
  - rewrite decide_False by auto. by apply IH.
  - rewrite decide_True by done.
    assert (Hin : ∀ ch : list (Msg Size), Shutdown ∉ ch → inputs (ch ++ [Input b]) = inputs ch ++ [b]).
    { intros ch. induction ch as [|[] ch IHc]; intros Hc; simpl; try done.
      - rewrite not_elem_of_cons in Hc. by rewrite IHc by tauto.
      - rewrite not_elem_of_cons in Hc. by destruct Hc.
      - rewrite not_elem_of_cons in Hc. apply IHc. tauto. }
    destruct (IH (channel ++ [Input b])) as [Hs' Hi].
    { rewrite not_elem_of_app. split; [done|]. by rewrite list_elem_of_singleton. }
    split; [done|]. rewrite Hi, Hin, <- app_assoc by done. done.
Qed.

(** Input reaches the pseudo terminal: everything that was handed to
    [notify], in any portions, arrives complete and in order once the channel is
    drained and the pseudo terminal accepts bytes; empty notifications, on which
    the queue would get stuck, are not queued. *)
Lemma input_reaches_pty {Size} (writer : nat → list byte → io_write) (bs : list (list byte)) :
  writer_ok writer → accepting writer → Forall (λ b, zlen b ≤ isize_max) bs →
  let channel : list (Msg Size) := fold_left (λ ch b, notify b ch) bs [] in
  ∃ r st sizes st', drain_recv_channel (mkReceiver channel None) state_default
                      = Ok (true, r, st, sizes) ∧ rx r = [] ∧
    pty_write writer (S (length (queued st))) st = Ok (st', concat bs, true) ∧
    needs_write st' = false.
Proof.
  intros Hw Ha Hb channel. destruct (notify_inputs bs ([] : list (Msg Size))) as [Hs Hi]; [set_solver|].
  fold channel in Hs, Hi. simpl in Hi.
  destruct (drain_loop_spec channel (length channel + 2) state_default [] Hs ltac:(lia)) as [sizes E].
  set (st := mkState (filter (λ b, b ≠ []) bs) None).
  exists (mkReceiver [] None), st, sizes. simpl in E. rewrite Hi in E.
  assert (Hq : queued st = concat bs).
  { unfold queued, st. simpl. clear. induction bs as [|b bs IH]; [done|]. rewrite filter_cons.
    case_decide as Hne; simpl; [by rewrite IH|]. by destruct b. }
  assert (Hok : state_ok st).
  { split; [done|]. simpl. rewrite Forall_forall in Hb |- *. intros b Hin.
    apply list_elem_of_filter in Hin as [_ Hin]. by apply Hb. }
  pose proof (pty_write_spec writer (S (length (queued st))) st Hw Hok ltac:(lia)) as G.
  apply wp_exists in G as ([[st' out] ok] & E' & _ & Hout & Hd). simpl in Hout.
  destruct (Hd Ha) as (Hnil & Hneed & ->).
  { split; [done|]. simpl. rewrite Forall_forall. intros b Hin.
    by apply list_elem_of_filter in Hin as [Hne _]. }
  rewrite Hnil, app_nil_r, Hq in Hout. subst out. exists st'.
  split; [exact E|]. split; [done|]. by split.
Qed.

(** ** Everything that is read is parsed *)

Section read_facts.
Context {P T : Type} (parser_advance : P → T → list byte → P * T) (sync_bytes_count : P → Z).
Context (reader : nat → io_read) (try_lock : nat → bool).
Notation ReadState := (@ReadState P T).
Notation parse := (λ rs c, parse_chunk parser_advance c rs).

(** The bytes that the calls [k], ..., [k + n - 1] of [read] return. *)
Fixpoint bytes_read (k n : nat) : list byte :=
  match n with
  | O => []
  | S n => match reader k with Got b => b | _ => [] end ++ bytes_read (S k) n
  end.

(** [rs'] comes from [rs] by parsing [bytes] in some portions. *)
Definition parsed (bytes : list byte) (rs rs' : ReadState) : Prop :=
  ∃ cs, rs' = fold_left parse cs rs ∧ concat cs = bytes ∧ recording rs' = recording rs ++ bytes.

Lemma parsed_step (b bytes : list byte) (rs rs' : ReadState) :
  parsed bytes (parse rs b) rs' → parsed (b ++ bytes) rs rs'.
Proof.
  intros (cs & -> & Hc & Hr). exists (b :: cs). split; [done|]. split; [simpl; by rewrite Hc|].
  rewrite Hr. unfold parse_chunk at 1. destruct (parser_advance _ _ _). simpl.
  by rewrite app_assoc.
Qed.

Lemma parsed_nil (rs : ReadState) : parsed [] rs rs.
Proof. exists []. by rewrite app_nil_r. Qed.

(** A run that ends without an error has parsed the buffer and what it read. *)
Lemma read_loop_parsed fuel : ∀ k locked buf processed (rs rs' : ReadState) processed',
  read_loop parser_advance reader try_lock fuel k locked buf processed rs
    = Ok (rs', processed', true) →
  ∃ n, parsed (buf ++ bytes_read k n) rs rs' ∧
       processed' = processed + zlen (buf ++ bytes_read k n).
Proof.
  induction fuel as [|fuel IH]; intros k locked buf processed rs rs' processed' E; [done|].
  simpl in E. set (got := match reader k with Got b => b | _ => [] end).
  (* the continuation after a read that put [buf ++ got] into the buffer *)
  assert (Hgo : ∀ b, b = buf ++ got →
    (if locked || try_lock k || (READ_BUFFER_SIZE <=? zlen b) then
       if MAX_LOCKED_READ <=? processed + zlen b
       then mret (parse rs b, processed + zlen b, true)
       else read_loop parser_advance reader try_lock fuel (S k) true [] (processed + zlen b) (parse rs b)
     else read_loop parser_advance reader try_lock fuel (S k) false b processed rs)
      = Ok (rs', processed', true) →
    ∃ n, parsed (buf ++ bytes_read k n) rs rs' ∧
         processed' = processed + zlen (buf ++ bytes_read k n)).
  { intros b Hb G. destruct (locked || try_lock k || (READ_BUFFER_SIZE <=? zlen b)).
    - destruct (MAX_LOCKED_READ <=? processed + zlen b).
      + cbv [mret exec_ret] in G. injection G as <- <-. exists 1%nat. simpl. fold got. rewrite app_nil_r, <- Hb.
        split; [|done]. rewrite <- (app_nil_r b) at 1. apply parsed_step, parsed_nil.
      + apply IH in G as (n & Hp & ->). exists (S n). simpl. fold got. rewrite app_assoc, <- Hb.
        split; [by apply parsed_step|]. simpl. unfold zlen. rewrite length_app. lia.
    - apply IH in G as (n & Hp & ->). exists (S n). simpl. fold got. rewrite app_assoc, <- Hb. done. }
  assert (Hstop : buf = [] → Ok (rs, processed, true) = Ok (rs', processed', true) →
    ∃ n, parsed (buf ++ bytes_read k n) rs rs' ∧
         processed' = processed + zlen (buf ++ bytes_read k n)).
  { intros -> [= <- <-]. exists 0%nat. simpl. split; [apply parsed_nil|]. unfold zlen. simpl. lia. }
  destruct (reader k) as [b| | |] eqn:Er; simpl in got.
  - destruct (bool_decide (b = []) && bool_decide (buf = [])) eqn:Eb; [|by apply (Hgo _ eq_refl)].
    apply andb_true_iff in Eb as [_ Eb]. apply bool_decide_eq_true in Eb. by apply Hstop.
  - case_bool_decide; [by apply Hstop|]. apply (Hgo buf); [by rewrite app_nil_r|done].
  - case_bool_decide; [by apply Hstop|]. apply (Hgo buf); [by rewrite app_nil_r|done].
  - done.
Qed.

(** With a free lock every iteration parses something or is the last one. *)
Lemma read_loop_returns fuel :
  (∀ k, try_lock k = true) → ∀ k locked processed (rs : ReadState),
  0 ≤ processed → (Z.to_nat (MAX_LOCKED_READ - processed) < fuel)%nat →
  wp (read_loop parser_advance reader try_lock fuel k locked [] processed rs) (λ _, True).
Proof.
  intros Hlock. induction fuel as [|fuel IH]; intros k locked processed rs Hp Hf; [lia|].
  simpl. rewrite Hlock, orb_true_r. destruct (reader k) as [[|x b]| | |]; simpl; try exact I.
  destruct (Z.leb_spec MAX_LOCKED_READ (processed + zlen (x :: b))); [exact I|].
  unfold zlen in *. simpl in *. apply IH; lia.
Qed.

End read_facts.

(** ** Examples *)

(** A writer that takes at most two bytes at a time and would block in its second
    call. *)
Definition demo_writer (k : nat) (b : list byte) : io_write :=
  if Nat.eqb k 1 then WriteWouldBlock else Wrote (Z.min 2 (zlen b)).
Definition two_at_a_time (k : nat) (b : list byte) : io_write := Wrote (Z.min 2 (zlen b)).

Lemma demo_writer_ok : writer_ok demo_writer.
Proof. intros k b. unfold demo_writer. destruct (Nat.eqb k 1); [done|]. unfold zlen. lia. Qed.

Lemma two_at_a_time_ok : writer_ok two_at_a_time ∧ accepting two_at_a_time.
Proof.
  split; [intros k b; unfold two_at_a_time, zlen; lia|].
  intros k [|x b] Hb; [done|]. eexists. split; [done|]. unfold zlen. simpl. lia.
Qed.

Definition demo_state : State := mkState [[4; 5]; [6]] (Some (mkWriting [1; 2; 3] 1)).

(** A parser that collects the bytes. *)
Definition collect (p : unit) (t : list byte) (b : list byte) : unit * list byte := (p, t ++ b).
Definition demo_reader (k : nat) : io_read :=
  match k with O => Got [1; 2] | 1%nat => Got [3] | _ => ReadWouldBlock end.


(** If the terminal is locked by somebody else and the next [read] fails, as it
    does when the child process exits, the bytes read before are dropped. *)
Example read_error_drops_input :
  let reader k := match k with O => Got [1; 2] | _ => ReadError end in
  match pty_read collect (λ _, 0) reader (λ _, false) 5 (mkRead tt [] [] []) with
  | Ok (rs, ok, wakeup) => terminal rs = [] ∧ ok = false ∧ bytes_read reader 0 2 = [1; 2]
  | Panic _ => False
  end.
Proof. vm_compute. done. Qed.
End EventLoop.
