(* ===== verification/PtyLoop.v ===== *)
(** * The loop of the event loop (alacritty_terminal/src/event_loop.rs, [EventLoop::spawn])

    The thread that waits for the pseudo terminal, the child and messages, and moves bytes
    with the operations of EventLoop.v.  One iteration is a function of what the operating
    system reports in it: the messages that arrived, the result of waiting, and for every
    event what reading and writing return.  The parser is an argument as in EventLoop.v. *)

From S2P Require Import Prelude EventLoop.
#[local] Open Scope Z_scope.

Module PtyLoop.
Import EventLoop.
Notation byte := Z (only parsing).

Inductive LoopEvent := LoopWakeup | LoopChildExit (status : Z) | LoopExit.

(** What reading returns, and whether the terminal can be locked. *)
Record Reading := mkReading { rd_reader : nat → io_read; rd_lock : nat → bool; rd_eio : bool }.

(** An event with its key: the child, with [next_child_event()]; the pseudo terminal, with
    [is_interrupt()], [readable] and [writable]; any other key. *)
Inductive PollEvent :=
  | ChildToken (child : option (option Z)) (read : Reading)
  | ReadWriteToken (interrupt readable writable : bool) (read : Reading) (writer : nat → list byte → io_write)
  | OtherToken.

Inductive poll_result := PollOk (events : list PollEvent) | PollInterrupted | PollError.

Section loop.
Context {P T Size : Type} (parser_advance : P → T → list byte → P * T) (sync_bytes_count : P → Z).
Context (stop_sync : P → T → P * T) (drain_on_exit : bool).

(** One iteration: the messages that arrived before the channel is drained, the result of
    [poll.wait], and whether [reregister] succeeds. *)
Record turn := mkTurn { t_arrived : list (Msg Size); t_wait : poll_result; t_reregister : bool }.

(** The loop's state: the queue, what reading changes, the channel, the registered interest
    in writing, and what left the loop: bytes, events and sizes. *)
Record LoopState := mkLoop {
  l_state : State;
  l_read : @ReadState P T;
  l_rx : Receiver (Msg Size);
  l_writable : bool;
  l_out : list byte;
  l_events : list LoopEvent;
  l_sizes : list Size }.
Implicit Types (ls : LoopState).

Definition loop_start (p : P) (t : T) : LoopState :=
  mkLoop state_default (mkRead p t [] []) (mkReceiver [] None) false [] [] [].

Definition send (e : LoopEvent) ls : LoopState :=
  mkLoop (l_state ls) (l_read ls) (l_rx ls) (l_writable ls) (l_out ls) (l_events ls ++ [e]) (l_sizes ls).
Definition with_read (rs : ReadState) ls : LoopState :=
  mkLoop (l_state ls) rs (l_rx ls) (l_writable ls) (l_out ls) (l_events ls) (l_sizes ls).
Definition with_rx (r : Receiver (Msg Size)) ls : LoopState :=
  mkLoop (l_state ls) (l_read ls) r (l_writable ls) (l_out ls) (l_events ls) (l_sizes ls).
Definition with_writable (b : bool) ls : LoopState :=
  mkLoop (l_state ls) (l_read ls) (l_rx ls) b (l_out ls) (l_events ls) (l_sizes ls).

(** [self.pty_read(..)], with fuel for a terminal that can be locked; the result of the call. *)
Definition loop_read (rd : Reading) ls : exec (LoopState * bool) :=
  '(rs, ok, wakeup) ← pty_read parser_advance sync_bytes_count (rd_reader rd) (rd_lock rd)
                        (Z.to_nat MAX_LOCKED_READ + 1) (l_read ls);
  let ls := with_read rs ls in
  mret (if wakeup : bool then send LoopWakeup ls else ls, ok).

(** [self.pty_write(..)], with fuel for every byte. *)
Definition loop_write (writer : nat → list byte → io_write) ls : exec (LoopState * bool) :=
  '(st, out, ok) ← pty_write writer (S (length (queued (l_state ls)))) (l_state ls);
  mret (mkLoop st (l_read ls) (l_rx ls) (l_writable ls) (l_out ls ++ out) (l_events ls) (l_sizes ls), ok).

(** One event; [false] for [break 'event_loop]. *)
Definition on_event (e : PollEvent) ls : exec (LoopState * bool) :=
  match e with
  | ChildToken (Some status) rd =>
      let ls := match status with Some s => send (LoopChildExit s) ls | None => ls end in
      ls ← (if drain_on_exit then '(ls, _) ← loop_read rd ls; mret ls else mret ls);
      mret (send LoopWakeup (send LoopExit ls), false)
  | ChildToken None _ => mret (ls, true)
  | ReadWriteToken interrupt readable writable rd writer =>
      if interrupt then mret (ls, true)
      else
        '(ls, ok) ← (if readable then loop_read rd ls else mret (ls, true));
        if negb ok then mret (ls, rd_eio rd)
        else if writable then loop_write writer ls
        else mret (ls, true)
  | OtherToken => mret (ls, true)
  end.

Fixpoint on_events (events : list PollEvent) ls : exec (LoopState * bool) :=
  match events with
  | [] => mret (ls, true)
  | e :: events =>
      '(ls, go) ← on_event e ls;
      if go : bool then on_events events ls else mret (ls, false)
  end.

(** One iteration of ['event_loop]; [false] when it is left. *)
Definition loop_turn (u : turn) ls : exec (LoopState * bool) :=
  let ls := with_rx (mkReceiver (rx (l_rx ls) ++ t_arrived u) (peeked (l_rx ls))) ls in
  match t_wait u with
  | PollInterrupted => mret (ls, true)
  | PollError => mret (ls, false)
  | PollOk events =>
      let '(idle, ls) :=
        if bool_decide (length events = 0%nat)
        then let '(m, r) := peek (l_rx ls) in (bool_decide (length (option_list m) = 0%nat), with_rx r ls)
        else (false, ls) in
      if idle : bool then
        let rs := l_read ls in
        let '(p, t) := stop_sync (parser rs) (terminal rs) in
        mret (send LoopWakeup (with_read (mkRead p t (recording rs) (chunks rs)) ls), true)
      else
        '(go, r, st, sizes) ← drain_recv_channel (l_rx ls) (l_state ls);
        let ls := mkLoop st (l_read ls) r (l_writable ls) (l_out ls) (l_events ls) (l_sizes ls ++ sizes) in
        if negb go then mret (ls, false)
        else
          '(ls, go) ← on_events events ls;
          if negb go then mret (ls, false)
          else
            let needs_write := needs_write (l_state ls) in
            if negb (eqb needs_write (l_writable ls)) then
              if t_reregister u then mret (with_writable needs_write ls, true) else Panic PanicUnwrap
            else mret (ls, true)
  end.

(** The loop over the iterations. *)
Fixpoint loop_run (turns : list turn) ls : exec (LoopState * bool) :=
  match turns with
  | [] => mret (ls, true)
  | u :: turns =>
      '(ls, go) ← loop_turn u ls;
      if go : bool then loop_run turns ls else mret (ls, false)
  end.
End loop.
Arguments LoopState : clear implicits.
Arguments turn : clear implicits.

(** ** Nothing is lost, and the loop ends for a reason *)

Definition pending {Size} (r : Receiver (Msg Size)) : list (Msg Size) := option_list (peeked r) ++ rx r.

Lemma inputs_app {Size} (l l' : list (Msg Size)) : Shutdown ∉ l → inputs (l ++ l') = inputs l ++ inputs l'.
Proof.
  induction l as [|[b| |sz] l IH]; intros Hs; simpl; [done|..].
  - rewrite not_elem_of_cons in Hs. by rewrite IH by tauto.
  - rewrite not_elem_of_cons in Hs. by destruct Hs.
  - rewrite not_elem_of_cons in Hs. apply IH. tauto.
Qed.

Lemma recv_pending {Size} (r : Receiver (Msg Size)) :
  let '(m, r') := recv r in pending r = option_list m ++ pending r' ∧ (m = None → pending r = []) ∧
    (length (rx r') ≤ length (rx r))%nat ∧ peeked r' = None.
Proof. destruct r as [[|m l] [m'|]]; simpl; split_and!; try done; lia. Qed.

Definition fits {Size} (m : Msg Size) : Prop := match m with Input b => zlen b ≤ isize_max | _ => True end.

(** Draining consumes the messages up to a shutdown, or all of them, and queues their bytes. *)
Lemma drain_spec {Size} fuel : ∀ (r : Receiver (Msg Size)) st sizes,
  (length (pending r) < fuel)%nat → Forall fits (pending r) → state_ok st →
  wp (drain_loop fuel r st sizes) (λ '(go, r', st', _), ∃ consumed, pending r = consumed ++ pending r' ∧
    queued st' = queued st ++ concat (inputs consumed) ∧ state_ok st' ∧ writing st' = writing st ∧
    (go = true → pending r' = [] ∧ Shutdown ∉ consumed) ∧ (go = false → Shutdown ∈ consumed)).
Proof.
  induction fuel as [|fuel IH]; intros r st sizes Hf Hfit Hst; [lia|]. cbn [drain_loop].
  pose proof (recv_pending r) as Hr. destruct (recv r) as [m r']. destruct Hr as (Ep & Hn & _ & _).
  destruct m as [[b| |sz]|]; simpl in Ep.
  - rewrite Ep in Hf, Hfit. apply Forall_cons in Hfit as [Hb Hfit]. simpl in Hf, Hb.
    wp_use IH; [lia|done| |].
    { destruct Hst as [Hw Hl]. split; [done|]. simpl. apply Forall_app. split; [done|]. by apply Forall_cons. }
    intros [[[go r2] st2] sz2] (consumed & E & Hq & Hok & Hw & Ht & Hf'). exists (Input b :: consumed).
    rewrite Ep, E. split; [done|]. split_and!; try done.
    + rewrite Hq. unfold queued. simpl. rewrite concat_app. simpl. rewrite app_nil_r. by rewrite !app_assoc.
    + intros Hg. destruct (Ht Hg) as [? Hni]. split; [done|]. rewrite not_elem_of_cons. by split.
    + intros Hg. right. by apply Hf'.
  - apply wp_ret. exists [Shutdown]. rewrite Ep. simpl. rewrite app_nil_r. split_and!; try done. intros _. by apply list_elem_of_singleton.
  - rewrite Ep in Hf, Hfit. apply Forall_cons in Hfit as [_ Hfit]. simpl in Hf. wp_use IH; [lia|done|done|].
    intros [[[go r2] st2] sz2] (consumed & E & Hq & Hok & Hw & Ht & Hf'). exists (Resize sz :: consumed).
    rewrite Ep, E. split; [done|]. split_and!; try done.
    + intros Hg. destruct (Ht Hg) as [? Hni]. split; [done|]. rewrite not_elem_of_cons. by split.
    + intros Hg. right. by apply Hf'.
  - apply wp_ret. exists []. simpl. rewrite app_nil_r. specialize (Hn eq_refl). rewrite Hn in Ep. simpl in Ep.
    rewrite Hn, <- Ep. split_and!; try done. intros _. split; [done|apply not_elem_of_nil].
Qed.

(** Reading and writing fail only if the operating system reports an error. *)
Lemma read_loop_ok {P T} (adv : P → T → list byte → P * T) reader lock fuel :
  (∀ k, reader k ≠ ReadError) → ∀ k locked buf processed (rs : ReadState),
  wlp (read_loop adv reader lock fuel k locked buf processed rs) (λ '(_, _, ok), ok = true).
Proof.
  intros Hr. induction fuel as [|fuel IH]; intros k locked buf processed rs; [done|]. cbn [read_loop].
  specialize (Hr k). destruct (reader k) as [b| | |]; try done; repeat case_match; try done; apply IH.
Qed.

Lemma write_loop_ok writer fuel :
  (∀ k b, writer k b ≠ WriteError) → ∀ k current st out,
  wlp (write_loop writer fuel k current st out) (λ '(_, _, ok), ok = true).
Proof.
  intros Hw. induction fuel as [|fuel IH]; intros k current st out; [done|]. cbn [write_loop].
  apply wlp_bind, wlp_any. intros rest. specialize (Hw k rest). destruct (writer k rest); try done.
  destruct (_ =? _); [done|]. apply wlp_bind, wlp_any. intros cur. cbv zeta.
  destruct (finished cur); [|apply IH]. destruct (take_current _) as [[w|] st']; [apply IH|done].
Qed.

Section correct.
Context {P T Size : Type} (parser_advance : P → T → list byte → P * T) (sync_bytes_count : P → Z).
Context (stop_sync : P → T → P * T) (drain_on_exit : bool).
Implicit Types (ls : LoopState P T Size) (u : turn Size) (e : PollEvent).

(** The terminal can be locked, and writing accepts at most what it is given. *)
Definition reading_ok (rd : Reading) : Prop := ∀ k, rd_lock rd k = true.
Definition event_ok e : Prop :=
  match e with
  | ChildToken _ rd => reading_ok rd
  | ReadWriteToken _ _ _ rd writer => reading_ok rd ∧ writer_ok writer
  | OtherToken => True
  end.
Definition turn_ok u : Prop :=
  Forall fits (t_arrived u) ∧ t_reregister u = true ∧
  match t_wait u with PollOk events => Forall event_ok events | _ => True end.

(** The operating system reports no error. *)
Definition event_quiet e : Prop :=
  match e with
  | ReadWriteToken _ _ _ rd writer => (∀ k, rd_reader rd k ≠ ReadError) ∧ ∀ k b, writer k b ≠ WriteError
  | _ => True
  end.
Definition turn_quiet u : Prop :=
  match t_wait u with PollOk events => Forall event_quiet events | PollInterrupted => True | PollError => False end.

(** Bytes only move from the queue to the pseudo terminal, and events are only added. *)
Record moved ls ls' : Prop := {
  mv_rx : l_rx ls' = l_rx ls;
  mv_writable : l_writable ls' = l_writable ls;
  mv_ok : state_ok (l_state ls) → state_ok (l_state ls');
  mv_bytes : state_ok (l_state ls) → l_out ls' ++ queued (l_state ls') = l_out ls ++ queued (l_state ls);
  mv_events : l_events ls `prefix_of` l_events ls' }.

#[local] Instance moved_preorder : PreOrder moved.
Proof.
  split; [by split|]. intros a b c [] []. split; [congruence|congruence|auto| |by etrans].
  intros Ha. rewrite <- (mv_bytes0 Ha). apply mv_bytes1. auto.
Qed.

Lemma moved_send (ev : LoopEvent) ls : moved ls (send ev ls).
Proof. split; try done. by exists [ev]. Qed.

Lemma loop_read_wp rd ls :
  reading_ok rd → wp (loop_read parser_advance sync_bytes_count rd ls) (λ '(ls', ok), moved ls ls' ∧
    l_state ls' = l_state ls ∧ ((∀ k, rd_reader rd k ≠ ReadError) → ok = true)).
Proof.
  intros Hl. unfold loop_read, pty_read. wp_step. wp_step.
  pose proof (read_loop_returns parser_advance (rd_reader rd) (rd_lock rd) (Z.to_nat MAX_LOCKED_READ + 1) Hl 0 false 0 (l_read ls) ltac:(lia) ltac:(lia)) as G.
  pose proof (read_loop_ok parser_advance (rd_reader rd) (rd_lock rd) (Z.to_nat MAX_LOCKED_READ + 1)) as Ho.
  apply wp_exists in G as ([[rs processed] ok] & E & _). rewrite E. apply wp_ok. wp_step. wp_step. split; [|split].
  - destruct (_ && _ && _); [|by split]. transitivity (with_read rs ls); [by split|apply moved_send].
  - by destruct (_ && _ && _).
  - intros Hr. specialize (Ho Hr 0%nat false [] 0 (l_read ls)). by rewrite E in Ho.
Qed.

Lemma loop_write_wp writer ls :
  writer_ok writer → state_ok (l_state ls) →
  wp (loop_write writer ls) (λ '(ls', ok), moved ls ls' ∧ ((∀ k b, writer k b ≠ WriteError) → ok = true)).
Proof.
  intros Hw Hst. unfold loop_write. wp_step.
  pose proof (pty_write_spec writer (S (length (queued (l_state ls)))) (l_state ls) Hw Hst ltac:(lia)) as G.
  assert (Ho : (∀ k b, writer k b ≠ WriteError) → wlp (pty_write writer (S (length (queued (l_state ls)))) (l_state ls)) (λ '(_, _, ok), ok = true)).
  { intros He. unfold pty_write. destruct (take_current _) as [[w|] st]; [by apply write_loop_ok|done]. }
  apply wp_exists in G as ([[st out] ok] & E & Hok & Hq & _). rewrite E in *. apply wp_ok. wp_step. split; [|done].
  split; cbn; try done. intros _. by rewrite <- app_assoc, Hq.
Qed.

Lemma on_event_wp e ls :
  event_ok e → state_ok (l_state ls) →
  wp (on_event parser_advance sync_bytes_count drain_on_exit e ls) (λ '(ls', go), moved ls ls' ∧
    (go = false → LoopExit ∈ l_events ls' ∨ ¬ event_quiet e)).
Proof.
  intros He Hst. destruct e as [[status|] rd|interrupt readable writable rd writer|]; cbn [on_event].
  - set (ls1 := match status with Some s => _ | None => _ end).
    assert (M1 : moved ls ls1) by (unfold ls1; destruct status; [apply moved_send|done]). clearbody ls1. wp_step.
    apply wp_mono with (Q := λ ls2, moved ls1 ls2).
    { apply wp_if; intros _; [|by apply wp_ret]. wp_step. wp_use loop_read_wp; [done|]. intros [ls2 ok] (M & _). by apply wp_ret. }
    intros ls2 M2. apply wp_ret. split.
    + do 2 (etrans; [|apply moved_send]). by etrans.
    + intros _. left. cbn. rewrite !elem_of_app, !list_elem_of_singleton. auto.
  - by apply wp_ret.
  - apply wp_if; intros _; [by apply wp_ret|]. destruct He as [Hr Hw]. wp_step.
    apply wp_mono with (Q := λ '(ls1, ok), moved ls ls1 ∧ l_state ls1 = l_state ls ∧ ((∀ k, rd_reader rd k ≠ ReadError) → ok = true)).
    { apply wp_if; intros _; [by apply loop_read_wp|]. by apply wp_ret. }
    intros [ls1 ok] (M1 & E1 & Ho). apply wp_if; intros Hok.
    + apply wp_ret. split; [done|]. intros _. right. intros [Hq _]. by rewrite (Ho Hq) in Hok.
    + apply wp_if; intros _; [|by apply wp_ret]. wp_use loop_write_wp; [done|by rewrite E1|].
      intros [ls2 ok2] [M2 Ho2]. split; [by etrans|]. intros ->. right. intros [_ Hq]. by specialize (Ho2 Hq).
  - by apply wp_ret.
Qed.

Lemma on_events_wp events : ∀ ls,
  Forall event_ok events → state_ok (l_state ls) →
  wp (on_events parser_advance sync_bytes_count drain_on_exit events ls) (λ '(ls', go), moved ls ls' ∧
    (go = false → LoopExit ∈ l_events ls' ∨ ¬ Forall event_quiet events)).
Proof.
  induction events as [|e events IH]; intros ls He Hst; cbn [on_events]; [by apply wp_ret|].
  apply Forall_cons in He as [He Hes]. wp_step. wp_use on_event_wp; [done|done|]. intros [ls1 go] [M1 Hg].
  apply wp_if; intros E.
  - wp_use IH; [done|by apply (mv_ok _ _ M1)|]. intros [ls2 go2] [M2 Hg2]. split; [by etrans|].
    intros Hf. destruct (Hg2 Hf) as [?|Hq]; [by left|right]. rewrite Forall_cons. tauto.
  - apply wp_ret. split; [done|]. intros _. destruct (Hg E) as [?|Hq]; [by left|right]. rewrite Forall_cons. tauto.
Qed.

(** The messages that arrived are those that were consumed, whose bytes were written or
    wait in the queue, and the rest; while the loop goes on, the rest is still in the
    channel and the interest in writing is registered exactly if bytes wait. *)
Definition loop_inv (arrived : list (Msg Size)) (go : bool) ls : Prop :=
  state_ok (l_state ls) ∧ ∃ consumed rest, arrived = consumed ++ rest ∧
    l_out ls ++ queued (l_state ls) = concat (inputs consumed) ∧
    (go = true → rest = pending (l_rx ls) ∧ Shutdown ∉ consumed ∧ l_writable ls = needs_write (l_state ls)).

Definition stop_reason (arrived : list (Msg Size)) (turns : list (turn Size)) ls : Prop :=
  Shutdown ∈ arrived ∨ LoopExit ∈ l_events ls ∨ ¬ Forall turn_quiet turns.

Lemma loop_inv_stop arrived ls : loop_inv arrived true ls → loop_inv arrived false ls.
Proof. intros (Hst & consumed & rest & E & Hq & _). split; [done|]. by exists consumed, rest. Qed.

Lemma peek_pending (r : Receiver (Msg Size)) : let '(m, r') := peek r in pending r' = pending r.
Proof. by destruct r as [[|m l] [m'|]]. Qed.

Lemma drain_turn_wp arrived ls u events :
  loop_inv arrived true ls → Forall fits arrived → Forall event_ok events → t_reregister u = true →
  t_wait u = PollOk events →
  wp ('(go, r, st, sizes) ← drain_recv_channel (l_rx ls) (l_state ls);
      let ls := mkLoop st (l_read ls) r (l_writable ls) (l_out ls) (l_events ls) (l_sizes ls ++ sizes) in
      if negb go then mret (ls, false)
      else
        '(ls, go) ← on_events parser_advance sync_bytes_count drain_on_exit events ls;
        if negb go then mret (ls, false)
        else
          let needs_write := needs_write (l_state ls) in
          if negb (eqb needs_write (l_writable ls)) then
            if t_reregister u then mret (with_writable needs_write ls, true) else Panic PanicUnwrap
          else mret (ls, true))
    (λ '(ls', go), loop_inv arrived go ls' ∧ (go = false → stop_reason arrived [u] ls')).
Proof.
  intros (Hst & consumed & rest & E & Hq & Hgo) Hfit He Hre Hwait. destruct (Hgo eq_refl) as (-> & Hns & Hwr). clear Hgo.
  wp_step. unfold drain_recv_channel. wp_use (drain_spec (length (rx (l_rx ls)) + 2) (l_rx ls) (l_state ls) []); [|subst arrived; by apply Forall_app in Hfit as [_ ?]|done|].
  { unfold pending. rewrite length_app. destruct (peeked (l_rx ls)); simpl; lia. }
  intros [[[go r] st] sizes] (consumed' & Ep & Hq' & Hst' & _ & Ht & Hf). cbv zeta.
  assert (Hbytes : l_out ls ++ queued st = concat (inputs (consumed ++ consumed'))).
  { rewrite Hq', inputs_app, concat_app, <- Hq by done. by rewrite app_assoc. }
  assert (Earr : arrived = (consumed ++ consumed') ++ pending r) by by rewrite E, Ep, app_assoc.
  apply wp_if; intros Eg.
  - apply wp_ret. split; [|intros _; left].
    + split; [done|]. exists (consumed ++ consumed'), (pending r). by split_and!.
    + rewrite Earr, !elem_of_app. left; right. apply Hf. by destruct go.
  - destruct go; [|done]. destruct (Ht eq_refl) as [Hnil Hns']. wp_step. wp_use on_events_wp; [done|done|].
    intros [ls1 go1] [M1 Hstop]. pose proof (mv_ok _ _ M1 Hst') as Hst1. pose proof (mv_bytes _ _ M1 Hst') as Hb1. cbn in Hb1.
    rewrite Hbytes in Hb1. pose proof (mv_rx _ _ M1) as Hrx. cbn in Hrx.
    apply wp_if; intros Eg1; [apply negb_true_iff in Eg1; subst go1|].
    + apply wp_ret. split; [split; [done|]; exists (consumed ++ consumed'), (pending r); by split_and!|]. intros _. right.
      destruct (Hstop eq_refl) as [?|Hnq]; [by left|right]. rewrite Forall_singleton. unfold turn_quiet. by rewrite Hwait.
    + assert (Hend : ∀ b, b = needs_write (l_state ls1) → loop_inv arrived true (with_writable b ls1)).
      { intros b Hb. split; [done|]. exists (consumed ++ consumed'), (pending r). split; [done|]. split; [done|]. intros _. cbn.
        rewrite Hrx. split_and!; [done| |done]. rewrite not_elem_of_app. by split. }
      cbv zeta. rewrite Hre. apply wp_if; intros En; apply wp_ret; (split; [|done]); [by apply Hend|].
      apply negb_false_iff, eqb_prop in En. specialize (Hend (l_writable ls1)). by destruct ls1; apply Hend.
Qed.

Lemma loop_turn_wp u arrived ls :
  turn_ok u → Forall fits arrived → loop_inv arrived true ls →
  wp (loop_turn parser_advance sync_bytes_count stop_sync drain_on_exit u ls) (λ '(ls', go),
    loop_inv (arrived ++ t_arrived u) go ls' ∧ (go = false → stop_reason (arrived ++ t_arrived u) [u] ls')).
Proof.
  intros (Hfu & Hre & Hev) Hfit Hinv. unfold loop_turn.
  set (ls1 := with_rx _ ls).
  assert (Hinv1 : loop_inv (arrived ++ t_arrived u) true ls1).
  { destruct Hinv as (Hst & consumed & rest & E & Hq & Hgo). destruct (Hgo eq_refl) as (-> & Hns & Hwr). split; [done|].
    exists consumed, (pending (l_rx ls) ++ t_arrived u). split; [by rewrite E, app_assoc|]. split; [done|]. intros _.
    split_and!; [|done|done]. unfold pending. by rewrite <- app_assoc. }
  assert (Hfit1 : Forall fits (arrived ++ t_arrived u)) by by apply Forall_app.
  clearbody ls1. cbv zeta. destruct (t_wait u) as [events| |] eqn:Ew.
  - assert (Hpeek : ∀ r, pending r = pending (l_rx ls1) → loop_inv (arrived ++ t_arrived u) true (with_rx r ls1)).
    { intros r Hr. destruct Hinv1 as (Hst & consumed & rest & E & Hq & Hgo). split; [done|]. exists consumed, rest. split; [done|].
      split; [done|]. intros Hg. cbn. rewrite Hr. by apply Hgo. }
    case_bool_decide.
    + pose proof (peek_pending (l_rx ls1)) as Hp. destruct (peek (l_rx ls1)) as [m r]. specialize (Hpeek r Hp).
      case_bool_decide; [|by apply drain_turn_wp].
      destruct (stop_sync _ _) as [p' t']. apply wp_ret. split; [|done]. exact Hpeek.
    + by apply drain_turn_wp.
  - by apply wp_ret.
  - apply wp_ret. split; [by apply loop_inv_stop|]. intros _. right; right. rewrite Forall_singleton. unfold turn_quiet. rewrite Ew. by intros [].
Qed.

Lemma loop_run_wp turns : ∀ arrived ls,
  Forall turn_ok turns → Forall fits arrived → loop_inv arrived true ls →
  wp (loop_run parser_advance sync_bytes_count stop_sync drain_on_exit turns ls) (λ '(ls', go),
    loop_inv (arrived ++ concat (t_arrived <$> turns)) go ls' ∧
    (go = false → stop_reason (arrived ++ concat (t_arrived <$> turns)) turns ls')).
Proof.
  induction turns as [|u turns IH]; intros arrived ls Hok Hfit Hinv; cbn [loop_run].
  { apply wp_ret. cbn. rewrite app_nil_r. by split. }
  apply Forall_cons in Hok as [Hu Hok]. wp_step. wp_use loop_turn_wp; [done|done|done|]. intros [ls1 go] [Hi Hs]. cbn. rewrite app_assoc.
  apply wp_if; intros Eg.
  - subst go. wp_use IH; [done| |done|]; [apply Forall_app; split; [done|apply Hu]|]. intros [ls2 go2] [Hi2 Hs2]. split; [done|].
    intros Hg. destruct (Hs2 Hg) as [?|[?|Hq]]; [by left|by right; left|]. right; right. rewrite Forall_cons. tauto.
  - subst go. apply wp_ret. split.
    + destruct Hi as (Hst & consumed & rest & E & Hq & _). split; [done|]. exists consumed, (rest ++ concat (t_arrived <$> turns)).
      rewrite E, <- app_assoc. by split_and!.
    + intros _. destruct (Hs eq_refl) as [Hsh|[?|Hq]]; [left|by right; left|right; right].
      * rewrite elem_of_app. by left.
      * rewrite Forall_cons. rewrite Forall_singleton in Hq. tauto.
Qed.

End correct.

(** ** A short run *)

(** Three bytes arrive, the pseudo terminal takes two of them, and a fourth arrives with a
    shutdown. *)
Definition free_reading : Reading := mkReading (λ k, match k with O => Got [97] | _ => ReadWouldBlock end) (λ _, true) false.
Definition demo_turns : list (turn unit) :=
  [mkTurn [Input [1; 2; 3]] (PollOk []) true;
   mkTurn [] (PollOk [ReadWriteToken false true true free_reading demo_writer]) true;
   mkTurn [] PollInterrupted true;
   mkTurn [Input [4]; Shutdown] (PollOk []) true].

End PtyLoop.
