(* ===== verification/FrameDamage.v ===== *)
(** * Damage of the rendered frames (alacritty/src/display/damage.rs)

    The display keeps the damage of the current and of the next frame, adds what
    the terminal, the vi mode cursor and the selection damaged, and turns it into
    rectangles for the compositor.  [SizeInfo<u32>] is in pixels; rectangles have
    their origin at the bottom left of the window. *)

From S2P Require Import Prelude Index Selection Term TermOps.
#[local] Open Scope Z_scope.

Module FrameDamage.

Definition in_u32 (z : Z) : bool := (0 <=? z) && (z <=? 4294967295).
Definition u32_add (a b : Z) : exec Z := checked in_u32 (a + b).
Definition u32_sub (a b : Z) : exec Z := checked in_u32 (a - b).
Definition u32_mul (a b : Z) : exec Z := checked in_u32 (a * b).
Definition i32_mul (a b : Z) : exec Z := checked in_i32 (a * b).
Definition as_u32 (z : Z) : Z := z mod 4294967296.

(** [i32::abs] and [i32::clamp], which panics on an empty range. *)
Definition i32_abs (a : Z) : exec Z := checked in_i32 (Z.abs a).
Definition i32_clamp (a lo hi : Z) : exec Z := _ ← assert_ (lo <=? hi); mret (Z.max lo (Z.min a hi)).

#[global] Instance SelectionRange_eq_dec : EqDecision SelectionRange.
Proof. solve_decision. Defined.

Record SizeInfo := mkSizeInfo {
  si_width : Z; si_height : Z; si_cell_width : Z; si_cell_height : Z;
  si_padding_x : Z; si_padding_y : Z; si_screen_lines : Z; si_columns : Z }.

(** [glutin::surface::Rect]. *)
Record Rect := mkRect { rect_x : Z; rect_y : Z; rect_width : Z; rect_height : Z }.

Record FrameDamage := mkFrame {
  f_full : bool; f_lines : list LineDamageBounds; f_rects : list Rect }.

Record DamageTracker := mkTracker {
  old_vi_cursor : option Point;
  old_selection : option SelectionRange;
  debug : bool;
  frame : FrameDamage;
  next_frame : FrameDamage;
  dt_screen_lines : Z;
  dt_columns : Z }.

Implicit Types (f : FrameDamage) (d : DamageTracker) (si : SizeInfo) (r : Rect) (b : LineDamageBounds).

(** ** Frames *)

Definition damage_line b f : exec FrameDamage :=
  lines ← vec_modify (f_lines f) (d_line b) (bounds_expand (d_left b) (d_right b));
  mret (mkFrame (f_full f) lines (f_rects f)).

Definition damage_point (p : Point) f : exec FrameDamage :=
  lines ← vec_modify (f_lines f) (line p) (bounds_expand (column p) (column p));
  mret (mkFrame (f_full f) lines (f_rects f)).

Definition mark_fully_damaged f : FrameDamage := mkFrame true (f_lines f) (f_rects f).

(** The height of the window is the only part of the size that is used. *)
Definition viewport_y_to_damage_y (window_height y height : Z) : exec Z :=
  a ← i32_sub window_height y; i32_sub a height.
Definition damage_y_to_viewport_y (window_height : Z) r : exec Z :=
  a ← i32_sub window_height (rect_y r); i32_sub a (rect_height r).

Definition add_viewport_rect (window_height x y width height : Z) f : exec FrameDamage :=
  y ← viewport_y_to_damage_y window_height y height;
  mret (mkFrame (f_full f) (f_lines f) (f_rects f ++ [mkRect x y width height])).

Definition frame_reset (num_lines num_cols : Z) : FrameDamage :=
  mkFrame false (undamaged_lines num_cols num_lines) [].

Fixpoint any_damaged (n : nat) (l : Z) f : exec bool :=
  match n with
  | O => mret false
  | S n => b ← vec_get (f_lines f) l; if is_damaged b then mret true else any_damaged n (l + 1) f
  end.

Definition in_bounds b (col : Z) : bool := (d_left b <=? col) && (col <=? d_right b).

Definition intersects (start end_ : Point) f : exec bool :=
  start_line ← vec_get (f_lines f) (line start);
  end_line ← vec_get (f_lines f) (line end_);
  if f_full f then mret true
  else if in_bounds start_line (column start) then mret true
  else if in_bounds end_line (column end_) then mret true
  else first ← usize_add (line start) 1; any_damaged (Z.to_nat (line end_ - first)) first f.

(** ** The tracker *)

Definition tracker_resize (screen_lines columns : Z) d : DamageTracker :=
  mkTracker (old_vi_cursor d) (old_selection d) (debug d)
    (mark_fully_damaged (frame_reset screen_lines columns)) (frame_reset screen_lines columns)
    screen_lines columns.

Definition tracker_new (screen_lines columns : Z) : DamageTracker :=
  let default := mkFrame false [] [] in
  tracker_resize screen_lines columns
    (mkTracker None None false default default screen_lines columns).

Definition with_frame f d : DamageTracker :=
  mkTracker (old_vi_cursor d) (old_selection d) (debug d) f (next_frame d)
    (dt_screen_lines d) (dt_columns d).

Definition swap_damage d : DamageTracker :=
  mkTracker (old_vi_cursor d) (old_selection d) (debug d)
    (next_frame d) (frame_reset (dt_screen_lines d) (dt_columns d))
    (dt_screen_lines d) (dt_columns d).

Definition damage_cell (p : option Point) f : exec FrameDamage :=
  match p with Some p => damage_point p f | None => mret f end.

Definition damage_vi_cursor (vi_cursor : option Point) d : exec DamageTracker :=
  let old := old_vi_cursor d in
  let d := mkTracker vi_cursor (old_selection d) (debug d) (frame d) (next_frame d)
             (dt_screen_lines d) (dt_columns d) in
  if f_full (frame d) then mret d
  else
    f ← damage_cell vi_cursor (frame d);
    f ← damage_cell old f;
    mret (with_frame f d).

(** The lines of one selection. *)
Definition damage_range (s : SelectionRange) (display_offset : Z) d : exec DamageTracker :=
  let display_offset := as_i32 display_offset in
  last_visible_line ← i32_sub (as_i32 (dt_screen_lines d)) 1;
  let cols := dt_columns d in
  bottom ← i32_add (line (sr_end s)) display_offset;
  above ← (if bottom <? 0 then mret true
           else a ← i32_abs (line (sr_start s)); b ← i32_sub display_offset last_visible_line;
                mret (a <? b));
  if (above : bool) then mret d
  else
    top ← i32_add (line (sr_start s)) display_offset;
    let start := as_usize (Z.max top 0) in
    end_ ← i32_add (line (sr_end s)) display_offset;
    end_ ← i32_clamp end_ 0 last_visible_line;
    for_range start (as_usize end_ + 1) (λ l d,
      right ← usize_sub cols 1;
      lines ← vec_modify (f_lines (frame d)) l (bounds_expand 0 right);
      mret (with_frame (mkFrame (f_full (frame d)) lines (f_rects (frame d))) d)) d.

Definition damage_selection (selection : option SelectionRange) (display_offset : Z) d
    : exec DamageTracker :=
  let old := old_selection d in
  let d := mkTracker (old_vi_cursor d) selection (debug d) (frame d) (next_frame d)
             (dt_screen_lines d) (dt_columns d) in
  if f_full (frame d) || bool_decide (old = selection) then mret d
  else
    d ← (match selection with Some s => damage_range s display_offset d | None => mret d end);
    match old with Some s => damage_range s display_offset d | None => mret d end.

(** ** Rectangles *)

Definition rect_for_line si b : exec Rect :=
  y_top ← u32_sub (si_height si) (si_padding_y si);
  x ← u32_mul (as_u32 (d_left b)) (si_cell_width si);
  x ← u32_add (si_padding_x si) x;
  n ← usize_add (d_line b) 1;
  y ← u32_mul (as_u32 n) (si_cell_height si);
  y ← u32_sub y_top y;
  n ← usize_sub (d_right b) (d_left b); n ← usize_add n 1;
  width ← u32_mul (as_u32 n) (si_cell_width si);
  mret (mkRect (as_i32 x) (as_i32 y) (as_i32 width) (as_i32 (si_cell_height si))).

Definition overdamage si r : exec Rect :=
  x ← i32_sub (rect_x r) (as_i32 (si_cell_width si));
  let x := Z.max x 0 in
  right ← i32_sub (as_i32 (si_width si)) x;
  extra ← i32_mul 2 (as_i32 (si_cell_width si));
  width ← i32_add (rect_width r) extra;
  y ← i32_sub (rect_y r) (Z.quot (as_i32 (si_cell_height si)) 2);
  let y := Z.max y 0 in
  top ← i32_sub (as_i32 (si_height si)) y;
  height ← i32_add (rect_height r) (as_i32 (si_cell_height si));
  mret (mkRect x y (Z.min (Z.max right 0) width) (Z.min (Z.max top 0) height)).

Definition line_rect si b : exec Rect := r ← rect_for_line si b; overdamage si r.

Definition rects_overlap (lhs rhs : Rect) : exec bool :=
  a ← i32_add (rect_x lhs) (rect_width lhs);
  if a <? rect_x rhs then mret false else
  a ← i32_add (rect_x rhs) (rect_width rhs);
  if a <? rect_x lhs then mret false else
  a ← i32_add (rect_y lhs) (rect_height lhs);
  if a <? rect_y rhs then mret false else
  a ← i32_add (rect_y rhs) (rect_height rhs);
  mret (negb (a <? rect_y lhs)).

Definition merge_rects (lhs rhs : Rect) : exec Rect :=
  let left_x := Z.min (rect_x lhs) (rect_x rhs) in
  a ← i32_add (rect_x lhs) (rect_width lhs); b ← i32_add (rect_x rhs) (rect_width rhs);
  let right_x := Z.max a b in
  a ← i32_add (rect_y lhs) (rect_height lhs); b ← i32_add (rect_y rhs) (rect_height rhs);
  let y_top := Z.max a b in
  let y_bottom := Z.min (rect_y lhs) (rect_y rhs) in
  width ← i32_sub right_x left_x; height ← i32_sub y_top y_bottom;
  mret (mkRect left_x y_bottom width height).

(** [RenderDamageIterator::next]: merge the rectangles of the following lines as
    long as they overlap; returns the lines left. *)
Fixpoint merge_lines si (total : Rect) (lines : list LineDamageBounds)
    : exec (Rect * list LineDamageBounds) :=
  match lines with
  | [] => mret (total, [])
  | b :: rest =>
      next_rect ← line_rect si b;
      overlap ← rects_overlap total next_rect;
      if (overlap : bool) then total ← merge_rects total next_rect; merge_lines si total rest
      else mret (total, lines)
  end.

(** All rectangles; every one takes at least one line. *)
Fixpoint render_rects (fuel : nat) si (lines : list LineDamageBounds) : exec (list Rect) :=
  match fuel, lines with
  | _, [] => mret []
  | O, _ => Panic OutOfFuel
  | S fuel, b :: rest =>
      r ← line_rect si b;
      '(r, rest) ← merge_lines si r rest;
      rs ← render_rects fuel si rest;
      mret (r :: rs)
  end.

Definition shape_frame_damage si d : exec (list Rect) :=
  if f_full (frame d) then
    mret [mkRect 0 0 (as_i32 (si_width si)) (as_i32 (si_height si))]
  else
    lines ← damage_iterator (f_lines (frame d)) 0;
    rs ← render_rects (length lines) si lines;
    mret (rs ++ f_rects (frame d)).

(** ** The rectangles cover the damage *)

(** The lines are numbered and their bounds are inside of the screen. *)
Definition bounds_ok (cols : Z) b : Prop := 0 ≤ d_left b ≤ cols ∧ 0 ≤ d_right b < cols.
Definition lines_ok (n cols : Z) (lines : list LineDamageBounds) : Prop :=
  zlen lines = n ∧ ∀ i b, zlookup lines i = Some b → d_line b = i ∧ bounds_ok cols b.
Definition tracker_ok d : Prop :=
  1 ≤ dt_screen_lines d ≤ 536870912 ∧ 1 ≤ dt_columns d ≤ 536870912 ∧
  lines_ok (dt_screen_lines d) (dt_columns d) (f_lines (frame d)) ∧
  lines_ok (dt_screen_lines d) (dt_columns d) (f_lines (next_frame d)).

(** The window has room for the cells. *)
Definition fits si (n cols : Z) : Prop :=
  0 < si_cell_width si ∧ 0 < si_cell_height si ∧ 0 ≤ si_padding_x si ∧ 0 ≤ si_padding_y si ∧
  si_padding_x si + cols * si_cell_width si ≤ si_width si ≤ 536870912 ∧
  si_padding_y si + n * si_cell_height si ≤ si_height si ≤ 536870912.

(** The pixels of the cell in line [l] and column [col]. *)
Definition cell_rect si (l col : Z) : Rect :=
  mkRect (si_padding_x si + col * si_cell_width si)
    (si_height si - si_padding_y si - (l + 1) * si_cell_height si)
    (si_cell_width si) (si_cell_height si).

Definition inside (r r' : Rect) : Prop :=
  rect_x r' ≤ rect_x r ∧ rect_x r + rect_width r ≤ rect_x r' + rect_width r' ∧
  rect_y r' ≤ rect_y r ∧ rect_y r + rect_height r ≤ rect_y r' + rect_height r'.
Definition in_window si r : Prop :=
  0 ≤ rect_x r ∧ 0 ≤ rect_y r ∧ 0 ≤ rect_width r ∧ 0 ≤ rect_height r ∧
  rect_x r + rect_width r ≤ si_width si ∧ rect_y r + rect_height r ≤ si_height si.

(** A cell that has to be drawn again. *)
Definition damages f (l col : Z) : Prop :=
  f_full f = true ∨ ∃ b, zlookup (f_lines f) l = Some b ∧ d_left b ≤ col ≤ d_right b.

Lemma inside_trans r1 r2 r3 : inside r1 r2 → inside r2 r3 → inside r1 r3.
Proof. unfold inside. lia. Qed.

Lemma wp_u32 (z : Z) (Q : Z → Prop) : 0 ≤ z ≤ 4294967295 → Q z → wp (checked in_u32 z) Q.
Proof. intros. apply wp_checked; [unfold in_u32; lia|done]. Qed.
Lemma wp_i32_mul (x y : Z) (Q : Z → Prop) : -2147483648 ≤ x * y ≤ 2147483647 → Q (x * y) → wp (i32_mul x y) Q.
Proof. intros. apply wp_checked; [unfold in_i32, i32_min, i32_max; lia|done]. Qed.
Lemma as_u32_id z : 0 ≤ z ≤ 4294967295 → as_u32 z = z.
Proof. intros. unfold as_u32. rewrite Z.mod_small; lia. Qed.

Section size.
Context si (n cols : Z) (Hfits : fits si n cols).

(** Pixel offsets of cells do not leave the window. *)
Lemma cell_x_bounds (a b : Z) : 0 ≤ a ≤ b → b ≤ cols →
  0 ≤ a * si_cell_width si ≤ b * si_cell_width si ∧ b * si_cell_width si ≤ si_width si - si_padding_x si.
Proof using Hfits. destruct Hfits as (? & ? & ? & ? & ? & ?). nia. Qed.
Lemma cell_y_bounds (a b : Z) : 0 ≤ a ≤ b → b ≤ n →
  0 ≤ a * si_cell_height si ≤ b * si_cell_height si ∧
  b * si_cell_height si ≤ si_height si - si_padding_y si.
Proof using Hfits. destruct Hfits as (? & ? & ? & ? & ? & ?). nia. Qed.

Lemma rect_for_line_spec b :
  0 ≤ d_line b < n → 0 ≤ d_left b ≤ d_right b → d_right b < cols → n ≤ 536870912 → cols ≤ 536870912 →
  wp (rect_for_line si b) (λ r, in_window si r ∧
    ∀ col, d_left b ≤ col ≤ d_right b → inside (cell_rect si (d_line b) col) r).
Proof using Hfits.
  intros Hl Hlr Hr Hn Hc. pose proof (cell_x_bounds (d_left b) (d_right b + 1) ltac:(lia) ltac:(lia)).
  pose proof (cell_y_bounds (d_line b + 1) (d_line b + 1) ltac:(lia) ltac:(lia)).
  assert (Hw : (d_right b - d_left b + 1) * si_cell_width si
    = (d_right b + 1) * si_cell_width si - d_left b * si_cell_width si) by lia.
  destruct Hfits as (? & ? & ? & ? & ? & ?).
  assert (si_cell_height si ≤ si_height si) by nia.
  unfold rect_for_line, u32_sub, u32_mul, u32_add. rewrite (as_u32_id (d_left b)) by lia.
  apply wp_bind, wp_u32; [lia|]. apply wp_bind, wp_u32; [lia|]. apply wp_bind, wp_u32; [lia|].
  do 2 wp_step. rewrite as_u32_id by lia. apply wp_bind, wp_u32; [lia|]. apply wp_bind, wp_u32; [lia|].
  do 4 wp_step. rewrite as_u32_id by lia. apply wp_bind, wp_u32; [lia|]. wp_step.
  casts. unfold in_window, inside, cell_rect. simpl. split; [lia|]. intros col Hcol.
  pose proof (cell_x_bounds (d_left b) col ltac:(lia) ltac:(lia)).
  pose proof (cell_x_bounds (col + 1) (d_right b + 1) ltac:(lia) ltac:(lia)). lia.
Qed.

Lemma overdamage_spec r :
  1 ≤ n → 1 ≤ cols → in_window si r → wp (overdamage si r) (λ r', in_window si r' ∧ inside r r').
Proof using Hfits.
  intros Hn Hc Hr. destruct Hfits as (? & ? & ? & ? & ? & ?).
  assert (si_cell_width si ≤ si_width si) by nia. assert (si_cell_height si ≤ si_height si) by nia.
  destruct Hr as (? & ? & ? & ? & ? & ?). unfold overdamage. casts.
  pose proof (Z.quot_pos (si_cell_height si) 2). pose proof (Z.quot_le_upper_bound (si_cell_height si) 2 (si_cell_height si)).
  do 4 wp_step. apply wp_bind, wp_i32_mul; [lia|]. wp_steps. unfold in_window, inside. simpl. lia.
Qed.

(** What the rectangle of a damaged line covers. *)
Definition covers_line r b : Prop :=
  ∀ col, d_left b ≤ col ≤ d_right b → inside (cell_rect si (d_line b) col) r.
Definition line_damaged b : Prop :=
  0 ≤ d_line b < n ∧ 0 ≤ d_left b ≤ d_right b ∧ d_right b < cols.

Context (Hn : 1 ≤ n ≤ 536870912) (Hc : 1 ≤ cols ≤ 536870912).

Lemma line_rect_spec b :
  line_damaged b → wp (line_rect si b) (λ r, in_window si r ∧ covers_line r b).
Proof using Hfits Hn Hc.
  intros (? & ? & ?). unfold line_rect. apply wp_bind.
  wp_use rect_for_line_spec; [lia..|]. intros r [Hw Hcov].
  wp_use overdamage_spec; [lia..|done|]. intros r' [Hw' Hin]. split; [done|].
  intros col Hcol. by eapply inside_trans; [apply Hcov|].
Qed.

Lemma rects_overlap_returns r r' :
  in_window si r → in_window si r' → wp (rects_overlap r r') (λ _, True).
Proof using Hfits.
  destruct Hfits as (? & ? & ? & ? & ? & ?). unfold in_window, rects_overlap. intros. by wp_steps.
Qed.

Lemma merge_rects_spec r r' :
  in_window si r → in_window si r' →
  wp (merge_rects r r') (λ m, in_window si m ∧ inside r m ∧ inside r' m).
Proof using Hfits.
  destruct Hfits as (? & ? & ? & ? & ? & ?). unfold in_window, merge_rects, inside. intros.
  wp_steps. simpl. lia.
Qed.

Lemma merge_lines_spec lines : ∀ r,
  in_window si r → Forall line_damaged lines →
  wp (merge_lines si r lines) (λ '(r', rest), ∃ merged, lines = merged ++ rest ∧
    in_window si r' ∧ inside r r' ∧ Forall (covers_line r') merged).
Proof using Hfits Hn Hc.
  induction lines as [|b lines IH]; intros r Hw Hok; simpl.
  { exists []. split_and!; try done; unfold inside; lia. }
  apply Forall_cons in Hok as [Hb Hok]. apply wp_bind. wp_use line_rect_spec; [done|].
  intros r' [Hw' Hcov]. apply wp_bind. wp_use (rects_overlap_returns r r'); [done..|].
  intros [] _; [|exists []; split_and!; try done; unfold inside; lia].
  apply wp_bind. wp_use (merge_rects_spec r r'); [done..|]. intros m (Hm & Hi & Hi').
  wp_use IH; [done..|]. intros [r2 rest] (merged & -> & Hw2 & Hi2 & Hcov2).
  exists (b :: merged). split_and!; try done; [by eapply inside_trans|].
  apply Forall_cons. split; [|done]. intros col Hcol.
  eapply inside_trans; [by apply Hcov|]. by eapply inside_trans.
Qed.

Lemma render_rects_spec fuel : ∀ lines,
  (length lines ≤ fuel)%nat → Forall line_damaged lines →
  wp (render_rects fuel si lines) (λ rs, Forall (in_window si) rs ∧
    Forall (λ b, ∃ r, r ∈ rs ∧ covers_line r b) lines).
Proof using Hfits Hn Hc.
  induction fuel as [|fuel IH]; intros [|b lines] Hf Hok; try (by simpl in *; lia); try done.
  apply Forall_cons in Hok as [Hb Hok]. simpl. apply wp_bind. wp_use line_rect_spec; [done|].
  intros r [Hw Hcov]. apply wp_bind. wp_use merge_lines_spec; [done..|].
  intros [r' rest] (merged & -> & Hw' & Hi & Hm). apply Forall_app in Hok as [_ Hok].
  apply wp_bind. wp_use (IH rest); [simpl in Hf; rewrite length_app in Hf; lia|done|].
  intros rs [Hrs Hcovs]. apply wp_ret. split; [by apply Forall_cons|].
  apply Forall_cons. split.
  { exists r'. split; [by left|]. intros col Hcol. by eapply inside_trans; [apply Hcov|]. }
  apply Forall_app. split.
  - eapply Forall_impl; [exact Hm|]. intros b' Hb'. exists r'. split; [by left|done].
  - eapply Forall_impl; [exact Hcovs|]. intros b' (r2 & ? & ?). exists r2. split; [by right|done].
Qed.
End size.

Lemma damage_items_filter (lines : list LineDamageBounds) :
  Forall (λ b, 0 ≤ d_line b ≤ 536870912) lines →
  damage_items lines 0 = Ok (filter (λ b, is_damaged b = true) lines).
Proof.
  induction 1 as [|b lines Hb _ IH]; [done|]. cbn [damage_items]. rewrite usize_add_ok by lia.
  cbn [mbind exec_bind]. rewrite IH. cbn [mbind exec_bind mret exec_ret]. rewrite Z.add_0_r, filter_cons.
  destruct (is_damaged b); [by destruct b|done].
Qed.

Lemma damage_iterator_filter (n cols : Z) (lines : list LineDamageBounds) :
  n ≤ 536870912 → lines_ok n cols lines →
  damage_iterator lines 0 = Ok (filter (λ b, is_damaged b = true) lines) ∧
  Forall (line_damaged n cols) (filter (λ b, is_damaged b = true) lines).
Proof.
  intros Hn [Hlen Hl].
  assert (Hall : ∀ b, b ∈ lines → 0 ≤ d_line b < n ∧ bounds_ok cols b).
  { intros b [i Hb]%list_elem_of_lookup_1. pose proof (lookup_lt_Some _ _ _ Hb).
    destruct (Hl (Z.of_nat i) b) as [-> Hok]; [by rewrite zlookup_nat, Nat2Z.id by lia|].
    split; [unfold zlen in Hlen; lia|done]. }
  split.
  - unfold damage_iterator, saturating_sub. rewrite take_ge by (unfold zlen; lia).
    apply damage_items_filter, Forall_forall. intros b Hb. destruct (Hall b Hb). lia.
  - apply Forall_forall. intros b [Hd Hb]%list_elem_of_filter. destruct (Hall b Hb) as [? [? ?]].
    unfold is_damaged in Hd. unfold line_damaged. lia.
Qed.

Lemma undamaged_lines_clean (cols n : Z) :
  0 ≤ n → 1 ≤ cols → lines_ok n cols (undamaged_lines cols n) ∧
  ∀ l col, 0 ≤ col → ¬ damages (mkFrame false (undamaged_lines cols n) []) l col.
Proof.
  intros Hn Hc.
  assert (Hb : ∀ i b, zlookup (undamaged_lines cols n) i = Some b → b = undamaged i cols).
  { intros i b. unfold undamaged_lines. rewrite zlookup_fmap, fmap_Some.
    intros (k & [Hi Hk]%zlookup_spec & ->). apply lookup_seq in Hk as [-> _]. f_equal. lia. }
  split; [split|].
  - unfold undamaged_lines, zlen. rewrite length_fmap, length_seq. lia.
  - intros i b ->%Hb. unfold bounds_ok. simpl. lia.
  - intros l col Hcol [?|(b & E & ?)]; [done|]. simpl in E. apply Hb in E as ->. simpl in *. lia.
Qed.

(** Expanding the bounds of one line. *)
Lemma expand_spec f (n cols l a c : Z) (Q : list LineDamageBounds → Prop) :
  lines_ok n cols (f_lines f) → 0 ≤ l < n → 0 ≤ a ≤ c → c < cols →
  (∀ lines, let f' := mkFrame (f_full f) lines (f_rects f) in
     lines_ok n cols lines → (∀ l col, damages f l col → damages f' l col) →
     (∀ col, a ≤ col ≤ c → damages f' l col) → Q lines) →
  wp (vec_modify (f_lines f) l (bounds_expand a c)) Q.
Proof.
  intros [Hlen Hl] Hr Ha Hc HQ. apply wp_vec_modify; [lia|]. intros b Hb.
  assert (Hlook := λ j, zlookup_insert (f_lines f) l j (bounds_expand a c b) ltac:(lia)).
  apply HQ.
  - split; [by rewrite zlen_insert|]. intros i b'. rewrite Hlook.
    destruct (Z.eqb_spec i l) as [->|]; [|apply Hl]. intros [= <-].
    destruct (Hl l b Hb) as [? [? ?]]. unfold bounds_ok. simpl. lia.
  - intros l' col [Hf|(b' & Hb' & Hcol)]; [by left|right]. simpl. rewrite Hlook.
    destruct (Z.eqb_spec l' l) as [->|]; [|by exists b'].
    eexists. split; [done|]. rewrite Hb in Hb'. injection Hb' as <-. simpl. lia.
  - intros col Hcol. right. simpl. rewrite Hlook, Z.eqb_refl. eexists. split; [done|]. simpl. lia.
Qed.

(** C29: the rectangles for the compositor cover all damage: for a window with room
    for the cells, shaping the frame returns without overflow, every cell that is
    damaged, by its line or because the frame is fully damaged, lies inside one of
    the rectangles, and the rectangles that were added are among them. *)
Theorem frame_rects_cover si d :
  tracker_ok d → fits si (dt_screen_lines d) (dt_columns d) →
  ∃ rs, shape_frame_damage si d = Ok rs ∧
    (∀ l col, 0 ≤ l < dt_screen_lines d → 0 ≤ col < dt_columns d → damages (frame d) l col →
       ∃ r, r ∈ rs ∧ inside (cell_rect si l col) r) ∧
    (f_full (frame d) = false → ∀ r, r ∈ f_rects (frame d) → r ∈ rs).
Proof.
  intros (Hn & Hc & Hok & _) Hfits. unfold shape_frame_damage.
  destruct (f_full (frame d)) eqn:Hfull.
  - eexists. split; [done|]. split; [|done]. intros l col Hl Hcol _. eexists. split; [by left|].
    pose proof (cell_x_bounds _ _ _ Hfits col (col + 1) ltac:(lia) ltac:(lia)).
    pose proof (cell_y_bounds _ _ _ Hfits (l + 1) (l + 1) ltac:(lia) ltac:(lia)).
    destruct Hfits as (? & ? & ? & ? & ? & ?). casts. unfold inside, cell_rect. simpl. lia.
  - destruct (damage_iterator_filter _ _ _ (proj2 Hn) Hok) as [-> Hd]. cbn [mbind exec_bind].
    set (items := filter _ _) in *.
    destruct (wp_exists _ _ (render_rects_spec si _ _ Hfits Hn Hc (length items) items ltac:(done) Hd))
      as (rs & -> & _ & Hcov). cbn [mbind exec_bind]. eexists. split; [done|]. split.
    + intros l col Hl Hcol [?|(b & Hb & Hin)]; [congruence|].
      assert (Hbi : b ∈ items).
      { apply list_elem_of_filter. split; [unfold is_damaged; lia|]. by eapply zlookup_elem. }
      rewrite Forall_forall in Hcov. destruct (Hcov b Hbi) as (r & Hr & Hcr).
      destruct (proj2 Hok l b Hb) as [<- _]. exists r. split; [by apply elem_of_app; left|by apply Hcr].
    + intros _ r Hr. by apply elem_of_app; right.
Qed.

(** ** What the tracker records *)

Implicit Types (o : option Point).

(** Only the frame changes, it stays well formed and loses no damage. *)
Definition only_damages d d' : Prop :=
  tracker_ok d' ∧ next_frame d' = next_frame d ∧ dt_screen_lines d' = dt_screen_lines d ∧
  dt_columns d' = dt_columns d ∧ ∀ l col, damages (frame d) l col → damages (frame d') l col.

Lemma only_damages_refl d : tracker_ok d → only_damages d d.
Proof. done. Qed.

Lemma only_damages_trans d1 d2 d3 : only_damages d1 d2 → only_damages d2 d3 → only_damages d1 d3.
Proof.
  intros (? & ? & ? & ? & Hm1) (? & ? & ? & ? & Hm2). split_and!; try congruence. intros. by apply Hm2, Hm1.
Qed.

(** A cursor inside of the screen, if there is one. *)
Definition cursor_in d o : Prop :=
  ∀ p, o = Some p → 0 ≤ line p < dt_screen_lines d ∧ 0 ≤ column p < dt_columns d.

Lemma damage_cell_spec d o :
  tracker_ok d → cursor_in d o →
  wp (damage_cell o (frame d)) (λ f, only_damages d (with_frame f d) ∧
    ∀ p, o = Some p → damages f (line p) (column p)).
Proof.
  intros W Ho. pose proof W as (Hn & Hc & Hok & Hok'). destruct o as [p|]; simpl.
  - destruct (Ho p eq_refl). unfold damage_point. apply wp_bind.
    eapply expand_spec; [done|lia..|]. intros lines f' Hl Hk Ha. apply wp_ret.
    split; [by split_and!|]. intros q [= <-]. apply Ha. lia.
  - split; [by destruct d|done].
Qed.

(** A selection in the range of lines of a terminal. *)
Definition range_ok (s : SelectionRange) : Prop :=
  -536870912 ≤ line (sr_start s) ≤ line (sr_end s) ∧ line (sr_end s) ≤ 536870912.

Lemma damage_range_spec d (s : SelectionRange) (off : Z) :
  tracker_ok d → range_ok s → 0 ≤ off ≤ 536870912 →
  wp (damage_range s off d) (λ d', only_damages d d' ∧
    ∀ l col, 0 ≤ l < dt_screen_lines d → line (sr_start s) ≤ l - off ≤ line (sr_end s) →
      0 ≤ col < dt_columns d → damages (frame d') l col).
Proof.
  intros W [Hs He] Ho. pose proof W as (Hn & Hc & _ & _). unfold damage_range. casts.
  do 2 wp_step. casts. do 2 wp_step. apply wp_bind.
  set (above := ∀ l, 0 ≤ l < dt_screen_lines d → ¬ line (sr_start s) ≤ l - off ≤ line (sr_end s)).
  eapply (wp_mono _ (λ b : bool, if b then above else 0 ≤ line (sr_end s) + off)).
  { wp_step; [apply wp_ret; intros l Hl Hv; lia|].
    apply wp_bind, wp_checked; [unfold in_i32, i32_min, i32_max; lia|]. do 2 wp_step. apply wp_ret.
    destruct (Z.ltb_spec (Z.abs (line (sr_start s))) (off - (dt_screen_lines d - 1))); [|lia].
    intros l Hl Hv. lia. }
  intros [] Hab; [apply wp_ret; split; [by apply only_damages_refl|]; intros l col Hl Hv; by destruct (Hab l)|].
  do 4 wp_step. unfold i32_clamp. do 2 wp_step. wp_step. casts. apply wp_ret. casts.
  set (start := Z.max (line (sr_start s) + off) 0) in *.
  eapply (wp_for_range (λ i d', only_damages d d' ∧
    ∀ l col, start ≤ l < i → l < dt_screen_lines d → 0 ≤ col < dt_columns d → damages (frame d') l col)).
  - split; [by apply only_damages_refl|]. intros; lia.
  - intros i d' Hi [Hk Hcov]. pose proof Hk as ((Hn' & Hc' & Hok & Hok') & Enf & En & Ec & _).
    do 2 wp_step. apply wp_bind. eapply expand_spec; [exact Hok|lia..|].
    intros lines f' Hl Hmono Ha. apply wp_ret. split.
    + eapply only_damages_trans; [exact Hk|]. split_and!; try done; lia.
    + intros l col Hl' Hl2 Hcol. destruct (decide (l = i)) as [->|]; [apply Ha; lia|].
      apply Hmono, Hcov; lia.
  - intros d' [Hk Hcov]. split; [done|]. intros l col Hl Hv Hcol. apply Hcov; lia.
Qed.

Definition selection_in (o : option SelectionRange) : Prop := ∀ s, o = Some s → range_ok s.

Lemma damage_option_spec d (o : option SelectionRange) (off : Z) :
  tracker_ok d → selection_in o → 0 ≤ off ≤ 536870912 →
  wp (match o with Some s => damage_range s off d | None => mret d end) (λ d', only_damages d d' ∧
    ∀ s l col, o = Some s → 0 ≤ l < dt_screen_lines d → line (sr_start s) ≤ l - off ≤ line (sr_end s) →
      0 ≤ col < dt_columns d → damages (frame d') l col).
Proof.
  intros W Hs Ho. destruct o as [s|]; [|split; [by apply only_damages_refl|done]].
  wp_use damage_range_spec; [done|by apply Hs|done|]. intros d' [Hk Hc]. split; [done|].
  intros s' l col [= <-]. apply Hc.
Qed.

(** The damage tracker records what has to be drawn again and forgets nothing:
    moving the vi mode cursor damages its old and its new cell, a changed selection
    damages every visible line of the old and of the new selection, damage of the
    frame is never lost before the frame is drawn, and drawing it makes the next
    frame's damage current and leaves a frame without damage behind. *)
Theorem damage_tracker_records d :
  tracker_ok d →
  (∀ o, cursor_in d o → cursor_in d (old_vi_cursor d) →
     ∃ d', damage_vi_cursor o d = Ok d' ∧ only_damages d d' ∧ old_vi_cursor d' = o ∧
       ∀ p, o = Some p ∨ old_vi_cursor d = Some p → damages (frame d') (line p) (column p)) ∧
  (∀ sel off, selection_in sel → selection_in (old_selection d) → 0 ≤ off ≤ 536870912 →
     ∃ d', damage_selection sel off d = Ok d' ∧ only_damages d d' ∧
       (old_selection d ≠ sel → ∀ s l col, sel = Some s ∨ old_selection d = Some s →
          0 ≤ l < dt_screen_lines d → line (sr_start s) ≤ l - off ≤ line (sr_end s) →
          0 ≤ col < dt_columns d → damages (frame d') l col)) ∧
  (tracker_ok (swap_damage d) ∧ frame (swap_damage d) = next_frame d ∧
   ∀ l col, 0 ≤ col → ¬ damages (next_frame (swap_damage d)) l col).
Proof.
  intros W. pose proof W as (Hn & Hc & Hok & Hok'). split; [|split].
  - intros o Ho Hold. unfold damage_vi_cursor. simpl. destruct (f_full (frame d)) eqn:Hf.
    { eexists. split; [done|]. split; [done|]. split; [done|]. intros p _. by left. }
    destruct (wp_exists _ _ (damage_cell_spec d o W Ho)) as (f1 & E1 & Hk1 & Hd1). rewrite E1. simpl.
    destruct (wp_exists _ _ (damage_cell_spec (with_frame f1 d) (old_vi_cursor d) (proj1 Hk1) Hold))
      as (f2 & E2 & Hk2 & Hd2). simpl in E2. rewrite E2. simpl. eexists. split; [done|]. split.
    { exact (only_damages_trans _ _ _ Hk1 Hk2). }
    split; [done|]. intros p [Hp|Hp]; [|by apply Hd2].
    destruct Hk2 as (_ & _ & _ & _ & Hm). by apply Hm, Hd1.
  - intros sel off Hs Hold Ho. unfold damage_selection. simpl.
    destruct (f_full (frame d)) eqn:Hf; simpl.
    { eexists. split; [done|]. split; [done|]. intros _ s l col _ _ _ _. by left. }
    case_bool_decide as Heq; [eexists; split; [done|]; split; [done|]; congruence|].
    set (d0 := mkTracker _ _ _ _ _ _ _). assert (W0 : tracker_ok d0) by done.
    destruct (wp_exists _ _ (damage_option_spec d0 sel off W0 Hs Ho)) as (d1 & E1 & Hk1 & Hd1).
    rewrite E1. cbn [mbind exec_bind].
    destruct (wp_exists _ _ (damage_option_spec d1 (old_selection d) off (proj1 Hk1) Hold Ho))
      as (d2 & E2 & Hk2 & Hd2). rewrite E2. exists d2. split; [done|].
    split; [exact (only_damages_trans d0 _ _ Hk1 Hk2)|].
    destruct Hk1 as (_ & _ & En & Ec & _). destruct Hk2 as (_ & _ & _ & _ & Hm). simpl in En, Ec.
    intros _ s l col [Hsel|Hsel] Hl Hv Hcol.
    + apply Hm. by apply (Hd1 s).
    + apply (Hd2 s); [done| |done|]; [by rewrite En|by rewrite Ec].
  - destruct (undamaged_lines_clean (dt_columns d) (dt_screen_lines d)) as [Hu Hnd]; [lia..|].
    split; [|split; [done|exact Hnd]]. split_and!; try done; simpl; lia.
Qed.

(** ** Examples *)

(** A window of 10 columns and 4 lines with cells of 8 by 16 pixels. *)
Definition demo_window : SizeInfo := mkSizeInfo 84 70 8 16 2 3 4 10.
Definition demo_tracker : DamageTracker := swap_damage (tracker_new 4 10).

Lemma demo_tracker_ok : tracker_ok demo_tracker.
Proof.
  destruct (undamaged_lines_clean 10 4) as [Hu _]; [lia..|].
  split_and!; simpl; try lia; exact Hu.
Qed.

Lemma damage_tracker_records_witness :
  ∃ d, damage_vi_cursor (Some (mkPoint 2 5)) demo_tracker = Ok d ∧ damages (frame d) 2 5.
Proof.
  destruct (damage_tracker_records demo_tracker demo_tracker_ok) as [Hv _].
  destruct (Hv (Some (mkPoint 2 5))) as (d & E & _ & _ & Hd).
  - intros p [= <-]. simpl. lia.
  - intros p Hp. discriminate Hp.
  - exists d. split; [exact E|]. apply (Hd (mkPoint 2 5)). left. reflexivity.
Defined.

(** The tracker after damaging one cell. *)
Definition damaged_tracker : DamageTracker := Eval vm_compute in
  match damage_cell (Some (mkPoint 2 5)) (frame demo_tracker) with
  | Ok f => with_frame f demo_tracker
  | Panic _ => demo_tracker
  end.

Lemma damaged_tracker_ok : tracker_ok damaged_tracker.
Proof.
  assert (G : wp (damage_cell (Some (mkPoint 2 5)) (frame demo_tracker)) (λ f,
    tracker_ok (with_frame f demo_tracker))).
  { eapply wp_mono; [apply damage_cell_spec; [exact demo_tracker_ok|]|].
    - intros p [= <-]. simpl. lia.
    - intros f [[Hf _] _]. exact Hf. }
  vm_compute in G. exact G.
Qed.

Lemma frame_rects_cover_witness :
  shape_frame_damage demo_window damaged_tracker = Ok [mkRect 34 11 24 32] ∧
  inside (cell_rect demo_window 2 5) (mkRect 34 11 24 32).
Proof.
  destruct (frame_rects_cover demo_window damaged_tracker damaged_tracker_ok) as (rs & E & Hc & _).
  { unfold fits. simpl. lia. }
  assert (E' : shape_frame_damage demo_window damaged_tracker = Ok [mkRect 34 11 24 32])
    by (vm_compute; reflexivity).
  split; [exact E'|]. rewrite E' in E. injection E as <-.
  destruct (Hc 2 5) as (r & Hr & Hi); [simpl; lia|simpl; lia| |].
  - right. exists (mkBounds 2 5 5). split; [reflexivity|simpl; lia].
  - apply list_elem_of_singleton in Hr as ->. exact Hi.
Defined.

(** [intersects] only looks at the columns of the two ends: damage between them on
    the same line is missed. *)
Example intersects_misses_middle :
  intersects (mkPoint 2 3) (mkPoint 2 8) (frame damaged_tracker) = Ok false ∧
  in_bounds (mkBounds 2 5 5) 5 = true.
Proof. split; reflexivity. Qed.

End FrameDamage.
