(* ===== verification/Shortener.v ===== *)
(** * Shortening of text (alacritty/src/string.rs)

    [StrShortener], the iterator that yields a text cut to a number of columns,
    with a spacer behind every fullwidth character and a marker where the text
    was cut.  The widths of characters come from the unicode-width crate and are
    an argument. *)

From S2P Require Import Prelude.
#[local] Open Scope Z_scope.

Module Shortener.
Notation char := Z (only parsing).
Definition SPACE : char := 32.

Inductive TextAction := ActSpacer | ActTerminate | ActShortener | ActChar.
Inductive ShortenDirection := ShortenLeft | ShortenRight.

Record StrShortener := mkShortener {
  chars : list char;
  accumulated_len : Z;
  max_width : Z;
  direction : ShortenDirection;
  shortener : option char;
  text_action : TextAction }.

Section shortener.
Context (width : char → option Z).
Implicit Types (s : StrShortener).

Definition ch_width (ch : char) : Z := default 1 (width ch).

(** The loop over [text.chars().rev().enumerate()]: [current_len], [offset], the
    marker and what is left of the iterator. *)
Fixpoint left_scan (max_width : Z) (rev_text : list char) (idx current_len offset : Z)
    (sh : option char) : exec (Z * Z * option char * list char) :=
  match rev_text with
  | [] => mret (current_len, offset, sh, [])
  | ch :: rest =>
      current_len ← usize_add current_len (ch_width ch);
      let go sh := next ← usize_add idx 1; left_scan max_width rest next current_len next sh in
      match current_len ?= max_width with
      | Gt => mret (current_len, offset, sh, rest)
      | Eq =>
          match sh, rest with
          | Some _, _ :: _ => mret (current_len, offset, sh, rest)
          | _, _ => go None
          end
      | Lt => go sh
      end
  end.

Definition new (text : list char) (max_width : Z) (direction : ShortenDirection) (sh : option char)
    : exec StrShortener :=
  let sh := match text with [] => None | _ => sh end in
  match direction with
  | ShortenRight => mret (mkShortener text 0 max_width direction sh ActChar)
  | ShortenLeft =>
      '(current_len, offset, sh, rest) ← left_scan max_width (reverse text) 0 0 0 sh;
      (* the index of the last element plus one, if there is one *)
      let num_chars := match rest with [] => offset | _ => zlen text end in
      skip_chars ← usize_sub num_chars offset;
      let action := match sh with
                    | Some _ => if current_len <? max_width then ActChar else ActShortener
                    | None => ActChar
                    end in
      mret (mkShortener (drop (Z.to_nat skip_chars) text) 0 max_width direction sh action)
  end.

Definition next s : exec (option char * StrShortener) :=
  let upd cs acc sh act := mkShortener cs acc (max_width s) (direction s) sh act in
  match text_action s with
  | ActSpacer => mret (Some SPACE, upd (chars s) (accumulated_len s) (shortener s) ActChar)
  | ActTerminate => mret (None, s)
  | ActShortener =>
      let act := match direction s with ShortenLeft => ActChar | ShortenRight => ActTerminate end in
      mret (shortener s, upd (chars s) (accumulated_len s) None act)
  | ActChar =>
      match chars s with
      | [] => mret (None, s)
      | ch :: rest =>
          acc ← usize_add (accumulated_len s) (ch_width ch);
          if max_width s <? acc then mret (shortener s, upd rest acc (shortener s) ActTerminate)
          else
            match shortener s with
            | Some sh =>
                if acc =? max_width s then
                  mret (Some (match rest with [] => ch | _ => sh end),
                        upd rest acc (shortener s) ActTerminate)
                else mret (Some ch, upd rest acc (shortener s)
                             (if ch_width ch =? 2 then ActSpacer else ActChar))
            | None => mret (Some ch, upd rest acc None
                             (if ch_width ch =? 2 then ActSpacer else ActChar))
            end
      end
  end.

(** [collect::<String>()]; [fuel] bounds the number of characters. *)
Fixpoint collect (fuel : nat) s : exec (list char) :=
  match fuel with
  | O => Panic OutOfFuel
  | S fuel =>
      '(item, s) ← next s;
      match item with
      | None => mret []
      | Some ch => out ← collect fuel s; mret (ch :: out)
      end
  end.

(** ** What fits *)

(** A character and its spacer, and the columns of a text. *)
Definition cells_of (ch : char) : list char := if ch_width ch =? 2 then [ch; SPACE] else [ch].
Definition cells (text : list char) : list char := text ≫= cells_of.
Definition columns (text : list char) : Z := foldr (λ ch n, ch_width ch + n) 0 text.

Context (Hwidth : ∀ ch w, width ch = Some w → 0 ≤ w ≤ 2).

Lemma ch_width_bounds ch : 0 ≤ ch_width ch ≤ 2.
Proof. unfold ch_width. destruct (width ch) eqn:E; simpl; [by apply Hwidth in E|lia]. Qed.

Lemma columns_bounds text : 0 ≤ columns text ≤ 2 * zlen text.
Proof.
  induction text as [|ch text IH]; simpl; [unfold zlen; simpl; lia|].
  pose proof (ch_width_bounds ch). unfold zlen in *. simpl. lia.
Qed.

(** How the output ends behind the first [k] characters: the whole text was
    yielded, or the marker, or the last character without its spacer. *)
Inductive ending (text : list char) (sh : option char) (k : nat) : list char → Prop :=
  | end_complete : k = length text → ending text sh k []
  | end_cut : (k < length text)%nat → ending text sh k (option_list sh)
  | end_last ch : text !! k = Some ch → S k = length text → is_Some sh → ending text sh k [ch].

(** The output for [text] from the column [acc] on: the longest prefix that fits
    before [max], with its spacers, and the ending. *)
Definition shortened (text : list char) (sh : option char) (acc max : Z) (out : list char) : Prop :=
  ∃ k tail, out = cells (take k text) ++ tail ∧ ending text sh k tail ∧
    acc + columns (take k text) + zlen tail ≤ max ∧
    ((k < length text)%nat → max ≤ acc + columns (take (S k) text)) ∧
    (is_Some sh → (k < length text)%nat → acc + columns (take k text) < max).

Lemma shortened_cons ch text sh acc max out :
  shortened text sh (acc + ch_width ch) max out →
  shortened (ch :: text) sh acc max (cells_of ch ++ out).
Proof.
  intros (k & tail & -> & He & Hw & Hm & Hs). exists (S k), tail. simpl. split_and!.
  - unfold cells. simpl. by rewrite (assoc_L app).
  - destruct He; [apply end_complete|apply end_cut|eapply end_last]; simpl; try done; lia.
  - simpl in *. lia.
  - intros Hk. specialize (Hm ltac:(lia)). simpl in *. lia.
  - intros Hsh Hk. specialize (Hs Hsh ltac:(lia)). lia.
Qed.

(** Once terminated, nothing more is yielded. *)
Lemma collect_terminated fuel cs acc max d sh :
  collect (S fuel) (mkShortener cs acc max d sh ActTerminate) = Ok [].
Proof. done. Qed.

Lemma collect_char fuel s ch s' :
  next s = Ok (Some ch, s') → collect (S fuel) s = (out ← collect fuel s'; mret (ch :: out)).
Proof. intros E. simpl. by rewrite E. Qed.

(** Yielding one character and its spacer. *)
Lemma collect_cells fuel ch rest acc max d sh Q :
  next (mkShortener (ch :: rest) acc max d sh ActChar)
    = Ok (Some ch, mkShortener rest (acc + ch_width ch) max d sh
            (if ch_width ch =? 2 then ActSpacer else ActChar)) →
  (∀ fuel', (fuel ≤ fuel')%nat →
    wp (collect fuel' (mkShortener rest (acc + ch_width ch) max d sh ActChar))
      (λ out, Q (cells_of ch ++ out))) →
  wp (collect (S (S fuel)) (mkShortener (ch :: rest) acc max d sh ActChar)) Q.
Proof.
  intros En H. rewrite (collect_char _ _ _ _ En). apply wp_bind. unfold cells_of in H.
  destruct (ch_width ch =? 2).
  - rewrite (collect_char _ (mkShortener rest (acc + ch_width ch) max d sh ActSpacer) SPACE
      (mkShortener rest (acc + ch_width ch) max d sh ActChar)) by done.
    apply wp_bind. eapply wp_mono; [apply H; lia|]. intros out HQ. apply wp_ret, wp_ret. exact HQ.
  - eapply wp_mono; [apply H; lia|]. intros out HQ. apply wp_ret. exact HQ.
Qed.

(** Yielding the last character of the output. *)
Lemma collect_last fuel s ch cs acc max d sh (Q : list char → Prop) :
  next s = Ok (Some ch, mkShortener cs acc max d sh ActTerminate) → Q [ch] →
  wp (collect (S (S fuel)) s) Q.
Proof. intros E HQ. rewrite (collect_char _ _ _ _ E), collect_terminated. exact HQ. Qed.

(** One step on a character: it is yielded, it is where the text is cut, or it is
    the last one and fits exactly. *)
Lemma next_char ch rest acc max d sh :
  0 ≤ acc + ch_width ch ≤ usize_max →
  let acc' := acc + ch_width ch in
  next (mkShortener (ch :: rest) acc max d sh ActChar) =
    if max <? acc' then Ok (sh, mkShortener rest acc' max d sh ActTerminate)
    else if (acc' =? max) && bool_decide (is_Some sh) then
      Ok (match rest with [] => Some ch | _ => sh end, mkShortener rest acc' max d sh ActTerminate)
    else Ok (Some ch, mkShortener rest acc' max d sh (if ch_width ch =? 2 then ActSpacer else ActChar)).
Proof.
  intros Hb. unfold usize_max in Hb. unfold next. simpl. rewrite usize_add_ok by lia. simpl.
  destruct (max <? _); [done|]. destruct sh as [c|]; [|by rewrite andb_false_r].
  rewrite bool_decide_eq_true_2, andb_true_r by eauto. destruct (_ =? max); [|done]. by destruct rest.
Qed.

Lemma collect_shortened text sh max d : ∀ fuel acc,
  (2 * length text + 1 < fuel)%nat → 0 ≤ acc ≤ max → (is_Some sh → acc < max) →
  acc + columns text ≤ usize_max →
  wp (collect fuel (mkShortener text acc max d sh ActChar)) (shortened text sh acc max).
Proof.
  induction text as [|ch rest IH]; intros fuel acc Hf Hacc Hsh Hu.
  { destruct fuel as [|fuel]; [lia|]. exists 0%nat, []. simpl. split_and!; try done; try lia.
    - by apply end_complete.
    - unfold zlen. simpl. lia. }
  pose proof (ch_width_bounds ch) as Hc. pose proof (columns_bounds rest) as Hcol. simpl in Hu.
  pose proof (next_char ch rest acc max d sh ltac:(lia)) as Hn. cbv zeta in Hn.
  destruct fuel as [|[|fuel]]; simpl in Hf; [lia..|].
  (* the text is cut before [ch] *)
  assert (Hcut : max ≤ acc + ch_width ch → shortened (ch :: rest) sh acc max (option_list sh)).
  { intros Hm. exists 0%nat, (option_list sh). simpl. split_and!; try done; try lia.
    - apply end_cut. simpl. lia.
    - destruct sh; unfold zlen; simpl; [specialize (Hsh ltac:(eauto))|]; lia.
    - intros Hs _. specialize (Hsh Hs). lia. }
  destruct (Z.ltb_spec max (acc + ch_width ch)) as [Hgt|Hle].
  { destruct sh as [c|].
    - eapply collect_last; [exact Hn|]. apply Hcut. lia.
    - simpl. rewrite Hn. simpl. apply Hcut. lia. }
  destruct (Z.eqb_spec (acc + ch_width ch) max) as [Heq|Hne]; simpl in Hn.
  - case_bool_decide as Hs; simpl in Hn.
    + destruct Hs as [c ->]. destruct rest as [|ch' rest].
      * eapply collect_last; [exact Hn|]. exists 0%nat, [ch]. simpl. specialize (Hsh ltac:(eauto)).
        split_and!; try done; try (unfold zlen; simpl; lia). by apply end_last.
      * eapply collect_last; [exact Hn|]. apply Hcut. lia.
    + eapply collect_cells; [exact Hn|]. intros fuel' Hf'.
      eapply wp_mono; [apply IH; [lia..|done|lia]|]. apply shortened_cons.
  - eapply collect_cells; [exact Hn|]. intros fuel' Hf'.
    eapply wp_mono; [apply IH; [lia..| |lia]|]; [lia|]. apply shortened_cons.
Qed.

Lemma shortened_fits text sh acc max out :
  acc + columns text < max → shortened text sh acc max out → out = cells text.
Proof.
  intros Hfit (k & tail & -> & He & _ & Hm & _).
  assert (k < length text → False)%nat as Hk.
  { intros Hk. specialize (Hm Hk). rewrite <- (take_drop (S k) text) in Hfit.
    assert (Happ : ∀ a b, columns (a ++ b) = columns a + columns b)
      by (intros a b; induction a; simpl; lia).
    rewrite Happ in Hfit. pose proof (columns_bounds (drop (S k) text)). lia. }
  destruct He as [->| |ch Hch Hlen _]; [|by destruct Hk|destruct Hk; lia].
  by rewrite app_nil_r, take_ge by lia.
Qed.

(** A text that fits is scanned to its end. *)
Lemma left_scan_fits max rev_text : ∀ idx len offset sh,
  0 ≤ idx → 0 ≤ len → idx + zlen rev_text ≤ usize_max → len + columns rev_text < max →
  max ≤ usize_max → offset = idx →
  left_scan max rev_text idx len offset sh
    = Ok (len + columns rev_text, idx + zlen rev_text, sh, []).
Proof.
  unfold usize_max. induction rev_text as [|ch rest IH]; intros idx len offset sh Hi Hl Hu Hf Hmax ->.
  { simpl. unfold zlen. simpl. by rewrite !Z.add_0_r. }
  pose proof (ch_width_bounds ch). pose proof (columns_bounds rest). simpl in *. unfold zlen in *.
  simpl in Hu. rewrite (usize_add_ok len), (usize_add_ok idx) by lia. simpl.
  rewrite (proj2 (Z.compare_lt_iff (len + ch_width ch) max)) by lia.
  rewrite IH by lia. do 4 f_equal; lia.
Qed.

Lemma columns_reverse text : columns (reverse text) = columns text.
Proof.
  assert (Happ : ∀ a b, columns (a ++ b) = columns a + columns b)
    by (intros a b; induction a; simpl; lia).
  induction text as [|ch text IH]; [done|]. rewrite reverse_cons, Happ, IH. simpl. lia.
Qed.

(** Shortening terminates and yields a text that is narrower than the limit
    unchanged, with a spacer behind every fullwidth character, in both directions.
    Shortening on the right yields, for any limit of at least one column, the
    longest prefix that leaves room for the marker (without a marker: the longest
    prefix that fits), followed by the marker if anything was cut, and never more
    columns than the limit. *)
Theorem shortener_fits text max d sh fuel :
  1 ≤ max → columns text ≤ usize_max → zlen text ≤ usize_max → max ≤ usize_max →
  (2 * length text + 1 < fuel)%nat →
  (columns text < max → (s ← new text max d sh; collect fuel s) = Ok (cells text)) ∧
  (d = ShortenRight →
   wp (s ← new text max d sh; collect fuel s)
     (shortened text (match text with [] => None | _ => sh end) 0 max)).
Proof.
  intros Hm Hc Hl Hu Hf.
  set (sh' := match text with [] => None | _ => sh end).
  assert (Hcollect : ∀ d, wp (collect fuel (mkShortener text 0 max d sh' ActChar))
    (shortened text sh' 0 max)) by (intros d'; apply collect_shortened; [lia..|done]).
  split.
  - intros Hfit. apply wp_is. destruct d; simpl; fold sh'.
    + pose proof (columns_reverse text) as Hr.
      assert (Hz : zlen (reverse text) = zlen text) by (unfold zlen; by rewrite length_reverse).
      pose proof (columns_bounds text) as Hb0.
      rewrite left_scan_fits by (rewrite ?Hr, ?Hz; lia). simpl. rewrite Hz, Hr.
      pose proof (zlen_nonneg text). unfold usize_max in *. rewrite usize_sub_ok by lia. simpl.
      rewrite !Z.add_0_l, Z.sub_diag, drop_0. rewrite (proj2 (Z.ltb_lt (columns text) max)) by done.
      replace (match sh' with Some _ => ActChar | None => ActChar end) with ActChar by by destruct sh'.
      eapply wp_mono; [apply Hcollect|]. intros out. by apply shortened_fits.
    + eapply wp_mono; [apply Hcollect|]. intros out. by apply shortened_fits.
  - intros ->. apply Hcollect.
Qed.
End shortener.

(** ** Examples *)

(** Characters from 1000 on are fullwidth. *)
Definition demo_width (ch : char) : option Z := Some (if 1000 <=? ch then 2 else 1).

Definition shorten (text : list char) (max : Z) (d : ShortenDirection) (sh : option char) :=
  s ← new demo_width text max d sh; collect demo_width 20 s.

Lemma shortener_fits_witness :
  shorten [1; 2000; 3] 5 ShortenLeft (Some 46) = Ok [1; 2000; 32; 3] ∧
  shorten [1; 2000; 3] 3 ShortenRight (Some 46) = Ok [1; 46] ∧
  ∃ out, shorten [1; 2000; 3] 3 ShortenRight (Some 46) = Ok out ∧
    shortened demo_width [1; 2000; 3] (Some 46) 0 3 out.
Proof.
  assert (Hw : ∀ ch w, demo_width ch = Some w → 0 ≤ w ≤ 2).
  { unfold demo_width. intros ch w [= <-]. destruct (1000 <=? ch); lia. }
  split; [|split; [by vm_compute|]].
  - apply (proj1 (shortener_fits demo_width Hw [1; 2000; 3] 5 ShortenLeft (Some 46) 20
      ltac:(lia) ltac:(by vm_compute) ltac:(by vm_compute) ltac:(by vm_compute) ltac:(simpl; lia))).
    by vm_compute.
  - apply wp_exists.
    exact (proj2 (shortener_fits demo_width Hw [1; 2000; 3] 3 ShortenRight (Some 46) 20
      ltac:(lia) ltac:(by vm_compute) ltac:(by vm_compute) ltac:(by vm_compute) ltac:(simpl; lia))
      eq_refl).
Defined.

(** Shortening on the left: if the text is too long by its first character only,
    [iter.last()] finds no character left and nothing is skipped, so the end of the
    text is cut instead of its start. *)
Example left_cuts_wrong_end :
  shorten [1; 2; 3] 2 ShortenLeft None = Ok [1; 2] ∧ shorten [0; 1; 2; 3] 2 ShortenLeft None = Ok [2; 3].
Proof. by vm_compute. Qed.

(** With a marker and a fullwidth first character the output is wider than the
    limit: three columns instead of two. *)
Example left_marker_overflows :
  shorten [2000; 1] 2 ShortenLeft (Some 46) = Ok [46; 2000; 32].
Proof. by vm_compute. Qed.
End Shortener.
