(* ===== verification/MessageBar.v ===== *)
(** * The message bar (alacritty/src/message_bar.rs)

    Messages wrapped to the width of the window and the queue of messages.  A
    string is the list of its characters; positions in a string are in bytes and
    an operation at a position inside of a character panics.  The widths of
    characters come from the unicode-width crate and are an argument. *)

From S2P Require Import Prelude.
#[local] Open Scope Z_scope.

Module MessageBar.
Notation char := Z (only parsing).
Notation str := (list Z) (only parsing).

Definition CLOSE_BUTTON_TEXT : str := [91; 88; 93].
Definition CLOSE_BUTTON_PADDING : Z := 1.
Definition MIN_FREE_LINES : Z := 3.
(** [MESSAGE TRUNCATED] in square brackets. *)
Definition TRUNCATED_MESSAGE : str :=
  [91; 77; 69; 83; 83; 65; 71; 69; 32; 84; 82; 85; 78; 67; 65; 84; 69; 68; 93].

Inductive MessageType := Error | Warning.
Record Message := mkMessage { msg_text : str; msg_ty : MessageType; msg_target : option str }.

#[global] Instance MessageType_eq_dec : EqDecision MessageType.
Proof. solve_decision. Defined.
#[global] Instance Message_eq_dec : EqDecision Message.
Proof. solve_decision. Defined.

Definition message_new (text : str) (ty : MessageType) : Message := mkMessage text ty None.
Definition set_target (target : str) (m : Message) : Message :=
  mkMessage (msg_text m) (msg_ty m) (Some target).

(** ** Strings *)

(** [char::is_whitespace]. *)
Definition is_whitespace (c : char) : bool :=
  ((9 <=? c) && (c <=? 13)) || (c =? 32) || (c =? 133) || (c =? 160) || (c =? 5760) ||
  ((8192 <=? c) && (c <=? 8202)) || (c =? 8232) || (c =? 8233) || (c =? 8239) || (c =? 8287) ||
  (c =? 12288).

Definition len_utf8 (c : char) : Z :=
  if c <? 128 then 1 else if c <? 2048 then 2 else if c <? 65536 then 3 else 4.
Definition byte_len (s : str) : Z := foldr (λ c n, len_utf8 c + n) 0 s.

(** [split_off] at a byte position. *)
Fixpoint split_off (n : Z) (s : str) : exec (str * str) :=
  if n =? 0 then mret ([], s)
  else match s with
       | [] => Panic PanicAssert
       | c :: s => if n <? len_utf8 c then Panic PanicAssert
                   else '(a, b) ← split_off (n - len_utf8 c) s; mret (c :: a, b)
       end.

(** [truncate]. *)
Definition truncate (n : Z) (s : str) : exec str :=
  if n <=? byte_len s then '(a, _) ← split_off n s; mret a else mret s.

(** [rfind(char::is_whitespace)]: the byte position of the last whitespace. *)
Fixpoint rfind_whitespace (pos : Z) (s : str) : option Z :=
  match s with
  | [] => None
  | c :: s =>
      match rfind_whitespace (pos + len_utf8 c) s with
      | Some n => Some n
      | None => if is_whitespace c then Some pos else None
      end
  end.

Definition pop_char (s : str) : str := take (pred (length s)) s.

Fixpoint trim_start (s : str) : str :=
  match s with [] => [] | c :: s' => if is_whitespace c then trim_start s' else s end.
Definition trim (s : str) : str := reverse (trim_start (reverse (trim_start s))).

(** ** Wrapping *)

Definition pad_text (s : str) (num_cols : Z) : str :=
  s ++ replicate (Z.to_nat (saturating_sub num_cols (zlen s))) 32.

Section text.
Context (width : char → option Z) (num_cols : Z).

Definition button_len : Z := zlen CLOSE_BUTTON_TEXT.

(** A line break is due in front of [c]. *)
Definition breaks (c : char) (lines : list str) (line_len : Z) : bool :=
  (c =? 10) || (line_len =? num_cols) ||
  (bool_decide (lines = []) && (button_len <=? num_cols) &&
   (line_len =? saturating_sub num_cols (button_len + CLOSE_BUTTON_PADDING))).

(** The line, split at its last whitespace. *)
Definition split_line (ws : bool) (line : str) : exec (str * str) :=
  match (if ws then None else rfind_whitespace 0 line) with
  | Some index =>
      n ← usize_add index 1;
      '(line, split) ← split_off n line;
      mret (pop_char line, split)
  | None => mret (line, [])
  end.

(** [line.push(c)] and the spacer; the line and its length. *)
Definition push_char (c : char) (line : str) (line_len : Z) : exec (str * Z) :=
  let w := default 0 (width c) in
  len ← usize_add line_len w;
  mret (line ++ [c] ++ (if w =? 2 then [32] else []), len).

Fixpoint wrap (s : str) (lines : list str) (line : str) (line_len : Z) : exec (list str) :=
  match s with
  | [] => mret (lines ++ [pad_text line num_cols])
  | c :: s =>
      if breaks c lines line_len then
        let ws := is_whitespace c in
        '(line, new_line) ← split_line ws line;
        let lines := lines ++ [pad_text line num_cols] in
        if ws then wrap s lines new_line (zlen new_line)
        else '(line, line_len) ← push_char c new_line (zlen new_line); wrap s lines line line_len
      else '(line, line_len) ← push_char c line line_len; wrap s lines line line_len
  end.

(** The last line is replaced. *)
Definition set_last (s : str) (lines : list str) : list str :=
  match lines with [] => [] | _ => take (pred (length lines)) lines ++ [s] end.

Definition truncate_lines (max_lines : Z) (lines : list str) : list str :=
  if max_lines <? zlen lines then
    let lines := take (Z.to_nat max_lines) lines in
    if byte_len TRUNCATED_MESSAGE <=? num_cols
    then set_last (pad_text TRUNCATED_MESSAGE num_cols) lines else lines
  else lines.

Definition add_button (lines : list str) : exec (list str) :=
  if button_len <=? num_cols then
    match lines with
    | line :: rest =>
        n ← usize_sub num_cols button_len;
        line ← truncate n line;
        mret ((line ++ CLOSE_BUTTON_TEXT) :: rest)
    | [] => mret []
    end
  else mret lines.

(** [Message::text]; [total_lines] are the lines of the window, a quotient of
    floating point numbers rounded down. *)
Definition text (total_lines : Z) (m : Message) : exec (list str) :=
  let max_lines := saturating_sub total_lines MIN_FREE_LINES in
  lines ← wrap (trim (msg_text m)) [] [] 0;
  add_button (truncate_lines max_lines lines).
End text.

(** ** The queue *)

Record MessageBuffer := mkBuffer { messages : list Message }.

Definition is_empty (b : MessageBuffer) : bool := bool_decide (messages b = []).
Definition message (b : MessageBuffer) : option Message := head (messages b).
Definition pop (b : MessageBuffer) : MessageBuffer :=
  match messages b with
  | m :: ms => mkBuffer (filter (λ m', m' ≠ m) ms)
  | [] => b
  end.
Definition remove_target (target : str) (b : MessageBuffer) : MessageBuffer :=
  mkBuffer (filter (λ m, msg_target m ≠ Some target) (messages b)).
Definition push (m : Message) (b : MessageBuffer) : MessageBuffer := mkBuffer (messages b ++ [m]).
Definition is_queued (m : Message) (b : MessageBuffer) : bool := bool_decide (m ∈ messages b).

(** ** ASCII messages are shown completely *)

(** Printable ASCII, with line breaks. *)
Definition printable (c : char) : Prop := 32 ≤ c ≤ 126.
Definition ascii_text (s : str) : Prop := Forall (λ c, printable c ∨ c = 10) s.

(** The characters that are not white space. *)
Definition visible (s : str) : str := filter (λ c, is_whitespace c = false) s.

Lemma visible_app s s' : visible (s ++ s') = visible s ++ visible s'.
Proof. apply filter_app. Qed.
Lemma visible_spaces n : visible (replicate n 32) = [].
Proof. by induction n. Qed.
Lemma visible_pad s n : visible (pad_text s n) = visible s.
Proof. unfold pad_text. by rewrite visible_app, visible_spaces, app_nil_r. Qed.

Lemma trim_start_visible s : visible (trim_start s) = visible s.
Proof.
  induction s as [|c s IH]; simpl; [done|]. destruct (is_whitespace c) eqn:E; [|done].
  rewrite IH. unfold visible. rewrite filter_cons_False; [done|congruence].
Qed.
Lemma visible_reverse s : visible (reverse s) = reverse (visible s).
Proof. apply filter_reverse. Qed.
Lemma trim_visible s : visible (trim s) = visible s.
Proof.
  unfold trim. rewrite visible_reverse, trim_start_visible, visible_reverse, trim_start_visible.
  by rewrite reverse_involutive.
Qed.

Lemma trim_start_Forall (P : char → Prop) s : Forall P s → Forall P (trim_start s).
Proof. induction 1 as [|c s Hc Hs IH]; simpl; [done|]. destruct (is_whitespace c); [done|by constructor]. Qed.
Lemma trim_Forall (P : char → Prop) s : Forall P s → Forall P (trim s).
Proof. intros H. unfold trim. by apply Forall_reverse, trim_start_Forall, Forall_reverse, trim_start_Forall. Qed.

Lemma len_utf8_ascii c : printable c → len_utf8 c = 1.
Proof. unfold printable, len_utf8. intros. destruct (Z.ltb_spec c 128); lia. Qed.
Lemma byte_len_ascii s : Forall printable s → byte_len s = zlen s.
Proof.
  induction 1 as [|c s Hc _ IH]; [done|]. simpl. rewrite len_utf8_ascii, IH by done. unfold zlen. simpl. lia.
Qed.

Lemma split_off_app a b : Forall printable a → split_off (zlen a) (a ++ b) = Ok (a, b).
Proof.
  induction 1 as [|c a Hc _ IH]; [by destruct b|].
  assert (zlen (c :: a) = zlen a + 1) as -> by (unfold zlen; simpl; lia). pose proof (zlen_nonneg a).
  cbn [app split_off]. rewrite len_utf8_ascii, Z.add_simpl_r, IH by done.
  destruct (Z.eqb_spec (zlen a + 1) 0); [lia|]. destruct (Z.ltb_spec (zlen a + 1) 1); [lia|done].
Qed.

Lemma rfind_whitespace_spec s : ∀ pos n,
  Forall printable s → rfind_whitespace pos s = Some n →
  ∃ a w b, s = a ++ w :: b ∧ n = pos + zlen a ∧ is_whitespace w = true.
Proof.
  induction s as [|c s IH]; intros pos n Hs; simpl; [done|]. apply Forall_cons in Hs as [Hc Hs].
  rewrite len_utf8_ascii by done. destruct (rfind_whitespace (pos + 1) s) as [k|] eqn:E.
  - intros [= <-]. destruct (IH _ _ Hs E) as (a & w & b & -> & -> & Hw). exists (c :: a), w, b.
    split_and!; [done| |done]. unfold zlen. simpl. lia.
  - destruct (is_whitespace c) eqn:Hw; [|done]. intros [= <-]. exists [], c, s.
    split_and!; [done| |done]. unfold zlen. simpl. lia.
Qed.

(** A line is split without losing more than a white space. *)
Lemma split_line_spec ws line :
  Forall printable line → zlen line ≤ 4294967296 →
  wp (split_line ws line) (λ '(a, b), Forall printable a ∧ Forall printable b ∧
    visible a ++ visible b = visible line ∧ zlen a ≤ zlen line ∧
    (b = [] ∨ zlen b < zlen line) ∧ (ws = true → b = [])).
Proof.
  intros Hl Hlen. unfold split_line.
  assert (Hnone : wp (mret (line, []) : exec (str * str)) (λ '(a, b), Forall printable a ∧ Forall printable b ∧
    visible a ++ visible b = visible line ∧ zlen a ≤ zlen line ∧
    (b = [] ∨ zlen b < zlen line) ∧ (ws = true → b = []))).
  { split_and!; try done; [|by left]. unfold visible at 2. simpl. by rewrite app_nil_r. }
  destruct ws; [exact Hnone|]. destruct (rfind_whitespace 0 line) as [n|] eqn:E; [|exact Hnone].
  apply rfind_whitespace_spec in E as (a & w & b & -> & -> & Hw); [|done]. clear Hnone.
  apply Forall_app in Hl as [Ha [Hwp Hb]%Forall_cons]. rewrite zlen_app in Hlen. pose proof (zlen_nonneg a).
  assert (Hone : zlen (w :: b) = zlen b + 1) by (unfold zlen; simpl; lia). pose proof (zlen_nonneg b).
  do 2 wp_step. replace (0 + zlen a + 1) with (zlen (a ++ [w])) by (rewrite zlen_app; unfold zlen; simpl; lia).
  replace (a ++ w :: b) with ((a ++ [w]) ++ b) by (by rewrite <- (assoc_L app)).
  rewrite split_off_app by (apply Forall_app; split; [done|by constructor]). cbn [mbind exec_bind].
  apply wp_ret. unfold pop_char. rewrite length_app, Nat.add_comm. simpl. rewrite take_app_length.
  split_and!; try done.
  - rewrite !visible_app. unfold visible at 4. rewrite filter_cons_False by congruence.
    by rewrite filter_nil, app_nil_r.
  - rewrite zlen_app, zlen_app. unfold zlen. lia.
  - right. rewrite !zlen_app. unfold zlen in *. simpl in *. lia.
Qed.

Section wrapping.
Context (width : char → option Z) (num_cols : Z).
Context (Hwidth : ∀ c, printable c → width c = Some 1) (Hcols : 1 ≤ num_cols ≤ 4294967296).

(** The columns of the first line that leave room for the button, and of the
    others. *)
Definition line_limit (lines : list str) : Z :=
  if bool_decide (lines = []) && (button_len <=? num_cols)
  then Z.max 0 (num_cols - 4) else num_cols.

(** The lines so far: printable, as wide as the window, the first one with room for
    the button. *)
Definition lines_ok (lines : list str) : Prop :=
  Forall (λ l, Forall printable l ∧ zlen l = num_cols) lines ∧
  (button_len ≤ num_cols → ∀ l, head lines = Some l →
     ∃ content, l = pad_text content num_cols ∧ zlen content ≤ Z.max 0 (num_cols - 4)).

Definition visible_lines (lines : list str) : str := lines ≫= visible.

Lemma pad_text_ok s : Forall printable s → zlen s ≤ num_cols →
  Forall printable (pad_text s num_cols) ∧ zlen (pad_text s num_cols) = num_cols.
Proof using.
  intros Hs Hl. unfold pad_text, saturating_sub. split.
  - apply Forall_app. split; [done|]. apply Forall_replicate. unfold printable. lia.
  - rewrite zlen_app, zlen_replicate. lia.
Qed.

Lemma line_limit_le lines : line_limit lines ≤ num_cols.
Proof using Hcols. unfold line_limit. destruct (_ && _); lia. Qed.

Lemma lines_ok_app lines s :
  lines_ok lines → Forall printable s → zlen s ≤ line_limit lines →
  lines_ok (lines ++ [pad_text s num_cols]).
Proof using Hcols.
  intros [Hl Hh] Hs Hlen. pose proof (line_limit_le lines). split.
  - apply Forall_app. split; [done|]. apply Forall_singleton, pad_text_ok; [done|lia].
  - intros Hb l. destruct lines as [|l0 lines]; simpl; [|apply Hh; done].
    intros [= <-]. exists s. split; [done|]. unfold line_limit in Hlen.
    rewrite bool_decide_true in Hlen by done. simpl in Hlen. unfold button_len in *.
    destruct (zlen CLOSE_BUTTON_TEXT <=? num_cols) eqn:E; simpl in Hlen; lia.
Qed.

Lemma visible_lines_app lines s : visible_lines (lines ++ [pad_text s num_cols]) = visible_lines lines ++ visible s.
Proof using. unfold visible_lines. rewrite bind_app. simpl. by rewrite app_nil_r, visible_pad. Qed.

Lemma push_char_ok c line : printable c → zlen line ≤ num_cols →
  push_char width c line (zlen line) = Ok (line ++ [c], zlen (line ++ [c])).
Proof using Hwidth Hcols.
  intros Hc Hl. unfold push_char. rewrite Hwidth by done. pose proof (zlen_nonneg line). simpl.
  rewrite usize_add_ok by lia. simpl. by rewrite zlen_app.
Qed.

Lemma visible_cons c s : visible (c :: s) = visible [c] ++ visible s.
Proof using. by rewrite <- visible_app. Qed.

Lemma visible_ws c : is_whitespace c = true → visible [c] = [].
Proof using. intros. unfold visible. by rewrite filter_cons_False by congruence. Qed.

Lemma wrap_spec s : ∀ lines line,
  ascii_text s → lines_ok lines → Forall printable line → zlen line ≤ line_limit lines →
  wp (wrap width num_cols s lines line (zlen line)) (λ out, lines_ok out ∧ out ≠ [] ∧
    visible_lines out = visible_lines lines ++ visible line ++ visible s).
Proof using Hwidth Hcols.
  induction s as [|c s IH]; intros lines line Hs Hl Hp Hlen; cbn [wrap].
  { apply wp_ret. split; [by apply lines_ok_app|]. split; [by intros [_ ?]%app_nil|].
    by rewrite visible_lines_app, app_nil_r. }
  apply Forall_cons in Hs as [Hc Hs]. pose proof (line_limit_le lines). pose proof (zlen_nonneg line).
  destruct (breaks num_cols c lines (zlen line)) eqn:Hb.
  - apply wp_bind. wp_use split_line_spec; [done|lia|].
    intros [a b] (Ha & Hbp & Hv & Hal & Hbl & Hws).
    assert (Hok : lines_ok (lines ++ [pad_text a num_cols])) by (apply lines_ok_app; [done..|lia]).
    assert (Hlim : line_limit (lines ++ [pad_text a num_cols]) = num_cols).
    { unfold line_limit. rewrite bool_decide_false; [done|]. by intros [_ ?]%app_nil. }
    assert (zlen b < num_cols) by (destruct Hbl as [->|]; [unfold zlen; simpl|]; lia).
    destruct (is_whitespace c) eqn:Ew.
    + wp_use IH; [done..|rewrite Hlim; lia|]. intros out (Ho & Hne & E). split_and!; [done..|].
      rewrite E, visible_lines_app, (visible_cons c), visible_ws, <- Hv by done. simpl.
      by rewrite <- !(assoc_L app).
    + assert (Hpc : printable c) by (destruct Hc as [?| ->]; done).
      rewrite push_char_ok by (done || lia). cbn [mbind exec_bind].
      wp_use IH; [done..| |rewrite Hlim, zlen_app; unfold zlen in *; simpl; lia|].
      { apply Forall_app. split; [done|by constructor]. }
      intros out (Ho & Hne & E). split_and!; [done..|].
      rewrite E, visible_lines_app, (visible_cons c s), visible_app, <- Hv. by rewrite <- !(assoc_L app).
  - unfold breaks in Hb. apply orb_false_iff in Hb as [[Hnl Hcol]%orb_false_iff Hfirst].
    assert (Hpc : printable c) by (destruct Hc as [?| ->]; done).
    rewrite push_char_ok by (done || lia). cbn [mbind exec_bind].
    wp_use IH; [done..| | |].
    { apply Forall_app. split; [done|by constructor]. }
    { assert (zlen (line ++ [c]) = zlen line + 1) as -> by (rewrite zlen_app; unfold zlen; simpl; lia).
      unfold line_limit, saturating_sub, CLOSE_BUTTON_PADDING in *.
      change button_len with 3 in *.
      destruct (bool_decide (lines = [])), (3 <=? num_cols); simpl in *; lia. }
    intros out (Ho & Hne & E). split_and!; [done..|].
    rewrite E, (visible_cons c s), visible_app. by rewrite <- !(assoc_L app).
Qed.

Lemma truncate_ascii n l : Forall printable l → 0 ≤ n ≤ zlen l → truncate n l = Ok (take (Z.to_nat n) l).
Proof using.
  intros Hl Hn. unfold truncate. rewrite byte_len_ascii by done. destruct (Z.leb_spec n (zlen l)); [|lia].
  pose proof (split_off_app (take (Z.to_nat n) l) (drop (Z.to_nat n) l)) as E.
  rewrite take_drop, zlen_take, Z2Nat.id, Z.min_l in E by lia. rewrite E; [done|by apply Forall_take].
Qed.

Definition line_ok (l : str) : Prop := Forall printable l ∧ zlen l = num_cols.

(** The button replaces the end of the first line. *)
Lemma add_button_spec lines :
  Forall line_ok lines →
  wp (add_button num_cols lines) (λ out, zlen out = zlen lines ∧ Forall line_ok out ∧
    tail out = tail lines ∧
    (button_len ≤ num_cols → ∀ l, head lines = Some l →
       head out = Some (take (Z.to_nat (num_cols - 3)) l ++ CLOSE_BUTTON_TEXT)) ∧
    (num_cols < button_len → out = lines)).
Proof using Hcols.
  intros Hl. unfold add_button. change button_len with 3.
  destruct (Z.leb_spec 3 num_cols) as [Hb|Hb]; [|apply wp_ret; split_and!; try done; lia].
  destruct lines as [|l rest]; [apply wp_ret; by split_and!|].
  apply Forall_cons in Hl as [[Hp Hz] Hl]. do 2 wp_step. rewrite truncate_ascii by (done || lia).
  cbn [mbind exec_bind]. apply wp_ret. simpl. split_and!; try done; [|by intros _ l' [= <-]|lia].
  apply Forall_cons. split; [|done]. split.
  - apply Forall_app. split; [by apply Forall_take|]. unfold CLOSE_BUTTON_TEXT, printable.
    repeat constructor; lia.
  - rewrite zlen_app, zlen_take. unfold zlen in *. simpl. lia.
Qed.

Lemma visible_take_pad s n :
  zlen s ≤ Z.of_nat n → visible (take n (pad_text s num_cols)) = visible s.
Proof using.
  intros Hn. unfold pad_text. rewrite take_app_ge by (unfold zlen in Hn; lia).
  by rewrite visible_app, take_replicate, visible_spaces, app_nil_r.
Qed.

Lemma truncate_lines_ok max lines :
  0 ≤ max → Forall line_ok lines →
  Forall line_ok (truncate_lines num_cols max lines) ∧
  zlen (truncate_lines num_cols max lines) = Z.min max (zlen lines) ∧
  (zlen lines ≤ max → truncate_lines num_cols max lines = lines) ∧
  (max < zlen lines → 1 ≤ max → byte_len TRUNCATED_MESSAGE ≤ num_cols →
     last (truncate_lines num_cols max lines) = Some (pad_text TRUNCATED_MESSAGE num_cols)).
Proof using.
  intros Hmax Hl. unfold truncate_lines. destruct (Z.ltb_spec max (zlen lines)) as [Hlt|Hge].
  2: { split_and!; try done; lia. }
  assert (Ht : Forall line_ok (take (Z.to_nat max) lines)) by by apply Forall_take.
  assert (Hz : zlen (take (Z.to_nat max) lines) = max) by (rewrite zlen_take; lia).
  destruct (Z.leb_spec (byte_len TRUNCATED_MESSAGE) num_cols) as [Hm|Hm].
  - unfold set_last. destruct (take (Z.to_nat max) lines) as [|l0 rest] eqn:E.
    { unfold zlen in Hz. simpl in Hz. split_and!; try done; unfold zlen in *; simpl; lia. }
    split_and!; [| |lia|intros; by rewrite last_snoc].
    + apply Forall_app. split; [by apply Forall_take|]. apply Forall_singleton, pad_text_ok; [|done].
      repeat constructor; unfold printable; lia.
    + rewrite zlen_app, zlen_take. unfold zlen in *. simpl in *. lia.
  - split_and!; try done; lia.
Qed.

(** A message of printable ASCII characters is shown completely: its lines are
    as wide as the window and leave the free lines below, and unless there are too
    many lines all characters of the message but white space appear in order, with
    the button at the end of the first line; a message that is too long ends in the
    note that it was truncated, if that fits. *)
Lemma message_text_complete (total_lines : Z) (m : Message) :
  0 ≤ total_lines → ascii_text (msg_text m) →
  let max_lines := saturating_sub total_lines MIN_FREE_LINES in
  ∃ all lines, wrap width num_cols (trim (msg_text m)) [] [] 0 = Ok all ∧
    text width num_cols total_lines m = Ok lines ∧
    zlen lines ≤ max_lines ∧ Forall (λ l, zlen l = num_cols) lines ∧
    (zlen all ≤ max_lines → button_len ≤ num_cols →
       ∃ first rest, lines = (first ++ CLOSE_BUTTON_TEXT) :: rest ∧
         visible_lines (first :: rest) = visible (msg_text m)) ∧
    (zlen all ≤ max_lines → num_cols < button_len → visible_lines lines = visible (msg_text m)) ∧
    (max_lines < zlen all → 2 ≤ max_lines → byte_len TRUNCATED_MESSAGE ≤ num_cols →
       last lines = Some (pad_text TRUNCATED_MESSAGE num_cols)).
Proof using Hwidth Hcols.
  intros Ht Hm max. assert (Hmax : 0 ≤ max) by (unfold max, saturating_sub; lia).
  assert (G : wp (wrap width num_cols (trim (msg_text m)) [] [] 0) (λ out, lines_ok out ∧ out ≠ [] ∧
    visible_lines out = visible (trim (msg_text m)))).
  { apply (wrap_spec (trim (msg_text m)) [] []); [by apply trim_Forall|split; [constructor|done]|constructor|].
    unfold line_limit, zlen. simpl. destruct (_ <=? num_cols); lia. }
  apply wp_exists in G as (all & E & [Hl Hh] & Hne & Hv).
  rewrite trim_visible in Hv.
  destruct (truncate_lines_ok max all Hmax Hl) as (Hok & Hlen & Hall & Hlast).
  destruct (wp_exists _ _ (add_button_spec _ Hok)) as (lines & Eb & Hz & Hlo & Htl & Hhd & Hno).
  exists all, lines. split; [exact E|]. split.
  { unfold text. rewrite E. exact Eb. }
  split; [lia|]. split; [eapply Forall_impl; [exact Hlo|]; by intros l []|]. split_and!.
  - intros Hfit Hb. rewrite (Hall Hfit) in *. destruct all as [|l0 rest]; [done|].
    destruct (Hh Hb l0 eq_refl) as (content & -> & Hc). specialize (Hhd Hb _ eq_refl).
    destruct lines as [|l1 rest']; [done|]. simpl in *. injection Hhd as ->. subst rest'.
    eexists _, rest. split; [done|]. rewrite <- Hv. simpl. rewrite visible_pad. f_equal.
    apply visible_take_pad. change button_len with 3 in Hb. lia.
  - intros Hfit Hb. rewrite (Hall Hfit) in *. by rewrite (Hno Hb).
  - intros Hlt H2 Hbl. specialize (Hlast Hlt ltac:(lia) Hbl).
    destruct (truncate_lines num_cols max all) as [|l0 [|l1 rest]] eqn:Et; [done| |].
    + unfold zlen in Hlen at 1. simpl in Hlen. lia.
    + destruct lines as [|l0' rest']; [done|]. simpl in Htl. subst rest'. exact Hlast.
Qed.
End wrapping.

(** ** Examples *)

(** ASCII is one column wide, control characters have no width, characters from
    4352 on are fullwidth. *)
Definition demo_width (c : char) : option Z :=
  if c <? 32 then None else if c <? 4352 then Some 1 else Some 2.

(** A no-break space at which the line should be wrapped takes two bytes;
    [split_off] one byte behind its start panics. *)
Example wide_whitespace_panics :
  text demo_width 7 10 (message_new [97; 98; 160; 99; 100; 101] Error) = Panic PanicAssert.
Proof. reflexivity. Qed.

(** The first line is cut at a number of bytes instead of columns: of two fullwidth
    characters in front of the button the second one is split, which panics; with a
    wider window the button is not at the right edge. *)
Example button_cuts_bytes :
  text demo_width 9 10 (message_new [20013; 20013] Error) = Panic PanicAssert ∧
  text demo_width 11 10 (message_new [20013; 20013] Error)
    = Ok [[20013; 32; 20013; 32; 91; 88; 93]].
Proof. done. Qed.

(** A fullwidth character in the last column is not wrapped: the line has seven
    columns in a window of six. *)
Example fullwidth_overflows :
  text demo_width 6 10 (message_new [97; 10; 97; 20013; 20013; 20013] Error)
    = Ok [[97; 32; 32; 91; 88; 93]; [97; 20013; 32; 20013; 32; 20013; 32]].
Proof. reflexivity. Qed.
End MessageBar.
