(* ===== verification/Keyboard.v ===== *)
(** * Key presses to bytes (alacritty/src/input/keyboard.rs)

    The escape sequences of the keyboard protocols, and what is written to the
    terminal for a key that no binding handles.  The keys and modifiers are types
    of the winit crate; named keys that the code does not mention are
    [OtherNamed], what winit computes for a key (its text, the key without
    modifiers) is part of the event.  The code is the one for platforms other than
    macOS. *)

From S2P Require Import Prelude Decimal Index Ansi Term RegexSearch.
#[local] Open Scope Z_scope.

Module Keyboard.
Notation char := Z (only parsing).
Notation str := (list Z) (only parsing).

(** ** Events *)

Inductive NamedKey :=
  | Enter | Tab | Backspace | Escape | Space
  | ArrowLeft | ArrowRight | ArrowUp | ArrowDown | PageUp | PageDown | Home | End | Insert | Delete
  | F1 | F2 | F3 | F4 | F5 | F6 | F7 | F8 | F9 | F10 | F11 | F12 | F13 | F14 | F15 | F16 | F17 | F18
  | F19 | F20 | F21 | F22 | F23 | F24 | F25 | F26 | F27 | F28 | F29 | F30 | F31 | F32 | F33 | F34 | F35
  | ScrollLock | PrintScreen | Pause | ContextMenu
  | MediaPlay | MediaPause | MediaPlayPause | MediaStop | MediaFastForward | MediaRewind
  | MediaTrackNext | MediaTrackPrevious | MediaRecord
  | AudioVolumeDown | AudioVolumeUp | AudioVolumeMute
  | Shift | Control | Alt | Super | Hyper | Meta | CapsLock | NumLock
  | OtherNamed (id : Z).

Inductive Key := Named (k : NamedKey) | Character (s : str) | Unidentified (id : Z) | Dead (c : option char).
Inductive KeyLocation := Standard | LocLeft | LocRight | Numpad.
Inductive ElementState := Pressed | Released.

#[global] Instance NamedKey_eq_dec : EqDecision NamedKey.
Proof. solve_decision. Defined.
#[global] Instance Key_eq_dec : EqDecision Key.
Proof. solve_decision. Defined.
#[global] Instance KeyLocation_eq_dec : EqDecision KeyLocation.
Proof. solve_decision. Defined.
#[global] Instance ElementState_eq_dec : EqDecision ElementState.
Proof. solve_decision. Defined.

Record KeyEvent := mkKeyEvent {
  logical_key : Key;
  location : KeyLocation;
  state : ElementState;
  repeat : bool;
  text_with_all_modifiers : option str;
  key_without_modifiers : Key }.

(** [ModifiersState]. *)
Record ModifiersState := mkMods { shift_key : bool; control_key : bool; alt_key : bool; super_key : bool }.
#[global] Instance ModifiersState_eq_dec : EqDecision ModifiersState.
Proof. solve_decision. Defined.
Definition mods_empty : ModifiersState := mkMods false false false false.
Definition mods_shift : ModifiersState := mkMods true false false false.
Definition without_alt (m : ModifiersState) : ModifiersState :=
  mkMods (shift_key m) (control_key m) false (super_key m).

(** ** Sequence modifiers *)

Module SequenceModifiers.
Definition SHIFT : Z := 1.
Definition ALT : Z := 2.
Definition CONTROL : Z := 4.
Definition SUPER : Z := 8.
End SequenceModifiers.

Definition sequence_modifiers (m : ModifiersState) : Z :=
  let bits := Bitflags.set 0 SequenceModifiers.SHIFT (shift_key m) in
  let bits := Bitflags.set bits SequenceModifiers.ALT (alt_key m) in
  let bits := Bitflags.set bits SequenceModifiers.CONTROL (control_key m) in
  Bitflags.set bits SequenceModifiers.SUPER (super_key m).

(** [SequenceModifiers::encode_esc_sequence]. *)
Definition encode_modifiers (bits : Z) : Z := bits + 1.

Inductive SequenceTerminator := Normal (c : char) | Kitty.
Definition encode_esc_sequence (t : SequenceTerminator) : char :=
  match t with Normal c => c | Kitty => 117 end.

Record SequenceBase := mkBase { payload : str; terminator : SequenceTerminator }.

(** ** The sequence builder *)

Record SequenceBuilder := mkBuilder {
  sb_mode : Z;
  sb_modifiers : Z;
  kitty_seq : bool;
  kitty_encode_all : bool;
  kitty_event_type : bool }.

Section builder.
(** The first character of [char::to_lowercase]. *)
Context (to_lowercase : char → char).
Implicit Types (sb : SequenceBuilder) (key : KeyEvent).

Definition try_build_textual sb key (associated_text : option str) : option SequenceBase :=
  match logical_key key with
  | Character character =>
      if negb (kitty_seq sb) then None
      else
        match character with
        | [ch] =>
            let shift := Bitflags.contains (sb_modifiers sb) SequenceModifiers.SHIFT in
            let unshifted_ch := if shift then to_lowercase ch else ch in
            let alternate_key_code := ch in
            let unicode_key_code :=
              if shift && (alternate_key_code =? unshifted_ch) then
                match key_without_modifiers key with
                | Character (c :: _) => c
                | _ => unshifted_ch
                end
              else unshifted_ch in
            let payload :=
              if Bitflags.contains (sb_mode sb) TermMode.REPORT_ALTERNATE_KEYS
                 && negb (alternate_key_code =? unicode_key_code)
              then decimal unicode_key_code ++ [58] ++ decimal alternate_key_code
              else decimal unicode_key_code in
            Some (mkBase payload Kitty)
        | _ =>
            if kitty_encode_all sb && bool_decide (is_Some associated_text)
            then Some (mkBase (decimal 0) Kitty) else None
        end
  | _ => None
  end.

(** The code of a numpad key. *)
Definition numpad_code (k : Key) : option Z :=
  match k with
  | Character [48] => Some 57399 | Character [49] => Some 57400 | Character [50] => Some 57401
  | Character [51] => Some 57402 | Character [52] => Some 57403 | Character [53] => Some 57404
  | Character [54] => Some 57405 | Character [55] => Some 57406 | Character [56] => Some 57407
  | Character [57] => Some 57408 | Character [46] => Some 57409 | Character [47] => Some 57410
  | Character [42] => Some 57411 | Character [45] => Some 57412 | Character [43] => Some 57413
  | Character [61] => Some 57415
  | Named Enter => Some 57414
  | Named ArrowLeft => Some 57417 | Named ArrowRight => Some 57418
  | Named ArrowUp => Some 57419 | Named ArrowDown => Some 57420
  | Named PageUp => Some 57421 | Named PageDown => Some 57422
  | Named Home => Some 57423 | Named End => Some 57424
  | Named Insert => Some 57425 | Named Delete => Some 57426
  | _ => None
  end.

Definition try_build_numpad sb key : option SequenceBase :=
  if negb (kitty_seq sb) || negb (bool_decide (location key = Numpad)) then None
  else n ← numpad_code (logical_key key); mret (mkBase (decimal n) Kitty).

(** The codes of functional keys in the kitty protocol. *)
Definition kitty_code (k : NamedKey) : option (Z * SequenceTerminator) :=
  match k with
  | F3 => Some (13, Normal 126)
  | F13 => Some (57376, Kitty) | F14 => Some (57377, Kitty) | F15 => Some (57378, Kitty)
  | F16 => Some (57379, Kitty) | F17 => Some (57380, Kitty) | F18 => Some (57381, Kitty)
  | F19 => Some (57382, Kitty) | F20 => Some (57383, Kitty) | F21 => Some (57384, Kitty)
  | F22 => Some (57385, Kitty) | F23 => Some (57386, Kitty) | F24 => Some (57387, Kitty)
  | F25 => Some (57388, Kitty) | F26 => Some (57389, Kitty) | F27 => Some (57390, Kitty)
  | F28 => Some (57391, Kitty) | F29 => Some (57392, Kitty) | F30 => Some (57393, Kitty)
  | F31 => Some (57394, Kitty) | F32 => Some (57395, Kitty) | F33 => Some (57396, Kitty)
  | F34 => Some (57397, Kitty) | F35 => Some (57398, Kitty)
  | ScrollLock => Some (57359, Kitty) | PrintScreen => Some (57361, Kitty)
  | Pause => Some (57362, Kitty) | ContextMenu => Some (57363, Kitty)
  | MediaPlay => Some (57428, Kitty) | MediaPause => Some (57429, Kitty)
  | MediaPlayPause => Some (57430, Kitty) | MediaStop => Some (57432, Kitty)
  | MediaFastForward => Some (57433, Kitty) | MediaRewind => Some (57434, Kitty)
  | MediaTrackNext => Some (57435, Kitty) | MediaTrackPrevious => Some (57436, Kitty)
  | MediaRecord => Some (57437, Kitty)
  | AudioVolumeDown => Some (57438, Kitty) | AudioVolumeUp => Some (57439, Kitty)
  | AudioVolumeMute => Some (57440, Kitty)
  | _ => None
  end.

Definition try_build_named_kitty sb key : option SequenceBase :=
  match logical_key key with
  | Named named =>
      if kitty_seq sb then '(n, t) ← kitty_code named; mret (mkBase (decimal n) t) else None
  | _ => None
  end.

(** The base of the legacy sequence; [None] stands for [one_based]. *)
Definition normal_code (k : NamedKey) : option (option Z * char) :=
  match k with
  | PageUp => Some (Some 5, 126) | PageDown => Some (Some 6, 126)
  | Insert => Some (Some 2, 126) | Delete => Some (Some 3, 126)
  | Home => Some (None, 72) | End => Some (None, 70)
  | ArrowLeft => Some (None, 68) | ArrowRight => Some (None, 67)
  | ArrowUp => Some (None, 65) | ArrowDown => Some (None, 66)
  | F1 => Some (None, 80) | F2 => Some (None, 81) | F3 => Some (None, 82) | F4 => Some (None, 83)
  | F5 => Some (Some 15, 126) | F6 => Some (Some 17, 126) | F7 => Some (Some 18, 126)
  | F8 => Some (Some 19, 126) | F9 => Some (Some 20, 126) | F10 => Some (Some 21, 126)
  | F11 => Some (Some 23, 126) | F12 => Some (Some 24, 126) | F13 => Some (Some 25, 126)
  | F14 => Some (Some 26, 126) | F15 => Some (Some 28, 126) | F16 => Some (Some 29, 126)
  | F17 => Some (Some 31, 126) | F18 => Some (Some 32, 126) | F19 => Some (Some 33, 126)
  | F20 => Some (Some 34, 126)
  | _ => None
  end.

Definition try_build_named_normal sb key (has_associated_text : bool) : option SequenceBase :=
  match logical_key key with
  | Named named =>
      let one_based :=
        if (sb_modifiers sb =? 0) && negb (kitty_event_type sb) && negb has_associated_text
        then [] else decimal 1 in
      '(n, c) ← normal_code named;
      mret (mkBase (match n with Some n => decimal n | None => one_based end) (Normal c))
  | _ => None
  end.

Definition control_code (k : NamedKey) : option Z :=
  match k with
  | Tab => Some 9 | Enter => Some 13 | Escape => Some 27 | Space => Some 32 | Backspace => Some 127
  | _ => None
  end.

Definition modifier_code (k : NamedKey) (l : KeyLocation) : option Z :=
  match k, l with
  | Shift, LocLeft => Some 57441 | Control, LocLeft => Some 57442 | Alt, LocLeft => Some 57443
  | Super, LocLeft => Some 57444 | Hyper, LocLeft => Some 57445 | Meta, LocLeft => Some 57446
  | Shift, _ => Some 57447 | Control, _ => Some 57448 | Alt, _ => Some 57449
  | Super, _ => Some 57450 | Hyper, _ => Some 57451 | Meta, _ => Some 57452
  | CapsLock, _ => Some 57358 | NumLock, _ => Some 57360
  | _, _ => None
  end.

(** Also returns the modifiers, to which a modifier key itself is applied. *)
Definition try_build_control_char_or_mod sb key (mods : Z) : option SequenceBase * Z :=
  if negb (kitty_encode_all sb) && negb (kitty_seq sb) then (None, mods)
  else
    match logical_key key with
    | Named named =>
        let base := control_code named in
        if negb (kitty_encode_all sb) && bool_decide (base = None) then (None, mods)
        else
          let base := match modifier_code named (location key) with Some n => Some n | None => base end in
          let press := bool_decide (state key = Pressed) in
          let mods := match named with
                      | Shift => Bitflags.set mods SequenceModifiers.SHIFT press
                      | Control => Bitflags.set mods SequenceModifiers.CONTROL press
                      | Alt => Bitflags.set mods SequenceModifiers.ALT press
                      | Super => Bitflags.set mods SequenceModifiers.SUPER press
                      | _ => mods
                      end in
          (n ← base; mret (mkBase (decimal n) Kitty), mods)
    | _ => (None, mods)
    end.

(** A single byte that is a control code; called on texts that are not empty. *)
Definition is_control_character (text : str) : bool :=
  match text ≫= encode_utf8 with
  | [b] => (b <? 32) || ((127 <=? b) && (b <=? 159))
  | _ => false
  end.

Definition builder_of key (mods : ModifiersState) (mode : Z) : SequenceBuilder :=
  mkBuilder mode (sequence_modifiers mods)
    (Bitflags.intersects mode (Z.lor (Z.lor TermMode.REPORT_ALL_KEYS_AS_ESC
       TermMode.DISAMBIGUATE_ESC_CODES) TermMode.REPORT_EVENT_TYPES))
    (Bitflags.contains mode TermMode.REPORT_ALL_KEYS_AS_ESC)
    (Bitflags.contains mode TermMode.REPORT_EVENT_TYPES
       && (repeat key || bool_decide (state key = Released))).

Definition associated_text key (mode : Z) : option str :=
  match text_with_all_modifiers key with
  | Some text =>
      if Bitflags.contains mode TermMode.REPORT_ASSOCIATED_TEXT
         && negb (bool_decide (state key = Released)) && negb (bool_decide (text = []))
         && negb (is_control_character text)
      then Some text else None
  | None => None
  end.

(** The first builder that knows the key, and the modifiers. *)
Definition sequence_base sb key (text : option str) : option SequenceBase * Z :=
  let modifiers := sb_modifiers sb in
  match try_build_numpad sb key with Some b => (Some b, modifiers) | None =>
  match try_build_named_kitty sb key with Some b => (Some b, modifiers) | None =>
  match try_build_named_normal sb key (bool_decide (is_Some text)) with Some b => (Some b, modifiers) | None =>
  match try_build_control_char_or_mod sb key modifiers with (Some b, m) => (Some b, m) | (None, m) =>
  (try_build_textual sb key text, m) end end end end.

Definition event_type key : char :=
  if repeat key then 50 else match state key with Pressed => 49 | Released => 51 end.

(** The code points of the text, separated by colons. *)
Definition print_text (text : str) : str :=
  match text with
  | [] => []
  | c :: rest => [59] ++ decimal c ++ (rest ≫= λ c, [58] ++ decimal c)
  end.

Definition build_sequence key (mods : ModifiersState) (mode : Z) : str :=
  let sb := builder_of key mods mode in
  let text := associated_text key mode in
  match sequence_base sb key text with
  | (None, _) => []
  | (Some b, modifiers) =>
      [27; 91] ++ payload b
      ++ (if kitty_event_type sb || negb (modifiers =? 0) || bool_decide (is_Some text)
          then [59] ++ decimal (encode_modifiers modifiers) else [])
      ++ (if kitty_event_type sb then [58; event_type key] else [])
      ++ (match text with Some text => print_text text | None => [] end)
      ++ [encode_esc_sequence (terminator b)]
  end.

(** ** What a key writes *)

(** [NamedKey::to_text]. *)
Context (to_text : NamedKey → option str).

Definition alt_send_esc key (text : str) (mods : ModifiersState) : bool :=
  match logical_key key with
  | Named named => if bool_decide (is_Some (to_text named)) then alt_key mods else alt_key mods
  | _ => alt_key mods && Nat.eqb (length text) 1
  end.

Definition is_modifier_key key : bool :=
  match logical_key key with
  | Named Shift | Named Control | Named Alt | Named Super => true
  | _ => false
  end.

Definition should_build_sequence key (text : str) (mode : Z) (mods : ModifiersState) : bool :=
  if Bitflags.contains mode TermMode.REPORT_ALL_KEYS_AS_ESC then true
  else
    let disambiguate :=
      Bitflags.contains mode TermMode.DISAMBIGUATE_ESC_CODES &&
      (bool_decide (logical_key key = Named Escape) || bool_decide (location key = Numpad) ||
       (negb (bool_decide (mods = mods_empty)) &&
        (negb (bool_decide (mods = mods_shift)) ||
         match logical_key key with
         | Named Tab | Named Enter | Named Backspace => true
         | _ => false
         end))) in
    if disambiguate then true
    else match logical_key key with
         | Named named => bool_decide (to_text named = None)
         | _ => bool_decide (text = [])
         end.

(** The bytes that [key_input] writes for a pressed key that no binding, search,
    hint or vi mode consumed. *)
Definition key_input_bytes key (mode : Z) (mods : ModifiersState) : str :=
  let text := default [] (text_with_all_modifiers key) in
  let mods := if alt_send_esc key text mods then mods else without_alt mods in
  if should_build_sequence key text mode mods then build_sequence key mods mode
  else (if alt_key mods then [27] else []) ++ (text ≫= encode_utf8).

(** [key_release], when no search and no hint is active. *)
Definition key_release key (mode : Z) (mods : ModifiersState) : option str :=
  if negb (Bitflags.contains mode TermMode.REPORT_EVENT_TYPES) || Bitflags.contains mode TermMode.VI
  then None
  else
    let text := default [] (text_with_all_modifiers key) in
    let mods := if alt_send_esc key text mods then mods else without_alt mods in
    match logical_key key with
    | Named Enter | Named Tab | Named Backspace =>
        if negb (Bitflags.contains mode TermMode.REPORT_ALL_KEYS_AS_ESC) then None
        else Some (build_sequence key mods mode)
    | _ => Some (build_sequence key mods mode)
    end.
End builder.

(** ** Decoding *)

(** A reader of control sequences, as a program in the terminal has it: fields
    separated by semicolons, each of them numbers separated by colons. *)
Fixpoint read_codes (fuel : nat) (s : str) : list Z * str :=
  match fuel with
  | O => ([], s)
  | S fuel =>
      match read_num None s with
      | (Some n, 58 :: s) => let '(ns, s) := read_codes fuel s in (n :: ns, s)
      | (Some n, s) => ([n], s)
      | (None, s) => ([], s)
      end
  end.

Fixpoint read_fields (fuel : nat) (s : str) : list (list Z) * str :=
  match fuel with
  | O => ([], s)
  | S fuel =>
      match read_codes (length s) s with
      | (f, 59 :: s) => let '(fs, s) := read_fields fuel s in (f :: fs, s)
      | (f, s) => ([f], s)
      end
  end.

(** The fields and the last character of a control sequence. *)
Definition decode (s : str) : option (list (list Z) * char) :=
  match s with
  | 27 :: 91 :: s => match read_fields (length s) s with (fs, [c]) => Some (fs, c) | _ => None end
  | _ => None
  end.

(** *** Fields *)

Fixpoint print_codes (ns : list Z) : str :=
  match ns with
  | [] => []
  | [n] => decimal n
  | n :: ns => decimal n ++ [58] ++ print_codes ns
  end.

Fixpoint print_fields (fs : list (list Z)) : str :=
  match fs with
  | [] => []
  | [f] => print_codes f
  | f :: fs => print_codes f ++ [59] ++ print_fields fs
  end.

(** What may follow a field. *)
Definition no_code (s : str) : Prop :=
  match s with c :: _ => is_digit c = false ∧ c ≠ 58 | [] => True end.

Lemma no_code_digit s : no_code s → no_digit s.
Proof. destruct s; simpl; naive_solver. Qed.

Lemma read_codes_print ns : ∀ fuel s,
  Forall is_char ns → no_code s → (length ns < fuel)%nat →
  read_codes fuel (print_codes ns ++ s) = (ns, s).
Proof.
  induction ns as [|n ns IH]; intros fuel s Hns Hs Hf; (destruct fuel as [|fuel]; [simpl in Hf; lia|]).
  { simpl. rewrite read_num_stop by by apply no_code_digit. done. }
  apply Forall_cons in Hns as [Hn Hns]. destruct ns as [|n' ns].
  - cbn [print_codes read_codes]. rewrite read_num_decimal by (done || by apply no_code_digit).
    destruct s as [|c s]; [done|]. destruct Hs as [_ Hc]. simpl.
    repeat (destruct c as [|c|c]; try done).
  - change (print_codes (n :: n' :: ns)) with (decimal n ++ [58] ++ print_codes (n' :: ns)).
    rewrite <- !(assoc_L app). cbn [read_codes]. rewrite read_num_decimal by done.
    change ([58] ++ print_codes (n' :: ns) ++ s) with (58 :: (print_codes (n' :: ns) ++ s)).
    cbv beta iota. rewrite IH; [done..|]. simpl in *. lia.
Qed.

Lemma print_codes_length ns : Forall is_char ns → (length ns ≤ length (print_codes ns))%nat.
Proof.
  induction ns as [|n ns IH]; intros Hns; [done|]. apply Forall_cons in Hns as [Hn Hns].
  destruct (decimal_cons n Hn) as (c & s & E & _). specialize (IH Hns). destruct ns as [|n' ns].
  - simpl. rewrite E. simpl. lia.
  - change (print_codes (n :: n' :: ns)) with (decimal n ++ [58] ++ print_codes (n' :: ns)).
    rewrite E, !length_app. simpl in *. lia.
Qed.

(** The last character of a sequence. *)
Definition is_final (c : char) : Prop := is_digit c = false ∧ c ≠ 58 ∧ c ≠ 59.

Lemma read_fields_print fs : ∀ fuel c,
  fs ≠ [] → Forall (Forall is_char) fs → is_final c → (length fs ≤ fuel)%nat →
  read_fields fuel (print_fields fs ++ [c]) = (fs, [c]).
Proof.
  induction fs as [|f fs IH]; intros fuel c Hne Hfs (Hd & Hc & Hs) Hf; [done|].
  apply Forall_cons in Hfs as [Hn Hfs]. destruct fuel as [|fuel]; [simpl in Hf; lia|].
  pose proof (print_codes_length f Hn) as Hl. destruct fs as [|f' fs].
  - cbn [print_fields read_fields]. rewrite read_codes_print; [|done|done|rewrite length_app; simpl; lia].
    repeat (destruct c as [|c|c]; try done).
  - change (print_fields (f :: f' :: fs)) with (print_codes f ++ [59] ++ print_fields (f' :: fs)).
    rewrite <- !(assoc_L app). cbn [read_fields].
    rewrite read_codes_print; [|done|done|rewrite !length_app; simpl; lia].
    change ([59] ++ print_fields (f' :: fs) ++ [c]) with (59 :: (print_fields (f' :: fs) ++ [c])).
    cbv beta iota. rewrite IH; [done..|]. simpl in *. lia.
Qed.

Lemma print_fields_length fs : (length fs ≤ length (print_fields fs) + 1)%nat.
Proof.
  induction fs as [|f [|f' fs] IH]; [simpl; lia..|].
  change (print_fields (f :: f' :: fs)) with (print_codes f ++ [59] ++ print_fields (f' :: fs)).
  rewrite !length_app. simpl in *. lia.
Qed.

Lemma decode_print fs c :
  fs ≠ [] → Forall (Forall is_char) fs → is_final c →
  decode ([27; 91] ++ print_fields fs ++ [c]) = Some (fs, c).
Proof.
  intros. cbn [app decode]. rewrite read_fields_print; [done..|].
  rewrite length_app. simpl. pose proof (print_fields_length fs). lia.
Qed.

(** ** What the sequences say *)

Section sequences.
Context (to_lowercase : char → char) (Hlower : ∀ c, is_char c → is_char (to_lowercase c)).
Implicit Types (sb : SequenceBuilder) (key : KeyEvent).

(** The characters of an event are code points. *)
Definition key_chars (k : Key) : str := match k with Character s => s | _ => [] end.
Definition key_ok key : Prop :=
  Forall is_char (key_chars (logical_key key)) ∧
  Forall is_char (key_chars (key_without_modifiers key)) ∧
  ∀ s, text_with_all_modifiers key = Some s → Forall is_char s.

(** The payload is a field and the terminator ends the sequence. *)
Definition base_ok (b : SequenceBase) : Prop :=
  ∃ codes, payload b = print_codes codes ∧ Forall is_char codes ∧
    is_final (encode_esc_sequence (terminator b)).

Lemma kitty_base_ok n : is_char n → base_ok (mkBase (decimal n) Kitty).
Proof using. intros. exists [n]. split; [done|]. split; [by constructor|done]. Qed.

Lemma numpad_ok sb key b : try_build_numpad sb key = Some b → base_ok b.
Proof using.
  unfold try_build_numpad. destruct (_ || _); [done|].
  destruct (numpad_code (logical_key key)) as [n|] eqn:E; [|done]. intros [= <-]. apply kitty_base_ok.
  unfold is_char. revert E. unfold numpad_code.
  repeat case_match; intros [= <-]; lia.
Qed.

Lemma named_kitty_ok sb key b : try_build_named_kitty sb key = Some b → base_ok b.
Proof using.
  unfold try_build_named_kitty. destruct (logical_key key) as [k| | |]; try done.
  destruct (kitty_seq sb); [|done]. destruct (kitty_code k) as [[n t]|] eqn:E; [|done]. intros [= <-].
  exists [n]. split; [done|]. destruct k; simplify_eq/=; (split; [|done]); constructor; try done;
    unfold is_char; lia.
Qed.

Lemma named_normal_ok sb key b has_text :
  try_build_named_normal sb key has_text = Some b → base_ok b.
Proof using.
  unfold try_build_named_normal. destruct (logical_key key) as [k| | |]; try done.
  destruct (normal_code k) as [[n c]|] eqn:E; [|done]. intros [= <-].
  assert (Hn : from_option is_char True n ∧ is_final c)
    by (destruct k; simplify_eq/=; (split; [unfold is_char; try lia; done|done])).
  destruct Hn as [Hn Hc]. destruct n as [n|].
  - exists [n]. split; [done|]. split; [by constructor|done].
  - simpl. destruct (_ && _); [exists []|exists [1]]; (split; [done|]); (split; [|done]); [done|].
    constructor; [unfold is_char; lia|done].
Qed.

Lemma control_ok sb key mods b m :
  try_build_control_char_or_mod sb key mods = (Some b, m) → base_ok b.
Proof using.
  unfold try_build_control_char_or_mod. destruct (_ && _); [done|].
  destruct (logical_key key) as [k| | |]; try done. destruct (_ && _); [done|].
  destruct (match modifier_code k (location key) with Some n => Some n | None => control_code k end)
    as [n|] eqn:E; [|done]. intros [= <- _]. apply kitty_base_ok.
  destruct k, (location key); simplify_eq/=; unfold is_char; lia.
Qed.

Lemma textual_ok sb key text b :
  key_ok key → try_build_textual to_lowercase sb key text = Some b → base_ok b.
Proof using Hlower.
  intros (Hk & Hk' & _). unfold try_build_textual.
  destruct (logical_key key) as [|s| |] eqn:Ek; try done.
  destruct (kitty_seq sb); [|done]. simpl. destruct s as [|ch [|ch' s]].
  - destruct (_ && _); [|done]. intros [= <-]. apply kitty_base_ok. unfold is_char. lia.
  - simpl in Hk. apply Forall_cons in Hk as [Hk _].
    set (un := if Bitflags.contains _ _ then to_lowercase ch else ch).
    assert (Hun : is_char un) by (unfold un; destruct (Bitflags.contains _ _); [by apply Hlower|done]).
    set (code := if _ && _ then _ else un).
    assert (Hcode : is_char code).
    { unfold code. destruct (_ && _); [|done]. destruct (key_without_modifiers key) as [|[|c l]| |] eqn:?; try done.
      simpl in Hk'. by apply Forall_cons in Hk' as [? _]. }
    clearbody code. intros [= <-]. destruct (_ && _); [|by apply kitty_base_ok].
    exists [code; ch]. split; [done|]. split; [|done]. by constructor; [|constructor].
  - destruct (_ && _); [|done]. intros [= <-]. apply kitty_base_ok. unfold is_char. lia.
Qed.

Lemma sequence_base_ok sb key text b m :
  key_ok key → sequence_base to_lowercase sb key text = (Some b, m) → base_ok b.
Proof using Hlower.
  intros Hk. unfold sequence_base.
  destruct (try_build_numpad sb key) eqn:E1; [intros [= <- _]; by eapply numpad_ok|].
  destruct (try_build_named_kitty sb key) eqn:E2; [intros [= <- _]; by eapply named_kitty_ok|].
  destruct (try_build_named_normal sb key _) eqn:E3; [intros [= <- _]; by eapply named_normal_ok|].
  destruct (try_build_control_char_or_mod sb key _) as [[b'|] m'] eqn:E4;
    [intros [= <- _]; by eapply control_ok|].
  intros [= E5 _]. by eapply textual_ok.
Qed.

(** The modifiers of a sequence are a set of the four modifiers. *)
Lemma sequence_modifiers_bound mods : 0 ≤ sequence_modifiers mods ≤ 15.
Proof using. destruct mods as [[] [] [] []]; vm_compute; split; discriminate. Qed.

Lemma sequence_base_mods sb key text b m :
  0 ≤ sb_modifiers sb ≤ 15 → sequence_base to_lowercase sb key text = (b, m) → 0 ≤ m ≤ 15.
Proof using.
  intros Hm. unfold sequence_base.
  destruct (try_build_numpad sb key); [by intros [= _ <-]|].
  destruct (try_build_named_kitty sb key); [by intros [= _ <-]|].
  destruct (try_build_named_normal sb key _); [by intros [= _ <-]|].
  assert (Hset : ∀ f (b : bool), 0 ≤ f ≤ 15 → 0 ≤ Bitflags.set (sb_modifiers sb) f b ≤ 15).
  { intros f v Hf. assert (Hcase : ∃ k, (k < 16)%nat ∧ sb_modifiers sb = Z.of_nat k)
      by (exists (Z.to_nat (sb_modifiers sb)); lia).
    assert (Hcase' : ∃ k, (k < 16)%nat ∧ f = Z.of_nat k) by (exists (Z.to_nat f); lia).
    destruct Hcase as (k & Hk & ->), Hcase' as (k' & Hk' & ->).
    do 16 (destruct k as [|k]; [do 16 (destruct k' as [|k']; [destruct v; vm_compute; split; discriminate|]); lia|]).
    lia. }
  destruct (try_build_control_char_or_mod sb key _) as [b' m'] eqn:E.
  assert (0 ≤ m' ≤ 15).
  { revert E. unfold try_build_control_char_or_mod. repeat case_match; intros [= _ <-]; try done;
      apply Hset; vm_compute; split; discriminate. }
  destruct b'; by intros [= _ <-].
Qed.

Lemma print_text_codes t : t ≠ [] → print_text t = [59] ++ print_codes t.
Proof using.
  destruct t as [|c rest]; [done|]. intros _. unfold print_text. f_equal. revert c.
  induction rest as [|c' rest IH]; intros c; [apply app_nil_r|].
  change (print_codes (c :: c' :: rest)) with (decimal c ++ [58] ++ print_codes (c' :: rest)).
  f_equal. rewrite <- IH. by rewrite bind_cons, <- (assoc_L app).
Qed.

Lemma associated_text_ok key mode t :
  key_ok key → associated_text key mode = Some t → t ≠ [] ∧ Forall is_char t.
Proof using.
  intros (_ & _ & Ht). unfold associated_text. destruct (text_with_all_modifiers key) as [s|] eqn:E; [|done].
  destruct (_ && _) eqn:Hc; [|done]. intros [= <-]. split; [|by apply Ht]. intros ->.
  rewrite !andb_true_iff, !negb_true_iff in Hc. destruct Hc as [[_ Hc] _]. by rewrite bool_decide_true in Hc.
Qed.

(** 1 for a press, 2 for a repetition, 3 for a release. *)
Definition event_number key : Z :=
  if repeat key then 2 else match state key with Pressed => 1 | Released => 3 end.

Lemma event_type_decimal key : [event_type key] = decimal (event_number key).
Proof using. unfold event_type, event_number. by destruct (repeat key), (state key). Qed.

(** The fields of a sequence: the key; the modifiers and the type of the event; the
    text. *)
Definition sequence_fields (codes : list Z) (modifiers : Z) (event : option Z) (text : option str)
    : list (list Z) :=
  codes ::
  (if bool_decide (is_Some event) || negb (modifiers =? 0) || bool_decide (is_Some text)
   then [modifiers + 1 :: option_list event] else []) ++
  option_list text.

Lemma sequence_decodes key (mods : ModifiersState) (mode : Z) :
  key_ok key →
  let sb := builder_of key mods mode in
  let text := associated_text key mode in
  let bytes := build_sequence to_lowercase key mods mode in
  match sequence_base to_lowercase sb key text with
  | (None, _) => bytes = []
  | (Some b, modifiers) => 0 ≤ modifiers ≤ 15 ∧ ∃ codes, payload b = print_codes codes ∧
      decode bytes = Some
        (sequence_fields codes modifiers
           (if kitty_event_type sb then Some (event_number key) else None) text,
         encode_esc_sequence (terminator b))
  end.
Proof using Hlower.
  intros Hk sb text bytes.
  destruct (sequence_base to_lowercase sb key text) as [[b|] m] eqn:E; unfold bytes, build_sequence;
    fold sb text; rewrite E; [|done].
  pose proof (sequence_base_mods sb key text _ m (sequence_modifiers_bound mods) E) as Hm.
  destruct (sequence_base_ok sb key text b m Hk E) as (codes & Hp & Hc & Hf).
  split; [done|]. exists codes. split; [done|].
  set (event := if kitty_event_type sb then Some (event_number key) else None).
  assert (Hev : Forall is_char (option_list event)).
  { unfold event. destruct (kitty_event_type sb); [|constructor]. constructor; [|constructor].
    unfold event_number, is_char. destruct (repeat key), (state key); lia. }
  assert (Ht : Forall (Forall is_char) (option_list text) ∧ ∀ t, text = Some t → t ≠ []).
  { destruct text as [t|] eqn:Et; [|done].
    destruct (associated_text_ok key mode t Hk Et) as [Hne Ht]. split; [by constructor|]. by intros ? [= <-]. }
  rewrite <- (decode_print (sequence_fields codes m event text)); [f_equal|done| |done].
  - f_equal. rewrite !(assoc_L app). f_equal. rewrite <- !(assoc_L app), Hp. unfold sequence_fields, encode_modifiers.
    assert (Ev : (if kitty_event_type sb then [58; event_type key] else [])
      = match event with Some e => [58] ++ decimal e | None => [] end).
    { unfold event. destruct (kitty_event_type sb); [|done]. by rewrite <- event_type_decimal. }
    assert (Eb : kitty_event_type sb = bool_decide (is_Some event)) by (unfold event; by destruct (kitty_event_type sb)).
    rewrite Ev, Eb. clearbody event. destruct text as [t|].
    + rewrite print_text_codes by by apply Ht. rewrite !(bool_decide_eq_true_2 (is_Some (Some t))) by eauto.
      rewrite orb_true_r. destruct event; simpl; by rewrite <- ?(assoc_L app).
    + rewrite (bool_decide_eq_false_2 (is_Some (None : option str))) by by intros [].
      rewrite orb_false_r, app_nil_r. destruct event; simpl; [done|]. destruct (m =? 0); simpl; by rewrite ?app_nil_r.
  - constructor; [done|]. apply Forall_app. split; [|apply Ht].
    destruct (_ || _); [|constructor]. constructor; [|constructor]. constructor; [unfold is_char; lia|done].
Qed.

(** C23: a program that reads the escape sequence of a key recovers everything that
    was put into it: splitting the bytes at semicolons and colons gives back the
    codes of the key, the modifiers, the type of the event if it is reported and the
    code points of the associated text, each in its own field, and the final
    character; for every key, modifiers and mode. *)
Theorem build_sequence_decodes key (mods : ModifiersState) (mode : Z) :
  key_ok key →
  let sb := builder_of key mods mode in
  let text := associated_text key mode in
  let bytes := build_sequence to_lowercase key mods mode in
  match sequence_base to_lowercase sb key text with
  | (None, _) => bytes = []
  | (Some b, modifiers) => 0 ≤ modifiers ≤ 15 ∧ ∃ codes, payload b = print_codes codes ∧
      decode bytes = Some
        (sequence_fields codes modifiers
           (if kitty_event_type sb then Some (event_number key) else None) text,
         encode_esc_sequence (terminator b))
  end.
Proof using Hlower. apply sequence_decodes. Qed.

(** ** Keys are told apart *)

Definition all_named : list NamedKey :=
  [Enter; Tab; Backspace; Escape; Space; ArrowLeft; ArrowRight; ArrowUp; ArrowDown; PageUp;
   PageDown; Home; End; Insert; Delete; F1; F2; F3; F4; F5;
   F6; F7; F8; F9; F10; F11; F12; F13; F14; F15;
   F16; F17; F18; F19; F20; F21; F22; F23; F24; F25;
   F26; F27; F28; F29; F30; F31; F32; F33; F34; F35;
   ScrollLock; PrintScreen; Pause; ContextMenu; MediaPlay; MediaPause; MediaPlayPause; MediaStop; MediaFastForward; MediaRewind;
   MediaTrackNext; MediaTrackPrevious; MediaRecord; AudioVolumeDown; AudioVolumeUp; AudioVolumeMute; Shift; Control; Alt; Super;
   Hyper; Meta; CapsLock; NumLock].

(** The payload and the last character for a named key when all keys are reported. *)
Definition named_base (one : str) (l : KeyLocation) (k : NamedKey) : option (str * char) :=
  match (if decide (l = Numpad) then numpad_code (Named k) else None) with
  | Some n => Some (decimal n, 117)
  | None =>
      match kitty_code k with
      | Some (n, t) => Some (decimal n, encode_esc_sequence t)
      | None =>
          match normal_code k with
          | Some (n, c) => Some (match n with Some n => decimal n | None => one end, c)
          | None =>
              n ← match modifier_code k l with Some n => Some n | None => control_code k end;
              mret (decimal n, 117)
          end
      end
  end.

Definition bases_distinct (one : str) (l : KeyLocation) : bool :=
  forallb (λ k, forallb (λ k', bool_decide (k = k') ||
    negb (bool_decide (named_base one l k = named_base one l k'))) all_named) all_named.

Lemma all_bases_distinct one l : one = [] ∨ one = [49] → bases_distinct one l = true.
Proof using. intros [-> | ->]; destruct l; vm_compute; reflexivity. Qed.

Lemma named_base_known one l k x : named_base one l k = Some x → k ∈ all_named.
Proof using.
  intros E. assert (Hin : existsb (λ k', bool_decide (k = k')) all_named = true).
  { destruct k; try (vm_compute; reflexivity). unfold named_base in E. by destruct (decide _). }
  apply existsb_exists in Hin as (k' & Hk' & ->%bool_decide_eq_true). by apply list_elem_of_In.
Qed.

Lemma named_base_inj one l k k' x :
  one = [] ∨ one = [49] → named_base one l k = Some x → named_base one l k' = Some x → k = k'.
Proof using.
  intros Ho E E'. pose proof (all_bases_distinct one l Ho) as Hd. unfold bases_distinct in Hd.
  rewrite forallb_forall in Hd. specialize (Hd k (proj1 (list_elem_of_In _ _) (named_base_known _ _ _ _ E))).
  rewrite forallb_forall in Hd. specialize (Hd k' (proj1 (list_elem_of_In _ _) (named_base_known _ _ _ _ E'))).
  apply orb_true_iff in Hd as [Hd|Hd]; [by apply bool_decide_eq_true in Hd|].
  apply negb_true_iff, bool_decide_eq_false in Hd. congruence.
Qed.

(** A named key without text. *)
Definition named_event (k : NamedKey) (l : KeyLocation) (st : ElementState) (rep : bool) : KeyEvent :=
  mkKeyEvent (Named k) l st rep None (Named k).

#[local] Arguments numpad_code : simpl never.

Lemma named_sequence_base sb k l st rep b m :
  kitty_seq sb = true → kitty_encode_all sb = true →
  sequence_base to_lowercase sb (named_event k l st rep) None = (Some b, m) →
  named_base (if (sb_modifiers sb =? 0) && negb (kitty_event_type sb) then [] else [49]) l k
    = Some (payload b, encode_esc_sequence (terminator b)).
Proof using.
  intros Hs Ha. unfold sequence_base, try_build_numpad, try_build_named_kitty, try_build_named_normal,
    try_build_control_char_or_mod, try_build_textual, named_base, named_event. simpl. rewrite Hs, Ha. simpl.
  rewrite andb_true_r. destruct (decide (l = Numpad)) as [->|Hl].
  - rewrite bool_decide_true by done. simpl. destruct (numpad_code (Named k)) as [n|]; simpl; [intros E; apply (f_equal fst) in E; by injection E as <-|].
    destruct (kitty_code k) as [[n t]|]; simpl; [intros E; apply (f_equal fst) in E; by injection E as <-|].
    destruct (normal_code k) as [[n c]|]; simpl; [intros E; apply (f_equal fst) in E; by injection E as <-|].
    destruct (match modifier_code k Numpad with Some n => Some n | None => control_code k end); simpl;
      [intros E; apply (f_equal fst) in E; by injection E as <-|done].
  - rewrite bool_decide_false by done. simpl.
    destruct (kitty_code k) as [[n t]|]; simpl; [intros E; apply (f_equal fst) in E; by injection E as <-|].
    destruct (normal_code k) as [[n c]|]; simpl; [intros E; apply (f_equal fst) in E; by injection E as <-|].
    destruct (match modifier_code k l with Some n => Some n | None => control_code k end); simpl;
      [intros E; apply (f_equal fst) in E; by injection E as <-|done].
Qed.

(** When the terminal reports all keys as escape sequences, different named keys
    are reported differently: two named keys at the same place of the keyboard, with
    the same modifiers and the same kind of event, never produce the same bytes. *)
Theorem named_keys_distinguished k k' (l : KeyLocation) (st : ElementState) (rep : bool)
    (mods : ModifiersState) (mode : Z) :
  Bitflags.contains mode TermMode.REPORT_ALL_KEYS_AS_ESC = true →
  let bytes k := build_sequence to_lowercase (named_event k l st rep) mods mode in
  bytes k = bytes k' → bytes k ≠ [] → k = k'.
Proof using Hlower.
  intros Hall bytes Heq Hne.
  set (sb := builder_of (named_event k l st rep) mods mode).
  assert (Hs : kitty_seq sb = true).
  { simpl. unfold Bitflags.contains in Hall. apply Z.eqb_eq in Hall. unfold Bitflags.intersects.
    apply negb_true_iff, Z.eqb_neq. intros H0.
    apply (f_equal (λ z, Z.land z TermMode.REPORT_ALL_KEYS_AS_ESC)) in H0.
    rewrite <- Z.land_assoc, Z.land_0_l in H0.
    change (Z.land mode TermMode.REPORT_ALL_KEYS_AS_ESC = 0) in H0.
    rewrite H0 in Hall. done. }
  assert (Hbase : ∀ k, bytes k ≠ [] → ∃ b m codes,
    sequence_base to_lowercase sb (named_event k l st rep) None = (Some b, m) ∧
    payload b = print_codes codes ∧ ∃ rest, decode (bytes k)
      = Some (codes :: rest, encode_esc_sequence (terminator b))).
  { intros k0 Hk0. pose proof (sequence_decodes (named_event k0 l st rep) mods mode) as G.
    cbv zeta in G. change (builder_of (named_event k0 l st rep) mods mode) with sb in G.
    change (associated_text (named_event k0 l st rep) mode) with (None : option str) in G.
    assert (Hok : key_ok (named_event k0 l st rep)) by (split; [constructor|]; split; [constructor|done]).
    specialize (G Hok). destruct (sequence_base to_lowercase sb _ None) as [[b|] m]; [|done].
    destruct G as (_ & codes & Hp & Hd). exists b, m, codes. split; [done|]. split; [done|]. by eexists. }
  destruct (Hbase k Hne) as (b & m & codes & E & Hp & rest & Hd).
  destruct (Hbase k') as (b' & m' & codes' & E' & Hp' & rest' & Hd'); [congruence|].
  fold (bytes k) (bytes k') in Heq. rewrite Heq, Hd' in Hd. injection Hd as Hc _ Ht. subst codes'.
  apply named_sequence_base in E; [|done|done]. apply named_sequence_base in E'; [|done|done].
  rewrite Hp, <- Hp', <- Ht in E. eapply named_base_inj; [|exact E|exact E'].
  destruct (_ && _); auto.
Qed.
End sequences.

(** ** Examples *)

(** Lower case for ASCII letters. *)
Definition ascii_lowercase (c : char) : char := if (65 <=? c) && (c <=? 90) then c + 32 else c.

Lemma ascii_lowercase_ok c : is_char c → is_char (ascii_lowercase c).
Proof. unfold is_char, ascii_lowercase. destruct (_ && _) eqn:E; lia. Qed.

(** All bits of the kitty protocol. *)
Definition kitty_mode : Z := TermMode.KITTY_KEYBOARD_PROTOCOL.

(** Shift and [a] held down. *)
Definition demo_key : KeyEvent :=
  mkKeyEvent (Character [65]) Standard Pressed true (Some [65]) (Character [97]).

Lemma build_sequence_decodes_witness :
  decode (build_sequence ascii_lowercase demo_key mods_shift kitty_mode)
    = Some ([[97; 65]; [2; 2]; [65]], 117).
Proof.
  assert (Hk : key_ok demo_key).
  { split; [|split]; [by constructor; [unfold is_char; lia|]..|].
    intros t Ht. injection Ht as <-. constructor; [unfold is_char; lia|constructor]. }
  pose proof (build_sequence_decodes ascii_lowercase ascii_lowercase_ok demo_key mods_shift kitty_mode Hk) as G.
  cbv zeta in G. destruct (sequence_base _ _ _ _) as [[b|] m] eqn:E; [|vm_compute in E; discriminate E].
  destruct G as (_ & codes & Hp & Hd). rewrite Hd. vm_compute in E. injection E as <- <-.
  vm_compute in Hd. injection Hd as <-. vm_compute. reflexivity.
Defined.

Lemma named_keys_distinguished_witness :
  build_sequence ascii_lowercase (named_event F3 Standard Pressed false) mods_empty kitty_mode
    ≠ build_sequence ascii_lowercase (named_event Enter Standard Pressed false) mods_empty kitty_mode.
Proof.
  intros Heq.
  assert (Hk : F3 = Enter); [|discriminate Hk].
  apply (named_keys_distinguished ascii_lowercase ascii_lowercase_ok F3 Enter Standard Pressed false
    mods_empty kitty_mode); [vm_compute; reflexivity|exact Heq|vm_compute; discriminate].
Defined.
End Keyboard.
