(* ===== verification/ActionContext.v ===== *)
(** * User actions (alacritty/src/event.rs and alacritty/src/input/mod.rs)

    The context in which the application handles input: the terminal with its
    selection, the mouse, the search and its history, the clipboard, timers and the
    channel to the pseudo terminal.  Operations of the window system that only
    change the look of the window are left out, except for the input method and the
    visibility of cursors.  Time is a field of the context; sizes are in whole
    pixels. *)

From S2P Require Import Prelude Decimal Index Ansi GridCell Row Storage Cell Grid Selection Term.
From S2P Require Import Search RegexSearch Scheduler EventLoop FrameDamage Keyboard.
#[local] Open Scope Z_scope.

Module ActionContext.
Import Scheduler FrameDamage.

Definition TYPING_SEARCH_DELAY : Z := 500000000.
Definition MAX_SEARCH_WHILE_TYPING : option Z := Some 1000.
Definition MAX_SEARCH_HISTORY_SIZE : Z := 255.
Definition CLICK_THRESHOLD : Z := 400000000.

(** ** State *)

(** The payloads of timers. *)
Inductive EventType :=
  SearchNext | BlinkCursorEvent | BlinkCursorTimeout | ScrollEvent (s : Scroll) | FrameEvent.
(** An event for a window. *)
Record TimerEvent := mkTimerEvent { te_window : Z; te_payload : EventType }.

Inductive CursorIcon := IconDefault | IconPointer | IconText.
#[global] Instance CursorIcon_eq_dec : EqDecision CursorIcon.
Proof. solve_decision. Defined.

Inductive MouseButton := MouseLeft | MouseRight | MouseMiddle | MouseBack | MouseForward | MouseOther (id : Z).
Inductive ClickState := NoClick | Click | DoubleClick | TripleClick.
#[global] Instance MouseButton_eq_dec : EqDecision MouseButton.
Proof. solve_decision. Defined.

(** The parts of [Mouse] that the operations here use. *)
Record Mouse := mkMouse {
  left_button_state : Keyboard.ElementState;
  right_button_state : Keyboard.ElementState;
  last_click_timestamp : Z;
  last_click_button : MouseButton;
  click_state : ClickState;
  cell_side : Side;
  block_hint_launcher : bool;
  hint_highlight_dirty : bool;
  mouse_x : Z;
  mouse_y : Z }.

Record SearchState := mkSearchState {
  ss_direction : Direction;
  history_index : option Z;
  display_offset_delta : Z;
  origin : Point;
  focused_match : option Match;
  history : list text;
  dfas : option RegexSearch }.

Definition search_default : SearchState := mkSearchState Right None 0 default_point None [] None.

Record InlineSearchState := mkInline {
  char_pending : bool; character : option char; is_direction : Direction; stop_short : bool }.
Definition inline_default : InlineSearchState := mkInline false None Right false.

(** The options the operations read; durations are in nanoseconds, the overridden
    blinking of the cursor style depends on vi mode. *)
Record UiConfig := mkUiConfig {
  save_to_clipboard : bool;
  hide_when_typing : bool;
  blinking_override : bool → option bool;
  blink_interval : Z;
  blink_timeout : Z }.

Section context.
Context `{Ansi}.

Record Ctx := mkCtx {
  x_term : Term;
  x_dirty : bool;
  x_mouse : Mouse;
  x_search : SearchState;
  x_inline : InlineSearchState;
  x_clipboard : list (ClipboardType * text);
  x_channel : list (EventLoop.Msg WindowSize);
  x_scheduler : @Scheduler TimerEvent Z;
  x_tracker : DamageTracker;
  x_pending_update : bool;
  x_vi_ime_inhibited : bool;
  x_cursor_hidden : bool;
  x_blink_timed_out : bool;
  x_mouse_visible : bool;
  x_preedit : bool;
  x_now : Z }.
Implicit Types (x : Ctx) (ms : Mouse) (ss : SearchState) (p : Point).

Definition upd_term (t : Term) x : Ctx :=
  mkCtx t (x_dirty x) (x_mouse x) (x_search x) (x_inline x) (x_clipboard x) (x_channel x)
    (x_scheduler x) (x_tracker x) (x_pending_update x) (x_vi_ime_inhibited x) (x_cursor_hidden x)
    (x_blink_timed_out x) (x_mouse_visible x) (x_preedit x) (x_now x).
Definition upd_dirty (d : bool) x : Ctx :=
  mkCtx (x_term x) d (x_mouse x) (x_search x) (x_inline x) (x_clipboard x) (x_channel x)
    (x_scheduler x) (x_tracker x) (x_pending_update x) (x_vi_ime_inhibited x) (x_cursor_hidden x)
    (x_blink_timed_out x) (x_mouse_visible x) (x_preedit x) (x_now x).
Definition upd_mouse ms x : Ctx :=
  mkCtx (x_term x) (x_dirty x) ms (x_search x) (x_inline x) (x_clipboard x) (x_channel x)
    (x_scheduler x) (x_tracker x) (x_pending_update x) (x_vi_ime_inhibited x) (x_cursor_hidden x)
    (x_blink_timed_out x) (x_mouse_visible x) (x_preedit x) (x_now x).
Definition upd_search ss x : Ctx :=
  mkCtx (x_term x) (x_dirty x) (x_mouse x) ss (x_inline x) (x_clipboard x) (x_channel x)
    (x_scheduler x) (x_tracker x) (x_pending_update x) (x_vi_ime_inhibited x) (x_cursor_hidden x)
    (x_blink_timed_out x) (x_mouse_visible x) (x_preedit x) (x_now x).
Definition upd_inline (i : InlineSearchState) x : Ctx :=
  mkCtx (x_term x) (x_dirty x) (x_mouse x) (x_search x) i (x_clipboard x) (x_channel x)
    (x_scheduler x) (x_tracker x) (x_pending_update x) (x_vi_ime_inhibited x) (x_cursor_hidden x)
    (x_blink_timed_out x) (x_mouse_visible x) (x_preedit x) (x_now x).
Definition upd_clipboard (c : list (ClipboardType * text)) x : Ctx :=
  mkCtx (x_term x) (x_dirty x) (x_mouse x) (x_search x) (x_inline x) c (x_channel x)
    (x_scheduler x) (x_tracker x) (x_pending_update x) (x_vi_ime_inhibited x) (x_cursor_hidden x)
    (x_blink_timed_out x) (x_mouse_visible x) (x_preedit x) (x_now x).
Definition upd_channel (c : list (EventLoop.Msg WindowSize)) x : Ctx :=
  mkCtx (x_term x) (x_dirty x) (x_mouse x) (x_search x) (x_inline x) (x_clipboard x) c
    (x_scheduler x) (x_tracker x) (x_pending_update x) (x_vi_ime_inhibited x) (x_cursor_hidden x)
    (x_blink_timed_out x) (x_mouse_visible x) (x_preedit x) (x_now x).
Definition upd_scheduler (s : @Scheduler TimerEvent Z) x : Ctx :=
  mkCtx (x_term x) (x_dirty x) (x_mouse x) (x_search x) (x_inline x) (x_clipboard x) (x_channel x)
    s (x_tracker x) (x_pending_update x) (x_vi_ime_inhibited x) (x_cursor_hidden x)
    (x_blink_timed_out x) (x_mouse_visible x) (x_preedit x) (x_now x).
(** [display.damage_tracker.frame().mark_fully_damaged(); pending_update.dirty = true]. *)
Definition redraw_all x : Ctx :=
  mkCtx (x_term x) (x_dirty x) (x_mouse x) (x_search x) (x_inline x) (x_clipboard x) (x_channel x)
    (x_scheduler x) (with_frame (FrameDamage.mark_fully_damaged (frame (x_tracker x))) (x_tracker x))
    true (x_vi_ime_inhibited x) (x_cursor_hidden x)
    (x_blink_timed_out x) (x_mouse_visible x) (x_preedit x) (x_now x).
Definition damage_frame x : Ctx :=
  mkCtx (x_term x) (x_dirty x) (x_mouse x) (x_search x) (x_inline x) (x_clipboard x) (x_channel x)
    (x_scheduler x) (with_frame (FrameDamage.mark_fully_damaged (frame (x_tracker x))) (x_tracker x))
    (x_pending_update x) (x_vi_ime_inhibited x) (x_cursor_hidden x)
    (x_blink_timed_out x) (x_mouse_visible x) (x_preedit x) (x_now x).
(** [display.pending_update.dirty = true]. *)
Definition pending_dirty x : Ctx :=
  mkCtx (x_term x) (x_dirty x) (x_mouse x) (x_search x) (x_inline x) (x_clipboard x) (x_channel x)
    (x_scheduler x) (x_tracker x) true (x_vi_ime_inhibited x) (x_cursor_hidden x)
    (x_blink_timed_out x) (x_mouse_visible x) (x_preedit x) (x_now x).
(** [window().set_ime_inhibitor(ImeInhibitor::VI, b)]. *)
Definition set_ime_inhibitor (b : bool) x : Ctx :=
  mkCtx (x_term x) (x_dirty x) (x_mouse x) (x_search x) (x_inline x) (x_clipboard x) (x_channel x)
    (x_scheduler x) (x_tracker x) (x_pending_update x) b (x_cursor_hidden x)
    (x_blink_timed_out x) (x_mouse_visible x) (x_preedit x) (x_now x).
Definition set_cursor_hidden (b : bool) x : Ctx :=
  mkCtx (x_term x) (x_dirty x) (x_mouse x) (x_search x) (x_inline x) (x_clipboard x) (x_channel x)
    (x_scheduler x) (x_tracker x) (x_pending_update x) (x_vi_ime_inhibited x) b
    (x_blink_timed_out x) (x_mouse_visible x) (x_preedit x) (x_now x).
Definition set_blink_timed_out (b : bool) x : Ctx :=
  mkCtx (x_term x) (x_dirty x) (x_mouse x) (x_search x) (x_inline x) (x_clipboard x) (x_channel x)
    (x_scheduler x) (x_tracker x) (x_pending_update x) (x_vi_ime_inhibited x) (x_cursor_hidden x)
    b (x_mouse_visible x) (x_preedit x) (x_now x).
Definition set_mouse_visible (b : bool) x : Ctx :=
  mkCtx (x_term x) (x_dirty x) (x_mouse x) (x_search x) (x_inline x) (x_clipboard x) (x_channel x)
    (x_scheduler x) (x_tracker x) (x_pending_update x) (x_vi_ime_inhibited x) (x_cursor_hidden x)
    (x_blink_timed_out x) b (x_preedit x) (x_now x).

Definition mark_dirty x : Ctx := upd_dirty true x.
Definition vi_mode x : bool := has_mode (x_term x) TermMode.VI.
Definition search_active x : bool := bool_decide (is_Some (history_index (x_search x))).

(** [self.terminal.f()]. *)
Definition on_term (f : Term → exec Term) x : exec Ctx := t ← f (x_term x); mret (upd_term t x).

(** [notifier.notify(bytes)]. *)
Definition write_to_pty (bytes : list Z) x : Ctx := upd_channel (EventLoop.notify bytes (x_channel x)) x.

(** Fields of the search state. *)
Definition ss_with_index (i : option Z) ss : SearchState :=
  mkSearchState (ss_direction ss) i (display_offset_delta ss) (origin ss) (focused_match ss)
    (history ss) (dfas ss).
Definition ss_with_history (h : list text) ss : SearchState :=
  mkSearchState (ss_direction ss) (history_index ss) (display_offset_delta ss) (origin ss)
    (focused_match ss) h (dfas ss).
Definition ss_with_direction (d : Direction) ss : SearchState :=
  mkSearchState d (history_index ss) (display_offset_delta ss) (origin ss) (focused_match ss)
    (history ss) (dfas ss).
Definition ss_with_match (m : option Match) ss : SearchState :=
  mkSearchState (ss_direction ss) (history_index ss) (display_offset_delta ss) (origin ss) m
    (history ss) (dfas ss).
Definition ss_with_origin (delta : Z) (o : Point) ss : SearchState :=
  mkSearchState (ss_direction ss) (history_index ss) delta o (focused_match ss) (history ss) (dfas ss).
Definition ss_with_dfas (d : option RegexSearch) ss : SearchState :=
  mkSearchState (ss_direction ss) (history_index ss) (display_offset_delta ss) (origin ss)
    (focused_match ss) (history ss) d.

(** ** Operations *)

Section operations.
Context (cfg : UiConfig) (size : SizeInfo) (window : Z) (compile : text → option RegexSearch).
Context (fuel n : nat).

Definition timer (t : Topic) : @TimerId Z := mkTimerId t window.
Definition unschedule_timer (t : Topic) x : option (@Timer TimerEvent Z) * Ctx :=
  let '(found, s) := unschedule (timer t) (x_scheduler x) in (found, upd_scheduler s x).
Definition schedule_timer (e : EventType) (interval : Z) (repeat : bool) (t : Topic) x : Ctx :=
  upd_scheduler (schedule (x_now x) (mkTimerEvent window e) interval repeat (timer t) (x_scheduler x)) x.

(** *** The mouse *)

(** [Mouse::point]. *)
Definition mouse_point ms (display_offset : Z) : exec Point :=
  col ← usize_div (saturating_sub (mouse_x ms) (si_padding_x size)) (si_cell_width size);
  last_column ← usize_sub (si_columns size) 1;
  line ← usize_div (saturating_sub (mouse_y ms) (si_padding_y size)) (si_cell_height size);
  bottom ← i32_sub (as_i32 (si_screen_lines size)) 1;
  viewport_to_point display_offset (mkPoint (Z.min line (as_usize bottom)) (Z.min col last_column)).

Definition mouse_mode x : bool :=
  Bitflags.intersects (t_mode (x_term x)) TermMode.MOUSE_MODE && negb (vi_mode x).

(** *** Selections *)

Definition copy_selection (ty : ClipboardType) x : exec Ctx :=
  s ← selection_to_string (x_term x);
  match s with
  | Some (_ :: _ as s) =>
      let stores := match ty with
                    | SelectionClipboard => if save_to_clipboard cfg then [(Clipboard, s)] else []
                    | Clipboard => []
                    end in
      mret (upd_clipboard (x_clipboard x ++ stores ++ [(ty, s)]) x)
  | _ => mret x
  end.

Definition context_selection_is_empty x : exec bool :=
  match t_selection (x_term x) with Some s => selection_is_empty s | None => mret true end.

Definition clear_selection x : exec Ctx :=
  empty ← context_selection_is_empty x;
  mret (upd_dirty (x_dirty x || negb empty) (upd_term (upd_selection None (x_term x)) x)).

Definition update_selection p (side : Side) x : exec Ctx :=
  match t_selection (x_term x) with
  | None => mret x
  | Some s =>
      let t := upd_selection None (x_term x) in
      bottom ← bottommost_line t;
      let p := mkPoint (Z.min (line p) bottom) (column p) in
      let s := selection_update s p side in
      let '(s, t) := if vi_mode x && negb (search_active x)
                     then (include_all s, upd_vi_mode_cursor p t) else (s, t) in
      mret (mark_dirty (upd_term (upd_selection (Some s) t) x))
  end.

Definition start_selection (ty : SelectionType) p (side : Side) x : exec Ctx :=
  let x := mark_dirty (upd_term (upd_selection (Some (selection_new ty p side)) (x_term x)) x) in
  copy_selection SelectionClipboard x.

Definition toggle_selection (new_ty : SelectionType) p (side : Side) x : exec Ctx :=
  match t_selection (x_term x) with
  | None => start_selection new_ty p side x
  | Some s =>
      empty ← selection_is_empty s;
      if (empty : bool) then start_selection new_ty p side x
      else if bool_decide (ty s = new_ty) then clear_selection x
      else
        let s := mkSelection new_ty (region_start s) (region_end s) in
        copy_selection SelectionClipboard (mark_dirty (upd_term (upd_selection (Some s) (x_term x)) x))
  end.

(** *** Cursor blinking *)

Definition schedule_blinking x : Ctx :=
  schedule_timer BlinkCursorEvent (blink_interval cfg) true BlinkCursor x.
Definition schedule_blinking_timeout x : Ctx :=
  if blink_timeout cfg =? 0 then x
  else schedule_timer BlinkCursorTimeout (blink_timeout cfg) false BlinkTimeout x.

Definition update_cursor_blinking x : Ctx :=
  let blinking := default (blinking (active_cursor_style (x_term x))) (blinking_override cfg (vi_mode x)) in
  let blinking := blinking && ((vi_mode x || has_mode (x_term x) TermMode.SHOW_CURSOR)
                               && negb (x_preedit x)) in
  let x := snd (unschedule_timer BlinkCursor x) in
  let x := snd (unschedule_timer BlinkTimeout x) in
  let x := set_blink_timed_out false x in
  if blinking && t_is_focused (x_term x) then schedule_blinking_timeout (schedule_blinking x)
  else mark_dirty (set_cursor_hidden false x).

Definition on_typing_start x : Ctx :=
  let '(found, x) := unschedule_timer BlinkCursor x in
  let x := match found with
           | Some _ =>
               let x := schedule_blinking x in
               if x_cursor_hidden x then mark_dirty (set_cursor_hidden false x) else x
           | None => if x_blink_timed_out x then update_cursor_blinking x else x
           end in
  if hide_when_typing cfg && x_mouse_visible x then
    let ms := x_mouse x in
    upd_mouse (mkMouse (left_button_state ms) (right_button_state ms) (last_click_timestamp ms)
                 (last_click_button ms) (click_state ms) (cell_side ms) (block_hint_launcher ms) true
                 (mouse_x ms) (mouse_y ms)) (set_mouse_visible false x)
  else x.

(** *** Scrolling *)

Definition scroll (sc : Scroll) x : exec Ctx :=
  let old_offset := as_i32 (display_offset (t_grid (x_term x))) in
  let old_vi_cursor := t_vi_mode_cursor (x_term x) in
  x ← on_term (term_scroll_display sc) x;
  lines_changed ← i32_sub old_offset (as_i32 (display_offset (t_grid (x_term x))));
  x ← (if search_active x then
         delta ← i32_add (display_offset_delta (x_search x)) lines_changed;
         mret (upd_search (ss_with_origin delta (origin (x_search x)) (x_search x)) x)
       else mret x);
  let vi := vi_mode x in
  empty ← context_selection_is_empty x;
  x ← (if vi && negb empty then update_selection (t_vi_mode_cursor (x_term x)) Right x
       else if bool_decide (left_button_state (x_mouse x) = Keyboard.Pressed)
            || bool_decide (right_button_state (x_mouse x) = Keyboard.Pressed) then
         p ← mouse_point (x_mouse x) (display_offset (t_grid (x_term x)));
         update_selection p (cell_side (x_mouse x)) x
       else mret x);
  let x := if vi then on_typing_start x else x in
  mret (upd_dirty (x_dirty x || negb (lines_changed =? 0)
          || (vi && negb (bool_decide (old_vi_cursor = t_vi_mode_cursor (x_term x))))) x).

Definition on_terminal_input_start x : exec Ctx :=
  x ← clear_selection (on_typing_start x);
  if negb (display_offset (t_grid (x_term x)) =? 0) then scroll Bottom x else mret x.

(** *** Searching *)

(** [SearchState::regex]. *)
Definition active_regex x : option text :=
  i ← history_index (x_search x); zlookup (history (x_search x)) i.

Definition search_reset_state x : exec Ctx :=
  let x := snd (unschedule_timer DelayedSearch x) in
  let x := upd_search (ss_with_match None (x_search x)) x in
  if negb (vi_mode x) then mret x
  else
    let x := upd_term (upd_vi_mode_cursor (origin (x_search x)) (x_term x)) x in
    x ← on_term (term_scroll_display (Delta (display_offset_delta (x_search x)))) x;
    mret (mark_dirty (upd_search (ss_with_origin 0 (origin (x_search x)) (x_search x)) x)).

Definition goto_match (limit : option Z) x : exec Ctx :=
  match dfas (x_search x) with
  | None => mret x
  | Some regex =>
      let limit := match limit with
                   | Some l => if l <=? total_lines (x_term x) then Some l else None
                   | None => None
                   end in
      clamped_origin ← grid_clamp (origin (x_search x)) (x_term x) BGrid;
      found ← search_next fuel regex n (x_term x) clamped_origin (ss_direction (x_search x)) Left limit;
      x ← (match found with
           | Some m =>
               let old_offset := as_i32 (display_offset (t_grid (x_term x))) in
               x ← on_term (if vi_mode x then vi_goto_point (m_start m) else scroll_to_point (m_start m)) x;
               let x := upd_search (ss_with_match (Some m) (x_search x)) x in
               moved ← i32_sub old_offset (as_i32 (display_offset (t_grid (x_term x))));
               delta ← i32_add (display_offset_delta (x_search x)) moved;
               let x := upd_search (ss_with_origin delta (origin (x_search x)) (x_search x)) x in
               mret (snd (unschedule_timer DelayedSearch x))
           | None =>
               match limit with
               | None => search_reset_state x
               | Some _ =>
                   let x := if scheduled (timer DelayedSearch) (x_scheduler x) then x
                            else schedule_timer SearchNext TYPING_SEARCH_DELAY false DelayedSearch x in
                   mret (upd_search (ss_with_match None (x_search x)) x)
               end
           end);
      mret (mark_dirty x)
  end.

Definition update_search x : exec Ctx :=
  match active_regex x with
  | None => mret x
  | Some regex =>
      let x := if hide_when_typing cfg then set_mouse_visible false x else x in
      x ← (match regex with
           | [] => x ← search_reset_state x; mret (upd_search (ss_with_dfas None (x_search x)) x)
           | _ => goto_match MAX_SEARCH_WHILE_TYPING
                    (upd_search (ss_with_dfas (compile regex) (x_search x)) x)
           end);
      mret (mark_dirty x)
  end.

Definition exit_search x : Ctx :=
  let x := set_ime_inhibitor (vi_mode x) x in
  let x := redraw_all x in
  upd_search (ss_with_match None (ss_with_index None (x_search x))) x.

(** The history with a new entry, unless the latest one is empty. *)
Definition push_history (h : list text) : list text :=
  match h with
  | [] :: _ => h
  | _ => take (Z.to_nat MAX_SEARCH_HISTORY_SIZE) ([] :: h)
  end.

Definition start_search (direction : Direction) x : exec Ctx :=
  let ss := x_search x in
  let ss := mkSearchState direction (Some 0) (display_offset_delta ss) (origin ss) None
              (push_history (history ss)) (dfas ss) in
  let x := upd_search ss x in
  x ← (if vi_mode x then
         below ← i32_add (line (term_cursor (x_term x))) 1;
         let o := t_vi_mode_cursor (x_term x) in
         o ← (if below =? as_i32 (screen_lines (x_term x)) then
                l ← i32_sub (line o) 1; mret (mkPoint l (column o))
              else mret o);
         mret (upd_search (ss_with_origin 0 o (x_search x)) x)
       else
         top ← i32_neg (as_i32 (display_offset (t_grid (x_term x))));
         viewport_top ← i32_sub top 1;
         bottom ← bottommost_line (x_term x);
         viewport_bottom ← i32_add viewport_top bottom;
         last ← last_column (x_term x);
         let o := match direction with
                  | Right => mkPoint viewport_top 0
                  | Left => mkPoint viewport_bottom last
                  end in
         mret (upd_search (ss_with_origin (display_offset_delta (x_search x)) o (x_search x)) x));
  mret (redraw_all (set_ime_inhibitor false x)).

Definition cancel_search x : exec Ctx :=
  x ← (if vi_mode x then search_reset_state x
       else match focused_match (x_search x) with
            | Some m =>
                x ← start_selection Simple (m_start m) Left x;
                x ← update_selection (m_end m) Right x;
                copy_selection SelectionClipboard x
            | None => mret x
            end);
  mret (exit_search (upd_search (ss_with_dfas None (x_search x)) x)).

Definition confirm_search x : exec Ctx :=
  if negb (vi_mode x) then cancel_search x
  else
    x ← (if scheduled (timer DelayedSearch) (x_scheduler x) then goto_match None x else mret x);
    mret (exit_search x).

(** The regex that is edited: what is previewed from the history is copied to the
    front first. *)
Definition edit_history ss : exec SearchState :=
  match history_index ss with
  | None | Some 0 => mret ss
  | Some i =>
      r ← vec_get (history ss) i;
      h ← vec_set (history ss) 0 r;
      mret (ss_with_index (Some 0) (ss_with_history h ss))
  end.

Definition search_input (c : char) x : exec Ctx :=
  match history_index (x_search x) with
  | None => mret x
  | Some _ =>
      ss ← edit_history (x_search x);
      let x := upd_search ss x in
      regex ← vec_get (history ss) 0;
      let edited := if (c =? 8) || (c =? 127) then Some (take (pred (length regex)) regex)
                    else if ((32 <=? c) && (c <=? 126)) || ((160 <=? c) && (c <=? 1114111))
                    then Some (regex ++ [c]) else None in
      match edited with
      | None => mret x
      | Some regex =>
          h ← vec_set (history ss) 0 regex;
          let x := upd_search (ss_with_history h ss) x in
          let x := if vi_mode x then x else upd_term (upd_selection None (x_term x)) x in
          update_search x
      end
  end.

(** The text up to and with its last space. *)
Fixpoint to_last_space (s : text) : text :=
  match s with
  | [] => []
  | c :: s' => match to_last_space s' with
               | [] => if c =? 32 then [c] else []
               | r => c :: r
               end
  end.

Definition search_pop_word x : exec Ctx :=
  match history_index (x_search x), active_regex x with
  | Some i, Some regex =>
      h ← vec_set (history (x_search x)) i (to_last_space (trim_end regex));
      update_search (upd_search (ss_with_history h (x_search x)) x)
  | _, _ => mret x
  end.

Definition search_history_previous x : exec Ctx :=
  match history_index (x_search x) with
  | None => mret x
  | Some i =>
      next ← usize_add i 1;
      if zlen (history (x_search x)) <=? next then mret x
      else update_search (upd_search (ss_with_index (Some next) (x_search x)) x)
  end.

Definition search_history_next x : exec Ctx :=
  match history_index (x_search x) with
  | None | Some 0 => mret x
  | Some i =>
      i ← usize_sub i 1;
      update_search (upd_search (ss_with_index (Some i) (x_search x)) x)
  end.

Definition context_search_next (o : Point) (direction : Direction) (side : Side) x : exec (option Match) :=
  match dfas (x_search x) with
  | Some regex => search_next fuel regex n (x_term x) o direction side None
  | None => mret None
  end.

(** Characters that are special in an expression: [$ ( ) * + ? [ \ ] ^ { | }]. *)
Definition regex_special (c : char) : bool :=
  (c =? 36) || ((40 <=? c) && (c <=? 43)) || (c =? 63) || ((91 <=? c) && (c <=? 94))
  || ((123 <=? c) && (c <=? 125)).

Fixpoint seed_search (s : text) x : exec Ctx :=
  match s with
  | [] => mret x
  | c :: s =>
      x ← (if regex_special c then search_input 92 x else mret x);
      x ← search_input c x;
      seed_search s x
  end.

Definition start_seeded_search (direction : Direction) (s : text) x : exec Ctx :=
  let o := t_vi_mode_cursor (x_term x) in
  x ← clear_selection x;
  x ← start_search direction x;
  x ← seed_search s x;
  x ← confirm_search x;
  if negb (vi_mode x) then mret x
  else
    m ← context_search_next o Right Right x;
    match m with
    | None => mret x
    | Some m =>
        m ← (match direction with
             | Right => o ← point_add (m_end m) (x_term x) BNone 1; context_search_next o Right Left x
             | Left => o ← point_sub (m_start m) (x_term x) BNone 1; context_search_next o Left Left x
             end);
        match m with
        | Some m => x ← on_term (vi_goto_point (m_start m)) x; mret (mark_dirty x)
        | None => mret x
        end
    end.

Definition advance_search_origin (direction : Direction) x : exec Ctx :=
  x ← (match focused_match (x_search x) with
       | Some m =>
           o ← (match direction with
                | Right => point_add (m_end m) (x_term x) BNone 1
                | Left => point_sub (m_start m) (x_term x) BNone 1
                end);
           x ← on_term (scroll_to_point o) x;
           mret (upd_search (ss_with_origin 0 o (x_search x)) x)
       | None => mret x
       end);
  let search_direction := ss_direction (x_search x) in
  x ← goto_match None (upd_search (ss_with_direction direction (x_search x)) x);
  let x := upd_search (ss_with_direction search_direction (x_search x)) x in
  match focused_match (x_search x) with
  | None => mret x
  | Some m =>
      let o := match ss_direction (x_search x) with Right => m_start m | Left => m_end m end in
      let old_offset := as_i32 (display_offset (t_grid (x_term x))) in
      x ← on_term (scroll_to_point o) x;
      delta ← i32_sub (as_i32 (display_offset (t_grid (x_term x)))) old_offset;
      back ← i32_neg delta;
      x ← on_term (term_scroll_display (Delta back)) x;
      mret (upd_search (ss_with_origin delta o (x_search x)) x)
  end.

(** *** Vi mode *)

Definition context_toggle_vi_mode x : exec Ctx :=
  let was_in_vi_mode := vi_mode x in
  x ← (if was_in_vi_mode then
         match dfas (x_search x) with
         | Some _ => mret (damage_frame (upd_search (ss_with_dfas None (x_search x)) x))
         | None => mret x
         end
       else clear_selection x);
  x ← (if search_active x then cancel_search x else mret x);
  let x := set_ime_inhibitor (negb was_in_vi_mode) x in
  x ← on_term toggle_vi_mode x;
  mret (mark_dirty x).

Definition start_inline_search (direction : Direction) (stop : bool) x : Ctx :=
  upd_inline (mkInline true None direction stop) x.

Definition inline_search (direction : Direction) x : exec Ctx :=
  match character (x_inline x) with
  | None => mret x
  | Some c =>
      let vi_point := t_vi_mode_cursor (x_term x) in
      r ← (match direction with
           | Right => inline_search_right (x_term x) vi_point [c]
           | Left => inline_search_left (x_term x) vi_point [c]
           end);
      match r with
      | NotFound _ => mret x
      | Found p =>
          p ← (if stop_short (x_inline x) then
                 it ← iter_from (t_grid (x_term x)) p;
                 '(item, _) ← (match direction with
                               | Right => iter_prev (t_grid (x_term x)) it
                               | Left => iter_next (t_grid (x_term x)) it
                               end);
                 mret (match item with Some (q, _) => q | None => p end)
               else mret p);
          x ← on_term (vi_goto_point p) x;
          mret (mark_dirty x)
      end
  end.

Definition inline_search_next x : exec Ctx := inline_search (is_direction (x_inline x)) x.
Definition inline_search_previous x : exec Ctx := inline_search (opposite (is_direction (x_inline x))) x.

Definition inline_search_input (s : text) x : exec Ctx :=
  match s with
  | [] => mret x
  | c :: _ =>
      let i := x_inline x in
      let x := upd_inline (mkInline false (Some c) (is_direction i) (stop_short i)) x in
      inline_search_next (set_ime_inhibitor true x)
  end.

(** *** Pasting *)

Definition PASTE_START : list Z := [27; 91; 50; 48; 48; 126].
Definition PASTE_END : list Z := [27; 91; 50; 48; 49; 126].

(** [text.replace(['\x1b', '\x03'], "")]. *)
Definition filter_paste (s : text) : text := filter (λ c, c ≠ 27 ∧ c ≠ 3) s.

(** [replace("\r\n", "\r").replace('\n', "\r")]. *)
Fixpoint replace_crlf (s : text) : text :=
  match s with
  | c :: s' =>
      match s' with
      | d :: s'' => if (c =? 13) && (d =? 10) then 13 :: replace_crlf s'' else c :: replace_crlf s'
      | [] => [c]
      end
  | [] => []
  end.
Definition normalize_newlines (s : text) : text :=
  (λ c, if c =? 10 then 13 else c) <$> replace_crlf s.

Fixpoint search_input_all (s : text) x : exec Ctx :=
  match s with [] => mret x | c :: s => x ← search_input c x; search_input_all s x end.

Definition paste (s : text) (bracketed : bool) x : exec Ctx :=
  if search_active x then search_input_all s x
  else if char_pending (x_inline x) then inline_search_input s x
  else if bracketed && has_mode (x_term x) TermMode.BRACKETED_PASTE then
    x ← on_terminal_input_start x;
    let x := write_to_pty PASTE_START x in
    let x := write_to_pty (filter_paste s ≫= encode_utf8) x in
    mret (write_to_pty PASTE_END x)
  else
    x ← on_terminal_input_start x;
    let payload := if bracketed then normalize_newlines s else s in
    mret (write_to_pty (payload ≫= encode_utf8) x).

(** *** Mouse buttons *)

Context (mods : Keyboard.ModifiersState).

(** [u8] arithmetic. *)
Definition in_u8 (z : Z) : bool := (0 <=? z) && (z <=? 255).
Definition u8_add (a b : Z) : exec Z := checked in_u8 (a + b).
Definition as_u8 (z : Z) : Z := z mod 256.

Definition mouse_pos_encode (pos : Z) : exec (list Z) :=
  pos ← usize_add 33 pos;
  first ← usize_add 192 (pos / 64);
  second ← usize_add 128 (Z.land pos 63);
  mret [as_u8 first; as_u8 second].

Definition encode_pos (utf8 : bool) (pos : Z) : exec (list Z) :=
  if utf8 && (95 <=? pos) then mouse_pos_encode pos
  else b ← u8_add 33 (as_u8 pos); mret [b].

Definition normal_mouse_report p (button : Z) x : exec Ctx :=
  let utf8 := has_mode (x_term x) TermMode.UTF8_MOUSE in
  let max_point := if utf8 then 2015 else 223 in
  if (max_point <=? line p) || (max_point <=? column p) then mret x
  else
    b ← u8_add 32 button;
    col ← encode_pos utf8 (column p);
    l ← encode_pos utf8 (as_usize (line p));
    mret (write_to_pty ([27; 91; 77; b] ++ col ++ l) x).

Definition sgr_mouse_report p (button : Z) (st : Keyboard.ElementState) x : exec Ctx :=
  let c := match st with Keyboard.Pressed => 77 | Keyboard.Released => 109 end in
  col ← usize_add (column p) 1;
  l ← i32_add (line p) 1;
  mret (write_to_pty ([27; 91; 60] ++ decimal button ++ [59] ++ decimal col ++ [59] ++ decimal l ++ [c]) x).

Definition mouse_report (button : Z) (st : Keyboard.ElementState) x : exec Ctx :=
  p ← mouse_point (x_mouse x) (display_offset (t_grid (x_term x)));
  if line p <? 0 then mret x
  else
    let m := (if Keyboard.shift_key mods then 4 else 0) + (if Keyboard.alt_key mods then 8 else 0)
             + (if Keyboard.control_key mods then 16 else 0) in
    if has_mode (x_term x) TermMode.SGR_MOUSE then
      b ← u8_add button m; sgr_mouse_report p b st x
    else match st with
         | Keyboard.Released => b ← u8_add 3 m; normal_mouse_report p b x
         | Keyboard.Pressed => b ← u8_add button m; normal_mouse_report p b x
         end.

Definition button_code (b : MouseButton) : option Z :=
  match b with
  | MouseLeft => Some 0 | MouseMiddle => Some 1 | MouseRight => Some 2
  | MouseBack | MouseForward | MouseOther _ => None
  end.

(** The click state behind a press of [button] at the time [now]. *)
Definition next_click (now : Z) (button : MouseButton) ms : ClickState :=
  let elapsed := now - last_click_timestamp ms in
  if negb (bool_decide (button = last_click_button ms)) then Click
  else match click_state ms with
       | Click => if elapsed <? CLICK_THRESHOLD then DoubleClick else Click
       | DoubleClick => if elapsed <? CLICK_THRESHOLD then TripleClick else Click
       | _ => Click
       end.

Definition with_click (timestamp : Z) (button : MouseButton) (c : ClickState) ms : Mouse :=
  mkMouse (left_button_state ms) (right_button_state ms) timestamp button c (cell_side ms)
    (block_hint_launcher ms) (hint_highlight_dirty ms) (mouse_x ms) (mouse_y ms).
Definition with_block (b : bool) ms : Mouse :=
  mkMouse (left_button_state ms) (right_button_state ms) (last_click_timestamp ms)
    (last_click_button ms) (click_state ms) (cell_side ms) b (hint_highlight_dirty ms)
    (mouse_x ms) (mouse_y ms).

Definition on_left_click p x : exec Ctx :=
  let side := cell_side (x_mouse x) in
  let control := Keyboard.control_key mods in
  x ← (match click_state (x_mouse x) with
       | Click =>
           empty ← context_selection_is_empty x;
           let x := upd_mouse (with_block (negb empty) (x_mouse x)) x in
           x ← clear_selection x;
           start_selection (if control then BlockType else Simple) p side x
       | DoubleClick =>
           if control then mret x
           else start_selection Semantic p side (upd_mouse (with_block true (x_mouse x)) x)
       | TripleClick =>
           if control then mret x
           else start_selection Lines p side (upd_mouse (with_block true (x_mouse x)) x)
       | NoClick => mret x
       end);
  mret (if vi_mode x && negb (search_active x)
        then mark_dirty (upd_term (upd_vi_mode_cursor p (x_term x)) x) else x).

Definition on_mouse_press (button : MouseButton) x : exec Ctx :=
  if negb (Keyboard.shift_key mods) && mouse_mode x then
    let ms := x_mouse x in
    let x := upd_mouse (with_click (last_click_timestamp ms) (last_click_button ms) NoClick ms) x in
    match button_code button with
    | Some code => mouse_report code Keyboard.Pressed x
    | None => mret x
    end
  else
    let ms := x_mouse x in
    let x := upd_mouse (with_click (x_now x) button (next_click (x_now x) button ms) ms) x in
    p ← mouse_point (x_mouse x) (display_offset (t_grid (x_term x)));
    match button with MouseLeft => on_left_click p x | _ => mret x end.

(** [expand_selection]. *)
Definition expand_selection x : exec Ctx :=
  let control := Keyboard.control_key mods in
  let new_ty := match click_state (x_mouse x) with
                | NoClick => None
                | Click => Some (if control then BlockType else Simple)
                | DoubleClick => Some (if control then BlockType else Semantic)
                | TripleClick => Some (if control then BlockType else Lines)
                end in
  match new_ty with
  | None => mret x
  | Some new_ty =>
      p ← mouse_point (x_mouse x) (display_offset (t_grid (x_term x)));
      match t_selection (x_term x) with
      | None => mret x
      | Some s =>
          let s := mkSelection new_ty (region_start s) (region_end s) in
          x ← update_selection p (cell_side (x_mouse x)) (upd_term (upd_selection (Some s) (x_term x)) x);
          mret (if vi_mode x && negb (search_active x)
                then upd_term (upd_vi_mode_cursor p (x_term x)) x else x)
      end
  end.
End operations.
End context.
End ActionContext.
