(* ===== verification/DisplaySize.v ===== *)
(** * Sizes, frames and texts of the display (alacritty/src/display/mod.rs)

    The size of the window in pixels and in cells, the timer of frames, the state of the
    input method and the text of the search bar.

    Sizes in pixels are floating point numbers with whole values: widths and heights come
    from integers, the dimensions of cells and the padding are rounded down.  Below [2^24]
    the operations on them are exact and a rounded-down quotient is the integer quotient.
    Only the dynamic padding is halved before it is rounded; it is kept doubled here. *)

From S2P Require Import Prelude Index Selection Term FrameDamage Shortener Scheduler MessageBar.
#[local] Open Scope Z_scope.

Module DisplaySize.
Import FrameDamage.

#[global] Instance SizeInfo_eq_dec : EqDecision SizeInfo.
Proof. solve_decision. Defined.

#[global] Instance SizeInfo_dimensions : Dimensions SizeInfo := {
  total_lines := si_screen_lines;
  screen_lines := si_screen_lines;
  columns := si_columns }.

(** Casts from floating point numbers saturate. *)
Definition float_as_u32 (z : Z) : Z := Z.max 0 (Z.min z 4294967295).
Definition float_as_u16 (z : Z) : Z := Z.max 0 (Z.min z 65535).
Definition float_as_usize (z : Z) : Z := Z.max 0 (Z.min z usize_max).

(** ** [SizeInfo] *)

(** Twice the result of [SizeInfo::dynamic_padding]. *)
Definition dynamic_padding (padding dimension cell_dimension : Z) : Z :=
  2 * padding + Z.rem (dimension - 2 * padding) cell_dimension.

(** [SizeInfo::new]; [double_x] and [double_y] are [2. * padding_x] and [2. * padding_y]. *)
Definition size_new (width height cell_width cell_height padding_x padding_y : Z) (dynamic : bool) : SizeInfo :=
  let double_x := if dynamic then dynamic_padding padding_x width cell_width else 2 * padding_x in
  let double_y := if dynamic then dynamic_padding padding_y height cell_height else 2 * padding_y in
  let lines := Z.quot (height - double_y) cell_height in
  let screen_lines := Z.max (float_as_usize lines) MIN_SCREEN_LINES in
  let columns := Z.quot (width - double_x) cell_width in
  let columns := Z.max (float_as_usize columns) MIN_COLUMNS in
  mkSizeInfo width height cell_width cell_height (double_x / 2) (double_y / 2) screen_lines columns.

Definition reserve_lines (count : Z) (si : SizeInfo) : SizeInfo :=
  mkSizeInfo (si_width si) (si_height si) (si_cell_width si) (si_cell_height si) (si_padding_x si)
    (si_padding_y si) (Z.max (saturating_sub (si_screen_lines si) count) MIN_SCREEN_LINES) (si_columns si).

Definition contains_point (x y : Z) (si : SizeInfo) : bool :=
  (x <=? float_as_usize (si_padding_x si + si_columns si * si_cell_width si)) &&
  (float_as_usize (si_padding_x si) <? x) &&
  (y <=? float_as_usize (si_padding_y si + si_screen_lines si * si_cell_height si)) &&
  (float_as_usize (si_padding_y si) <? y).

(** [impl From<SizeInfo<f32>> for SizeInfo<u32>]. *)
Definition size_to_u32 (si : SizeInfo) : SizeInfo :=
  mkSizeInfo (float_as_u32 (si_width si)) (float_as_u32 (si_height si)) (float_as_u32 (si_cell_width si))
    (float_as_u32 (si_cell_height si)) (float_as_u32 (si_padding_x si)) (float_as_u32 (si_padding_y si))
    (si_screen_lines si) (si_screen_lines si).

(** [impl From<SizeInfo<f32>> for WindowSize]; the counts are cast from [usize]. *)
Definition size_to_window (si : SizeInfo) : WindowSize :=
  mkWindowSize (screen_lines si mod 65536) (columns si mod 65536)
    (float_as_u16 (si_cell_width si)) (float_as_u16 (si_cell_height si)).

(** [window_size]; [padding_x] and [padding_y] are those of the configuration, scaled. *)
Definition window_size (columns lines cell_width cell_height padding_x padding_y : Z) : Z * Z :=
  let grid_width := cell_width * Z.max columns MIN_COLUMNS in
  let grid_height := cell_height * Z.max lines MIN_SCREEN_LINES in
  (float_as_u32 (2 * padding_x + grid_width), float_as_u32 (2 * padding_y + grid_height)).

(** The size that [Message::text] is given. *)
Definition message_lines (width : Z → option Z) (si : SizeInfo) (m : MessageBar.Message) : exec Z :=
  lines ← MessageBar.text width (columns si)
    (float_as_usize (Z.quot (si_height si - 2 * si_padding_y si) (si_cell_height si))) m;
  mret (zlen lines).

(** ** Pending updates *)

Record DisplayUpdate (Font : Type) := mkUpdate {
  du_dirty : bool; du_dimensions : option (Z * Z); du_cursor_dirty : bool; du_font : option Font }.
Arguments mkUpdate {Font} _ _ _ _.
Arguments du_dirty {Font} _.
Arguments du_dimensions {Font} _.
Arguments du_cursor_dirty {Font} _.
Arguments du_font {Font} _.

Definition update_default {Font} : DisplayUpdate Font := mkUpdate false None false None.
Definition set_dimensions {Font} (d : Z * Z) (u : DisplayUpdate Font) : DisplayUpdate Font :=
  mkUpdate true (Some d) (du_cursor_dirty u) (du_font u).
Definition set_font {Font} (f : Font) (u : DisplayUpdate Font) : DisplayUpdate Font :=
  mkUpdate true (du_dimensions u) (du_cursor_dirty u) (Some f).
Definition set_cursor_dirty {Font} (u : DisplayUpdate Font) : DisplayUpdate Font :=
  mkUpdate true (du_dimensions u) true (du_font u).

(** Pending updates of the renderer. *)
Record RendererUpdate := mkRenderer { ru_resize : bool; ru_clear_font_cache : bool }.
Definition renderer_default : RendererUpdate := mkRenderer false false.

(** ** The input method *)

(** The preedit text with the byte offsets of its cursor and the offsets from its end in
    columns. *)
Record Preedit := mkPreedit {
  pe_text : list Z; cursor_byte_offset : option (Z * Z); cursor_end_offset : option (Z * Z) }.
#[global] Instance Preedit_eq_dec : EqDecision Preedit.
Proof. solve_decision. Defined.

(** [text[offset..].chars().fold(0, |acc, ch| acc + ch.width().unwrap_or(1))]. *)
Definition width_behind (width : Z → option Z) (text : list Z) (offset : Z) : exec Z :=
  '(_, rest) ← MessageBar.split_off offset text;
  foldl (λ acc ch, acc ← acc; usize_add acc (default 1 (width ch))) (mret 0) rest.

Definition preedit_new (width : Z → option Z) (text : list Z) (offset : option (Z * Z)) : exec Preedit :=
  match offset with
  | Some (start, end_) =>
      a ← width_behind width text start;
      b ← width_behind width text end_;
      mret (mkPreedit text offset (Some (a, b)))
  | None => mret (mkPreedit text offset None)
  end.

Record Ime := mkIme { ime_enabled : bool; ime_preedit : option Preedit }.
Definition ime_default : Ime := mkIme false None.
Definition set_enabled (is_enabled : bool) (i : Ime) : Ime :=
  if is_enabled then mkIme is_enabled (ime_preedit i) else ime_default.
Definition set_preedit (p : option Preedit) (i : Ime) : Ime := mkIme (ime_enabled i) p.

(** ** The search bar *)

Definition FORWARD_SEARCH_LABEL : list Z := [83; 101; 97; 114; 99; 104; 58; 32].
Definition BACKWARD_SEARCH_LABEL : list Z :=
  [66; 97; 99; 107; 119; 97; 114; 100; 32; 83; 101; 97; 114; 99; 104; 58; 32].
Definition SHORTENER : Z := 8230.

Definition wrapping_sub (a b : Z) : Z := (a - b) mod (usize_max + 1).

(** [StrShortener::new(..).collect()], with fuel for every character and its spacer. *)
Definition shorten (width : Z → option Z) (text : list Z) (max_width : Z)
    (d : Shortener.ShortenDirection) : exec (list Z) :=
  s ← Shortener.new width text max_width d (Some SHORTENER);
  Shortener.collect width (3 * length text + 3) s.

Definition format_search (width : Z → option Z) (search_regex search_label : list Z) (max_width : Z) : exec (list Z) :=
  let label_len := MessageBar.byte_len search_label in
  if max_width <? label_len then '(s, _) ← MessageBar.split_off max_width search_label; mret s
  else
    n ← usize_add label_len 1;
    s ← shorten width search_regex (wrapping_sub max_width n) Shortener.ShortenLeft;
    mret (search_label ++ s ++ [32]).

(** The text [draw_search] draws, [{text:<num_cols$}]. *)
Definition search_bar (num_cols : Z) (text : list Z) : list Z := MessageBar.pad_text text num_cols.

(** ** The frame timer *)

(** Instants and durations in nanoseconds. *)
Record FrameTimer := mkFrameTimer { ft_base : Z; ft_last_synced : Z; ft_refresh : Z }.

Definition frame_timer_new (now : Z) : FrameTimer := mkFrameTimer now now 0.

(** [duration.as_micros() as u64]. *)
Definition as_micros (d : Z) : Z := (d / 1000) mod (usize_max + 1).

Definition compute_timeout (now refresh : Z) (ft : FrameTimer) : exec (Z * FrameTimer) :=
  if negb (ft_refresh ft =? refresh) then mret (refresh, mkFrameTimer now now refresh)
  else
    let next_frame := ft_last_synced ft + ft_refresh ft in
    if next_frame <? now then
      let elapsed_micros := as_micros (Z.max 0 (now - ft_base ft)) in
      let refresh_micros := as_micros (ft_refresh ft) in
      late ← usize_rem elapsed_micros refresh_micros;
      mret (0, mkFrameTimer (ft_base ft) (now - 1000 * late) (ft_refresh ft))
    else mret (next_frame - now, mkFrameTimer (ft_base ft) next_frame (ft_refresh ft)).

(** ** What these do not mean to do *)

(** The conversion to whole pixels takes the number of lines for that of the columns. *)
Example u32_size_columns : columns (size_to_u32 (mkSizeInfo 800 480 10 20 0 0 24 80)) = 24.
Proof. reflexivity. Qed.

(** Where the bar is as wide as the label, no room is left for the expression; the width
    for it wraps around, and all of it is shown. *)
Example search_bar_overflows :
  format_search (λ _, Some 1) [97; 98; 99; 100] FORWARD_SEARCH_LABEL 8 = Ok (FORWARD_SEARCH_LABEL ++ [97; 98; 99; 100; 32]) ∧
  format_search (λ _, Some 1) [97; 98; 99; 100] FORWARD_SEARCH_LABEL 11 = Ok (FORWARD_SEARCH_LABEL ++ [8230; 100; 32]).
Proof. split; vm_compute; reflexivity. Qed.
End DisplaySize.
