(* ===== verification/DisplayState.v ===== *)
(** * The state of the display (alacritty/src/display/mod.rs, alacritty/src/window_context.rs)

    The parts of [Display] that its updates change: the size, pending updates, the damage
    tracker, highlighted hints and the timer of frames.  Of the window only what the code
    reads or decides by itself is kept.  The dimensions of the cells of a font come from the
    rasterizer and are an argument, as is the equality of hint matches. *)

From S2P Require Import Prelude Index Ansi GridCell Row Storage Cell Grid Selection Term Search RegexSearch.
From S2P Require Import Hints Scheduler EventLoop FrameDamage Shortener MessageBar Keyboard ActionContext DisplaySize.
#[local] Open Scope Z_scope.

Module DisplayState.
Import Scheduler FrameDamage ActionContext DisplaySize.

Record Window := mkWindow {
  w_mouse_cursor : CursorIcon;
  w_mouse_visible : bool;
  w_has_frame : bool;
  w_resize_increments : option (Z * Z) }.

(** [highlighted_hint], [vi_highlighted_hint] with their ages, and [hint_mouse_point]. *)
Record Highlights := mkHighlights {
  hl_hint : option HintMatch;
  hl_age : Z;
  hl_vi_hint : option HintMatch;
  hl_vi_age : Z;
  hl_mouse_point : option Point }.

Section display.
Context `{Ansi} {Font : Type} (font_cells : Font → Z * Z) (hint_eqb : HintMatch → HintMatch → bool).
Context (width : Z → option Z).

Record Display := mkDisplay {
  d_window : Window;
  d_size : SizeInfo;
  d_pending : DisplayUpdate Font;
  d_renderer : option RendererUpdate;
  d_tracker : DamageTracker;
  d_highlights : Highlights;
  d_timer : FrameTimer }.
Implicit Types (d : Display) (t : Term) (ss : SearchState).

Definition upd_window (w : Window) d : Display :=
  mkDisplay w (d_size d) (d_pending d) (d_renderer d) (d_tracker d) (d_highlights d) (d_timer d).
Definition upd_size (si : SizeInfo) d : Display :=
  mkDisplay (d_window d) si (d_pending d) (d_renderer d) (d_tracker d) (d_highlights d) (d_timer d).
Definition upd_pending (u : DisplayUpdate Font) d : Display :=
  mkDisplay (d_window d) (d_size d) u (d_renderer d) (d_tracker d) (d_highlights d) (d_timer d).
Definition upd_renderer (r : option RendererUpdate) d : Display :=
  mkDisplay (d_window d) (d_size d) (d_pending d) r (d_tracker d) (d_highlights d) (d_timer d).
Definition upd_tracker (dt : DamageTracker) d : Display :=
  mkDisplay (d_window d) (d_size d) (d_pending d) (d_renderer d) dt (d_highlights d) (d_timer d).
Definition upd_highlights (hl : Highlights) d : Display :=
  mkDisplay (d_window d) (d_size d) (d_pending d) (d_renderer d) (d_tracker d) hl (d_timer d).
Definition upd_timer (ft : FrameTimer) d : Display :=
  mkDisplay (d_window d) (d_size d) (d_pending d) (d_renderer d) (d_tracker d) (d_highlights d) ft.

Definition set_mouse_cursor (i : CursorIcon) d : Display :=
  let w := d_window d in upd_window (mkWindow i (w_mouse_visible w) (w_has_frame w) (w_resize_increments w)) d.
Definition set_has_frame (b : bool) d : Display :=
  let w := d_window d in upd_window (mkWindow (w_mouse_cursor w) (w_mouse_visible w) b (w_resize_increments w)) d.
Definition set_resize_increments (cells : Z * Z) d : Display :=
  let w := d_window d in upd_window (mkWindow (w_mouse_cursor w) (w_mouse_visible w) (w_has_frame w) (Some cells)) d.

(** [damage_tracker.frame().mark_fully_damaged()]. *)
Definition damage_all d : Display :=
  upd_tracker (with_frame (FrameDamage.mark_fully_damaged (frame (d_tracker d))) (d_tracker d)) d.

(** ** Updates *)

(** [pending_renderer_update.get_or_insert(Default::default())] with a field set. *)
Definition renderer_clear_cache d : Display :=
  let r := default renderer_default (d_renderer d) in upd_renderer (Some (mkRenderer (ru_resize r) true)) d.
Definition renderer_resize d : Display :=
  let r := default renderer_default (d_renderer d) in upd_renderer (Some (mkRenderer true (ru_clear_font_cache r))) d.

(** The options of the window; [cfg_padding] is [config.window.padding(scale_factor)]. *)
Record WindowConfig := mkWindowConfig {
  cfg_padding : Z * Z; cfg_dynamic_padding : bool; cfg_resize_increments : bool }.

(** The size that the pending update leads to, [new_size] with the lines of the message bar
    and the search bar reserved. *)
Definition updated_size (cfg : WindowConfig) (buffer : MessageBar.MessageBuffer) ss
    (old : SizeInfo) (u : DisplayUpdate Font) : exec SizeInfo :=
  let '(cell_width, cell_height) :=
    match du_font u with Some font => font_cells font | None => (si_cell_width old, si_cell_height old) end in
  let '(w, h) := default (si_width old, si_height old) (du_dimensions u) in
  let '(padding_x, padding_y) := cfg_padding cfg in
  let new_size := size_new w h cell_width cell_height padding_x padding_y (cfg_dynamic_padding cfg) in
  message_bar_lines ← match MessageBar.message buffer with
                      | Some m => message_lines width new_size m
                      | None => mret 0
                      end;
  let search_lines := if bool_decide (is_Some (history_index ss)) then 1 else 0 in
  count ← usize_add message_bar_lines search_lines;
  mret (reserve_lines count new_size).

(** [Display::handle_update]: the display, the terminal, the channel to the event loop and
    the search state. *)
Definition handle_update (cfg : WindowConfig) (buffer : MessageBar.MessageBuffer)
    d t (channel : list (EventLoop.Msg WindowSize)) ss
    : exec (Display * Term * list (EventLoop.Msg WindowSize) * SearchState) :=
  let pending_update := d_pending d in
  let d := upd_pending update_default d in
  let d := if bool_decide (is_Some (du_font pending_update)) || du_cursor_dirty pending_update
           then renderer_clear_cache d else d in
  let d := if bool_decide (is_Some (du_font pending_update)) then damage_all d else d in
  new_size ← updated_size cfg buffer ss (d_size d) pending_update;
  let d := if cfg_resize_increments cfg
           then set_resize_increments (si_cell_width new_size, si_cell_height new_size) d else d in
  '(d, t, channel) ←
    (if negb (screen_lines (d_size d) =? screen_lines new_size) || negb (columns (d_size d) =? columns new_size) then
       let channel := EventLoop.on_resize (size_to_window new_size) channel in
       t ← term_resize new_size t;
       mret (upd_tracker (tracker_resize (screen_lines new_size) (columns new_size) (d_tracker d)) d, t, channel)
     else mret (d, t, channel));
  let '(d, ss) := if negb (bool_decide (new_size = d_size d))
                  then (renderer_resize d, ss_with_match None ss) else (d, ss) in
  mret (upd_size new_size d, t, channel, ss).

(** [Display::process_renderer_update]: the size the surface is resized to, if any, and
    whether the glyph cache is reset. *)
Definition process_renderer_update d : exec (Display * option (Z * Z) * bool) :=
  match d_renderer d with
  | None => mret (d, None, false)
  | Some r =>
      let d := upd_renderer None d in
      surface ← (if ru_resize r then
                   let w := float_as_u32 (si_width (d_size d)) in
                   let h := float_as_u32 (si_height (d_size d)) in
                   if (w =? 0) || (h =? 0) then Panic PanicUnwrap else mret (Some (w, h))
                 else mret None);
      mret (d, surface, ru_clear_font_cache r)
  end.

(** [WindowContext::submit_display_update]. *)
Definition submit_display_update (cfg : WindowConfig) (buffer : MessageBar.MessageBuffer)
    d t (channel : list (EventLoop.Msg WindowSize)) ss (old_is_searching : bool)
    : exec (Display * Term * list (EventLoop.Msg WindowSize) * SearchState) :=
  let num_lines := screen_lines t in
  l ← i32_add (line (term_cursor t)) 1;
  let cursor_at_bottom := l =? as_i32 num_lines in
  origin_at_bottom ←
    (if has_mode t TermMode.VI then
       last ← usize_sub num_lines 1; mret (line (t_vi_mode_cursor t) =? as_i32 last)
     else mret (bool_decide (ss_direction ss = Left)));
  '(d, t, channel, ss) ← handle_update cfg buffer d t channel ss;
  let new_is_searching := bool_decide (is_Some (history_index ss)) in
  t ← (if negb old_is_searching && new_is_searching then
         let display_offset := display_offset (t_grid t) in
         if (display_offset =? 0) && cursor_at_bottom && negb origin_at_bottom then
           term_scroll_display (Delta 1) t
         else if negb (display_offset =? 0) && origin_at_bottom then term_scroll_display (Delta (-1)) t
         else mret t
       else mret t);
  mret (d, t, channel, ss).

(** ** Highlighted hints *)

(** [self.highlighted_hint != highlighted_hint]. *)
Definition hint_differs (a b : option HintMatch) : bool :=
  match a, b with
  | Some a, Some b => negb (hint_eqb a b)
  | None, None => false
  | _, _ => true
  end.

Definition with_hint (h : option HintMatch) (age : Z) (hl : Highlights) : Highlights :=
  mkHighlights h age (hl_vi_hint hl) (hl_vi_age hl) (hl_mouse_point hl).
Definition with_vi_hint (h : option HintMatch) (age : Z) (hl : Highlights) : Highlights :=
  mkHighlights (hl_hint hl) (hl_age hl) h age (hl_mouse_point hl).
Definition with_mouse_point (p : option Point) (hl : Highlights) : Highlights :=
  mkHighlights (hl_hint hl) (hl_age hl) (hl_vi_hint hl) (hl_vi_age hl) p.

(** [Display::update_highlighted_hints]; [hint_at] is [hint::highlighted_at] on the
    terminal and configuration at a point, [all_mods] are all modifiers. *)
Definition update_highlighted_hints (hint_at : Point → Z → exec (option HintMatch)) (all_mods : Z)
    t (ms : Mouse) (inside_text_area : bool) (modifiers : Z) d : exec (Display * bool) :=
  vi_hint ← (if has_mode t TermMode.VI then hint_at (t_vi_mode_cursor t) all_mods else mret None);
  let dirty := hint_differs vi_hint (hl_vi_hint (d_highlights d)) in
  let d := upd_highlights (with_vi_hint vi_hint 0 (d_highlights d)) d in
  let d := if dirty then damage_all d else d in
  empty ← match t_selection t with Some s => selection_is_empty s | None => mret true end;
  if negb (w_mouse_visible (d_window d)) || negb inside_text_area || negb empty then
    match hl_hint (d_highlights d) with
    | Some _ =>
        let d := upd_highlights (with_hint None (hl_age (d_highlights d)) (d_highlights d)) d in
        mret (damage_all d, true)
    | None => mret (d, dirty)
    end
  else
    p ← mouse_point (d_size d) ms (display_offset (t_grid t));
    hint ← hint_at p modifiers;
    let '(d, dirty) :=
      match hint, hl_hint (d_highlights d) with
      | Some _, _ =>
          let dirty := match hl_mouse_point (d_highlights d) with Some q => negb (line q =? line p) | None => false end in
          (set_mouse_cursor IconPointer (upd_highlights (with_mouse_point (Some p) (d_highlights d)) d), dirty)
      | None, Some _ =>
          let d := upd_highlights (with_mouse_point None (d_highlights d)) d in
          (set_mouse_cursor (if Bitflags.intersects (t_mode t) TermMode.MOUSE_MODE && negb (has_mode t TermMode.VI)
                             then IconDefault else IconText) d, dirty)
      | None, None => (d, dirty)
      end in
    let mouse_highlight_dirty := hint_differs (hl_hint (d_highlights d)) hint in
    let dirty := dirty || mouse_highlight_dirty in
    let d := upd_highlights (with_hint hint 0 (d_highlights d)) d in
    mret (if mouse_highlight_dirty then damage_all d else d, dirty).

(** The bounds of a hint in the viewport; points outside of it count as its corners. *)
Definition hint_bounds (display_offset : Z) (si : SizeInfo) (hm : HintMatch) : exec (Point * Point) :=
  let visible o := match o with Some p => if line p <? screen_lines si then Some p else None | None => None end in
  start ← point_to_viewport display_offset (m_start (hm_bounds hm));
  end_ ← point_to_viewport display_offset (m_end (hm_bounds hm));
  end_ ← match visible end_ with
         | Some p => mret p
         | None => l ← usize_sub (screen_lines si) 1; c ← last_column si; mret (mkPoint l c)
         end;
  mret (default default_point (visible start), end_).

(** One iteration of [Display::validate_hint_highlights]: the hint, its age and whether it
    was cleared. *)
Definition validate_hint (display_offset : Z) (si : SizeInfo) (f : FrameDamage) (hint : option HintMatch) (age : Z)
    : exec (option HintMatch * Z * bool) :=
  match hint with
  | None => mret (None, age, false)
  | Some hm =>
      age ← usize_add age 1;
      if age =? 1 then mret (hint, age, false)
      else
        '(start, end_) ← hint_bounds display_offset si hm;
        hit ← FrameDamage.intersects start end_ f;
        mret (if hit : bool then None else hint, age, hit)
  end.

Definition validate_hint_highlights (display_offset : Z) d : exec Display :=
  '(hint, age, cleared) ← validate_hint display_offset (d_size d) (frame (d_tracker d))
                            (hl_hint (d_highlights d)) (hl_age (d_highlights d));
  let d := upd_highlights (with_hint hint age (d_highlights d)) d in
  let d := if cleared : bool then damage_all (set_mouse_cursor IconDefault d) else d in
  '(hint, age, cleared) ← validate_hint display_offset (d_size d) (frame (d_tracker d))
                            (hl_vi_hint (d_highlights d)) (hl_vi_age (d_highlights d));
  let d := upd_highlights (with_vi_hint hint age (d_highlights d)) d in
  mret (if cleared : bool then damage_all d else d).

(** ** Frames *)

(** [Display::request_frame]; [vblank] is the interval of the monitor, in nanoseconds. *)
Definition request_frame {E : Type} (frame_event : E) (window now vblank : Z) d (s : @Scheduler E Z)
    : exec (Display * @Scheduler E Z) :=
  let d := set_has_frame false d in
  '(swap_timeout, ft) ← compute_timeout now vblank (d_timer d);
  mret (upd_timer ft d, schedule now frame_event swap_timeout false (mkTimerId Frame window) s).
End display.
Arguments Display : clear implicits.
End DisplayState.
