(* ===== verification/ActionFacts.v ===== *)
(** * Facts about user actions

    Selections, scrolling and the beginning of input never panic on a well-formed
    terminal and do not write to the pseudo terminal. *)

From S2P Require Import Prelude Decimal Index Ansi GridCell Row Storage Cell Grid GridFacts GridOps.
From S2P Require Import Selection Term TermFacts TermOps Search RegexSearch Scheduler EventLoop.
From S2P Require Import FrameDamage Keyboard ActionContext.
#[local] Open Scope Z_scope.

Module ActionFacts.
Import FrameDamage ActionContext.

(** A window with at least one cell. *)
Definition size_ok (size : SizeInfo) : Prop :=
  0 < si_cell_width size ∧ 0 < si_cell_height size ∧ 0 ≤ si_padding_x size ∧ 0 ≤ si_padding_y size ∧
  1 ≤ si_columns size ≤ 1073741824 ∧ 1 ≤ si_screen_lines size ≤ 536870912.

Section facts.
Context `{AnsiLaws} (R : Row Cell → Prop).
Context (cfg : UiConfig) (size : SizeInfo) (window : Z) (Hsize : size_ok size).
Implicit Types (x : Ctx) (p : Point).
#[local] Abbreviation term_wf := (TermFacts.term_wf R).

(** The parts of the context that only input changes. *)
Definition same_input x x' : Prop :=
  x_channel x' = x_channel x ∧ x_search x' = x_search x ∧ x_inline x' = x_inline x.

Lemma same_input_refl x : same_input x x.
Proof. done. Qed.
Lemma same_input_trans x1 x2 x3 : same_input x1 x2 → same_input x2 x3 → same_input x1 x3.
Proof. unfold same_input. intuition congruence. Qed.

Lemma mouse_point_spec (ms : Mouse) (off : Z) :
  0 ≤ off ≤ 536870912 → 0 ≤ mouse_x ms → 0 ≤ mouse_y ms →
  wp (mouse_point size ms off) (λ p, 0 ≤ column p < si_columns size ∧
    - off ≤ line p < si_screen_lines size - off).
Proof using Hsize.
  intros Ho Hx Hy. destruct Hsize as (? & ? & ? & ? & ? & ?).
  unfold mouse_point, viewport_to_point, line_sub_usize. casts.
  assert (Hdiv : ∀ a b c, 0 < c → 0 ≤ saturating_sub a b / c)
    by (intros; apply Z.div_pos; [unfold saturating_sub; lia|done]).
  pose proof (Hdiv (mouse_x ms) (si_padding_x size) (si_cell_width size) ltac:(done)).
  pose proof (Hdiv (mouse_y ms) (si_padding_y size) (si_cell_height size) ltac:(done)).
  do 8 wp_step. cbn [line column]. casts. wp_steps. cbn [line column]. lia.
Qed.

Lemma context_selection_ok B x :
  term_wf B (x_term x) → wp (context_selection_is_empty x) (λ _, True).
Proof using.
  intros W. unfold context_selection_is_empty. destruct (t_selection (x_term x)) as [s|] eqn:Es; [|done].
  apply (selection_is_empty_ok B). by apply (tw_selection _ _ _ W).
Qed.

Lemma clear_selection_spec B x :
  term_wf B (x_term x) →
  wp (clear_selection x) (λ x', same_input x x' ∧ x_term x' = upd_selection None (x_term x) ∧
    term_wf B (x_term x') ∧ x_mouse x' = x_mouse x).
Proof using.
  intros W. unfold clear_selection. apply wp_bind. wp_use context_selection_ok; [done|].
  intros e _. apply wp_ret. split_and!; try done. simpl. apply (upd_selection_wf _ B); [done| |done].
  pose proof (tw_budget _ _ _ W). lia.
Qed.

Lemma update_selection_spec B x p side :
  term_wf B (x_term x) → wp (update_selection p side x) (λ x', same_input x x').
Proof using.
  intros W. unfold update_selection. destruct (t_selection (x_term x)) as [s|]; [|by apply wp_ret].
  assert (Hd : dims_ok (upd_selection None (x_term x))) by apply (term_dims R B _ W).
  apply wp_bind. rewrite bottommost_line_ok by done. apply wp_ok.
  destruct (_ && _); by apply wp_ret.
Qed.

Lemma on_typing_start_frame x :
  same_input x (on_typing_start cfg window x) ∧ x_term (on_typing_start cfg window x) = x_term x ∧
  mouse_x (x_mouse (on_typing_start cfg window x)) = mouse_x (x_mouse x) ∧
  mouse_y (x_mouse (on_typing_start cfg window x)) = mouse_y (x_mouse x).
Proof using.
  unfold on_typing_start, update_cursor_blinking, unschedule_timer, schedule_blinking,
    schedule_blinking_timeout. repeat case_match; simplify_eq/=; done.
Qed.

Lemma scroll_spec B x sc :
  term_wf B (x_term x) → delta_ok sc → search_active x = false →
  0 ≤ mouse_x (x_mouse x) → 0 ≤ mouse_y (x_mouse x) →
  wp (scroll cfg size window sc x) (λ x', same_input x x').
Proof using Hsize.
  intros W Hd Hs Hx Hy. unfold scroll, on_term. pose proof (term_bounds R B _ W) as Hb.
  apply wp_bind, wp_bind.
  wp_use (term_scroll_display_spec R B); [done..|]. intros t' (W' & _). apply wp_ret.
  pose proof (term_bounds R _ _ W') as Hb'. casts. apply wp_bind, wp_i32_sub; [cbn [x_term upd_term]; casts; lia|].
  set (x1 := upd_term t' x). assert (search_active x1 = false) as -> by done.
  apply wp_bind, wp_ret. apply wp_bind. wp_use (context_selection_ok (vi_budget B) x1); [done|]. intros e _.
  apply wp_bind. eapply (wp_mono _ (λ x', same_input x1 x')).
  { destruct (_ && _); [by apply (update_selection_spec (vi_budget B))|].
    destruct (_ || _); [|by apply wp_ret]. apply wp_bind.
    wp_use mouse_point_spec; [simpl; lia|done..|]. intros p _. by apply (update_selection_spec (vi_budget B)). }
  intros x2 Hx2. apply wp_ret.
  assert (Hx3 : same_input x1 (if vi_mode x1 then on_typing_start cfg window x2 else x2)).
  { destruct (vi_mode x1); [|done]. eapply same_input_trans; [exact Hx2|]. apply on_typing_start_frame. }
  exact Hx3.
Qed.

Lemma on_terminal_input_start_spec B x :
  term_wf B (x_term x) → search_active x = false →
  0 ≤ mouse_x (x_mouse x) → 0 ≤ mouse_y (x_mouse x) →
  wp (on_terminal_input_start cfg size window x) (λ x', same_input x x').
Proof using Hsize.
  intros W Hs Hx Hy. unfold on_terminal_input_start.
  destruct (on_typing_start_frame x) as (Hi & Ht & Hmx & Hmy).
  set (x1 := on_typing_start cfg window x) in *. apply wp_bind.
  wp_use (clear_selection_spec B x1); [by rewrite Ht|]. intros x2 (Hi2 & _ & W2 & Hm2).
  pose proof (same_input_trans _ _ _ Hi Hi2) as Hi3. apply wp_if; intros _; [|by apply wp_ret].
  assert (Hs2 : search_active x2 = false).
  { destruct Hi3 as (_ & Es & _). unfold search_active. by rewrite Es. }
  wp_use (scroll_spec B); [done| |done|by rewrite Hm2, Hmx|by rewrite Hm2, Hmy|].
  { intros k [=]. } intros x3 Hx3. by eapply same_input_trans.
Qed.
End facts.
End ActionFacts.
