(* ===== verification/Bindings.v ===== *)
(** * Key and mouse bindings (alacritty/src/config/bindings.rs)

    What a binding is triggered by, when two bindings overlap, the default bindings
    (on platforms other than macOS and Windows) and how configured bindings replace
    them. *)

From S2P Require Import Prelude Decimal Index Ansi Term Search RegexSearch ViMode Hints Keyboard.
From S2P Require Import ActionContext.
#[local] Open Scope Z_scope.

Module Bindings.
Import Keyboard.

(** ** Modes *)
Module BindingMode.
Definition APP_CURSOR : Z := 1.
Definition APP_KEYPAD : Z := 2.
Definition ALT_SCREEN : Z := 4.
Definition VI : Z := 8.
Definition SEARCH : Z := 16.
Definition DISAMBIGUATE_ESC_CODES : Z := 32.
Definition REPORT_ALL_KEYS_AS_ESC : Z := 64.
Definition all : Z := 127.
End BindingMode.

Definition binding_mode (mode : Z) (search : bool) : Z :=
  let m := Bitflags.set 0 BindingMode.APP_CURSOR (Bitflags.contains mode TermMode.APP_CURSOR) in
  let m := Bitflags.set m BindingMode.APP_KEYPAD (Bitflags.contains mode TermMode.APP_KEYPAD) in
  let m := Bitflags.set m BindingMode.ALT_SCREEN (Bitflags.contains mode TermMode.ALT_SCREEN) in
  let m := Bitflags.set m BindingMode.VI (Bitflags.contains mode TermMode.VI) in
  let m := Bitflags.set m BindingMode.SEARCH search in
  let m := Bitflags.set m BindingMode.DISAMBIGUATE_ESC_CODES
             (Bitflags.contains mode TermMode.DISAMBIGUATE_ESC_CODES) in
  Bitflags.set m BindingMode.REPORT_ALL_KEYS_AS_ESC
    (Bitflags.contains mode TermMode.REPORT_ALL_KEYS_AS_ESC).

(** ** Actions *)
Inductive ViAction :=
  | ToggleNormalSelection | ToggleLineSelection | ToggleBlockSelection | ToggleSemanticSelection
  | SearchNext | SearchPrevious | SearchStart | SearchEnd | Open | CenterAroundViCursor
  | InlineSearchForward | InlineSearchBackward | InlineSearchForwardShort | InlineSearchBackwardShort
  | InlineSearchNext | InlineSearchPrevious | SemanticSearchForward | SemanticSearchBackward.

Inductive SearchAction :=
  | SearchFocusNext | SearchFocusPrevious | SearchConfirm | SearchCancel | SearchClear
  | SearchDeleteWord | SearchHistoryPrevious | SearchHistoryNext.

Inductive Action :=
  | Esc (s : text) | Command (program : text) (args : list text) | StartHint (hint : Hint)
  | Motion (m : ViMotion) | Vi (a : ViAction) | SearchAct (a : SearchAction) | ExpandSelection
  | Paste | Copy | CopySelection | PasteSelection
  | IncreaseFontSize | DecreaseFontSize | ResetFontSize
  | ScrollPageUp | ScrollPageDown | ScrollHalfPageUp | ScrollHalfPageDown
  | ScrollLineUp | ScrollLineDown | ScrollToTop | ScrollToBottom
  | ClearHistory | Hide | HideOtherApplications | Minimize | Quit | ClearLogNotice | SpawnNewInstance
  | SelectNextTab | SelectPreviousTab | SelectTab1 | SelectTab2 | SelectTab3 | SelectTab4 | SelectTab5
  | SelectTab6 | SelectTab7 | SelectTab8 | SelectTab9 | SelectLastTab | CreateNewWindow | CreateNewTab
  | ToggleFullscreen | ToggleMaximized | ToggleSimpleFullscreen | ClearSelection | ToggleViMode | ReceiveChar
  | SearchForward | SearchBackward | NoAction.

(** ** Triggers *)

(** Where the key of a binding is. *)
Inductive BindingLocation := BindStandard | BindNumpad | BindAny.

Definition location_of (l : KeyLocation) : BindingLocation :=
  match l with Standard => BindStandard | LocLeft | LocRight => BindAny | Numpad => BindNumpad end.

(** [PartialEq for KeyLocation]. *)
Definition location_eq (a b : BindingLocation) : bool :=
  match a, b with
  | _, BindAny | BindAny, _ | BindStandard, BindStandard | BindNumpad, BindNumpad => true
  | _, _ => false
  end.

(** Scan codes are numbers. *)
Inductive BindingKey := Scancode (code : Z) | Keycode (key : Key) (loc : BindingLocation).
Inductive MouseEvent := Button (b : ActionContext.MouseButton) | WheelUp | WheelDown.

Class Trigger (T : Type) := trigger_eq : T → T → bool.

#[global] Instance binding_key_trigger : Trigger BindingKey := λ a b,
  match a, b with
  | Scancode c, Scancode d => c =? d
  | Keycode k l, Keycode k' l' => bool_decide (k = k') && location_eq l l'
  | _, _ => false
  end.
#[global] Instance mouse_event_trigger : Trigger MouseEvent := λ a b,
  match a, b with
  | Button c, Button d => bool_decide (c = d)
  | WheelUp, WheelUp | WheelDown, WheelDown => true
  | _, _ => false
  end.

Record Binding (T : Type) := mkBinding {
  b_mods : ModifiersState; b_action : Action; b_mode : Z; b_notmode : Z; b_trigger : T }.
Arguments mkBinding {T}.
Arguments b_mods {T}. Arguments b_action {T}. Arguments b_mode {T}. Arguments b_notmode {T}.
Arguments b_trigger {T}.

Section bindings.
Context {T : Type} `{Trigger T}.
Implicit Types (b u d : Binding T) (bs : list (Binding T)).

Definition is_triggered_by b (mode : Z) (mods : ModifiersState) (input : T) : bool :=
  trigger_eq (b_trigger b) input && bool_decide (b_mods b = mods)
  && Bitflags.contains mode (b_mode b) && negb (Bitflags.intersects mode (b_notmode b)).

Definition triggers_match b b' : bool :=
  if negb (trigger_eq (b_trigger b) (b_trigger b')) || negb (bool_decide (b_mods b = b_mods b')) then false
  else
    let selfmode := if b_mode b =? 0 then BindingMode.all else b_mode b in
    let bindingmode := if b_mode b' =? 0 then BindingMode.all else b_mode b' in
    if negb (Bitflags.intersects selfmode bindingmode) then false
    else if Bitflags.intersects (b_mode b) (b_notmode b') || Bitflags.intersects (b_mode b') (b_notmode b)
    then false else true.

(** [deserialize_bindings]: the configured bindings, then the default ones that none
    of them overlaps with. *)
Definition retain_defaults (bs defaults : list (Binding T)) : list (Binding T) :=
  foldl (λ ds b, filter (λ d, triggers_match d b = false) ds) defaults bs.
Definition merge_bindings (bs defaults : list (Binding T)) : list (Binding T) :=
  bs ++ retain_defaults bs defaults.
End bindings.

(** ** The default bindings *)

Definition chars (s : string) : text :=
  (λ c, Z.of_N (Ascii.N_of_ascii c)) <$> String.list_ascii_of_string s.
#[local] Open Scope string_scope.

(** The keys [Copy] and [Paste], which the encoding of keys does not mention. *)
Definition CopyKey : NamedKey := OtherNamed 0.
Definition PasteKey : NamedKey := OtherNamed 1.

Section tables.
#[local] Abbreviation CTRL := (mkMods false true false false).
#[local] Abbreviation CTRL_SHIFT := (mkMods true true false false).
#[local] Abbreviation ALT_KEY := (mkMods false false true false).
#[local] Abbreviation SHIFT_ALT := (mkMods true false true false).
#[local] Abbreviation VI := BindingMode.VI.
#[local] Abbreviation SEARCH := BindingMode.SEARCH.
#[local] Abbreviation ALT_SCREEN := BindingMode.ALT_SCREEN.
#[local] Abbreviation APP_CURSOR := BindingMode.APP_CURSOR.
#[local] Abbreviation VI_SEARCH := (Z.lor BindingMode.VI BindingMode.SEARCH).
#[local] Abbreviation ALL_AS_ESC := (Z.lor VI_SEARCH BindingMode.REPORT_ALL_KEYS_AS_ESC).
#[local] Abbreviation LEGACY := (Z.lor ALL_AS_ESC BindingMode.DISAMBIGUATE_ESC_CODES).

Definition key_binding (key : Key) (loc : BindingLocation) (mods : ModifiersState) (mode notmode : Z)
    (action : Action) : Binding BindingKey := mkBinding mods action mode notmode (Keycode key loc).

Definition default_mouse_bindings : list (Binding MouseEvent) :=
  [mkBinding mods_empty ExpandSelection 0 0 (Button ActionContext.MouseRight);
   mkBinding CTRL ExpandSelection 0 0 (Button ActionContext.MouseRight);
   mkBinding mods_empty PasteSelection 0 VI (Button ActionContext.MouseMiddle)].

Definition common_keybindings : list (Binding BindingKey) :=
  [key_binding (Character (chars "v")) BindAny CTRL_SHIFT 0 VI Paste;
   key_binding (Character (chars "v")) BindAny CTRL_SHIFT VI_SEARCH 0 Paste;
   key_binding (Character (chars "f")) BindAny CTRL_SHIFT 0 SEARCH SearchForward;
   key_binding (Character (chars "b")) BindAny CTRL_SHIFT 0 SEARCH SearchBackward;
   key_binding (Named Insert) BindAny mods_shift 0 VI PasteSelection;
   key_binding (Character (chars "c")) BindAny CTRL_SHIFT 0 0 Copy;
   key_binding (Character (chars "c")) BindAny CTRL_SHIFT VI SEARCH ClearSelection;
   key_binding (Character (chars "0")) BindAny CTRL 0 0 ResetFontSize;
   key_binding (Character (chars "=")) BindAny CTRL 0 0 IncreaseFontSize;
   key_binding (Character (chars "+")) BindAny CTRL 0 0 IncreaseFontSize;
   key_binding (Character (chars "-")) BindAny CTRL 0 0 DecreaseFontSize;
   key_binding (Character (chars "+")) BindNumpad CTRL 0 0 IncreaseFontSize;
   key_binding (Character (chars "-")) BindNumpad CTRL 0 0 DecreaseFontSize].

Definition platform_key_bindings : list (Binding BindingKey) := common_keybindings.

Definition default_key_bindings : list (Binding BindingKey) :=
  [key_binding (Named CopyKey) BindAny mods_empty 0 0 Copy;
   key_binding (Named CopyKey) BindAny mods_empty VI 0 ClearSelection;
   key_binding (Named PasteKey) BindAny mods_empty 0 VI Paste;
   key_binding (Named PasteKey) BindAny mods_empty VI_SEARCH 0 Paste;
   key_binding (Character (chars "l")) BindAny CTRL 0 0 ClearLogNotice;
   key_binding (Character (chars "l")) BindAny CTRL 0 0 ReceiveChar;
   key_binding (Named Home) BindAny mods_shift 0 ALT_SCREEN ScrollToTop;
   key_binding (Named End) BindAny mods_shift 0 ALT_SCREEN ScrollToBottom;
   key_binding (Named PageUp) BindAny mods_shift 0 ALT_SCREEN ScrollPageUp;
   key_binding (Named PageDown) BindAny mods_shift 0 ALT_SCREEN ScrollPageDown;
   key_binding (Named Home) BindAny mods_empty APP_CURSOR VI_SEARCH (Esc [27; 79; 72]);
   key_binding (Named End) BindAny mods_empty APP_CURSOR VI_SEARCH (Esc [27; 79; 70]);
   key_binding (Named ArrowUp) BindAny mods_empty APP_CURSOR VI_SEARCH (Esc [27; 79; 65]);
   key_binding (Named ArrowDown) BindAny mods_empty APP_CURSOR VI_SEARCH (Esc [27; 79; 66]);
   key_binding (Named ArrowRight) BindAny mods_empty APP_CURSOR VI_SEARCH (Esc [27; 79; 67]);
   key_binding (Named ArrowLeft) BindAny mods_empty APP_CURSOR VI_SEARCH (Esc [27; 79; 68]);
   key_binding (Named F1) BindAny mods_empty 0 LEGACY (Esc [27; 79; 80]);
   key_binding (Named F2) BindAny mods_empty 0 LEGACY (Esc [27; 79; 81]);
   key_binding (Named F3) BindAny mods_empty 0 LEGACY (Esc [27; 79; 82]);
   key_binding (Named F4) BindAny mods_empty 0 LEGACY (Esc [27; 79; 83]);
   key_binding (Named Tab) BindAny mods_shift 0 LEGACY (Esc [27; 91; 90]);
   key_binding (Named Tab) BindAny SHIFT_ALT 0 LEGACY (Esc [27; 27; 91; 90]);
   key_binding (Named Backspace) BindAny mods_empty 0 ALL_AS_ESC (Esc [127]);
   key_binding (Named Backspace) BindAny ALT_KEY 0 LEGACY (Esc [27; 127]);
   key_binding (Named Backspace) BindAny mods_shift 0 LEGACY (Esc [127]);
   key_binding (Named Enter) BindNumpad mods_empty 0 LEGACY (Esc [10]);
   key_binding (Named Space) BindAny CTRL_SHIFT 0 SEARCH ToggleViMode;
   key_binding (Named Space) BindAny CTRL_SHIFT VI SEARCH ScrollToBottom;
   key_binding (Named Escape) BindAny mods_empty VI SEARCH ClearSelection;
   key_binding (Character (chars "i")) BindAny mods_empty VI SEARCH ToggleViMode;
   key_binding (Character (chars "i")) BindAny mods_empty VI SEARCH ScrollToBottom;
   key_binding (Character (chars "c")) BindAny CTRL VI SEARCH ToggleViMode;
   key_binding (Character (chars "y")) BindAny CTRL VI SEARCH ScrollLineUp;
   key_binding (Character (chars "e")) BindAny CTRL VI SEARCH ScrollLineDown;
   key_binding (Character (chars "g")) BindAny mods_empty VI SEARCH ScrollToTop;
   key_binding (Character (chars "g")) BindAny mods_shift VI SEARCH ScrollToBottom;
   key_binding (Character (chars "b")) BindAny CTRL VI SEARCH ScrollPageUp;
   key_binding (Character (chars "f")) BindAny CTRL VI SEARCH ScrollPageDown;
   key_binding (Character (chars "u")) BindAny CTRL VI SEARCH ScrollHalfPageUp;
   key_binding (Character (chars "d")) BindAny CTRL VI SEARCH ScrollHalfPageDown;
   key_binding (Character (chars "y")) BindAny mods_empty VI SEARCH Copy;
   key_binding (Character (chars "y")) BindAny mods_empty VI SEARCH ClearSelection;
   key_binding (Character (chars "/")) BindAny mods_empty VI SEARCH SearchForward;
   key_binding (Character (chars "?")) BindAny mods_shift VI SEARCH SearchBackward;
   key_binding (Character (chars "y")) BindAny mods_shift VI SEARCH (Vi ToggleNormalSelection);
   key_binding (Character (chars "y")) BindAny mods_shift VI SEARCH (Motion ViLast);
   key_binding (Character (chars "y")) BindAny mods_shift VI SEARCH Copy;
   key_binding (Character (chars "y")) BindAny mods_shift VI SEARCH ClearSelection;
   key_binding (Character (chars "v")) BindAny mods_empty VI SEARCH (Vi ToggleNormalSelection);
   key_binding (Character (chars "v")) BindAny mods_shift VI SEARCH (Vi ToggleLineSelection);
   key_binding (Character (chars "v")) BindAny CTRL VI SEARCH (Vi ToggleBlockSelection);
   key_binding (Character (chars "v")) BindAny ALT_KEY VI SEARCH (Vi ToggleSemanticSelection);
   key_binding (Character (chars "n")) BindAny mods_empty VI SEARCH (Vi SearchNext);
   key_binding (Character (chars "n")) BindAny mods_shift VI SEARCH (Vi SearchPrevious);
   key_binding (Named Enter) BindAny mods_empty VI SEARCH (Vi Open);
   key_binding (Character (chars "z")) BindAny mods_empty VI SEARCH (Vi CenterAroundViCursor);
   key_binding (Character (chars "f")) BindAny mods_empty VI SEARCH (Vi InlineSearchForward);
   key_binding (Character (chars "f")) BindAny mods_shift VI SEARCH (Vi InlineSearchBackward);
   key_binding (Character (chars "t")) BindAny mods_empty VI SEARCH (Vi InlineSearchForwardShort);
   key_binding (Character (chars "t")) BindAny mods_shift VI SEARCH (Vi InlineSearchBackwardShort);
   key_binding (Character (chars ";")) BindAny mods_empty VI SEARCH (Vi InlineSearchNext);
   key_binding (Character (chars ",")) BindAny mods_empty VI SEARCH (Vi InlineSearchPrevious);
   key_binding (Character (chars "*")) BindAny mods_shift VI SEARCH (Vi SemanticSearchForward);
   key_binding (Character (chars "#")) BindAny mods_shift VI SEARCH (Vi SemanticSearchBackward);
   key_binding (Character (chars "k")) BindAny mods_empty VI SEARCH (Motion ViUp);
   key_binding (Character (chars "j")) BindAny mods_empty VI SEARCH (Motion ViDown);
   key_binding (Character (chars "h")) BindAny mods_empty VI SEARCH (Motion ViLeft);
   key_binding (Character (chars "l")) BindAny mods_empty VI SEARCH (Motion ViRight);
   key_binding (Named ArrowUp) BindAny mods_empty VI SEARCH (Motion ViUp);
   key_binding (Named ArrowDown) BindAny mods_empty VI SEARCH (Motion ViDown);
   key_binding (Named ArrowLeft) BindAny mods_empty VI SEARCH (Motion ViLeft);
   key_binding (Named ArrowRight) BindAny mods_empty VI SEARCH (Motion ViRight);
   key_binding (Character (chars "0")) BindAny mods_empty VI SEARCH (Motion ViFirst);
   key_binding (Character (chars "$")) BindAny mods_shift VI SEARCH (Motion ViLast);
   key_binding (Named Home) BindAny mods_empty VI SEARCH (Motion ViFirst);
   key_binding (Named End) BindAny mods_empty VI SEARCH (Motion ViLast);
   key_binding (Character (chars "^")) BindAny mods_shift VI SEARCH (Motion ViFirstOccupied);
   key_binding (Character (chars "h")) BindAny mods_shift VI SEARCH (Motion ViHigh);
   key_binding (Character (chars "m")) BindAny mods_shift VI SEARCH (Motion ViMiddle);
   key_binding (Character (chars "l")) BindAny mods_shift VI SEARCH (Motion ViLow);
   key_binding (Character (chars "b")) BindAny mods_empty VI SEARCH (Motion SemanticLeft);
   key_binding (Character (chars "w")) BindAny mods_empty VI SEARCH (Motion SemanticRight);
   key_binding (Character (chars "e")) BindAny mods_empty VI SEARCH (Motion SemanticRightEnd);
   key_binding (Character (chars "b")) BindAny mods_shift VI SEARCH (Motion WordLeft);
   key_binding (Character (chars "w")) BindAny mods_shift VI SEARCH (Motion WordRight);
   key_binding (Character (chars "e")) BindAny mods_shift VI SEARCH (Motion WordRightEnd);
   key_binding (Character (chars "%")) BindAny mods_shift VI SEARCH (Motion Bracket);
   key_binding (Character (chars "{")) BindAny mods_shift VI SEARCH (Motion ParagraphUp);
   key_binding (Character (chars "}")) BindAny mods_shift VI SEARCH (Motion ParagraphDown);
   key_binding (Named Enter) BindAny mods_empty VI_SEARCH 0 (SearchAct SearchConfirm);
   key_binding (Named Escape) BindAny mods_empty SEARCH 0 (SearchAct SearchCancel);
   key_binding (Character (chars "c")) BindAny CTRL SEARCH 0 (SearchAct SearchCancel);
   key_binding (Character (chars "u")) BindAny CTRL SEARCH 0 (SearchAct SearchClear);
   key_binding (Character (chars "w")) BindAny CTRL SEARCH 0 (SearchAct SearchDeleteWord);
   key_binding (Character (chars "p")) BindAny CTRL SEARCH 0 (SearchAct SearchHistoryPrevious);
   key_binding (Character (chars "n")) BindAny CTRL SEARCH 0 (SearchAct SearchHistoryNext);
   key_binding (Named ArrowUp) BindAny mods_empty SEARCH 0 (SearchAct SearchHistoryPrevious);
   key_binding (Named ArrowDown) BindAny mods_empty SEARCH 0 (SearchAct SearchHistoryNext);
   key_binding (Named Enter) BindAny mods_empty SEARCH VI (SearchAct SearchFocusNext);
   key_binding (Named Enter) BindAny mods_shift SEARCH VI (SearchAct SearchFocusPrevious)]
  ++ platform_key_bindings.
End tables.

(** ** Overlapping bindings *)

#[local] Open Scope Z_scope.

Section overlap.
Implicit Types (b u d : Binding BindingKey) (us ds : list (Binding BindingKey)).

(** The modes of a binding are flags, and it does not exclude what it requires. *)
Definition binding_ok b : Prop :=
  Z.land (b_mode b) BindingMode.all = b_mode b ∧ Z.land (b_mode b) (b_notmode b) = 0.

(** A key whose place on the keyboard is known. *)
Definition located (input : BindingKey) : Prop :=
  match input with Keycode _ BindAny => False | _ => True end.

Lemma trigger_eq_trans (a c input : BindingKey) :
  located input → trigger_eq a input = true → trigger_eq c input = true → trigger_eq a c = true.
Proof.
  unfold trigger_eq, binding_key_trigger.
  destruct a as [x|k l], c as [y|k' l'], input as [z|k'' l'']; try done.
  - intros _ ->%Z.eqb_eq ->%Z.eqb_eq. apply Z.eqb_refl.
  - intros Hl [->%bool_decide_eq_true H1]%andb_true_iff [->%bool_decide_eq_true H2]%andb_true_iff.
    rewrite bool_decide_eq_true_2 by done. by destruct l, l', l''.
Qed.

Lemma triggered_iff b (m : Z) mods input :
  is_triggered_by b m mods input = true ↔
  trigger_eq (b_trigger b) input = true ∧ b_mods b = mods ∧
  Z.land m (b_mode b) = b_mode b ∧ Z.land m (b_notmode b) = 0.
Proof.
  unfold is_triggered_by, Bitflags.contains, Bitflags.intersects.
  rewrite !andb_true_iff, bool_decide_eq_true, Z.eqb_eq, negb_involutive, Z.eqb_eq. tauto.
Qed.

Lemma triggers_match_iff b b' :
  triggers_match b b' = true ↔
  trigger_eq (b_trigger b) (b_trigger b') = true ∧ b_mods b = b_mods b' ∧
  Z.land (if b_mode b =? 0 then BindingMode.all else b_mode b)
         (if b_mode b' =? 0 then BindingMode.all else b_mode b') ≠ 0 ∧
  Z.land (b_mode b) (b_notmode b') = 0 ∧ Z.land (b_mode b') (b_notmode b) = 0.
Proof.
  unfold triggers_match, Bitflags.intersects. set (s := if b_mode b =? 0 then _ else _).
  set (s' := if b_mode b' =? 0 then _ else _).
  destruct (trigger_eq (b_trigger b) (b_trigger b')); [|naive_solver].
  case_bool_decide as Hm; [|naive_solver]. cbn [negb orb].
  destruct (Z.eqb_spec (Z.land s s') 0); [naive_solver|].
  destruct (Z.eqb_spec (Z.land (b_mode b) (b_notmode b')) 0); [|naive_solver].
  destruct (Z.eqb_spec (Z.land (b_mode b') (b_notmode b)) 0); naive_solver.
Qed.

(** What two flag sets exclude is excluded within a common superset. *)
Lemma land_excluded (m a b : Z) : Z.land m a = a → Z.land m b = 0 → Z.land a b = 0.
Proof. intros <- Hb. rewrite <- Z.land_assoc, (Z.land_comm a b), Z.land_assoc, Hb. apply Z.land_0_l. Qed.

Lemma lor_land_absorb (a b : Z) : Z.lor (Z.land a b) (Z.land a a) = a.
Proof. apply Z.bits_inj'. intros i Hi. rewrite Z.lor_spec, !Z.land_spec. by destruct (Z.testbit a i), (Z.testbit b i). Qed.

Lemma retain_defaults_filter us ds :
  retain_defaults us ds = filter (λ d, Forall (λ u, triggers_match d u = false) us) ds.
Proof.
  unfold retain_defaults. revert ds. induction us as [|u us IH]; intros ds; simpl.
  - induction ds as [|d ds IHd]; [done|]. rewrite filter_cons_True by constructor. by f_equal.
  - rewrite IH, list_filter_filter. apply list_filter_iff. intros d. rewrite Forall_cons. tauto.
Qed.

(** Configured bindings override the default ones exactly where they overlap: the
    default bindings that stay are those that match no configured binding, in their
    order; one that stays fires together with a configured binding on the same key
    only if the two require modes that have nothing in common; and a default binding
    is dropped only for a configured one with which it would fire together. *)
Lemma user_bindings_override us ds :
  Forall binding_ok us → Forall binding_ok ds →
  retain_defaults us ds = filter (λ d, Forall (λ u, triggers_match d u = false) us) ds ∧
  (∀ u d (m : Z) mods input, u ∈ us → d ∈ retain_defaults us ds → located input →
     is_triggered_by u m mods input = true → is_triggered_by d m mods input = true →
     b_mode u ≠ 0 ∧ b_mode d ≠ 0 ∧ Z.land (b_mode d) (b_mode u) = 0) ∧
  (∀ u d, u ∈ us → d ∈ ds → triggers_match d u = true →
     ∃ (m : Z) mods input, is_triggered_by u m mods input = true ∧
       is_triggered_by d m mods input = true).
Proof.
  intros Hus Hds. split; [apply retain_defaults_filter|]. split.
  - intros u d m mods input Hu Hd Hl (Tu & Mu & Cu & Nu)%triggered_iff (Td & Md & Cd & Nd)%triggered_iff.
    rewrite retain_defaults_filter in Hd. apply list_elem_of_filter in Hd as [Hm Hd].
    rewrite Forall_forall in Hm, Hus, Hds. specialize (Hm u Hu).
    destruct (Hus u Hu) as [Au _]. destruct (Hds d Hd) as [Ad _].
    assert (Hz : ¬ Z.land (if b_mode d =? 0 then BindingMode.all else b_mode d)
         (if b_mode u =? 0 then BindingMode.all else b_mode u) ≠ 0).
    { intros Hne. apply not_true_iff_false in Hm. apply Hm, triggers_match_iff. split_and!.
      - by apply (trigger_eq_trans _ _ input).
      - congruence.
      - done.
      - by apply (land_excluded m).
      - by apply (land_excluded m). }
    destruct (Z.eqb_spec (b_mode d) 0) as [Ed|Ed], (Z.eqb_spec (b_mode u) 0) as [Eu|Eu].
    + by destruct Hz.
    + destruct Hz. by rewrite Z.land_comm, Au.
    + destruct Hz. by rewrite Ad.
    + split_and!; [done..|]. lia.
  - intros u d Hu Hd (T & M & _ & N1 & N2)%triggers_match_iff. rewrite Forall_forall in Hus, Hds.
    destruct (Hus u Hu) as [_ Su]. destruct (Hds d Hd) as [_ Sd].
    assert (Hin : ∃ input, trigger_eq (b_trigger u) input = true ∧ trigger_eq (b_trigger d) input = true).
    { unfold trigger_eq, binding_key_trigger in *.
      destruct (b_trigger d) as [x|k l], (b_trigger u) as [y|k' l']; try done.
      - exists (Scancode x). apply Z.eqb_eq in T as ->. by rewrite !Z.eqb_refl.
      - apply andb_true_iff in T as [->%bool_decide_eq_true Tl].
        exists (Keycode k' (match l with BindAny => l' | _ => l end)).
        rewrite bool_decide_eq_true_2 by done. by destruct l, l'. }
    destruct Hin as (input & Tu & Td). exists (Z.lor (b_mode d) (b_mode u)), (b_mods u), input.
    rewrite !triggered_iff. rewrite !Z.land_lor_distr_l, N1, N2, Su, Sd. split_and!; try done.
    + rewrite (Z.land_comm (b_mode d)). apply lor_land_absorb.
    + rewrite Z.lor_comm, (Z.land_comm (b_mode u)). apply lor_land_absorb.
Qed.
End overlap.

(** ** The default bindings are well-formed *)

Lemma default_bindings_ok : Forall binding_ok default_key_bindings.
Proof. unfold default_key_bindings. repeat (apply Forall_cons; split; [split; reflexivity|]). constructor. Qed.

End Bindings.
