(* ===== verification/InputProcessor.v ===== *)
(** * The input processor (alacritty/src/input/mod.rs and keyboard.rs)

    How keys and mouse events reach their destination: hints, inline search, bindings,
    the search, the mouse reports and the pseudo terminal, and what the actions of
    bindings do.  Commands, new windows and changes of the window and its font are
    recorded as effects; sizes are in whole pixels. *)

From S2P Require Import Prelude Decimal Index Ansi GridCell Row Storage Cell Grid Selection Term.
From S2P Require Import Handler Search RegexSearch ViMode Hints Scheduler EventLoop FrameDamage MessageBar.
From S2P Require Import Keyboard ActionContext Bindings.
#[local] Open Scope Z_scope.

Module InputProcessor.
Import Keyboard Scheduler FrameDamage ActionContext Bindings.

Inductive Effect :=
  | SpawnDaemon (program : text) (args : list text)
  | WindowFullscreen | WindowMaximized | WindowHidden | WindowMinimized | WindowReleased
  | FontIncreased | FontDecreased | FontReset | NewInstance | NewWindow.

Definition SELECTION_SCROLLING_INTERVAL : Z := 15000000.

Section input.
Context `{Ansi}.

Record Input := mkInput {
  i_ctx : Ctx;
  i_hints : HintState;
  i_vi_hint : option HintMatch;
  i_mouse_hint : option HintMatch;
  i_messages : MessageBar.MessageBuffer;
  i_middle_button : ElementState;
  i_inside_text_area : bool;
  i_cursor_icon : CursorIcon;
  i_effects : list Effect }.
Implicit Types (i : Input) (x : Ctx).

Definition with_ctx x i : Input :=
  mkInput x (i_hints i) (i_vi_hint i) (i_mouse_hint i) (i_messages i) (i_middle_button i)
    (i_inside_text_area i) (i_cursor_icon i) (i_effects i).
Definition with_hints (h : HintState) i : Input :=
  mkInput (i_ctx i) h (i_vi_hint i) (i_mouse_hint i) (i_messages i) (i_middle_button i)
    (i_inside_text_area i) (i_cursor_icon i) (i_effects i).
Definition with_messages (m : MessageBar.MessageBuffer) i : Input :=
  mkInput (i_ctx i) (i_hints i) (i_vi_hint i) (i_mouse_hint i) m (i_middle_button i)
    (i_inside_text_area i) (i_cursor_icon i) (i_effects i).
Definition with_middle (st : ElementState) i : Input :=
  mkInput (i_ctx i) (i_hints i) (i_vi_hint i) (i_mouse_hint i) (i_messages i) st
    (i_inside_text_area i) (i_cursor_icon i) (i_effects i).
Definition with_inside (b : bool) i : Input :=
  mkInput (i_ctx i) (i_hints i) (i_vi_hint i) (i_mouse_hint i) (i_messages i) (i_middle_button i)
    b (i_cursor_icon i) (i_effects i).
Definition with_icon (c : CursorIcon) i : Input :=
  mkInput (i_ctx i) (i_hints i) (i_vi_hint i) (i_mouse_hint i) (i_messages i) (i_middle_button i)
    (i_inside_text_area i) c (i_effects i).
Definition effect (e : Effect) i : Input :=
  mkInput (i_ctx i) (i_hints i) (i_vi_hint i) (i_mouse_hint i) (i_messages i) (i_middle_button i)
    (i_inside_text_area i) (i_cursor_icon i) (i_effects i ++ [e]).

Definition i_term i : Term := x_term (i_ctx i).
Definition on_ctx (f : Ctx → exec Ctx) i : exec Input := x ← f (i_ctx i); mret (with_ctx x i).

Section processor.
Context (cfg : UiConfig) (size : SizeInfo) (window : Z) (compile : text → option RegexSearch).
Context (fuel n : nat) (mods : ModifiersState).
(** The contents of the system's clipboards. *)
Context (load : ClipboardType → text).

(** ** Words and hints *)

(** The loop of [semantic_word]; [None] when there is no word. *)
Fixpoint word_end (fuel : nat) (t : Term) (search_end end_ : Point) : exec (option Point) :=
  match fuel with
  | O => Panic OutOfFuel
  | S fuel =>
      cell ← grid_cell (t_grid t) end_;
      ch ← (if Bitflags.contains (flags cell) Flags.WIDE_CHAR_SPACER then
              p ← point_sub end_ t BNone 1;
              cell ← grid_cell (t_grid t) p;
              mret (c cell)
            else mret (c cell));
      if negb (text_contains (semantic_escape_chars (t_config t)) ch) then mret (Some end_)
      else
        p ← point_add end_ t BNone 1;
        end_ ← semantic_search_right t p;
        if bool_decide (end_ = search_end) then mret None else word_end fuel t search_end end_
  end.

Definition semantic_word (t : Term) (p : Point) : exec text :=
  end_ ← semantic_search_right t p;
  start_cell ← grid_cell (t_grid t) p;
  search_end ← (if Bitflags.intersects (flags start_cell) Flags.LEADING_WIDE_CHAR_SPACER
                then point_add p t BNone 2
                else if Bitflags.intersects (flags start_cell) Flags.WIDE_CHAR
                then point_add p t BNone 1 else mret p);
  found ← word_end fuel t search_end end_;
  match found with
  | None => mret []
  | Some end_ => start ← semantic_search_left t end_; bounds_to_string t start end_
  end.

Definition trigger_hint (hint : HintMatch) i : exec Input :=
  if block_hint_launcher (x_mouse (i_ctx i)) then mret i
  else
    s ← hint_text fuel n hint (i_term i);
    match s with
    | None => mret i
    | Some s =>
        let bounds := hm_bounds hint in
        match h_action (hm_hint hint) with
        | HintCommand program args => mret (effect (SpawnDaemon program (args ++ [s])) i)
        | HintCopy =>
            mret (with_ctx (upd_clipboard (x_clipboard (i_ctx i) ++ [(Clipboard, s)]) (i_ctx i)) i)
        | HintPaste => on_ctx (paste cfg size window compile fuel n s true) i
        | HintSelect =>
            on_ctx (λ x, x ← start_selection cfg Simple (m_start bounds) Left x;
                         x ← update_selection (m_end bounds) Right x;
                         copy_selection cfg SelectionClipboard x) i
        | HintMoveViModeCursor =>
            on_ctx (λ x, x ← (if negb (vi_mode x) then on_term toggle_vi_mode x else mret x);
                         x ← on_term (vi_goto_point (m_start bounds)) x;
                         mret (mark_dirty x)) i
        end
    end.

Definition unblock_hints i : Input :=
  with_ctx (upd_mouse (with_block false (x_mouse (i_ctx i))) (i_ctx i)) i.

Definition hint_input (ch : char) i : exec Input :=
  '(h, found) ← keyboard_input fuel n (i_term i) ch (i_hints i);
  let i := with_hints h i in
  i ← (match found with Some hint => trigger_hint hint (unblock_hints i) | None => mret i end);
  mret (with_ctx (mark_dirty (i_ctx i)) i).

Fixpoint hint_input_all (s : text) i : exec Input :=
  match s with [] => mret i | ch :: s => i ← hint_input ch i; hint_input_all s i end.

(** ** Actions *)

Definition action_toggle_selection (ty : SelectionType) x : exec Ctx :=
  x ← toggle_selection cfg ty (t_vi_mode_cursor (x_term x)) Left x;
  mret (match t_selection (x_term x) with
        | Some s => upd_term (upd_selection (Some (include_all s)) (x_term x)) x
        | None => x
        end).

(** Jump to the match that a search from [o] finds. *)
Definition vi_search (o : Point) (direction : Direction) (side : Side) (pick : Match → Point) x : exec Ctx :=
  m ← context_search_next fuel n o direction side x;
  match m with
  | Some m => x ← on_term (vi_goto_point (pick m)) x; mret (mark_dirty x)
  | None => mret x
  end.

Definition beside (direction : Direction) (t : Term) (p : Point) : exec Point :=
  match direction with Right => point_add p t BNone 1 | Left => point_sub p t BNone 1 end.

Definition vi_search_beside (direction : Direction) (side : Side) (pick : Match → Point) x : exec Ctx :=
  o ← beside direction (x_term x) (t_vi_mode_cursor (x_term x));
  vi_search o direction side pick x.

Definition center_around_vi_cursor x : exec Ctx :=
  offset ← i32_neg (as_i32 (display_offset (t_grid (x_term x))));
  middle ← i32_add offset (as_i32 (screen_lines (x_term x)) / 2);
  target ← i32_sub middle 1;
  lines ← i32_sub target (line (t_vi_mode_cursor (x_term x)));
  scroll cfg size window (Delta lines) x.

Definition semantic_search (direction : Direction) x : exec Ctx :=
  s ← selection_to_string (x_term x);
  s ← (match s with
       | Some (_ :: _ as s) => mret s
       | _ => semantic_word (x_term x) (t_vi_mode_cursor (x_term x))
       end);
  match s with [] => mret x | _ => start_seeded_search cfg window compile fuel n direction s x end.

Definition execute_vi (a : ViAction) i : exec Input :=
  match a with
  | ToggleNormalSelection => on_ctx (action_toggle_selection Simple) i
  | ToggleLineSelection => on_ctx (action_toggle_selection Lines) i
  | ToggleBlockSelection => on_ctx (action_toggle_selection BlockType) i
  | ToggleSemanticSelection => on_ctx (action_toggle_selection Semantic) i
  | Open => match i_vi_hint i with Some hint => trigger_hint hint (unblock_hints i) | None => mret i end
  | Bindings.SearchNext =>
      on_ctx (λ x, let x := on_typing_start cfg window x in
                   vi_search_beside (ss_direction (x_search x)) Left m_start x) i
  | SearchPrevious =>
      on_ctx (λ x, let x := on_typing_start cfg window x in
                   vi_search_beside (opposite (ss_direction (x_search x))) Left m_start x) i
  | SearchStart => on_ctx (vi_search_beside Left Left m_start) i
  | SearchEnd => on_ctx (vi_search_beside Right Right m_end) i
  | CenterAroundViCursor => on_ctx center_around_vi_cursor i
  | InlineSearchForward => on_ctx (λ x, mret (start_inline_search Right false x)) i
  | InlineSearchBackward => on_ctx (λ x, mret (start_inline_search Left false x)) i
  | InlineSearchForwardShort => on_ctx (λ x, mret (start_inline_search Right true x)) i
  | InlineSearchBackwardShort => on_ctx (λ x, mret (start_inline_search Left true x)) i
  | InlineSearchNext => on_ctx inline_search_next i
  | InlineSearchPrevious => on_ctx inline_search_previous i
  | SemanticSearchForward => on_ctx (semantic_search Right) i
  | SemanticSearchBackward => on_ctx (semantic_search Left) i
  end.

Definition execute_search (a : SearchAction) x : exec Ctx :=
  match a with
  | SearchFocusNext => advance_search_origin window fuel n (ss_direction (x_search x)) x
  | SearchFocusPrevious => advance_search_origin window fuel n (opposite (ss_direction (x_search x))) x
  | SearchConfirm => confirm_search cfg window fuel n x
  | SearchCancel => cancel_search cfg window x
  | SearchClear =>
      let direction := ss_direction (x_search x) in
      x ← cancel_search cfg window x; start_search direction x
  | SearchDeleteWord => search_pop_word cfg window compile fuel n x
  | SearchHistoryPrevious => search_history_previous cfg window compile fuel n x
  | SearchHistoryNext => search_history_next cfg window compile fuel n x
  end.

(** Page scrolling moves the vi mode cursor too. *)
Definition scroll_page (sc : Scroll) (amount : Z) x : exec Ctx :=
  let old := t_vi_mode_cursor (x_term x) in
  p ← vi_scroll (x_term x) old amount;
  let x := upd_term (upd_vi_mode_cursor p (x_term x)) x in
  let x := if bool_decide (old = p) then x else mark_dirty x in
  scroll cfg size window sc x.

Definition scroll_to_top x : exec Ctx :=
  x ← scroll cfg size window Top x;
  top ← topmost_line (x_term x);
  x ← on_term (λ t, vi_motion ViFirstOccupied (set_vi_line top t)) x;
  mret (mark_dirty x).

Definition scroll_to_bottom x : exec Ctx :=
  x ← scroll cfg size window Bottom x;
  bottom ← bottommost_line (x_term x);
  x ← on_term (λ t, t ← vi_motion ViFirstOccupied (set_vi_line bottom t); vi_motion ViFirstOccupied t) x;
  mret (mark_dirty x).

Definition pop_message i : Input :=
  if MessageBar.is_empty (i_messages i) then i
  else with_messages (MessageBar.pop (i_messages i)) (with_ctx (pending_dirty (i_ctx i)) i).

Definition execute (a : Action) i : exec Input :=
  let lines := as_i32 (screen_lines (i_term i)) in
  match a with
  | Esc s => on_ctx (paste cfg size window compile fuel n s false) i
  | Command program args => mret (effect (SpawnDaemon program args) i)
  | StartHint hint => mret (with_ctx (mark_dirty (i_ctx i)) (with_hints (hints_start hint (i_hints i)) i))
  | ToggleViMode => on_ctx (λ x, context_toggle_vi_mode cfg window (on_typing_start cfg window x)) i
  | Motion m =>
      if negb (vi_mode (i_ctx i)) then mret i
      else on_ctx (λ x, x ← on_term (vi_motion m) (on_typing_start cfg window x); mret (mark_dirty x)) i
  | Vi a => if negb (vi_mode (i_ctx i)) then mret i else execute_vi a i
  | SearchAct a => if negb (search_active (i_ctx i)) then mret i else on_ctx (execute_search a) i
  | ExpandSelection => on_ctx (expand_selection size mods) i
  | SearchForward => on_ctx (start_search Right) i
  | SearchBackward => on_ctx (start_search Left) i
  | Copy => on_ctx (copy_selection cfg Clipboard) i
  | CopySelection => on_ctx (copy_selection cfg SelectionClipboard) i
  | ClearSelection => on_ctx clear_selection i
  | Paste => on_ctx (paste cfg size window compile fuel n (load Clipboard) true) i
  | PasteSelection => on_ctx (paste cfg size window compile fuel n (load SelectionClipboard) true) i
  | ToggleFullscreen => mret (effect WindowFullscreen i)
  | ToggleMaximized => mret (effect WindowMaximized i)
  | Hide => mret (effect WindowHidden i)
  | Minimize => mret (effect WindowMinimized i)
  | Quit => let i := effect WindowReleased i in on_ctx (on_term (λ t, mret (exit t))) i
  | IncreaseFontSize => mret (effect FontIncreased i)
  | DecreaseFontSize => mret (effect FontDecreased i)
  | ResetFontSize => mret (effect FontReset i)
  | ScrollPageUp => on_ctx (scroll_page Grid.PageUp lines) i
  | ScrollPageDown => amount ← i32_neg lines; on_ctx (scroll_page Grid.PageDown amount) i
  | ScrollHalfPageUp => on_ctx (scroll_page (Delta (lines / 2)) (lines / 2)) i
  | ScrollHalfPageDown => amount ← i32_neg (lines / 2); on_ctx (scroll_page (Delta amount) amount) i
  | ScrollLineUp => on_ctx (scroll cfg size window (Delta 1)) i
  | ScrollLineDown => on_ctx (scroll cfg size window (Delta (-1))) i
  | ScrollToTop => on_ctx scroll_to_top i
  | ScrollToBottom => on_ctx scroll_to_bottom i
  | ClearHistory => on_ctx (on_term (clear_screen ClearSaved)) i
  | ClearLogNotice => mret (pop_message i)
  | CreateNewWindow => mret (effect NewWindow i)
  | SpawnNewInstance => mret (effect NewInstance i)
  | HideOtherApplications | SelectNextTab | SelectPreviousTab | SelectTab1 | SelectTab2 | SelectTab3
  | SelectTab4 | SelectTab5 | SelectTab6 | SelectTab7 | SelectTab8 | SelectTab9 | SelectLastTab
  | CreateNewTab | ToggleSimpleFullscreen | ReceiveChar | NoAction => mret i
  end.

(** ** Key bindings *)

(** [str::to_lowercase], [char::to_lowercase] and the text of named keys. *)
Context (str_to_lowercase : text → text) (to_lowercase : char → char) (to_text : NamedKey → option text).
Context (key_bindings : list (Binding BindingKey)) (hint_bindings : list (Binding BindingKey)).
Context (mouse_bindings : list (Binding MouseEvent)).

Definition receives_char (a : Action) : bool := match a with ReceiveChar => true | _ => false end.

(** What a binding is compared with. *)
Definition binding_input (b : Binding BindingKey) (physical : Z) (key : Key) (l : KeyLocation) : BindingKey :=
  match b_trigger b with Scancode _ => Scancode physical | Keycode _ _ => Keycode key (location_of l) end.

(** The loop over bindings; [suppress] is [suppress_chars]. *)
Fixpoint run_bindings (bs : list (Binding BindingKey)) (mode physical : Z) (key : Key) (l : KeyLocation)
    (suppress : option bool) i : exec (option bool * Input) :=
  match bs with
  | [] => mret (suppress, i)
  | b :: bs =>
      if is_triggered_by b mode mods (binding_input b physical key l) then
        i ← execute (b_action b) i;
        run_bindings bs mode physical key l
          (Some (default true suppress && negb (receives_char (b_action b)))) i
      else run_bindings bs mode physical key l suppress i
  end.

(** Outside of macOS and Windows. *)
Definition binding_key (k : Key) : Key :=
  match k with Character s => Character (str_to_lowercase s) | _ => k end.

Definition process_key_bindings (physical : Z) (key : KeyEvent) i : exec (bool * Input) :=
  let mode := binding_mode (t_mode (i_term i)) (search_active (i_ctx i)) in
  '(suppress, i) ← run_bindings (key_bindings ++ hint_bindings) mode physical
                     (binding_key (logical_key key)) (location key) None i;
  mret (default false suppress, i).

Definition reset_search_delay x : Ctx :=
  if search_active x then
    let '(found, x) := unschedule_timer window DelayedSearch x in
    match found with
    | Some t => upd_scheduler (schedule (x_now x) (event t) TYPING_SEARCH_DELAY false (id t)
                                 (x_scheduler x)) x
    | None => x
    end
  else x.

(** ** Keys *)

Definition release_key (key : KeyEvent) x (hints : HintState) : Ctx :=
  if search_active x || hints_active hints then x
  else match key_release to_lowercase to_text key (t_mode (x_term x)) mods with
       | Some bytes => write_to_pty bytes x
       | None => x
       end.

Definition key_input (physical : Z) (key : KeyEvent) i : exec Input :=
  if x_preedit (i_ctx i) then mret i
  else
    let mode := t_mode (i_term i) in
    match state key with
    | Released =>
        let x := i_ctx i in
        let x := if char_pending (x_inline x) then set_ime_inhibitor false x else x in
        mret (with_ctx (release_key key x (i_hints i)) i)
    | Pressed =>
        let s := default [] (text_with_all_modifiers key) in
        if hints_active (i_hints i) then hint_input_all s i
        else if char_pending (x_inline (i_ctx i)) then on_ctx (inline_search_input s) i
        else
          '(suppress, i) ← process_key_bindings physical key (with_ctx (reset_search_delay (i_ctx i)) i);
          if (suppress : bool) then mret i
          else if search_active (i_ctx i) then on_ctx (search_input_all cfg window compile fuel n s) i
          else if Bitflags.contains mode TermMode.VI then mret i
          else
            let bytes := key_input_bytes to_lowercase to_text key mode mods in
            if bool_decide (bytes = []) then mret i
            else on_ctx (λ x, x ← (if is_modifier_key key then mret x
                                   else on_terminal_input_start cfg size window x);
                              mret (write_to_pty bytes x)) i
    end.

(** ** The mouse *)

Definition without_shift (m : ModifiersState) : ModifiersState :=
  mkMods false (control_key m) (alt_key m) (super_key m).

Fixpoint run_mouse_bindings (bs : list (Binding MouseEvent)) (mode : Z) (ms : ModifiersState)
    (allowed : bool) (e : MouseEvent) (found : bool) i : exec (bool * Input) :=
  match bs with
  | [] => mret (found, i)
  | b :: bs =>
      if is_triggered_by b mode ms e && allowed then
        i ← execute (b_action b) i; run_mouse_bindings bs mode ms allowed e true i
      else run_mouse_bindings bs mode ms allowed e found i
  end.

Definition process_mouse_bindings (e : MouseEvent) i : exec (bool * Input) :=
  let mode := binding_mode (t_mode (i_term i)) (search_active (i_ctx i)) in
  let mm := mouse_mode (i_ctx i) in
  let fallback := mm && shift_key mods in
  '(found, i) ← run_mouse_bindings mouse_bindings mode mods (fallback || negb mm) e false i;
  if fallback && negb found
  then run_mouse_bindings mouse_bindings mode (without_shift mods) true e found i
  else mret (found, i).

(** The lines of the window, and of the first message. *)
Definition window_lines : exec Z :=
  usize_div (saturating_sub (si_height size) (2 * si_padding_y size)) (si_cell_height size).
Definition message_lines (b : MessageBar.MessageBuffer) : exec Z :=
  match MessageBar.message b with
  | None => mret 0
  | Some m => l ← window_lines; ls ← MessageBar.text char_width (si_columns size) l m; mret (zlen ls)
  end.

Definition message_bar_cursor_state i : exec (option CursorIcon) :=
  let x := i_ctx i in
  rows ← usize_add (si_screen_lines size) (if search_active x then 1 else 0);
  rows ← usize_mul (si_cell_height size) rows;
  terminal_end ← usize_add (si_padding_y size) rows;
  p ← mouse_point size (x_mouse x) (display_offset (t_grid (x_term x)));
  match MessageBar.message (i_messages i) with
  | None => mret None
  | Some _ =>
      if mouse_y (x_mouse x) <=? terminal_end then mret None
      else
        button_end ← usize_add terminal_end (si_cell_height size);
        col ← usize_add (column p) (zlen MessageBar.CLOSE_BUTTON_TEXT);
        mret (Some (if (mouse_y (x_mouse x) <=? button_end) && (si_columns size <=? col)
                    then IconPointer else IconDefault))
  end.

Definition cursor_state i : exec CursorIcon :=
  let x := i_ctx i in
  p ← mouse_point size (x_mouse x) (display_offset (t_grid (x_term x)));
  cell ← grid_cell (t_grid (x_term x)) p;
  bar ← message_bar_cursor_state i;
  mret (match bar with
        | Some icon => icon
        | None =>
            if match i_mouse_hint i with
               | Some hint => should_highlight hint p (hyperlink cell)
               | None => false
               end then IconPointer
            else if negb (shift_key mods) && mouse_mode x then IconDefault else IconText
        end).

Definition on_mouse_release (button : MouseButton) i : exec Input :=
  if negb (shift_key mods) && mouse_mode (i_ctx i) then
    match button_code button with
    | Some code => on_ctx (mouse_report size mods code Released) i
    | None => mret i
    end
  else
    i ← (match i_mouse_hint i with
         | Some hint => if bool_decide (button = MouseLeft) then trigger_hint hint i else mret i
         | None => mret i
         end);
    let i := with_ctx (snd (unschedule_timer window SelectionScrolling (i_ctx i))) i in
    match button with
    | MouseLeft | MouseRight => on_ctx (copy_selection cfg SelectionClipboard) i
    | _ => mret i
    end.

Definition set_button (button : MouseButton) (st : ElementState) i : Input :=
  let ms := x_mouse (i_ctx i) in
  let upd l r := with_ctx (upd_mouse (mkMouse l r (last_click_timestamp ms) (last_click_button ms)
    (click_state ms) (cell_side ms) (block_hint_launcher ms) (hint_highlight_dirty ms) (mouse_x ms)
    (mouse_y ms)) (i_ctx i)) i in
  match button with
  | MouseLeft => upd st (right_button_state ms)
  | MouseRight => upd (left_button_state ms) st
  | MouseMiddle => with_middle st i
  | MouseBack | MouseForward | MouseOther _ => i
  end.

Definition mouse_input (st : ElementState) (button : MouseButton) i : exec Input :=
  let i := set_button button st i in
  bar ← message_bar_cursor_state i;
  if bool_decide (bar = Some IconPointer) && bool_decide (st = Pressed) then
    current ← message_lines (i_messages i);
    i ← on_ctx clear_selection i;
    let i := pop_message i in
    rest ← message_lines (i_messages i);
    mret (with_icon (if current <? rest then IconDefault
                     else if current =? rest then IconPointer
                     else if mouse_mode (i_ctx i) then IconDefault else IconText) i)
  else match st with
       | Pressed =>
           i ← on_ctx (on_mouse_press cfg size mods button) i;
           '(_, i) ← process_mouse_bindings (Button button) i;
           mret i
       | Released => on_mouse_release button i
       end.

(** [SizeInfo::contains_point]. *)
Definition contains_point (px py : Z) : bool :=
  (px <=? si_padding_x size + si_columns size * si_cell_width size) && (si_padding_x size <? px)
  && (py <=? si_padding_y size + si_screen_lines size * si_cell_height size) && (si_padding_y size <? py).

Definition side_of (px : Z) : exec Side :=
  cell_x ← usize_rem (saturating_sub px (si_padding_x size)) (si_cell_width size);
  let padding := Z.rem (si_width size - si_padding_x size * 2) (si_cell_width size) in
  let end_of_grid := si_width size - si_padding_x size - padding in
  mret (if (si_cell_width size / 2 <? cell_x) || (end_of_grid <=? px) then Right else Left).

(** [update_selection_scrolling]; [min_height] and [step] are the constants scaled by
    the resolution of the screen. *)
Definition update_selection_scrolling (min_height step my : Z) x : exec Ctx :=
  let end_top := Z.max min_height (si_padding_y size) in
  let bottom := si_padding_y size + si_screen_lines size * si_cell_height size in
  start ← i32_sub (si_height size) min_height;
  let start_bottom := Z.min start bottom in
  delta ← (if my <? end_top then d ← i32_sub end_top my; d ← i32_add d step; mret (Some d)
           else if start_bottom <=? my then d ← i32_sub start_bottom my; d ← i32_sub d step; mret (Some d)
           else mret None);
  let x := snd (unschedule_timer window SelectionScrolling x) in
  match delta with
  | None => mret x
  | Some d =>
      mret (schedule_timer window (ScrollEvent (Delta (Z.quot d step))) SELECTION_SCROLLING_INTERVAL true
              SelectionScrolling x)
  end.

Definition move_mouse (px py : Z) (side : Side) ms : Mouse :=
  mkMouse (left_button_state ms) (right_button_state ms) (last_click_timestamp ms) (last_click_button ms)
    (click_state ms) side (block_hint_launcher ms) (hint_highlight_dirty ms) px py.
Definition mark_moved ms : Mouse :=
  mkMouse (left_button_state ms) (right_button_state ms) (last_click_timestamp ms) (last_click_button ms)
    (click_state ms) (cell_side ms) true true (mouse_x ms) (mouse_y ms).

(** The button that a motion is reported for. *)
Definition motion_code i : option Z :=
  let ms := x_mouse (i_ctx i) in
  if bool_decide (left_button_state ms = Pressed) then Some 32
  else if bool_decide (i_middle_button i = Pressed) then Some 33
  else if bool_decide (right_button_state ms = Pressed) then Some 34
  else if has_mode (i_term i) TermMode.MOUSE_MOTION then Some 35 else None.

Definition mouse_moved (min_height step mx my : Z) i : exec Input :=
  let pressed := bool_decide (left_button_state (x_mouse (i_ctx i)) = Pressed)
                 || bool_decide (right_button_state (x_mouse (i_ctx i)) = Pressed) in
  empty ← context_selection_is_empty (i_ctx i);
  i ← (if negb empty && pressed then on_ctx (update_selection_scrolling min_height step my) i else mret i);
  let offset := display_offset (t_grid (i_term i)) in
  old_point ← mouse_point size (x_mouse (i_ctx i)) offset;
  width ← i32_sub (si_width size) 1; px ← i32_clamp mx 0 width;
  height ← i32_sub (si_height size) 1; py ← i32_clamp my 0 height;
  side ← side_of px;
  let old_side := cell_side (x_mouse (i_ctx i)) in
  let i := with_ctx (upd_mouse (move_mouse px py old_side (x_mouse (i_ctx i))) (i_ctx i)) i in
  let inside := contains_point px py in
  p ← mouse_point size (x_mouse (i_ctx i)) offset;
  let cell_changed := negb (bool_decide (old_point = p)) in
  if negb cell_changed && bool_decide (old_side = side) && Bool.eqb (i_inside_text_area i) inside then mret i
  else
    let i := with_inside inside i in
    let i := with_ctx (upd_mouse (move_mouse px py side (x_mouse (i_ctx i))) (i_ctx i)) i in
    icon ← cursor_state i;
    let i := with_icon icon i in
    let i := with_ctx (upd_mouse (mark_moved (x_mouse (i_ctx i))) (i_ctx i)) i in
    if pressed && (shift_key mods || negb (mouse_mode (i_ctx i)))
    then on_ctx (update_selection p side) i
    else if cell_changed
            && Bitflags.intersects (t_mode (i_term i)) (Z.lor TermMode.MOUSE_MOTION TermMode.MOUSE_DRAG)
    then match motion_code i with
         | Some code => on_ctx (mouse_report size mods code Pressed) i
         | None => mret i
         end
    else mret i.

Definition on_focus_change (is_focused : bool) x : Ctx :=
  if has_mode (x_term x) TermMode.FOCUS_IN_OUT
  then write_to_pty [27; 91; if is_focused then 73 else 79] x else x.
End processor.
End input.
End InputProcessor.
