(* ===== verification/PointerInput.v ===== *)
(** * Wheels and touch screens (alacritty/src/input/mod.rs and alacritty/src/event.rs)

    Scrolling with the wheel, a touchpad or a finger, and the gestures of touch screens.
    Positions and distances are in whole pixels; the distance of two fingers is the
    parameter [hypot].  A fraction of a step of the font size is counted in hundredths,
    as [TOUCH_ZOOM_FACTOR] is one hundredth. *)

From S2P Require Import Prelude Decimal Index Ansi GridCell Row Storage Cell Grid Selection Term.
From S2P Require Import Handler Search RegexSearch ViMode Hints Scheduler EventLoop FrameDamage MessageBar.
From S2P Require Import Keyboard ActionContext Bindings InputProcessor.
From stdpp Require Import gmap.
#[local] Open Scope Z_scope.

Module PointerInput.
Import Keyboard Scheduler FrameDamage ActionContext Bindings InputProcessor.

Definition MAX_TAP_DISTANCE : Z := 20.

Inductive TouchPhase := TouchStarted | TouchMoved | TouchEnded | TouchCancelled.
Record TouchEvent := mkTouch { touch_id : Z; touch_x : Z; touch_y : Z }.
Inductive MouseScrollDelta := LineDelta (columns lines : Z) | PixelDelta (x y : Z).

Record TouchZoom := mkZoom { zoom_slots : TouchEvent * TouchEvent; zoom_fractions : Z }.

Inductive TouchPurpose :=
  | TouchNone
  | TouchSelect (t : TouchEvent)
  | TouchScroll (t : TouchEvent)
  | TouchZooming (z : TouchZoom)
  | TouchZoomPending (t : TouchEvent)
  | TouchTap (t : TouchEvent)
  | TouchInvalid (slots : gset Z).

Section pointer.
Context `{Ansi}.

(** The input processor with the accumulated scrolling, the purpose of touches, the
    inhibition of the input method by touches, and the changes of the font size. *)
Record Pointer := mkPointer {
  p_input : Input;
  p_scroll : Z * Z;
  p_touch : TouchPurpose;
  p_touch_inhibited : bool;
  p_font_deltas : list Z }.
Implicit Types (p : Pointer) (i : Input).

Definition upd_input i p : Pointer := mkPointer i (p_scroll p) (p_touch p) (p_touch_inhibited p) (p_font_deltas p).
Definition upd_scroll (s : Z * Z) p : Pointer := mkPointer (p_input p) s (p_touch p) (p_touch_inhibited p) (p_font_deltas p).
Definition upd_touch (t : TouchPurpose) p : Pointer :=
  mkPointer (p_input p) (p_scroll p) t (p_touch_inhibited p) (p_font_deltas p).
Definition inhibit_touch (b : bool) p : Pointer := mkPointer (p_input p) (p_scroll p) (p_touch p) b (p_font_deltas p).
Definition change_font_size (delta : Z) p : Pointer :=
  mkPointer (p_input p) (p_scroll p) (p_touch p) (p_touch_inhibited p) (p_font_deltas p ++ [delta]).
Definition on_input (f : Input → exec Input) p : exec Pointer := i ← f (p_input p); mret (upd_input i p).

Section processor.
Context (cfg : UiConfig) (size : SizeInfo) (window : Z) (compile : text → option RegexSearch).
Context (fuel n : nat) (mods : ModifiersState) (load : ClipboardType → text) (multiplier : Z).
Context (mouse_bindings : list (Binding MouseEvent)) (min_height step : Z) (hypot : Z → Z → Z).

#[local] Abbreviation process_mouse_bindings := (process_mouse_bindings cfg size window compile fuel n mods load mouse_bindings).

(** [for _ in 0..count { .. }]. *)
Fixpoint repeat_times (count : nat) (f : Input → exec Input) i : exec Input :=
  match count with O => mret i | S count => i ← f i; repeat_times count f i end.

(** *** Scrolling *)

Definition MOUSE_WHEEL_UP : Z := 64.
Definition MOUSE_WHEEL_DOWN : Z := 65.
Definition MOUSE_WHEEL_LEFT : Z := 66.
Definition MOUSE_WHEEL_RIGHT : Z := 67.

(** The content for the alternate screen: the keys of the arrows. *)
Definition arrow_keys (count cmd : Z) : list Z := concat (replicate (Z.to_nat count) [27; 79; cmd]).

(** What the lines and columns are turned into. *)
Definition scroll_effect (dx dy lines columns : Z) i : exec Input :=
  let is_scroll_up := 0 <? dy in
  let event := if is_scroll_up then WheelUp else WheelDown in
  '(bound, i) ← (if negb (lines =? 0) then process_mouse_bindings event i else mret (false, i));
  if bound : bool then
    repeat_times (Z.to_nat (lines - 1)) (λ i, '(_, i) ← process_mouse_bindings event i; mret i) i
  else if mouse_mode (i_ctx i) then
    let code := if is_scroll_up then MOUSE_WHEEL_UP else MOUSE_WHEEL_DOWN in
    i ← repeat_times (Z.to_nat lines) (on_ctx (mouse_report size mods code Pressed)) i;
    let code := if 0 <? dx then MOUSE_WHEEL_LEFT else MOUSE_WHEEL_RIGHT in
    repeat_times (Z.to_nat columns) (on_ctx (mouse_report size mods code Pressed)) i
  else if Bitflags.contains (t_mode (i_term i)) (Z.lor TermMode.ALT_SCREEN TermMode.ALTERNATE_SCROLL)
          && negb (shift_key mods) then
    let line_cmd := if is_scroll_up then 65 else 66 in
    let column_cmd := if 0 <? dx then 68 else 67 in
    mret (with_ctx (write_to_pty (arrow_keys lines line_cmd ++ arrow_keys columns column_cmd) (i_ctx i)) i)
  else if negb (lines =? 0) then
    delta ← (if is_scroll_up then mret (as_i32 lines) else i32_neg (as_i32 lines));
    on_ctx (ActionContext.scroll cfg size window (Delta delta)) i
  else mret i.

Definition scroll_terminal (dx dy multiplier : Z) p : exec Pointer :=
  let w := si_cell_width size in
  let h := si_cell_height size in
  let multiplier := if mouse_mode (i_ctx (p_input p)) then 1 else multiplier in
  let '(ax, ay) := p_scroll p in
  let ax := ax + dx * multiplier in
  let ay := ay + dy * multiplier in
  let lines := Z.abs (Z.quot ay h) in
  let columns := Z.abs (Z.quot ax w) in
  p ← on_input (scroll_effect dx dy lines columns) p;
  mret (upd_scroll (Z.rem ax w, Z.rem ay h) p).

(** [lpos.x.abs() / lpos.x.hypot(lpos.y) > 0.9], squared. *)
Definition is_horizontal (x y : Z) : bool := 81 * (x * x + y * y) <? 100 * (x * x).

Definition mouse_wheel_input (delta : MouseScrollDelta) (phase : TouchPhase) p : exec Pointer :=
  match delta with
  | LineDelta columns lines =>
      scroll_terminal (columns * si_cell_width size) (lines * si_cell_height size) multiplier p
  | PixelDelta x y =>
      match phase with
      | TouchStarted => mret (upd_scroll (0, 0) p)
      | TouchMoved => if is_horizontal x y then scroll_terminal x 0 multiplier p else scroll_terminal 0 y multiplier p
      | _ => mret p
      end
  end.

(** *** Zooming *)

Definition zoom_new (slots : TouchEvent * TouchEvent) : TouchZoom := mkZoom slots 0.
Definition distance (z : TouchZoom) : Z :=
  let '(a, b) := zoom_slots z in hypot (touch_x a - touch_x b) (touch_y a - touch_y b).

(** The zoom with the moved slot, and the change in steps of the font size. *)
Definition font_delta (slot : TouchEvent) (z : TouchZoom) : TouchZoom * Z :=
  let old_distance := distance z in
  let '(a, b) := zoom_slots z in
  let slots := if touch_id slot =? touch_id a then (slot, b) else (a, slot) in
  let delta := distance (mkZoom slots (zoom_fractions z)) - old_distance + zoom_fractions z in
  let font_delta := Z.abs delta / 100 * Z.sgn delta in
  (mkZoom slots (delta - 100 * font_delta), font_delta).

(** *** Touches *)

Definition mouse_to (t : TouchEvent) p : exec Pointer :=
  on_input (mouse_moved size window mods min_height step (touch_x t) (touch_y t)) p.
Definition left_button (st : ElementState) p : exec Pointer :=
  on_input (mouse_input cfg size window compile fuel n mods load mouse_bindings st MouseLeft) p.

Definition on_touch_start (touch : TouchEvent) p : Pointer :=
  let p := if negb (t_is_focused (i_term (p_input p))) then inhibit_touch true p else p in
  upd_touch (match p_touch p with
             | TouchNone => TouchTap touch
             | TouchTap start => TouchZooming (zoom_new (start, touch))
             | TouchZoomPending slot => TouchZooming (zoom_new (slot, touch))
             | TouchZooming z => TouchInvalid {[touch_id (fst (zoom_slots z)); touch_id (snd (zoom_slots z))]}
             | TouchScroll event | TouchSelect event => TouchInvalid {[touch_id event]}
             | TouchInvalid slots => TouchInvalid (slots ∪ {[touch_id touch]})
             end) p.

(** The motion of a finger that scrolls or selects. *)
Definition drag (touch : TouchEvent) p : exec Pointer :=
  match p_touch p with
  | TouchScroll last_touch => scroll_terminal 0 (touch_y touch - touch_y last_touch) 1 (upd_touch (TouchScroll touch) p)
  | TouchSelect _ => mouse_to touch p
  | _ => mret p
  end.

Definition on_touch_motion (touch : TouchEvent) p : exec Pointer :=
  match p_touch p with
  | TouchTap start =>
      if MAX_TAP_DISTANCE <? Z.abs (touch_x touch - touch_x start) then
        p ← mouse_to start (upd_touch (TouchSelect start) p);
        p ← left_button Pressed p;
        drag touch p
      else if MAX_TAP_DISTANCE <? Z.abs (touch_y touch - touch_y start) then
        drag touch (upd_touch (TouchScroll start) p)
      else mret p
  | TouchZooming z =>
      let '(z, delta) := font_delta touch z in
      mret (change_font_size delta (upd_touch (TouchZooming z) p))
  | _ => drag touch p
  end.

Definition on_touch_end (touch : TouchEvent) p : exec Pointer :=
  p ← on_touch_motion touch p;
  match p_touch p with
  | TouchTap start =>
      p ← mouse_to start (upd_touch TouchNone p);
      p ← left_button Pressed p;
      p ← left_button Released p;
      mret (inhibit_touch false p)
  | TouchZooming z =>
      let '(a, b) := zoom_slots z in
      mret (upd_touch (TouchZoomPending (if touch_id a =? touch_id touch then b else a)) p)
  | TouchZoomPending _ => mret (upd_touch TouchNone p)
  | TouchInvalid slots =>
      let slots := slots ∖ {[touch_id touch]} in
      mret (upd_touch (if decide (slots = ∅) then TouchNone else TouchInvalid slots) p)
  | TouchSelect _ => left_button Released (upd_touch TouchNone p)
  | TouchScroll _ => mret (upd_touch TouchNone p)
  | TouchNone => mret p
  end.

Definition touch (phase : TouchPhase) (t : TouchEvent) p : exec Pointer :=
  match phase with
  | TouchStarted => mret (on_touch_start t p)
  | TouchMoved => on_touch_motion t p
  | TouchEnded | TouchCancelled => on_touch_end t p
  end.

(** *** Modifiers *)

(** [reset_mouse_cursor], and [modifiers_input] with the new modifiers as [mods]. *)
Definition reset_mouse_cursor i : exec Input := icon ← cursor_state size mods i; mret (with_icon icon i).
Definition modifiers_input i : exec Input :=
  let ms := x_mouse (i_ctx i) in
  let ms := mkMouse (left_button_state ms) (right_button_state ms) (last_click_timestamp ms) (last_click_button ms)
              (click_state ms) (cell_side ms) (block_hint_launcher ms) true (mouse_x ms) (mouse_y ms) in
  reset_mouse_cursor (with_ctx (upd_mouse ms (i_ctx i)) i).
End processor.
End pointer.
End PointerInput.
