(* ===== verification/Atlas.v ===== *)
(** * The texture atlas of glyphs (alacritty/src/renderer/text/atlas.rs)

    Glyphs are packed in rows into textures.  The calls to OpenGL are recorded in
    order; the names of new textures are a parameter.  Texture coordinates are
    fractions, which the floats of the source represent exactly for textures of 1024 by
    1024 pixels. *)

From S2P Require Import Prelude.
From Stdlib Require Import QArith.
#[local] Open Scope Z_scope.

Module Atlas.

Definition ATLAS_SIZE : Z := 1024.

(** The glyphs of the rasterizer. *)
Inductive BitmapBuffer := Rgb (buffer : list Z) | Rgba (buffer : list Z).
Record RasterizedGlyph := mkRasterized {
  r_width : Z; r_height : Z; r_top : Z; r_left : Z; r_buffer : BitmapBuffer }.

Record Glyph := mkGlyph {
  tex_id : Z; multicolor : bool; g_top : Z; g_left : Z; g_width : Z; g_height : Z;
  uv_bot : Q; uv_left : Q; uv_width : Q; uv_height : Q }.

Record Atlas := mkAtlas {
  id : Z;
  width : Z;
  height : Z;
  row_extent : Z;
  row_baseline : Z;
  row_tallest : Z;
  is_gles_context : bool }.

Inductive AtlasInsertError := Full | GlyphTooLarge.

Inductive GlCall :=
  | TexImage2D (tex size : Z)
  | TexSubImage2D (tex x y w h : Z) (rgba : bool) (data : list Z).

(** [x as i16]. *)
Definition as_i16 (z : Z) : Z := (z + 32768) mod 65536 - 32768.

Definition clear (a : Atlas) : Atlas := mkAtlas (id a) (width a) (height a) 0 0 0 (is_gles_context a).

Definition room_in_row (a : Atlas) (raw : RasterizedGlyph) : exec bool :=
  next_extent ← i32_add (row_extent a) (r_width raw);
  free ← i32_sub (height a) (row_baseline a);
  mret ((next_extent <=? width a) && (r_height raw <? free)).

Definition advance_row (a : Atlas) : exec (option AtlasInsertError * Atlas) :=
  advance_to ← i32_add (row_baseline a) (row_tallest a);
  free ← i32_sub (height a) advance_to;
  mret (if free <=? 0 then (Some Full, a)
        else (None, mkAtlas (id a) (width a) (height a) 0 advance_to 0 (is_gles_context a))).

(** The copy of RGB data into RGBA. *)
Fixpoint add_alpha (buffer : list Z) : list Z :=
  match buffer with r :: g :: b :: buffer => r :: g :: b :: 255 :: add_alpha buffer | _ => [] end.

Definition upload (gles : bool) (buffer : BitmapBuffer) : bool * bool * list Z :=
  match buffer with
  | Rgb b => if gles then (false, true, add_alpha b) else (false, false, b)
  | Rgba b => (true, true, b)
  end.

Definition fraction (a b : Z) : Q := Qmake a (Z.to_pos b).

Definition insert_inner (raw : RasterizedGlyph) (a : Atlas) : exec (Glyph * Atlas * GlCall) :=
  let y := row_baseline a in
  let x := row_extent a in
  let h := r_height raw in
  let w := r_width raw in
  let '(multicolor, rgba, data) := upload (is_gles_context a) (r_buffer raw) in
  extent ← i32_add x w;
  let tallest := if row_tallest a <? h then h else row_tallest a in
  mret (mkGlyph (id a) multicolor (as_i16 (r_top raw)) (as_i16 (r_left raw)) (as_i16 w) (as_i16 h)
          (fraction y (height a)) (fraction x (width a)) (fraction w (width a)) (fraction h (height a)),
        mkAtlas (id a) (width a) (height a) extent (row_baseline a) tallest (is_gles_context a),
        TexSubImage2D (id a) x y w h rgba data).

Definition insert (raw : RasterizedGlyph) (a : Atlas) : exec ((AtlasInsertError + Glyph * GlCall) * Atlas) :=
  if (width a <? r_width raw) || (height a <? r_height raw) then mret (inl GlyphTooLarge, a)
  else
    room ← room_in_row a raw;
    '(err, a) ← (if negb room then advance_row a else mret (None, a));
    match err with
    | Some e => mret (inl e, a)
    | None =>
        room ← room_in_row a raw;
        if negb room then mret (inl Full, a)
        else '(g, a, call) ← insert_inner raw a; mret (inr (g, call), a)
    end.

(** ** All textures *)

(** What the renderer passes to [load_glyph]. *)
Record Renderer := mkRenderer {
  active_tex : Z;
  atlas : list Atlas;
  current_atlas : Z;
  calls : list GlCall }.

Section renderer.
(** The name of the n-th texture that is generated. *)
Context (gen_texture : nat → Z).

Definition is_texture (c : GlCall) : bool := match c with TexImage2D _ _ => true | _ => false end.
Definition textures (calls : list GlCall) : nat := length (filter (λ c, is_texture c = true) calls).

Definition new (size : Z) (gles : bool) (calls : list GlCall) : Atlas * list GlCall :=
  let i := gen_texture (textures calls) in
  (mkAtlas i size size 0 0 0 gles, calls ++ [TexImage2D i size]).

Definition empty_glyph (tex : Z) : Glyph := mkGlyph tex false 0 0 0 0 0%Q 0%Q 0%Q 0%Q.

Fixpoint load_glyph (fuel : nat) (raw : RasterizedGlyph) (r : Renderer) : exec (Glyph * Renderer) :=
  match fuel with
  | O => Panic OutOfFuel
  | S fuel =>
      a ← vec_get (atlas r) (current_atlas r);
      '(res, a) ← insert raw a;
      all ← vec_set (atlas r) (current_atlas r) a;
      match res with
      | inr (g, call) => mret (g, mkRenderer 0 all (current_atlas r) (calls r ++ [call]))
      | inl Full =>
          current ← usize_add (current_atlas r) 1;
          let r :=
            if current =? zlen all then
              let '(a, calls) := new ATLAS_SIZE (is_gles_context a) (calls r) in
              mkRenderer 0 (all ++ [a]) current calls
            else mkRenderer (active_tex r) all current (calls r) in
          load_glyph fuel raw r
      | inl GlyphTooLarge => mret (empty_glyph (id a), mkRenderer (active_tex r) all (current_atlas r) (calls r))
      end
  end.

Definition clear_atlas (r : Renderer) : Renderer :=
  mkRenderer (active_tex r) (clear <$> atlas r) 0 (calls r).

(** The renderers start with one texture. *)
Definition initial (gles : bool) : Renderer :=
  let '(a, calls) := new ATLAS_SIZE gles [] in mkRenderer 0 [a] 0 calls.
End renderer.

(** ** Regions *)

Record Region := mkRegion { tex : Z; rx : Z; ry : Z; rw : Z; rh : Z }.

Definition covers (u : Region) (px py : Z) : Prop :=
  rx u ≤ px < rx u + rw u ∧ ry u ≤ py < ry u + rh u.
Definition separate (u v : Region) : Prop :=
  tex u = tex v → ∀ px py, covers u px py → covers v px py → False.
Definition in_texture (u : Region) : Prop :=
  0 ≤ rx u ∧ 0 ≤ rw u ∧ rx u + rw u ≤ ATLAS_SIZE ∧ 0 ≤ ry u ∧ 0 ≤ rh u ∧ ry u + rh u ≤ ATLAS_SIZE.

Definition region_of (c : GlCall) : option Region :=
  match c with TexSubImage2D t x y w h _ _ => Some (mkRegion t x y w h) | TexImage2D _ _ => None end.

(** The part of its texture that a glyph is drawn from. *)
Definition glyph_at (g : Glyph) (u : Region) : Prop :=
  tex_id g = tex u ∧ g_width g = rw u ∧ g_height g = rh u ∧
  uv_left g = Qmake (rx u) 1024 ∧ uv_bot g = Qmake (ry u) 1024 ∧
  uv_width g = Qmake (rw u) 1024 ∧ uv_height g = Qmake (rh u) 1024.

Definition placed (a : Atlas) (u : Region) : Prop :=
  in_texture u ∧ (ry u + rh u ≤ row_baseline a ∨
    ry u = row_baseline a ∧ rx u + rw u ≤ row_extent a ∧ rh u ≤ row_tallest a).

Definition fresh (a : Atlas) : Prop := row_extent a = 0 ∧ row_baseline a = 0 ∧ row_tallest a = 0.

Record atlas_ok (live : list Region) (a : Atlas) : Prop := {
  ao_width : width a = ATLAS_SIZE;
  ao_height : height a = ATLAS_SIZE;
  ao_extent : 0 ≤ row_extent a ≤ ATLAS_SIZE;
  ao_baseline : 0 ≤ row_baseline a;
  ao_tallest : 0 ≤ row_tallest a;
  ao_rows : row_baseline a + row_tallest a < ATLAS_SIZE;
  ao_placed : ∀ u, u ∈ live → tex u = id a → placed a u }.

Definition raw_ok (raw : RasterizedGlyph) : Prop :=
  0 ≤ r_width raw ≤ i32_max - ATLAS_SIZE ∧ 0 ≤ r_height raw.

Ltac atlas_solve := unfold in_texture, placed, fresh, separate, covers in *; simpl in *; lia.

Lemma room_in_row_ok live a raw :
  atlas_ok live a → raw_ok raw →
  room_in_row a raw = Ok ((row_extent a + r_width raw <=? ATLAS_SIZE) && (r_height raw <? ATLAS_SIZE - row_baseline a)).
Proof.
  intros [Hw Hh He Hb Ht Hr _] [Rw Rh]. unfold room_in_row. unfold ATLAS_SIZE, i32_max in *.
  rewrite i32_add_ok by lia. simpl. rewrite i32_sub_ok by lia. simpl. by rewrite Hw, Hh.
Qed.

(** Moving on to the next row keeps all regions below it. *)
Lemma advance_row_spec live a :
  atlas_ok live a → ∃ a', advance_row a = Ok (None, a') ∧ atlas_ok live a' ∧ id a' = id a ∧
    is_gles_context a' = is_gles_context a ∧ row_extent a' = 0 ∧ (fresh a → fresh a').
Proof.
  intros [Hw Hh He Hb Ht Hr Hp]. unfold advance_row, ATLAS_SIZE in *. rewrite i32_add_ok by lia. simpl.
  rewrite i32_sub_ok by lia. simpl. destruct (Z.leb_spec (height a - (row_baseline a + row_tallest a)) 0); [lia|].
  eexists. split; [done|]. simpl. split; [|split_and!; [done..|atlas_solve]].
  split; simpl; unfold ATLAS_SIZE; try done; try lia. intros u Hu Et.
  destruct (Hp u Hu Et). split; [done|]. atlas_solve.
Qed.

Lemma insert_inner_spec live a raw :
  atlas_ok live a → raw_ok raw → row_extent a + r_width raw ≤ ATLAS_SIZE →
  r_height raw < ATLAS_SIZE - row_baseline a →
  let u := mkRegion (id a) (row_extent a) (row_baseline a) (r_width raw) (r_height raw) in
  ∃ g a' call, insert_inner raw a = Ok (g, a', call) ∧ region_of call = Some u ∧ is_texture call = false ∧
    atlas_ok (live ++ [u]) a' ∧ id a' = id a ∧
    is_gles_context a' = is_gles_context a ∧ in_texture u ∧ (∀ v, v ∈ live → separate v u) ∧ glyph_at g u.
Proof.
  intros [Hw Hh He Hb Ht Hr Hp] [Rw Rh] Fw Fh u. unfold insert_inner, ATLAS_SIZE in *.
  destruct (upload _ _) as [[mc rgba] data]. rewrite i32_add_ok by lia. simpl. do 3 eexists. split; [done|].
  split; [done|]. split; [done|]. split_and!; try done.
  - split; simpl; unfold ATLAS_SIZE; try done; try lia; [by destruct (Z.ltb_spec (row_tallest a) (r_height raw)); lia..|].
    intros v [Hv| ->%list_elem_of_singleton]%elem_of_app Et.
    + destruct (Hp v Hv Et) as [Hi Hv']. split; [done|].
      destruct (Z.ltb_spec (row_tallest a) (r_height raw)); simpl; lia.
    + unfold u, placed, in_texture, ATLAS_SIZE. simpl.
      destruct (Z.ltb_spec (row_tallest a) (r_height raw)); lia.
  - unfold u, in_texture, ATLAS_SIZE. simpl. lia.
  - intros v Hv Et. destruct (Hp v Hv Et) as [Hi Hv']. intros px py Cv Cu. unfold u in Cu. atlas_solve.
  - unfold u, glyph_at, fraction, as_i16. simpl. rewrite Hw, Hh. rewrite !Z.mod_small by lia.
    split_and!; try done; lia.
Qed.

(** What an insertion does: a glyph that is too large changes nothing; otherwise the
    atlas may be full, which an unused one is only for a glyph of its own height. *)
Definition inserted (live : list Region) (a : Atlas) (raw : RasterizedGlyph)
    (r : (AtlasInsertError + Glyph * GlCall) * Atlas) : Prop :=
  id r.2 = id a ∧ is_gles_context r.2 = is_gles_context a ∧
  match r.1 with
  | inl GlyphTooLarge => r.2 = a ∧ (ATLAS_SIZE < r_width raw ∨ ATLAS_SIZE < r_height raw)
  | inl Full =>
      atlas_ok live r.2 ∧ r_width raw ≤ ATLAS_SIZE ∧ r_height raw ≤ ATLAS_SIZE ∧
      (fresh a → r_height raw = ATLAS_SIZE)
  | inr (g, call) => ∃ u, region_of call = Some u ∧ is_texture call = false ∧ tex u = id a ∧
      rw u = r_width raw ∧ rh u = r_height raw ∧ r_height raw < ATLAS_SIZE ∧
      atlas_ok (live ++ [u]) r.2 ∧ in_texture u ∧ (∀ v, v ∈ live → separate v u) ∧ glyph_at g u
  end.

Lemma insert_fits live a a0 raw :
  atlas_ok live a → raw_ok raw → id a = id a0 → is_gles_context a = is_gles_context a0 →
  r_width raw ≤ ATLAS_SIZE → r_height raw ≤ ATLAS_SIZE → (fresh a0 → fresh a) →
  wp (room ← room_in_row a raw;
      if negb room then mret (inl Full, a)
      else '(g, a, call) ← insert_inner raw a; mret (inr (g, call), a)) (inserted live a0 raw).
Proof.
  intros Ha Hr Ei Eg Hw Hh Hf. rewrite (room_in_row_ok live) by done. simpl.
  destruct ((_ <=? _) && _) eqn:E; simpl.
  - apply andb_true_iff in E as [E1%Z.leb_le E2%Z.ltb_lt].
    destruct (insert_inner_spec live a raw Ha Hr E1 E2) as (g & a' & call & -> & Eu & Et & Ha' & Ei' & Eg' & Hin & Hs & Hg).
    simpl. split; [simpl; congruence|]. split.
    + simpl. congruence.
    + eexists. split_and!; [exact Eu|done|done|done|done|simpl in *; pose proof (ao_baseline _ _ Ha); lia|done..].
  - split; [done|]. split; [done|]. split; [done|]. split; [done|]. split; [done|]. intros F%Hf.
    apply andb_false_iff in E as [E%Z.leb_gt|E%Z.ltb_ge]; atlas_solve.
Qed.

Lemma insert_spec live a raw :
  atlas_ok live a → raw_ok raw → wp (insert raw a) (inserted live a raw).
Proof.
  intros Ha Hr. unfold insert. rewrite (ao_width _ _ Ha), (ao_height _ _ Ha).
  destruct (_ || _) eqn:El; [do 3 (split; [done|]); apply orb_true_iff in El; simpl; lia|].
  apply orb_false_iff in El as [E1%Z.ltb_ge E2%Z.ltb_ge]. rewrite (room_in_row_ok live) by done. simpl.
  destruct (negb _).
  - destruct (advance_row_spec live a Ha) as (a' & -> & Ha' & Ei & Eg & _ & Hf). simpl. by apply insert_fits.
  - simpl. by apply insert_fits.
Qed.

(** ** The renderer *)

Section pages.
Context (gen_texture : nat → Z).
(** Generated names are not in use. *)
Context (gen_fresh : Inj (=) (=) gen_texture).

Record renderer_ok (r : Renderer) (live : list Region) : Prop := {
  ro_current : 0 ≤ current_atlas r < zlen (atlas r);
  ro_atlas : ∀ i a, atlas r !! i = Some a → atlas_ok live a;
  ro_ids : ∀ i a, atlas r !! i = Some a → id a = gen_texture i;
  ro_textures : textures (calls r) = length (atlas r);
  ro_unused : ∀ i a, current_atlas r < Z.of_nat i → atlas r !! i = Some a →
    fresh a ∧ ∀ u, u ∈ live → tex u ≠ id a;
  ro_known : ∀ u, u ∈ live → ∃ i a, atlas r !! i = Some a ∧ id a = tex u;
  ro_inside : ∀ u, u ∈ live → in_texture u;
  ro_separate : ∀ i j u v, live !! i = Some u → live !! j = Some v → i ≠ j → separate u v }.

Lemma initial_ok gles : renderer_ok (initial gen_texture gles) [].
Proof.
  split; simpl; try done; try lia.
  - intros i a [-> Hi]%list_lookup_singleton_Some. subst. split; simpl; unfold ATLAS_SIZE; try done; try lia.
    intros u Hu%elem_of_nil. done.
  - intros i a [-> Hi]%list_lookup_singleton_Some. by subst.
  - intros i a Hi [-> _]%list_lookup_singleton_Some. lia.
  - intros u Hu%elem_of_nil. done.
  - intros u Hu%elem_of_nil. done.
Qed.

Lemma clear_atlas_ok r live : renderer_ok r live → renderer_ok (clear_atlas r) [].
Proof.
  intros [Hc Ha Hi Ht Hu Hk Hin Hs]. unfold clear_atlas. split; simpl; try done; try by intros u ?%elem_of_nil.
  - unfold zlen in *. rewrite length_fmap. lia.
  - intros i a (a0 & -> & E)%list_lookup_fmap_Some. destruct (Ha i a0 E).
    split; simpl; unfold ATLAS_SIZE in *; try done; try lia. by intros u ?%elem_of_nil.
  - intros i a (a0 & -> & E)%list_lookup_fmap_Some. exact (Hi i a0 E).
  - by rewrite length_fmap.
  - intros i a _ (a0 & -> & E)%list_lookup_fmap_Some. split; [done|]. by intros u ?%elem_of_nil.
Qed.

Lemma atlas_ok_other live u a : atlas_ok live a → tex u ≠ id a → atlas_ok (live ++ [u]) a.
Proof.
  intros [? ? ? ? ? ? Hp] Hu. split; try done.
  intros v [Hv| ->%list_elem_of_singleton]%elem_of_app Et; [by apply Hp|done].
Qed.

Lemma current_lookup r live :
  renderer_ok r live → ∃ a, vec_get (atlas r) (current_atlas r) = Ok a ∧
    atlas r !! Z.to_nat (current_atlas r) = Some a ∧ atlas_ok live a ∧
    ∀ a', vec_set (atlas r) (current_atlas r) a' = Ok (<[Z.to_nat (current_atlas r) := a']> (atlas r)).
Proof.
  intros Hr. pose proof (ro_current _ _ Hr) as Hc. unfold zlen in Hc.
  destruct (lookup_lt_is_Some_2 (atlas r) (Z.to_nat (current_atlas r))) as [a Ea]; [lia|].
  exists a. unfold vec_get, zlookup, vec_set, zlen. rewrite (proj2 (Z.leb_le 0 (current_atlas r))) by lia.
  rewrite (proj2 (Z.ltb_lt (current_atlas r) _)) by lia. rewrite Ea.
  split_and!; [done..|exact (ro_atlas _ _ Hr _ _ Ea)|done].
Qed.

(** Looking up an atlas behind an update of the current one. *)
Lemma lookup_updated (l : list Atlas) (c i : nat) (a a' b : Atlas) :
  l !! c = Some a → <[c := a']> l !! i = Some b → i = c ∧ b = a' ∨ i ≠ c ∧ l !! i = Some b.
Proof.
  intros Hc Hb. destruct (decide (i = c)) as [->|Hn].
  - left. rewrite list_lookup_insert_eq in Hb by (by eapply lookup_lt_Some). naive_solver.
  - right. by rewrite list_lookup_insert_ne in Hb.
Qed.

Lemma separate_snoc (live : list Region) (u : Region) :
  (∀ i j v w, live !! i = Some v → live !! j = Some w → i ≠ j → separate v w) →
  (∀ v, v ∈ live → separate v u) →
  ∀ i j v w, (live ++ [u]) !! i = Some v → (live ++ [u]) !! j = Some w → i ≠ j → separate v w.
Proof.
  intros Hs Hu i j v w Hv Hw Hn. apply lookup_app_Some in Hv as [Hv|[Li [Ev <-]%list_lookup_singleton_Some]];
    apply lookup_app_Some in Hw as [Hw|[Lj [Ew <-]%list_lookup_singleton_Some]].
  - by eapply Hs.
  - by eapply Hu, list_elem_of_lookup_2.
  - intros Et px py C1 C2. by eapply (Hu w (list_elem_of_lookup_2 _ _ _ Hw) (eq_sym Et)).
  - lia.
Qed.

(** A region is added to the current atlas. *)
Lemma placed_ok r live a a' u call n :
  renderer_ok r live → atlas r !! Z.to_nat (current_atlas r) = Some a → id a' = id a →
  tex u = id a → atlas_ok (live ++ [u]) a' → in_texture u → (∀ v, v ∈ live → separate v u) →
  is_texture call = false →
  renderer_ok (mkRenderer n (<[Z.to_nat (current_atlas r) := a']> (atlas r)) (current_atlas r)
    (calls r ++ [call])) (live ++ [u]).
Proof.
  intros [Hc Ha Hi Ht Hu Hk Hin Hs] Ea Ei Et Ha' Hu' Hsep Hcall. split; simpl.
  - unfold zlen in *. by rewrite length_insert.
  - intros i b Hb. destruct (lookup_updated _ _ _ _ _ _ Ea Hb) as [[-> ->]|[Hn Hb']]; [done|].
    apply atlas_ok_other; [by eapply Ha|]. rewrite Et, (Hi _ _ Ea), (Hi _ _ Hb'). intros E%(inj gen_texture). lia.
  - intros i b Hb. destruct (lookup_updated _ _ _ _ _ _ Ea Hb) as [[-> ->]|[Hn Hb']]; [|by apply Hi].
    rewrite Ei. by apply Hi.
  - unfold textures in *. rewrite filter_app, length_app, length_insert, Ht, filter_cons_False, filter_nil by (by rewrite Hcall).
    simpl. lia.
  - intros i b Hlt Hb. destruct (lookup_updated _ _ _ _ _ _ Ea Hb) as [[-> ->]|[Hn Hb']]; [lia|].
    destruct (Hu i b Hlt Hb') as [Hf Hl]. split; [done|].
    intros v [Hv| ->%list_elem_of_singleton]%elem_of_app; [by apply Hl|].
    rewrite Et, (Hi _ _ Ea), (Hi _ _ Hb'). intros E%(inj gen_texture). lia.
  - intros v [Hv| ->%list_elem_of_singleton]%elem_of_app.
    + destruct (Hk v Hv) as (i & b & Hb & Eb). destruct (decide (i = Z.to_nat (current_atlas r))) as [->|Hn].
      * exists (Z.to_nat (current_atlas r)), a'. rewrite list_lookup_insert_eq by (by eapply lookup_lt_Some).
        split; [done|]. congruence.
      * exists i, b. by rewrite list_lookup_insert_ne.
    + exists (Z.to_nat (current_atlas r)), a'. rewrite list_lookup_insert_eq by (by eapply lookup_lt_Some).
      split; [done|]. congruence.
  - intros v [Hv| ->%list_elem_of_singleton]%elem_of_app; [by apply Hin|done].
  - by apply separate_snoc.
Qed.


(** The state behind a full atlas. *)
Definition next_page (r : Renderer) (all : list Atlas) (gles : bool) : Renderer :=
  if current_atlas r + 1 =? zlen all then
    let '(a, calls) := new gen_texture ATLAS_SIZE gles (calls r) in
    mkRenderer 0 (all ++ [a]) (current_atlas r + 1) calls
  else mkRenderer (active_tex r) all (current_atlas r + 1) (calls r).

Definition page_fresh (r : Renderer) : Prop :=
  ∀ a, atlas r !! Z.to_nat (current_atlas r) = Some a → fresh a.

Lemma updated_ok r live a a' :
  renderer_ok r live → atlas r !! Z.to_nat (current_atlas r) = Some a → id a' = id a → atlas_ok live a' →
  renderer_ok (mkRenderer (active_tex r) (<[Z.to_nat (current_atlas r) := a']> (atlas r)) (current_atlas r)
    (calls r)) live.
Proof.
  intros [Hc Ha Hi Ht Hu Hk Hin Hs] Ea Ei Ha'. split; simpl; try done.
  - unfold zlen in *. by rewrite length_insert.
  - intros i b Hb. destruct (lookup_updated _ _ _ _ _ _ Ea Hb) as [[-> ->]|[Hn Hb']]; [done|by eapply Ha].
  - intros i b Hb. destruct (lookup_updated _ _ _ _ _ _ Ea Hb) as [[-> ->]|[Hn Hb']]; [|by apply Hi].
    rewrite Ei. by apply Hi.
  - by rewrite length_insert.
  - intros i b Hlt Hb. destruct (lookup_updated _ _ _ _ _ _ Ea Hb) as [[-> ->]|[Hn Hb']]; [lia|by apply Hu in Hb'].
  - intros v Hv. destruct (Hk v Hv) as (i & b & Hb & Eb). destruct (decide (i = Z.to_nat (current_atlas r))) as [->|Hn].
    + exists (Z.to_nat (current_atlas r)), a'. rewrite list_lookup_insert_eq by (by eapply lookup_lt_Some).
      split; [done|]. congruence.
    + exists i, b. by rewrite list_lookup_insert_ne.
Qed.

Lemma next_page_ok r live gles :
  renderer_ok r live → renderer_ok (next_page r (atlas r) gles) live ∧ page_fresh (next_page r (atlas r) gles).
Proof.
  intros Hr. destruct Hr as [Hc Ha Hi Ht Hu Hk Hin Hs] eqn:E. clear E. unfold next_page, zlen in *.
  destruct (Z.eqb_spec (current_atlas r + 1) (Z.of_nat (length (atlas r)))) as [El|El]; simpl.
  - assert (Hid : ∀ u, u ∈ live → tex u ≠ gen_texture (length (atlas r))).
    { intros u Hv Et. destruct (Hk u Hv) as (i & b & Hb & Eb). rewrite <- Eb, (Hi _ _ Hb) in Et.
      apply (inj gen_texture) in Et as ->. apply lookup_lt_Some in Hb. lia. }
    split; [split; simpl; try done|].
    + unfold zlen. rewrite length_app. simpl. lia.
    + intros i b [Hb|[_ [_ <-]%list_lookup_singleton_Some]]%lookup_app_Some; [by eapply Ha|].
      rewrite Ht. split; simpl; unfold ATLAS_SIZE; try done; try lia. intros u Hv Et. by destruct (Hid u Hv).
    + intros i b [Hb|[Hl [Ei <-]%list_lookup_singleton_Some]]%lookup_app_Some; [by apply Hi|].
      simpl. rewrite Ht. f_equal. lia.
    + unfold textures in *. rewrite filter_app, !length_app, Ht, filter_cons_True, filter_nil by done. done.
    + intros i b Hlt [Hb|[Hl [Ei <-]%list_lookup_singleton_Some]]%lookup_app_Some; [|lia].
      apply lookup_lt_Some in Hb. lia.
    + intros u Hv. destruct (Hk u Hv) as (i & b & Hb & Eb). exists i, b. split; [|done].
      by apply lookup_app_l_Some.
    + intros a Ea. simpl in Ea. apply lookup_app_Some in Ea as [Ea|[Hl [Ei <-]%list_lookup_singleton_Some]]; [|done].
      apply lookup_lt_Some in Ea. lia.
  - split; [split; simpl; try done|].
    + unfold zlen. lia.
    + intros i b Hlt. apply Hu. lia.
    + intros a Ea. simpl in Ea. eapply Hu; [|exact Ea]. lia.
Qed.

(** ** Loading a glyph *)

Definition regions (r r' : Renderer) : list Region := omap region_of (drop (length (calls r)) (calls r')).

Definition stored (live : list Region) (raw : RasterizedGlyph) (g : Glyph)
    (u : Region) : Prop :=
  rw u = r_width raw ∧ rh u = r_height raw ∧ in_texture u ∧ (∀ v, v ∈ live → separate v u) ∧ glyph_at g u.

Definition loaded (r : Renderer) (live : list Region) (raw : RasterizedGlyph) (res : Glyph * Renderer) : Prop :=
  (ATLAS_SIZE < r_width raw ∨ ATLAS_SIZE < r_height raw) ∧ calls res.2 = calls r ∧ atlas res.2 = atlas r ∧
    g_width res.1 = 0 ∧ g_height res.1 = 0 ∧ renderer_ok res.2 live ∨
  ∃ pre call u, calls res.2 = calls r ++ pre ++ [call] ∧ omap region_of pre = [] ∧ region_of call = Some u ∧
    r_width raw ≤ ATLAS_SIZE ∧ r_height raw < ATLAS_SIZE ∧ stored live raw res.1 u ∧
    renderer_ok res.2 (live ++ [u]).

(** A state that only differs by new textures. *)
Definition extends (r r1 : Renderer) : Prop := ∃ pre, calls r1 = calls r ++ pre ∧ omap region_of pre = [].

Lemma loaded_extends r r1 live raw res :
  extends r r1 → r_width raw ≤ ATLAS_SIZE → r_height raw ≤ ATLAS_SIZE → loaded r1 live raw res → loaded r live raw res.
Proof.
  intros (pre & Ep & Hp) Hw Hh [Hl|(pre1 & call & u & Ec & Hp1 & H')]; [lia|].
  right. exists (pre ++ pre1), call, u. rewrite Ec, Ep, omap_app, Hp, Hp1, <- !app_assoc. done.
Qed.

Lemma next_page_extends r all gles : extends r (next_page r all gles).
Proof.
  unfold next_page. destruct (_ =? _); [by eexists|]. exists []. simpl. by rewrite app_nil_r.
Qed.

(** One round: the glyph is loaded, or the next page is tried. *)
Lemma load_glyph_round fuel raw r live :
  renderer_ok r live → raw_ok raw →
  (∃ res, load_glyph gen_texture (S fuel) raw r = Ok res ∧ loaded r live raw res) ∨
  r_width raw ≤ ATLAS_SIZE ∧ r_height raw ≤ ATLAS_SIZE ∧ (page_fresh r → r_height raw = ATLAS_SIZE) ∧
  ∃ r1, load_glyph gen_texture (S fuel) raw r
    = (usize_add (current_atlas r) 1 ≫= λ _, load_glyph gen_texture fuel raw r1) ∧
    renderer_ok r1 live ∧ page_fresh r1 ∧ extends r r1.
Proof.
  intros Hr Hraw. destruct (current_lookup r live Hr) as (a & Eg & Ea & Ha & Es). simpl. rewrite Eg. simpl.
  destruct (wp_exists _ _ (insert_spec live a raw Ha Hraw)) as ([res a'] & Ei & Hid & Hgl & Hres).
  rewrite Ei. simpl in *. rewrite Es. simpl. destruct res as [[|]|[g call]]; simpl in *.
  - right. destruct Hres as (Ha' & Hw & Hh & Hf). split; [done|]. split; [done|]. split; [intros F; by apply Hf, F|].
    pose proof (updated_ok r live a a' Hr Ea Hid Ha') as Hr1. set (r0 := mkRenderer _ _ _ _) in Hr1.
    exists (next_page r0 (atlas r0) (is_gles_context a')). destruct (next_page_ok _ _ (is_gles_context a') Hr1) as [Hn Hf1].
    split; [|split; [done|split; [done|exact (next_page_extends r0 (atlas r0) _)]]].
    unfold usize_add, checked. by destruct (in_usize _).
  - left. eexists. split; [done|]. left. destruct Hres as [-> Hl]. simpl. rewrite list_insert_id by done.
    split_and!; try done. by apply (updated_ok r live a a) in Hr; rewrite ?list_insert_id in Hr by done.
  - left. eexists. split; [done|]. right. destruct Hres as (u & Eu & Et & Etex & Hw & Hh & Hlt & Ha' & Hin & Hs & Hg).
    exists [], call, u. simpl. split_and!; try done; [unfold in_texture in Hin; lia|by eapply placed_ok].
Qed.

Lemma load_glyph_loaded fuel raw r live res :
  renderer_ok r live → raw_ok raw → load_glyph gen_texture fuel raw r = Ok res → loaded r live raw res.
Proof.
  revert r. induction fuel as [|fuel IH]; intros r Hr Hraw E; [done|].
  destruct (load_glyph_round fuel raw r live Hr Hraw) as [(res' & E' & Hl)|(Hw & Hh & _ & r1 & E' & Hr1 & _ & Hx)].
  - rewrite E' in E. by injection E as ->.
  - rewrite E' in E. destruct (usize_add _ _); [|done]. simpl in E. by eapply loaded_extends, IH.
Qed.

Lemma load_glyph_total raw r live :
  renderer_ok r live → raw_ok raw → zlen (atlas r) ≤ isize_max → r_height raw ≠ ATLAS_SIZE →
  ∃ res, load_glyph gen_texture 2 raw r = Ok res ∧ loaded r live raw res.
Proof.
  intros Hr Hraw Hz Hne.
  destruct (load_glyph_round 1 raw r live Hr Hraw) as [Hl|(Hw & Hh & _ & r1 & E & Hr1 & Hf & Hx)]; [done|].
  destruct (load_glyph_round 0 raw r1 live Hr1 Hraw) as [(res & E1 & Hl)|(_ & _ & Hbad & _)]; [|by apply Hbad in Hf].
  exists res. rewrite E, usize_add_ok by (pose proof (ro_current _ _ Hr); unfold isize_max in Hz; lia).
  split; [exact E1|by eapply loaded_extends].
Qed.

(** States of the renderer with the regions in use since the last clearing. *)
Inductive rendered : Renderer → list Region → Prop :=
  | rendered_new gles : rendered (initial gen_texture gles) []
  | rendered_load r live raw fuel g r' :
      rendered r live → raw_ok raw → load_glyph gen_texture fuel raw r = Ok (g, r') →
      rendered r' (live ++ regions r r')
  | rendered_clear r live : rendered r live → rendered (clear_atlas r) [].

Lemma loaded_regions r live raw res :
  loaded r live raw res → renderer_ok res.2 (live ++ regions r res.2).
Proof.
  unfold regions. intros [(_ & Ec & _ & _ & _ & Hr)|(pre & call & u & Ec & Ep & Eu & _ & _ & _ & Hr)]; rewrite Ec.
  - by rewrite drop_all, app_nil_r.
  - rewrite drop_app_length, omap_app, Ep. simpl. by rewrite Eu.
Qed.

Lemma rendered_ok r live : rendered r live → renderer_ok r live.
Proof.
  induction 1 as [gles|r live raw fuel g r' Hr IH Hraw E|r live Hr IH].
  - apply initial_ok.
  - exact (loaded_regions r live raw (g, r') (load_glyph_loaded fuel raw r live _ IH Hraw E)).
  - by eapply clear_atlas_ok.
Qed.

(** C38: glyphs never overwrite each other in the texture atlas: whatever was loaded
    since the atlas was cleared, a glyph that is not exactly as high as a texture is
    loaded after at most one change of texture; unless it is too large, in which case
    nothing is uploaded and an empty glyph is returned, exactly one region of its size
    is uploaded, inside of the texture, without a pixel in common with any region in
    use, and the returned glyph is drawn from exactly this region. *)
Theorem load_glyph_places (r : Renderer) (live : list Region) (raw : RasterizedGlyph) :
  rendered r live → raw_ok raw → zlen (atlas r) ≤ isize_max → r_height raw ≠ ATLAS_SIZE →
  ∃ g r', load_glyph gen_texture 2 raw r = Ok (g, r') ∧
    if (ATLAS_SIZE <? r_width raw) || (ATLAS_SIZE <? r_height raw)
    then regions r r' = [] ∧ g_width g = 0 ∧ g_height g = 0
    else ∃ u, regions r r' = [u] ∧ rw u = r_width raw ∧ rh u = r_height raw ∧ in_texture u ∧
           (∀ v, v ∈ live → separate v u) ∧ glyph_at g u.
Proof.
  intros Hr%rendered_ok Hraw Hz Hne. destruct (load_glyph_total raw r live Hr Hraw Hz Hne) as ([g r'] & E & Hl).
  exists g, r'. split; [done|]. unfold regions.
  destruct Hl as [(Hl & Ec & _ & Ew & Eh & _)|(pre & call & u & Ec & Ep & Eu & Hw & Hh & Hs & _)]; simpl in *; rewrite Ec.
  - rewrite (proj2 (orb_true_iff _ _)) by (destruct Hl; [left|right]; by apply Z.ltb_lt). by rewrite drop_all.
  - rewrite (proj2 (orb_false_iff _ _)) by (split; apply Z.ltb_ge; lia). exists u.
    rewrite drop_app_length, omap_app, Ep. simpl. rewrite Eu. by split_and!; destruct Hs as (? & ? & ? & ? & ?).
Qed.

(** A glyph exactly as high as a texture is not too large, but fits into no row: the
    renderer creates textures without end. *)
Lemma full_height_loops fuel raw r live :
  renderer_ok r live → raw_ok raw → r_width raw ≤ ATLAS_SIZE → r_height raw = ATLAS_SIZE →
  ∃ k, load_glyph gen_texture fuel raw r = Panic k.
Proof.
  revert r. induction fuel as [|fuel IH]; intros r Hr Hraw Hw Hh; [by eexists|].
  destruct (load_glyph_round fuel raw r live Hr Hraw) as [(res & E & Hl)|(_ & _ & _ & r1 & E & Hr1 & _ & _)].
  - exfalso. destruct Hl as [(? & _)|(? & ? & ? & _ & _ & _ & _ & ? & _)]; lia.
  - rewrite E. destruct (usize_add _ _); [by apply IH|by eexists].
Qed.
End pages.

(** ** Examples *)

Definition glyph_a : RasterizedGlyph := mkRasterized 20 30 25 1 (Rgb (replicate 6 128)).
Definition after_a : Renderer := Eval vm_compute in
  match load_glyph Z.of_nat 2 glyph_a (initial Z.of_nat true) with
  | Ok (_, r) => r | Panic _ => initial Z.of_nat true end.

Lemma load_glyph_places_witness :
  ∃ g r' u, load_glyph Z.of_nat 2 glyph_a after_a = Ok (g, r') ∧ regions after_a r' = [u] ∧
    separate (mkRegion 0 0 0 20 30) u.
Proof.
  destruct (load_glyph_places Z.of_nat Nat2Z.inj after_a [mkRegion 0 0 0 20 30] glyph_a)
    as (g & r' & E & u & Eu & _ & _ & _ & Hs & _).
  - apply (rendered_load Z.of_nat (initial Z.of_nat true) [] glyph_a 2
      (mkGlyph 0 false 25 1 20 30 (Qmake 0 1024) (Qmake 0 1024) (Qmake 20 1024) (Qmake 30 1024)) after_a).
    + apply rendered_new.
    + unfold raw_ok, i32_max, ATLAS_SIZE. simpl. lia.
    + vm_compute. reflexivity.
  - unfold raw_ok, i32_max, ATLAS_SIZE. simpl. lia.
  - vm_compute. discriminate.
  - vm_compute. discriminate.
  - exists g, r', u. split; [exact E|]. split; [exact Eu|]. apply Hs. left.
Defined.

(** The check for too large glyphs admits the height of a texture, the check for room
    does not. *)
Example texture_high_glyph_loops :
  ∀ fuel, ∃ k, load_glyph Z.of_nat fuel (mkRasterized 10 1024 0 0 (Rgb [])) (initial Z.of_nat true) = Panic k.
Proof.
  intros fuel. eapply (full_height_loops Z.of_nat Nat2Z.inj).
  - apply initial_ok.
  - unfold raw_ok, i32_max, ATLAS_SIZE. simpl. lia.
  - done.
  - done.
Qed.
End Atlas.
