(* ===== verification/ConfigFiles.v ===== *)
(** * Configuration files (alacritty/src/config/mod.rs, config/serde_utils.rs)

    Reading a configuration file with its imports and merging their values.  The
    parsers and printers of the crates toml and serde_yaml, the file system and the
    home directory are parameters.  Messages to the log are not modelled.

    Tables are lists of keys with values; only look-ups by key are observed, since the
    order of the keys depends on how the crate toml is built. *)

From S2P Require Import Prelude.
#[local] Open Scope Z_scope.

Module ConfigFiles.

Definition str : Type := list Z.

(** ** Values *)

(** [toml::Value]; floats and dates are their representation. *)
Inductive Value :=
  | VString (s : str)
  | VInteger (z : Z)
  | VFloat (bits : Z)
  | VBoolean (b : bool)
  | VDatetime (s : str)
  | VArray (vs : list Value)
  | VTable (kvs : list (str * Value)).
Abbreviation Table := (list (str * Value)).

(** An induction principle that reaches the values inside of arrays and tables. *)
Section value_rect.
Context (P : Value → Prop).
Context (Pstring : ∀ s, P (VString s)) (Pinteger : ∀ z, P (VInteger z)) (Pfloat : ∀ z, P (VFloat z)).
Context (Pboolean : ∀ b, P (VBoolean b)) (Pdatetime : ∀ s, P (VDatetime s)).
Context (Parray : ∀ vs, Forall P vs → P (VArray vs)).
Context (Ptable : ∀ kvs, Forall (λ kv, P kv.2) kvs → P (VTable kvs)).
Fixpoint value_induction (v : Value) : P v :=
  match v with
  | VString s => Pstring s
  | VInteger z => Pinteger z
  | VFloat z => Pfloat z
  | VBoolean b => Pboolean b
  | VDatetime s => Pdatetime s
  | VArray vs =>
      Parray vs ((fix go vs : Forall P vs :=
        match vs with [] => @Forall_nil_2 _ P | v :: vs => @Forall_cons_2 _ P v vs (value_induction v) (go vs) end) vs)
  | VTable kvs =>
      Ptable kvs ((fix go kvs : Forall (λ kv, P kv.2) kvs :=
        match kvs with
        | [] => @Forall_nil_2 _ (λ kv, P kv.2)
        | kv :: kvs => @Forall_cons_2 _ (λ kv, P kv.2) kv kvs (value_induction kv.2) (go kvs)
        end) kvs)
  end.
End value_rect.

Fixpoint table_get (k : str) (t : Table) : option Value :=
  match t with [] => None | (k', v) :: t => if bool_decide (k = k') then Some v else table_get k t end.
Definition table_remove (k : str) (t : Table) : Table := filter (λ kv, kv.1 ≠ k) t.
Definition table_insert (k : str) (v : Value) (t : Table) : Table := table_remove k t ++ [(k, v)].

(** [Value::get] with a string. *)
Definition get (k : str) (v : Value) : option Value :=
  match v with VTable t => table_get k t | _ => None end.

(** ** Merging *)

Fixpoint merge (base replacement : Value) : Value :=
  match base, replacement with
  | VArray base, VArray replacement => VArray (base ++ replacement)
  | VTable base, VTable replacement =>
      VTable ((fix merge_tables (base : Table) (replacement : Table) : Table :=
        match replacement with
        | [] => base
        | (key, value) :: replacement =>
            let value := match table_get key base with
                         | Some base_value => merge base_value value
                         | None => value
                         end in
            merge_tables (table_insert key value (table_remove key base)) replacement
        end) base replacement)
  | _, value => value
  end.

Fixpoint merge_tables (base replacement : Table) : Table :=
  match replacement with
  | [] => base
  | (key, value) :: replacement =>
      let value := match table_get key base with Some base_value => merge base_value value | None => value end in
      merge_tables (table_insert key value (table_remove key base)) replacement
  end.

Arguments merge : simpl never.

(** ** Paths

    A [Path] on Unix is compared by its components: whether it starts at the root,
    then the names, where a [.] is kept only at the start of a relative path. *)
Record Path := mkPath { p_absolute : bool; p_names : list str }.
#[global] Instance Path_eq_dec : EqDecision Path.
Proof. solve_decision. Defined.

Fixpoint split_on (sep : Z) (s : str) : list str :=
  match s with
  | [] => [[]]
  | c :: s =>
      if c =? sep then [] :: split_on sep s
      else match split_on sep s with x :: xs => (c :: x) :: xs | [] => [[c]] end
  end.

Definition dot : str := [46].
Definition path_of (s : str) : Path :=
  let absolute := match s with c :: _ => c =? 47 | [] => false end in
  let names := split_on 47 s in
  let first := if absolute then [] else filter (λ n, n = dot) (take 1 names) in
  mkPath absolute (first ++ filter (λ n, n ≠ [] ∧ n ≠ dot) names).

Definition join (base p : Path) : Path :=
  if p_absolute p then p
  else mkPath (p_absolute base)
         (p_names base ++ (if bool_decide (p_names base = []) && negb (p_absolute base) then p_names p
                           else filter (λ n, n ≠ dot) (p_names p))).

Definition parent (p : Path) : option Path :=
  match p_names p with [] => None | names => Some (mkPath (p_absolute p) (removelast names)) end.

(** [strip_prefix("~/")]. *)
Definition strip_home (p : Path) : option Path :=
  match p_absolute p, p_names p with
  | false, [126] :: names => Some (mkPath false names)
  | _, _ => None
  end.

(** The extension behind the last dot of the last name, unless nothing is before it. *)
Definition rsplit_dot (s : str) : option (str * str) :=
  match list_find (λ c, c = 46) (rev s) with
  | Some (i, _) => Some (take (length s - i - 1) s, drop (length s - i) s)
  | None => None
  end.
Definition extension (p : Path) : option str :=
  match last (p_names p) with
  | Some name =>
      if bool_decide (name = [46; 46]) then None
      else match rsplit_dot name with Some ([], _) | None => None | Some (_, e) => Some e end
  | None => None
  end.

(** ** YAML *)

Inductive Yaml :=
  | YNull
  | YBool (b : bool)
  | YNumber (z : Z)
  | YString (s : str)
  | YSequence (ys : list Yaml)
  | YMapping (kvs : list (Yaml * Yaml))
  | YTagged (tag : str) (y : Yaml).

(** [walk]: whether the value is to be removed, and the value without nulls. *)
Fixpoint walk (y : Yaml) : bool * Yaml :=
  match y with
  | YSequence ys =>
      let ys := (fix go ys := match ys with
                              | [] => []
                              | y :: ys => let '(gone, y) := walk y in if (gone : bool) then go ys else y :: go ys
                              end) ys in
      (bool_decide (length ys = 0%nat), YSequence ys)
  | YMapping kvs =>
      let kvs := (fix go (kvs : list (Yaml * Yaml)) :=
                    match kvs with
                    | [] => []
                    | (k, y) :: kvs =>
                        let '(gone, y) := walk y in if (gone : bool) then go kvs else (k, y) :: go kvs
                    end) kvs in
      (bool_decide (length kvs = 0%nat), YMapping kvs)
  | YNull => (true, y)
  | _ => (false, y)
  end.

Definition prune_yaml_nulls (y : Yaml) : Yaml := let '(gone, y) := walk y in if gone then YMapping [] else y.

(** ** Loading *)

Inductive IoError := NotFound | OtherIo (code : Z).

Definition IMPORT_RECURSION_LIMIT : nat := 5.

(** [char::is_whitespace], and what [trim] leaves. *)
Definition is_whitespace (c : Z) : bool :=
  (9 <=? c) && (c <=? 13) || (c =? 32) || (c =? 133) || (c =? 160) || (c =? 5760)
  || (8192 <=? c) && (c <=? 8202) || (c =? 8232) || (c =? 8233) || (c =? 8239) || (c =? 8287) || (c =? 12288).
Fixpoint trim_start (s : str) : str :=
  match s with c :: s' => if is_whitespace c then trim_start s' else s | [] => [] end.
Definition trim (s : str) : str := rev (trim_start (rev (trim_start s))).

Definition ascii (s : string) : str := (λ c, Z.of_N (Ascii.N_of_ascii c)) <$> String.list_ascii_of_string s.

Section loading.
(** The errors of the parsers. *)
Context {TomlError TomlSeError YamlError : Type}.

Inductive Error :=
  | Io (e : IoError)
  | Toml (e : TomlError)
  | TomlSe (e : TomlSeError)
  | YamlErr (e : YamlError).

Context (read_to_string : Path → IoError + str).
Context (toml_from_str : str → TomlError + Value) (yaml_from_str : str → YamlError + Yaml).
Context (toml_to_string : Yaml → TomlSeError + str) (home_dir : option Path).

Definition deserialize_config (path : Path) : Error + Value :=
  match read_to_string path with
  | inl e => inl (Io e)
  | inr contents =>
      let contents := match contents with c :: s => if c =? 65279 then s else contents | [] => contents end in
      let ext := default [] (extension path) in
      let toml :=
        if (bool_decide (ext = ascii "yaml") || bool_decide (ext = ascii "yml"))
           && negb (bool_decide (trim contents = []))
        then match yaml_from_str contents with
             | inl e => inl (YamlErr e)
             | inr y => match toml_to_string (prune_yaml_nulls y) with inl e => inl (TomlSe e) | inr s => inr s end
             end
        else inr contents in
      match toml with
      | inl e => inl e
      | inr s => match toml_from_str s with inl e => inl (Toml e) | inr v => inr v end
      end
  end.

Definition normalize_import (base_config_path import_path : Path) : Path :=
  let import_path :=
    match strip_home import_path, home_dir with
    | Some stripped, Some home => join home stripped
    | _, _ => import_path
    end in
  if negb (p_absolute import_path) then
    match parent base_config_path with Some dir => join dir import_path | None => import_path end
  else import_path.

Inductive ImportsError := InvalidImportType | DepthExceeded.
Inductive ImportError := InvalidElementType.

Definition import_entry (base_path : Path) (v : Value) : ImportError + Path :=
  match v with
  | VString s => inr (normalize_import base_path (path_of s))
  | _ => inl InvalidElementType
  end.

Definition imports (config : Value) (base_path : Path) (recursion_limit : nat) :
    ImportsError + list (ImportError + Path) :=
  let found := match get (ascii "import") config with
               | Some v => Some v
               | None => match get (ascii "general") config with Some g => get (ascii "import") g | None => None end
               end in
  match found with
  | Some (VArray vs) =>
      if negb (bool_decide (length vs = 0%nat)) && bool_decide (recursion_limit = 0%nat) then inl DepthExceeded
      else inr (import_entry base_path <$> vs)
  | Some _ => inl InvalidImportType
  | None => inr []
  end.

(** [load_imports] with what it calls for each import; the paths that were tried are
    collected in order.  At the limit zero there is no import to parse
    ([imports_at_limit]). *)
Definition load_imports (parse : Path → list Path → (Error + Value) * list Path) (config : Value)
    (base_path : Path) (config_paths : list Path) (recursion_limit : nat) : Value * list Path :=
  match imports config base_path recursion_limit with
  | inl _ => (VTable [], config_paths)
  | inr import_paths =>
      foldl (λ st import_path,
        match import_path with
        | inl _ => st
        | inr path =>
            match parse path st.2 with
            | (inr config, paths) => (merge st.1 config, paths)
            | (inl _, paths) => (st.1, paths)
            end
        end) (VTable [], config_paths) import_paths
  end.

Fixpoint parse_config (recursion_limit : nat) (path : Path) (config_paths : list Path) :
    (Error + Value) * list Path :=
  let config_paths := config_paths ++ [path] in
  match deserialize_config path with
  | inl e => (inl e, config_paths)
  | inr config =>
      let '(imported, config_paths) :=
        match recursion_limit with
        | O => load_imports (λ _ paths, (inr (VTable []), paths)) config path config_paths 0
        | S limit => load_imports (parse_config limit) config path config_paths (S limit)
        end in
      (inr (merge imported config), config_paths)
  end.

(** [read_config], with the deserialisation into the type of the configuration. *)
Definition read_config {UiConfig} (deserialize : Value → TomlError + UiConfig) (path : Path) :
    Error + UiConfig * list Path :=
  match parse_config IMPORT_RECURSION_LIMIT path [] with
  | (inl e, _) => inl e
  | (inr v, paths) => match deserialize v with inl e => inl (Toml e) | inr c => inr (c, paths) end
  end.

Lemma imports_at_limit config base paths : imports config base 0 = inr paths → paths = [].
Proof.
  unfold imports. destruct (match get _ config with Some _ => _ | None => _ end) as [[]|]; try done; [|naive_solver].
  rewrite andb_true_r. destruct vs; simpl; [naive_solver|done].
Qed.
End loading.

(** ** Facts about merging *)

(** The keys of a table are distinct, at every level. *)
Fixpoint value_ok (v : Value) : Prop :=
  match v with
  | VTable kvs =>
      NoDup (fst <$> kvs) ∧
      (fix go (kvs : list (str * Value)) : Prop := match kvs with [] => True | kv :: kvs => value_ok kv.2 ∧ go kvs end) kvs
  | VArray vs => (fix go (vs : list Value) : Prop := match vs with [] => True | v :: vs => value_ok v ∧ go vs end) vs
  | _ => True
  end.

Lemma value_ok_table kvs : value_ok (VTable kvs) ↔ NoDup (fst <$> kvs) ∧ Forall (λ kv, value_ok kv.2) kvs.
Proof.
  simpl. apply and_iff_compat_l. induction kvs as [|kv kvs IH]; [by split|].
  rewrite Forall_cons. by apply and_iff_compat_l.
Qed.

Lemma merge_table base replacement :
  merge (VTable base) (VTable replacement) = VTable (merge_tables base replacement).
Proof. reflexivity. Qed.

Lemma table_get_remove k k' t : table_get k (table_remove k' t) = if bool_decide (k = k') then None else table_get k t.
Proof.
  unfold table_remove. induction t as [|[k1 v] t IH]; [by case_bool_decide|].
  destruct (decide (k1 = k')) as [->|Hn].
  - rewrite filter_cons_False by naive_solver. rewrite IH. simpl. by case_bool_decide.
  - rewrite filter_cons_True by done. simpl. rewrite IH. repeat case_bool_decide; congruence.
Qed.

Lemma table_get_app k t t' : table_get k (t ++ t') = match table_get k t with Some v => Some v | None => table_get k t' end.
Proof. induction t as [|[k' v] t IH]; [done|]. simpl. by case_bool_decide. Qed.

Lemma table_get_insert k k' v t : table_get k (table_insert k' v t) = if bool_decide (k = k') then Some v else table_get k t.
Proof.
  unfold table_insert. rewrite table_get_app, table_get_remove. simpl.
  case_bool_decide; [done|]. by destruct (table_get k t).
Qed.

Lemma table_get_None k t : table_get k t = None ↔ k ∉ t.*1.
Proof.
  induction t as [|[k' v] t IH]; [split; [intros _; apply not_elem_of_nil|done]|]. simpl.
  rewrite not_elem_of_cons. case_bool_decide; naive_solver.
Qed.

(** The value of a key in merged tables. *)
Definition merged_entry (b r : option Value) : option Value :=
  match b, r with Some b, Some r => Some (merge b r) | _, Some r => Some r | b, None => b end.

Lemma merge_tables_get k base replacement :
  NoDup replacement.*1 →
  table_get k (merge_tables base replacement) = merged_entry (table_get k base) (table_get k replacement).
Proof.
  revert base. induction replacement as [|[k' v] r IH]; intros base Hd; simpl; [by destruct (table_get k base)|].
  apply NoDup_cons in Hd as [Hk Hd]. rewrite IH by done. rewrite table_get_insert, table_get_remove.
  case_bool_decide as E; [subst k'|done].
  rewrite (proj2 (table_get_None k r) Hk). by destruct (table_get k base).
Qed.

Fixpoint get_path (p : list str) (v : Value) : option Value :=
  match p with [] => Some v | k :: p => match get k v with Some v => get_path p v | None => None end end.

Definition is_leaf (v : Value) : bool := match v with VTable _ | VArray _ => false | _ => true end.

(** The value says nothing about a path: following it ends at a table without the next
    key. *)
Fixpoint silent (p : list str) (v : Value) : Prop :=
  match p, v with
  | k :: p, VTable t => match table_get k t with Some v => silent p v | None => True end
  | _, _ => False
  end.

Lemma table_ok_get k kvs v : value_ok (VTable kvs) → table_get k kvs = Some v → value_ok v.
Proof.
  intros [_ Hv]%value_ok_table. induction kvs as [|[k' v'] kvs IH]; [done|]. simpl.
  apply Forall_cons in Hv as [Hv' Hv]. case_bool_decide; [naive_solver|by apply IH].
Qed.

Lemma merge_leaf b v : is_leaf v = true → merge b v = v.
Proof. by destruct b, v. Qed.

Lemma get_merge k b r :
  value_ok r → get k (merge b r) = match b, r with
                                   | VTable b, VTable r => merged_entry (table_get k b) (table_get k r)
                                   | _, _ => get k r
                                   end.
Proof.
  intros Hr. destruct b, r; try done. rewrite merge_table. simpl.
  apply value_ok_table in Hr as [Hd _]. by rewrite merge_tables_get.
Qed.

Lemma merge_path_own p b r v :
  value_ok r → get_path p r = Some v → is_leaf v = true → get_path p (merge b r) = Some v.
Proof.
  revert b r. induction p as [|k p IH]; intros b r Hr E Hl.
  - injection E as ->. simpl. by rewrite merge_leaf.
  - simpl in *. rewrite get_merge by done. destruct (get k r) as [v1|] eqn:Ek; [|done].
    destruct b as [| | | | | |tb], r as [| | | | | |tr]; simpl in *; rewrite ?Ek; try done.
    destruct (table_get k tb); simpl; [|done]. apply IH; [by eapply table_ok_get|done|done].
Qed.

Lemma silent_none p v : silent p v → get_path p v = None.
Proof.
  revert v. induction p as [|k p IH]; intros v Hs; [by destruct v|].
  destruct v; try done. simpl in *. by destruct (table_get k kvs); [apply IH|].
Qed.

Lemma merge_path_base p b r : value_ok r → silent p r → get_path p (merge b r) = get_path p b.
Proof.
  revert b r. induction p as [|k p IH]; intros b r Hr Hs; [by destruct r|].
  destruct r as [| | | | | |tr]; try done. simpl. rewrite get_merge by done. simpl in *.
  destruct b as [| | | | | |tb]; simpl;
    try by destruct (table_get k tr) eqn:E; [apply silent_none|].
  destruct (table_get k tr) as [v|] eqn:E; destruct (table_get k tb) as [w|]; simpl; try done.
  - apply IH; [by eapply table_ok_get|done].
  - by apply silent_none.
Qed.

Lemma merge_path_array p b r ws vs :
  value_ok r → get_path p b = Some (VArray ws) → get_path p r = Some (VArray vs) →
  get_path p (merge b r) = Some (VArray (ws ++ vs)).
Proof.
  revert b r. induction p as [|k p IH]; intros b r Hr Eb Er; [by simplify_eq/=|].
  destruct b as [| | | | | |tb]; try done. destruct r as [| | | | | |tr]; try done. cbn [get_path].
  rewrite get_merge by done. simpl in *. destruct (table_get k tr) as [v|] eqn:E; [|done].
  destruct (table_get k tb) as [w|]; [|done]. apply IH; [by eapply table_ok_get|done|done].
Qed.

(** ** Facts about loading *)

Section facts.
Context {TomlError TomlSeError YamlError : Type}.
Context (read_to_string : Path → IoError + str).
Context (toml_from_str : str → TomlError + Value) (yaml_from_str : str → YamlError + Yaml).
Context (toml_to_string : Yaml → TomlSeError + str) (home_dir : option Path).

#[local] Abbreviation parse := (parse_config read_to_string toml_from_str yaml_from_str toml_to_string home_dir).
#[local] Abbreviation deserialize := (deserialize_config read_to_string toml_from_str yaml_from_str toml_to_string).
#[local] Abbreviation load := (load_imports (TomlError := TomlError) (TomlSeError := TomlSeError)
  (YamlError := YamlError) home_dir).

(** The values of the imports that can be read, in order. *)
Definition loaded_value (r : @Error TomlError TomlSeError YamlError + Value) : option Value :=
  match r with inr v => Some v | inl _ => None end.
Definition imported_values (limit : nat) (config : Value) (path : Path) : list Value :=
  match limit, imports home_dir config path limit with
  | S limit, inr entries =>
      omap (λ e, match e with inr p => loaded_value (parse limit p []).1 | inl _ => None end) entries
  | _, _ => []
  end.

(** A parser whose values do not depend on the paths collected before. *)
Definition oblivious (f : Path → list Path → (@Error TomlError TomlSeError YamlError + Value) * list Path) : Prop :=
  ∀ path paths, f path paths = ((f path []).1, paths ++ (f path []).2).

Lemma load_entries f (entries : list (ImportError + Path)) v0 paths :
  oblivious f →
  ∃ rest, (∀ paths', foldl (λ st import_path,
    match import_path with
    | inl _ => st
    | inr path => match f path st.2 with (inr config, paths) => (merge st.1 config, paths) | (inl _, paths) => (st.1, paths) end
    end) (v0, paths' ++ paths) entries
    = (foldl merge v0 (omap (λ e, match e with inr p => loaded_value (f p []).1 | inl _ => None end) entries),
       paths' ++ rest)).
Proof.
  intros Hf. revert v0 paths. induction entries as [|[e|path] entries IH]; intros v0 paths; simpl.
  - by exists paths.
  - exact (IH v0 paths).
  - destruct (f path []) as [[err|v] more] eqn:E; simpl.
    + destruct (IH v0 (paths ++ more)) as [rest Hr]. exists rest. intros paths'.
      rewrite (Hf path), E. simpl. rewrite <- app_assoc. apply Hr.
    + destruct (IH (merge v0 v) (paths ++ more)) as [rest Hr]. exists rest. intros paths'.
      rewrite (Hf path), E. simpl. rewrite <- app_assoc. apply Hr.
Qed.

Lemma load_imports_values f config path limit :
  oblivious f → ∃ rest, ∀ paths, load f config path paths limit
    = (foldl merge (VTable []) (match imports home_dir config path limit with
        | inr entries => omap (λ e, match e with inr p => loaded_value (f p []).1 | inl _ => None end) entries
        | inl _ => [] end), paths ++ rest).
Proof.
  intros Hf. unfold load_imports. destruct (imports _ _ _ _) as [e|entries].
  - exists []. intros paths. by rewrite app_nil_r.
  - destruct (load_entries f entries (VTable []) [] Hf) as [rest Hr]. exists rest. intros paths.
    rewrite <- (Hr paths). by rewrite app_nil_r.
Qed.

(** What a configuration file is read as. *)
Lemma parse_config_value limit path :
  ∃ rest, ∀ paths, parse limit path paths
    = (match deserialize path with
       | inl e => inl e
       | inr config => inr (merge (foldl merge (VTable []) (imported_values limit config path)) config)
       end, paths ++ path :: rest).
Proof.
  revert path. induction limit as [|limit IH]; intros path; simpl; destruct (deserialize path) as [e|config].
  - by exists [].
  - destruct (imports home_dir config path 0) as [e|entries] eqn:E.
    + exists []. intros paths. unfold load_imports. by rewrite E.
    + exists []. intros paths. unfold load_imports. rewrite E. by apply imports_at_limit in E as ->.
  - by exists [].
  - assert (Hf : oblivious (parse limit)).
    { intros p paths. destruct (IH p) as [rest Hr]. rewrite (Hr paths), (Hr []). done. }
    destruct (load_imports_values (parse limit) config path (S limit) Hf) as [rest Hr].
    exists rest. intros paths. rewrite Hr. simpl. by rewrite <- app_assoc.
Qed.

End facts.

(** ** A file that imports another one, which imports the first *)

Definition demo_path : Path := path_of (ascii "/etc/a.toml").
Definition demo_import : Path := path_of (ascii "/etc/b.toml").
Definition demo_read (p : Path) : IoError + str :=
  if bool_decide (p = demo_path) then inr [1] else if bool_decide (p = demo_import) then inr [2] else inl NotFound.
Definition demo_value (file : string) (n : Z) : Value :=
  VTable [(ascii "import", VArray [VString (ascii file); VString (ascii "missing.toml")]); (ascii "n", VInteger n);
          (ascii file, VBoolean true)].
Definition demo_toml (s : str) : () + Value :=
  match s with [1] => inr (demo_value "b.toml" 1) | [2] => inr (demo_value "./a.toml" 2) | _ => inl () end.
Definition demo_parse : nat → Path → list Path → (@Error () () () + Value) * list Path :=
  parse_config demo_read demo_toml (λ _, inl ()) (λ _, inl ()) None.


(** Files that import each other are read until the depth is exceeded. *)
Example cyclic_imports_end :
  (demo_parse IMPORT_RECURSION_LIMIT demo_path []).2
  = [demo_path; demo_import; demo_path; demo_import; demo_path; demo_import]
    ++ replicate 5 (path_of (ascii "/etc/missing.toml")).
Proof. vm_compute. reflexivity. Qed.

(** ** Facts about YAML *)

Section yaml_rect.
Context (P : Yaml → Prop) (Pnull : P YNull) (Pbool : ∀ b, P (YBool b)) (Pnumber : ∀ z, P (YNumber z)).
Context (Pstring : ∀ s, P (YString s)) (Ptagged : ∀ t y, P (YTagged t y)).
Context (Psequence : ∀ ys, Forall P ys → P (YSequence ys)).
Context (Pmapping : ∀ kvs, Forall (λ kv, P kv.2) kvs → P (YMapping kvs)).
Fixpoint yaml_induction (y : Yaml) : P y :=
  match y with
  | YNull => Pnull
  | YBool b => Pbool b
  | YNumber z => Pnumber z
  | YString s => Pstring s
  | YTagged t y => Ptagged t y
  | YSequence ys =>
      Psequence ys ((fix go ys : Forall P ys :=
        match ys with [] => @Forall_nil_2 _ P | y :: ys => @Forall_cons_2 _ P y ys (yaml_induction y) (go ys) end) ys)
  | YMapping kvs =>
      Pmapping kvs ((fix go kvs : Forall (λ kv, P kv.2) kvs :=
        match kvs with
        | [] => @Forall_nil_2 _ (λ kv, P kv.2)
        | kv :: kvs => @Forall_cons_2 _ (λ kv, P kv.2) kv kvs (yaml_induction kv.2) (go kvs)
        end) kvs)
  end.
End yaml_rect.

Definition kept (y : Yaml) : option Yaml := let '(gone, y) := walk y in if gone then None else Some y.
Definition kept_entry (kv : Yaml * Yaml) : option (Yaml * Yaml) := match kept kv.2 with Some y => Some (kv.1, y) | None => None end.

Lemma walk_sequence ys :
  walk (YSequence ys) = (bool_decide (length (omap kept ys) = 0%nat), YSequence (omap kept ys)).
Proof.
  assert (E : ∀ ys, (fix go ys := match ys with
                              | [] => []
                              | y :: ys => let '(gone, y) := walk y in if (gone : bool) then go ys else y :: go ys
                              end) ys = omap kept ys).
  { clear. induction ys as [|y ys IH]; [done|]. cbn. unfold kept at 1. destruct (walk y) as [[] y']; simpl; by rewrite IH. }
  cbn [walk]. by rewrite E.
Qed.

Lemma walk_mapping kvs :
  walk (YMapping kvs) = (bool_decide (length (omap kept_entry kvs) = 0%nat), YMapping (omap kept_entry kvs)).
Proof.
  assert (E : ∀ kvs, (fix go (kvs : list (Yaml * Yaml)) :=
                    match kvs with
                    | [] => []
                    | (k, y) :: kvs =>
                        let '(gone, y) := walk y in if (gone : bool) then go kvs else (k, y) :: go kvs
                    end) kvs = omap kept_entry kvs).
  { clear. induction kvs as [|[k y] kvs IH]; [done|]. cbn. unfold kept_entry at 1, kept. simpl.
    destruct (walk y) as [[] y']; simpl; by rewrite IH. }
  cbn [walk]. by rewrite E.
Qed.

Lemma kept_walk y gone y' : walk y = (gone, y') → kept y = if gone then None else Some y'.
Proof. unfold kept. by intros ->. Qed.

(** A value without nulls and without empty sequences or mappings, which TOML can
    express.  Tagged values are opaque. *)
Fixpoint dense (y : Yaml) : bool :=
  match y with
  | YNull => false
  | YSequence ys => negb (bool_decide (length ys = 0%nat)) && forallb dense ys
  | YMapping kvs => negb (bool_decide (length kvs = 0%nat)) && forallb (λ kv, dense kv.2) kvs
  | _ => true
  end.

Lemma kept_dense y y' : kept y = Some y' → dense y' = true.
Proof.
  revert y'. induction y as [|b|z|s|t y|ys IH|kvs IH] using yaml_induction; intros y' E; try done; try by injection E as <-.
  - rewrite (kept_walk _ _ _ (walk_sequence ys)) in E. case_bool_decide as Hl; [done|]. injection E as <-. simpl.
    rewrite bool_decide_false by done. simpl. apply forallb_forall. intros y' Hy%list_elem_of_In.
    apply list_elem_of_omap in Hy as (y & Hy & E). rewrite Forall_forall in IH. by eapply IH.
  - rewrite (kept_walk _ _ _ (walk_mapping kvs)) in E. case_bool_decide as Hl; [done|]. injection E as <-. simpl.
    rewrite bool_decide_false by done. simpl. apply forallb_forall. intros kv Hy%list_elem_of_In.
    apply list_elem_of_omap in Hy as ([k y] & Hy & E). unfold kept_entry in E. simpl in E.
    destruct (kept y) as [y'|] eqn:Ek; [|done]. injection E as <-. rewrite Forall_forall in IH. by eapply (IH (k, y)).
Qed.

Lemma dense_kept y : dense y = true → kept y = Some y.
Proof.
  induction y as [|b|z|s|t y|ys IH|kvs IH] using yaml_induction; intros Hd; try done.
  - rewrite (kept_walk _ _ _ (walk_sequence ys)). simpl in Hd. apply andb_true_iff in Hd as [Hl Hd].
    assert (E : omap kept ys = ys).
    { rewrite forallb_forall in Hd. clear Hl. induction IH as [|y ys Hy _ IH']; [done|]. simpl.
      rewrite Hy by (apply Hd; by left). f_equal. apply IH'. intros x Hx. apply Hd. by right. }
    rewrite E. by destruct (bool_decide _).
  - rewrite (kept_walk _ _ _ (walk_mapping kvs)). simpl in Hd. apply andb_true_iff in Hd as [Hl Hd].
    assert (E : omap kept_entry kvs = kvs).
    { rewrite forallb_forall in Hd. clear Hl. induction IH as [|[k y] kvs Hy _ IH']; [done|]. simpl. unfold kept_entry at 1.
      simpl in *. rewrite Hy by (apply (Hd (k, y)); by left). f_equal. apply IH'. intros x Hx. apply Hd. by right. }
    rewrite E. by destruct (bool_decide _).
Qed.

(** A YAML configuration is pruned to what TOML can express and nothing more: the
    result has no null and, except for an empty configuration as a whole, no empty
    sequence or mapping at any depth; a configuration that already is like this is not
    changed, and pruning twice is pruning once. *)
Theorem prune_yaml_dense (y : Yaml) :
  (dense (prune_yaml_nulls y) = true ∨ prune_yaml_nulls y = YMapping []) ∧
  (dense y = true → prune_yaml_nulls y = y) ∧
  prune_yaml_nulls (prune_yaml_nulls y) = prune_yaml_nulls y.
Proof.
  assert (E : ∀ y, prune_yaml_nulls y = default (YMapping []) (kept y)).
  { intros y'. unfold prune_yaml_nulls, kept. by destruct (walk y') as [[] ?]. }
  assert (D : dense (prune_yaml_nulls y) = true ∨ prune_yaml_nulls y = YMapping []).
  { rewrite E. destruct (kept y) eqn:Ek; [left; by eapply kept_dense|by right]. }
  split; [done|]. split; [intros Hd; by rewrite E, (dense_kept y Hd)|].
  destruct D as [D| ->]; [|done]. by rewrite (E (prune_yaml_nulls y)), (dense_kept _ D).
Qed.

Lemma prune_yaml_dense_witness :
  prune_yaml_nulls (YMapping [(YString [97], YNull); (YString [98], YSequence [YNull; YBool true])])
  = YMapping [(YString [98], YSequence [YBool true])] ∧
  dense (prune_yaml_nulls (YMapping [(YString [97], YNull); (YString [98], YSequence [YNull; YBool true])])) = true.
Proof.
  split; [reflexivity|].
  destruct (prune_yaml_dense (YMapping [(YString [97], YNull); (YString [98], YSequence [YNull; YBool true])]))
    as ([D|D] & _); [exact D|vm_compute in D; discriminate D].
Defined.
End ConfigFiles.
