(* ===== verification/BindingConfig.v ===== *)
(** * Bindings in configuration files (alacritty/src/config/bindings.rs)

    How a table of the configuration becomes a binding: its fields, the names of keys,
    mouse buttons, modes, modifiers and actions, and the errors.  The names of keys that
    winit reads, the codes of physical keys and the commands that serde reads are
    parameters, as is [str::to_lowercase]. *)

From S2P Require Import Prelude Decimal Index Ansi Term Search RegexSearch ViMode Hints Keyboard.
From S2P Require Import ActionContext Bindings ConfigFiles.
#[local] Open Scope Z_scope.

Module BindingConfig.
Import Keyboard ActionContext Bindings ConfigFiles.

Inductive Field := FKey | FMods | FMode | FAction | FChars | FMouse | FCommand.
#[global] Instance Field_eq_dec : EqDecision Field.
Proof. solve_decision. Defined.

Inductive BindError :=
  | UnknownField (s : str)
  | DuplicateField (f : Field)
  | InvalidType
  | InvalidValue (s : str)
  | InvalidNumber (z : Z)
  | ScancodeTooBig (z : Z)
  | UnknownKey (s : str)
  | UnknownAction (s : str)
  | OnlyForMouse
  | ExactlyOneAction
  | NoTrigger
  | ExpectedMouse
  | ExpectedKey.

(** [ModeWrapper] and [RawBinding]. *)
Record ModeWrapper := mkModeWrapper { mw_mode : Z; mw_not_mode : Z }.
Record RawBinding := mkRaw {
  raw_key : option BindingKey;
  raw_mouse : option MouseEvent;
  raw_mods : ModifiersState;
  raw_mode : Z;
  raw_notmode : Z;
  raw_action : Action }.

(** ** Names *)

#[local] Open Scope string_scope.

(** The first entry whose name equals the text. *)
Fixpoint named {A} (table : list (string * A)) (s : str) : option A :=
  match table with
  | [] => None
  | (n, a) :: table => if bool_decide (s = ascii n) then Some a else named table s
  end.

Definition char_key (s : string) : Key := Character (ascii s).

Definition legacy_keys : list (string * (Key * BindingLocation)) :=
  [("Back", (Named Backspace, BindAny)); ("Up", (Named ArrowUp, BindAny));
   ("Down", (Named ArrowDown, BindAny)); ("Left", (Named ArrowLeft, BindAny));
   ("Right", (Named ArrowRight, BindAny)); ("At", (char_key "@", BindAny));
   ("Colon", (char_key ":", BindAny)); ("Period", (char_key ".", BindAny));
   ("LBracket", (char_key "[", BindAny)); ("RBracket", (char_key "]", BindAny));
   ("Semicolon", (char_key ";", BindAny)); ("Backslash", (char_key "\", BindAny));
   ("Enter", (Named Enter, BindStandard)); ("Return", (Named Enter, BindStandard));
   ("Plus", (char_key "+", BindStandard)); ("Comma", (char_key ",", BindStandard));
   ("Slash", (char_key "/", BindStandard)); ("Equals", (char_key "=", BindStandard));
   ("Minus", (char_key "-", BindStandard)); ("Asterisk", (char_key "*", BindStandard));
   ("Key1", (char_key "1", BindStandard)); ("Key2", (char_key "2", BindStandard));
   ("Key3", (char_key "3", BindStandard)); ("Key4", (char_key "4", BindStandard));
   ("Key5", (char_key "5", BindStandard)); ("Key6", (char_key "6", BindStandard));
   ("Key7", (char_key "7", BindStandard)); ("Key8", (char_key "8", BindStandard));
   ("Key9", (char_key "9", BindStandard)); ("Key0", (char_key "0", BindStandard));
   ("NumpadEnter", (Named Enter, BindNumpad)); ("NumpadAdd", (char_key "+", BindNumpad));
   ("NumpadComma", (char_key ",", BindNumpad)); ("NumpadDecimal", (char_key ".", BindNumpad));
   ("NumpadDivide", (char_key "/", BindNumpad)); ("NumpadEquals", (char_key "=", BindNumpad));
   ("NumpadSubtract", (char_key "-", BindNumpad)); ("NumpadMultiply", (char_key "*", BindNumpad));
   ("Numpad1", (char_key "1", BindNumpad)); ("Numpad2", (char_key "2", BindNumpad));
   ("Numpad3", (char_key "3", BindNumpad)); ("Numpad4", (char_key "4", BindNumpad));
   ("Numpad5", (char_key "5", BindNumpad)); ("Numpad6", (char_key "6", BindNumpad));
   ("Numpad7", (char_key "7", BindNumpad)); ("Numpad8", (char_key "8", BindNumpad));
   ("Numpad9", (char_key "9", BindNumpad)); ("Numpad0", (char_key "0", BindNumpad))].

Definition mode_names : list (string * (bool * Z)) :=
  [("appcursor", (true, BindingMode.APP_CURSOR)); ("~appcursor", (false, BindingMode.APP_CURSOR));
   ("appkeypad", (true, BindingMode.APP_KEYPAD)); ("~appkeypad", (false, BindingMode.APP_KEYPAD));
   ("alt", (true, BindingMode.ALT_SCREEN)); ("~alt", (false, BindingMode.ALT_SCREEN));
   ("vi", (true, BindingMode.VI)); ("~vi", (false, BindingMode.VI));
   ("search", (true, BindingMode.SEARCH)); ("~search", (false, BindingMode.SEARCH))].

Definition mod_names : list (string * ModifiersState) :=
  [("command", mkMods false false false true); ("super", mkMods false false false true);
   ("shift", mkMods true false false false); ("alt", mkMods false false true false);
   ("option", mkMods false false true false); ("control", mkMods false true false false);
   ("none", mods_empty)].

Definition mouse_names : list (string * MouseEvent) :=
  [("Left", Button MouseLeft); ("Right", Button MouseRight); ("Middle", Button MouseMiddle);
   ("Back", Button MouseBack); ("Forward", Button MouseForward);
   ("WheelUp", WheelUp); ("WheelDown", WheelDown)].

Definition field_names : list (string * Field) :=
  [("key", FKey); ("mods", FMods); ("mode", FMode); ("action", FAction); ("chars", FChars);
   ("mouse", FMouse); ("command", FCommand)].

(** The variants of the enums of actions, in the order of the source. *)
Definition vi_actions : list (string * Action) :=
  [("ToggleNormalSelection", Vi ToggleNormalSelection); ("ToggleLineSelection", Vi ToggleLineSelection);
   ("ToggleBlockSelection", Vi ToggleBlockSelection); ("ToggleSemanticSelection", Vi ToggleSemanticSelection);
   ("SearchNext", Vi SearchNext); ("SearchPrevious", Vi SearchPrevious); ("SearchStart", Vi SearchStart);
   ("SearchEnd", Vi SearchEnd); ("Open", Vi Open); ("CenterAroundViCursor", Vi CenterAroundViCursor);
   ("InlineSearchForward", Vi InlineSearchForward); ("InlineSearchBackward", Vi InlineSearchBackward);
   ("InlineSearchForwardShort", Vi InlineSearchForwardShort);
   ("InlineSearchBackwardShort", Vi InlineSearchBackwardShort); ("InlineSearchNext", Vi InlineSearchNext);
   ("InlineSearchPrevious", Vi InlineSearchPrevious); ("SemanticSearchForward", Vi SemanticSearchForward);
   ("SemanticSearchBackward", Vi SemanticSearchBackward)].

Definition vi_motions : list (string * Action) :=
  [("Up", Motion ViUp); ("Down", Motion ViDown); ("Left", Motion ViLeft); ("Right", Motion ViRight);
   ("First", Motion ViFirst); ("Last", Motion ViLast); ("FirstOccupied", Motion ViFirstOccupied);
   ("High", Motion ViHigh); ("Middle", Motion ViMiddle); ("Low", Motion ViLow);
   ("SemanticLeft", Motion SemanticLeft); ("SemanticRight", Motion SemanticRight);
   ("SemanticLeftEnd", Motion SemanticLeftEnd); ("SemanticRightEnd", Motion SemanticRightEnd);
   ("WordLeft", Motion WordLeft); ("WordRight", Motion WordRight); ("WordLeftEnd", Motion WordLeftEnd);
   ("WordRightEnd", Motion WordRightEnd); ("Bracket", Motion Bracket); ("ParagraphUp", Motion ParagraphUp);
   ("ParagraphDown", Motion ParagraphDown)].

Definition search_actions : list (string * Action) :=
  [("SearchFocusNext", SearchAct SearchFocusNext); ("SearchFocusPrevious", SearchAct SearchFocusPrevious);
   ("SearchConfirm", SearchAct SearchConfirm); ("SearchCancel", SearchAct SearchCancel);
   ("SearchClear", SearchAct SearchClear); ("SearchDeleteWord", SearchAct SearchDeleteWord);
   ("SearchHistoryPrevious", SearchAct SearchHistoryPrevious);
   ("SearchHistoryNext", SearchAct SearchHistoryNext)].

Definition mouse_actions : list (string * Action) := [("ExpandSelection", ExpandSelection)].

Definition actions : list (string * Action) :=
  [("Paste", Paste); ("Copy", Copy); ("CopySelection", CopySelection); ("PasteSelection", PasteSelection);
   ("IncreaseFontSize", IncreaseFontSize); ("DecreaseFontSize", DecreaseFontSize);
   ("ResetFontSize", ResetFontSize); ("ScrollPageUp", ScrollPageUp); ("ScrollPageDown", ScrollPageDown);
   ("ScrollHalfPageUp", ScrollHalfPageUp); ("ScrollHalfPageDown", ScrollHalfPageDown);
   ("ScrollLineUp", ScrollLineUp); ("ScrollLineDown", ScrollLineDown); ("ScrollToTop", ScrollToTop);
   ("ScrollToBottom", ScrollToBottom); ("ClearHistory", ClearHistory); ("Hide", Hide);
   ("HideOtherApplications", HideOtherApplications); ("Minimize", Minimize); ("Quit", Quit);
   ("ClearLogNotice", ClearLogNotice); ("SpawnNewInstance", SpawnNewInstance);
   ("SelectNextTab", SelectNextTab); ("SelectPreviousTab", SelectPreviousTab); ("SelectTab1", SelectTab1);
   ("SelectTab2", SelectTab2); ("SelectTab3", SelectTab3); ("SelectTab4", SelectTab4);
   ("SelectTab5", SelectTab5); ("SelectTab6", SelectTab6); ("SelectTab7", SelectTab7);
   ("SelectTab8", SelectTab8); ("SelectTab9", SelectTab9); ("SelectLastTab", SelectLastTab);
   ("CreateNewWindow", CreateNewWindow); ("CreateNewTab", CreateNewTab);
   ("ToggleFullscreen", ToggleFullscreen); ("ToggleMaximized", ToggleMaximized);
   ("ToggleSimpleFullscreen", ToggleSimpleFullscreen); ("ClearSelection", ClearSelection);
   ("ToggleViMode", ToggleViMode); ("ReceiveChar", ReceiveChar); ("SearchForward", SearchForward);
   ("SearchBackward", SearchBackward); ("None", NoAction)].

#[local] Open Scope Z_scope.

Definition ascii_lower (c : Z) : Z := if (65 <=? c) && (c <=? 90) then c + 32 else c.

(** ** Deserialisation *)

Section parse.
Context (str_to_lowercase : str → str).
(** [PhysicalKey::from_scancode], the keys that winit reads and the commands that serde
    reads. *)
Context (from_scancode : Z → Z) (named_key : str → option NamedKey) (dead_key : str → option Key).
Context (program_of : Value → option (str * list str)).

(** The code that [derive(ConfigDeserialize)] creates for an enum: names match in any
    case. *)
Definition derive_enum {A} (variants : list (string * A)) (v : Value) : option A :=
  match v with
  | VString s =>
      match list_find (λ na : string * A, str_to_lowercase s = str_to_lowercase (ascii na.1)) variants with
      | Some (_, (_, a)) => Some a
      | None => None
      end
  | _ => None
  end.

Definition binding_key_of (v : Value) : BindError + BindingKey :=
  match v with
  | VString keycode =>
      if bool_decide (length keycode = 1%nat) then inr (Keycode (Character (str_to_lowercase keycode)) BindAny)
      else match named legacy_keys keycode with
           | Some (key, location) => inr (Keycode key location)
           | None =>
               if bool_decide (take 4 keycode = ascii "Dead") then
                 match dead_key keycode with Some key => inr (Keycode key BindAny) | None => inl (UnknownKey keycode) end
               else
                 match named_key keycode with
                 | Some key => inr (Keycode (Named key) BindAny)
                 | None => inl (UnknownKey keycode)
                 end
           end
  | VInteger scancode =>
      if (0 <=? scancode) && (scancode <=? 4294967295) then inr (Scancode (from_scancode scancode))
      else inl InvalidType
  | _ => inl InvalidType
  end.

(** The value of the field [key]: numbers are scancodes. *)
Definition key_of (v : Value) : BindError + BindingKey :=
  match v with
  | VInteger scancode =>
      if (0 <=? scancode) && (scancode <=? 4294967295) then inr (Scancode (from_scancode scancode))
      else inl (ScancodeTooBig scancode)
  | _ => binding_key_of v
  end.

Definition add_mode (m : bool * Z) (res : ModeWrapper) : ModeWrapper :=
  if m.1 then mkModeWrapper (Z.lor (mw_mode res) m.2) (mw_not_mode res)
  else mkModeWrapper (mw_mode res) (Z.lor (mw_not_mode res) m.2).

Fixpoint modes_of (parts : list str) (res : ModeWrapper) : BindError + ModeWrapper :=
  match parts with
  | [] => inr res
  | part :: parts =>
      match named mode_names (str_to_lowercase (trim part)) with
      | Some m => modes_of parts (add_mode m res)
      | None => inl (InvalidValue part)
      end
  end.

Definition mode_of (v : Value) : BindError + ModeWrapper :=
  match v with VString s => modes_of (split_on 124 s) (mkModeWrapper 0 0) | _ => inl InvalidType end.

Definition mods_union (a b : ModifiersState) : ModifiersState :=
  mkMods (shift_key a || shift_key b) (control_key a || control_key b) (alt_key a || alt_key b)
    (super_key a || super_key b).

Fixpoint all_mods_of (parts : list str) (res : ModifiersState) : BindError + ModifiersState :=
  match parts with
  | [] => inr res
  | part :: parts =>
      match named mod_names (str_to_lowercase (trim part)) with
      | Some m => all_mods_of parts (mods_union res m)
      | None => inl (InvalidValue part)
      end
  end.

Definition mods_of (v : Value) : BindError + ModifiersState :=
  match v with VString s => all_mods_of (split_on 124 s) mods_empty | _ => inl InvalidType end.

(** Numbers are cast to [u16]. *)
Definition mouse_event_of (v : Value) : BindError + MouseEvent :=
  match v with
  | VInteger value =>
      if (0 <=? value) && (value <=? 65536) then inr (Button (MouseOther (value mod 65536)))
      else inl (InvalidNumber value)
  | VString s => match named mouse_names s with Some e => inr e | None => inl (InvalidValue s) end
  | _ => inl InvalidType
  end.

(** The enums of actions are tried in turn. *)
Definition action_of (v : Value) : BindError + Action :=
  match derive_enum vi_actions v with
  | Some a => inr a
  | None =>
      match derive_enum vi_motions v with
      | Some a => inr a
      | None =>
          match derive_enum search_actions v with
          | Some a => inr a
          | None =>
              match derive_enum mouse_actions v with
              | Some a => inr a
              | None =>
                  match derive_enum actions v with
                  | Some a => inr a
                  | None => match v with VString s => inl (UnknownAction s) | _ => inl InvalidType end
                  end
              end
          end
      end
  end.

Definition string_of (v : Value) : BindError + str := match v with VString s => inr s | _ => inl InvalidType end.
Definition command_of (v : Value) : BindError + (str * list str) :=
  match program_of v with Some p => inr p | None => inl InvalidType end.

Definition field_of (s : str) : BindError + Field :=
  match named field_names (ascii_lower <$> s) with Some f => inr f | None => inl (UnknownField s) end.

(** ** A binding *)

(** The variables of [visit_map]. *)
Record Fields := mkFields {
  f_mods : option ModifiersState;
  f_key : option BindingKey;
  f_chars : option str;
  f_action : option Action;
  f_mode : option ModeWrapper;
  f_mouse : option MouseEvent;
  f_command : option (str * list str) }.
Definition no_fields : Fields := mkFields None None None None None None None.

(** A field may be set once. *)
Definition set_once {A} (f : Field) (old : option A) (value : BindError + A) (set : A → Fields) : BindError + Fields :=
  match old with
  | Some _ => inl (DuplicateField f)
  | None => match value with inl e => inl e | inr a => inr (set a) end
  end.

Definition set_field (fs : Fields) (f : Field) (v : Value) : BindError + Fields :=
  let '(mkFields mods key chars action mode mouse command) := fs in
  match f with
  | FKey => set_once f key (key_of v) (λ a, mkFields mods (Some a) chars action mode mouse command)
  | FMods => set_once f mods (mods_of v) (λ a, mkFields (Some a) key chars action mode mouse command)
  | FMode => set_once f mode (mode_of v) (λ a, mkFields mods key chars action (Some a) mouse command)
  | FAction => set_once f action (action_of v) (λ a, mkFields mods key chars (Some a) mode mouse command)
  | FChars => set_once f chars (string_of v) (λ a, mkFields mods key (Some a) action mode mouse command)
  | FMouse => set_once f mouse (mouse_event_of v) (λ a, mkFields mods key chars action mode (Some a) command)
  | FCommand => set_once f command (command_of v) (λ a, mkFields mods key chars action mode mouse (Some a))
  end.

Fixpoint set_fields (fs : Fields) (map : Table) : BindError + Fields :=
  match map with
  | [] => inr fs
  | (k, v) :: map =>
      match field_of k with
      | inl e => inl e
      | inr f => match set_field fs f v with inl e => inl e | inr fs => set_fields fs map end
      end
  end.

Definition chosen_action (fs : Fields) : BindError + Action :=
  match f_action fs, f_chars fs, f_command fs with
  | Some ExpandSelection, None, None =>
      if bool_decide (f_mouse fs = None) then inl OnlyForMouse else inr ExpandSelection
  | Some action, None, None => inr action
  | None, Some chars, None => inr (Esc chars)
  | None, None, Some (program, args) => inr (Command program args)
  | _, _, _ => inl ExactlyOneAction
  end.

(** [visit_map] on the variables. *)
Definition finish (fs : Fields) : BindError + RawBinding :=
  let mode := default (mkModeWrapper 0 0) (f_mode fs) in
  match chosen_action fs with
  | inl e => inl e
  | inr action =>
      match f_mouse fs, f_key fs with
      | None, None => inl NoTrigger
      | mouse, key =>
          inr (mkRaw key mouse (default mods_empty (f_mods fs)) (mw_mode mode) (mw_not_mode mode) action)
      end
  end.

Definition raw_binding (v : Value) : BindError + RawBinding :=
  match v with
  | VTable map => match set_fields no_fields map with inl e => inl e | inr fs => finish fs end
  | _ => inl InvalidType
  end.

Definition into_mouse_binding (raw : RawBinding) : option (Binding MouseEvent) :=
  match raw_mouse raw with
  | Some mouse => Some (mkBinding (raw_mods raw) (raw_action raw) (raw_mode raw) (raw_notmode raw) mouse)
  | None => None
  end.
Definition into_key_binding (raw : RawBinding) : option (Binding BindingKey) :=
  match raw_key raw with
  | Some key => Some (mkBinding (raw_mods raw) (raw_action raw) (raw_mode raw) (raw_notmode raw) key)
  | None => None
  end.

Definition mouse_binding (v : Value) : BindError + Binding MouseEvent :=
  match raw_binding v with
  | inl e => inl e
  | inr raw => match into_mouse_binding raw with Some b => inr b | None => inl ExpectedMouse end
  end.
Definition key_binding_of (v : Value) : BindError + Binding BindingKey :=
  match raw_binding v with
  | inl e => inl e
  | inr raw => match into_key_binding raw with Some b => inr b | None => inl ExpectedKey end
  end.

(** [deserialize_bindings]: values that are no bindings are skipped. *)
Definition deserialize_bindings {T} `{Trigger T} (parse : Value → BindError + Binding T) (v : Value)
    (defaults : list (Binding T)) : option (list (Binding T)) :=
  match v with
  | VArray values =>
      Some (merge_bindings (omap (λ v, match parse v with inr b => Some b | inl _ => None end) values) defaults)
  | _ => None
  end.

(** ** Facts *)

(** The value of a field, under any spelling of its name. *)
Definition is_field (f : Field) (k : str) : bool := bool_decide (named field_names (ascii_lower <$> k) = Some f).
Fixpoint field_value (f : Field) (map : Table) : option Value :=
  match map with [] => None | (k, v) :: map => if is_field f k then Some v else field_value f map end.
Definition parsed {A} (parse : Value → BindError + A) (f : Field) (map : Table) : option A :=
  match field_value f map with
  | Some v => match parse v with inr a => Some a | inl _ => None end
  | None => None
  end.

Lemma set_once_inr {A} f (old : option A) value set fs :
  set_once f old value set = inr fs → old = None ∧ ∃ a, value = inr a ∧ fs = set a.
Proof. unfold set_once. destruct old; [done|]. destruct value as [|a]; [done|]. naive_solver. Qed.

(** Two fields that can be set one after the other can be set in the other order. *)
Lemma set_field_swap fs f1 v1 f2 v2 fs1 fs2 :
  set_field fs f1 v1 = inr fs1 → set_field fs1 f2 v2 = inr fs2 →
  ∃ fs1', set_field fs f2 v2 = inr fs1' ∧ set_field fs1' f1 v1 = inr fs2.
Proof.
  destruct fs as [mods key chars action mode mouse command]. intros E1 E2.
  destruct f1; apply set_once_inr in E1 as (E1 & a & Ea & ->); destruct f2; cbn [set_field] in E2;
    apply set_once_inr in E2 as (E2 & b & Eb & ->); try done; subst;
    unfold set_field, set_once; rewrite ?Ea, ?Eb; by eexists.
Qed.

Lemma set_fields_perm map map' fs fs' :
  map ≡ₚ map' → set_fields fs map = inr fs' → set_fields fs map' = inr fs'.
Proof.
  intros Hp. revert fs fs'. induction Hp as [|[k v] map map' Hp IH|[k1 v1] [k2 v2] map|m1 m2 m3 H1 IH1 H2 IH2];
    intros fs fs' E.
  - done.
  - simpl in *. destruct (field_of k) as [|f]; [done|]. destruct (set_field fs f v); [done|]. by apply IH.
  - simpl in *. destruct (field_of k2) as [|f2] eqn:Ef2; [done|]. destruct (set_field fs f2 v2) as [|fs1] eqn:E2; [done|].
    destruct (field_of k1) as [|f1]; [done|]. destruct (set_field fs1 f1 v1) as [|fs2] eqn:E1; [done|].
    destruct (set_field_swap _ _ _ _ _ _ _ E2 E1) as (fs1' & -> & E3). by rewrite E3.
  - by apply IH2, IH1.
Qed.

(** What the variables hold behind the loop: what they held before, or the parsed value
    of their field. *)
Definition from_field {A} (parse : Value → BindError + A) (f : Field) (map : Table) (old new : option A) : Prop :=
  new = match old with Some a => Some a | None => parsed parse f map end ∧
  (is_Some old → field_value f map = None) ∧ (field_value f map ≠ None → is_Some new).
Definition from_fields (fs : Fields) (map : Table) (fs' : Fields) : Prop :=
  from_field mods_of FMods map (f_mods fs) (f_mods fs') ∧ from_field key_of FKey map (f_key fs) (f_key fs') ∧
  from_field string_of FChars map (f_chars fs) (f_chars fs') ∧
  from_field action_of FAction map (f_action fs) (f_action fs') ∧
  from_field mode_of FMode map (f_mode fs) (f_mode fs') ∧
  from_field mouse_event_of FMouse map (f_mouse fs) (f_mouse fs') ∧
  from_field command_of FCommand map (f_command fs) (f_command fs').

Lemma field_of_is k f : field_of k = inr f → ∀ g, is_field g k = bool_decide (g = f).
Proof.
  unfold field_of, is_field. destruct (named _ _) as [f'|]; [|done]. intros [= ->] g.
  apply bool_decide_ext. naive_solver.
Qed.

Lemma from_field_other {A} (parse : Value → BindError + A) f k v map old new :
  is_field f k = false → from_field parse f map old new → from_field parse f ((k, v) :: map) old new.
Proof. unfold from_field, parsed. simpl. by intros ->. Qed.

Lemma from_field_here {A} (parse : Value → BindError + A) f k v map a new :
  is_field f k = true → parse v = inr a → from_field parse f map (Some a) new →
  from_field parse f ((k, v) :: map) None new.
Proof.
  unfold from_field, parsed. simpl. intros -> -> (-> & Hn & _). split; [done|]. split; [by intros [? [=]]|]. by eexists.
Qed.

Lemma set_fields_spec map fs fs' : set_fields fs map = inr fs' → from_fields fs map fs'.
Proof.
  revert fs. induction map as [|[k v] map IH]; intros fs E.
  - simpl in E. injection E as ->. unfold from_fields, from_field, parsed. simpl.
    split_and!; try done; by destruct fs' as [[] [] [] [] [] [] []].
  - simpl in E. destruct (field_of k) as [|f] eqn:Ef; [done|]. pose proof (field_of_is k f Ef) as Hf.
    destruct (set_field fs f v) as [|fs1] eqn:E1; [done|]. apply IH in E as (? & ? & ? & ? & ? & ? & ?).
    destruct fs as [mods key chars action mode mouse command].
    destruct f; cbn [set_field] in E1; apply set_once_inr in E1 as (-> & a & Ea & ->); simpl in *;
      split_and!; simpl;
      first [by eapply from_field_other; [by rewrite Hf|] | by eapply from_field_here; [by rewrite Hf|..]].
Qed.

(** A field that is given was parsed. *)
Lemma from_field_none {A} (parse : Value → BindError + A) f map new :
  from_field parse f map None new →
  match field_value f map with Some v => ∃ a, parse v = inr a ∧ new = Some a | None => new = None end.
Proof.
  unfold from_field, parsed. destruct (field_value f map) as [v|]; intros (-> & _ & Hs); [|done].
  destruct (parse v) as [|a]; [by destruct Hs|by exists a].
Qed.

Lemma chosen_action_inr fs action map :
  from_field action_of FAction map None (f_action fs) → from_field string_of FChars map None (f_chars fs) →
  from_field command_of FCommand map None (f_command fs) → chosen_action fs = inr action →
  match field_value FAction map, field_value FChars map, field_value FCommand map with
  | Some v, None, None => action_of v = inr action
  | None, Some v, None => ∃ chars, v = VString chars ∧ action = Esc chars
  | None, None, Some v => ∃ program args, program_of v = Some (program, args) ∧ action = Command program args
  | _, _, _ => False
  end.
Proof.
  intros Ha%from_field_none Hc%from_field_none Hd%from_field_none E. unfold chosen_action in E.
  destruct (field_value FAction map) as [va|]; [destruct Ha as (a & Ea & Ha)|];
    destruct (field_value FChars map) as [vc|]; try destruct Hc as (chars & Ec & Hc);
    destruct (field_value FCommand map) as [vd|]; try destruct Hd as ([program args] & Ed & Hd);
    rewrite ?Ha, ?Hc, ?Hd in E; try done; try by destruct a.
  - rewrite Ea. f_equal. destruct a; try congruence. by destruct (bool_decide _); simplify_eq.
  - destruct vc; try done. unfold string_of in Ec. exists s. naive_solver.
  - unfold command_of in Ed. destruct (program_of vd) as [p|]; [|done]. exists program, args. naive_solver.
Qed.

(** A binding means the same whatever the order of its fields: if a table of the
    configuration is read as a binding, then so is every reordering, as the same one;
    its key, mouse button, modifiers and modes are the parsed values of their fields,
    in any spelling of the names, or the default ones; and it has exactly one of an
    action, characters and a command. *)
Lemma binding_fields (map : Table) (raw : RawBinding) :
  raw_binding (VTable map) = inr raw →
  (∀ map', map ≡ₚ map' → raw_binding (VTable map') = inr raw) ∧
  raw_key raw = parsed key_of FKey map ∧ raw_mouse raw = parsed mouse_event_of FMouse map ∧
  (raw_key raw ≠ None ∨ raw_mouse raw ≠ None) ∧
  raw_mods raw = default mods_empty (parsed mods_of FMods map) ∧
  mkModeWrapper (raw_mode raw) (raw_notmode raw) = default (mkModeWrapper 0 0) (parsed mode_of FMode map) ∧
  match field_value FAction map, field_value FChars map, field_value FCommand map with
  | Some v, None, None => action_of v = inr (raw_action raw)
  | None, Some v, None => ∃ chars, v = VString chars ∧ raw_action raw = Esc chars
  | None, None, Some v => ∃ program args, program_of v = Some (program, args) ∧ raw_action raw = Command program args
  | _, _, _ => False
  end.
Proof.
  intros E. unfold raw_binding in E. destruct (set_fields no_fields map) as [|fs] eqn:Es; [done|].
  split; [intros map' Hp; unfold raw_binding; by rewrite (set_fields_perm _ _ _ _ Hp Es)|].
  apply set_fields_spec in Es as ((Em & _) & (Ek & _) & (Ec & _ & Hc) & (Ea & _ & Ha) & (Eo & _) & (Eb & _) & (Ed & _ & Hd)).
  simpl in *. unfold finish in E. destruct (chosen_action fs) as [|action] eqn:Ech; [done|].
  assert (Er : raw = mkRaw (f_key fs) (f_mouse fs) (default mods_empty (f_mods fs))
    (mw_mode (default (mkModeWrapper 0 0) (f_mode fs))) (mw_not_mode (default (mkModeWrapper 0 0) (f_mode fs))) action ∧
    (f_key fs ≠ None ∨ f_mouse fs ≠ None)).
  { destruct (f_mouse fs), (f_key fs); simplify_eq; naive_solver. }
  clear E. destruct Er as [-> Ht]. simpl. rewrite <- Ek, <- Eb, <- Em, <- Eo. split_and!; try done.
  { by destruct (default _ (f_mode fs)). }
  apply (chosen_action_inr fs action map); try done; by split.
Qed.

(** ** Names of actions *)

Definition all_actions : list (string * Action) :=
  vi_actions ++ vi_motions ++ search_actions ++ mouse_actions ++ actions.

Lemma derive_enum_app {A} (l k : list (string * A)) (v : Value) :
  derive_enum (l ++ k) v = match derive_enum l v with Some a => Some a | None => derive_enum k v end.
Proof.
  destruct v; try done. simpl. destruct (list_find _ l) as [[i [n a]]|] eqn:E.
  - by rewrite (list_find_app_l _ _ k _ _ E).
  - rewrite list_find_app_r by done. by destruct (list_find _ k) as [[i [n a]]|].
Qed.

Lemma action_of_enum (s : str) :
  action_of (VString s) = match derive_enum all_actions (VString s) with
                          | Some a => inr a
                          | None => inl (UnknownAction s)
                          end.
Proof.
  unfold action_of, all_actions. rewrite !derive_enum_app.
  repeat (destruct (derive_enum _ (VString s)); [done|]). done.
Qed.

(** [to_lowercase] on ASCII text. *)
Context (lower_ascii : ∀ s, Forall (λ c, 0 ≤ c < 128) s → str_to_lowercase s = ascii_lower <$> s).

Lemma all_actions_distinct : NoDup ((λ na, str_to_lowercase (ascii na.1)) <$> all_actions).
Proof using lower_ascii.
  assert (E : ((λ na, str_to_lowercase (ascii na.1)) <$> all_actions)
    = (λ na : string * Action, ascii_lower <$> ascii na.1) <$> all_actions).
  { apply list_fmap_ext. intros i [n a] Hn. apply lower_ascii.
    assert (G : forallb (λ na : string * Action, forallb (λ c, (0 <=? c) && (c <? 128)) (ascii na.1)) all_actions = true)
      by (vm_compute; reflexivity).
    rewrite forallb_forall in G. specialize (G (n, a) (proj1 (list_elem_of_In _ _) (list_elem_of_lookup_2 _ _ _ Hn))).
    rewrite Forall_forall. intros c Hc. rewrite forallb_forall in G. apply list_elem_of_In in Hc. specialize (G c Hc). lia. }
  rewrite E. apply (bool_decide_unpack _). vm_compute. exact I.
Qed.

(** The actions that have no name: characters, commands and hints have fields of their
    own. *)
Definition unnamed (a : Action) : bool := match a with Esc _ | Command _ _ | StartHint _ => true | _ => false end.

(** Every action can be configured by its name in any case, and no name is hidden by
    one of another kind of action. *)
Lemma action_names_parse :
  (∀ n a s, (n, a) ∈ all_actions → str_to_lowercase s = str_to_lowercase (ascii n) → action_of (VString s) = inr a) ∧
  (∀ a, unnamed a = false → ∃ n, action_of (VString (ascii n)) = inr a).
Proof using lower_ascii.
  assert (G : ∀ n a s, (n, a) ∈ all_actions → str_to_lowercase s = str_to_lowercase (ascii n) →
    action_of (VString s) = inr a).
  { intros n a s Hin Es. rewrite action_of_enum. cbn [derive_enum].
    destruct (list_find_elem_of (λ na, str_to_lowercase s = str_to_lowercase (ascii na.1)) _ _ Hin Es)
      as [[i [n' a']] E].
    rewrite E. apply list_find_Some in E as (Ei & Es' & _). simpl in Es'.
    apply list_elem_of_lookup in Hin as [j Ej].
    assert (i = j) as ->; [|by rewrite Ej in Ei; simplify_eq].
    apply (NoDup_lookup _ _ _ (str_to_lowercase s) all_actions_distinct); rewrite list_lookup_fmap.
    - rewrite Ei. simpl. by rewrite Es'.
    - rewrite Ej. simpl. by rewrite Es. }
  split; [exact G|].
  assert (T : ∀ a, unnamed a = false → ∃ n, (n, a) ∈ all_actions).
  { intros a Ha. destruct a as [| | |[]|[]|[]| | | | | | | | | | | | | | | | | | | | | | | | | | | | | | | | | | | | | | | | | | | | | |];
      try done; eexists; unfold all_actions; repeat (first [apply list_elem_of_here|apply list_elem_of_further]). }
  intros a Ha. destruct (T a Ha) as [n Hn]. exists n. by apply (G n).
Qed.
End parse.

(** ** Examples *)

(** The number 65536 is accepted for a mouse button and becomes button 0. *)
Example mouse_button_wraps : mouse_event_of (VInteger 65536) = inr (Button (MouseOther 0)).
Proof. reflexivity. Qed.
End BindingConfig.
