(* ===== verification/ColorList.v ===== *)
(** * Colours of the display (alacritty/src/display/color.rs, config/color.rs)

    The table of the 269 colours that cells refer to, colours relative to a cell, and
    colours in configuration files.  Scaling a colour, which vte does with floats, is a
    parameter. *)

From S2P Require Import Prelude Ansi Term.
#[local] Open Scope Z_scope.

Module ColorList.

(** ** The configuration of colours *)

(** [NormalColors], [BrightColors] and [DimColors] have the same fields. *)
Record BaseColors := mkBase {
  black : Rgb; red : Rgb; green : Rgb; yellow : Rgb; blue : Rgb; magenta : Rgb; cyan : Rgb; white : Rgb }.
Record PrimaryColors := mkPrimary {
  foreground : Rgb; background : Rgb; bright_foreground : option Rgb; dim_foreground : option Rgb }.
Record IndexedColor := mkIndexed { ic_color : Rgb; ic_index : Z }.

(** Colours that may refer to those of the cell. *)
Inductive CellRgb := CellForeground | CellBackground | CellColor (c : Rgb).
#[global] Instance CellRgb_eq_dec : EqDecision CellRgb.
Proof. solve_decision. Defined.

Record CellColors := mkCellColors { cc_foreground : CellRgb; cc_background : CellRgb }.

Record Colors := mkColors {
  primary : PrimaryColors;
  cursor : CellColors;
  vi_mode_cursor : CellColors;
  selection : CellColors;
  normal : BaseColors;
  bright : BaseColors;
  dim : option BaseColors;
  indexed_colors : list IndexedColor;
  search_focused_match : CellColors;
  search_matches : CellColors;
  hints_start : CellColors;
  hints_end : CellColors;
  transparent_background_colors : bool;
  draw_bold_text_with_bright_colors : bool;
  footer_foreground : option Rgb;
  footer_background : option Rgb }.

Definition footer_bar_foreground (c : Colors) : Rgb := default (background (primary c)) (footer_foreground c).
Definition footer_bar_background (c : Colors) : Rgb := default (foreground (primary c)) (footer_background c).

(** [ColorIndex::deserialize], for a number that is an [u8]. *)
Definition color_index (index : Z) : option Z := if index <? 16 then None else Some index.

(** [CellRgb::color]. *)
Definition cell_color (c : CellRgb) (fg bg : Rgb) : Rgb :=
  match c with CellForeground => fg | CellBackground => bg | CellColor rgb => rgb end.

Definition rgb (hex : Z) : Rgb := mkRgb (hex / 65536) (hex / 256 mod 256) (hex mod 256).

(** The default colours. *)
Definition primary_default : PrimaryColors := mkPrimary (rgb 0xd8d8d8) (rgb 0x181818) None None.
Definition normal_default : BaseColors :=
  mkBase (rgb 0x181818) (rgb 0xac4242) (rgb 0x90a959) (rgb 0xf4bf75) (rgb 0x6a9fb5) (rgb 0xaa759f)
    (rgb 0x75b5aa) (rgb 0xd8d8d8).
Definition bright_default : BaseColors :=
  mkBase (rgb 0x6b6b6b) (rgb 0xc55555) (rgb 0xaac474) (rgb 0xfeca88) (rgb 0x82b8c8) (rgb 0xc28cb8)
    (rgb 0x93d3c3) (rgb 0xf8f8f8).
Definition dim_default : BaseColors :=
  mkBase (rgb 0x0f0f0f) (rgb 0x712b2b) (rgb 0x5f6f3a) (rgb 0xa17e4d) (rgb 0x456877) (rgb 0x704d68)
    (rgb 0x4d7770) (rgb 0x8e8e8e).
Definition inverted_default : CellColors := mkCellColors CellBackground CellForeground.
Definition hint_start_default : CellColors := mkCellColors (CellColor (rgb 0x181818)) (CellColor (rgb 0xf4bf75)).
Definition hint_end_default : CellColors := mkCellColors (CellColor (rgb 0x181818)) (CellColor (rgb 0xac4242)).
Definition focused_match_default : CellColors := mkCellColors (CellColor (rgb 0x181818)) (CellColor (rgb 0xf4bf75)).
Definition match_default : CellColors := mkCellColors (CellColor (rgb 0x181818)) (CellColor (rgb 0xac4242)).
Definition colors_default : Colors :=
  mkColors primary_default inverted_default inverted_default inverted_default normal_default bright_default
    None [] focused_match_default match_default hint_start_default hint_end_default false false None None.

(** ** The table *)

Definition in_u8 (z : Z) : bool := (0 <=? z) && (z <=? 255).
Definition u8_mul_add (a b c : Z) : exec Z := x ← checked in_u8 (a * b); checked in_u8 (x + c).

Section list.
Context `{Ansi}.
(** [Rgb * DIM_FACTOR]. *)
Context (dim_color : Rgb → Rgb).

(** [List], a vector of [COUNT] colours. *)
Definition set_named (n : NamedColor) (c : Rgb) (l : list Rgb) : exec (list Rgb) :=
  vec_set l (named_color_as_usize n) c.

Fixpoint set_all (ncs : list (NamedColor * Rgb)) (l : list Rgb) : exec (list Rgb) :=
  match ncs with [] => mret l | (n, c) :: ncs => l ← set_named n c l; set_all ncs l end.

Definition dims (d : BaseColors) : list (NamedColor * Rgb) :=
  [(DimBlack, black d); (DimRed, red d); (DimGreen, green d); (DimYellow, yellow d); (DimBlue, blue d);
   (DimMagenta, magenta d); (DimCyan, cyan d); (DimWhite, white d)].
Definition map_base (f : Rgb → Rgb) (b : BaseColors) : BaseColors :=
  mkBase (f (black b)) (f (red b)) (f (green b)) (f (yellow b)) (f (blue b)) (f (magenta b)) (f (cyan b)) (f (white b)).

(** The assignments of [fill_named]. *)
Definition named_colors (c : Colors) : list (NamedColor * Rgb) :=
  [(Black, black (normal c)); (Red, red (normal c)); (Green, green (normal c)); (Yellow, yellow (normal c));
   (Blue, blue (normal c)); (Magenta, magenta (normal c)); (Cyan, cyan (normal c)); (White, white (normal c));
   (BrightBlack, black (bright c)); (BrightRed, red (bright c)); (BrightGreen, green (bright c));
   (BrightYellow, yellow (bright c)); (BrightBlue, blue (bright c)); (BrightMagenta, magenta (bright c));
   (BrightCyan, cyan (bright c)); (BrightWhite, white (bright c));
   (BrightForeground, default (foreground (primary c)) (bright_foreground (primary c)));
   (Foreground, foreground (primary c)); (Background, background (primary c));
   (DimForeground, default (dim_color (foreground (primary c))) (dim_foreground (primary c)))]
  ++ dims (match dim c with Some d => d | None => map_base dim_color (normal c) end).

Definition fill_named (c : Colors) (l : list Rgb) : exec (list Rgb) := set_all (named_colors c) l.

(** [indexed_colors.iter().find(|ic| ic.index() == index as u8)]. *)
Definition configured (c : Colors) (index : Z) : option Rgb :=
  match list_find (λ ic, ic_index ic = index mod 256) (indexed_colors c) with
  | Some (_, ic) => Some (ic_color ic)
  | None => None
  end.

Definition cube_channel (v : Z) : exec Z := if v =? 0 then mret 0 else u8_mul_add v 40 55.

(** The coordinates of the cube in the order of the loops. *)
Definition cube : list (Z * Z * Z) :=
  r ← seqZ 0 6; g ← seqZ 0 6; b ← seqZ 0 6; mret (r, g, b).

Fixpoint cube_loop (c : Colors) (rgbs : list (Z * Z * Z)) (index : Z) (l : list Rgb) : exec (Z * list Rgb) :=
  match rgbs with
  | [] => mret (index, l)
  | (r, g, b) :: rgbs =>
      color ← (match configured c index with
               | Some color => mret color
               | None => r ← cube_channel r; g ← cube_channel g; b ← cube_channel b; mret (mkRgb r g b)
               end);
      l ← vec_set l index color;
      index ← usize_add index 1;
      cube_loop c rgbs index l
  end.

Definition fill_cube (c : Colors) (l : list Rgb) : exec (list Rgb) :=
  '(index, l) ← cube_loop c cube 16 l; _ ← assert_ (index =? 232); mret l.

Fixpoint gray_loop (c : Colors) (is_ : list Z) (index : Z) (l : list Rgb) : exec (Z * list Rgb) :=
  match is_ with
  | [] => mret (index, l)
  | i :: is_ =>
      color_index ← checked in_u8 (16 + 216 + i);
      color ← (match configured c color_index with
               | Some color => mret color
               | None => value ← u8_mul_add i 10 8; mret (mkRgb value value value)
               end);
      l ← vec_set l index color;
      index ← usize_add index 1;
      gray_loop c is_ index l
  end.

Definition fill_gray_ramp (c : Colors) (l : list Rgb) : exec (list Rgb) :=
  '(index, l) ← gray_loop c (seqZ 0 24) 232 l; _ ← assert_ (index =? 256); mret l.

(** [List::from]. *)
Definition color_list (c : Colors) : exec (list Rgb) :=
  l ← fill_named c (replicate (Z.to_nat COUNT) (mkRgb 0 0 0));
  l ← fill_cube c l;
  fill_gray_ramp c l.
End list.

(** ** Colours as text *)

Definition hex_digit (d : Z) : Z := if d <? 10 then 48 + d else 87 + d.
Definition hex2 (b : Z) : list Z := [hex_digit (b / 16); hex_digit (b mod 16)].

(** [Rgb::to_string]. *)
Definition rgb_to_string (c : Rgb) : text := 35 :: hex2 (Ansi.red c) ++ hex2 (Ansi.green c) ++ hex2 (Ansi.blue c).

Definition digit_value (ch : Z) : option Z :=
  if (48 <=? ch) && (ch <=? 57) then Some (ch - 48)
  else if (97 <=? ch) && (ch <=? 102) then Some (ch - 87)
  else if (65 <=? ch) && (ch <=? 70) then Some (ch - 55) else None.

Fixpoint hex_value (acc : Z) (s : text) : option Z :=
  match s with
  | [] => Some acc
  | ch :: s => match digit_value ch with
               | Some d => let acc := acc * 16 + d in if acc <=? 4294967295 then hex_value acc s else None
               | None => None
               end
  end.

(** [u32::from_str_radix(s, 16)]: a sign is allowed. *)
Definition from_str_radix_16 (s : text) : option Z :=
  match s with
  | [] => None
  | [ch] => if (ch =? 43) || (ch =? 45) then None else hex_value 0 s
  | ch :: s' => if ch =? 43 then hex_value 0 s' else hex_value 0 s
  end.

(** The length of the text in bytes is its length as UTF-8. *)
Definition utf8_len (ch : Z) : Z := if ch <? 128 then 1 else if ch <? 2048 then 2 else if ch <? 65536 then 3 else 4.
Definition byte_len (s : text) : Z := foldr (λ ch n, utf8_len ch + n) 0 s.

(** [Rgb::from_str]. *)
Definition rgb_from_str (s : text) : option Rgb :=
  let chars := match s with
               | 48 :: 120 :: rest => if byte_len s =? 8 then Some rest else None
               | 35 :: rest => if byte_len s =? 7 then Some rest else None
               | _ => None
               end in
  match chars with
  | None => None
  | Some chars =>
      match from_str_radix_16 chars with
      | Some color =>
          let b := Z.land color 255 in
          let color := Z.shiftr color 8 in
          let g := Z.land color 255 in
          let color := Z.shiftr color 8 in
          Some (mkRgb (color mod 256) g b)
      | None => None
      end
  end.

(** [CellRgb::deserialize], for a string. *)
Definition cell_rgb_of (s : text) : option CellRgb :=
  if bool_decide (s = str "CellForeground") then Some CellForeground
  else if bool_decide (s = str "CellBackground") then Some CellBackground
  else CellColor <$> rgb_from_str s.

(** ** Facts about the table *)

(** The numbers of the named colours, as vte documents them. *)
Definition named_index (n : NamedColor) : Z :=
  match n with
  | Black => 0 | Red => 1 | Green => 2 | Yellow => 3 | Blue => 4 | Magenta => 5 | Cyan => 6 | White => 7
  | BrightBlack => 8 | BrightRed => 9 | BrightGreen => 10 | BrightYellow => 11 | BrightBlue => 12
  | BrightMagenta => 13 | BrightCyan => 14 | BrightWhite => 15
  | Foreground => 256 | Background => 257 | CursorColor => 258
  | DimBlack => 259 | DimRed => 260 | DimGreen => 261 | DimYellow => 262 | DimBlue => 263
  | DimMagenta => 264 | DimCyan => 265 | DimWhite => 266 | BrightForeground => 267 | DimForeground => 268
  end.

(** The standard palette of 256 colours. *)
Definition channel (v : Z) : Z := if v =? 0 then 0 else v * 40 + 55.
Definition standard_color (i : Z) : Rgb :=
  if i <? 232 then
    let k := i - 16 in mkRgb (channel (k / 36)) (channel (k / 6 mod 6)) (channel (k mod 6))
  else let v := (i - 232) * 10 + 8 in mkRgb v v v.

Lemma cube_eq : cube = (λ k, (k / 36, k / 6 mod 6, k mod 6)) <$> seqZ 0 216.
Proof. vm_compute. reflexivity. Qed.

Section facts.
Context `{Ansi} (dim_color : Rgb → Rgb) (named_index_ok : ∀ n, named_color_as_usize n = named_index n).
Implicit Types (c : Colors) (l : list Rgb) (i : Z).

Definition palette c i : Rgb := default (standard_color i) (configured c i).

Lemma vec_set_ok l i (x : Rgb) :
  0 ≤ i < zlen l → ∃ l', vec_set l i x = Ok l' ∧ zlen l' = zlen l ∧
    ∀ j, zlookup l' j = if j =? i then Some x else zlookup l j.
Proof.
  intros Hi. exists (<[Z.to_nat i := x]> l). unfold vec_set.
  rewrite (proj2 (andb_true_iff _ _)) by (split; [apply Z.leb_le|apply Z.ltb_lt]; lia).
  split; [done|]. split; [unfold zlen; by rewrite length_insert|]. intros j. by apply zlookup_insert.
Qed.

Lemma cube_channel_ok v : 0 ≤ v ≤ 5 → cube_channel v = Ok (channel v).
Proof.
  intros Hv. unfold cube_channel, channel, u8_mul_add, checked, in_u8. destruct (Z.eqb_spec v 0); [done|].
  rewrite (proj2 (andb_true_iff _ _)) by (split; apply Z.leb_le; lia). simpl.
  rewrite (proj2 (andb_true_iff _ _)) by (split; apply Z.leb_le; lia). done.
Qed.

(** The loops write the palette behind [i]. *)
Lemma cube_loop_ok c (n : nat) i l :
  16 ≤ i → i + Z.of_nat n ≤ 232 → 232 ≤ zlen l →
  ∃ l', cube_loop c ((λ k, (k / 36, k / 6 mod 6, k mod 6)) <$> seqZ (i - 16) (Z.of_nat n)) i l = Ok (i + Z.of_nat n, l') ∧
    zlen l' = zlen l ∧
    ∀ j, zlookup l' j = if (i <=? j) && (j <? i + Z.of_nat n) then Some (palette c j) else zlookup l j.
Proof.
  revert i l. induction n as [|n IH]; intros i l Hi Hn Hl.
  - exists l. simpl. rewrite Z.add_0_r. split; [done|]. split; [done|]. intros j.
    destruct (Z.leb_spec i j), (Z.ltb_spec j i); try done; lia.
  - rewrite seqZ_cons by lia. rewrite fmap_cons. cbn [cube_loop].
    pose proof (Z.div_pos (i - 16) 36). pose proof (Z.div_lt_upper_bound (i - 16) 36 6).
    pose proof (Z.mod_pos_bound ((i - 16) / 6) 6). pose proof (Z.mod_pos_bound (i - 16) 6).
    assert (E : match configured c i with
      | Some color => mret color
      | None => r ← cube_channel ((i - 16) / 36); g ← cube_channel ((i - 16) / 6 mod 6);
                b ← cube_channel ((i - 16) mod 6); mret (mkRgb r g b)
      end = Ok (palette c i)).
    { unfold palette, standard_color. destruct (configured c i); [done|]. rewrite !cube_channel_ok by lia. simpl.
      by rewrite (proj2 (Z.ltb_lt i 232)) by lia. }
    rewrite E. simpl. destruct (vec_set_ok l i (palette c i)) as (l1 & -> & Hl1 & Hz); [lia|]. simpl.
    rewrite usize_add_ok by lia. simpl. destruct (IH (i + 1) l1) as (l2 & E2 & Hl2 & Hz2); [lia..|].
    replace (Z.succ (i - 16)) with (i + 1 - 16) by lia. replace (Z.pred (Z.of_nat (S n))) with (Z.of_nat n) by lia.
    exists l2. rewrite E2. split; [do 2 f_equal; lia|]. split; [lia|]. intros j. rewrite Hz2, Hz.
    destruct (Z.leb_spec (i + 1) j), (Z.ltb_spec j (i + 1 + Z.of_nat n)), (Z.leb_spec i j),
      (Z.ltb_spec j (i + Z.of_nat (S n))), (Z.eqb_spec j i); simpl; try done; try lia. by subst.
Qed.

Lemma gray_loop_ok c (n : nat) i l :
  232 ≤ i → i + Z.of_nat n ≤ 256 → 256 ≤ zlen l →
  ∃ l', gray_loop c (seqZ (i - 232) (Z.of_nat n)) i l = Ok (i + Z.of_nat n, l') ∧ zlen l' = zlen l ∧
    ∀ j, zlookup l' j = if (i <=? j) && (j <? i + Z.of_nat n) then Some (palette c j) else zlookup l j.
Proof.
  revert i l. induction n as [|n IH]; intros i l Hi Hn Hl.
  - exists l. simpl. rewrite Z.add_0_r. split; [done|]. split; [done|]. intros j.
    destruct (Z.leb_spec i j), (Z.ltb_spec j i); try done; lia.
  - rewrite seqZ_cons by lia. cbn [gray_loop]. replace (16 + 216 + (i - 232)) with i by lia.
    unfold checked at 1, in_u8 at 1. rewrite (proj2 (andb_true_iff (0 <=? i) (i <=? 255))) by (split; apply Z.leb_le; lia). simpl.
    assert (E : match configured c i with
      | Some color => mret color
      | None => value ← u8_mul_add (i - 232) 10 8; mret (mkRgb value value value)
      end = Ok (palette c i)).
    { unfold palette, standard_color. destruct (configured c i); [done|]. rewrite (proj2 (Z.ltb_ge i 232)) by lia.
      unfold u8_mul_add, checked, in_u8. rewrite (proj2 (andb_true_iff _ _)) by (split; apply Z.leb_le; lia). simpl.
      by rewrite (proj2 (andb_true_iff _ _)) by (split; apply Z.leb_le; lia). }
    rewrite E. simpl. destruct (vec_set_ok l i (palette c i)) as (l1 & -> & Hl1 & Hz); [lia|]. simpl.
    rewrite usize_add_ok by lia. simpl. destruct (IH (i + 1) l1) as (l2 & E2 & Hl2 & Hz2); [lia..|].
    replace (Z.succ (i - 232)) with (i + 1 - 232) by lia. replace (Z.pred (Z.of_nat (S n))) with (Z.of_nat n) by lia.
    exists l2. rewrite E2. split; [do 2 f_equal; lia|]. split; [lia|]. intros j. rewrite Hz2, Hz.
    destruct (Z.leb_spec (i + 1) j), (Z.ltb_spec j (i + 1 + Z.of_nat n)), (Z.leb_spec i j),
      (Z.ltb_spec j (i + Z.of_nat (S n))), (Z.eqb_spec j i); simpl; try done; try lia. by subst.
Qed.

(** Assignments of named colours, the last one of a name counts. *)
Lemma set_all_ok ncs l :
  zlen l = COUNT → NoDup ncs.*1 →
  ∃ l', set_all ncs l = Ok l' ∧ zlen l' = COUNT ∧
    (∀ n x, (n, x) ∈ ncs → zlookup l' (named_index n) = Some x) ∧
    (∀ j, (∀ n, n ∈ ncs.*1 → named_index n ≠ j) → zlookup l' j = zlookup l j).
Proof using named_index_ok.
  revert l. induction ncs as [|[n x] ncs IH]; intros l Hl Hd; simpl.
  - exists l. split_and!; try done. intros n x Hx%elem_of_nil. done.
  - apply NoDup_cons in Hd as [Hn Hd]. unfold set_named. rewrite named_index_ok.
    destruct (vec_set_ok l (named_index n) x) as (l1 & -> & Hl1 & Hz); [rewrite Hl; by destruct n|]. simpl.
    destruct (IH l1) as (l2 & E2 & Hl2 & Hin & Hout); [by rewrite Hl1|done|]. exists l2. split_and!; try done.
    + intros n' x' [[= -> ->]|Hx]%elem_of_cons; [|by apply Hin]. rewrite Hout, Hz; [by rewrite Z.eqb_refl|].
      intros n' Hn' E. apply Hn. assert (n' = n) as <-; [|done]. by destruct n, n'.
    + intros j Hj. rewrite Hout by (intros n' Hn'; apply Hj; by right). rewrite Hz.
      destruct (Z.eqb_spec j (named_index n)) as [->|]; [|done]. by destruct (Hj n); [left|].
Qed.

(** The table of colours holds what it should at every index and no arithmetic
    overflows: at 16 to 255 the configured colour of that index, otherwise the standard
    6 by 6 by 6 cube and the ramp of 24 grays; at the named colours the configured ones,
    with the foreground for a missing bright foreground and scaled colours for missing
    dim ones. *)
Lemma color_list_spec c :
  ∃ l, color_list dim_color c = Ok l ∧ zlen l = COUNT ∧
    (∀ i, 16 ≤ i < 256 → zlookup l i = Some (default (standard_color i) (configured c i))) ∧
    (∀ n x, (n, x) ∈ named_colors dim_color c → zlookup l (named_index n) = Some x).
Proof using named_index_ok.
  unfold color_list, fill_named.
  destruct (set_all_ok (named_colors dim_color c) (replicate (Z.to_nat COUNT) (mkRgb 0 0 0)))
    as (l1 & -> & Hl1 & Hin & _).
  { unfold zlen. rewrite length_replicate. done. }
  { apply (bool_decide_unpack _). by destruct (dim c). }
  simpl. unfold fill_cube. rewrite cube_eq.
  destruct (cube_loop_ok c 216 16 l1) as (l2 & E2 & Hl2 & Hz2); [unfold COUNT in *; lia..|].
  change (16 - 16) with 0 in E2. change (Z.of_nat 216) with 216 in *. rewrite E2. simpl. unfold fill_gray_ramp.
  destruct (gray_loop_ok c 24 232 l2) as (l3 & E3 & Hl3 & Hz3); [unfold COUNT in *; lia..|].
  change (232 - 232) with 0 in E3. change (Z.of_nat 24) with 24 in *. rewrite E3. simpl.
  exists l3. split; [done|]. split; [congruence|]. split.
  - intros i Hi. rewrite Hz3, Hz2. destruct (Z.leb_spec 232 i), (Z.ltb_spec i (232 + 24)), (Z.leb_spec 16 i),
      (Z.ltb_spec i (16 + 216)); simpl; done || lia.
  - intros n x Hx. rewrite Hz3, Hz2. rewrite <- (Hin n x Hx). by destruct n.
Qed.
End facts.

(** ** Facts about texts *)

Lemma digit_value_hex d : 0 ≤ d < 16 → digit_value (hex_digit d) = Some d.
Proof.
  intros Hd. unfold digit_value, hex_digit. destruct (Z.ltb_spec d 10);
    repeat match goal with |- context [?a <=? ?b] => destruct (Z.leb_spec a b) end; simpl; f_equal; lia.
Qed.

Lemma hex_value_hex2 acc b s :
  0 ≤ b < 256 → 0 ≤ acc < 65536 → hex_value acc (hex2 b ++ s) = hex_value (acc * 256 + b) s.
Proof.
  intros Hb Ha. pose proof (Z.div_mod b 16). pose proof (Z.mod_pos_bound b 16). pose proof (Z.div_pos b 16).
  pose proof (Z.div_lt_upper_bound b 16 16). cbn [hex2 app hex_value]. rewrite digit_value_hex by lia.
  rewrite (proj2 (Z.leb_le _ _)) by lia. rewrite digit_value_hex by lia. rewrite (proj2 (Z.leb_le _ _)) by lia.
  f_equal. lia.
Qed.

Lemma hex_digit_range d : 0 ≤ d < 16 → 48 ≤ hex_digit d < 103.
Proof. unfold hex_digit. destruct (Z.ltb_spec d 10); lia. Qed.

(** A colour that is written as text is read back as the same colour. *)
Lemma rgb_text_roundtrip (c : Rgb) :
  0 ≤ Ansi.red c < 256 → 0 ≤ Ansi.green c < 256 → 0 ≤ Ansi.blue c < 256 →
  rgb_from_str (rgb_to_string c) = Some c.
Proof.
  intros Hr Hg Hb. destruct c as [r g b]. simpl in *.
  assert (D : ∀ x, 0 ≤ x < 256 → 48 ≤ hex_digit (x / 16) < 103 ∧ 48 ≤ hex_digit (x mod 16) < 103).
  { intros x Hx. pose proof (Z.mod_pos_bound x 16). pose proof (Z.div_pos x 16).
    pose proof (Z.div_lt_upper_bound x 16 16). split; apply hex_digit_range; lia. }
  assert (E : from_str_radix_16 (hex2 r ++ hex2 g ++ hex2 b) = Some (r * 65536 + g * 256 + b)).
  { unfold from_str_radix_16. cbn [hex2 app]. rewrite (proj2 (Z.eqb_neq _ 43)) by (specialize (D r Hr); lia).
    change (hex_value 0 (hex2 r ++ hex2 g ++ hex2 b) = Some (r * 65536 + g * 256 + b)).
    rewrite !hex_value_hex2 by lia. rewrite <- (app_nil_r (hex2 b)), hex_value_hex2 by lia. simpl. f_equal. lia. }
  unfold rgb_from_str, rgb_to_string. cbn [Ansi.red Ansi.green Ansi.blue].
  assert (L : byte_len (35 :: hex2 r ++ hex2 g ++ hex2 b) = 7).
  { unfold byte_len. cbn [hex2 app foldr]. unfold utf8_len.
    pose proof (D r Hr). pose proof (D g Hg). pose proof (D b Hb).
    rewrite !(proj2 (Z.ltb_lt _ 128)) by lia. done. }
  rewrite L. cbn [Z.eqb Pos.eqb]. rewrite E. f_equal. f_equal.
  - rewrite Z.shiftr_shiftr, Z.shiftr_div_pow2 by lia. change (2 ^ (8 + 8)) with 65536.
    rewrite Z.mod_small; [|split; [apply Z.div_pos|apply Z.div_lt_upper_bound]; lia].
    symmetry. apply (Z.div_unique _ _ _ (g * 256 + b)); lia.
  - rewrite Z.shiftr_div_pow2 by lia. change 255 with (Z.ones 8). rewrite Z.land_ones by lia. change (2 ^ 8) with 256.
    symmetry. replace ((r * 65536 + g * 256 + b) / 256) with (r * 256 + g) by (apply (Z.div_unique _ _ _ b); lia).
    apply (Z.mod_unique _ _ r); lia.
  - change 255 with (Z.ones 8). rewrite Z.land_ones by lia. change (2 ^ 8) with 256. symmetry.
    apply (Z.mod_unique _ _ (r * 256 + g)); lia.
Qed.

(** A sign is taken for a digit. *)
Example signed_color_accepted : rgb_from_str (str "#+12345") = Some (mkRgb 1 35 69).
Proof. vm_compute. reflexivity. Qed.
End ColorList.
