(* ===== verification/Overrides.v ===== *)
(** * Options of the command line (alacritty/src/cli.rs)

    What options on the command line and in messages do to the configuration.  The
    parser of arguments (clap), the parser of TOML and [SerdeReplace::replace], which is
    derived for the configuration, are parameters; a failing [replace] may have changed
    a part of the configuration already. *)

From S2P Require Import Prelude Decimal Ansi ConfigFiles ColorList.
#[local] Open Scope Z_scope.

Module Overrides.

(** ** Single options *)

Inductive LevelFilter := LogOff | LogError | LogWarn | LogInfo | LogDebug | LogTrace.
#[global] Instance LevelFilter_eq_dec : EqDecision LevelFilter.
Proof. solve_decision. Defined.

(** The numbers of the flags [--quiet] and [--verbose], and [--print-events]. *)
Definition log_level (quiet verbose : Z) (print_events : bool) : LevelFilter :=
  if (verbose =? 0) && print_events then LogInfo
  else if (quiet =? 0) && (verbose =? 0) then LogWarn
  else if verbose =? 1 then LogInfo
  else if verbose =? 2 then LogDebug
  else if quiet =? 0 then LogTrace
  else if quiet =? 1 then LogError
  else LogOff.

Record Class := mkClass { class_general : list Z; class_instance : list Z }.

(** [str::split_once]. *)
Fixpoint split_once (sep : Z) (s : list Z) : option (list Z * list Z) :=
  match s with
  | [] => None
  | c :: s =>
      if c =? sep then Some ([], s)
      else match split_once sep s with Some (a, b) => Some (c :: a, b) | None => None end
  end.

(** [None] is the error of too many parameters. *)
Definition parse_class (input : list Z) : option Class :=
  match split_once 44 input with
  | Some (general, instance) =>
      if bool_decide (44 ∈ instance) then None else Some (mkClass general instance)
  | None => Some (mkClass input input)
  end.

(** [input.parse::<u32>()], which allows a sign. *)
Definition parse_u32 (s : list Z) : option Z :=
  let digits := match s with 43 :: s => s | _ => s end in
  match digits with
  | [] => None
  | _ => if forallb is_digit digits
         then let n := foldl (λ n c, 10 * n + (c - 48)) 0 digits in
              if n <=? 4294967295 then Some n else None
         else None
  end.

Definition parse_hex_or_decimal (input : list Z) : option Z :=
  match (match input with
         | 48 :: 120 :: value => ColorList.from_str_radix_16 value
         | _ => None
         end) with
  | Some n => Some n
  | None => parse_u32 input
  end.

(** *** New terminals *)

Record TerminalOptions := mkTerminalOptions {
  to_working_directory : option (list Z); to_hold : bool; to_command : list (list Z) }.
Record PtyOptions := mkPtyOptions {
  po_working_directory : option (list Z); po_shell : option (list Z * list (list Z)); po_drain_on_exit : bool }.

Definition command (o : TerminalOptions) : option (list Z * list (list Z)) :=
  match to_command o with [] => None | program :: args => Some (program, args) end.

(** [is_dir] asks the file system. *)
Definition override_pty_config (is_dir : list Z → bool) (o : TerminalOptions) (p : PtyOptions) : PtyOptions :=
  mkPtyOptions
    (match to_working_directory o with
     | Some d => if is_dir d then Some d else po_working_directory p
     | None => po_working_directory p
     end)
    (match command o with Some c => Some c | None => po_shell p end)
    (po_drain_on_exit p || to_hold o).

Definition pty_options_from (o : TerminalOptions) : PtyOptions :=
  mkPtyOptions (to_working_directory o) (command o) (to_hold o).

Record Identity := mkIdentity { id_title : list Z; id_class : Class }.
Record WindowIdentity := mkWindowIdentity { wi_title : option (list Z); wi_class : option Class }.
Definition override_identity_config (w : WindowIdentity) (i : Identity) : Identity :=
  mkIdentity (default (id_title i) (wi_title w)) (default (id_class i) (wi_class w)).

(** ** Overrides of the configuration *)

Section parsed.
Context {Value Config : Type} (from_toml : list Z → option Value) (replace : Value → Config → Config * bool).

(** [ParsedOptions]: the texts with their values. *)
#[local] Abbreviation ParsedOptions := (list (list Z * Value)).
Implicit Types (o : list Z * Value) (os : ParsedOptions) (c : Config).

Definition from_options (options : list (list Z)) : ParsedOptions :=
  omap (λ s, match from_toml s with Some v => Some (s, v) | None => None end) options.

(** [Vec::swap_remove]. *)
Definition swap_remove {A} (i : nat) (l : list A) : list A :=
  match last l with Some x => take (length l - 1) (<[i := x]> l) | None => l end.

(** The configuration, the options that are kept and the ones an error is logged for. *)
Fixpoint override_loop (fuel i : nat) os c (errors : list (list Z)) : exec (Config * ParsedOptions * list (list Z)) :=
  match fuel with
  | O => Panic OutOfFuel
  | S fuel =>
      match os !! i with
      | None => mret (c, os, errors)
      | Some (option, parsed) =>
          let '(c, ok) := replace parsed c in
          if ok : bool then override_loop fuel (S i) os c errors
          else override_loop fuel i (swap_remove i os) c (errors ++ [option])
      end
  end.

Definition override_config os c : exec (Config * ParsedOptions * list (list Z)) :=
  override_loop (S (length os)) 0 os c [].

Definition override_config_rc os c : exec (Config * ParsedOptions * list (list Z)) :=
  if bool_decide (length os = 0%nat) then mret (c, os, []) else override_config os c.

(** ** What overriding does *)

(** All options applied in order, if none of them fails. *)
Fixpoint applies os c : option Config :=
  match os with
  | [] => Some c
  | o :: os => let '(c, ok) := replace o.2 c in if ok : bool then applies os c else None
  end.

Lemma swap_remove_perm i os o : os !! i = Some o → o :: swap_remove i os ≡ₚ os.
Proof.
  intros Hi. unfold swap_remove. destruct (last os) as [x|] eqn:Hl; [|by apply last_None in Hl as ->].
  apply last_Some in Hl as [l ->]. rewrite length_app. simpl. rewrite Nat.add_sub.
  apply lookup_app_Some in Hi as [Hi|[Hle Hi]].
  - rewrite insert_app_l by by eapply lookup_lt_Some. rewrite take_app_length' by by rewrite length_insert.
    rewrite <-(take_drop_middle l i o Hi) at 2. rewrite insert_take_drop by by eapply lookup_lt_Some.
    solve_Permutation.
  - destruct (i - length l)%nat eqn:En; [|done]. injection Hi as ->. rewrite insert_app_r_alt by lia.
    rewrite En. rewrite take_app_length. solve_Permutation.
Qed.

Lemma swap_remove_length i os o : os !! i = Some o → length os = S (length (swap_remove i os)).
Proof. intros Hi. pose proof (Permutation_length (swap_remove_perm i os o Hi)) as E. by symmetry. Qed.

Lemma swap_remove_take i os : (i < length os)%nat → take i (swap_remove i os) = take i os.
Proof.
  intros Hi. unfold swap_remove. destruct (last os) as [x|]; [|done].
  rewrite take_take, take_insert_ge by lia. f_equal. lia.
Qed.

(** An error leaves the configuration as it was. *)
Context (replace_fails : ∀ v c, (replace v c).2 = false → (replace v c).1 = c).

Lemma override_loop_spec fuel i os c errs :
  (i ≤ length os)%nat → (length os - i < fuel)%nat →
  ∃ c' os' es, override_loop fuel i os c errs = Ok (c', os', errs ++ es) ∧
    take i os' = take i os ∧ os'.*1 ++ es ≡ₚ os.*1 ∧ applies (drop i os') c = Some c'.
Proof using replace_fails.
  revert i os c errs. induction fuel as [|fuel IH]; intros i os c errs Hi Hf; [lia|]. simpl.
  destruct (os !! i) as [[option parsed]|] eqn:Ho.
  - pose proof (lookup_lt_Some _ _ _ Ho) as Hlt. destruct (replace parsed c) as [c1 ok] eqn:Er. destruct ok.
    + destruct (IH (S i) os c1 errs) as (c' & os' & es & E & Ht & Hp & Ha); [lia..|].
      exists c', os', es. split; [done|].
      assert (Hat : os' !! i = Some (option, parsed)).
      { rewrite <-(lookup_take_lt os' (S i)), Ht, lookup_take_lt by lia. done. }
      split; [|split; [done|]].
      * rewrite <-(Nat.min_l i (S i)), <-take_take, Ht, take_take by lia. done.
      * rewrite (drop_S os' (option, parsed) i Hat). simpl. by rewrite Er.
    + assert (c1 = c) as -> by (pose proof (replace_fails parsed c) as Hr; rewrite Er in Hr; by apply Hr).
      pose proof (swap_remove_length _ _ _ Ho) as Hl.
      destruct (IH i (swap_remove i os) c (errs ++ [option])) as (c' & os' & es & E & Ht & Hp & Ha); [lia..|].
      exists c', os', (option :: es). split; [by rewrite E, <-app_assoc|].
      split; [by rewrite Ht, swap_remove_take|]. split; [|done].
      rewrite <-Permutation_middle, Hp. apply (Permutation_map fst (swap_remove_perm i os _ Ho)).
  - exists c, os, []. rewrite !app_nil_r. apply lookup_ge_None in Ho. rewrite drop_ge by lia. done.
Qed.

(** Options that all apply are applied in order and kept. *)
Lemma override_loop_clean fuel i os c c' errs :
  (length os - i < fuel)%nat → applies (drop i os) c = Some c' →
  override_loop fuel i os c errs = Ok (c', os, errs).
Proof.
  revert i c. induction fuel as [|fuel IH]; intros i c Hf Ha; [lia|]. simpl.
  destruct (os !! i) as [[option parsed]|] eqn:Ho.
  - rewrite (drop_S _ _ _ Ho) in Ha. simpl in Ha. destruct (replace parsed c) as [c1 []]; [|done].
    apply IH; [|done]. apply lookup_lt_Some in Ho. lia.
  - apply lookup_ge_None in Ho. rewrite drop_ge in Ha by lia. by injection Ha as ->.
Qed.

(** The loop goes through options that apply. *)
Lemma override_prefix_loop goods pre bads c c1 fuel errs :
  applies goods c = Some c1 → (length goods ≤ fuel)%nat →
  override_loop fuel (length pre) (pre ++ goods ++ bads) c errs
  = override_loop (fuel - length goods) (length (pre ++ goods)) (pre ++ goods ++ bads) c1 errs.
Proof.
  revert pre c fuel. induction goods as [|[option parsed] goods IH]; intros pre c fuel Ha Hf; simpl in *.
  - injection Ha as ->. by rewrite app_nil_r, Nat.sub_0_r.
  - destruct fuel as [|fuel]; [lia|]. simpl. rewrite list_lookup_middle by done.
    destruct (replace parsed c) as [c2 []]; [|done].
    specialize (IH (pre ++ [(option, parsed)]) c2 fuel Ha ltac:(lia)).
    rewrite length_app, <-!app_assoc in IH. simpl in IH. rewrite Nat.add_1_r in IH. rewrite IH.
    by rewrite !length_app.
Qed.

Lemma override_prefix goods bads c c1 fuel :
  applies goods c = Some c1 → (length goods ≤ fuel)%nat →
  ∃ f, (fuel = length goods + f)%nat ∧
    override_loop fuel 0 (goods ++ bads) c [] = override_loop f (length goods) (goods ++ bads) c1 [].
Proof.
  intros Ha Hf. exists (fuel - length goods)%nat. split; [lia|].
  apply (override_prefix_loop goods [] bads c c1 fuel [] Ha Hf).
Qed.

Lemma override_broken_tail fuel os c c' bads errs :
  (length bads < fuel)%nat → (∀ o, o ∈ bads → replace o.2 c' = (c', false)) → c = c' →
  ∃ es, override_loop fuel (length os) (os ++ bads) c errs = Ok (c', os, errs ++ es).
Proof.
  intros Hf Hb ->. remember (length bads) as k eqn:Hk. revert fuel bads errs Hf Hb Hk.
  induction k as [|k IH]; intros [|fuel] bads errs Hf Hb Hk; [lia| |lia|]; simpl.
  - apply symmetry, nil_length_inv in Hk as ->. rewrite app_nil_r, lookup_ge_None_2 by lia.
    exists []. by rewrite app_nil_r.
  - destruct bads as [|[option parsed] bads]; [done|]. rewrite list_lookup_middle by done.
    assert (replace parsed c' = (c', false)) as -> by (apply (Hb (option, parsed)); by left).
    assert (Hs : ∃ bads', swap_remove (length os) (os ++ (option, parsed) :: bads) = os ++ bads' ∧
      length bads' = k ∧ ∀ o, o ∈ bads' → o ∈ (option, parsed) :: bads).
    { pose proof (swap_remove_take (length os) (os ++ (option, parsed) :: bads)
        ltac:(rewrite length_app; simpl; lia)) as Ht.
      pose proof (swap_remove_perm (length os) (os ++ (option, parsed) :: bads) (option, parsed)
        ltac:(by apply list_lookup_middle)) as Hp.
      rewrite take_app_length in Ht. exists (drop (length os) (swap_remove (length os) (os ++ (option, parsed) :: bads))).
      split; [rewrite <-Ht at 3; symmetry; apply take_drop|]. rewrite <-(take_drop (length os) (swap_remove _ _)), Ht in Hp.
      rewrite Permutation_middle in Hp. apply Permutation_app_inv_l in Hp.
      split; [apply Permutation_length in Hp; simpl in *; lia|]. intros o Ho. rewrite <-Hp. by right. }
    destruct Hs as (bads' & -> & Hl & Hin).
    destruct (IH fuel bads' (errs ++ [option])) as [es E]; [lia|by intros; apply Hb, Hin|done|].
    exists (option :: es). by rewrite E, <-app_assoc.
Qed.

(** Overriding the configuration with options always ends, and every option is either
    kept or reported, none twice.  Applying the kept ones again, as every reload of the
    configuration does, gives the same configuration without further errors.  Options
    that can be applied are applied in the order they are given, as long as no broken
    one comes before them. *)
Lemma overrides_apply os c :
  ∃ c' kept errors, override_config os c = Ok (c', kept, errors) ∧
    kept.*1 ++ errors ≡ₚ os.*1 ∧ override_config kept c = Ok (c', kept, []) ∧
    (∀ goods bads c1, os = goods ++ bads → applies goods c = Some c1 →
      (∀ o, o ∈ bads → replace o.2 c1 = (c1, false)) → c' = c1 ∧ kept = goods).
Proof using replace_fails.
  destruct (override_loop_spec (S (length os)) 0 os c []) as (c' & kept & es & E & _ & Hp & Ha); [lia..|].
  exists c', kept, es. split; [done|]. split; [done|]. split.
  - unfold override_config. rewrite (override_loop_clean (S (length kept)) 0 kept c c'); [done|lia|done].
  - intros goods bads c1 -> Hg Hb. unfold override_config in E.
    destruct (override_prefix goods bads c c1 (S (length (goods ++ bads))) Hg) as [f [Hf Ef]].
    { rewrite length_app. lia. }
    rewrite Ef in E. destruct (override_broken_tail f goods c1 c1 bads []) as [es' E']; [|done..|].
    + rewrite length_app in Hf. lia.
    + rewrite E' in E. by simplify_eq.
Qed.
End parsed.

(** ** An example *)

(** Options that set a number; the value 0 is refused. *)
Definition set_number (v c : Z) : Z * bool := if v =? 0 then (c, false) else (v, true).

(** A broken option in front of others changes their order: the last one takes its place
    and is applied first, so the one before it wins. *)
Example broken_option_reorders :
  override_config set_number [([0], 0); ([1], 1); ([2], 2)] 7 = Ok (1, [([2], 2); ([1], 1)], [[0]]).
Proof. reflexivity. Qed.
End Overrides.
