(* ===== verification/Migrate.v ===== *)
(** * Migration of configuration files (alacritty/src/migrate)

    Renamed options are moved to their new place, YAML files become TOML files, and
    imports are migrated with them.  The parsers and printers of the crates toml,
    toml_edit and serde_yaml and the file system are parameters.  A document of toml_edit
    is its value: comments and the layout, which the crate keeps, are not modelled, and a
    list of tables is an array.  Paths are printed in normal form. *)

From S2P Require Import Prelude ConfigFiles.
#[local] Open Scope Z_scope.

Module Migrate.
Import ConfigFiles.

(** ** Documents *)

(** Taking the item at a path out of a document; [None] if there is none. *)
Fixpoint take_item (origin : list str) (document : Value) : exec (option (Value * Value)) :=
  match origin, document with
  | element :: origin, VTable t =>
      match table_get element t with
      | None => mret None
      | Some item =>
          match origin with
          | [] => mret (Some (item, VTable (table_remove element t)))
          | _ =>
              r ← take_item origin item;
              mret match r with
                   | Some (taken, rest) => Some (taken, VTable (table_insert element rest t))
                   | None => None
                   end
          end
      end
  | _, _ => Panic PanicAssert
  end.

(** Putting an item at a path, with the tables on the way. *)
Fixpoint put_item (target : list str) (item document : Value) : exec Value :=
  match target with
  | [] => mret document
  | element :: target =>
      match document with
      | VTable t =>
          match target with
          | [] => mret (VTable (table_insert element item t))
          | _ =>
              sub ← put_item target item (default (VTable []) (table_get element t));
              mret (VTable (table_insert element sub t))
          end
      | _ => Panic PanicAssert
      end
  end.

Definition move_value (origin target : list str) (document : Value) : exec Value :=
  taken ← take_item origin document;
  match taken with
  | None => mret document
  | Some (item, document) => put_item target item document
  end.

(** The options that were moved, in the order of the calls of [move_value]. *)
Definition renames : list (str * (str * str)) :=
  [(ascii "draw_bold_text_with_bright_colors", (ascii "colors", ascii "draw_bold_text_with_bright_colors"));
   (ascii "key_bindings", (ascii "keyboard", ascii "bindings"));
   (ascii "mouse_bindings", (ascii "mouse", ascii "bindings"));
   (ascii "live_config_reload", (ascii "general", ascii "live_config_reload"));
   (ascii "working_directory", (ascii "general", ascii "working_directory"));
   (ascii "ipc_socket", (ascii "general", ascii "ipc_socket"));
   (ascii "import", (ascii "general", ascii "import"));
   (ascii "shell", (ascii "terminal", ascii "shell"))].

Fixpoint move_all (moves : list (str * (str * str))) (document : Value) : exec Value :=
  match moves with
  | [] => mret document
  | (origin, (table, key)) :: moves =>
      document ← move_value [origin] [table; key] document; move_all moves document
  end.

(** ** Files *)

(** [fs_replace] writes a temporary file and puts it in the place of another one. *)
Class Files := {
  Fs : Type;
  fs_read : Fs → Path → IoError + str;
  fs_exists : Fs → Path → bool;
  fs_replace : Fs → Path → str → option Fs }.

Class FilesLaws `{Files} := {
  fs_read_replaced f f' p text : fs_replace f p text = Some f' → fs_read f' p = inr text }.

Fixpoint join_names (names : list str) : str :=
  match names with [] => [] | [n] => n | n :: names => n ++ [47] ++ join_names names end.
Definition path_to_string (p : Path) : str := (if p_absolute p then [47] else []) ++ join_names (p_names p).

Record MigrateOptions := mkMigrateOptions {
  config_file : option Path;
  dry_run : bool;
  skip_imports : bool;
  skip_renames : bool;
  mo_silent : bool }.

Inductive Migration :=
  | MToml (p : Path)
  | MYaml (p : Path) (new_path : str).
Definition new_path (m : Migration) : str := match m with MToml p => path_to_string p | MYaml _ s => s end.

(** What is printed. *)
Inductive Output :=
  | Document (p : Path) (toml : str)
  | Success (m : Migration) (import : bool)
  | Skipping (p : Path)
  | Keeping (p : Path)
  | Ignoring (p : Path)
  | NoConfigFile
  | Failed (p : Path).

Section migrate.
Context `{Files} {TomlError TomlSeError YamlError : Type}.
Context (toml_from_str : str → TomlError + Value) (yaml_from_str : str → YamlError + Yaml).
Context (toml_to_string : Yaml → TomlSeError + str) (value_to_string : Value → TomlSeError + str).
Context (parse_document : str → TomlError + Value) (print_document : Value → str).
Context (home_dir : option Path) (installed_config : str → option Path).

Inductive MigrateError :=
  | MissingExtension
  | YamlParsing (e : @Error TomlError TomlSeError YamlError)
  | Unreadable (e : IoError)
  | TomlParsing (e : TomlError)
  | Conversion (e : TomlSeError)
  | ImportsFailed (e : ImportsError)
  | ImportFailed (e : ImportError)
  | ImportDepth
  | WriteFailed.

(** *** State, output and errors *)

Record State := mkState { files : Fs; output : list Output }.
Definition M (A : Type) : Type := State → exec ((MigrateError + A) * State).
#[global] Instance M_ret : MRet M := λ A a s, Ok (inr a, s).
#[global] Instance M_bind : MBind M := λ A B f m s,
  match m s with
  | Ok (inr a, s) => f a s
  | Ok (inl e, s) => Ok (inl e, s)
  | Panic k => Panic k
  end.
Definition fail {A} (e : MigrateError) : M A := λ s, Ok (inl e, s).
Definition lift {A} (m : exec A) : M A := λ s, a ← m; Ok (inr a, s).
Definition get_files : M Fs := λ s, Ok (inr (files s), s).
Definition put_files (f : Fs) : M unit := λ s, Ok (inr tt, mkState f (output s)).
Definition tell (o : Output) : M unit := λ s, Ok (inr tt, mkState (files s) (output s ++ [o])).
Definition tell_if (b : bool) (o : Output) : M unit := if b then tell o else mret tt.

(** *** Migration *)

Definition migrate_toml (toml : str) : M Value :=
  match parse_document toml with
  | inl e => fail (TomlParsing e)
  | inr document => lift (move_all renames document)
  end.

Section options.
Context (options : MigrateOptions).

Definition write_results (p : Path) (toml : str) : M unit :=
  if dry_run options then tell_if (negb (mo_silent options)) (Document p toml)
  else
    _ ← lift (match parent p with Some dir => mret dir | None => Panic PanicUnwrap end);
    f ← get_files;
    match fs_replace f p toml with
    | Some f => put_files f
    | None => fail WriteFailed
    end.

Section imports.
(** The migration of an imported file. *)
Context (migrate_import : Path → M Migration).

Definition migrate_one (normalized_path : Path) : M Migration :=
  migration ← migrate_import normalized_path;
  _ ← tell_if (dry_run options) (Success migration true);
  mret migration.

(** [migrate_imports] of a TOML document. *)
Fixpoint toml_imports_loop (p : Path) (imports : list str) : M unit :=
  match imports with
  | [] => mret tt
  | import :: imports =>
      let normalized_path := normalize_import home_dir p (path_of import) in
      f ← get_files;
      if negb (fs_exists f normalized_path) then
        _ ← tell_if (dry_run options) (Skipping normalized_path);
        toml_imports_loop p imports
      else
        _ ← migrate_one normalized_path;
        toml_imports_loop p imports
  end.
Definition strings (vs : list Value) : list str := omap (λ v, match v with VString s => Some s | _ => None end) vs.
Definition migrate_imports (p : Path) (document : Value) (recursion_limit : nat) : M unit :=
  match get (ascii "general") document ≫= get (ascii "import") with
  | Some (VArray vs) =>
      if bool_decide (length vs = 0%nat) then mret tt
      else if bool_decide (recursion_limit = 0%nat) then fail ImportDepth
      else toml_imports_loop p (strings vs)
  | _ => mret tt
  end.

(** [yaml::migrate_imports] returns the new configuration. *)
Fixpoint yaml_imports_loop (imports : list (ImportError + Path)) (new_imports : list Value) : M (list Value) :=
  match imports with
  | [] => mret new_imports
  | inl e :: _ => fail (ImportFailed e)
  | inr import :: imports =>
      f ← get_files;
      if negb (fs_exists f import) then
        _ ← tell_if (dry_run options) (Keeping import);
        yaml_imports_loop imports (new_imports ++ [VString (path_to_string import)])
      else
        migration ← migrate_one import;
        yaml_imports_loop imports (new_imports ++ [VString (new_path migration)])
  end.
Definition set_import (vs : list Value) (config : Value) : Value :=
  match config with
  | VTable t =>
      match table_get (ascii "import") t with
      | Some _ => VTable (table_insert (ascii "import") (VArray vs) t)
      | None => config
      end
  | _ => config
  end.
Definition yaml_migrate_imports (config : Value) (base_path : Path) (recursion_limit : nat) : M Value :=
  match imports home_dir config base_path recursion_limit with
  | inl e => fail (ImportsFailed e)
  | inr imports =>
      new_imports ← yaml_imports_loop imports [];
      mret (set_import new_imports config)
  end.

(** [yaml::migrate]. *)
Definition yaml_migrate (p : Path) (recursion_limit : nat) (prefix : str) : M str :=
  f ← get_files;
  config ← match deserialize_config (fs_read f) toml_from_str yaml_from_str toml_to_string p with
           | inl e => fail (YamlParsing e)
           | inr config => mret config
           end;
  config ← (if skip_imports options then mret config else yaml_migrate_imports config p recursion_limit);
  toml ← match value_to_string config with inl e => fail (Conversion e) | inr toml => mret toml end;
  let new_path := prefix ++ ascii ".toml" in
  document ← migrate_toml toml;
  _ ← write_results (path_of new_path) (print_document document);
  mret new_path.

Definition migrate_file (p : Path) (recursion_limit : nat) : M Migration :=
  match rsplit_dot (path_to_string p) with
  | None => fail MissingExtension
  | Some (prefix, suffix) =>
      if bool_decide (suffix = ascii "yml") then
        new_path ← yaml_migrate p recursion_limit prefix;
        mret (MYaml p new_path)
      else if skip_renames options then
        _ ← tell_if (dry_run options) (Ignoring p);
        mret (MToml p)
      else
        f ← get_files;
        toml ← match fs_read f p with inl e => fail (Unreadable e) | inr toml => mret toml end;
        migrated ← migrate_toml toml;
        _ ← migrate_imports p migrated recursion_limit;
        _ ← write_results p (print_document migrated);
        mret (MToml p)
  end.
End imports.

(** Imports are migrated with a lower limit; at zero there are none, since the lists of
    imports are rejected before. *)
Fixpoint migrate_config (recursion_limit : nat) (p : Path) : M Migration :=
  migrate_file (match recursion_limit with
                | O => λ _ _, Panic PanicOverflow
                | S limit => migrate_config limit
                end) p recursion_limit.
End options.

Definition dry_options (o : MigrateOptions) : MigrateOptions :=
  mkMigrateOptions (config_file o) true (skip_imports o) (skip_renames o) true.

Definition config_path (o : MigrateOptions) : option Path :=
  match config_file o with
  | Some p => Some p
  | None => match installed_config (ascii "toml") with Some p => Some p | None => installed_config (ascii "yml") end
  end.

(** [migrate]: whether it succeeds or exits with an error. *)
Definition migrate (o : MigrateOptions) (s : State) : exec (bool * State) :=
  match config_path o with
  | None => mret (false, mkState (files s) (output s ++ [NoConfigFile]))
  | Some p =>
      '(dry, s) ← (if dry_run o then mret (None, s)
                   else '(r, s) ← migrate_config (dry_options o) IMPORT_RECURSION_LIMIT p s;
                        mret (Some r, s));
      match dry with
      | Some (inl _) => mret (false, mkState (files s) (output s ++ [Failed p]))
      | _ =>
          '(r, s) ← migrate_config o IMPORT_RECURSION_LIMIT p s;
          mret (match r with
                | inr migration =>
                    (true, if mo_silent o then s else mkState (files s) (output s ++ [Success migration false]))
                | inl _ => (false, mkState (files s) (output s ++ [Failed p]))
                end)
      end
  end.
End migrate.

(** ** Properties of documents *)

(** [d'] is [d] with the options moved: each is at its new place, and everything else is
    where it was. *)
Definition origins (moves : list (str * (str * str))) : list str := moves.*1.
Definition targets (moves : list (str * (str * str))) : list (str * str) := moves.*2.
Definition sections (moves : list (str * (str * str))) : list str := (targets moves).*1.
Definition section_ok (d : Value) (section : str) : Prop :=
  match get section d with None | Some (VTable _) => True | Some _ => False end.

Record moved (moves : list (str * (str * str))) (secs : list str) (d d' : Value) : Prop := {
  moved_origin o : o ∈ origins moves → get o d' = None;
  moved_target o a b :
    (o, (a, b)) ∈ moves →
    get_path [a; b] d' = match get o d with Some v => Some v | None => get_path [a; b] d end;
  moved_other k : k ∉ origins moves → k ∉ secs → get k d' = get k d;
  moved_section a b : a ∈ secs → (a, b) ∉ targets moves → get_path [a; b] d' = get_path [a; b] d }.

Lemma get_path2 a b d : get_path [a; b] d = get a d ≫= get b.
Proof. simpl. destruct (get a d) as [v|]; [simpl; by destruct (get b v)|done]. Qed.

Lemma move_one o a b t :
  o ≠ a → section_ok (VTable t) a →
  ∃ t', move_value [o] [a; b] (VTable t) = Ok (VTable t') ∧
    table_get o t' = None ∧
    (∀ k, k ≠ o → k ≠ a → table_get k t' = table_get k t) ∧
    get_path [a; b] (VTable t') = match table_get o t with Some v => Some v | None => get_path [a; b] (VTable t) end ∧
    (∀ b', b' ≠ b → get_path [a; b'] (VTable t') = get_path [a; b'] (VTable t)) ∧
    section_ok (VTable t') a.
Proof.
  intros Hoa Hs. unfold move_value. cbn [take_item]. destruct (table_get o t) as [item|] eqn:Eo.
  - cbn [mbind exec_bind mret exec_ret put_item]. rewrite table_get_remove, bool_decide_eq_false_2 by done.
    unfold section_ok in Hs. cbn [get] in Hs.
    assert (∃ st, default (VTable []) (table_get a t) = VTable st ∧
      ∀ b', table_get b' st = get_path [a; b'] (VTable t)) as (st & -> & Hst).
    { destruct (table_get a t) as [[| | | | | |st]|] eqn:Ea; try done.
      - exists st. split; [done|]. intros b'. rewrite get_path2. cbn [get]. by rewrite Ea.
      - exists []. split; [done|]. intros b'. rewrite get_path2. cbn [get]. by rewrite Ea. }
    cbn [mbind exec_bind]. set (t' := table_insert a (VTable (table_insert b item st)) (table_remove o t)).
    assert (∀ k, table_get k t' = if bool_decide (k = a) then Some (VTable (table_insert b item st))
                                  else if bool_decide (k = o) then None else table_get k t) as Ht.
    { intros k. unfold t'. by rewrite table_get_insert, table_get_remove. }
    assert (table_get a t' = Some (VTable (table_insert b item st))) as Ea by by rewrite Ht, bool_decide_eq_true_2.
    assert (∀ b', get_path [a; b'] (VTable t') = table_get b' (table_insert b item st)) as Hp.
    { intros b'. rewrite get_path2. cbn [get]. by rewrite Ea. }
    exists t'. split; [done|]. split_and!.
    + by rewrite Ht, bool_decide_eq_false_2, bool_decide_eq_true_2.
    + intros k H1 H2. by rewrite Ht, !bool_decide_eq_false_2.
    + by rewrite Hp, table_get_insert, bool_decide_eq_true_2.
    + intros b' Hb. by rewrite Hp, table_get_insert, bool_decide_eq_false_2, Hst.
    + unfold section_ok. cbn [get]. by rewrite Ea.
  - exists t. split_and!; done.
Qed.

Lemma move_all_spec moves secs t :
  NoDup (origins moves) → NoDup (targets moves) → sections moves ⊆ secs →
  Forall (λ o, o ∉ secs) (origins moves) → Forall (section_ok (VTable t)) secs →
  ∃ t', move_all moves (VTable t) = Ok (VTable t') ∧ moved moves secs (VTable t) (VTable t').
Proof.
  revert t. induction moves as [|[o [a b]] moves IH]; intros t Ho Ht Hs Hd Hok.
  { exists t. split; [done|]. split; intros *; try done; by intros ?%elem_of_nil. }
  apply NoDup_cons in Ho as [Ho1 Ho]. apply NoDup_cons in Ht as [Ht1 Ht]. apply Forall_cons in Hd as [Hd1 Hd].
  cbn [fst snd] in *. assert (a ∈ secs) as Ha by (apply Hs; left). assert (o ≠ a) as Hoa by naive_solver.
  rewrite Forall_forall in Hok. destruct (move_one o a b t Hoa (Hok a Ha)) as (t1 & E1 & N1 & K1 & P1 & S1 & O1).
  destruct (IH t1) as (t' & E2 & [M1 M2 M3 M4]); [done|done|intros x Hx; apply Hs; by right|done| |].
  { apply Forall_forall. intros x Hx. destruct (decide (x = a)) as [->|Hn]; [done|].
    unfold section_ok. cbn [get]. rewrite K1; [|naive_solver|done]. by apply Hok. }
  assert (∀ a' b', a' ∈ secs → (a', b') ≠ (a, b) → get_path [a'; b'] (VTable t1) = get_path [a'; b'] (VTable t)) as Hp.
  { intros a' b' Ha' Hn. destruct (decide (a' = a)) as [->|Hn']; [apply S1; naive_solver|].
    rewrite !get_path2. cbn [get]. rewrite K1; [done|naive_solver|done]. }
  cbn [move_all]. rewrite E1. cbn [mbind exec_bind]. exists t'. split; [done|]. split.
  - intros o' [->|Ho']%elem_of_cons; [|by apply M1]. by rewrite M3.
  - intros o' a' b' [[= -> -> ->]|Hin]%elem_of_cons.
    + rewrite M4 by done. done.
    + assert (o' ∈ origins moves) as Hin1 by (apply list_elem_of_fmap; by exists (o', (a', b'))).
      assert ((a', b') ∈ targets moves) as Hin2 by (apply list_elem_of_fmap; by exists (o', (a', b'))).
      assert (a' ∈ secs) as Ha'. { apply Hs. right. apply list_elem_of_fmap. by exists (a', b'). }
      rewrite (M2 o' a' b' Hin). rewrite Forall_forall in Hd. specialize (Hd o' Hin1).
      rewrite Hp; [|done|naive_solver]. cbn [get]. rewrite K1; [done|naive_solver|naive_solver].
  - intros k [H1 H2]%not_elem_of_cons H3. rewrite M3 by done. apply K1; naive_solver.
  - intros a' b' Ha' [H1 H2]%not_elem_of_cons. rewrite M4 by done. by apply Hp.
Qed.

Lemma move_all_nothing moves t :
  (∀ o, o ∈ origins moves → table_get o t = None) → move_all moves (VTable t) = Ok (VTable t).
Proof.
  induction moves as [|[o [a b]] moves IH]; intros Hn; [done|]. cbn [move_all]. unfold move_value. cbn [take_item].
  rewrite (Hn o) by left. cbn [mbind exec_bind mret exec_ret]. apply IH. intros o' Ho. apply Hn. by right.
Qed.

(** C20: every renamed option is moved to its new place.  In a configuration whose sections
    are tables the migration succeeds; each old name is gone and its value is what the
    new name now has; an option that was not set under its old name, and every option
    that was not renamed, is as before; and migrating again changes nothing. *)
Theorem migration_moves_options t :
  Forall (section_ok (VTable t)) (sections renames) →
  ∃ d', move_all renames (VTable t) = Ok d' ∧ moved renames (sections renames) (VTable t) d' ∧
    move_all renames d' = Ok d'.
Proof.
  intros Hok. destruct (move_all_spec renames (sections renames) t) as (t' & E & Hm).
  - apply (bool_decide_unpack _). vm_compute. exact I.
  - apply (bool_decide_unpack _). vm_compute. exact I.
  - done.
  - apply (bool_decide_unpack _). vm_compute. exact I.
  - done.
  - exists (VTable t'). split_and!; [done|done|]. apply move_all_nothing. intros o Ho. by apply (moved_origin _ _ _ _ Hm).
Qed.

(** A shell, a list of imports and two sections. *)
Definition demo_config : Table :=
  [(ascii "shell", VString (ascii "zsh")); (ascii "import", VArray [VString (ascii "a.yml")]);
   (ascii "general", VTable [(ascii "live_config_reload", VBoolean true)]); (ascii "window", VTable [])].

Lemma migration_moves_options_witness :
  ∃ d', move_all renames (VTable demo_config) = Ok d' ∧
    get_path [ascii "terminal"; ascii "shell"] d' = Some (VString (ascii "zsh")) ∧
    get_path [ascii "general"; ascii "live_config_reload"] d' = Some (VBoolean true).
Proof.
  destruct (migration_moves_options demo_config) as (d' & E & Hm & _); [repeat constructor|].
  exists d'. split; [exact E|]. split.
  - rewrite (moved_target _ _ _ _ Hm (ascii "shell")); [reflexivity|]. apply list_elem_of_In. simpl. tauto.
  - rewrite (moved_target _ _ _ _ Hm (ascii "live_config_reload")); [reflexivity|]. apply list_elem_of_In. simpl. tauto.
Defined.

(** ** Properties of files *)

Section safety.
Context `{Files} {TomlError TomlSeError YamlError : Type}.
Context (toml_from_str : str → TomlError + Value) (yaml_from_str : str → YamlError + Yaml).
Context (toml_to_string : Yaml → TomlSeError + str) (value_to_string : Value → TomlSeError + str).
Context (parse_document : str → TomlError + Value) (print_document : Value → str).
Context (home_dir : option Path) (installed_config : str → option Path).
#[local] Abbreviation M := (@M _ TomlError TomlSeError YamlError).
#[local] Abbreviation config := (migrate_config toml_from_str yaml_from_str toml_to_string value_to_string parse_document
  print_document home_dir).
#[local] Abbreviation migrate := (Migrate.migrate toml_from_str yaml_from_str toml_to_string value_to_string
  parse_document print_document home_dir installed_config).

(** An action that writes no file. *)
Definition keeps {A} (m : M A) : Prop := ∀ s, wlp (m s) (λ '(_, s'), files s' = files s).

Lemma keeps_ret {A} (a : A) : keeps (mret a).
Proof. done. Qed.
Lemma keeps_bind {A B} (m : M A) (f : A → M B) : keeps m → (∀ a, keeps (f a)) → keeps (m ≫= f).
Proof.
  intros Hm Hf s. unfold mbind, M_bind. specialize (Hm s). destruct (m s) as [[[e|a] s1]|]; try done.
  specialize (Hf a s1). destruct (f a s1) as [[r s2]|]; [|done]. simpl in *. congruence.
Qed.
Lemma keeps_fail {A} e : keeps (A := A) (fail e).
Proof. done. Qed.
Lemma keeps_lift {A} (m : exec A) : keeps (lift m).
Proof. intros s. unfold lift. by destruct m. Qed.
Lemma keeps_files : keeps get_files.
Proof. done. Qed.
Lemma keeps_tell_if b o : keeps (tell_if b o).
Proof. by destruct b. Qed.

#[local] Ltac keeps_tac :=
  repeat (first [apply keeps_ret | apply keeps_fail | apply keeps_lift | apply keeps_files | apply keeps_tell_if
                | apply keeps_bind; [|intros] | case_match | done]).

Lemma keeps_migrate_toml toml : keeps (migrate_toml parse_document toml).
Proof. unfold migrate_toml. keeps_tac. Qed.
Lemma keeps_write_results options p toml : dry_run options = true → keeps (write_results options p toml).
Proof. intros Hd. unfold write_results. rewrite Hd. keeps_tac. Qed.

Lemma keeps_migrate_file options migrate_import p limit :
  dry_run options = true → (∀ p, keeps (migrate_import p)) →
  keeps (migrate_file toml_from_str yaml_from_str toml_to_string value_to_string parse_document print_document home_dir
    options migrate_import p limit).
Proof.
  intros Hd Hi. assert (∀ p, keeps (migrate_one options migrate_import p)) as Ho by (intros; unfold migrate_one; keeps_tac; apply Hi).
  assert (∀ p ims, keeps (toml_imports_loop home_dir options migrate_import p ims)) as Ht.
  { intros p' ims. induction ims; simpl; keeps_tac; try apply Ho; done. }
  assert (∀ ims vs, keeps (yaml_imports_loop options migrate_import ims vs)) as Hy.
  { intros ims. induction ims as [|[] ims IH]; intros vs; simpl; keeps_tac; try apply Ho; apply IH. }
  unfold migrate_file, yaml_migrate, yaml_migrate_imports, migrate_imports.
  keeps_tac; try apply keeps_migrate_toml; try apply Ht; try apply Hy; by apply keeps_write_results.
Qed.

Lemma keeps_config options limit p : dry_run options = true → keeps (config options limit p).
Proof.
  intros Hd. revert p. induction limit as [|limit IH]; intros p; apply keeps_migrate_file; try done.
Qed.

Lemma M_bind_inv {A B} (m : M A) (f : A → M B) s b s' :
  (m ≫= f) s = Ok (inr b, s') → ∃ a s1, m s = Ok (inr a, s1) ∧ f a s1 = Ok (inr b, s').
Proof. unfold mbind, M_bind. destruct (m s) as [[[e|a] s1]|]; try done. eauto. Qed.

(** A file that is migrated in place. *)
Definition names_toml (p : Path) : bool :=
  match rsplit_dot (path_to_string p) with Some (_, suffix) => negb (bool_decide (suffix = ascii "yml")) | None => false end.

(** The new text of a TOML file, made from the one in [f]. *)
Definition new_text (f : Fs) (p : Path) (text : str) : Prop :=
  ∃ old d d', fs_read f p = inr old ∧ parse_document old = inr d ∧ move_all renames d = Ok d' ∧ text = print_document d'.

Context {laws : FilesLaws}.

Lemma write_results_writes options p toml s u s' :
  (write_results options p toml : M unit) s = Ok (inr u, s') →
  (dry_run options = false → fs_read (files s') p = inr toml) ∧
  (dry_run options = true → mo_silent options = false → Document p toml ∈ output s').
Proof using laws.
  unfold write_results. intros E. split; [intros Hd|intros Hd Hs]; rewrite Hd in E.
  - apply M_bind_inv in E as (dir & s1 & _ & E). apply M_bind_inv in E as (f & s2 & [= <- <-] & E).
    destruct (fs_replace _ p toml) as [f'|] eqn:Ef; [|done]. injection E as _ <-. by eapply fs_read_replaced.
  - rewrite Hs in E. injection E as _ <-. cbn [output]. apply elem_of_app. right. by apply list_elem_of_singleton.
Qed.

Lemma migrate_file_writes options migrate_import limit p s m s' :
  names_toml p = true → skip_renames options = false →
  migrate_file toml_from_str yaml_from_str toml_to_string value_to_string parse_document print_document home_dir
    options migrate_import p limit s = Ok (inr m, s') →
  ∃ text, new_text (files s) p text ∧
    (dry_run options = false → fs_read (files s') p = inr text) ∧
    (dry_run options = true → mo_silent options = false → Document p text ∈ output s').
Proof using laws.
  unfold names_toml, migrate_file. intros Hp ->. destruct (rsplit_dot _) as [[prefix suffix]|]; [|done].
  apply negb_true_iff in Hp as ->. intros (f & s1 & [= <- <-] & E)%M_bind_inv.
  apply M_bind_inv in E as (old & s2 & E1 & E). destruct (fs_read (files s) p) as [|old'] eqn:Er; [done|].
  injection E1 as -> <-. apply M_bind_inv in E as (d' & s3 & E1 & E). unfold migrate_toml in E1.
  destruct (parse_document old) as [|d] eqn:Ep; [done|]. unfold lift in E1.
  destruct (move_all renames d) as [d1|] eqn:Em; [|done]. injection E1 as -> <-.
  apply M_bind_inv in E as ([] & s4 & _ & E). apply M_bind_inv in E as ([] & s5 & E1 & E). injection E as _ <-.
  exists (print_document d'). split; [by exists old, d, d'|]. by eapply write_results_writes.
Qed.

End safety.

(** ** Examples *)

(** Files as a function. *)
Definition demo_files : Type := Path → IoError + str.
#[local] Instance demo_fs : Files := {|
  Fs := demo_files;
  fs_read f p := f p;
  fs_exists f p := match f p with inl NotFound => false | _ => true end;
  fs_replace f p text := Some (λ q, if bool_decide (q = p) then inr text else f q) |}.
#[local] Instance demo_fs_laws : FilesLaws.
Proof. split. cbn. intros f f' p text [= <-]. by rewrite bool_decide_eq_true_2. Qed.

(** Documents with a shell, and with an import if the text says so. *)
Definition demo_parse (text : str) : unit + Value :=
  inr (VTable ((ascii "shell", VString text)
       :: if bool_decide (text = ascii "root") then [(ascii "import", VArray [VString (ascii "b.toml")])] else [])).
Definition demo_print (d : Value) : str :=
  match get_path [ascii "terminal"; ascii "shell"] d with Some (VString s) => ascii "new " ++ s | _ => [] end.
Definition demo_tree (root : str) : demo_files := λ p,
  if bool_decide (p = path_of (ascii "/a.toml")) then inr root
  else if bool_decide (p = path_of (ascii "/b.toml")) then inr (ascii "fish") else inl NotFound.
#[local] Abbreviation demo_migrate :=
  (migrate (YamlError := unit) demo_parse (λ _, inl tt) (λ _, inl tt) (λ _, inl tt) demo_parse demo_print None (λ _, None)).
Definition demo_options (dry skip : bool) : MigrateOptions :=
  mkMigrateOptions (Some (path_of (ascii "/a.toml"))) dry skip false false.

Definition demo_state (r : exec (bool * State)) : State :=
  match r with Ok (_, s) => s | Panic _ => mkState (demo_tree []) [] end.


(** Imports of TOML files are migrated although they are to be skipped. *)
Example skipped_imports_migrated :
  let s' := demo_state (demo_migrate (demo_options false true) (mkState (demo_tree (ascii "root")) [])) in
  fs_read (files s') (path_of (ascii "/b.toml")) = inr (ascii "new fish").
Proof. vm_compute. reflexivity. Qed.

(** The imports in the section [general] of a YAML file are migrated, but the new file
    keeps the names of the old ones. *)
Example general_import_kept :
  let config := VTable [(ascii "general", VTable [(ascii "import", VArray [VString (ascii "/b.yml")])])] in
  imports None config (path_of (ascii "/a.yml")) IMPORT_RECURSION_LIMIT = inr [inr (path_of (ascii "/b.yml"))] ∧
  set_import [VString (ascii "/b.toml")] config = config.
Proof. split; reflexivity. Qed.
End Migrate.
