(* ===== verification/Content.v ===== *)
(** * The content of a frame (alacritty/src/display/content.rs)

    The cells to draw with their colours, and the cursor.  Colours of the crate vte
    that are computed with floats (dimming, contrast) are parameters, as are its
    bright and dim variants of named colours; the opacity of a cell is a fraction. *)

From S2P Require Import Prelude Index Ansi GridCell Row Storage Cell Grid Selection Term Search.
From S2P Require Import RegexSearch HintLabels Hints ActionContext ColorList.
From Stdlib Require Import QArith.
#[local] Open Scope Z_scope.

Module Content.
Import ActionContext ColorList.

(** ** Matches under a moving point *)

Record HintMatches := mkHintMatches { hx_matches : list Match; hx_index : nat }.

Definition hint_matches_new (ms : list Match) : HintMatches := mkHintMatches ms 0.

(** The loop of [HintMatches::advance] from the match at [index] on. *)
Fixpoint advance_from (ms : list Match) (index : nat) (p : Point) : bool * nat :=
  match ms with
  | [] => (false, index)
  | m :: ms =>
      if point_gt (m_start m) p then (false, index)
      else if point_lt (m_end m) p then advance_from ms (S index) p
      else (true, index)
  end.

Definition matches_advance (p : Point) (h : HintMatches) : bool * HintMatches :=
  let '(found, index) := advance_from (drop (hx_index h) (hx_matches h)) (hx_index h) p in
  (found, mkHintMatches (hx_matches h) index).

(** [Hint], the labels shown over matches. *)
Record HintLabel := mkHintLabel { hl_matches : HintMatches; hl_labels : list (list char) }.

Definition hint_label_from (h : HintState) : HintLabel :=
  mkHintLabel (hint_matches_new (hs_matches h)) (hs_labels h).

Definition point_max (p q : Point) : Point := if point_gt p q then p else q.

(** [i32 * i32]. *)
Definition i32_mul (a b : Z) : exec Z := checked in_i32 (a * b).

Definition hint_advance (viewport_start : Point) (num_cols : Z) (p : Point) (h : HintLabel) :
    exec (option (option char * bool) * HintLabel) :=
  let '(found, ms) := matches_advance p (hl_matches h) in
  let h := mkHintLabel ms (hl_labels h) in
  if negb found then mret (None, h)
  else
    match hx_matches ms !! hx_index ms with
    | None => mret (None, h)
    | Some bounds =>
        let start := point_max (m_start bounds) viewport_start in
        line_delta ← i32_sub (line p) (line start);
        col_delta ← i32_sub (as_i32 (column p)) (as_i32 (column start));
        offset ← i32_mul line_delta (as_i32 num_cols);
        position ← i32_add offset col_delta;
        let label_position := if 0 <=? position then position else 0 in
        let is_first := label_position =? 0 in
        label ← vec_get (hl_labels h) (Z.of_nat (hx_index ms));
        mret (Some (match zlookup label label_position with
                    | Some ch => (Some ch, is_first)
                    | None => (None, false)
                    end), h)
    end.

(** ** Cells *)

Record RenderableCellExtra := mkExtra { re_zerowidth : option (list char); re_hyperlink : option Hyperlink }.
Record RenderableCell := mkRenderable {
  rc_character : char;
  rc_at : Point;
  rc_fg : Rgb;
  rc_bg : Rgb;
  rc_bg_alpha : Q;
  rc_underline : Rgb;
  rc_flags : Z;
  rc_extra : option RenderableCellExtra }.

(** The cursor with what is needed to draw it. *)
Record DrawnCursor := mkDrawn {
  dc_shape : CursorShape;
  dc_cursor_color : Rgb;
  dc_text_color : Rgb;
  dc_width : Z;
  dc_point : Point }.
Definition cursor_new_hidden : DrawnCursor :=
  mkDrawn Hidden (mkRgb 0 0 0) (mkRgb 0 0 0) 1 (mkPoint 0 0).

(** The parts of the configuration and the display that are used. *)
Record DrawConfig := mkDrawConfig {
  dr_colors : Colors;
  dr_window_opacity : Q;
  dr_unfocused_hollow : bool;
  dr_list : list Rgb;
  dr_columns : Z }.

Section content.
Context `{Ansi}.
Context (dim_color : Rgb → Rgb) (to_bright to_dim : NamedColor → NamedColor).
(** Whether the contrast of two colours is below [MIN_CURSOR_CONTRAST]. *)
Context (low_contrast : Rgb → Rgb → bool).
Context (cfg : DrawConfig).

Record Frame := mkFrame {
  fr_terminal : RenderableContent;
  fr_cursor : DrawnCursor;
  fr_cursor_shape : CursorShape;
  fr_cursor_point : Point;
  fr_search : option HintMatches;
  fr_hint : option HintLabel;
  fr_focused_match : option Match }.
Implicit Types (f : Frame).

(** [RenderableContent::color]. *)
Definition content_color f (color : Z) : exec Rgb :=
  set ← vec_get (rd_colors (fr_terminal f)) color;
  match set with Some c => mret c | None => vec_get (dr_list cfg) color end.
Definition named_color f (n : NamedColor) : exec Rgb := content_color f (named_color_as_usize n).

Definition compute_fg_rgb f (fg : Color) (flags : Z) : exec Rgb :=
  let bold_bright := draw_bold_text_with_bright_colors (dr_colors cfg) in
  let dim_bold := Z.land flags Flags.DIM_BOLD in
  match fg with
  | Spec c => mret (if Z.land flags Flags.DIM =? Flags.DIM then dim_color c else c)
  | Named ansi =>
      if (dim_bold =? Flags.DIM_BOLD) && bool_decide (ansi = Foreground)
         && bool_decide (bright_foreground (primary (dr_colors cfg)) = None)
      then named_color f DimForeground
      else if bold_bright && (dim_bold =? Flags.BOLD) then named_color f (to_bright ansi)
      else if (dim_bold =? Flags.DIM) || (negb bold_bright && (dim_bold =? Flags.DIM_BOLD))
      then named_color f (to_dim ansi)
      else named_color f ansi
  | Indexed idx =>
      let idx :=
        if bold_bright && (dim_bold =? Flags.BOLD) && (idx <=? 7) then idx + 8
        else if negb bold_bright && (dim_bold =? Flags.DIM) && (8 <=? idx) && (idx <=? 15) then idx - 8
        else if negb bold_bright && (dim_bold =? Flags.DIM) && (idx <=? 7)
        then named_color_as_usize DimBlack + idx
        else idx in
      content_color f idx
  end.

Definition compute_bg_rgb f (bg : Color) : exec Rgb :=
  match bg with
  | Spec c => mret c
  | Named ansi => named_color f ansi
  | Indexed idx => content_color f idx
  end.

Definition compute_bg_alpha (bg : Color) : Q :=
  if bool_decide (bg = Named Background) then 0%Q
  else if transparent_background_colors (dr_colors cfg) then dr_window_opacity cfg
  else 1%Q.

(** The foreground, the background and the opacity of the background. *)
Record Look := mkLook { lk_fg : Rgb; lk_bg : Rgb; lk_alpha : Q }.

Definition compute_cell_rgb (colors : CellColors) (l : Look) : Look :=
  mkLook (cell_color (cc_foreground colors) (lk_fg l) (lk_bg l))
    (cell_color (cc_background colors) (lk_fg l) (lk_bg l))
    (if bool_decide (cc_background colors = CellBackground) then lk_alpha l else 1%Q).

Definition with_hint (h : option HintLabel) f : Frame :=
  mkFrame (fr_terminal f) (fr_cursor f) (fr_cursor_shape f) (fr_cursor_point f) (fr_search f) h (fr_focused_match f).
Definition with_search (s : option HintMatches) f : Frame :=
  mkFrame (fr_terminal f) (fr_cursor f) (fr_cursor_shape f) (fr_cursor_point f) s (fr_hint f) (fr_focused_match f).
Definition with_iter (it : GridIterator) f : Frame :=
  let t := fr_terminal f in
  mkFrame (mkRContent it (rd_selection t) (rd_cursor t) (rd_display_offset t) (rd_colors t) (rd_mode t))
    (fr_cursor f) (fr_cursor_shape f) (fr_cursor_point f) (fr_search f) (fr_hint f) (fr_focused_match f).
Definition with_cursor (c : DrawnCursor) f : Frame :=
  mkFrame (fr_terminal f) c (fr_cursor_shape f) (fr_cursor_point f) (fr_search f) (fr_hint f) (fr_focused_match f).

(** The label, the selection or the search match over a cell, in this order of
    precedence: the look, the character, the flags and the frame. *)
Definition apply_overlay (p : Point) (cell : Cell) (selected : bool) (l : Look) f :
    exec (Look * char * Z * Frame) :=
  let colors := dr_colors cfg in
  viewport_start ← i32_neg (as_i32 (rd_display_offset (fr_terminal f)));
  let start := mkPoint viewport_start 0 in
  '(label, f) ← (match fr_hint f with
                 | Some h => '(r, h) ← hint_advance start (dr_columns cfg) p h; mret (r, with_hint (Some h) f)
                 | None => mret (None, f)
                 end);
  match label with
  | Some (ch, is_first) =>
      let '(l, fl) :=
        if (is_first : bool) then (compute_cell_rgb (hints_start colors) l, flags cell)
        else match ch with
             | Some _ => (compute_cell_rgb (hints_end colors) l, flags cell)
             | None => (l, Bitflags.insert (flags cell) Flags.UNDERLINE)
             end in
      mret (l, default (c cell) ch, fl, f)
  | None =>
      if selected then
        let l := compute_cell_rgb (selection colors) l in
        if bool_decide (lk_fg l = lk_bg l) && negb (Bitflags.contains (flags cell) Flags.HIDDEN) then
          fg ← named_color f Background; bg ← named_color f Foreground;
          mret (mkLook fg bg 1%Q, c cell, flags cell, f)
        else mret (l, c cell, flags cell, f)
      else
        match fr_search f with
        | None => mret (l, c cell, flags cell, f)
        | Some s =>
            let '(found, s) := matches_advance p s in
            let f := with_search (Some s) f in
            if (found : bool) then
              let focused := match fr_focused_match f with Some m => match_contains m p | None => false end in
              mret (compute_cell_rgb (if focused then search_focused_match colors else search_matches colors) l,
                    c cell, flags cell, f)
            else mret (l, c cell, flags cell, f)
        end
  end.

(** [RenderableCell::new]. *)
Definition renderable_cell (p : Point) (cell : Cell) f : exec (RenderableCell * Frame) :=
  fg ← compute_fg_rgb f (fg cell) (flags cell);
  bg ← compute_bg_rgb f (bg cell);
  let l := if Bitflags.contains (flags cell) Flags.INVERSE then mkLook bg fg 1%Q
           else mkLook fg bg (compute_bg_alpha (Cell.bg cell)) in
  selected ← (match rd_selection (fr_terminal f) with
              | Some r => contains_cell r p cell (Search.rc_point (rd_cursor (fr_terminal f))) (fr_cursor_shape f)
              | None => mret false
              end);
  '(l, ch, fl, f) ← apply_overlay p cell selected l f;
  let alpha := if negb (Qle_bool (lk_alpha l) 0) && transparent_background_colors (dr_colors cfg)
               then dr_window_opacity cfg else lk_alpha l in
  at_ ← point_to_viewport (rd_display_offset (fr_terminal f)) p;
  at_ ← unwrap at_;
  underline ← (match underline_color cell with Some u => compute_fg_rgb f u fl | None => mret (lk_fg l) end);
  let extra := match zerowidth cell, hyperlink cell with
               | None, None => None
               | z, h => Some (mkExtra z h)
               end in
  mret (mkRenderable ch at_ (lk_fg l) (lk_bg l) alpha underline fl extra, f).

Definition cell_is_empty (x : RenderableCell) : bool :=
  Qeq_bool (rc_bg_alpha x) 0 && (rc_character x =? SPACE) && bool_decide (rc_extra x = None)
  && negb (Bitflags.intersects (rc_flags x) (Z.lor Flags.ALL_UNDERLINES Flags.STRIKEOUT)).

(** [renderable_cursor]. *)
Definition drawn_cursor (x : RenderableCell) f : exec DrawnCursor :=
  let colors := dr_colors cfg in
  let color := if Bitflags.contains (rd_mode (fr_terminal f)) TermMode.VI then vi_mode_cursor colors
               else cursor colors in
  set ← vec_get (rd_colors (fr_terminal f)) (named_color_as_usize CursorColor);
  let cursor_color := match set with Some c => CellColor c | None => cc_background color end in
  let text_color := cc_foreground color in
  let is_rgb c := match c with CellColor _ => true | _ => false end in
  let insufficient := (negb (is_rgb cursor_color) || negb (is_rgb text_color)) && low_contrast (rc_fg x) (rc_bg x) in
  let width := if Bitflags.contains (rc_flags x) Flags.WIDE_CHAR then 2 else 1 in
  mret (if insufficient
        then mkDrawn (fr_cursor_shape f) (foreground (primary colors)) (background (primary colors)) width
               (fr_cursor_point f)
        else mkDrawn (fr_cursor_shape f) (cell_color cursor_color (rc_fg x) (rc_bg x))
               (cell_color text_color (rc_fg x) (rc_bg x)) width (fr_cursor_point f)).

(** ** The iterator *)

Definition under_cursor (d : DrawnCursor) (x : RenderableCell) : RenderableCell :=
  if bool_decide (dc_shape d = Block)
  then mkRenderable (rc_character x) (rc_at x) (dc_text_color d) (dc_cursor_color d) 1%Q (rc_underline x)
         (rc_flags x) (rc_extra x)
  else x.

(** One round of the loop in [next]: the cell is yielded or skipped. *)
Definition content_step (p : Point) (cell : Cell) f : exec (option RenderableCell * Frame) :=
  '(x, f) ← renderable_cell p cell f;
  if bool_decide (fr_cursor_point f = rc_at x) then
    d ← drawn_cursor x f;
    mret (Some (under_cursor d x), with_cursor d f)
  else if negb (cell_is_empty x) && negb (Bitflags.contains (rc_flags x) Flags.WIDE_CHAR_SPACER)
  then mret (Some x, f)
  else mret (None, f).

Fixpoint content_next (fuel : nat) (g : Grid Cell) f : exec (option RenderableCell * Frame) :=
  match fuel with
  | O => Panic OutOfFuel
  | S fuel =>
      '(next, it) ← iter_next g (rd_display_iter (fr_terminal f));
      let f := with_iter it f in
      match next with
      | None => mret (None, f)
      | Some (p, cell) =>
          '(x, f) ← content_step p cell f;
          match x with Some x => mret (Some x, f) | None => content_next fuel g f end
      end
  end.

(** Draining the iterator, as the display does. *)
Fixpoint content_collect (n fuel : nat) (g : Grid Cell) f : exec (list RenderableCell * Frame) :=
  match n with
  | O => Panic OutOfFuel
  | S n =>
      '(x, f) ← content_next fuel g f;
      match x with
      | None => mret ([], f)
      | Some x => '(xs, f) ← content_collect n fuel g f; mret (x :: xs, f)
      end
  end.

(** [RenderableContent::new], for a display with its hints, its hidden cursor and its
    composition of characters. *)
Definition content_new (fuel n : nat) (t : Term) (ss : SearchState) (hints : HintState)
    (cursor_hidden preedit : bool) : exec (Frame * HintState) :=
  search ← (match dfas ss with
            | Some regex => ms ← visible_regex_matches fuel n regex t; mret (Some (hint_matches_new ms))
            | None => mret None
            end);
  content ← renderable_content t;
  let regex_active := match history_index ss with
                      | Some i => match zlookup (history ss) i with Some _ => true | None => false end
                      | None => false
                      end in
  let sh :=
    if bool_decide (rc_shape (rd_cursor content) = Hidden) || cursor_hidden || regex_active || preedit then Hidden
    else if negb (t_is_focused t) && dr_unfocused_hollow cfg then HollowBlock
    else rc_shape (rd_cursor content) in
  p ← point_to_viewport (rd_display_offset content) (Search.rc_point (rd_cursor content));
  p ← unwrap p;
  '(hint, hints) ← (if hints_active hints
                    then h ← update_matches fuel n t hints; mret (Some (hint_label_from h), h)
                    else mret (None, hints));
  mret (mkFrame content cursor_new_hidden sh p search hint (focused_match ss), hints).
End content.

(** ** Facts about matches *)

(** Matches in the order in which they start. *)
Fixpoint by_start (ms : list Match) : Prop :=
  match ms with [] => True | m :: ms => (∀ m', m' ∈ ms → point_le (m_start m) (m_start m') = true) ∧ by_start ms end.

Ltac points := rewrite ?andb_true_iff, ?andb_false_iff, ?point_lt_spec, ?point_le_spec in *; unfold point_gt in *.

Lemma advance_from_spec (ms : list Match) (index : nat) (p : Point) :
  by_start ms →
  ∃ k, advance_from ms index p = (existsb (λ m, match_contains m p) ms, (index + k)%nat) ∧
    (∀ i m, (i < k)%nat → ms !! i = Some m → point_lt (m_end m) p = true) ∧
    (existsb (λ m, match_contains m p) ms = true → ∃ m, ms !! k = Some m ∧ match_contains m p = true).
Proof.
  revert index. induction ms as [|m ms IH]; intros index Hs.
  { exists 0%nat. simpl. rewrite Nat.add_0_r. split; [done|]. split; [intros; lia|intros [=]]. }
  destruct Hs as [Hm Hs]. simpl. destruct (point_gt (m_start m) p) eqn:Eg.
  - exists 0%nat. rewrite Nat.add_0_r.
    assert (Ef : ∀ m', m' ∈ m :: ms → match_contains m' p = false).
    { intros m' [->|Hin]%elem_of_cons; unfold match_contains.
      - apply andb_false_iff. left. apply not_true_iff_false. unfold point_gt in Eg. points. lia.
      - specialize (Hm m' Hin). apply andb_false_iff. left. apply not_true_iff_false. unfold point_gt in Eg. points. lia. }
    assert (E : existsb (λ m, match_contains m p) (m :: ms) = false).
    { apply not_true_iff_false. intros (m' & Hin%list_elem_of_In & Hc)%existsb_exists. by rewrite Ef in Hc. }
    simpl in E. rewrite E. split; [done|]. split; [intros; lia|intros [=]].
  - destruct (point_lt (m_end m) p) eqn:El.
    + destruct (IH (S index) Hs) as (k & -> & Hk & Hf). exists (S k).
      assert (E : match_contains m p = false).
      { unfold match_contains. apply andb_false_iff. right. apply not_true_iff_false. points. lia. }
      rewrite E. simpl. split; [do 2 f_equal; lia|]. split; [|done].
      intros [|i] m' Hi; [by intros [= ->]|]. apply Hk. lia.
    + exists 0%nat. rewrite Nat.add_0_r.
      assert (E : match_contains m p = true).
      { unfold match_contains. apply not_true_iff_false in Eg, El. unfold point_gt in Eg. points. lia. }
      rewrite E. simpl. split; [done|]. split; [lia|]. intros _. exists m. split; [done|]. exact E.
Qed.

Lemma by_start_drop k ms : by_start ms → by_start (drop k ms).
Proof. revert ms. induction k as [|k IH]; intros [|m ms] Hs; try done. apply IH, Hs. Qed.

(** A sequence of points. *)
Fixpoint advance_all (ps : list Point) (h : HintMatches) : list bool :=
  match ps with [] => [] | p :: ps => let '(found, h) := matches_advance p h in found :: advance_all ps h end.
Fixpoint ascending (ps : list Point) : Prop :=
  match ps with [] => True | p :: ps => (∀ q, q ∈ ps → point_le p q = true) ∧ ascending ps end.

(** The matches that were passed end before a point. *)
Definition passed (h : HintMatches) (p : Point) : Prop :=
  ∀ i m, (i < hx_index h)%nat → hx_matches h !! i = Some m → point_lt (m_end m) p = true.

Lemma passed_contains h p :
  passed h p →
  existsb (λ m, match_contains m p) (drop (hx_index h) (hx_matches h))
  = existsb (λ m, match_contains m p) (hx_matches h).
Proof.
  intros Hp. rewrite <- (take_drop (hx_index h) (hx_matches h)) at 2. rewrite existsb_app.
  assert (E : existsb (λ m, match_contains m p) (take (hx_index h) (hx_matches h)) = false); [|by rewrite E].
  apply not_true_iff_false. intros (m & [i Hi]%list_elem_of_In%list_elem_of_lookup & Hc)%existsb_exists.
  apply lookup_take_Some in Hi as [Hi Hlt]. specialize (Hp i m Hlt Hi). unfold match_contains in Hc. points. lia.
Qed.

Lemma matches_advance_spec p h :
  by_start (hx_matches h) → passed h p →
  ∃ h', matches_advance p h = (existsb (λ m, match_contains m p) (hx_matches h), h') ∧
    hx_matches h' = hx_matches h ∧ ∀ q, point_le p q = true → passed h' q.
Proof.
  intros Hs Hp. unfold matches_advance.
  destruct (advance_from_spec (drop (hx_index h) (hx_matches h)) (hx_index h) p (by_start_drop _ _ Hs))
    as (k & E & Hk & _).
  rewrite E, passed_contains by done. eexists. split; [done|]. split; [done|]. intros q Hq i m Hi Hm. simpl in *.
  assert (G : point_lt (m_end m) p = true); [|points; lia].
  destruct (decide (i < hx_index h)%nat); [by apply (Hp i)|]. apply (Hk (i - hx_index h)%nat); [lia|].
  rewrite lookup_drop. by replace (hx_index h + (i - hx_index h))%nat with i by lia.
Qed.

(** The highlighting of search matches and hints is exact: while the points of a
    frame are visited in order, the tracker, which looks at every match only once,
    says of each point whether it is inside of one of the matches, for any matches in
    the order of their start, also overlapping ones. *)
Lemma matches_advance_exact (ms : list Match) (ps : list Point) :
  by_start ms → ascending ps →
  advance_all ps (hint_matches_new ms) = (λ p, existsb (λ m, match_contains m p) ms) <$> ps.
Proof.
  intros Hs Ha.
  assert (G : ∀ h, hx_matches h = ms → (∀ p, p ∈ ps → passed h p) →
    advance_all ps h = (λ p, existsb (λ m, match_contains m p) ms) <$> ps).
  { induction ps as [|p ps IH]; intros h <- Hp; [done|]. destruct Ha as [Hq Ha]. simpl.
    destruct (matches_advance_spec p h Hs (Hp p (list_elem_of_here _ _))) as (h' & -> & E & Hn).
    f_equal. rewrite <- E in *. apply IH; [done|done|]. intros q Hq'. apply Hn. by apply Hq. }
  apply G; [done|]. intros p _ i m Hi. simpl in Hi. lia.
Qed.

End Content.
