(* ===== verification/RenderLines.v ===== *)
(** * Underlines and strikeouts (alacritty/src/renderer/rects.rs)

    The horizontal lines that are drawn through cells, collected while the cells of a
    frame are drawn, and their division into pieces within a line of the screen.  Where
    the pieces are in pixels, and the OpenGL code that draws them, is not modelled. *)

From S2P Require Import Prelude Index Ansi GridCell Cell ColorList Content.
From Stdlib Require Import QArith.
From stdpp Require Import gmap.
#[local] Open Scope Z_scope.

Module RenderLines.
Import Content.

Record RenderLine := mkLine { l_start : Point; l_end : Point; l_color : Rgb }.

(** [RenderLines]: the lines of each flag. *)
Abbreviation RenderLines := (gmap Z (list RenderLine)).
Implicit Types (ls : RenderLines) (x : RenderableCell) (l : RenderLine).

(** The underline color escape does not apply to strikeout. *)
Definition line_color (flag : Z) x : Rgb :=
  if Bitflags.contains flag Flags.STRIKEOUT then rc_fg x else rc_underline x.

Definition cell_end x : exec Point :=
  if Bitflags.contains (rc_flags x) Flags.WIDE_CHAR
  then col ← usize_add (column (rc_at x)) 1; mret (mkPoint (line (rc_at x)) col)
  else mret (rc_at x).

(** Whether a cell continues a line. *)
Definition continues (color : Rgb) x l : exec bool :=
  if negb (bool_decide (color = l_color l)) then mret false
  else
    next ← usize_add (column (l_end l)) 1;
    mret ((column (rc_at x) =? next) && (line (rc_at x) =? line (l_end l))).

(** The last line is replaced. *)
Definition set_last (l : RenderLine) (lines : list RenderLine) : list RenderLine := removelast lines ++ [l].

Definition update_flag x (flag : Z) ls : exec RenderLines :=
  if negb (Bitflags.contains (rc_flags x) flag) then mret ls
  else
    let color := line_color flag x in
    end_ ← cell_end x;
    let lines := default [] (ls !! flag) in
    joined ← (match last lines with Some l => continues color x l | None => mret false end);
    match last lines with
    | Some l =>
        if (joined : bool) then mret (<[flag := set_last (mkLine (l_start l) end_ (l_color l)) lines]> ls)
        else mret (<[flag := lines ++ [mkLine (rc_at x) end_ color]]> ls)
    | None => mret (<[flag := lines ++ [mkLine (rc_at x) end_ color]]> ls)
    end.

Definition line_flags : list Z :=
  [Flags.UNDERLINE; Flags.DOUBLE_UNDERLINE; Flags.STRIKEOUT; Flags.UNDERCURL; Flags.DOTTED_UNDERLINE;
   Flags.DASHED_UNDERLINE].

Fixpoint update_flags x (fs : list Z) ls : exec RenderLines :=
  match fs with [] => mret ls | flag :: fs => ls ← update_flag x flag ls; update_flags x fs ls end.
Definition update x ls : exec RenderLines := update_flags x line_flags ls.

Fixpoint update_all (xs : list RenderableCell) ls : exec RenderLines :=
  match xs with [] => mret ls | x :: xs => ls ← update x ls; update_all xs ls end.

(** [RenderLine::rects] without the pixels: the pieces of a line. *)
Fixpoint pieces (fuel : nat) (last_column : Z) (start end_ : Point) : exec (list (Point * Point)) :=
  match fuel with
  | O => Panic OutOfFuel
  | S fuel =>
      if line start <? line end_ then
        next ← usize_add (line start) 1;
        rest ← pieces fuel last_column (mkPoint next 0) end_;
        mret ((start, mkPoint (line start) last_column) :: rest)
      else mret [(start, end_)]
  end.

(** ** What the lines cover *)

Definition on_line l (p : Point) (color : Rgb) : Prop :=
  line p = line (l_start l) ∧ column (l_start l) ≤ column p ≤ column (l_end l) ∧ color = l_color l.

Definition on_cell (flag : Z) x (p : Point) (color : Rgb) : Prop :=
  Bitflags.contains (rc_flags x) flag = true ∧ color = line_color flag x ∧ line p = line (rc_at x) ∧
  column (rc_at x) ≤ column p ≤ column (rc_at x) + (if Bitflags.contains (rc_flags x) Flags.WIDE_CHAR then 1 else 0).

Definition flat l : Prop := line (l_end l) = line (l_start l) ∧ column (l_start l) ≤ column (l_end l) ∧
  0 ≤ column (l_end l) ≤ 1073741824.

Definition covered ls (flag : Z) (p : Point) (color : Rgb) : Prop :=
  ∃ l, l ∈ default [] (ls !! flag) ∧ on_line l p color.

Definition lines_ok ls : Prop := ∀ flag lines, ls !! flag = Some lines → Forall flat lines.

Definition placed_cell x : Prop := 0 ≤ column (rc_at x) < 1073741824.

Lemma cell_end_ok x :
  placed_cell x → ∃ e, cell_end x = Ok e ∧ line e = line (rc_at x) ∧
    column e = column (rc_at x) + (if Bitflags.contains (rc_flags x) Flags.WIDE_CHAR then 1 else 0).
Proof.
  intros Hx. unfold cell_end, placed_cell in *. destruct (Bitflags.contains _ _); [|eexists; split; [done|]; lia].
  rewrite usize_add_ok by lia. eexists. split; [done|]. done.
Qed.

Lemma last_split {A} (lines : list A) (l : A) : last lines = Some l → lines = removelast lines ++ [l].
Proof.
  intros Hl. apply last_Some in Hl as [l' ->]. by rewrite removelast_last.
Qed.

Lemma update_flag_spec x flag ls :
  placed_cell x → lines_ok ls →
  wp (update_flag x flag ls) (λ ls', lines_ok ls' ∧
    (∀ p color, covered ls' flag p color ↔ covered ls flag p color ∨ on_cell flag x p color) ∧
    (∀ flag', flag' ≠ flag → ls' !! flag' = ls !! flag')).
Proof.
  intros Hx Hok. unfold update_flag. destruct (Bitflags.contains (rc_flags x) flag) eqn:Ef; simpl.
  2:{ split; [done|]. split; [|done]. intros p color. unfold on_cell. rewrite Ef. naive_solver. }
  destruct (cell_end_ok x Hx) as (e & -> & Ee & Ec). simpl. set (lines := default [] (ls !! flag)).
  assert (Hlines : Forall flat lines).
  { unfold lines. destruct (ls !! flag) as [k|] eqn:E; [by eapply Hok|constructor]. }
  set (new := mkLine (rc_at x) e (line_color flag x)).
  assert (Hflat : flat new) by (unfold flat, new, placed_cell in *; simpl; destruct (Bitflags.contains (rc_flags x) Flags.WIDE_CHAR); lia).
  assert (Hnew : ∀ p color, on_line new p color ↔ on_cell flag x p color).
  { intros p color. unfold on_line, on_cell, new. simpl. rewrite Ef, Ec. naive_solver. }
  assert (Happ : wp (Ok (<[flag := lines ++ [new]]> ls)) (λ ls', lines_ok ls' ∧
    (∀ p color, covered ls' flag p color ↔ covered ls flag p color ∨ on_cell flag x p color) ∧
    (∀ flag', flag' ≠ flag → ls' !! flag' = ls !! flag'))).
  { simpl. split_and!.
    - intros flag' k. destruct (decide (flag' = flag)) as [->|Hn].
      + rewrite lookup_insert_eq. intros [= <-]. apply Forall_app. by split; [|constructor].
      + rewrite lookup_insert_ne by done. apply Hok.
    - intros p color. unfold covered. rewrite lookup_insert_eq. simpl. fold lines. rewrite <- Hnew.
      setoid_rewrite elem_of_app. setoid_rewrite list_elem_of_singleton. naive_solver.
    - intros flag' Hn. by rewrite lookup_insert_ne. }
  destruct (last lines) as [l|] eqn:El; [|exact Happ]. unfold continues.
  case_bool_decide as Ecol; simpl; [|exact Happ].
  pose proof (last_split _ _ El) as Es. rewrite Es in Hlines. apply Forall_app in Hlines as [Hrest [Hl _]%Forall_cons].
  rewrite usize_add_ok by (unfold flat in Hl; lia). simpl. destruct ((_ =? _) && _) eqn:Ej; [|exact Happ].
  apply andb_true_iff in Ej as [E1%Z.eqb_eq E2%Z.eqb_eq]. set (merged := mkLine (l_start l) e (l_color l)).
  assert (Hm : ∀ p color, on_line merged p color ↔ on_line l p color ∨ on_line new p color).
  { intros p color. unfold on_line, merged, new. cbn [l_start l_end l_color]. rewrite Ecol. destruct Hl as (H1 & H2 & _).
    destruct (Bitflags.contains (rc_flags x) Flags.WIDE_CHAR); (split; [intros (Hp & Hc & ->)|intros [(Hp & Hc & ->)|(Hp & Hc & ->)]]);
      try (split_and!; first [lia|done]);
      (destruct (decide (column p ≤ column (l_end l))); [left|right]; split_and!; first [lia|done]). }
  simpl. split_and!.
  - intros flag' k. destruct (decide (flag' = flag)) as [->|Hn].
    + rewrite lookup_insert_eq. intros [= <-]. apply Forall_app. split; [done|]. constructor; [|constructor].
      unfold flat, merged, placed_cell in *. simpl. destruct (Bitflags.contains (rc_flags x) Flags.WIDE_CHAR); lia.
    + rewrite lookup_insert_ne by done. apply Hok.
  - intros p color. unfold covered. rewrite lookup_insert_eq. simpl. fold lines. rewrite <- Hnew, Es. unfold set_last.
    setoid_rewrite elem_of_app. setoid_rewrite list_elem_of_singleton.
    assert (Er : removelast (removelast lines ++ [l]) = removelast lines) by apply removelast_last. rewrite Er.
    pose proof (Hm p color). naive_solver.
  - intros flag' Hn. by rewrite lookup_insert_ne.
Qed.

Lemma update_flags_spec x fs ls :
  placed_cell x → lines_ok ls → NoDup fs →
  wp (update_flags x fs ls) (λ ls', lines_ok ls' ∧
    (∀ flag p color, flag ∈ fs → covered ls' flag p color ↔ covered ls flag p color ∨ on_cell flag x p color) ∧
    (∀ flag, flag ∉ fs → ls' !! flag = ls !! flag)).
Proof.
  intros Hx. revert ls. induction fs as [|flag fs IH]; intros ls Hok Hd; simpl.
  - split; [done|]. split; [by intros ? ? ? ?%elem_of_nil|done].
  - apply NoDup_cons in Hd as [Hn Hd]. apply wp_bind. eapply wp_mono; [by apply update_flag_spec|].
    intros ls1 (Hok1 & Hc1 & Ho1). eapply wp_mono; [by apply IH|]. intros ls2 (Hok2 & Hc2 & Ho2). split_and!; [done|..].
    + intros flag' p color [->|Hin]%elem_of_cons.
      * unfold covered at 1. rewrite (Ho2 flag Hn). apply Hc1.
      * rewrite (Hc2 flag' p color Hin). unfold covered at 1. rewrite Ho1 by (intros ->; done). done.
    + intros flag' [Hn1 Hn2]%not_elem_of_cons. rewrite (Ho2 flag' Hn2). by apply Ho1.
Qed.

Lemma line_flags_distinct : NoDup line_flags.
Proof. apply (bool_decide_unpack _). vm_compute. exact I. Qed.

(** The lines drawn through a frame are exactly those of its cells: for every
    decoration, a place is on a collected line of a colour if and only if it belongs to
    a cell, or to the second half of a wide cell, that has this decoration in this
    colour; joining neighbouring cells into one line neither loses nor adds a place, in
    whatever order the cells are drawn. *)
Lemma lines_cover_cells (xs : list RenderableCell) :
  Forall placed_cell xs →
  ∃ ls, update_all xs ∅ = Ok ls ∧
    ∀ flag p color, flag ∈ line_flags → covered ls flag p color ↔ ∃ x, x ∈ xs ∧ on_cell flag x p color.
Proof.
  intros Hxs. apply wp_exists.
  assert (G : ∀ ls, lines_ok ls → wp (update_all xs ls) (λ ls', ∀ flag p color, flag ∈ line_flags →
    covered ls' flag p color ↔ covered ls flag p color ∨ ∃ x, x ∈ xs ∧ on_cell flag x p color)).
  { induction Hxs as [|x xs Hx Hxs IH]; intros ls Hok; simpl.
    - intros flag p color _. setoid_rewrite elem_of_nil. naive_solver.
    - apply wp_bind. eapply wp_mono; [apply update_flags_spec; [done|done|apply line_flags_distinct]|].
      intros ls1 (Hok1 & Hc1 & _). eapply wp_mono; [by apply IH|]. intros ls2 Hc2 flag p color Hf.
      rewrite (Hc2 flag p color Hf), (Hc1 flag p color Hf). setoid_rewrite elem_of_cons. naive_solver. }
  eapply wp_mono; [apply G|].
  - intros flag lines Hl. by rewrite lookup_empty in Hl.
  - intros ls Hc flag p color Hf. rewrite (Hc flag p color Hf). unfold covered. rewrite lookup_empty. simpl.
    setoid_rewrite elem_of_nil. naive_solver.
Qed.

End RenderLines.
