(* ===== verification/TextRender.v ===== *)
(** * Glyphs and batches (alacritty/src/renderer/text)

    The cache of glyphs (glyph_cache.rs) and what draws cells with them (mod.rs): a glyph is
    rasterized once, loaded into a texture, and drawn with others of the same texture in a
    batch.  Both renderers, of OpenGL 3 (glsl3.rs) and of OpenGL ES 2 (gles2.rs), are
    instances of one class, as they implement one trait.  The rasterizer and the built-in
    font, which is drawn with floats, are parameters. *)

From S2P Require Import Prelude Ansi GridCell Index Hints FrameDamage ActionContext DisplaySize Atlas ConfigFiles Content.
From stdpp Require Import gmap.
From Stdlib Require Import QArith Qround.
#[local] Open Scope Z_scope.

Module TextRender.
Import FrameDamage ActionContext DisplaySize Content.

(** ** Fonts *)

Record FontDescription := mkFontDescription { fd_family : text; fd_style : option text }.
Record SecondaryFontDescription := mkSecondary { sf_family : option text; sf_style : option text }.
Definition desc (s : SecondaryFontDescription) (fallback : FontDescription) : FontDescription :=
  mkFontDescription (default (fd_family fallback) (sf_family s)) (sf_style s).
Definition default_description : FontDescription := mkFontDescription (ConfigFiles.ascii "monospace") None.

Record Delta := mkDelta { delta_x : Z; delta_y : Z }.
Record FontConfig := mkFontConfig {
  fc_offset : Delta;
  fc_glyph_offset : Delta;
  fc_normal : FontDescription;
  fc_bold : SecondaryFontDescription;
  fc_italic : SecondaryFontDescription;
  fc_bold_italic : SecondaryFontDescription;
  fc_size : Z;
  fc_builtin_box_drawing : bool }.

(** The types of the rasterizer.  The metrics are those the cache uses, cut to integers. *)
Inductive Slant := SlantNormal | SlantItalic.
Inductive Weight := WeightNormal | WeightBold.
Inductive Style := Specific (s : text) | Description (slant : Slant) (weight : Weight).
Record FontDesc := mkFontDesc { desc_name : text; desc_style : Style }.
#[global] Instance Slant_eq_dec : EqDecision Slant. Proof. solve_decision. Defined.
#[global] Instance Weight_eq_dec : EqDecision Weight. Proof. solve_decision. Defined.
#[global] Instance Style_eq_dec : EqDecision Style. Proof. solve_decision. Defined.
#[global] Instance FontDesc_eq_dec : EqDecision FontDesc. Proof. solve_decision. Defined.

Record GlyphKey := mkKey { k_font : Z; k_char : char; k_size : Z }.
#[global] Instance GlyphKey_eq_dec : EqDecision GlyphKey. Proof. solve_decision. Defined.
#[global] Instance GlyphKey_countable : Countable GlyphKey.
Proof.
  apply (inj_countable' (λ k, (k_font k, k_char k, k_size k)) (λ p, mkKey p.1.1 p.1.2 p.2)). by intros [].
Defined.

Record Rasterized := mkRaster { ras_char : char; ras_glyph : Atlas.RasterizedGlyph }.
Inductive RasterizerError := MissingGlyph (r : Rasterized) | OtherError.
Record Metrics := mkMetrics { m_descent : Z; m_average_advance : Z; m_strikeout_position : Q }.

(** ** Loading *)

(** [LoadGlyph]. *)
Class LoadGlyph (L : Type) := {
  load_glyph : Atlas.RasterizedGlyph → L → exec (Atlas.Glyph * L);
  clear : L → L }.

Record GlyphCache := mkCache {
  gc_cache : gmap GlyphKey Atlas.Glyph;
  font_key : Z;
  bold_key : Z;
  italic_key : Z;
  bold_italic_key : Z;
  font_size : Z;
  font_offset : Delta;
  glyph_offset : Delta;
  gc_metrics : Metrics;
  builtin_box_drawing : bool }.

Definition set_cache (m : gmap GlyphKey Atlas.Glyph) (gc : GlyphCache) : GlyphCache :=
  mkCache m (font_key gc) (bold_key gc) (italic_key gc) (bold_italic_key gc) (font_size gc) (font_offset gc)
    (glyph_offset gc) (gc_metrics gc) (builtin_box_drawing gc).

Section cache.
Context (get_glyph : GlyphKey → RasterizerError + Rasterized) (load_font : FontDesc → Z → option Z).
Context (raster_metrics : Z → Z → option Metrics) (default_glyph : Rasterized).
Context (builtin_glyph : char → Metrics → Delta → Delta → option Rasterized) (char_width : char → option Z).

Definition make_desc (d : FontDescription) (slant : Slant) (weight : Weight) : FontDesc :=
  mkFontDesc (fd_family d) match fd_style d with Some spec => Specific spec | None => Description slant weight end.

Definition load_regular_font (description : FontDesc) (size : Z) : option Z :=
  match load_font description size with
  | Some font => Some font
  | None => load_font (make_desc default_description SlantNormal WeightNormal) size
  end.

Definition compute_font_keys (font : FontConfig) : option (Z * Z * Z * Z) :=
  let size := fc_size font in
  let regular_desc := make_desc (fc_normal font) SlantNormal WeightNormal in
  match load_regular_font regular_desc size with
  | None => None
  | Some regular =>
      let load_or_regular d := if bool_decide (d = regular_desc) then regular else default regular (load_font d size) in
      Some (regular,
            load_or_regular (make_desc (desc (fc_bold font) (fc_normal font)) SlantNormal WeightBold),
            load_or_regular (make_desc (desc (fc_italic font) (fc_normal font)) SlantItalic WeightNormal),
            load_or_regular (make_desc (desc (fc_bold_italic font) (fc_normal font)) SlantItalic WeightBold))
  end.

Definition load_font_metrics (font : FontConfig) (key : Z) : option Metrics :=
  match get_glyph (mkKey key 109 (fc_size font)) with
  | inl _ => None
  | inr _ =>
      match raster_metrics key (fc_size font) with
      | Some m => Some (mkMetrics (m_descent m) (m_average_advance m)
                          (m_strikeout_position m + inject_Z (delta_y (fc_glyph_offset font)))%Q)
      | None => None
      end
  end.

Definition cache_new (font : FontConfig) : option GlyphCache :=
  match compute_font_keys font with
  | None => None
  | Some (regular, bold, italic, bold_italic) =>
      match load_font_metrics font regular with
      | Some metrics => Some (mkCache ∅ regular bold italic bold_italic (fc_size font) (fc_offset font)
                                (fc_glyph_offset font) metrics (fc_builtin_box_drawing font))
      | None => None
      end
  end.

(** The offsets are changed even if the fonts cannot be loaded. *)
Definition update_font_size (font : FontConfig) (gc : GlyphCache) : bool * GlyphCache :=
  let moved := mkCache (gc_cache gc) (font_key gc) (bold_key gc) (italic_key gc) (bold_italic_key gc) (font_size gc)
                 (fc_offset font) (fc_glyph_offset font) (gc_metrics gc) (builtin_box_drawing gc) in
  match compute_font_keys font with
  | None => (false, moved)
  | Some (regular, bold, italic, bold_italic) =>
      match load_font_metrics font regular with
      | Some metrics => (true, mkCache (gc_cache gc) regular bold italic bold_italic (fc_size font) (fc_offset font)
                                 (fc_glyph_offset font) metrics (fc_builtin_box_drawing font))
      | None => (false, moved)
      end
  end.

Section loader.
Context {L : Type} `{LoadGlyph L}.

(** [GlyphCache::load_glyph]. *)
Definition cache_load_glyph (gc : GlyphCache) (r : Rasterized) (l : L) : exec (Atlas.Glyph * L) :=
  let g := ras_glyph r in
  left ← i32_add (Atlas.r_left g) (delta_x (glyph_offset gc));
  top ← i32_add (Atlas.r_top g) (delta_y (glyph_offset gc));
  top ← i32_sub top (m_descent (gc_metrics gc));
  left ← (if bool_decide (char_width (ras_char r) = Some 0) then i32_add left (m_average_advance (gc_metrics gc))
          else mret left);
  load_glyph (Atlas.mkRasterized (Atlas.r_width g) (Atlas.r_height g) top left (Atlas.r_buffer g)) l.

Definition cache_get (key : GlyphKey) (show_missing : bool) (gc : GlyphCache) (l : L)
    : exec (Atlas.Glyph * GlyphCache * L) :=
  match gc_cache gc !! key with
  | Some glyph => mret (glyph, gc, l)
  | None =>
      let builtin := if builtin_box_drawing gc
                     then builtin_glyph (k_char key) (gc_metrics gc) (font_offset gc) (glyph_offset gc) else None in
      let rasterized := match builtin with Some r => inr r | None => get_glyph key end in
      '(glyph, cache, l) ←
        match rasterized with
        | inr r => '(glyph, l) ← cache_load_glyph gc r l; mret (glyph, gc_cache gc, l)
        | inl (MissingGlyph r) =>
            if show_missing then
              let missing_key := mkKey (k_font key) 0 (k_size key) in
              match gc_cache gc !! missing_key with
              | Some glyph => mret (glyph, gc_cache gc, l)
              | None =>
                  '(glyph, l) ← cache_load_glyph gc r l;
                  mret (glyph, <[missing_key := glyph]> (gc_cache gc), l)
              end
            else '(glyph, l) ← cache_load_glyph gc default_glyph l; mret (glyph, gc_cache gc, l)
        | inl OtherError => '(glyph, l) ← cache_load_glyph gc default_glyph l; mret (glyph, gc_cache gc, l)
        end;
      match cache !! key with
      | Some glyph => mret (glyph, set_cache cache gc, l)
      | None => mret (glyph, set_cache (<[key := glyph]> cache) gc, l)
      end
  end.

Fixpoint load_characters (font : Z) (characters : list char) (gc : GlyphCache) (l : L) : exec (GlyphCache * L) :=
  match characters with
  | [] => mret (gc, l)
  | c :: characters =>
      '(_, gc, l) ← cache_get (mkKey font c (font_size gc)) true gc l; load_characters font characters gc l
  end.
Definition load_glyphs_for_font (font : Z) (gc : GlyphCache) (l : L) : exec (GlyphCache * L) :=
  load_characters font (seqZ 32 95) gc l.
Definition load_common_glyphs (gc : GlyphCache) (l : L) : exec (GlyphCache * L) :=
  '(gc, l) ← load_glyphs_for_font (font_key gc) gc l;
  '(gc, l) ← load_glyphs_for_font (bold_key gc) gc l;
  '(gc, l) ← load_glyphs_for_font (italic_key gc) gc l;
  load_glyphs_for_font (bold_italic_key gc) gc l.
Definition reset_glyph_cache (gc : GlyphCache) (l : L) : exec (GlyphCache * L) :=
  load_common_glyphs (set_cache ∅ gc) (clear l).
End loader.
End cache.

(** ** Batches *)

(** [TextRenderBatch]; the items are what is sent to the graphics card. *)
Class TextRenderBatch (B I : Type) := {
  batch_tex : B → Z;
  batch_items : B → list I;
  batch_full : B → bool;
  batch_is_empty : B → bool;
  add_item : SizeInfo → RenderableCell → Atlas.Glyph → B → exec B;
  batch_clear : B → B }.

(** What a batch promises: a cell with a glyph is a number of items that divides the
    capacity, behind those that are in the batch, and the first one chooses the texture. *)
Class BatchLaws (B I : Type) `{TextRenderBatch B I} := {
  capacity : Z;
  item_count : Z;
  item_data : SizeInfo → RenderableCell → Atlas.Glyph → exec (list I);
  item_count_pos : 0 < item_count;
  capacity_divides : ∃ k, 0 < k ∧ capacity = k * item_count;
  is_empty_spec b : batch_is_empty b = true ↔ batch_items b = [];
  full_spec b : batch_full b = true ↔ zlen (batch_items b) = capacity;
  clear_spec b : batch_items (batch_clear b) = [];
  add_item_spec size cell g b b' :
    add_item size cell g b = Ok b' →
    ∃ data, item_data size cell g = Ok data ∧ zlen data = item_count ∧ batch_items b' = batch_items b ++ data ∧
      batch_tex b' = if batch_is_empty b then Atlas.tex_id g else batch_tex b }.

(** [RenderApi]: the textures, the batch, the texture that is bound, and what was drawn,
    each batch with the texture it was drawn with. *)
Record Api (B I : Type) := mkApi {
  api_renderer : Atlas.Renderer;
  api_batch : B;
  api_bound : Z;
  api_drawn : list (Z * list I) }.
Arguments mkApi {B I}.
Arguments api_renderer {B I}.
Arguments api_batch {B I}.
Arguments api_bound {B I}.
Arguments api_drawn {B I}.

Section api.
Context {B I : Type} `{TextRenderBatch B I}.
Context (gen_texture : nat → Z) (fuel : nat).
Implicit Types (api : Api B I) (cell : RenderableCell).

(** Loading a glyph; every call that creates or fills a texture unbinds it. *)
#[global] Instance api_loader : LoadGlyph (Api B I) := {|
  load_glyph raw api :=
    '(g, r) ← Atlas.load_glyph gen_texture fuel raw (api_renderer api);
    let touched := negb (length (Atlas.calls r) =? length (Atlas.calls (api_renderer api)))%nat in
    mret (g, mkApi r (api_batch api) (if touched then 0 else api_bound api) (api_drawn api));
  clear api := mkApi (Atlas.clear_atlas (api_renderer api)) (api_batch api) (api_bound api) (api_drawn api) |}.

Definition render_batch api : Api B I :=
  let r := api_renderer api in
  let tex := batch_tex (api_batch api) in
  let '(r, bound) :=
    if negb (Atlas.active_tex r =? tex)
    then (Atlas.mkRenderer tex (Atlas.atlas r) (Atlas.current_atlas r) (Atlas.calls r), tex)
    else (r, api_bound api) in
  mkApi r (batch_clear (api_batch api)) bound (api_drawn api ++ [(bound, batch_items (api_batch api))]).

Definition set_batch (b : B) api : Api B I := mkApi (api_renderer api) b (api_bound api) (api_drawn api).

Definition add_render_item (size : SizeInfo) cell (g : Atlas.Glyph) api : exec (Api B I) :=
  let api := if negb (batch_is_empty (api_batch api)) && negb (batch_tex (api_batch api) =? Atlas.tex_id g)
             then render_batch api else api in
  b ← add_item size cell g (api_batch api);
  let api := set_batch b api in
  mret (if batch_full (api_batch api) then render_batch api else api).

Context (get_glyph : GlyphKey → RasterizerError + Rasterized) (default_glyph : Rasterized).
Context (builtin_glyph : char → Metrics → Delta → Delta → option Rasterized) (char_width : char → option Z).
#[local] Abbreviation get := (cache_get get_glyph default_glyph builtin_glyph char_width).

(** The font of a cell. *)
Definition cell_font (flags : Z) (gc : GlyphCache) : Z :=
  let style := Z.land flags Flags.BOLD_ITALIC in
  if style =? Flags.BOLD_ITALIC then bold_italic_key gc
  else if style =? Flags.ITALIC then italic_key gc
  else if style =? Flags.BOLD then bold_key gc
  else font_key gc.

Definition with_character (c : char) cell : RenderableCell :=
  mkRenderable c (rc_at cell) (rc_fg cell) (rc_bg cell) (rc_bg_alpha cell) (rc_underline cell) (rc_flags cell)
    (rc_extra cell).

(** The characters over that of a cell. *)
Fixpoint draw_zerowidth (size : SizeInfo) cell (font glyph_size : Z) (zerowidth : list char) (gc : GlyphCache) api
    : exec (GlyphCache * Api B I) :=
  match zerowidth with
  | [] => mret (gc, api)
  | c :: zerowidth =>
      '(glyph, gc, api) ← get (mkKey font c glyph_size) false gc api;
      api ← add_render_item size cell glyph api;
      draw_zerowidth size cell font glyph_size zerowidth gc api
  end.

Definition draw_cell (size : SizeInfo) cell (gc : GlyphCache) api : exec (GlyphCache * Api B I) :=
  let font := cell_font (rc_flags cell) gc in
  let hidden := Bitflags.contains (rc_flags cell) Flags.HIDDEN in
  let cell := if (rc_character cell =? 9) || hidden then with_character 32 cell else cell in
  let glyph_size := font_size gc in
  '(glyph, gc, api) ← get (mkKey font (rc_character cell) glyph_size) true gc api;
  api ← add_render_item size cell glyph api;
  match rc_extra cell ≫= re_zerowidth with
  | Some zerowidth => if hidden then mret (gc, api) else draw_zerowidth size cell font glyph_size zerowidth gc api
  | None => mret (gc, api)
  end.

Fixpoint draw_cells_loop (size : SizeInfo) (cells : list RenderableCell) (gc : GlyphCache) api
    : exec (GlyphCache * Api B I) :=
  match cells with
  | [] => mret (gc, api)
  | cell :: cells => '(gc, api) ← draw_cell size cell gc api; draw_cells_loop size cells gc api
  end.

(** [Drop for RenderApi]. *)
Definition drop_api api : Api B I := if batch_is_empty (api_batch api) then api else render_batch api.

Definition draw_cells (size : SizeInfo) (cells : list RenderableCell) (gc : GlyphCache) api
    : exec (GlyphCache * Api B I) :=
  '(gc, api) ← draw_cells_loop size cells gc api; mret (gc, drop_api api).

(** [Renderer::draw_string]. *)
Fixpoint string_cells (p : Point) (fg bg : Rgb) (i : Z) (spacer : bool) (s : list char) : exec (list RenderableCell) :=
  match s with
  | [] => mret []
  | c :: s =>
      if spacer then string_cells p fg bg (i + 1) false s
      else
        let wide := bool_decide (char_width c = Some 2) in
        column ← usize_add (column p) i;
        cells ← string_cells p fg bg (i + 1) wide s;
        mret (mkRenderable c (mkPoint (line p) column) fg bg 1%Q fg (if wide then Flags.WIDE_CHAR else 0) None :: cells)
  end.
Definition draw_string (size : SizeInfo) (p : Point) (fg bg : Rgb) (s : list char) (gc : GlyphCache) api
    : exec (GlyphCache * Api B I) :=
  cells ← string_cells p fg bg 0 false s; draw_cells size cells gc api.
End api.

(** ** The two renderers *)

Definition as_u16 (z : Z) : Z := z mod 65536.
(** [(alpha * 255.0) as u8]. *)
Definition alpha_byte (alpha : Q) : Z := Z.max 0 (Z.min 255 (Qfloor (alpha * 255))).

(** *** OpenGL 3 *)

Definition GLSL3_BATCH_MAX : Z := 65536.
Definition GLYPH_COLORED : Z := 1.
Definition GLYPH_WIDE_CHAR : Z := 2.

Record InstanceData := mkInstance {
  id_col : Z; id_row : Z; id_left : Z; id_top : Z; id_width : Z; id_height : Z;
  id_uv_left : Q; id_uv_bot : Q; id_uv_width : Q; id_uv_height : Q;
  id_fg : Rgb; id_cell_flags : Z; id_bg : Rgb; id_bg_a : Z }.

Record Glsl3Batch := mkGlsl3Batch { glsl3_tex : Z; instances : list InstanceData }.
Definition glsl3_new : Glsl3Batch := mkGlsl3Batch 0 [].

Definition instance_data (cell : RenderableCell) (g : Atlas.Glyph) : InstanceData :=
  mkInstance (as_u16 (column (rc_at cell))) (as_u16 (line (rc_at cell))) (Atlas.g_left g) (Atlas.g_top g)
    (Atlas.g_width g) (Atlas.g_height g) (Atlas.uv_left g) (Atlas.uv_bot g) (Atlas.uv_width g) (Atlas.uv_height g)
    (rc_fg cell)
    (Z.lor (if Atlas.multicolor g then GLYPH_COLORED else 0)
       (if Bitflags.contains (rc_flags cell) Flags.WIDE_CHAR then GLYPH_WIDE_CHAR else 0))
    (rc_bg cell) (alpha_byte (rc_bg_alpha cell)).

#[global] Instance glsl3_batch : TextRenderBatch Glsl3Batch InstanceData := {|
  batch_tex := glsl3_tex;
  batch_items := instances;
  batch_full b := GLSL3_BATCH_MAX =? zlen (instances b);
  batch_is_empty b := zlen (instances b) =? 0;
  add_item _ cell g b :=
    let t := if zlen (instances b) =? 0 then Atlas.tex_id g else glsl3_tex b in
    mret (mkGlsl3Batch t (instances b ++ [instance_data cell g]));
  batch_clear _ := mkGlsl3Batch 0 [] |}.

(** *** OpenGL ES 2 *)

Definition GLES2_BATCH_MAX : Z := 65535 - 65535 mod 4.

Record TextVertex := mkVertex {
  tv_x : Z; tv_y : Z; tv_glyph_x : Z; tv_glyph_y : Z; tv_u : Q; tv_v : Q; tv_fg : Rgb; tv_colored : bool; tv_bg : Rgb; tv_bg_a : Z }.

Record Gles2Batch := mkGles2Batch { gles2_tex : Z; vertices : list TextVertex }.
Definition gles2_new : Gles2Batch := mkGles2Batch 0 [].

(** 16 bit arithmetic, with the cast of an unsigned integer and of a float. *)
Definition in_i16 (z : Z) : bool := (-32768 <=? z) && (z <=? 32767).
Definition i16 (z : Z) : exec Z := checked in_i16 z.
Definition float_as_i16 (z : Z) : Z := Z.max (-32768) (Z.min 32767 z).

Definition vertices_of (size : SizeInfo) (cell : RenderableCell) (g : Atlas.Glyph) : exec (list TextVertex) :=
  let cell_width := float_as_i16 (si_cell_width size) in
  let cell_height := float_as_i16 (si_cell_height size) in
  x ← i16 (Atlas.as_i16 (column (rc_at cell)) * cell_width);
  y ← i16 (Atlas.as_i16 (line (rc_at cell)) * cell_height);
  glyph_x ← i16 (x + Atlas.g_left g);
  below ← usize_add (line (rc_at cell)) 1;
  below ← i16 (Atlas.as_i16 below * cell_height);
  glyph_y ← i16 (below - Atlas.g_top g);
  let is_wide := if Bitflags.contains (rc_flags cell) Flags.WIDE_CHAR then 2 else 1 in
  let vertex x y glyph_x glyph_y u v :=
    mkVertex x y glyph_x glyph_y u v (rc_fg cell) (Atlas.multicolor g) (rc_bg cell) (alpha_byte (rc_bg_alpha cell)) in
  bottom ← i16 (y + cell_height);
  glyph_bottom ← i16 (glyph_y + Atlas.g_height g);
  wide ← i16 (is_wide * cell_width);
  right ← i16 (x + wide);
  glyph_right ← i16 (glyph_x + Atlas.g_width g);
  let u_right := (Atlas.uv_left g + Atlas.uv_width g)%Q in
  let v_bottom := (Atlas.uv_bot g + Atlas.uv_height g)%Q in
  mret [vertex x bottom glyph_x glyph_bottom (Atlas.uv_left g) v_bottom;
        vertex x y glyph_x glyph_y (Atlas.uv_left g) (Atlas.uv_bot g);
        vertex right y glyph_right glyph_y u_right (Atlas.uv_bot g);
        vertex right bottom glyph_right glyph_bottom u_right v_bottom].

#[global] Instance gles2_batch : TextRenderBatch Gles2Batch TextVertex := {|
  batch_tex := gles2_tex;
  batch_items := vertices;
  batch_full b := GLES2_BATCH_MAX =? zlen (vertices b);
  batch_is_empty b := zlen (vertices b) =? 0;
  add_item size cell g b :=
    let t := if zlen (vertices b) =? 0 then Atlas.tex_id g else gles2_tex b in
    vs ← vertices_of size cell g;
    mret (mkGles2Batch t (vertices b ++ vs));
  batch_clear b := mkGles2Batch (gles2_tex b) [] |}.
End TextRender.

(** * What is drawn

    Drawing through the cache and the batches of a renderer is drawing every character of
    every cell by itself. *)

Module TextClaims.
Import FrameDamage ActionContext DisplaySize Content TextRender.

(** ** The renderers keep the promises of batches *)

Lemma no_items {A} (l : list A) : (zlen l =? 0) = true ↔ l = [].
Proof. rewrite Z.eqb_eq. unfold zlen. destruct l; simpl; [done|]. split; [lia|done]. Qed.

#[global] Instance glsl3_laws : BatchLaws Glsl3Batch InstanceData.
Proof.
  refine {| capacity := GLSL3_BATCH_MAX; item_count := 1;
            item_data := λ _ cell g, mret [instance_data cell g] |}.
  - done.
  - by exists 65536.
  - intros [t l]. apply no_items.
  - intros [t l]. change ((GLSL3_BATCH_MAX =? zlen l) = true ↔ zlen l = GLSL3_BATCH_MAX). rewrite Z.eqb_eq. done.
  - done.
  - intros size cell g [t l] b' [= <-]. eexists. by split_and!.
Defined.

Lemma vertices_four size cell g vs : vertices_of size cell g = Ok vs → zlen vs = 4.
Proof.
  unfold vertices_of.
  repeat (match goal with |- (mbind _ ?m = Ok _) → _ => destruct m; [cbn [mbind exec_bind]|done] end). by intros [= <-].
Qed.

#[global] Instance gles2_laws : BatchLaws Gles2Batch TextVertex.
Proof.
  refine {| capacity := GLES2_BATCH_MAX; item_count := 4; item_data := vertices_of |}.
  - done.
  - by exists 16383.
  - intros [t l]. apply no_items.
  - intros [t l]. change ((GLES2_BATCH_MAX =? zlen l) = true ↔ zlen l = GLES2_BATCH_MAX). rewrite Z.eqb_eq. done.
  - done.
  - intros size cell g [t l] b'. cbn. destruct (vertices_of size cell g) as [vs|] eqn:E; [|done]. intros [= <-].
    exists vs. split_and!; [done|by eapply vertices_four|done|done].
Defined.

(** ** Loading *)

Lemma load_glyph_active gen_texture fuel raw r g r' :
  Atlas.load_glyph gen_texture fuel raw r = Ok (g, r') →
  ∃ more, Atlas.calls r' = Atlas.calls r ++ more ∧
    Atlas.active_tex r' = if bool_decide (more = []) then Atlas.active_tex r else 0.
Proof.
  revert r. induction fuel as [|fuel IH]; intros r; [done|]. cbn [Atlas.load_glyph].
  destruct (vec_get _ _) as [a|]; [|done]. cbn [mbind exec_bind]. destruct (Atlas.insert raw a) as [[res a']|]; [|done].
  cbn [mbind exec_bind]. destruct (vec_set _ _ _) as [all|]; [|done]. cbn [mbind exec_bind].
  destruct res as [[]|[g1 call]].
  - destruct (usize_add _ 1) as [current|]; [|done]. cbn [mbind exec_bind]. intros (more & E1 & E2)%IH.
    destruct (current =? zlen all); cbn in *.
    + eexists (_ :: more). split; [by rewrite E1, <-app_assoc|]. rewrite E2. by repeat case_bool_decide.
    + by exists more.
  - intros [= <- <-]. exists []. cbn. by rewrite app_nil_r.
  - intros [= <- <-]. by exists [call].
Qed.

Section cache.
Context {L : Type} `{LoadGlyph L}.
Context (get_glyph : GlyphKey → RasterizerError + Rasterized) (default_glyph : Rasterized).
Context (builtin_glyph : char → Metrics → Delta → Delta → option Rasterized) (char_width : char → option Z).

Definition loaded (l l' : L) : Prop := l' = l ∨ ∃ raw g, load_glyph raw l = Ok (g, l').

(** Glyphs are only added, the fonts stay. *)
Definition cache_grows (gc gc' : GlyphCache) : Prop :=
  gc_cache gc ⊆ gc_cache gc' ∧ gc' = set_cache (gc_cache gc') gc.

Lemma cache_grows_refl gc : cache_grows gc gc.
Proof. split; [done|by destruct gc]. Qed.
Lemma cache_grows_trans gc1 gc2 gc3 : cache_grows gc1 gc2 → cache_grows gc2 gc3 → cache_grows gc1 gc3.
Proof. intros [H1 E1] [H2 E2]. split; [by etrans|]. rewrite E2, E1. done. Qed.

Lemma cache_load_loaded gc r l : wlp (cache_load_glyph char_width gc r l) (λ '(_, l'), loaded l l').
Proof.
  unfold cache_load_glyph. do 4 (apply wlp_bind, wlp_any; intros ?).
  destruct (load_glyph _ l) as [[g l']|] eqn:E; [|done]. right. eauto.
Qed.

Lemma cache_get_spec key show gc l :
  wlp (cache_get get_glyph default_glyph builtin_glyph char_width key show gc l) (λ '(g, gc', l'),
    gc_cache gc' !! key = Some g ∧ cache_grows gc gc' ∧ loaded l l').
Proof.
  unfold cache_get. destruct (gc_cache gc !! key) as [g0|] eqn:E0.
  { split_and!; [done|apply cache_grows_refl|by left]. }
  apply wlp_bind.
  assert (∀ (m : exec (Atlas.Glyph * gmap GlyphKey Atlas.Glyph * L)),
    wlp m (λ '(g, c, l'), gc_cache gc ⊆ c ∧ loaded l l') →
    wlp m (λ a, wlp (let '(glyph, cache, l0) := a in
      match cache !! key with
      | Some g => mret (g, set_cache cache gc, l0)
      | None => mret (glyph, set_cache (<[key := glyph]> cache) gc, l0)
      end) (λ '(g, gc', l'), gc_cache gc' !! key = Some g ∧ cache_grows gc gc' ∧ loaded l l'))) as Hm.
  { intros m Hm. eapply wlp_mono; [exact Hm|]. intros [[g c] l'] [Hc Hl].
    destruct (c !! key) as [g1|] eqn:E1; cbn; (split; [|split; [split|]]); try done.
    - apply lookup_insert_eq.
    - etrans; [exact Hc|]. by apply insert_subseteq. }
  assert (∀ r, wlp ('(glyph, l1) ← cache_load_glyph char_width gc r l; mret (glyph, gc_cache gc, l1))
    (λ '(g, c, l'), gc_cache gc ⊆ c ∧ loaded l l')) as Hl.
  { intros r. apply wlp_bind. eapply wlp_mono; [apply cache_load_loaded|]. intros [g l1] Hl. cbn. by split. }
  apply Hm. destruct (match _ with Some r => inr r | None => get_glyph key end) as [[r|]|r]; [|apply Hl|apply Hl].
  destruct show; [|apply Hl]. destruct (gc_cache gc !! mkKey (k_font key) 0 (k_size key)) as [g1|] eqn:E1; [hnf; split; [done|by left]|].
  apply wlp_bind. eapply wlp_mono; [apply cache_load_loaded|]. intros [g l1] Hl1. cbn. split; [by apply insert_subseteq|done].
Qed.
End cache.

(** ** Drawing *)

Section drawing.
Context {B I : Type} `{BatchLaws B I}.
Context (gen_texture : nat → Z) (fuel : nat) (size : SizeInfo).
Context (get_glyph : GlyphKey → RasterizerError + Rasterized) (default_glyph : Rasterized).
Context (builtin_glyph : char → Metrics → Delta → Delta → option Rasterized) (char_width : char → option Z).
Implicit Types (api : Api B I) (cell : RenderableCell) (gc : GlyphCache) (items : list (RenderableCell * Atlas.Glyph)).
#[local] Abbreviation get := (cache_get (H := api_loader gen_texture fuel) get_glyph default_glyph builtin_glyph char_width).

(** The data of cells with their glyphs. *)
Fixpoint data_of items : exec (list I) :=
  match items with
  | [] => mret []
  | (cell, g) :: items => d ← item_data size cell g; ds ← data_of items; mret (d ++ ds)
  end.

(** A batch that was drawn: all of its glyphs are in the texture that was bound. *)
Definition drawn_batch items (d : Z * list I) : Prop :=
  items ≠ [] ∧ zlen d.2 ≤ capacity ∧ Forall (λ it, Atlas.tex_id it.2 = d.1) items ∧ data_of items = Ok d.2.

Lemma data_of_snoc items cell g ds d :
  data_of items = Ok ds → item_data size cell g = Ok d → data_of (items ++ [(cell, g)]) = Ok (ds ++ d).
Proof.
  revert ds. induction items as [|[c g1] items IH]; intros ds E Ed; cbn in *.
  - injection E as <-. rewrite Ed. cbn. by rewrite app_nil_r.
  - destruct (item_data size c g1) as [d1|]; [|done]. cbn in *. destruct (data_of items) as [ds1|]; [|done].
    cbn in E. injection E as <-. rewrite (IH ds1 eq_refl Ed). cbn. by rewrite app_assoc.
Qed.

(** After [items] were added, starting from [api0]: some were drawn in batches, the others
    are in the current batch. *)
Record progress (api0 api : Api B I) items (pending : list (RenderableCell * Atlas.Glyph)) : Prop := {
  pg_drawn : ∃ batches drawn, concat batches ++ pending = items ∧ api_drawn api = api_drawn api0 ++ drawn ∧
    Forall2 drawn_batch batches drawn;
  pg_data : data_of pending = Ok (batch_items (api_batch api));
  pg_count : zlen (batch_items (api_batch api)) = zlen pending * item_count;
  pg_capacity : zlen (batch_items (api_batch api)) ≤ capacity;
  pg_tex : Forall (λ it, Atlas.tex_id it.2 = batch_tex (api_batch api)) pending;
  pg_bound : Atlas.active_tex (api_renderer api) = api_bound api }.

Lemma pending_empty api0 api items pending :
  progress api0 api items pending → batch_is_empty (api_batch api) = true ↔ pending = [].
Proof.
  intros [_ _ Hc _ _ _]. rewrite is_empty_spec. pose proof item_count_pos as Hp. split.
  - intros E. rewrite E in Hc. destruct pending; [done|]. unfold zlen in Hc. simpl length in Hc. nia.
  - intros ->. unfold zlen in Hc. simpl length in Hc. destruct (batch_items _); [done|]. simpl length in Hc. lia.
Qed.

Lemma render_progress api0 api items pending :
  progress api0 api items pending → pending ≠ [] → progress api0 (render_batch api) items [].
Proof.
  intros [(batches & drawn & E1 & E2 & Hb) Hd Hc Hcap Ht Hbd] Hne. pose proof item_count_pos as Hp.
  destruct capacity_divides as (k & Hk & Ek).
  assert (∃ r, render_batch api = mkApi r (batch_clear (api_batch api)) (batch_tex (api_batch api))
      (api_drawn api ++ [(batch_tex (api_batch api), batch_items (api_batch api))]) ∧
    Atlas.active_tex r = batch_tex (api_batch api)) as (r & -> & Hr).
  { unfold render_batch. destruct (Z.eqb_spec (Atlas.active_tex (api_renderer api)) (batch_tex (api_batch api))) as [E|E]; cbn.
    - exists (api_renderer api). by rewrite <-Hbd, E.
    - eexists. split; [done|done]. }
  split; cbn [api_batch api_drawn api_renderer api_bound]; rewrite ?clear_spec.
  - exists (batches ++ [pending]), (drawn ++ [(batch_tex (api_batch api), batch_items (api_batch api))]). split_and!.
    + rewrite concat_app. cbn. by rewrite !app_nil_r.
    + by rewrite E2, app_assoc.
    + apply Forall2_app; [done|]. constructor; [|constructor]. by split_and!.
  - done.
  - done.
  - unfold zlen. simpl. nia.
  - constructor.
  - done.
Qed.

Lemma add_progress api0 api items pending cell g :
  progress api0 api items pending → zlen (batch_items (api_batch api)) < capacity →
  wlp (add_render_item size cell g api) (λ api', ∃ pending',
    progress api0 api' (items ++ [(cell, g)]) pending' ∧ zlen (batch_items (api_batch api')) < capacity).
Proof.
  intros Hp Hroom. unfold add_render_item. cbv zeta.
  set (api1 := if _ && _ then render_batch api else api).
  assert (∃ pending1, progress api0 api1 items pending1 ∧ zlen (batch_items (api_batch api1)) < capacity ∧
    (pending1 = [] ∨ batch_tex (api_batch api1) = Atlas.tex_id g)) as (pending1 & Hp1 & Hr1 & Ht1).
  { unfold api1. pose proof (pending_empty _ _ _ _ Hp) as He. destruct (batch_is_empty (api_batch api)); cbn [negb andb].
    - exists pending. split_and!; [done|done|]. left. by apply He.
    - destruct (Z.eqb_spec (batch_tex (api_batch api)) (Atlas.tex_id g)) as [E|E]; cbn [negb andb].
      + exists pending. split_and!; [done|done|by right].
      + assert (progress api0 (render_batch api) items []) as Hp'.
        { eapply render_progress; [exact Hp|]. intros E'. by apply He in E'. }
        exists []. split_and!; [done| |by left]. pose proof (pg_count _ _ _ _ Hp') as Hc. unfold zlen in Hc. simpl length in Hc.
        destruct capacity_divides as (k & Hk & ->). pose proof item_count_pos. unfold zlen. nia. }
  clearbody api1. clear Hp Hroom api pending. apply wlp_bind.
  destruct (add_item size cell g (api_batch api1)) as [b|] eqn:Ea; [|done]. cbn [wlp].
  apply add_item_spec in Ea as (d & Ed & Ld & Eb & Et).
  pose proof (pending_empty _ _ _ _ Hp1) as He. destruct Hp1 as [(batches & drawn & E1 & E2 & Hb) Hd Hc Hcap Ht Hbd].
  pose proof item_count_pos as Hpos. destruct capacity_divides as (k & Hk & Ek).
  assert (progress api0 (set_batch b api1) (items ++ [(cell, g)]) (pending1 ++ [(cell, g)])) as Hp2.
  { split; cbn [set_batch api_batch api_drawn api_renderer api_bound].
    - exists batches, drawn. split_and!; [by rewrite app_assoc, E1|done|done].
    - rewrite Eb. by apply data_of_snoc.
    - rewrite Eb, !zlen_app, Hc, Ld. unfold zlen at 3. simpl. lia.
    - rewrite Eb, zlen_app, Ld. rewrite Hc, Ek in *. assert (zlen pending1 < k) by nia. nia.
    - apply Forall_app. rewrite Et. destruct (batch_is_empty (api_batch api1)).
      + rewrite (proj1 He eq_refl). split; [constructor|]. by constructor.
      + destruct Ht1 as [->|Ht1]; [by assert (false = true) by by apply He|]. split; [done|]. by constructor.
    - done. }
  destruct (batch_full (api_batch (set_batch b api1))) eqn:Ef; cbn [wlp mret exec_ret].
  - exists []. assert (progress api0 (render_batch (set_batch b api1)) (items ++ [(cell, g)]) []) as Hp3.
    { eapply render_progress; [exact Hp2|]. by destruct pending1. }
    split; [done|]. rewrite (pg_count _ _ _ _ Hp3). unfold zlen. simpl. nia.
  - eexists. split; [exact Hp2|]. pose proof (pg_capacity _ _ _ _ Hp2).
    assert (zlen (batch_items (api_batch (set_batch b api1))) ≠ capacity); [|lia].
    intros E. apply full_spec in E. congruence.
Qed.

Lemma loaded_progress api0 api api' items pending :
  loaded (H := api_loader gen_texture fuel) api api' → progress api0 api items pending → progress api0 api' items pending.
Proof.
  intros [->|(raw & g & E)] Hp; [done|]. cbn [load_glyph api_loader] in E.
  destruct (Atlas.load_glyph _ _ _ _) as [[g1 r]|] eqn:El; [|done]. cbn [mbind exec_bind] in E. injection E as _ <-.
  apply load_glyph_active in El as (more & E1 & E2). destruct Hp as [H1 H2 H3 H4 H5 H6].
  split; cbn [api_batch api_drawn api_renderer api_bound]; try done. rewrite E2, E1, length_app.
  destruct more as [|c more]; cbn [length].
  - rewrite bool_decide_eq_true_2 by done. rewrite Nat.add_0_r, Nat.eqb_refl. done.
  - rewrite bool_decide_eq_false_2 by done. destruct (Nat.eqb_spec (length (Atlas.calls (api_renderer api)) + S (length more))
      (length (Atlas.calls (api_renderer api)))); [lia|done].
Qed.

(** The cells and keys that are asked for. *)
Definition shown cell : RenderableCell :=
  if (rc_character cell =? 9) || Bitflags.contains (rc_flags cell) Flags.HIDDEN then with_character 32 cell else cell.
Definition overlaid cell : list char :=
  if Bitflags.contains (rc_flags cell) Flags.HIDDEN then [] else default [] (rc_extra cell ≫= re_zerowidth).
Definition cell_requests gc cell : list (RenderableCell * GlyphKey) :=
  (λ c, (shown cell, mkKey (cell_font (rc_flags cell) gc) c (font_size gc)))
    <$> (rc_character (shown cell) :: overlaid cell).
Definition requests gc (cells : list RenderableCell) : list (RenderableCell * GlyphKey) := cells ≫= cell_requests gc.

(** An item is a cell with the glyph of its key. *)
Definition answers gc (rq : RenderableCell * GlyphKey) (it : RenderableCell * Atlas.Glyph) : Prop :=
  it.1 = rq.1 ∧ gc_cache gc !! rq.2 = Some it.2.

Lemma answers_grows gc gc' rqs items : cache_grows gc gc' → Forall2 (answers gc) rqs items → Forall2 (answers gc') rqs items.
Proof. intros [Hg _] Hf. eapply Forall2_impl; [exact Hf|]. intros rq it [E1 E2]. split; [done|]. by eapply lookup_weaken. Qed.

(** What an operation that answers requests establishes. *)
Definition served (api0 : Api B I) gc items (rqs : list (RenderableCell * GlyphKey)) (r : GlyphCache * Api B I) : Prop :=
  cache_grows gc r.1 ∧ zlen (batch_items (api_batch r.2)) < capacity ∧
  ∃ more pending, Forall2 (answers r.1) rqs more ∧ progress api0 r.2 (items ++ more) pending.

Lemma served_trans api0 gc items rqs rqs' r (m : exec (GlyphCache * Api B I)) :
  served api0 gc items rqs r →
  (∀ items' pending, progress api0 r.2 items' pending → wlp m (served api0 r.1 items' rqs')) →
  wlp m (served api0 gc items (rqs ++ rqs')).
Proof.
  intros (Hg & _ & more & pending & Ha & Hp) Hm. eapply wlp_mono; [by eapply Hm|].
  intros r' (Hg' & Hr' & more' & pending' & Ha' & Hp'). split; [by eapply cache_grows_trans|]. split; [done|].
  exists (more ++ more'), pending'. split; [|by rewrite app_assoc].
  apply Forall2_app; [by eapply answers_grows|done].
Qed.

(** One glyph. *)
Lemma glyph_served api0 gc api items pending cell key show :
  progress api0 api items pending → zlen (batch_items (api_batch api)) < capacity →
  wlp ('(glyph, gc, api) ← get key show gc api; api ← add_render_item size cell glyph api; mret (gc, api))
    (served api0 gc items [(cell, key)]).
Proof.
  intros Hp Hr. apply wlp_bind. eapply wlp_mono; [apply cache_get_spec|]. intros [[g gc1] api1] (E & Hg & Hl).
  assert (api_batch api1 = api_batch api) as Eb.
  { destruct Hl as [->|(raw & g1 & El)]; [done|]. cbn [load_glyph api_loader] in El.
    destruct (Atlas.load_glyph _ _ _ _) as [[g2 r]|]; [|done]. cbn [mbind exec_bind] in El. by injection El as _ <-. }
  apply (loaded_progress _ _ _ _ _ Hl) in Hp. apply wlp_bind.
  eapply wlp_mono; [eapply add_progress; [exact Hp|by rewrite Eb]|]. intros api2 (pending2 & Hp2 & Hr2).
  split; [done|]. split; [done|]. exists [(cell, g)], pending2. split; [|done]. constructor; [|constructor]. by split.
Qed.

Lemma then_served api0 gc api items pending cell key show rqs (k : GlyphCache → Api B I → exec (GlyphCache * Api B I)) :
  progress api0 api items pending → zlen (batch_items (api_batch api)) < capacity →
  (∀ gc' api' items' pending', cache_grows gc gc' → progress api0 api' items' pending' →
    zlen (batch_items (api_batch api')) < capacity → wlp (k gc' api') (served api0 gc' items' rqs)) →
  wlp ('(glyph, gc, api) ← get key show gc api; api ← add_render_item size cell glyph api; k gc api)
    (served api0 gc items ((cell, key) :: rqs)).
Proof.
  intros Hp Hr Hk. pose proof (glyph_served api0 gc api items pending cell key show Hp Hr) as Hs.
  destruct (get key show gc api) as [[[g gc1] api1]|]; [|done]. cbn [mbind exec_bind] in *.
  destruct (add_render_item size cell g api1) as [api2|]; [|done]. cbn [mbind exec_bind] in *.
  apply (served_trans api0 gc items [(cell, key)] rqs (gc1, api2) (k gc1 api2)); [exact Hs|].
  destruct Hs as (Hg & Hr2 & _). intros items' pending' Hp'. by eapply Hk.
Qed.

Lemma nothing_served api0 gc api items pending :
  progress api0 api items pending → zlen (batch_items (api_batch api)) < capacity → served api0 gc items [] (gc, api).
Proof.
  intros Hp Hr. split; [apply cache_grows_refl|]. split; [done|]. exists [], pending. split; [constructor|by rewrite app_nil_r].
Qed.

#[local] Abbreviation draw_zerowidth :=
  (TextRender.draw_zerowidth gen_texture fuel get_glyph default_glyph builtin_glyph char_width size).
#[local] Abbreviation draw_cell := (TextRender.draw_cell gen_texture fuel get_glyph default_glyph builtin_glyph char_width size).
#[local] Abbreviation draw_cells_loop :=
  (TextRender.draw_cells_loop gen_texture fuel get_glyph default_glyph builtin_glyph char_width size).
#[local] Abbreviation draw_cells := (TextRender.draw_cells gen_texture fuel get_glyph default_glyph builtin_glyph char_width size).

Lemma zerowidth_served api0 cell font glyph_size cs gc api items pending :
  progress api0 api items pending → zlen (batch_items (api_batch api)) < capacity →
  wlp (draw_zerowidth cell font glyph_size cs gc api)
    (served api0 gc items ((λ c, (cell, mkKey font c glyph_size)) <$> cs)).
Proof.
  revert gc api items pending. induction cs as [|c cs IH]; intros gc api items pending Hp Hr.
  - cbn. by eapply nothing_served.
  - cbn [fmap list_fmap TextRender.draw_zerowidth]. eapply then_served; [done|done|]. intros. by eapply IH.
Qed.

Lemma cell_served api0 cell gc api items pending :
  progress api0 api items pending → zlen (batch_items (api_batch api)) < capacity →
  wlp (draw_cell cell gc api) (served api0 gc items (cell_requests gc cell)).
Proof.
  intros Hp Hr. unfold TextRender.draw_cell, cell_requests. fold (shown cell). cbn [fmap list_fmap].
  eapply then_served; [done|done|]. intros gc' api' items' pending' Hg Hp' Hr'.
  assert (rc_extra (shown cell) = rc_extra cell) as -> by (unfold shown; by case_match). unfold overlaid.
  destruct (rc_extra cell ≫= re_zerowidth) as [cs|]; destruct (Bitflags.contains _ _); cbn [default];
    first [by eapply nothing_served|by eapply zerowidth_served].
Qed.

Lemma requests_grows gc gc' cells : cache_grows gc gc' → requests gc' cells = requests gc cells.
Proof. intros [_ ->]. done. Qed.

Lemma cells_served api0 cells gc api items pending :
  progress api0 api items pending → zlen (batch_items (api_batch api)) < capacity →
  wlp (draw_cells_loop cells gc api) (served api0 gc items (requests gc cells)).
Proof.
  revert gc api items pending. induction cells as [|cell cells IH]; intros gc api items pending Hp Hr.
  - cbn. by eapply nothing_served.
  - cbn [TextRender.draw_cells_loop]. change (requests gc (cell :: cells)) with (cell_requests gc cell ++ requests gc cells).
    apply wlp_bind. eapply wlp_mono; [by eapply cell_served|]. intros [gc1 api1] Hs. eapply served_trans; [exact Hs|].
    destruct Hs as (Hg & Hr1 & _). intros items' pending' Hp'. rewrite <-(requests_grows gc gc1) by done. by eapply IH.
Qed.

(** C18: drawing with the cache and in batches is drawing every character by itself.  The
    batches that are drawn for some cells hold, one behind the other, exactly the data of
    every visible character of every cell, in order, each with the glyph that the cache
    has for its font, size and character; every batch fits into the buffer of the graphics
    card and is drawn while the texture of all of its glyphs is bound, although loading a
    glyph in between unbinds it; and no character is left over for a later frame. *)
Theorem glyphs_reach_screen cells gc gc' api api' :
  batch_is_empty (api_batch api) = true → Atlas.active_tex (api_renderer api) = api_bound api →
  draw_cells cells gc api = Ok (gc', api') →
  (∃ batches drawn, Forall2 (answers gc') (requests gc cells) (concat batches) ∧
    api_drawn api' = api_drawn api ++ drawn ∧ Forall2 drawn_batch batches drawn) ∧
  batch_is_empty (api_batch api') = true ∧ Atlas.active_tex (api_renderer api') = api_bound api' ∧ cache_grows gc gc'.
Proof.
  intros He Hb E. pose proof item_count_pos as Hpos. destruct capacity_divides as (k & Hk & Ek).
  apply is_empty_spec in He.
  assert (progress api api [] []) as Hp.
  { split; rewrite ?He; try done; [|by rewrite Ek; unfold zlen; simpl; nia]. exists [], []. split_and!; [done|by rewrite app_nil_r|constructor]. }
  unfold TextRender.draw_cells in E. pose proof (cells_served api cells gc api [] [] Hp) as Hs.
  rewrite He in Hs. specialize (Hs ltac:(rewrite Ek; unfold zlen; simpl; nia)).
  destruct (draw_cells_loop cells gc api) as [[gc1 api1]|]; [|done]. cbn [mbind exec_bind] in E. injection E as <- <-.
  destruct Hs as (Hg & Hr & more & pending & Ha & Hp1). cbn [fst snd app] in *.
  assert (progress api (drop_api api1) more []) as Hp2.
  { unfold drop_api. pose proof (pending_empty _ _ _ _ Hp1) as He1. destruct (batch_is_empty (api_batch api1)).
    - by rewrite (proj1 He1 eq_refl) in Hp1.
    - eapply render_progress; [exact Hp1|]. intros E. by apply He1 in E. }
  pose proof (pending_empty _ _ _ _ Hp2) as He2. destruct Hp2 as [(batches & drawn & E1 & E2 & Hd) _ _ _ _ Hb2].
  rewrite app_nil_r in E1. subst more. split_and!; [by exists batches, drawn|by apply He2|done|done].
Qed.
End drawing.

(** ** Two cells *)

Definition demo_raster (key : GlyphKey) : RasterizerError + Rasterized :=
  inr (mkRaster (k_char key) (Atlas.mkRasterized 2 3 3 0 (Atlas.Rgb []))).
Definition demo_cache : GlyphCache :=
  mkCache ∅ 0 1 2 3 12 (mkDelta 0 0) (mkDelta 0 0) (mkMetrics (-1) 2 0%Q) false.
Definition demo_texture (i : nat) : Z := Z.of_nat i + 1.
Definition demo_api : Api Glsl3Batch InstanceData :=
  mkApi (Atlas.initial demo_texture false) glsl3_new 0 [].
Definition demo_size : SizeInfo := mkSizeInfo 20 20 10 20 0 0 1 2.
Definition demo_rgb : Rgb := mkRgb 0 0 0.
(** A bold letter with an accent, and a tab. *)
Definition demo_cells : list RenderableCell :=
  [mkRenderable 97 (mkPoint 0 0) demo_rgb demo_rgb 1%Q demo_rgb Flags.BOLD (Some (mkExtra (Some [769]) None));
   mkRenderable 9 (mkPoint 0 1) demo_rgb demo_rgb 1%Q demo_rgb 0 None].
#[local] Abbreviation demo_draw :=
  (draw_cells demo_texture 3 demo_raster (mkRaster 32 (Atlas.mkRasterized 0 0 0 0 (Atlas.Rgb []))) (λ _ _ _ _, None)
     (λ c, Some (if c =? 769 then 0 else 1)) demo_size demo_cells demo_cache demo_api).
Definition demo_result : GlyphCache * Api Glsl3Batch InstanceData :=
  match demo_draw with Ok r => r | Panic _ => (demo_cache, demo_api) end.

Lemma glyphs_reach_screen_witness :
  (∃ batches, Forall2 (drawn_batch demo_size) batches (api_drawn demo_result.2) ∧ length (concat batches) = 3%nat) ∧
  api_drawn demo_result.2 ≠ [] ∧ batch_is_empty (api_batch demo_result.2) = true.
Proof.
  destruct (glyphs_reach_screen demo_texture 3 demo_size demo_raster
    (mkRaster 32 (Atlas.mkRasterized 0 0 0 0 (Atlas.Rgb []))) (λ _ _ _ _, None)
    (λ c, Some (if c =? 769 then 0 else 1)) demo_cells demo_cache demo_result.1 demo_api demo_result.2)
    as [(batches & drawn & Ha & Ed & Hd) (He & _)].
  - reflexivity.
  - reflexivity.
  - vm_compute. reflexivity.
  - split; [|split; [vm_compute; discriminate|exact He]]. exists batches. split; [by rewrite Ed|].
    rewrite <-(Forall2_length _ _ _ Ha). reflexivity.
Defined.
End TextClaims.
