(* ===== verification/Draw.v ===== *)
(** * Drawing a frame (alacritty/src/display/mod.rs)

    [Display::draw] with the texts it lays over the grid: the line indicator, the search
    bar, the preview of the input method, messages, the render timer and the previews of
    hyperlinks.  What is drawn is collected in a [Picture]; pixels are left to the renderer.
    The damage of the frame is what [swap_buffers] is called with. *)

From S2P Require Import Prelude Decimal Index Ansi GridCell Row Storage Cell Grid Selection Term Search RegexSearch.
From S2P Require Import HintLabels Hints Scheduler EventLoop FrameDamage Shortener MessageBar Keyboard ActionContext.
From S2P Require Import DisplaySize DisplayState ColorList Content RenderLines.
From stdpp Require Import gmap.
#[local] Open Scope Z_scope.

Module Draw.
Import Scheduler FrameDamage ActionContext DisplaySize DisplayState Content RenderLines.

(** A text from a point of the viewport on, one character in each column. *)
Record DrawnText := mkText { dx_point : Point; dx_chars : list char }.

(** [frame().damage_line(damage)] and [next_frame().damage_line(damage)]. *)
Definition with_frames (f f' : FrameDamage) (dt : DamageTracker) : DamageTracker :=
  mkTracker (old_vi_cursor dt) (old_selection dt) (debug dt) f f' (dt_screen_lines dt) (dt_columns dt).
Definition damage_both (b : LineDamageBounds) (dt : DamageTracker) : exec DamageTracker :=
  f ← damage_line b (frame dt);
  f' ← damage_line b (next_frame dt);
  mret (with_frames f f' dt).

Definition isize_sub (a b : Z) : exec Z := checked in_isize (a - b).

(** ** Texts over the grid *)

Section overlays.
Context (width : Z → option Z) (si : SizeInfo).
Implicit Types (dt : DamageTracker).

Definition draw_line_indicator (total_lines : Z) (obstructed_column : option Z) (line : Z) dt
    : exec (DamageTracker * list DrawnText) :=
  last ← usize_sub total_lines 1;
  let text := [91] ++ decimal line ++ [47] ++ decimal last ++ [93] in
  let column := saturating_sub (columns si) (zlen text) in
  right ← usize_sub (columns si) 1;
  dt ← damage_both (mkBounds 0 column right) dt;
  mret (dt, if match obstructed_column with None => true | Some c => c <? column end
            then [mkText (mkPoint 0 column) text] else []).

(** The text of the search bar and its point. *)
Definition draw_search (text : list char) : DrawnText :=
  mkText (mkPoint (screen_lines si) 0) (search_bar (columns si) text).

(** [timing] is the text of the meter, if the timer is enabled; it is ASCII. *)
Definition draw_render_timer (timing : option (list char)) dt : exec (DamageTracker * list DrawnText) :=
  match timing with
  | None => mret (dt, [])
  | Some timing =>
      let point := mkPoint (saturating_sub (screen_lines si) 2) 0 in
      dt ← damage_both (mkBounds (line point) (column point) (zlen timing)) dt;
      mret (dt, [mkText point timing])
  end.

(** *** The input method *)

Definition visible_preedit (p : Preedit) : exec (list char) :=
  match cursor_byte_offset p, cursor_end_offset p with
  | Some byte_offset, Some end_offset =>
      if columns si <? fst end_offset then
        '(_, rest) ← MessageBar.split_off (fst byte_offset) (pe_text p);
        shorten width rest (columns si) Shortener.ShortenRight
      else shorten width (pe_text p) (columns si) Shortener.ShortenLeft
  | _, _ => shorten width (pe_text p) (columns si) Shortener.ShortenLeft
  end.

(** The tracker, the text, and the point the popup of the input method is at. *)
Definition draw_ime_preview (preedit : option Preedit) (p : Point) dt
    : exec (DamageTracker * list DrawnText * Point) :=
  match preedit with
  | None => mret (dt, [], p)
  | Some preedit =>
      let num_cols := columns si in
      visible_text ← visible_preedit preedit;
      let visible_len := zlen visible_text in
      e ← usize_add (column p) visible_len;
      let e := Z.min e num_cols in
      let start := mkPoint (line p) (saturating_sub e visible_len) in
      e ← usize_sub e 1;
      let end_ := mkPoint (line p) e in
      dt ← (if line p <? screen_lines si then damage_both (mkBounds (line start) 0 num_cols) dt else mret dt);
      popup ← match cursor_end_offset preedit with
              | Some offset =>
                  _ ← usize_sub (fst offset) (snd offset);
                  c ← isize_sub (as_isize (column end_)) (as_isize (fst offset));
                  c ← isize_add c 1;
                  mret (mkPoint (line p) (Z.max c 0))
              | None => mret end_
              end;
      mret (dt, [mkText start visible_text], popup)
  end.

(** *** Hyperlinks *)

(** The lines of the previews, from the bottom of the viewport on: those that are not
    protected. *)
Fixpoint free_lines (count : nat) (protected : list (option Z)) (lines : list Z) : list Z :=
  match count, lines with
  | O, _ | _, [] => []
  | S n, l :: lines =>
      if bool_decide (Some l ∈ protected) then free_lines count protected lines
      else l :: free_lines n (protected ++ [Some l]) lines
  end.

Fixpoint draw_uris (uris : list (list char)) (display_offset : Z) (lines : list Z) dt
    : exec (DamageTracker * list DrawnText) :=
  match uris, lines with
  | uri :: uris, l :: lines =>
      p ← point_to_viewport display_offset (mkPoint l 0);
      match p with
      | Some p =>
          dt ← damage_both (mkBounds (line p) (column p) (columns si)) dt;
          '(dt, texts) ← draw_uris uris display_offset lines dt;
          mret (dt, mkText p uri :: texts)
      | None => draw_uris (uri :: uris) display_offset lines dt
      end
  | _, _ => mret (dt, [])
  end.

Fixpoint shorten_all (uris : list (list char)) : exec (list (list char)) :=
  match uris with
  | [] => mret []
  | uri :: uris =>
      uri ← shorten width uri (columns si) Shortener.ShortenRight; uris ← shorten_all uris; mret (uri :: uris)
  end.

Definition draw_hyperlink_preview (hl : Highlights) (cursor_point : option Point) (display_offset : Z) dt
    : exec (DamageTracker * list DrawnText) :=
  let links := omap (λ hm, hm ≫= λ hm, hyperlink_uri <$> hm_hyperlink hm) [hl_hint hl; hl_vi_hint hl] in
  uris ← shorten_all links;
  if bool_decide (length uris = 0%nat) then mret (dt, [])
  else
    max_protected_lines ← usize_mul (zlen uris) 2;
    let protected := if max_protected_lines <? screen_lines si
                     then [line <$> hl_mouse_point hl; line <$> cursor_point] else [] in
    bottom ← bottommost_line si;
    viewport_bottom ← i32_sub bottom (as_i32 display_offset);
    n ← usize_sub (screen_lines si) 1;
    viewport_top ← line_sub_usize viewport_bottom n;
    let lines := reverse (seqZ viewport_top (viewport_bottom + 1 - viewport_top)) in
    draw_uris uris display_offset (free_lines (length uris) protected lines) dt.

(** *** Messages *)

(** The message bar: its damage, and its lines below the search bar. *)
Definition draw_message (search_offset : Z) (m : MessageBar.Message) dt : exec (DamageTracker * list DrawnText) :=
  text ← MessageBar.text width (columns si)
           (float_as_usize (Z.quot (si_height si - 2 * si_padding_y si) (si_cell_height si))) m;
  start_line ← usize_add (screen_lines si) search_offset;
  let y := si_cell_height si * start_line + si_padding_y si in
  f ← add_viewport_rect (si_height si) 0 y (si_width si) (si_height si - y) (frame dt);
  mret (with_frame f dt, imap (λ i s, mkText (mkPoint (start_line + Z.of_nat i) 0) s) text).
End overlays.

(** ** Cells *)

(** Underlining the cells of highlighted hints. *)
Definition highlights (hint : option HintMatch) (p : Point) (link : option Hyperlink) : bool :=
  match hint with Some hm => should_highlight hm p link | None => false end.
Definition with_flags (fl : Z) (c : RenderableCell) : RenderableCell :=
  mkRenderable (rc_character c) (rc_at c) (rc_fg c) (rc_bg c) (rc_bg_alpha c) (rc_underline c) fl (rc_extra c).

Fixpoint highlight_cells (hl : Highlights) (display_offset : Z) (cells : list RenderableCell) (dt : DamageTracker)
    : exec (DamageTracker * list RenderableCell) :=
  match cells with
  | [] => mret (dt, [])
  | cell :: cells =>
      p ← viewport_to_point display_offset (rc_at cell);
      let link := rc_extra cell ≫= re_hyperlink in
      '(dt, cell) ← (if highlights (hl_hint hl) p link || highlights (hl_vi_hint hl) p link then
                       f ← damage_point (rc_at cell) (frame dt);
                       mret (with_frame f dt, with_flags (Z.lor (rc_flags cell) Flags.UNDERLINE) cell)
                     else mret (dt, cell));
      '(dt, cells) ← highlight_cells hl display_offset cells dt;
      mret (dt, cell :: cells)
  end.

(** Adding the damage of the terminal. *)
Fixpoint damage_each (lines : list LineDamageBounds) (f : FrameDamage) : exec FrameDamage :=
  match lines with [] => mret f | b :: lines => f ← damage_line b f; damage_each lines f end.
Definition add_term_damage (damage : TermDamage) (dt : DamageTracker) : exec DamageTracker :=
  match damage with
  | FullDamage => mret (with_frame (FrameDamage.mark_fully_damaged (frame dt)) dt)
  | PartialDamage lines => f ← damage_each lines (frame dt); mret (with_frame f dt)
  end.

(** ** The frame *)

(** What is drawn, and the damage it is shown with. *)
Record Picture := mkPicture {
  pic_cells : list RenderableCell;
  pic_lines : RenderLines;
  pic_texts : list DrawnText;
  pic_ime : option Point;
  pic_damage : FrameDamage }.

Definition regex_text (ss : SearchState) : option text := history_index ss ≫= zlookup (history ss).

Section draw.
Context `{Ansi} {Font E : Type} (dim_color : Rgb → Rgb) (to_bright to_dim : NamedColor → NamedColor).
Context (low_contrast : Rgb → Rgb → bool) (cfg : DrawConfig) (fuel n : nat) (width : Z → option Z).
Implicit Types (d : Display Font) (t : Term) (ss : SearchState).

(** The damage before anything is laid over the grid: of the terminal, of hints that are
    no longer valid, and of everything if the bell, hints or a search are shown. *)
Definition collect_frame_damage (bright : bool) (hints : HintState) ss (vi_cursor : option Point)
    (selection : option SelectionRange) (display_offset : Z) (damage : TermDamage) d : exec (Display Font) :=
  dt ← add_term_damage damage (d_tracker d);
  d ← validate_hint_highlights display_offset (upd_tracker dt d);
  let dt := d_tracker d in
  let dt := if bright || hints_active hints || bool_decide (is_Some (regex_text ss))
            then with_frames (FrameDamage.mark_fully_damaged (frame dt))
                   (FrameDamage.mark_fully_damaged (next_frame dt)) dt
            else dt in
  dt ← damage_vi_cursor vi_cursor dt;
  dt ← damage_selection selection display_offset dt;
  mret (upd_tracker dt d).

(** The line indicator: of the vi mode cursor, or of the display offset in a search. *)
Definition indicator (si : SizeInfo) (total_lines : Z) ss (vi_point : option Point) (display_offset : Z)
    (dt : DamageTracker) : exec (DamageTracker * list DrawnText) :=
  match vi_point with
  | Some p =>
      l ← i32_neg (line p);
      bottom ← bottommost_line si;
      l ← i32_add l bottom;
      top ← i32_neg (as_i32 display_offset);
      draw_line_indicator si total_lines (if line p =? top then Some (column p) else None) (as_usize l) dt
  | None =>
      match regex_text ss with
      | Some _ => draw_line_indicator si total_lines None display_offset dt
      | None => mret (dt, [])
      end
  end.

(** The search bar with its text, and the point for the input method. *)
Definition search_or_cursor (si : SizeInfo) ss (vi_viewport : option Point) (cursor_point : Point) (display_offset : Z)
    : exec (list DrawnText * option Point) :=
  match regex_text ss with
  | Some regex =>
      let label := match ss_direction ss with Right => FORWARD_SEARCH_LABEL | Left => BACKWARD_SEARCH_LABEL end in
      search_text ← format_search width regex label (columns si);
      column ← usize_sub (zlen search_text) 1;
      mret ([draw_search si search_text], Some (mkPoint (screen_lines si) column))
  | None =>
      match vi_viewport with
      | None =>
          p ← point_to_viewport display_offset cursor_point;
          mret ([], match p with Some p => if line p <? screen_lines si then Some p else None | None => None end)
      | Some p => mret ([], Some p)
      end
  end.

(** Whether a hint is highlighted. *)
Definition has_highlighted_hint (hl : Highlights) : bool :=
  bool_decide (is_Some (hl_hint hl)) || bool_decide (is_Some (hl_vi_hint hl)).

(** Everything that is laid over the grid: the tracker, the texts, and the point of the
    popup of the input method. *)
Definition draw_overlays (si : SizeInfo) (total : Z) ss (hl : Highlights) (vi_point vi_viewport : option Point)
    (cursor_point : Point) (display_offset : Z) (ime : Ime) (buffer : MessageBar.MessageBuffer)
    (timing : option (list char)) (dt : DamageTracker) : exec (DamageTracker * list DrawnText * option Point) :=
  '(dt, indicator_texts) ← indicator si total ss vi_point display_offset dt;
  '(search_texts, ime_position) ← search_or_cursor si ss vi_viewport cursor_point display_offset;
  '(dt, ime_texts, popup) ←
    match (if ime_enabled ime then ime_position else None) with
    | Some p => '(dt, texts, popup) ← draw_ime_preview width si (ime_preedit ime) p dt; mret (dt, texts, Some popup)
    | None => mret (dt, [], None)
    end;
  '(dt, message_texts) ←
    match MessageBar.message buffer with
    | Some m => draw_message width si (if bool_decide (is_Some (regex_text ss)) then 1 else 0) m dt
    | None => mret (dt, [])
    end;
  '(dt, timer_texts) ← draw_render_timer si timing dt;
  '(dt, uri_texts) ←
    (if has_highlighted_hint hl
     then draw_hyperlink_preview width si hl (Some (default cursor_point vi_point)) display_offset dt
     else mret (dt, []));
  mret (dt, indicator_texts ++ search_texts ++ ime_texts ++ message_texts ++ timer_texts ++ uri_texts, popup).

(** [Display::draw].  [bright] is whether the visual bell is visible, [wayland] whether
    the window system announces frames by itself. *)
Definition draw (bright wayland cursor_hidden : bool) (timing : option (list char)) (ime : Ime) (frame_event : E)
    (window now vblank : Z) (buffer : MessageBar.MessageBuffer) (hints : HintState) ss d t (s : @Scheduler E Z)
    : exec (Display Font * Term * HintState * @Scheduler E Z * Picture) :=
  let si := d_size d in
  '(content, hints) ← content_new cfg fuel n t ss hints cursor_hidden (bool_decide (is_Some (ime_preedit ime)));
  '(cells, content) ← content_collect dim_color to_bright to_dim low_contrast cfg fuel fuel (t_grid t) content;
  let display_offset := rd_display_offset (fr_terminal content) in
  let vi_point := if has_mode t TermMode.VI then Some (t_vi_mode_cursor t) else None in
  let cursor_point := term_cursor t in
  let total := total_lines (t_grid t) in
  '(t, damage) ← collect_damage t;
  let t := reset_damage t in
  vi_viewport ← match vi_point with Some p => point_to_viewport display_offset p | None => mret None end;
  d ← collect_frame_damage bright hints ss vi_viewport (rd_selection (fr_terminal content)) display_offset damage d;
  let hl := d_highlights d in
  '(dt, cells) ← (if has_highlighted_hint hl then highlight_cells hl display_offset cells (d_tracker d)
                  else mret (d_tracker d, cells));
  lines ← update_all cells ∅;
  '(dt, texts, popup) ← draw_overlays si total ss hl vi_point vi_viewport cursor_point display_offset ime buffer timing dt;
  let picture := mkPicture cells lines texts popup (frame dt) in
  let d := upd_tracker dt d in
  '(d, s) ← (if wayland then mret (d, s) else request_frame frame_event window now vblank d s);
  mret (upd_tracker (swap_damage (d_tracker d)) d, t, hints, s, picture).
End draw.
End Draw.
