(* ===== verification/Dispatch.v ===== *)
(** * Events of a window (alacritty/src/event.rs and alacritty/src/window_context.rs)

    What a window does with the events of the window system, of timers and of its
    terminal: [input::Processor::handle_event] for one event, and [WindowContext] around
    it, which queues events and handles them together, then updates the display and asks
    for a new frame; and the change of its configuration.

    The state of a window is that of the input processor together with the rest of the
    display and of the window; [display_of] is the display in the form DisplayState.v
    has it.  Calls of the window system that the code does not read back are recorded. *)

From S2P Require Import Prelude Decimal Index Ansi GridCell Row Storage Cell Grid Selection Term.
From S2P Require Import Handler Search RegexSearch ViMode Hints Scheduler EventLoop FrameDamage Shortener MessageBar.
From S2P Require Import Keyboard ActionContext DisplaySize DisplayState Bindings InputProcessor PointerInput.
From S2P Require Import ConfigFiles ColorList Overrides.
From stdpp Require Import gmap.
#[local] Open Scope Z_scope.

Module Dispatch.
Import Keyboard Scheduler FrameDamage ActionContext DisplaySize DisplayState Bindings InputProcessor PointerInput.

(** ** The world outside *)

(** Fonts and scale factors: [scale_ratio] is a quotient of factors, [px_rounded] a size in
    whole pixels, [scaled_px] a number of pixels times a factor, rounded down. *)
Class Outside := {
  Family : Type;
  FontSize : Type;
  Scale : Type;
  Theme : Type;
  Value : Type;
  Family_eq_dec :: EqDecision Family;
  FontSize_eq_dec :: EqDecision FontSize;
  font_scale : FontSize → Scale → FontSize;
  scale_ratio : Scale → Scale → Scale;
  px_rounded : FontSize → Z;
  from_px : Z → FontSize;
  scaled_px : Z → Scale → Z }.

Section state.
Context `{Ansi} `{Outside}.

Record Font := mkFont { f_family : Family; f_size : FontSize }.
#[global] Instance Font_eq_dec : EqDecision Font.
Proof. solve_decision. Defined.
Definition with_size (s : FontSize) (f : Font) : Font := mkFont (f_family f) s.

(** The options that are read here.  Durations are in nanoseconds, the thickness of the
    cursor and the opacity in hundredths; the colours are the [List] of the configured
    ones. *)
Record AppConfig := mkAppConfig {
  c_ui : UiConfig;
  c_padding : Z * Z;
  c_dynamic_padding : bool;
  c_resize_increments : bool;
  c_dynamic_title : bool;
  c_title : text;
  c_theme : option Theme;
  c_opacity : Z;
  c_blur : bool;
  c_bell_command : option (text * list text);
  c_bell_duration : Z;
  c_unfocused_hollow : bool;
  c_thickness : Z;
  c_font : Font;
  c_alphabet : list char;
  c_options : Config;
  c_key_bindings : list (Binding BindingKey);
  c_hint_bindings : list (Binding BindingKey);
  c_mouse_bindings : list (Binding MouseEvent);
  c_hints : list Hint;
  c_multiplier : Z;
  c_colors : list Rgb;
  c_highlight_damage : bool }.

(** *** Events *)

(** The events of winit that the code acts on; all others are [OtherWindowEvent]. *)
Inductive WindowEvent :=
  | CloseRequested
  | ScaleFactorChanged (s : Scale)
  | Resized (width height : Z)
  | KeyboardInput (physical : Z) (key : KeyEvent) (is_synthetic : bool)
  | ModifiersChanged (m : ModifiersState)
  | MouseInputEvent (st : ElementState) (button : MouseButton)
  | CursorMoved (x y : Z)
  | MouseWheel (delta : MouseScrollDelta) (phase : TouchPhase)
  | TouchInput (phase : TouchPhase) (t : TouchEvent)
  | Focused (is_focused : bool)
  | Occluded (occluded : bool)
  | DroppedFile (path : text)
  | CursorLeft
  | ImeCommit (s : text)
  | ImePreedit (s : text) (cursor_offset : option (Z * Z))
  | ImeEnabled
  | ImeDisabled
  | RedrawRequested
  | OtherWindowEvent.

(** [EventType] with the timers' payloads as they are; the events that only the
    application handles are in AppEvents.v. *)
Inductive Payload :=
  | TerminalPayload (e : Event)
  | TimerPayload (e : EventType)
  | MessagePayload (m : MessageBar.Message).

Inductive WinitEvent :=
  | UserEvent (p : Payload)
  | FromWindow (e : WindowEvent)
  | AboutToWait.

(** *** State *)

(** Calls of the window system. *)
Inductive WindowCall :=
  | CallUrgent (b : bool)
  | CallTheme (t : option Theme)
  | CallTransparent (b : bool)
  | CallBlur (b : bool)
  | CallRedraw.

(** [VisualBell]; how bright it is at an instant is not needed. *)
Record VisualBell := mkBell { vb_duration : Z; vb_start_time : option Z }.
Definition ring (now : Z) (b : VisualBell) : VisualBell := mkBell (vb_duration b) (Some now).
Definition bell_completed (now : Z) (b : VisualBell) : VisualBell * bool :=
  match vb_start_time b with
  | Some earlier => (if vb_duration b <=? Z.max 0 (now - earlier) then mkBell (vb_duration b) None else b, false)
  | None => (b, true)
  end.

(** The fields of [Display] that input does not change by itself. *)
Record DisplayRest := mkRest {
  r_has_frame : bool;
  r_resize_increments : option (Z * Z);
  r_size : SizeInfo;
  r_pending : DisplayUpdate Font;
  r_renderer : option RendererUpdate;
  r_age : Z;
  r_vi_age : Z;
  r_mouse_point : option Point;
  r_timer : FrameTimer }.
Definition set_pending (u : DisplayUpdate Font) (r : DisplayRest) : DisplayRest :=
  mkRest (r_has_frame r) (r_resize_increments r) (r_size r) u (r_renderer r) (r_age r) (r_vi_age r)
    (r_mouse_point r) (r_timer r).

Record WindowContext := mkWindowContext {
  wc_config : AppConfig;
  wc_pointer : Pointer;
  wc_rest : DisplayRest;
  wc_title : text;
  wc_hold : bool;
  wc_scale : Scale;
  wc_font_size : FontSize;
  wc_requested_redraw : bool;
  wc_ime_focus : bool;
  wc_ime : Ime;
  wc_bell : VisualBell;
  wc_prev_bell : option Z;
  wc_colors : list Rgb;
  wc_modifiers : ModifiersState;
  wc_occluded : bool;
  wc_preserve_title : bool;
  wc_window_config : list (list Z * Value);
  wc_queue : list WinitEvent;
  wc_calls : list WindowCall }.
Implicit Types (w : WindowContext) (x : Ctx) (i : Input) (d : Display Font).

Definition w_set_config (v : AppConfig) w : WindowContext := mkWindowContext v (wc_pointer w) (wc_rest w)
  (wc_title w) (wc_hold w) (wc_scale w) (wc_font_size w) (wc_requested_redraw w) (wc_ime_focus w) (wc_ime w)
  (wc_bell w) (wc_prev_bell w) (wc_colors w) (wc_modifiers w) (wc_occluded w) (wc_preserve_title w)
  (wc_window_config w) (wc_queue w) (wc_calls w).
Definition w_set_pointer (v : Pointer) w : WindowContext := mkWindowContext (wc_config w) v (wc_rest w)
  (wc_title w) (wc_hold w) (wc_scale w) (wc_font_size w) (wc_requested_redraw w) (wc_ime_focus w) (wc_ime w)
  (wc_bell w) (wc_prev_bell w) (wc_colors w) (wc_modifiers w) (wc_occluded w) (wc_preserve_title w)
  (wc_window_config w) (wc_queue w) (wc_calls w).
Definition w_set_rest (v : DisplayRest) w : WindowContext := mkWindowContext (wc_config w) (wc_pointer w) v
  (wc_title w) (wc_hold w) (wc_scale w) (wc_font_size w) (wc_requested_redraw w) (wc_ime_focus w) (wc_ime w)
  (wc_bell w) (wc_prev_bell w) (wc_colors w) (wc_modifiers w) (wc_occluded w) (wc_preserve_title w)
  (wc_window_config w) (wc_queue w) (wc_calls w).
Definition set_title (v : text) w : WindowContext := mkWindowContext (wc_config w) (wc_pointer w) (wc_rest w) v
  (wc_hold w) (wc_scale w) (wc_font_size w) (wc_requested_redraw w) (wc_ime_focus w) (wc_ime w) (wc_bell w)
  (wc_prev_bell w) (wc_colors w) (wc_modifiers w) (wc_occluded w) (wc_preserve_title w) (wc_window_config w)
  (wc_queue w) (wc_calls w).
Definition w_set_hold (v : bool) w : WindowContext := mkWindowContext (wc_config w) (wc_pointer w) (wc_rest w)
  (wc_title w) v (wc_scale w) (wc_font_size w) (wc_requested_redraw w) (wc_ime_focus w) (wc_ime w) (wc_bell w)
  (wc_prev_bell w) (wc_colors w) (wc_modifiers w) (wc_occluded w) (wc_preserve_title w) (wc_window_config w)
  (wc_queue w) (wc_calls w).
Definition w_set_scale (v : Scale) w : WindowContext := mkWindowContext (wc_config w) (wc_pointer w) (wc_rest w)
  (wc_title w) (wc_hold w) v (wc_font_size w) (wc_requested_redraw w) (wc_ime_focus w) (wc_ime w) (wc_bell w)
  (wc_prev_bell w) (wc_colors w) (wc_modifiers w) (wc_occluded w) (wc_preserve_title w) (wc_window_config w)
  (wc_queue w) (wc_calls w).
Definition w_set_font_size (v : FontSize) w : WindowContext := mkWindowContext (wc_config w) (wc_pointer w)
  (wc_rest w) (wc_title w) (wc_hold w) (wc_scale w) v (wc_requested_redraw w) (wc_ime_focus w) (wc_ime w)
  (wc_bell w) (wc_prev_bell w) (wc_colors w) (wc_modifiers w) (wc_occluded w) (wc_preserve_title w)
  (wc_window_config w) (wc_queue w) (wc_calls w).
Definition w_set_requested (v : bool) w : WindowContext := mkWindowContext (wc_config w) (wc_pointer w) (wc_rest
  w) (wc_title w) (wc_hold w) (wc_scale w) (wc_font_size w) v (wc_ime_focus w) (wc_ime w) (wc_bell w)
  (wc_prev_bell w) (wc_colors w) (wc_modifiers w) (wc_occluded w) (wc_preserve_title w) (wc_window_config w)
  (wc_queue w) (wc_calls w).
Definition w_set_ime_focus (v : bool) w : WindowContext := mkWindowContext (wc_config w) (wc_pointer w) (wc_rest
  w) (wc_title w) (wc_hold w) (wc_scale w) (wc_font_size w) (wc_requested_redraw w) v (wc_ime w) (wc_bell w)
  (wc_prev_bell w) (wc_colors w) (wc_modifiers w) (wc_occluded w) (wc_preserve_title w) (wc_window_config w)
  (wc_queue w) (wc_calls w).
Definition w_set_ime (v : Ime) w : WindowContext := mkWindowContext (wc_config w) (wc_pointer w) (wc_rest w)
  (wc_title w) (wc_hold w) (wc_scale w) (wc_font_size w) (wc_requested_redraw w) (wc_ime_focus w) v (wc_bell w)
  (wc_prev_bell w) (wc_colors w) (wc_modifiers w) (wc_occluded w) (wc_preserve_title w) (wc_window_config w)
  (wc_queue w) (wc_calls w).
Definition w_set_bell (v : VisualBell) w : WindowContext := mkWindowContext (wc_config w) (wc_pointer w)
  (wc_rest w) (wc_title w) (wc_hold w) (wc_scale w) (wc_font_size w) (wc_requested_redraw w) (wc_ime_focus w)
  (wc_ime w) v (wc_prev_bell w) (wc_colors w) (wc_modifiers w) (wc_occluded w) (wc_preserve_title w)
  (wc_window_config w) (wc_queue w) (wc_calls w).
Definition w_set_prev_bell (v : option Z) w : WindowContext := mkWindowContext (wc_config w) (wc_pointer w)
  (wc_rest w) (wc_title w) (wc_hold w) (wc_scale w) (wc_font_size w) (wc_requested_redraw w) (wc_ime_focus w)
  (wc_ime w) (wc_bell w) v (wc_colors w) (wc_modifiers w) (wc_occluded w) (wc_preserve_title w)
  (wc_window_config w) (wc_queue w) (wc_calls w).
Definition w_set_colors (v : list Rgb) w : WindowContext := mkWindowContext (wc_config w) (wc_pointer w)
  (wc_rest w) (wc_title w) (wc_hold w) (wc_scale w) (wc_font_size w) (wc_requested_redraw w) (wc_ime_focus w)
  (wc_ime w) (wc_bell w) (wc_prev_bell w) v (wc_modifiers w) (wc_occluded w) (wc_preserve_title w)
  (wc_window_config w) (wc_queue w) (wc_calls w).
Definition w_set_modifiers (v : ModifiersState) w : WindowContext := mkWindowContext (wc_config w) (wc_pointer
  w) (wc_rest w) (wc_title w) (wc_hold w) (wc_scale w) (wc_font_size w) (wc_requested_redraw w) (wc_ime_focus w)
  (wc_ime w) (wc_bell w) (wc_prev_bell w) (wc_colors w) v (wc_occluded w) (wc_preserve_title w)
  (wc_window_config w) (wc_queue w) (wc_calls w).
Definition w_set_occluded (v : bool) w : WindowContext := mkWindowContext (wc_config w) (wc_pointer w) (wc_rest
  w) (wc_title w) (wc_hold w) (wc_scale w) (wc_font_size w) (wc_requested_redraw w) (wc_ime_focus w) (wc_ime w)
  (wc_bell w) (wc_prev_bell w) (wc_colors w) (wc_modifiers w) v (wc_preserve_title w) (wc_window_config w)
  (wc_queue w) (wc_calls w).
Definition w_set_overrides (v : list (list Z * Value)) w : WindowContext := mkWindowContext (wc_config w)
  (wc_pointer w) (wc_rest w) (wc_title w) (wc_hold w) (wc_scale w) (wc_font_size w) (wc_requested_redraw w)
  (wc_ime_focus w) (wc_ime w) (wc_bell w) (wc_prev_bell w) (wc_colors w) (wc_modifiers w) (wc_occluded w)
  (wc_preserve_title w) v (wc_queue w) (wc_calls w).
Definition w_set_queue (v : list WinitEvent) w : WindowContext := mkWindowContext (wc_config w) (wc_pointer w)
  (wc_rest w) (wc_title w) (wc_hold w) (wc_scale w) (wc_font_size w) (wc_requested_redraw w) (wc_ime_focus w)
  (wc_ime w) (wc_bell w) (wc_prev_bell w) (wc_colors w) (wc_modifiers w) (wc_occluded w) (wc_preserve_title w)
  (wc_window_config w) v (wc_calls w).
Definition w_set_calls (v : list WindowCall) w : WindowContext := mkWindowContext (wc_config w) (wc_pointer w)
  (wc_rest w) (wc_title w) (wc_hold w) (wc_scale w) (wc_font_size w) (wc_requested_redraw w) (wc_ime_focus w)
  (wc_ime w) (wc_bell w) (wc_prev_bell w) (wc_colors w) (wc_modifiers w) (wc_occluded w) (wc_preserve_title w)
  (wc_window_config w) (wc_queue w) v.

Definition w_input w : Input := p_input (wc_pointer w).
Definition w_ctx w : Ctx := i_ctx (w_input w).
Definition w_term w : Term := x_term (w_ctx w).
Definition set_input i w : WindowContext := w_set_pointer (upd_input i (wc_pointer w)) w.
Definition set_ctx x w : WindowContext := set_input (with_ctx x (w_input w)) w.
Definition upd_ctx (f : Ctx → Ctx) w : WindowContext := set_ctx (f (w_ctx w)) w.
Definition upd_pending_update (f : DisplayUpdate Font → DisplayUpdate Font) w : WindowContext :=
  w_set_rest (set_pending (f (r_pending (wc_rest w))) (wc_rest w)) w.
Definition window_call (c : WindowCall) w : WindowContext := w_set_calls (wc_calls w ++ [c]) w.
Definition w_on_input (f : Input → exec Input) w : exec WindowContext := i ← f (w_input w); mret (set_input i w).
Definition w_on_ctx (f : Ctx → exec Ctx) w : exec WindowContext := x ← f (w_ctx w); mret (set_ctx x w).

(** [ime.preedit()] is known to the context by whether there is one. *)
Definition ctx_with_preedit (b : bool) x : Ctx :=
  mkCtx (x_term x) (x_dirty x) (x_mouse x) (x_search x) (x_inline x) (x_clipboard x) (x_channel x)
    (x_scheduler x) (x_tracker x) (x_pending_update x) (x_vi_ime_inhibited x) (x_cursor_hidden x)
    (x_blink_timed_out x) (x_mouse_visible x) b (x_now x).
Definition set_ime (ime : Ime) w : WindowContext :=
  upd_ctx (ctx_with_preedit (bool_decide (is_Some (ime_preedit ime)))) (w_set_ime ime w).

(** *** The display *)

Definition display_of w : Display Font :=
  let i := w_input w in
  let x := i_ctx i in
  let r := wc_rest w in
  let u := r_pending r in
  mkDisplay (mkWindow (i_cursor_icon i) (x_mouse_visible x) (r_has_frame r) (r_resize_increments r)) (r_size r)
    (mkUpdate (x_pending_update x || du_dirty u) (du_dimensions u) (du_cursor_dirty u) (du_font u))
    (r_renderer r) (x_tracker x)
    (mkHighlights (i_mouse_hint i) (r_age r) (i_vi_hint i) (r_vi_age r) (r_mouse_point r)) (r_timer r).

Definition ctx_with_display d x : Ctx :=
  mkCtx (x_term x) (x_dirty x) (x_mouse x) (x_search x) (x_inline x) (x_clipboard x) (x_channel x)
    (x_scheduler x) (d_tracker d) (du_dirty (d_pending d)) (x_vi_ime_inhibited x) (x_cursor_hidden x)
    (x_blink_timed_out x) (w_mouse_visible (d_window d)) (x_preedit x) (x_now x).
Definition set_display d w : WindowContext :=
  let i := w_input w in
  let hl := d_highlights d in
  let i := mkInput (ctx_with_display d (i_ctx i)) (i_hints i) (hl_vi_hint hl) (hl_hint hl) (i_messages i)
             (i_middle_button i) (i_inside_text_area i) (w_mouse_cursor (d_window d)) (i_effects i) in
  w_set_rest (mkRest (w_has_frame (d_window d)) (w_resize_increments (d_window d)) (d_size d) (d_pending d)
                (d_renderer d) (hl_age hl) (hl_vi_age hl) (hl_mouse_point hl) (d_timer d)) (set_input i w).

(** [Window::request_redraw]. *)
Definition request_redraw w : WindowContext :=
  if wc_requested_redraw w then w else window_call CallRedraw (w_set_requested true w).

(** *** Fonts *)

Definition change_font_size (delta : Z) w : WindowContext :=
  let size := from_px (px_rounded (wc_font_size w) + delta) in
  upd_pending_update (set_font (with_size size (c_font (wc_config w)))) (w_set_font_size size w).
Definition reset_font_size w : WindowContext :=
  let font := c_font (wc_config w) in
  let size := font_scale (f_size font) (wc_scale w) in
  upd_pending_update (set_font (with_size size font)) (w_set_font_size size w).

Definition font_effect (e : Effect) w : WindowContext :=
  match e with
  | FontIncreased => change_font_size 1 w
  | FontDecreased => change_font_size (-1) w
  | FontReset => reset_font_size w
  | _ => w
  end.

(** The changes of the font size that handling an event from [w] to [w'] asked for. *)
Definition settle_fonts w w' : WindowContext :=
  let w'' := foldl (λ w delta, change_font_size delta w) w'
               (drop (length (p_font_deltas (wc_pointer w))) (p_font_deltas (wc_pointer w'))) in
  foldl (λ w e, font_effect e w) w'' (drop (length (i_effects (w_input w))) (i_effects (w_input w'))).
End state.

(** ** One event *)

Definition BELL_CMD_COOLDOWN : Z := 100000000.
Definition MIN_SELECTION_SCROLLING_HEIGHT : Z := 5.
Definition SELECTION_SCROLLING_STEP : Z := 20.

(** [String::into_bytes]. *)
Definition into_bytes (s : text) : list Z := s ≫= encode_utf8.

Section processor.
Context `{Ansi} `{Outside}.
(** The identifier of the window, compiled expressions, fuel for searches, clipboards, case
    mappings, lengths of vectors and widths of characters. *)
Context (window : Z) (compile : text → option RegexSearch) (fuel n : nat) (load : ClipboardType → text).
Context (str_to_lowercase : text → text) (to_lowercase : char → char) (to_text : NamedKey → option text).
Context (hypot : Z → Z → Z) (width : Z → option Z).
Implicit Types (w : WindowContext) (x : Ctx) (i : Input).

(** [write_to_pty]. *)
Definition w_write (bytes : list Z) w : WindowContext := upd_ctx (write_to_pty bytes) w.

Definition ring_bell w : WindowContext :=
  let x := w_ctx w in
  let w := if negb (t_is_focused (x_term x)) && has_mode (x_term x) TermMode.URGENCY_HINTS
           then window_call (CallUrgent true) w else w in
  let w := w_set_bell (ring (x_now x) (wc_bell w)) w in
  match c_bell_command (wc_config w) with
  | Some (program, args) =>
      if match wc_prev_bell w with None => true | Some i => BELL_CMD_COOLDOWN <=? Z.max 0 (x_now x - i) end
      then w_set_prev_bell (Some (x_now x)) (set_input (effect (SpawnDaemon program args) (w_input w)) w)
      else w
  | None => w
  end.

(** The arm [EventType::Terminal]. *)
Definition terminal_event (e : Event) w : exec WindowContext :=
  let cfg := wc_config w in
  match e with
  | Title title => mret (if negb (wc_preserve_title w) && c_dynamic_title cfg then set_title title w else w)
  | ResetTitle => mret (if negb (wc_preserve_title w) && c_dynamic_title cfg then set_title (c_title cfg) w else w)
  | Bell => mret (ring_bell w)
  | ClipboardStore ty content =>
      mret (if t_is_focused (w_term w)
            then upd_ctx (λ x, upd_clipboard (x_clipboard x ++ [(ty, content)]) x) w else w)
  | ClipboardLoad ty format =>
      mret (if t_is_focused (w_term w) then w_write (into_bytes (format (load ty))) w else w)
  | ColorRequest index format =>
      color ← vec_get (t_colors (w_term w)) index;
      match color with
      | Some color => mret (w_write (into_bytes (format color)) w)
      | None =>
          if index =? named_color_as_usize CursorColor then mret w
          else color ← vec_get (wc_colors w) index; mret (w_write (into_bytes (format color)) w)
      end
  | TextAreaSizeRequest format =>
      s ← format (size_to_window (r_size (wc_rest w))); mret (w_write (into_bytes s) w)
  | PtyWrite s => mret (w_write (into_bytes s) w)
  | MouseCursorDirty => w_on_input (reset_mouse_cursor (r_size (wc_rest w)) (wc_modifiers w)) w
  | CursorBlinkingChange => mret (upd_ctx (update_cursor_blinking (c_ui cfg) window) w)
  | Exit | ChildExit _ | Wakeup => mret w
  end.

(** The other arms of [EventType] that a window handles. *)
Definition user_event (p : Payload) w : exec WindowContext :=
  let ui := c_ui (wc_config w) in
  match p with
  | TimerPayload ActionContext.SearchNext => w_on_ctx (goto_match window fuel n None) w
  | TimerPayload (ScrollEvent s) => w_on_ctx (ActionContext.scroll ui (r_size (wc_rest w)) window s) w
  | TimerPayload BlinkCursorEvent =>
      mret (if negb (x_blink_timed_out (w_ctx w))
            then upd_ctx (λ x, mark_dirty (set_cursor_hidden (negb (x_cursor_hidden x)) x)) w else w)
  | TimerPayload BlinkCursorTimeout =>
      mret (upd_ctx (λ x, mark_dirty (set_cursor_hidden false (set_blink_timed_out true
                            (snd (unschedule_timer window BlinkCursor x))))) w)
  | TimerPayload FrameEvent => mret w
  | MessagePayload m =>
      mret (if negb (MessageBar.is_queued m (i_messages (w_input w)))
            then upd_ctx pending_dirty (set_input (with_messages (MessageBar.push m (i_messages (w_input w))) (w_input w)) w)
            else w)
  | TerminalPayload e => terminal_event e w
  end.

(** The input method. *)
Definition ime_preedit_event (s : text) (cursor_offset : option (Z * Z)) w : exec WindowContext :=
  preedit ← (if bool_decide (s = []) then mret None
             else p ← preedit_new width s cursor_offset; mret (Some p));
  mret (if bool_decide (ime_preedit (wc_ime w) = preedit) then w
        else upd_ctx mark_dirty (upd_ctx (update_cursor_blinking (c_ui (wc_config w)) window)
               (set_ime (set_preedit preedit (wc_ime w)) w))).

Definition focus_event (is_focused : bool) w : WindowContext :=
  let w := upd_ctx (λ x, upd_term (upd_is_focused is_focused (x_term x)) x) w in
  let w := if c_unfocused_hollow (wc_config w) then upd_ctx mark_dirty w else w in
  let w := if is_focused then window_call (CallUrgent false) w else w in
  let w := upd_ctx (update_cursor_blinking (c_ui (wc_config w)) window) w in
  let w := upd_ctx (on_focus_change is_focused) w in
  w_set_ime_focus (negb is_focused) w.

Definition window_event (e : WindowEvent) w : exec WindowContext :=
  let cfg := wc_config w in
  let ui := c_ui cfg in
  let size := r_size (wc_rest w) in
  let mods := wc_modifiers w in
  let min_height := scaled_px MIN_SELECTION_SCROLLING_HEIGHT (wc_scale w) in
  let step := scaled_px SELECTION_SCROLLING_STEP (wc_scale w) in
  let show := upd_ctx (set_mouse_visible true) in
  let on_pointer f w := p ← f (wc_pointer w); mret (w_set_pointer p w) in
  match e with
  | CloseRequested => mret (upd_ctx (λ x, upd_term (exit (x_term x)) x) (w_set_hold false w))
  | ScaleFactorChanged s =>
      let size := font_scale (wc_font_size w) (scale_ratio s (wc_scale w)) in
      mret (upd_pending_update (set_font (with_size size (c_font cfg))) (w_set_font_size size (w_set_scale s w)))
  | Resized width height =>
      mret (if (width =? 0) || (height =? 0) then w else upd_pending_update (set_dimensions (width, height)) w)
  | KeyboardInput physical key false =>
      w_on_input (key_input ui size window compile fuel n mods load str_to_lowercase to_lowercase to_text
                    (c_key_bindings cfg) (c_hint_bindings cfg) physical key) w
  | ModifiersChanged m => w_on_input (modifiers_input size m) (w_set_modifiers m w)
  | MouseInputEvent st button =>
      w_on_input (mouse_input ui size window compile fuel n mods load (c_mouse_bindings cfg) st button) (show w)
  | CursorMoved px py => w_on_input (mouse_moved size window mods min_height step px py) (show w)
  | MouseWheel delta phase =>
      on_pointer (mouse_wheel_input ui size window compile fuel n mods load (c_multiplier cfg) (c_mouse_bindings cfg)
                    delta phase) (show w)
  | TouchInput phase t =>
      on_pointer (touch ui size window compile fuel n mods load (c_mouse_bindings cfg) min_height step hypot phase t) w
  | Focused is_focused => mret (focus_event is_focused w)
  | Occluded occluded => mret (w_set_occluded occluded w)
  | DroppedFile path => w_on_ctx (paste ui size window compile fuel n (path ++ [32]) true) w
  | CursorLeft =>
      let w := set_input (with_inside false (w_input w)) w in
      mret (if bool_decide (is_Some (i_mouse_hint (w_input w))) then upd_ctx mark_dirty w else w)
  | ImeCommit s =>
      w ← w_on_ctx (paste ui size window compile fuel n s (1 <? zlen s)) (upd_ctx mark_dirty w);
      mret (upd_ctx (update_cursor_blinking ui window) w)
  | ImePreedit s offset => ime_preedit_event s offset w
  | ImeEnabled => mret (upd_ctx mark_dirty (set_ime (set_enabled true (wc_ime w)) w))
  | ImeDisabled => mret (upd_ctx mark_dirty (set_ime (set_enabled false (wc_ime w)) w))
  | KeyboardInput _ _ true | RedrawRequested | OtherWindowEvent => mret w
  end.

(** [input::Processor::handle_event]. *)
Definition processor_event (e : WinitEvent) w : exec WindowContext :=
  w' ← match e with
       | UserEvent p => user_event p w
       | FromWindow e => window_event e w
       | AboutToWait => mret w
       end;
  mret (settle_fonts w w').
Fixpoint processor_events (es : list WinitEvent) w : exec WindowContext :=
  match es with [] => mret w | e :: es => w ← processor_event e w; processor_events es w end.

(** ** A batch of events *)

(** The bits of winit's modifiers. *)
Definition SHIFT : Z := 4.
Definition modifier_bits (m : ModifiersState) : Z :=
  (if shift_key m then SHIFT else 0) + (if control_key m then 32 else 0)
  + (if alt_key m then 256 else 0) + (if super_key m then 2048 else 0).
Definition ALL_MODIFIERS : Z := 2340.

(** The dimensions of the cells of fonts, and the equality of matches of hints. *)
Context (font_cells : Font → Z * Z) (hint_eqb : HintMatch → HintMatch → bool).

(** The hint under a point, for the modifiers that are pressed. *)
Definition hint_at (cfg : AppConfig) (t : Term) (p : Point) (mods : Z) : exec (option HintMatch) :=
  highlighted_at fuel n SHIFT t p mods (c_hints cfg).

Definition window_cfg w : WindowConfig :=
  let cfg := wc_config w in
  mkWindowConfig (scaled_px (fst (c_padding cfg)) (wc_scale w), scaled_px (snd (c_padding cfg)) (wc_scale w))
    (c_dynamic_padding cfg) (c_resize_increments cfg).

(** The call of [submit_display_update] in a window. *)
Definition w_submit_update (old_is_searching : bool) w : exec WindowContext :=
  let x := w_ctx w in
  '(d, t, channel, ss) ← submit_display_update font_cells width (window_cfg w) (i_messages (w_input w))
                           (display_of w) (x_term x) (x_channel x) (x_search x) old_is_searching;
  mret (upd_ctx (λ x, upd_term t (upd_channel channel (upd_search ss x))) (set_display d w)).

(** The update of highlighted hints. *)
Definition mouse_clean (ms : Mouse) : Mouse :=
  mkMouse (left_button_state ms) (right_button_state ms) (last_click_timestamp ms) (last_click_button ms)
    (click_state ms) (cell_side ms) (block_hint_launcher ms) false (mouse_x ms) (mouse_y ms).
Definition w_update_hints w : exec WindowContext :=
  let x := w_ctx w in
  '(d, dirty) ← update_highlighted_hints hint_eqb (hint_at (wc_config w) (x_term x)) ALL_MODIFIERS (x_term x)
                  (x_mouse x) (i_inside_text_area (w_input w)) (modifier_bits (wc_modifiers w)) (display_of w);
  mret (upd_ctx (λ x, upd_mouse (mouse_clean (x_mouse x)) (upd_dirty (x_dirty x || dirty) x)) (set_display d w)).

Definition is_redraw (e : WinitEvent) : bool := match e with FromWindow RedrawRequested => true | _ => false end.

(** What follows the events of a batch. *)
Definition finish_batch (redraw old_is_searching : bool) w : exec WindowContext :=
  w ← (if du_dirty (d_pending (display_of w))
       then w ← w_submit_update old_is_searching w; mret (upd_ctx mark_dirty w) else mret w);
  w ← (if x_dirty (w_ctx w) || hint_highlight_dirty (x_mouse (w_ctx w)) then w_update_hints w else mret w);
  mret (if x_dirty (w_ctx w) && r_has_frame (wc_rest w) && negb (wc_occluded w) && negb redraw
        then request_redraw w else w).

(** [WindowContext::handle_event]. *)
Definition handle_event (e : WinitEvent) w : exec WindowContext :=
  if (match e with AboutToWait => true | _ => is_redraw e end) then
    match wc_queue w with
    | [] => mret w
    | queue =>
        let old_is_searching := search_active (w_ctx w) in
        w ← processor_events queue (w_set_queue [] w);
        finish_batch (is_redraw e) old_is_searching w
    end
  else mret (w_set_queue (wc_queue w ++ [e]) w).

(** ** Configuration *)

(** [SerdeReplace::replace]. *)
Context (replace : Value → AppConfig → AppConfig * bool).

(** [Display::update_config]. *)
Definition display_update_config (cfg : AppConfig) w : WindowContext :=
  let w := upd_ctx (λ x, let dt := x_tracker x in
    mkCtx (x_term x) (x_dirty x) (x_mouse x) (x_search x) (x_inline x) (x_clipboard x) (x_channel x) (x_scheduler x)
      (mkTracker (old_vi_cursor dt) (old_selection dt) (c_highlight_damage cfg) (frame dt) (next_frame dt)
         (dt_screen_lines dt) (dt_columns dt))
      (x_pending_update x) (x_vi_ime_inhibited x) (x_cursor_hidden x) (x_blink_timed_out x) (x_mouse_visible x)
      (x_preedit x) (x_now x)) w in
  w_set_colors (c_colors cfg) (w_set_bell (mkBell (c_bell_duration cfg) (vb_start_time (wc_bell w))) w).

(** The font, with its size unless that was changed at run time. *)
Definition update_font (old cfg : AppConfig) w : WindowContext :=
  if bool_decide (c_font old = c_font cfg) then w
  else
    let w := if bool_decide (wc_font_size w = font_scale (f_size (c_font old)) (wc_scale w))
             then w_set_font_size (font_scale (f_size (c_font cfg)) (wc_scale w)) w else w in
    upd_pending_update (set_font (with_size (wc_font_size w) (c_font cfg))) w.

Definition update_config (new_config : AppConfig) w : exec WindowContext :=
  let old := wc_config w in
  '(cfg, overrides, _) ← Overrides.override_config_rc replace (wc_window_config w) new_config;
  let w := display_update_config cfg (w_set_overrides overrides (w_set_config cfg w)) in
  w ← w_on_ctx (on_term (set_options (c_options cfg))) w;
  let w := if c_thickness old =? c_thickness cfg then w else upd_pending_update set_cursor_dirty w in
  let w := update_font old cfg w in
  let w := window_call (CallTheme (c_theme cfg)) w in
  let w := if negb (bool_decide (c_padding old = c_padding cfg))
              || negb (eqb (c_dynamic_padding old) (c_dynamic_padding cfg))
              || negb (eqb (c_resize_increments old) (c_resize_increments cfg))
           then upd_ctx pending_dirty w else w in
  let w := if negb (wc_preserve_title w) && (negb (c_dynamic_title cfg) || bool_decide (wc_title w = c_title old))
           then set_title (c_title cfg) w else w in
  let opaque := 100 <=? c_opacity cfg in
  let w := window_call (CallBlur (c_blur cfg)) (window_call (CallTransparent (negb opaque)) w) in
  let w := set_input (with_hints (update_alphabet (c_alphabet cfg) (i_hints (w_input w))) (w_input w)) w in
  let w := w_set_queue (wc_queue w ++ [UserEvent (TerminalPayload CursorBlinkingChange)]) w in
  mret (upd_ctx mark_dirty w).

Definition LOG_TARGET_IPC_CONFIG : list Z := chars "alacritty_log_window_config".
Definition remove_ipc_messages w : WindowContext :=
  set_input (with_messages (MessageBar.remove_target LOG_TARGET_IPC_CONFIG (i_messages (w_input w))) (w_input w)) w.

Definition reset_window_config (config : AppConfig) w : exec WindowContext :=
  update_config config (w_set_overrides [] (remove_ipc_messages w)).
Definition add_window_config (config : AppConfig) (options : list (list Z * Value)) w : exec WindowContext :=
  update_config config (let w := remove_ipc_messages w in w_set_overrides (wc_window_config w ++ options) w).
End processor.

End Dispatch.
