(* ===== verification/Monitor.v ===== *)
(** * Watching configuration files (alacritty/src/config/monitor.rs)

    The monitor that sends an event to reload the configuration when one of its files
    changes: which files it watches, how it collects changes before it acts, and when it
    is restarted.  The file system, the watcher of the crate notify and the hash function
    are parameters. *)

From S2P Require Import Prelude.
From stdpp Require Import sorting.
#[local] Open Scope Z_scope.

Module Monitor.

Section monitor.
Context {Path : Type} `{EqDecision Path} (path_le : relation Path) `{∀ p q, Decision (path_le p q)}.
Context (hash : list (option Path) → Z).

(** ** Which files *)

Definition MAX_PATHS : nat := 1024.

(** The order of [Option<&PathBuf>]. *)
Definition entry_le (a b : option Path) : Prop :=
  match a, b with None, _ => True | Some p, Some q => path_le p q | Some _, None => False end.
#[global] Instance entry_le_dec a b : Decision (entry_le a b).
Proof. destruct a, b; apply _. Defined.

Definition hash_paths (files : list Path) : option Z :=
  if bool_decide (MAX_PATHS < length files)%nat then None
  else Some (hash (merge_sort entry_le ((Some <$> files) ++ replicate (MAX_PATHS - length files) None))).

(** [watched_hash] is that of the list the monitor was started with. *)
Definition needs_restart (watched_hash : option Z) (files : list Path) : bool :=
  match hash_paths files with None => true | Some h => bool_decide (Some h = watched_hash) end.

(** The answers of the file system: whether a path is a regular file behind links, its
    canonical path, and whether it is a link itself. *)
Context (is_file : Path → bool) (canonicalize : Path → option Path) (is_symlink : Path → bool).

(** The loop over the indices that [paths] has at its start. *)
Fixpoint canonicalize_from (i count : nat) (paths : list Path) : list Path :=
  match count with
  | O => paths
  | S count =>
      canonicalize_from (S i) count
        (match paths !! i with
         | Some p =>
             match canonicalize p with
             | Some q => if is_symlink p then paths ++ [q] else <[i := q]> paths
             | None => paths
             end
         | None => paths
         end)
  end.

(** The hash and the watched paths of [ConfigMonitor::new]; [started] is whether the
    watcher could be created. *)
Definition monitor_new (started : bool) (paths : list Path) : option (option Z * list Path) :=
  if bool_decide (length paths = 0%nat) then None
  else
    let watched_hash := hash_paths paths in
    let paths := filter (λ p, is_file p = true) paths in
    let paths := canonicalize_from 0 (length paths) paths in
    if started then Some (watched_hash, paths) else None.

(** ** The thread *)

(** The kinds of events that the code tells apart: the request to shut down, moves of a
    file to somewhere else, changes, and the rest. *)
Inductive EventKind := KindShutdown | KindMovedAway | KindChange | KindIgnored.
Inductive Notice := NoticeEvent (kind : EventKind) (touched : list Path) | NoticeTimeout | NoticeError | NoticeDropped.

(** Whether a deadline is set, the events of the current period, and the paths of the
    reload events that were sent. *)
Record Watch := mkWatch { debouncing : bool; received : list (list Path); reloads : list Path }.
Definition watch_start : Watch := mkWatch false [] [].

(** One iteration; [false] ends the loop.  Without a deadline [recv] is called, which does
    not time out. *)
Definition watch_step (paths : list Path) (notice : Notice) (w : Watch) : exec (Watch * bool) :=
  match notice with
  | NoticeEvent kind touched =>
      let w := mkWatch true (received w) (reloads w) in
      match kind with
      | KindShutdown => mret (w, false)
      | KindMovedAway | KindIgnored => mret (w, true)
      | KindChange => mret (mkWatch true (received w ++ [touched]) (reloads w), true)
      end
  | NoticeTimeout =>
      if negb (debouncing w) then mret (w, true)
      else if existsb (λ p, bool_decide (p ∈ paths)) (concat (received w)) then
        primary ← vec_get paths 0;
        mret (mkWatch false [] (reloads w ++ [primary]), true)
      else mret (mkWatch false [] (reloads w), true)
  | NoticeError => mret (mkWatch true (received w) (reloads w), true)
  | NoticeDropped => mret (mkWatch true (received w) (reloads w), false)
  end.

Fixpoint watch (paths : list Path) (notices : list Notice) (w : Watch) : exec Watch :=
  match notices with
  | [] => mret w
  | notice :: notices =>
      '(w, go) ← watch_step paths notice w;
      if go : bool then watch paths notices w else mret w
  end.

(** ** Facts *)

(** The hash does not depend on the order of the files. *)
Lemma hash_paths_perm files files' :
  (∀ p q, path_le p q → path_le q p → p = q) → (∀ p q r, path_le p q → path_le q r → path_le p r) →
  (∀ p q, path_le p q ∨ path_le q p) →
  files ≡ₚ files' → hash_paths files = hash_paths files'.
Proof.
  intros Hanti Htrans Htotal Hp. unfold hash_paths. rewrite (Permutation_length Hp). case_bool_decide; [done|].
  assert (HT : Transitive entry_le).
  { intros [p|] [q|] [r|]; simpl; try done. apply Htrans. }
  assert (HA : AntiSymm (=) entry_le).
  { intros [p|] [q|] H1 H2; try done. simpl in *. f_equal. by apply Hanti. }
  assert (HO : Total entry_le).
  { intros [p|] [q|]; simpl; auto. }
  do 2 f_equal. apply (StronglySorted_unique entry_le).
  - apply Sorted_StronglySorted; [done|]. apply Sorted_merge_sort. done.
  - apply Sorted_StronglySorted; [done|]. apply Sorted_merge_sort. done.
  - rewrite !merge_sort_Permutation. by rewrite Hp.
Qed.

(** The changes among notices. *)
Definition changes (notices : list Notice) : list Path :=
  notices ≫= λ m, match m with NoticeEvent KindChange touched => touched | _ => [] end.
(** Notices of a period: nothing that ends the loop or the period. *)
Definition within (m : Notice) : bool :=
  match m with NoticeEvent KindShutdown _ | NoticeTimeout | NoticeDropped => false | _ => true end.

Lemma watch_within paths notices w rest :
  Forall (λ m, within m = true) notices →
  watch paths (notices ++ rest) w
  = watch paths rest (mkWatch (debouncing w || negb (bool_decide (length notices = 0%nat)))
      (received w ++ (notices ≫= λ m, match m with NoticeEvent KindChange touched => [touched] | _ => [] end)) (reloads w)).
Proof.
  intros Hn. revert w. induction Hn as [|m notices Hm _ IH]; intros w.
  - simpl. rewrite orb_false_r, app_nil_r. by destruct w.
  - destruct m as [[] touched| | |]; try done; simpl; rewrite IH; simpl; by rewrite ?orb_true_r, <-?app_assoc.
Qed.

Lemma changes_concat notices :
  concat (notices ≫= λ m, match m with NoticeEvent KindChange touched => [touched] | _ => [] end) = changes notices.
Proof.
  induction notices as [|m notices IH]; [done|]. unfold changes in *.
  destruct m as [[] touched| | |]; simpl; first [exact IH|f_equal; exact IH].
Qed.

(** A change of the configuration is reloaded once.  However many events the watcher
    reports before the debouncing delay has passed, the primary file is reloaded exactly
    once if one of the changes is to a watched file, and not at all otherwise, moves of a
    file away included; the next period starts from nothing. *)
Lemma changes_reload_once paths notices w :
  Forall (λ m, within m = true) notices → notices ≠ [] → received w = [] →
  ∃ w', watch paths (notices ++ [NoticeTimeout]) w = Ok w' ∧ received w' = [] ∧ debouncing w' = false ∧
    ((∃ p, p ∈ changes notices ∧ p ∈ paths) → reloads w' = reloads w ++ take 1 paths) ∧
    (Forall (λ p, p ∉ paths) (changes notices) → reloads w' = reloads w).
Proof.
  intros Hn Hne Hr. rewrite watch_within by done. rewrite Hr. cbn [app].
  assert (Hl : bool_decide (length notices = 0%nat) = false).
  { apply bool_decide_eq_false. by destruct notices. }
  rewrite Hl, orb_true_r. cbn [watch watch_step debouncing negb received reloads]. rewrite changes_concat.
  destruct (existsb _ (changes notices)) eqn:Ee.
  - apply existsb_exists in Ee as (p & Hp%list_elem_of_In & Hin%bool_decide_eq_true).
    destruct paths as [|primary paths]; [by apply elem_of_nil in Hin|]. cbn. eexists. split_and!; [done..|].
    intros Hf. exfalso. rewrite Forall_forall in Hf. by apply (Hf p).
  - cbn. eexists. split_and!; [done..| |done]. intros (p & Hp & Hin). exfalso.
    assert (existsb (λ p, bool_decide (p ∈ paths)) (changes notices) = true) as Et; [|congruence].
    apply existsb_exists. exists p. split; [by apply list_elem_of_In|by apply bool_decide_eq_true].
Qed.
End monitor.

(** ** Examples *)

(** A monitor is restarted when its files are the same, and kept when they differ. *)
Definition demo_hash (l : list (option Z)) : Z := foldr (λ o n, n * 7 + default 0 o) 0 l mod 1000003.
Example restart_inverted :
  needs_restart Z.le demo_hash (hash_paths Z.le demo_hash [1; 2]) [2; 1] = true ∧
  needs_restart Z.le demo_hash (hash_paths Z.le demo_hash [1; 2]) [1; 2; 3] = false.
Proof. split; vm_compute; reflexivity. Qed.
End Monitor.
