(* ===== verification/AppEvents.v ===== *)
(** * Events of the application (alacritty/src/event.rs and alacritty/src/window_context.rs)

    [Processor], which owns the windows, the scheduler and the clipboard, and passes the
    events of winit to the windows they are for.  The scheduler and the clipboard are lent
    to a window while it handles an event.

    The order of a hash map is the parameter [hash_order].  Opening a window (its surface,
    renderer and pseudo terminal) and reading the configuration are parameters; so are the
    brightness of the bell and the text of the render timer when a frame is drawn. *)

From S2P Require Import Prelude Decimal Index Ansi GridCell Row Storage Cell Grid Selection Term.
From S2P Require Import Handler Search RegexSearch ViMode HintLabels Hints Scheduler EventLoop FrameDamage Shortener.
From S2P Require Import MessageBar Keyboard ActionContext DisplaySize DisplayState Bindings InputProcessor PointerInput.
From S2P Require Import ConfigFiles ColorList Overrides Content RenderLines Draw Dispatch Monitor.
From stdpp Require Import gmap.
From Stdlib Require Import QArith.
#[local] Open Scope Z_scope.

Module AppEvents.
Import Keyboard Scheduler FrameDamage ActionContext DisplaySize DisplayState Bindings InputProcessor PointerInput.
Import Content Draw Dispatch.

Section app.
Context `{Ansi} `{Outside}.

(** The events that are not for one window. *)
Inductive AppEvent :=
  | IpcConfig (options : list (list Z)) (reset : bool)
  | IpcGetConfig
  | ConfigReload (path : list Z)
  | CreateWindow (options : list (list Z))
  | WindowPayload (p : Payload).

(** [a_gl] is whether the graphics were set up, [a_exit] whether the event loop was told to
    exit, [a_closed] the windows that were dropped, [a_replies] the answers to requests
    for the configuration, [a_monitor] the hash of the watched files. *)
Record Processor := mkProcessor {
  a_windows : gmap Z WindowContext;
  a_scheduler : @Scheduler TimerEvent Z;
  a_clipboard : list (ClipboardType * text);
  a_config : AppConfig;
  a_global_options : list (list Z * Value);
  a_gl : bool;
  a_daemon : bool;
  a_initial_error : bool;
  a_exit : bool;
  a_closed : list (Z * WindowContext);
  a_replies : list AppConfig;
  a_monitor : option (option Z) }.
Implicit Types (p : Processor) (w : WindowContext).

Definition set_windows (ws : gmap Z WindowContext) p : Processor :=
  mkProcessor ws (a_scheduler p) (a_clipboard p) (a_config p) (a_global_options p) (a_gl p) (a_daemon p)
    (a_initial_error p) (a_exit p) (a_closed p) (a_replies p) (a_monitor p).
Definition set_scheduler (s : @Scheduler TimerEvent Z) p : Processor :=
  mkProcessor (a_windows p) s (a_clipboard p) (a_config p) (a_global_options p) (a_gl p) (a_daemon p)
    (a_initial_error p) (a_exit p) (a_closed p) (a_replies p) (a_monitor p).
Definition set_global_options (os : list (list Z * Value)) p : Processor :=
  mkProcessor (a_windows p) (a_scheduler p) (a_clipboard p) (a_config p) os (a_gl p) (a_daemon p)
    (a_initial_error p) (a_exit p) (a_closed p) (a_replies p) (a_monitor p).
Definition set_config (cfg : AppConfig) (monitor : option (option Z)) p : Processor :=
  mkProcessor (a_windows p) (a_scheduler p) (a_clipboard p) cfg (a_global_options p) (a_gl p) (a_daemon p)
    (a_initial_error p) (a_exit p) (a_closed p) (a_replies p) monitor.
Definition add_reply (cfg : AppConfig) p : Processor :=
  mkProcessor (a_windows p) (a_scheduler p) (a_clipboard p) (a_config p) (a_global_options p) (a_gl p) (a_daemon p)
    (a_initial_error p) (a_exit p) (a_closed p) (a_replies p ++ [cfg]) (a_monitor p).
Definition fail_initial p : Processor :=
  mkProcessor (a_windows p) (a_scheduler p) (a_clipboard p) (a_config p) (a_global_options p) (a_gl p) (a_daemon p)
    true true (a_closed p) (a_replies p) (a_monitor p).
Definition set_gl p : Processor :=
  mkProcessor (a_windows p) (a_scheduler p) (a_clipboard p) (a_config p) (a_global_options p) true (a_daemon p)
    (a_initial_error p) (a_exit p) (a_closed p) (a_replies p) (a_monitor p).
Definition exit_loop p : Processor :=
  mkProcessor (a_windows p) (a_scheduler p) (a_clipboard p) (a_config p) (a_global_options p) (a_gl p) (a_daemon p)
    (a_initial_error p) true (a_closed p) (a_replies p) (a_monitor p).
Definition add_closed (id : Z) w p : Processor :=
  mkProcessor (a_windows p) (a_scheduler p) (a_clipboard p) (a_config p) (a_global_options p) (a_gl p) (a_daemon p)
    (a_initial_error p) (a_exit p) (a_closed p ++ [(id, w)]) (a_replies p) (a_monitor p).

(** *** Windows *)

(** What a window borrows, and the clock. *)
Definition lend (now : Z) p w : WindowContext :=
  upd_ctx (λ x,
    mkCtx (x_term x) (x_dirty x) (x_mouse x) (x_search x) (x_inline x) (a_clipboard p) (x_channel x) (a_scheduler p)
      (x_tracker x) (x_pending_update x) (x_vi_ime_inhibited x) (x_cursor_hidden x) (x_blink_timed_out x)
      (x_mouse_visible x) (x_preedit x) now) w.
Definition give_back (id : Z) w p : Processor :=
  mkProcessor (<[id := w]> (a_windows p)) (x_scheduler (w_ctx w)) (x_clipboard (w_ctx w)) (a_config p)
    (a_global_options p) (a_gl p) (a_daemon p) (a_initial_error p) (a_exit p) (a_closed p) (a_replies p) (a_monitor p).

(** [self.windows.get_mut(id)] with an operation on the window. *)
Definition on_window (now id : Z) (f : WindowContext → exec WindowContext) p : exec Processor :=
  match a_windows p !! id with
  | Some w => w ← f (lend now p w); mret (give_back id w p)
  | None => mret p
  end.

Fixpoint on_each (now : Z) (ids : list Z) (f : Z → WindowContext → exec WindowContext) p : exec Processor :=
  match ids with [] => mret p | id :: ids => p ← on_window now id (f id) p; on_each now ids f p end.

(** [Drop for WindowContext]. *)
Definition drop_window w : WindowContext := upd_ctx (λ x, upd_channel (x_channel x ++ [EventLoop.Shutdown]) x) w.

Section operations.
Context (compile : text → option RegexSearch) (fuel n : nat) (load : ClipboardType → text).
Context (str_to_lowercase : text → text) (to_lowercase : char → char) (to_text : NamedKey → option text).
Context (hypot : Z → Z → Z) (width : Z → option Z) (font_cells : Font → Z * Z).
Context (hint_eqb : HintMatch → HintMatch → bool).
Context (replace : Value → AppConfig → AppConfig * bool) (from_toml : list Z → option Value).
Context (hash_order : gmap Z WindowContext → list Z).
(** [WindowContext::initial] and [WindowContext::additional], and [config::reload]. *)
Context (open_window : AppConfig → list (list Z) → list (list Z * Value) → option (Z * WindowContext)).
Context (reload : list Z → option AppConfig).
(** The files of a configuration, and the monitor's order and hash of them; [monitoring]
    is whether a watcher can be created. *)
Context (config_paths : AppConfig → list (list Z)) (path_le : relation (list Z)).
Context `{!∀ a b, Decision (path_le a b)} (hash : list (option (list Z)) → Z) (monitoring : bool).
(** The colours and the opacity a frame is drawn with, the brightness of the bell, the
    render timer, and the monitor. *)
Context (look : AppConfig → ColorList.Colors * Q) (bright : VisualBell → Z → bool) (timing : option (list char)).
Context (dim_color : Rgb → Rgb) (to_bright to_dim : NamedColor → NamedColor) (low_contrast : Rgb → Rgb → bool).
Context (wayland : bool) (vblank : Z).

#[local] Abbreviation handle_event id :=
  (Dispatch.handle_event id compile fuel n load str_to_lowercase to_lowercase to_text hypot width font_cells hint_eqb).

(** *** Drawing *)

(** [WindowContext::draw]. *)
Definition window_draw (id : Z) w : exec WindowContext :=
  let w := w_set_requested false w in
  if wc_occluded w then mret w
  else
    let w := upd_ctx (upd_dirty false) w in
    '(d, _, _) ← process_renderer_update (display_of w);
    let w := set_display d w in
    let now := x_now (w_ctx w) in
    let '(bell, completed) := bell_completed now (wc_bell w) in
    let w := w_set_bell bell w in
    let w := if completed then w
             else if r_has_frame (wc_rest w) then request_redraw w else upd_ctx mark_dirty w in
    let x := w_ctx w in
    let cfg := wc_config w in
    '(d, t, hints, s, _) ←
      draw dim_color to_bright to_dim low_contrast
        (mkDrawConfig (fst (look cfg)) (snd (look cfg)) (c_unfocused_hollow cfg) (wc_colors w) (columns (r_size (wc_rest w))))
        fuel n width (bright (wc_bell w) now) wayland (x_cursor_hidden x) timing (wc_ime w)
        (mkTimerEvent id FrameEvent) id now vblank (i_messages (w_input w)) (i_hints (w_input w)) (x_search x)
        (display_of w) (x_term x) (x_scheduler x);
    let w := set_display d w in
    let w := set_input (with_hints hints (w_input w)) w in
    mret (upd_ctx (λ x, upd_term t (upd_scheduler s x)) w).

(** *** Events of windows *)

Definition skip_window_event (e : WindowEvent) : bool :=
  match e with KeyboardInput _ _ true | OtherWindowEvent => true | _ => false end.

Definition app_window_event (now id : Z) (e : WindowEvent) p : exec Processor :=
  if skip_window_event e then mret p
  else
    on_window now id (λ w,
      w ← handle_event id (FromWindow e) w;
      match e with RedrawRequested => window_draw id w | _ => mret w end) p.

(** *** New windows *)

Definition create_initial_window (options : list (list Z)) p : option Processor :=
  match open_window (a_config p) options [] with
  | Some (id, w) => let p := set_gl p in Some (set_windows (<[id := w]> (a_windows p)) p)
  | None => None
  end.

Definition create_window (options : list (list Z)) p : exec Processor :=
  let overrides := Overrides.from_options from_toml options ++ a_global_options p in
  '(cfg, overrides, _) ← Overrides.override_config_rc replace overrides (a_config p);
  mret (match open_window cfg options overrides with
        | Some (id, w) => set_windows (<[id := w]> (a_windows p)) p
        | None => p
        end).

(** *** Configuration *)

Definition LOG_TARGET_CONFIG : list Z := chars "alacritty_config_derive".

Definition remove_config_messages w : WindowContext :=
  let messages := i_messages (w_input w) in
  if MessageBar.is_empty messages then w
  else upd_ctx pending_dirty (set_input (with_messages (MessageBar.remove_target LOG_TARGET_CONFIG messages) (w_input w)) w).

(** The monitor for the files of a new configuration. *)
Definition restart_monitor (cfg : AppConfig) (monitor : option (option Z)) : option (option Z) :=
  match monitor with
  | Some watched =>
      if Monitor.needs_restart path_le hash watched (config_paths cfg)
      then (if bool_decide (length (config_paths cfg) = 0%nat) || negb monitoring then None
            else Some (Monitor.hash_paths path_le hash (config_paths cfg)))
      else Some watched
  | None => None
  end.

Definition reload_config (now : Z) (path : list Z) p : exec Processor :=
  p ← on_each now (hash_order (a_windows p)) (λ _ w, mret (remove_config_messages w)) p;
  match reload path with
  | Some cfg =>
      let p := set_config cfg (restart_monitor cfg (a_monitor p)) p in
      on_each now (hash_order (a_windows p)) (λ _, update_config replace cfg) p
  | None => mret p
  end.

Definition ipc_config (now : Z) (options : list (list Z)) (reset : bool) (window_id : option Z) p : exec Processor :=
  let parsed := Overrides.from_options from_toml options in
  let ids := filter (λ id, match window_id with None => true | Some i => i =? id end = true) (hash_order (a_windows p)) in
  p ← on_each now ids (λ _, if reset then reset_window_config replace (a_config p)
                           else add_window_config replace (a_config p) parsed) p;
  mret (match window_id with
        | None => set_global_options (if reset then [] else a_global_options p ++ parsed) p
        | Some _ => p
        end).

(** The configuration that is sent as an answer; the overrides of the application are
    those that can be applied. *)
Definition ipc_get_config (window_id : option Z) p : exec Processor :=
  match window_id ≫= λ id, a_windows p !! id with
  | Some w => mret (add_reply (wc_config w) p)
  | None =>
      '(cfg, os, _) ← Overrides.override_config_rc replace (a_global_options p) (a_config p);
      mret (add_reply cfg (set_global_options os p))
  end.

(** *** Events of the application *)

Definition wakeup w : WindowContext :=
  let w := upd_ctx mark_dirty w in if r_has_frame (wc_rest w) then request_redraw w else w.

Definition has_frame_event w : WindowContext :=
  let w := set_display (set_has_frame true (display_of w)) w in
  if x_dirty (w_ctx w) then request_redraw w else w.

Definition terminal_exit (id : Z) p : Processor :=
  match a_windows p !! id with
  | Some w =>
      if wc_hold w then p
      else
        let p := set_windows (delete id (a_windows p)) p in
        let p := set_scheduler (unschedule_window id (a_scheduler p)) p in
        let p := if bool_decide (a_windows p = ∅) && negb (a_daemon p) then exit_loop p else p in
        add_closed id (drop_window w) p
  | None => p
  end.

Definition app_user_event (now : Z) (e : AppEvent) (window_id : option Z) p : exec Processor :=
  match e, window_id with
  | IpcConfig options reset, _ => ipc_config now options reset window_id p
  | IpcGetConfig, _ => ipc_get_config window_id p
  | ConfigReload path, _ => reload_config now path p
  | CreateWindow options, _ =>
      if a_gl p then create_window options p
      else mret (match create_initial_window options p with Some p => p | None => fail_initial p end)
  | WindowPayload payload, None =>
      on_each now (hash_order (a_windows p)) (λ id, handle_event id (UserEvent payload)) p
  | WindowPayload (TerminalPayload Wakeup), Some id => on_window now id (λ w, mret (wakeup w)) p
  | WindowPayload (TerminalPayload Exit), Some id => mret (terminal_exit id p)
  | WindowPayload (TimerPayload FrameEvent), Some id => on_window now id (λ w, mret (has_frame_event w)) p
  | WindowPayload payload, Some id => on_window now id (handle_event id (UserEvent payload)) p
  end.

(** [about_to_wait]: the deadline until which to wait. *)
Definition about_to_wait (now : Z) (clock : nat → Z) p : exec (Processor * option Z) :=
  p ← on_each now (hash_order (a_windows p)) (λ id, handle_event id AboutToWait) p;
  '(s, deadline) ← Scheduler.update (S (length (timers (a_scheduler p)))) now clock (a_scheduler p);
  mret (set_scheduler s p, deadline).

(** [new_events] with the cause [Init]. *)
Definition init_events (options : option (list (list Z))) p : Processor :=
  if a_daemon p then p
  else match options with
       | Some options => match create_initial_window options p with Some p => p | None => fail_initial p end
       | None => p
       end.
End operations.
End app.
End AppEvents.
