(* ===== verification/Manager.v ===== *)
(** * The connection manager (manager-tauri/src-tauri/src/lib.rs)

    The commands that the front end calls: server profiles and their store, the
    command lines that open a connection, terminal sessions and files.  A command
    returns the new state and [Ok] or [Err] with a message.  What the operating
    system answers is an argument; the encoding of profiles is the one of the
    serde_json crate, a parameter with its round trip as the hypothesis. *)

From S2P Require Import Prelude Decimal MessageBar.
From stdpp Require Import gmap sorting.
#[local] Open Scope Z_scope.

Module Manager.
Notation char := Z (only parsing).
Notation str := (list Z) (only parsing).

Definition chars (s : string) : str := (λ c, Z.of_N (Ascii.N_of_ascii c)) <$> String.list_ascii_of_string s.

(** [Result<A, String>]. *)
Inductive result (A : Type) := Done (a : A) | Err (message : str).
Arguments Done {A} a.
Arguments Err {A} message.

Record ServerProfile := mkProfile {
  id : str; name : str; host : str; user : option str; port : option Z; password : option str;
  tags : list str; favorite : bool; last_used_at : option Z }.

#[global] Instance ServerProfile_eq_dec : EqDecision ServerProfile.
Proof. solve_decision. Defined.

(** A program with its arguments and environment. *)
Record Command := mkCommand { program : str; args : list str; env : list (str * str) }.

(** A pseudo terminal: what was written to it and its size. *)
Record PtySession := mkSession { written : str; rows : Z; cols : Z }.

(** [AppState], with the file that [data_path] names and the programs that were
    started; a mutex is poisoned if its owner panicked. *)
Record AppState := mkState {
  profiles : list ServerProfile;
  data_path : option str;
  pty_sessions : gmap (list Z) PtySession;
  profiles_poisoned : bool; path_poisoned : bool; pty_poisoned : bool;
  store : option str;
  spawned : list Command }.
Implicit Types (st : AppState) (p : ServerProfile) (ps : list ServerProfile).

Definition with_profiles ps st : AppState :=
  mkState ps (data_path st) (pty_sessions st) (profiles_poisoned st) (path_poisoned st)
    (pty_poisoned st) (store st) (spawned st).
Definition with_store (s : option str) st : AppState :=
  mkState (profiles st) (data_path st) (pty_sessions st) (profiles_poisoned st) (path_poisoned st)
    (pty_poisoned st) s (spawned st).
Definition with_spawned (c : Command) st : AppState :=
  mkState (profiles st) (data_path st) (pty_sessions st) (profiles_poisoned st) (path_poisoned st)
    (pty_poisoned st) (store st) (spawned st ++ [c]).
Definition with_sessions (m : gmap (list Z) PtySession) st : AppState :=
  mkState (profiles st) (data_path st) m (profiles_poisoned st) (path_poisoned st)
    (pty_poisoned st) (store st) (spawned st).

Definition app_default : AppState := mkState [] None ∅ false false false None [].

(** What the operating system does in one command: [None] is success, [Some e] an
    error. *)
Record Os := mkOs {
  create_dir_all : option str;
  write_file : option str;
  spawn : option str;
  openpty : option str;
  pty_spawn : option str;
  clone_reader : option str;
  take_writer : option str }.

Section manager.
(** [serde_json::to_vec_pretty] and [serde_json::from_str]. *)
Context (to_vec_pretty : list ServerProfile → str + str) (from_str : str → option (list ServerProfile)).

Definition poisoned : str := chars "profile state poisoned".
Definition not_found : str := chars "Profile not found".

Definition persist_profiles (os : Os) st : AppState * result () :=
  if path_poisoned st then (st, Err (chars "path state poisoned"))
  else
    match data_path st with
    | None => (st, Err (chars "App data path unavailable"))
    | Some _ =>
        match create_dir_all os with
        | Some e => (st, Err (chars "Failed to create data dir: " ++ e))
        | None =>
            match to_vec_pretty (profiles st) with
            | inr e => (st, Err (chars "Failed to encode profile store: " ++ e))
            | inl data =>
                match write_file os with
                | Some e => (st, Err (chars "Failed to write profile store: " ++ e))
                | None => (with_store (Some data) st, Done ())
                end
            end
        end
    end.

Definition list_profiles st : result (list ServerProfile) :=
  if profiles_poisoned st then Err poisoned else Done (profiles st).

(** [profiles.iter_mut().find(..)] with the first profile of the name replaced. *)
Fixpoint update_first (i : str) (f : ServerProfile → ServerProfile) ps : option (list ServerProfile) :=
  match ps with
  | [] => None
  | p :: ps => if bool_decide (id p = i) then Some (f p :: ps) else cons p <$> update_first i f ps
  end.
Definition find_profile (i : str) ps : option ServerProfile := head (filter (λ p, id p = i) ps).

Definition upsert_profile (os : Os) p st : AppState * result () :=
  if profiles_poisoned st then (st, Err poisoned)
  else
    let ps := match update_first (id p) (λ _, p) (profiles st) with
              | Some ps => ps
              | None => profiles st ++ [p]
              end in
    persist_profiles os (with_profiles ps st).

(** [split(',')]. *)
Fixpoint split_commas (current : str) (s : str) : list str :=
  match s with
  | [] => [current]
  | c :: s => if c =? 44 then current :: split_commas [] s else split_commas (current ++ [c]) s
  end.

Definition non_empty (o : option str) : option str :=
  match o with Some [] => None | o => o end.

Definition add_profile_from_csv (os : Os) (uuid : str) (csv_line : str) st : AppState * result () :=
  match MessageBar.trim <$> split_commas [] csv_line with
  | name :: host :: fields =>
      let p := mkProfile uuid name host (non_empty (fields !! 0%nat)) (Some 22)
                 (non_empty (fields !! 1%nat)) [] false None in
      if profiles_poisoned st then (st, Err poisoned)
      else persist_profiles os (with_profiles (p :: profiles st) st)
  | _ => (st, Err (chars "Expected format: name,host,user,password(optional)"))
  end.

(** ** Connections *)

Definition target_of p : str :=
  match user p with Some u => u ++ [64] ++ host p | None => host p end.

(** [input.replace('"', "\\\"").replace('\'', "'\\''")]. *)
Definition replace_char (c : char) (by_ : str) (s : str) : str :=
  s ≫= λ x, if x =? c then by_ else [x].
Definition escape_shell (input : str) : str :=
  replace_char 39 [39; 92; 39; 39] (replace_char 34 [92; 34] input).

(** A [u16] in decimal. *)
Definition port_string p : str := decimal (default 22 (port p)).

(** The script for [sh -lc]. *)
Definition connect_script (pw : str) p : str :=
  chars "sshpass -p '" ++ escape_shell pw ++ chars "' ssh -p " ++ port_string p ++ [32] ++ target_of p.

Definition connect_command p : Command :=
  match password p with
  | Some pw => mkCommand (chars "alacritty") [chars "-e"; chars "sh"; chars "-lc"; connect_script pw p] []
  | None => mkCommand (chars "alacritty") [chars "-e"; chars "ssh"; chars "-p"; port_string p; target_of p] []
  end.

Definition touch (now : Z) p : ServerProfile :=
  mkProfile (id p) (name p) (host p) (user p) (port p) (password p) (tags p) (favorite p) (Some now).

Definition connect_profile (os : Os) (now : Z) (i : str) st : AppState * result () :=
  if profiles_poisoned st then (st, Err poisoned)
  else
    match update_first i (touch now) (profiles st), find_profile i (profiles st) with
    | Some ps, Some p =>
        let st := with_profiles ps st in
        match spawn os with
        | Some e => (st, Err (chars "Failed to launch connection: " ++ e))
        | None => persist_profiles os (with_spawned (connect_command (touch now p)) st)
        end
    | _, _ => (st, Err not_found)
    end.

Definition open_local_terminal (os : Os) st : AppState * result () :=
  match spawn os with
  | Some e => (st, Err (chars "Failed to launch local terminal: " ++ e))
  | None => (with_spawned (mkCommand (chars "alacritty") [] []) st, Done ())
  end.

Definition open_vscode (os : Os) (profile_id : option str) st : AppState * result () :=
  let launch c :=
    match spawn os with
    | Some e => (st, Err (chars "Failed to launch VS Code: " ++ e))
    | None => (with_spawned c st, Done ())
    end in
  match profile_id with
  | Some i =>
      if profiles_poisoned st then (st, Err poisoned)
      else
        match find_profile i (profiles st) with
        | Some p => launch (mkCommand (chars "code")
                      [chars "--remote"; chars "ssh-remote+" ++ target_of p; chars "/"] [])
        | None => (st, Err not_found)
        end
  | None => launch (mkCommand (chars "code") [] [])
  end.

(** ** Terminal sessions *)

Definition TERM : str * str := (chars "TERM", chars "xterm-256color").

Definition pty_command p : Command :=
  let ssh := [chars "-o"; chars "StrictHostKeyChecking=no"; chars "-p"; port_string p; target_of p] in
  match password p with
  | Some pw => mkCommand (chars "sshpass") ([chars "-p"; pw; chars "ssh"] ++ ssh) [TERM]
  | None => mkCommand (chars "ssh") ssh [TERM]
  end.

(** The rest of [spawn_pty], once the command is known.  [default_prog] is the
    shell of the user. *)
Definition open_session (os : Os) (session_id : str) (c : Command) st : AppState * result () :=
  match openpty os with
  | Some e => (st, Err (chars "Failed to open PTY: " ++ e))
  | None =>
      match pty_spawn os with
      | Some e => (st, Err (chars "Failed to spawn command: " ++ e))
      | None =>
          let st := with_spawned c st in
          match clone_reader os with
          | Some e => (st, Err (chars "Failed to clone PTY reader: " ++ e))
          | None =>
              match take_writer os with
              | Some e => (st, Err (chars "Failed to get PTY writer: " ++ e))
              | None =>
                  if pty_poisoned st then (st, Err (chars "pty state poisoned"))
                  else (with_sessions (<[session_id := mkSession [] 24 80]> (pty_sessions st)) st, Done ())
              end
          end
      end
  end.

Definition spawn_pty (os : Os) (now : Z) (default_prog session_id : str) (profile_id : option str) st
    : AppState * result () :=
  match profile_id with
  | Some i =>
      if profiles_poisoned st then (st, Err poisoned)
      else
        match update_first i (touch now) (profiles st), find_profile i (profiles st) with
        | Some ps, Some p =>
            let st := fst (persist_profiles os (with_profiles ps st)) in
            open_session os session_id (pty_command (touch now p)) st
        | _, _ => (st, Err not_found)
        end
  | None => open_session os session_id (mkCommand default_prog [] [TERM]) st
  end.

(** [write_error] and [flush_error] are the answers of the writer. *)
Definition write_pty (write_error flush_error : option str) (session_id data : str) st
    : AppState * result () :=
  if pty_poisoned st then (st, Err (chars "pty state poisoned"))
  else
    match pty_sessions st !! session_id with
    | None => (st, Err (chars "Session not found"))
    | Some s =>
        match write_error with
        | Some e => (st, Err (chars "Write failed: " ++ e))
        | None =>
            let s := mkSession (written s ++ data) (rows s) (cols s) in
            let st := with_sessions (<[session_id := s]> (pty_sessions st)) st in
            match flush_error with
            | Some e => (st, Err (chars "Flush failed: " ++ e))
            | None => (st, Done ())
            end
        end
    end.

Definition resize_pty (resize_error : option str) (session_id : str) (rows cols : Z) st
    : AppState * result () :=
  if pty_poisoned st then (st, Err (chars "pty state poisoned"))
  else
    match pty_sessions st !! session_id with
    | None => (st, Err (chars "Session not found"))
    | Some s =>
        match resize_error with
        | Some e => (st, Err (chars "Resize failed: " ++ e))
        | None => (with_sessions (<[session_id := mkSession (written s) rows cols]> (pty_sessions st)) st,
                   Done ())
        end
    end.

Definition close_pty (session_id : str) st : AppState * result () :=
  if pty_poisoned st then (st, Err (chars "pty state poisoned"))
  else (with_sessions (delete session_id (pty_sessions st)) st, Done ()).

(** The reader thread: what the reads return, and the events that are sent. *)
Inductive read_result := ReadBytes (b : str) | ReadError.
Inductive pty_event := PtyOutput (encoded : str) | PtyExit.
Fixpoint reader_thread (encode : str → str) (reads : list read_result) : list pty_event :=
  match reads with
  | [] => []
  | ReadBytes [] :: _ | ReadError :: _ => [PtyExit]
  | ReadBytes b :: reads => PtyOutput (encode b) :: reader_thread encode reads
  end.

(** ** Start *)

(** [fs::read_to_string] of the store; profiles that cannot be decoded are dropped. *)
Definition read_profiles (content : option str) : list ServerProfile :=
  match content with Some c => default [] (from_str c) | None => [] end.

(** The setup of [run]: the state after a start that finds the given store. *)
Definition setup (path : str) (content : option str) : AppState :=
  mkState (read_profiles content) (Some path) ∅ false false false content [].
End manager.

(** ** Files *)

Record DirEntry := mkEntry { entry_name : str; is_dir : bool }.

Section files.
(** [str::to_lowercase]. *)
Context (to_lowercase : str → str).

(** [str::cmp]: lexicographic on code points. *)
Fixpoint str_le (a b : str) : bool :=
  match a, b with
  | [], _ => true
  | _ :: _, [] => false
  | x :: a, y :: b => (x <? y) || ((x =? y) && str_le a b)
  end.

Definition entry_le (a b : DirEntry) : Prop :=
  str_le (to_lowercase (entry_name a)) (to_lowercase (entry_name b)) = true.

(** [sort_by], a stable sort. *)
Fixpoint insert_entry (e : DirEntry) (l : list DirEntry) : list DirEntry :=
  match l with
  | [] => [e]
  | e' :: l' =>
      if str_le (to_lowercase (entry_name e)) (to_lowercase (entry_name e')) then e :: l
      else e' :: insert_entry e l'
  end.
Definition sort_entries (l : list DirEntry) : list DirEntry := foldr insert_entry [] l.

(** What [read_dir] yields: an entry with its name and, if the type is known,
    whether it is a directory, or an error. *)
Inductive read_entry := EntryOk (name : str) (dir : option bool) | EntryError (e : str).

Fixpoint split_entries (entries : list read_entry) : result (list DirEntry * list DirEntry) :=
  match entries with
  | [] => Done ([], [])
  | EntryError e :: _ => Err (chars "Failed to read entry: " ++ e)
  | EntryOk name dir :: entries =>
      match split_entries entries with
      | Err e => Err e
      | Done (dirs, files) =>
          if default false dir then Done (mkEntry name true :: dirs, files)
          else Done (dirs, mkEntry name false :: files)
      end
  end.

Definition list_directory (entries : list read_entry + str) : result (list DirEntry) :=
  match entries with
  | inr e => Err (chars "Failed to read directory: " ++ e)
  | inl entries =>
      match split_entries entries with
      | Err e => Err e
      | Done (dirs, files) => Done (sort_entries dirs ++ sort_entries files)
      end
  end.

(** The operations on paths, over the functions of [std::fs] and [std::path]. *)
Context {FS : Type} (exists_ : str → FS → bool) (is_directory : str → FS → bool)
  (rename : str → str → FS → FS * option str) (remove_dir_all remove_file : str → FS → FS * option str)
  (create_new create_directory : str → FS → FS * option str)
  (file_name : str → option str) (join : str → str → str).
Implicit Types (fs : FS).

Definition answer (prefix : str) (r : FS * option str) : FS * result () :=
  match r with (fs, Some e) => (fs, Err (prefix ++ e)) | (fs, None) => (fs, Done ()) end.

Definition rename_entry (old_path new_path : str) fs : FS * result () :=
  if negb (exists_ old_path fs) then (fs, Err (chars "Source does not exist: " ++ old_path))
  else if exists_ new_path fs then (fs, Err (chars "Destination already exists: " ++ new_path))
  else answer (chars "Rename failed: ") (rename old_path new_path fs).

Definition delete_entry (path : str) fs : FS * result () :=
  if negb (exists_ path fs) then (fs, Err (chars "Path does not exist: " ++ path))
  else if is_directory path fs then answer (chars "Delete directory failed: ") (remove_dir_all path fs)
  else answer (chars "Delete file failed: ") (remove_file path fs).

Definition move_entry (src dest_dir : str) fs : FS * result () :=
  if negb (exists_ src fs) then (fs, Err (chars "Source does not exist: " ++ src))
  else
    match file_name src with
    | None => (fs, Err (chars "Cannot determine file name"))
    | Some n =>
        let dest_path := join dest_dir n in
        if exists_ dest_path fs then (fs, Err (chars "Destination already exists: " ++ dest_path))
        else answer (chars "Move failed: ") (rename src dest_path fs)
    end.

Definition create_file (path : str) fs : FS * result () :=
  answer (chars "Create file failed: ") (create_new path fs).
Definition create_dir (path : str) fs : FS * result () :=
  answer (chars "Create directory failed: ") (create_directory path fs).
End files.

(** ** The shell reads the script as intended *)

(** The commands that [sh] runs for a script, for scripts of words, quotes and
    semicolons; [None] for anything else.  [cur] is the word that is being read. *)
Definition plain (c : char) : bool :=
  ((48 <=? c) && (c <=? 57)) || ((65 <=? c) && (c <=? 90)) || ((97 <=? c) && (c <=? 122)) ||
  existsb (Z.eqb c) (chars "-._@:/+,%=").

Fixpoint sh_commands (quoted : bool) (cur : option str) (words : list str) (s : str)
    : option (list (list str)) :=
  let add x := Some (default [] cur ++ [x]) in
  match s with
  | [] => if quoted then None else Some [words ++ option_list cur]
  | c :: s =>
      if quoted then
        if c =? 39 then sh_commands false cur words s else sh_commands true (add c) words s
      else if c =? 39 then sh_commands true (Some (default [] cur)) words s
      else if c =? 92 then
        match s with x :: s => sh_commands false (add x) words s | [] => None end
      else if c =? 32 then sh_commands false None (words ++ option_list cur) s
      else if c =? 59 then cons (words ++ option_list cur) <$> sh_commands false None [] s
      else if plain c then sh_commands false (add c) words s
      else None
  end.
Definition sh (script : str) : option (list (list str)) := sh_commands false None [] script.

Lemma plain_other c : plain c = true → c ≠ 39 ∧ c ≠ 92 ∧ c ≠ 32 ∧ c ≠ 59.
Proof. intros Hp. split_and!; intros ->; vm_compute in Hp; discriminate. Qed.

Lemma sh_word w : ∀ cur words s, w ≠ [] → Forall (λ c, plain c = true) w →
  sh_commands false cur words (w ++ s) = sh_commands false (Some (default [] cur ++ w)) words s.
Proof.
  induction w as [|c w IH]; intros cur words s Hne Hw; [done|]. apply Forall_cons in Hw as [Hc Hw].
  destruct (plain_other c Hc) as (H1 & H2 & H3 & H4). cbn [app sh_commands].
  apply Z.eqb_neq in H1 as ->, H2 as ->, H3 as ->, H4 as ->. rewrite Hc.
  destruct w as [|c' w]; [done|]. rewrite IH by done. simpl. by rewrite <- (assoc_L app).
Qed.

(** A quoted password without double quotes. *)
Lemma sh_quoted pw : ∀ w words s, 34 ∉ pw →
  sh_commands true (Some w) words (escape_shell pw ++ 39 :: s) = sh_commands false (Some (w ++ pw)) words s.
Proof.
  unfold escape_shell, replace_char.
  induction pw as [|c pw IH]; intros w words s Hpw; [simpl; by rewrite app_nil_r|].
  apply not_elem_of_cons in Hpw as [Hc Hpw]. rewrite bind_cons.
  destruct (Z.eqb_spec c 34) as [->|_]; [done|]. cbn [app]. rewrite bind_cons, <- (assoc_L app).
  destruct (Z.eqb_spec c 39) as [->|Hc39].
  - simpl. rewrite IH by done. by rewrite <- (assoc_L app).
  - cbn [app sh_commands]. apply Z.eqb_neq in Hc39 as ->. cbn [default]. rewrite IH by done.
    by rewrite <- (assoc_L app).
Qed.

Lemma port_string_plain p : 0 ≤ default 22 (port p) → Forall (λ c, plain c = true) (port_string p).
Proof.
  intros Hp. eapply Forall_impl; [by apply decimal_all|]. intros c Hc. unfold plain, is_digit in *.
  by rewrite Hc.
Qed.

(** C39: connecting to a profile with a password runs exactly the intended command:
    for a host and user of plain characters and a password without double quotes the
    shell reads the script as one command of seven words, with the password as one
    word, whatever else it contains. *)
Theorem connect_script_words (pw : str) p :
  34 ∉ pw → Forall (λ c, plain c = true) (target_of p) → target_of p ≠ [] →
  (∀ n, port p = Some n → 0 ≤ n ≤ 65535) →
  sh (connect_script pw p)
    = Some [[chars "sshpass"; chars "-p"; pw; chars "ssh"; chars "-p"; port_string p; target_of p]].
Proof.
  intros Hpw Ht Hne Hport. unfold sh, connect_script.
  assert (Hp : 0 ≤ default 22 (port p) ≤ 65535) by (destruct (port p) as [n|]; simpl; [by apply Hport|lia]).
  assert (Hpne : port_string p ≠ []).
  { unfold port_string. destruct (decimal_cons (default 22 (port p))) as (c & s & -> & _); [unfold is_char; lia|done]. }
  set (rest := port_string p ++ [32] ++ target_of p).
  transitivity (sh_commands true (Some []) [chars "sshpass"; chars "-p"]
    (escape_shell pw ++ 39 :: chars " ssh -p " ++ rest)); [reflexivity|].
  rewrite sh_quoted by done.
  transitivity (sh_commands false None [chars "sshpass"; chars "-p"; pw; chars "ssh"; chars "-p"] rest);
    [reflexivity|].
  unfold rest. rewrite sh_word by (done || apply port_string_plain; lia). cbn [app sh_commands default].
  change (32 =? 39) with false. change (32 =? 92) with false. change (32 =? 32) with true. cbn [app option_list].
  rewrite <- (app_nil_r (target_of p)) at 1. rewrite sh_word by done. reflexivity.
Qed.

(** ** Profiles *)

Definition ids ps : list str := id <$> ps.

Lemma update_first_spec i f ps : (∀ p, id (f p) = id p) →
  match update_first i f ps with
  | Some ps' => ∃ p, find_profile i ps = Some p ∧ find_profile i ps' = Some (f p) ∧ ids ps' = ids ps ∧
      ∀ j, j ≠ i → filter (λ p, id p = j) ps' = filter (λ p, id p = j) ps
  | None => i ∉ ids ps ∧ find_profile i ps = None
  end.
Proof.
  intros Hf. induction ps as [|p ps IH]; simpl; [split; [set_solver|done]|].
  unfold find_profile in *. case_bool_decide as Hid.
  - exists p. subst i. rewrite !filter_cons_True by (by rewrite ?Hf). split_and!; try done.
    + simpl. by rewrite Hf.
    + intros j Hj. rewrite !filter_cons_False by (rewrite ?Hf; congruence). done.
  - destruct (update_first i f ps) as [ps'|]; simpl.
    + destruct IH as (p' & Hp' & Hp2 & Hids & Hother). exists p'.
      rewrite !filter_cons_False by done. split_and!; try done; [by f_equal|].
      intros j Hj. rewrite !filter_cons. by rewrite (Hother j Hj).
    + destruct IH as [Hni Hn]. rewrite filter_cons_False by done. split; [|done]. set_solver.
Qed.

Lemma update_first_const p ps :
  match update_first (id p) (λ _, p) ps with
  | Some ps' => id p ∈ ids ps ∧ find_profile (id p) ps' = Some p ∧ ids ps' = ids ps ∧
      ∀ j, j ≠ id p → filter (λ q, id q = j) ps' = filter (λ q, id q = j) ps
  | None => id p ∉ ids ps
  end.
Proof.
  induction ps as [|q ps IH]; simpl; [set_solver|]. unfold find_profile in *. case_bool_decide as Hid.
  - rewrite filter_cons_True by done. split_and!; try done; [rewrite <- Hid; by left|simpl; congruence|].
    intros j Hj. rewrite !filter_cons_False by congruence. done.
  - destruct (update_first (id p) (λ _, p) ps) as [ps'|]; simpl.
    + destruct IH as (Hin & Hf & Hids & Hother). rewrite filter_cons_False by done.
      split_and!; [by right|done|by f_equal|]. intros j Hj. rewrite !filter_cons. by rewrite (Hother j Hj).
    + set_solver.
Qed.

Section profiles.
Context (to_vec_pretty : list ServerProfile → str + str) (from_str : str → option (list ServerProfile)).
(** What is encoded can be decoded again. *)
Context (serde_roundtrip : ∀ ps data, to_vec_pretty ps = inl data → from_str data = Some ps).

(** The requests that change profiles. *)
Inductive request := Upsert p | AddCsv (uuid csv_line : str) | Connect (now : Z) (i : str).
Definition handle_request (os : Os) (r : request) st : AppState * result () :=
  match r with
  | Upsert p => upsert_profile to_vec_pretty os p st
  | AddCsv uuid line => add_profile_from_csv to_vec_pretty os uuid line st
  | Connect now i => connect_profile to_vec_pretty os now i st
  end.

(** Persisting changes the store only, and on success stores the profiles. *)
Lemma persist_spec os st :
  let '(st', r) := persist_profiles to_vec_pretty os st in
  profiles st' = profiles st ∧ spawned st' = spawned st ∧ pty_sessions st' = pty_sessions st ∧
  (∀ e, r = Err e → st' = st) ∧ (r = Done () → ∃ data, store st' = Some data ∧ to_vec_pretty (profiles st) = inl data).
Proof using.
  unfold persist_profiles. destruct (path_poisoned st); [done|]. destruct (data_path st); [|done].
  destruct (create_dir_all os); [done|]. destruct (to_vec_pretty (profiles st)) as [data|]; [|done].
  destruct (write_file os); [done|]. split_and!; try done. intros _. by exists data.
Qed.


(** Saving a profile replaces the profile with the same identifier where it is or
    appends it, changes no other profile, and keeps identifiers unique, whether or
    not writing the store succeeds. *)
Theorem upsert_profile_spec (os : Os) p st :
  profiles_poisoned st = false →
  let st' := fst (upsert_profile to_vec_pretty os p st) in
  find_profile (id p) (profiles st') = Some p ∧
  (∀ i, i ≠ id p → filter (λ q, id q = i) (profiles st') = filter (λ q, id q = i) (profiles st)) ∧
  ids (profiles st') = (if bool_decide (id p ∈ ids (profiles st)) then ids (profiles st)
                        else ids (profiles st) ++ [id p]) ∧
  (NoDup (ids (profiles st)) → NoDup (ids (profiles st'))).
Proof using.
  intros Hp st'. set (ps := match update_first (id p) (λ _, p) (profiles st) with
    | Some ps => ps | None => profiles st ++ [p] end).
  assert (Eps : profiles st' = ps).
  { unfold st', upsert_profile. rewrite Hp. fold ps.
    pose proof (persist_spec os (with_profiles ps st)) as G.
    destruct (persist_profiles _ _ _) as [st1 r]. exact (proj1 G). }
  rewrite Eps. unfold ps. pose proof (update_first_const p (profiles st)) as G.
  destruct (update_first (id p) (λ _, p) (profiles st)) as [ps'|].
  - destruct G as (Hin & Hf & Hids & Hother). rewrite bool_decide_true, Hids by done. done.
  - rewrite bool_decide_false by done. unfold find_profile, ids in *. rewrite filter_app, fmap_app.
    assert (filter (λ q, id q = id p) (profiles st) = []) as ->.
    { destruct (filter _ _) as [|q l] eqn:E; [done|].
      assert (Hq : q ∈ filter (λ q, id q = id p) (profiles st)) by (rewrite E; by left).
      apply list_elem_of_filter in Hq as [Hid Hq]. destruct G. rewrite <- Hid. by apply list_elem_of_fmap_2. }
    rewrite filter_cons_True by done. split_and!; try done.
    + intros i Hi. rewrite filter_app, filter_cons_False, filter_nil by congruence. apply app_nil_r.
    + intros Hnd. apply NoDup_app. split_and!; [done| |apply NoDup_singleton]. intros x Hx Hx'.
      apply list_elem_of_singleton in Hx' as ->. done.
Qed.

(** Connecting to an unknown profile is an error that changes nothing; connecting
    to a known one records the time of use of this profile only and starts exactly
    one program, the one for this profile, or none if it cannot be started, in which
    case the store keeps its content. *)
Theorem connect_profile_spec (os : Os) (now : Z) (i : str) st :
  profiles_poisoned st = false →
  let '(st', r) := connect_profile to_vec_pretty os now i st in
  match find_profile i (profiles st) with
  | None => st' = st ∧ r = Err not_found
  | Some p =>
      find_profile i (profiles st') = Some (touch now p) ∧ ids (profiles st') = ids (profiles st) ∧
      (∀ j, j ≠ i → filter (λ q, id q = j) (profiles st') = filter (λ q, id q = j) (profiles st)) ∧
      match spawn os with
      | Some e => spawned st' = spawned st ∧ store st' = store st ∧
          r = Err (chars "Failed to launch connection: " ++ e)
      | None => spawned st' = spawned st ++ [connect_command (touch now p)]
      end
  end.
Proof using.
  intros Hp. unfold connect_profile. rewrite Hp.
  pose proof (update_first_spec i (touch now) (profiles st) (λ _, eq_refl)) as G.
  destruct (update_first i (touch now) (profiles st)) as [ps|].
  - destruct G as (p & -> & Hf & Hids & Hother). destruct (spawn os) as [e|]; [done|].
    set (st1 := with_spawned _ _). pose proof (persist_spec os st1) as G.
    destruct (persist_profiles _ _ _) as [st2 r2]. destruct G as (Eps & Esp & _). rewrite Eps, Esp. done.
  - destruct G as [_ ->]. done.
Qed.
End profiles.

(** ** Directories *)

Section directories.
Context (to_lowercase : str → str).

Lemma str_le_total a b : str_le a b = true ∨ str_le b a = true.
Proof.
  revert b. induction a as [|x a IH]; intros [|y b]; simpl; try by (left + right).
  destruct (Z.lt_trichotomy x y) as [?|[->|?]].
  - left. by rewrite (proj2 (Z.ltb_lt _ _)).
  - rewrite Z.eqb_refl, Z.ltb_irrefl. simpl. apply IH.
  - right. by rewrite (proj2 (Z.ltb_lt _ _)).
Qed.

Lemma str_le_trans a : ∀ b d, str_le a b = true → str_le b d = true → str_le a d = true.
Proof.
  induction a as [|x a IH]; intros [|y b] [|z d]; simpl; try done.
  rewrite !orb_true_iff, !andb_true_iff, !Z.ltb_lt, !Z.eqb_eq.
  intros [?|[-> ?]] [?|[-> ?]]; [left; lia|left; lia|left; lia|right; split; [done|by eapply IH]].
Qed.

Lemma insert_entry_perm e l : insert_entry to_lowercase e l ≡ₚ e :: l.
Proof.
  induction l as [|e' l IH]; simpl; [done|]. destruct (str_le _ _); [done|].
  rewrite IH. apply Permutation_swap.
Qed.

Lemma sort_entries_perm l : sort_entries to_lowercase l ≡ₚ l.
Proof. induction l as [|e l IH]; simpl; [done|]. by rewrite insert_entry_perm, IH. Qed.

Lemma insert_entry_sorted e l :
  StronglySorted (entry_le to_lowercase) l → StronglySorted (entry_le to_lowercase) (insert_entry to_lowercase e l).
Proof.
  induction 1 as [|e' l Hs IH He']; simpl; [repeat constructor|].
  destruct (str_le _ _) eqn:Hle.
  - constructor; [by constructor|]. constructor; [done|]. eapply Forall_impl; [exact He'|].
    intros e2 He2. unfold entry_le in *. by eapply str_le_trans.
  - constructor; [done|]. rewrite insert_entry_perm. constructor; [|done].
    unfold entry_le. destruct (str_le_total (to_lowercase (entry_name e)) (to_lowercase (entry_name e'))); congruence.
Qed.

Lemma sort_entries_sorted l : StronglySorted (entry_le to_lowercase) (sort_entries to_lowercase l).
Proof. induction l as [|e l IH]; simpl; [constructor|by apply insert_entry_sorted]. Qed.

(** The entry that is shown for an item of the directory. *)
Definition shown (x : read_entry) : list DirEntry :=
  match x with EntryOk n d => [mkEntry n (default false d)] | EntryError _ => [] end.

Lemma split_entries_spec entries :
  match split_entries entries with
  | Done (dirs, files) => dirs ++ files ≡ₚ (entries ≫= shown) ∧
      Forall (λ e, is_dir e = true) dirs ∧ Forall (λ e, is_dir e = false) files ∧
      ∀ e, EntryError e ∉ entries
  | Err m => ∃ e, EntryError e ∈ entries ∧ m = chars "Failed to read entry: " ++ e
  end.
Proof.
  induction entries as [|[n d|e] entries IH]; cbn [split_entries].
  - split_and!; try done. set_solver.
  - destruct (split_entries entries) as [[dirs files]|m].
    + destruct IH as (Hperm & Hd & Hf & Hn). rewrite bind_cons. simpl shown.
      destruct (default false d); (split_and!; [|by try constructor|by try constructor|set_solver]).
      * simpl. by rewrite Hperm.
      * rewrite <- Permutation_middle, Hperm. done.
    + destruct IH as (e & He & ->). exists e. split; [by right|done].
  - exists e. split; [by left|done].
Qed.

(** Listing a directory shows every entry exactly once, all directories before all
    files, each of the two groups in the order of their names without regard to case;
    an entry that cannot be read makes the whole listing an error. *)
Theorem list_directory_sorted (entries : list read_entry) :
  match list_directory to_lowercase (inl entries) with
  | Done l => l ≡ₚ (entries ≫= shown) ∧ (∀ e, EntryError e ∉ entries) ∧
      ∃ dirs files, l = dirs ++ files ∧
        Forall (λ e, is_dir e = true) dirs ∧ Forall (λ e, is_dir e = false) files ∧
        StronglySorted (entry_le to_lowercase) dirs ∧ StronglySorted (entry_le to_lowercase) files
  | Err m => ∃ e, EntryError e ∈ entries ∧ m = chars "Failed to read entry: " ++ e
  end.
Proof.
  unfold list_directory. pose proof (split_entries_spec entries) as G.
  destruct (split_entries entries) as [[dirs files]|m]; [|done].
  destruct G as (Hperm & Hd & Hf & Hn). split; [by rewrite !sort_entries_perm|]. split; [done|].
  exists (sort_entries to_lowercase dirs), (sort_entries to_lowercase files).
  split_and!; [done|by rewrite sort_entries_perm|by rewrite sort_entries_perm|apply sort_entries_sorted..].
Qed.
End directories.

(** ** Examples *)

(** A password with quotes and spaces for [root] on [10.0.0.1]. *)
Definition demo_profile : ServerProfile :=
  mkProfile (chars "1") (chars "box") (chars "10.0.0.1") (Some (chars "root")) (Some 2222)
    (Some (chars "it's $ecret; x")) [] false None.
Definition demo_os : Os := mkOs None None None None None None None.

Lemma connect_script_words_witness :
  sh (connect_script (chars "it's $ecret; x") demo_profile)
    = Some [[chars "sshpass"; chars "-p"; chars "it's $ecret; x"; chars "ssh"; chars "-p"; chars "2222";
             chars "root@10.0.0.1"]].
Proof.
  apply (connect_script_words (chars "it's $ecret; x") demo_profile).
  - apply (bool_decide_unpack _). vm_compute. exact I.
  - vm_compute. repeat constructor.
  - vm_compute. discriminate.
  - intros n Hn. vm_compute in Hn. injection Hn as <-. lia.
Defined.

(** An encoding for the examples: the number of profiles, with the profiles found
    again in a table. *)
Definition demo_encode (ps : list ServerProfile) : str + str :=
  if decide (ps = [demo_profile]) then inl [1] else if decide (ps = []) then inl [0] else inr [].
Definition demo_decode (s : str) : option (list ServerProfile) :=
  if decide (s = [1]) then Some [demo_profile] else if decide (s = [0]) then Some [] else None.

Lemma demo_serde ps data : demo_encode ps = inl data → demo_decode data = Some ps.
Proof.
  unfold demo_encode. destruct (decide (ps = [demo_profile])) as [->|]; [by intros [= <-]|].
  destruct (decide (ps = [])) as [->|]; [by intros [= <-]|done].
Qed.


Lemma upsert_profile_spec_witness :
  find_profile (chars "1") (profiles (fst (upsert_profile demo_encode demo_os demo_profile app_default)))
    = Some demo_profile.
Proof. apply (upsert_profile_spec demo_encode demo_os demo_profile app_default). reflexivity. Defined.

Lemma connect_profile_spec_witness :
  fst (connect_profile demo_encode demo_os 7 (chars "2") app_default) = app_default.
Proof.
  pose proof (connect_profile_spec demo_encode demo_os 7 (chars "2") app_default eq_refl) as G.
  destruct (connect_profile _ _ _ _ _) as [st r]. destruct G as [-> _]. reflexivity.
Defined.

(** A double quote in a password is escaped although it is inside of single quotes:
    [sshpass] gets a password with a backslash in front of it. *)
Example double_quote_changes_password :
  sh (connect_script (34 :: chars "x") demo_profile)
    = Some [[chars "sshpass"; chars "-p"; 92 :: 34 :: chars "x"; chars "ssh"; chars "-p"; chars "2222";
             chars "root@10.0.0.1"]].
Proof. vm_compute. reflexivity. Qed.

(** The host is not quoted: a host name with a semicolon runs another command. *)
Example host_runs_command :
  let p := mkProfile (chars "1") [] (chars "h;reboot") None None None [] false None in
  sh (connect_script (chars "x") p)
    = Some [[chars "sshpass"; chars "-p"; chars "x"; chars "ssh"; chars "-p"; chars "22"; chars "h"];
            [chars "reboot"]].
Proof. vm_compute. reflexivity. Qed.

(** If the store cannot be written, the error is reported but the profile stays
    changed until the application is closed. *)
Example failed_save_keeps_change :
  let os := mkOs None (Some []) None None None None None in
  let st := setup demo_decode [47] (Some [0]) in
  let '(st', r) := upsert_profile demo_encode os demo_profile st in
  profiles st' = [demo_profile] ∧ store st' = store st ∧ r ≠ Done ().
Proof. vm_compute. done. Qed.
End Manager.
