(* ===== verification/HandlerClaims.v ===== *)
(** * What the escape sequence handler does

    The theorems about single methods of the handler: cursor movement, line
    feeds, printing, editing and clearing, tab stops, modes, titles and the
    keyboard protocol.  They are stated on terminals that satisfy the invariant,
    with rows whose [occ] can be trusted. *)

From S2P Require Import Prelude Index Ansi GridCell Row Storage Cell Grid GridFacts GridOps.
From S2P Require Import Resize Selection Term TermFacts TermOps Handler HandlerFacts HandlerEdit.
From S2P Require Import HandlerSafe Session.
#[local] Open Scope Z_scope.

Section claims.
Context `{AnsiLaws}.
Implicit Types (t : Term).

(** A terminal that satisfies the invariant. *)
Definition clean_term (B : Z) t : Prop := term_wf (row_clean (columns t)) B t.

Lemma clean_size B t t' :
  term_wf (row_clean (columns t)) B t' → same_size t t' → clean_term B t'.
Proof. intros W [E _]. unfold clean_term. by rewrite E. Qed.

(** A cell of a line that was reset is blank. *)
Lemma reset_blank B t r i :
  clean_term B t → is_reset (row_clean (columns t)) (term_template t) r → 0 ≤ i < columns t →
  zlookup (r_inner r) i = Some (blank t).
Proof.
  intros W Hr Hi. pose proof (term_bounds _ B t W). simpl in *.
  apply is_reset_clean in Hr as ->; [|lia]. simpl. by rewrite zlookup_replicate_in by lia.
Qed.

(** ** Cursor *)

(** [goto] puts the cursor at the requested cell, clamped to the screen, or
    in origin mode counted from the top of the scrolling region and clamped to
    its last line; it clears the pending wrap and changes no cell. *)
Theorem goto_moves_cursor (B : Z) t (l col : Z) :
  clean_term B t → -1073741824 ≤ l ≤ 1073741824 → 0 ≤ col →
  ∃ t', goto l col t = Ok t' ∧ clean_term B t' ∧ same_size t t' ∧
    term_cursor t' = goto_target t l col ∧ in_screen t (term_cursor t') ∧
    input_needs_wrap (cursor (t_grid t')) = false ∧ raw (t_grid t') = raw (t_grid t) ∧
    t_mode t' = t_mode t ∧ t_scroll_region t' = t_scroll_region t.
Proof.
  intros W Hl Hc. pose proof (goto_spec _ B t l col W Hl Hc) as G.
  apply wp_exists in G as (t' & E & W' & M). pose proof (moved_size _ _ _ M) as S.
  destruct M as [d ->]. exists (upd_damage d (upd_grid (set_wrap (goto_point (t_grid t)
    (goto_target t l col)) false) t)). split_and!; try done.
  by apply (goto_target_screen (row_clean (columns t)) B).
Qed.

(** C4: a line feed moves the cursor down one line, except at the end of the
    scrolling region, where the region is scrolled up by one line and the cursor
    stays, and on the last line of the screen below the region, where nothing
    happens. *)
Theorem linefeed_behaviour (B : Z) t :
  clean_term B t → B + g_lines (t_grid t) ≤ 1073741824 →
  let next := line (term_cursor t) + 1 in
  let region := t_scroll_region t in
  ∃ t', linefeed t = Ok t' ∧ clean_term (B + g_lines (t_grid t)) t' ∧
    if next =? r_end region then
      term_cursor t' = term_cursor t ∧
      Grid.scroll_up (t_grid t) (r_start region) (r_end region)
        (Z.min 1 (r_end region - r_start region)) = Ok (t_grid t')
    else raw (t_grid t') = raw (t_grid t) ∧
      term_cursor t' = if next <? screen_lines t
                       then mkPoint next (column (term_cursor t)) else term_cursor t.
Proof.
  intros W HB next region. pose proof (linefeed_spec _ B t W HB) as G.
  apply wp_exists in G as (t' & E & W' & S & L). exists t'. split; [done|].
  split; [by eapply clean_size|]. unfold linefed in L. fold next region in L.
  destruct (next =? r_end region).
  - destruct L as (_ & Hc & _ & Hs). split; [unfold term_cursor; by rewrite Hc|done].
  - destruct (next <? screen_lines t); [by destruct L as [d ->]|by subst].
Qed.

(** [DECSC] and [DECRC] are a round trip: whatever [goto] and the attributes
    did in between, [restore_cursor_position] brings back position, template,
    charsets and pending wrap. *)
Theorem save_restore_roundtrip (B : Z) t (l col : Z) (attr : Attr) :
  clean_term B t → -1073741824 ≤ l ≤ 1073741824 → 0 ≤ col →
  ∃ t1 t2, goto l col (save_cursor_position t) = Ok t1 ∧
    restore_cursor_position (terminal_attribute attr t1) = Ok t2 ∧
    clean_term B t2 ∧ cursor (t_grid t2) = cursor (t_grid t) ∧
    raw (t_grid t2) = raw (t_grid t).
Proof.
  intros W Hl Hc. pose proof (save_cursor_wf _ B t W) as Ws.
  pose proof (goto_spec _ B _ l col Ws Hl Hc) as G.
  apply wp_exists in G as (t1 & E1 & W1 & [d M]).
  pose proof (set_template_wf _ B t1 (apply_attribute attr (term_template t1)) W1) as Wa.
  pose proof (restore_cursor_spec _ B _ Wa) as G.
  apply wp_exists in G as (t2 & E2 & W2 & d2 & M2). exists t1, t2.
  split_and!; [done|done| |by subst..]. eapply clean_size; [done|]. by subst.
Qed.

(** ** Printing *)

(** C3: printing a character of width one without a pending wrap and outside of
    insert mode writes exactly the mapped character with the attributes of the
    template at the cursor, leaves the rest of the screen and the scrollback
    alone (up to the repair of a fullwidth character that is overwritten), and
    moves the cursor right or marks the wrap at the last column. *)
Theorem input_writes_cell (B : Z) t (ch : char) :
  clean_term B t → char_width ch = Some 1 → has_mode t TermMode.INSERT = false →
  input_needs_wrap (cursor (t_grid t)) = false →
  let p := term_cursor t in
  ∃ t' cs, input ch t = Ok t' ∧ clean_term B t' ∧
    zlookup (charsets (cursor (t_grid t))) (charset_index_as_usize (t_active_charset t)) = Some cs ∧
    g_cell (t_grid t') p = Some (written_cell (charset_map cs ch) (term_template t)) ∧
    (∀ q, in_grid (t_grid t) q → ¬ near t p q → g_cell (t_grid t') q = g_cell (t_grid t) q) ∧
    (if column p + 1 <? columns t
     then term_cursor t' = mkPoint (line p) (column p + 1) ∧
          input_needs_wrap (cursor (t_grid t')) = false
     else term_cursor t' = p ∧ input_needs_wrap (cursor (t_grid t')) = true).
Proof.
  intros W Hw Hi Hn p. pose proof (term_bounds _ B t W) as Hb. fold p in Hb.
  pose proof (write_at_cursor_spec _ B t ch W) as G.
  apply wp_exists in G as (t1 & E1 & W1 & [Et Fr Ho Hlen Hcells] & cs & Hcs & Hcell).
  pose proof Fr as (Hcur & _ & Hc & _).
  assert (G : wp (advance_cursor t1) (λ t', term_wf (row_clean (columns t)) B t' ∧ same_size t1 t' ∧
    raw (t_grid t') = raw (t_grid t1) ∧
    (if column p + 1 <? columns t
     then term_cursor t' = mkPoint (line p) (column p + 1) ∧
          input_needs_wrap (cursor (t_grid t')) = false
     else term_cursor t' = p ∧ input_needs_wrap (cursor (t_grid t')) = true))).
  { unfold advance_cursor, term_cursor. simpl. rewrite Hcur. fold (term_cursor t). fold p.
    rewrite Hc. do 2 wp_step. destruct (Z.ltb_spec (column p + 1) (g_columns (t_grid t))); wp_step.
    - split; [apply set_column_wf; [done|simpl; lia]|]. split; [done|]. split; [done|].
      simpl. change (term_cursor (set_column _ t1)) with (mkPoint (line (term_cursor t1)) (column p + 1)).
      unfold term_cursor. by rewrite Hcur.
    - split; [by apply set_needs_wrap_wf|]. split; [done|]. split; [done|].
      unfold term_cursor; simpl. by rewrite Hcur. }
  apply wp_exists in G as (t' & E' & W' & S' & R' & C'). exists t', cs.
  split_and!; try done.
  - unfold input. rewrite Hw, Hn. simpl. unfold shift_right. rewrite Hi. simpl. by rewrite E1.
  - eapply clean_size; [done|]. eapply same_size_trans; [|done]. split; simpl; [done|apply Fr].
  - unfold g_cell, g_line. by rewrite R'.
  - intros q Hq Hnear. unfold g_cell, g_line. rewrite R'. by apply Hcells.
Qed.

(** ** Editing a line *)

(** [insert_blank] shifts the cells from the cursor on to the right by
    [count], drops what leaves the line and fills the gap with blanks in the
    background of the template; the other lines are untouched and the whole line
    is reported as damaged. *)
Theorem insert_blank_shifts (B : Z) t (count : Z) :
  clean_term B t → 0 ≤ count →
  let col := column (term_cursor t) in
  let n := Z.min count (columns t - col) in
  ∃ t', insert_blank count t = Ok t' ∧ clean_term B t' ∧
    line_edit (λ i, if i <? col then line_cell t i
                    else if i <? col + n then Some (blank t) else line_cell t (i - n)) t t' ∧
    damaged_columns 0 (columns t) t t'.
Proof.
  intros W Hn col n. pose proof (insert_blank_spec _ B t count W Hn) as G.
  apply wp_exists in G as (t' & E & W' & S & L & Dm). exists t'. split; [done|].
  split; [by eapply clean_size|done].
Qed.

(** [delete_chars] with a count that stays on the line shifts the cells
    behind the deleted ones left to the cursor and blanks the end of the line. *)
Theorem delete_chars_shifts (B : Z) t (count : Z) :
  clean_term B t → 0 ≤ count → column (term_cursor t) + count ≤ columns t →
  let col := column (term_cursor t) in
  ∃ t', delete_chars count t = Ok t' ∧ clean_term B t' ∧
    line_edit (λ i, if i <? col then line_cell t i
                    else if i <? columns t - count then line_cell t (i + count)
                    else Some (blank t)) t t' ∧
    damaged_columns 0 (columns t) t t'.
Proof.
  intros W Hn Hc col. pose proof (term_bounds _ B t W) as Hb.
  pose proof (delete_chars_wf _ B t count W Hn) as G.
  apply wp_exists in G as (t' & E & W' & S & [L1 L2 L3] & Dm). exists t'. split; [done|].
  split; [by eapply clean_size|]. split; [|done]. split; [done|done|]. intros i Hi.
  rewrite L3 by done. fold col in Hc, Hb |- *. simpl in *.
  destruct (Z.leb_spec (g_columns (t_grid t) - Z.min count (g_columns (t_grid t))) i),
    (Z.ltb_spec i col), (Z.ltb_spec i (g_columns (t_grid t) - count)); try done; try lia.
  f_equal. lia.
Qed.

(** A [delete_chars] whose count reaches the width of the line blanks the
    whole line, the cells left of the cursor included. *)
Theorem delete_chars_blanks_line (B : Z) t (count : Z) :
  clean_term B t → columns t ≤ count →
  ∃ t', delete_chars count t = Ok t' ∧ clean_term B t' ∧
    line_edit (λ _, Some (blank t)) t t'.
Proof.
  intros W Hn. pose proof (term_bounds _ B t W) as Hb. simpl in *.
  pose proof (delete_chars_wf _ B t count W ltac:(lia)) as G.
  apply wp_exists in G as (t' & E & W' & S & [L1 L2 L3] & Dm). exists t'. split; [done|].
  split; [by eapply clean_size|]. split; [done|done|]. intros i Hi. rewrite L3 by done.
  simpl in *. destruct (Z.leb_spec (g_columns (t_grid t) - Z.min count (g_columns (t_grid t))) i);
    [done|lia].
Qed.

(** [erase_chars] blanks [count] cells from the cursor on, up to the end of
    the line, and reports them as damaged. *)
Theorem erase_chars_blanks (B : Z) t (count : Z) :
  clean_term B t → 0 ≤ count ≤ 1073741824 →
  let col := column (term_cursor t) in
  ∃ t', erase_chars count t = Ok t' ∧ clean_term B t' ∧
    line_edit (λ i, if (col <=? i) && (i <? col + count)
                    then Some (blank t) else line_cell t i) t t' ∧
    damaged_columns col (Z.min (columns t) (col + count)) t t'.
Proof.
  intros W Hn col. pose proof (erase_chars_spec _ B t count W Hn) as G.
  apply wp_exists in G as (t' & E & W' & S & L & Dm). exists t'. split; [done|].
  split; [by eapply clean_size|done].
Qed.

(** [clear_line] blanks the cells right of the cursor (none if a wrap is
    pending), left of it or all of them, the cursor's cell included, and nothing
    else. *)
Theorem clear_line_blanks (B : Z) t (m : LineClearMode) :
  clean_term B t →
  ∃ t', clear_line m t = Ok t' ∧ clean_term B t' ∧
    let '(a, b) := clear_line_range t m in
    line_edit (λ i, if (a <=? i) && (i <? b) then Some (blank t) else line_cell t i) t t' ∧
    damaged_columns a b t t'.
Proof.
  intros W. pose proof (clear_line_spec _ B t m W) as G.
  apply wp_exists in G as (t' & E & W' & S & L). exists t'. split; [done|].
  split; [by eapply clean_size|done].
Qed.

(** ** Clearing the screen *)

(** The cell of the screen after [p] was cleared or kept. *)
Definition cell_after t (t' : Term) (p : Point) (clear : bool) : Prop :=
  g_cell (t_grid t') p = if clear then Some (blank t) else g_cell (t_grid t) p.

Lemma cleared_cell B a b f t t' (clear : Point → bool) :
  clean_term B t → cleared (row_clean (columns t)) a b f t t' →
  (∀ p, in_screen t p → line p ≠ line (term_cursor t) →
     if clear p then a ≤ line p < b else line p < a ∨ b ≤ line p) →
  (∀ p, in_screen t p → line p = line (term_cursor t) →
     f (column p) = if clear p then Some (blank t) else line_cell t (column p)) →
  ∀ p, in_screen t p → cell_after t t' p (clear p).
Proof.
  intros W [C1 C2 C3 C4] Ho Hl p Hp. unfold cell_after.
  destruct (decide (line p = line (term_cursor t))) as [E|E].
  - specialize (Hl p Hp E). destruct Hp as [? Hp].
    assert (Hcell : g_cell (t_grid t') p = line_cell t' (column p)).
    { unfold line_cell, term_cursor. rewrite C1. fold (term_cursor t). rewrite <- E. by destruct p. }
    rewrite Hcell, C4, Hl by done. destruct (clear p); [done|].
    unfold line_cell. rewrite <- E. by destruct p.
  - specialize (Ho p Hp E). destruct (clear p).
    + destruct (C2 p Hp E Ho) as (r & Hr & ->). apply (reset_blank B); [done|done|apply Hp].
    + apply C3; [|done|done]. by apply (screen_grid (row_clean (columns t)) B).
Qed.

(** [clear_screen(Below)] blanks exactly the cells of the screen from the
    cursor on. *)
Theorem clear_below_blanks (B : Z) t :
  clean_term B t →
  ∃ t', clear_screen ClearBelow t = Ok t' ∧ clean_term B t' ∧
    cursor (t_grid t') = cursor (t_grid t) ∧
    ∀ p, in_screen t p → cell_after t t' p
      ((line (term_cursor t) <? line p) ||
       ((line (term_cursor t) =? line p) && (column (term_cursor t) <=? column p))).
Proof.
  intros W. pose proof (clear_below_spec _ B t W) as G.
  apply wp_exists in G as (t' & E & W' & S & C). exists t'. split; [done|].
  split; [by eapply clean_size|]. split; [apply C|]. eapply cleared_cell; [done|done|..].
  - intros p [Hl _] Hne. destruct (Z.ltb_spec (line (term_cursor t)) (line p)),
      (Z.eqb_spec (line (term_cursor t)) (line p)); simpl in *; lia.
  - intros p _ ->. rewrite Z.ltb_irrefl, Z.eqb_refl. done.
Qed.

(** [clear_screen(Above)] blanks the cells of the screen up to and
    including the cursor's, with one exception: if the cursor is on the second
    line, the first line is kept. *)
Theorem clear_above_blanks (B : Z) t :
  clean_term B t →
  ∃ t', clear_screen ClearAbove t = Ok t' ∧ clean_term B t' ∧
    cursor (t_grid t') = cursor (t_grid t) ∧
    ∀ p, in_screen t p → cell_after t t' p
      (((line p <? line (term_cursor t)) && (1 <? line (term_cursor t))) ||
       ((line (term_cursor t) =? line p) && (column p <=? column (term_cursor t)))).
Proof.
  intros W. pose proof (clear_above_spec _ B t W) as G.
  apply wp_exists in G as (t' & E & W' & S & C). exists t'. split; [done|].
  split; [by eapply clean_size|]. split; [apply C|]. eapply cleared_cell; [done|done|..].
  - intros p [Hl _] Hne. destruct (Z.ltb_spec (line p) (line (term_cursor t))),
      (Z.ltb_spec 1 (line (term_cursor t))),
      (Z.eqb_spec (line (term_cursor t)) (line p)); simpl in *; lia.
  - intros p _ ->. rewrite Z.ltb_irrefl, Z.eqb_refl. simpl.
    destruct (Z.ltb_spec (column p) (column (term_cursor t) + 1)),
      (Z.leb_spec (column p) (column (term_cursor t))); (done || lia).
Qed.

(** [clear_screen(All)] blanks the whole screen and drops the selection;
    [clear_screen(Saved)] empties the scrollback and keeps the screen. *)
Theorem clear_all_and_saved (B : Z) t :
  clean_term B t →
  (∃ t', clear_screen ClearAll t = Ok t' ∧ clean_term B t' ∧ t_selection t' = None ∧
    cursor (t_grid t') = cursor (t_grid t) ∧
    ∀ p, in_screen t p → cell_after t t' p true) ∧
  (∃ t', clear_screen ClearSaved t = Ok t' ∧ clean_term B t' ∧ history_size t' = 0 ∧
    cursor (t_grid t') = cursor (t_grid t) ∧
    ∀ p, in_screen t p → cell_after t t' p false).
Proof.
  intros W. split.
  - pose proof (clear_all_spec _ B t W) as G.
    apply wp_exists in G as (t' & E & W' & S & Hc & Hs & Hr). exists t'. split; [done|].
    split; [by eapply clean_size|]. split; [done|]. split; [done|]. intros p [Hl Hp].
    destruct (Hr (line p) Hl) as (r & El & Hreset). unfold cell_after, g_cell. rewrite El. simpl.
    by apply (reset_blank B).
  - pose proof (clear_saved_spec _ B t W) as G.
    apply wp_exists in G as (t' & E & W' & S & Hc & Hh & Hr). exists t'. split; [done|].
    split; [by eapply clean_size|]. split; [done|]. split; [done|]. intros p [Hl Hp].
    unfold cell_after, g_cell. by rewrite Hr.
Qed.
(** ** Tab stops *)

(** [move_forward_tabs] and [move_backward_tabs] move the cursor by [count]
    tab stops within its line: each step goes to the next stop, or to the last
    column, and to the previous stop, or nowhere. *)
Theorem move_tabs_stops (B : Z) t (count : Z) :
  clean_term B t →
  let steps stop := Nat.iter (Z.to_nat count) (stop (t_tabs t)) (column (term_cursor t)) in
  (∃ t', move_forward_tabs count t = Ok t' ∧ clean_term B t' ∧ raw (t_grid t') = raw (t_grid t) ∧
    term_cursor t' = mkPoint (line (term_cursor t)) (steps next_stop)) ∧
  (∃ t', move_backward_tabs count t = Ok t' ∧ clean_term B t' ∧ raw (t_grid t') = raw (t_grid t) ∧
    term_cursor t' = mkPoint (line (term_cursor t)) (steps previous_stop)).
Proof.
  intros W steps. pose proof (term_bounds _ B t W) as Hb.
  assert (G : ∀ col a b, 0 ≤ col < columns t →
    wp (damage_line (as_usize (line (term_cursor (set_column col t)))) a b (set_column col t))
      (λ t', clean_term B t' ∧ raw (t_grid t') = raw (t_grid t) ∧
        term_cursor t' = mkPoint (line (term_cursor t)) col)).
  { intros col a b Hc. pose proof (set_column_wf _ B t col W Hc) as W1.
    change (line (term_cursor (set_column col t))) with (line (term_cursor t)). casts.
    wp_use (damage_line_wf (row_clean (columns t)) B); [done|simpl; lia|].
    intros t1 (d & -> & W2). split; [|done]. by eapply clean_size. }
  split.
  - destruct (forward_loop_stops _ B (Z.to_nat count) t W) as [E Hr].
    unfold move_forward_tabs. rewrite E. cbn [mbind exec_bind]. by apply wp_exists, G.
  - destruct (backward_loop_stops _ B (Z.to_nat count) t W) as [E Hr].
    unfold move_backward_tabs. rewrite E. cbn [mbind exec_bind]. by apply wp_exists, G.
Qed.

(** ** Modes *)

(** The bit of a mouse reporting mode. *)
Definition mouse_flag (m : NamedPrivateMode) : option Z :=
  match m with
  | ReportMouseClicks => Some TermMode.MOUSE_REPORT_CLICK
  | ReportCellMouseMotion => Some TermMode.MOUSE_DRAG
  | ReportAllMouseMotion => Some TermMode.MOUSE_MOTION
  | _ => None
  end.

(** The mouse reporting modes exclude each other: setting one leaves it as
    the only one that is set, keeps all other modes and announces that the mouse
    cursor may have changed. *)
Theorem mouse_modes_exclusive t (m : NamedPrivateMode) (flag : Z) :
  mouse_flag m = Some flag →
  ∃ t', set_private_mode (PrivateNamed m) t = Ok t' ∧
    Z.land (t_mode t') TermMode.MOUSE_MODE = flag ∧
    Z.ldiff (t_mode t') TermMode.MOUSE_MODE = Z.ldiff (t_mode t) TermMode.MOUSE_MODE ∧
    t_grid t' = t_grid t ∧ t_events t' = t_events t ++ [MouseCursorDirty].
Proof.
  destruct m; try discriminate; intros [= <-]; eexists; (split; [done|]); simpl;
    (split; [by apply Bitflags.replace_land|]); (split; [by apply Bitflags.replace_ldiff|done]).
Qed.

Lemma term_mode_within m :
  Bitflags.within (term_mode_of m) TermMode.KITTY_KEYBOARD_PROTOCOL.
Proof. unfold term_mode_of. by repeat apply Bitflags.within_set. Qed.

(** The kitty keyboard flags of the mode word are replaced, joined or cut
    exactly as [apply] says, and no other mode is touched. *)
Theorem keyboard_mode_bits_spec (flags : Z) (apply : KeyboardModesApplyBehavior) (mode : Z) :
  let kitty := TermMode.KITTY_KEYBOARD_PROTOCOL in
  let new := keyboard_mode_bits (term_mode_of flags) apply mode in
  Z.ldiff new kitty = Z.ldiff mode kitty ∧
  Z.land new kitty = match apply with
                     | Replace => term_mode_of flags
                     | Union => Z.lor (Z.land mode kitty) (term_mode_of flags)
                     | Difference => Z.ldiff (Z.land mode kitty) (term_mode_of flags)
                     end.
Proof.
  intros kitty new. unfold new, keyboard_mode_bits. fold kitty. cbv zeta.
  set (x := match apply with Replace => _ | _ => _ end).
  assert (Hx : Bitflags.within x kitty).
  { pose proof (term_mode_within flags). unfold x. destruct apply; [done|..].
    - apply Bitflags.within_lor; [apply Bitflags.within_land|done].
    - apply Bitflags.within_ldiff, Bitflags.within_land. }
  split; [by apply Bitflags.replace_ldiff|by apply Bitflags.replace_land].
Qed.

(** Pushing a keyboard mode and popping it again restores the stack, the
    flags of the mode that was on top before, and everything else, as long as
    the stack is not full. *)
Theorem keyboard_push_pop t (m : Z) :
  kitty_keyboard (t_config t) = true →
  zlen (t_keyboard_mode_stack t) < KEYBOARD_MODE_STACK_MAX_DEPTH →
  ∃ t1, push_keyboard_mode m t = Ok t1 ∧
    Z.land (t_mode t1) TermMode.KITTY_KEYBOARD_PROTOCOL = term_mode_of m ∧
    let t2 := pop_keyboard_modes 1 t1 in
    t_keyboard_mode_stack t2 = t_keyboard_mode_stack t ∧
    Z.land (t_mode t2) TermMode.KITTY_KEYBOARD_PROTOCOL =
      term_mode_of (default KM_NO_MODE (last (t_keyboard_mode_stack t))) ∧
    Z.ldiff (t_mode t2) TermMode.KITTY_KEYBOARD_PROTOCOL =
      Z.ldiff (t_mode t) TermMode.KITTY_KEYBOARD_PROTOCOL ∧
    t_title_stack t2 = t_title_stack t.
Proof.
  intros Hk Hl. unfold push_keyboard_mode. rewrite Hk. cbn [negb].
  destruct (Z.leb_spec KEYBOARD_MODE_STACK_MAX_DEPTH (zlen (t_keyboard_mode_stack t))); [lia|].
  cbn [mbind exec_bind]. eexists. split; [done|].
  set (t1 := apply_keyboard_mode _ _ _).
  assert (E1 : t_keyboard_mode_stack t1 = t_keyboard_mode_stack t ++ [m] ∧
    t_mode t1 = keyboard_mode_bits (term_mode_of m) Replace (t_mode t) ∧
    t_config t1 = t_config t ∧ t_title_stack t1 = t_title_stack t) by done.
  clearbody t1. destruct E1 as (Es & Em & Ec & Et).
  pose proof (term_mode_within m) as Hm. split; [rewrite Em; by apply Bitflags.replace_land|].
  assert (Ht : take (Z.to_nat (saturating_sub (zlen (t_keyboard_mode_stack t1)) 1))
    (t_keyboard_mode_stack t1) = t_keyboard_mode_stack t).
  { rewrite Es, zlen_app. unfold saturating_sub, zlen. apply take_app_length'. simpl. lia. }
  unfold pop_keyboard_modes. rewrite Ec, Hk. cbn [negb]. cbv zeta. simpl.
  rewrite Ht. split; [done|]. set (top := default _ _).
  pose proof (term_mode_within top) as Htop.
  split; [by apply Bitflags.replace_land|]. split; [|done]. unfold keyboard_mode_bits. cbv zeta.
  rewrite (Bitflags.replace_ldiff (t_mode t1)) by done. rewrite Em. by apply Bitflags.replace_ldiff.
Qed.

(** ** Titles *)

(** The title stack is bounded, and [pop_title] brings back the title that
    [push_title] saved whatever title was set in between. *)
Theorem title_push_pop t (s : option text) :
  zlen (t_title_stack t) ≤ TITLE_STACK_MAX_DEPTH →
  ∃ t1, push_title t = Ok t1 ∧ 0 < zlen (t_title_stack t1) ≤ TITLE_STACK_MAX_DEPTH ∧
    let t2 := pop_title (set_title s t1) in
    t_title t2 = t_title t ∧
    t_events t2 = t_events t ++ [match s with Some s => Title s | None => ResetTitle end;
                                 match t_title t with Some s => Title s | None => ResetTitle end] ∧
    t_title_stack t2 = if zlen (t_title_stack t) <? TITLE_STACK_MAX_DEPTH
                       then t_title_stack t else tail (t_title_stack t).
Proof.
  intros Hl. unfold TITLE_STACK_MAX_DEPTH in *.
  assert (G : ∃ titles, (if 4096 <=? zlen (t_title_stack t)
      then x ← vec_remove_first (t_title_stack t); mret (upd_title_stack x t) else mret t)
      = Ok (upd_title_stack titles t) ∧ zlen titles < 4096 ∧
      titles = if zlen (t_title_stack t) <? 4096 then t_title_stack t else tail (t_title_stack t)).
  { destruct (Z.leb_spec 4096 (zlen (t_title_stack t))),
      (Z.ltb_spec (zlen (t_title_stack t)) 4096); try lia.
    - destruct (t_title_stack t) as [|x l] eqn:E; [done|]. exists l. split; [done|].
      split; [unfold zlen in *; simpl in *; lia|done].
    - exists (t_title_stack t). split; [by destruct t|done]. }
  destruct G as (titles & E & Hz & Ht). exists (upd_title_stack (titles ++ [t_title t]) t).
  split; [unfold push_title; unfold TITLE_STACK_MAX_DEPTH; by rewrite E|].
  split; [simpl; rewrite zlen_app; pose proof (zlen_nonneg titles); unfold zlen at 2 4; simpl; lia|].
  simpl. unfold pop_title. cbn [set_title send_event t_title_stack upd_title upd_events upd_title_stack].
  rewrite last_snoc. simpl. split; [done|]. split; [by rewrite <- app_assoc|].
  rewrite length_app, Nat.add_comm. simpl. rewrite <- Ht. by rewrite take_app_length.
Qed.

(** ** The alternate screen and reset *)

(** Toggling the alternate screen bit next to a change of the keyboard flags. *)
Lemma toggle_alt_bit m k :
  Bitflags.within k TermMode.KITTY_KEYBOARD_PROTOCOL →
  Bitflags.contains (Bitflags.toggle (keyboard_mode_bits k Replace m) TermMode.ALT_SCREEN)
    TermMode.ALT_SCREEN = negb (Bitflags.contains m TermMode.ALT_SCREEN).
Proof.
  intros Hk. rewrite !(Bitflags.contains_bit _ 12) by done. unfold Bitflags.toggle.
  rewrite Z.lxor_spec. change (Z.testbit TermMode.ALT_SCREEN 12) with true. rewrite xorb_true_r.
  f_equal. unfold keyboard_mode_bits. rewrite Z.lor_spec. unfold Bitflags.remove.
  rewrite Z.ldiff_spec. change (Z.testbit TermMode.KITTY_KEYBOARD_PROTOCOL 12) with false.
  destruct (Z.testbit k 12) eqn:E; [|by rewrite andb_true_r, orb_false_r].
  by apply (Bitflags.within_bit _ _ _ Hk) in E.
Qed.

(** Entering the alternate screen shows blank lines under the same cursor
    and keeps the primary grid; whatever happens to the active grid, leaving it
    brings the primary grid back, cell for cell, with the cursor it had. *)
Lemma alt_screen_roundtrip (B B' : Z) t :
  clean_term B t → has_mode t TermMode.ALT_SCREEN = false →
  ∃ t1, swap_alt t = Ok t1 ∧ clean_term B t1 ∧ has_mode t1 TermMode.ALT_SCREEN = true ∧
    cursor (t_grid t1) = cursor (t_grid t) ∧ t_selection t1 = None ∧
    (∀ p, in_screen t p → g_cell (t_grid t1) p = Some (blank t)) ∧
    ∀ t1', clean_term B' t1' → has_mode t1' TermMode.ALT_SCREEN = true →
      t_inactive_grid t1' = t_inactive_grid t1 →
      ∃ t2, swap_alt t1' = Ok t2 ∧ clean_term B' t2 ∧ has_mode t2 TermMode.ALT_SCREEN = false ∧
        cursor (t_grid t2) = cursor (t_grid t) ∧ raw (t_grid t2) = raw (t_grid t).
Proof.
  intros W Ha. pose proof (swap_alt_wf _ B t W) as G. rewrite Ha in G.
  apply wp_exists in G as (t1 & E1 & W1 & S1 & M1 & Hs & _ & _ & _ & Hi & Hc & Hl).
  exists t1. split; [done|]. split; [by eapply clean_size|].
  assert (Hx : ∀ (m k : Z), Bitflags.within k TermMode.KITTY_KEYBOARD_PROTOCOL →
    Bitflags.contains (Bitflags.toggle (keyboard_mode_bits k Replace m) TermMode.ALT_SCREEN)
      TermMode.ALT_SCREEN = negb (Bitflags.contains m TermMode.ALT_SCREEN)).
  { apply toggle_alt_bit. }
  split; [unfold has_mode in *; rewrite M1, Hx, Ha by apply term_mode_within; done|].
  split; [done|]. split; [done|]. split.
  { intros p [Hp Hpc]. destruct (Hl (line p) Hp) as (r & Hr & Hreset). unfold g_cell.
    rewrite Hr. simpl. by apply (reset_blank B). }
  intros t1' W1' Ha' Hi'. pose proof (swap_alt_wf _ B' t1' W1') as G. rewrite Ha' in G.
  apply wp_exists in G as (t2 & E2 & W2 & S2 & M2 & _ & _ & _ & _ & Hg & _).
  exists t2. split; [done|]. split; [by eapply clean_size|].
  split; [unfold has_mode in *; rewrite M2, Hx, Ha' by apply term_mode_within; done|].
  rewrite Hg, Hi', Hi. done.
Qed.
(** ** All edits of a line and of the screen *)

(** The methods that edit the line of the cursor. *)
Inductive line_op := InsertBlankOp (n : Z) | DeleteCharsOp (n : Z) | EraseCharsOp (n : Z)
  | ClearLineOp (m : LineClearMode).

Definition run_line_op (op : line_op) : Term → exec Term :=
  match op with
  | InsertBlankOp n => insert_blank n
  | DeleteCharsOp n => delete_chars n
  | EraseCharsOp n => erase_chars n
  | ClearLineOp m => clear_line m
  end.

Definition line_op_ok (op : line_op) : Prop :=
  match op with
  | InsertBlankOp n | DeleteCharsOp n => 0 ≤ n
  | EraseCharsOp n => 0 ≤ n ≤ 1073741824
  | ClearLineOp _ => True
  end.

(** The cell in column [i] of the edited line, and the columns that are damaged. *)
Definition line_op_cell (op : line_op) t (i : Z) : option Cell :=
  let col := column (term_cursor t) in
  match op with
  | InsertBlankOp n =>
      let n := Z.min n (columns t - col) in
      if i <? col then line_cell t i else if i <? col + n then Some (blank t) else line_cell t (i - n)
  | DeleteCharsOp n =>
      let n := Z.min n (columns t) in
      if columns t - n <=? i then Some (blank t)
      else if i <? col then line_cell t i else line_cell t (i + n)
  | EraseCharsOp n => if (col <=? i) && (i <? col + n) then Some (blank t) else line_cell t i
  | ClearLineOp m =>
      let '(a, b) := clear_line_range t m in
      if (a <=? i) && (i <? b) then Some (blank t) else line_cell t i
  end.

Definition line_op_damage (op : line_op) t : Z * Z :=
  let col := column (term_cursor t) in
  match op with
  | InsertBlankOp _ | DeleteCharsOp _ => (0, columns t)
  | EraseCharsOp n => (col, Z.min (columns t) (col + n))
  | ClearLineOp m => clear_line_range t m
  end.

(** C6: the methods that edit a line compute exactly the line of the specification:
    [insert_blank] shifts the cells from the cursor on to the right and fills the gap,
    [delete_chars] shifts the cells behind the deleted ones to the left and blanks as
    many cells at the end of the line (the cells left of the cursor included if the
    count is that large), [erase_chars] and [clear_line] blank their range; no other
    line changes, and every changed cell is reported as damaged. *)
Theorem line_edits_refine (B : Z) t (op : line_op) :
  clean_term B t → line_op_ok op →
  ∃ t', run_line_op op t = Ok t' ∧ clean_term B t' ∧ line_edit (line_op_cell op t) t t' ∧
    damaged_columns (fst (line_op_damage op t)) (snd (line_op_damage op t)) t t'.
Proof.
  intros W Hop. destruct op as [n|n|n|m]; cbn [run_line_op line_op_ok line_op_damage fst snd] in *.
  - destruct (insert_blank_shifts B t n W Hop) as (t' & E & W' & L & D). by exists t'.
  - destruct (wp_exists _ _ (delete_chars_wf _ B t n W Hop)) as (t' & E & W' & S & [L1 L2 L3] & D).
    exists t'. split; [done|]. split; [by eapply clean_size|]. split; [|done]. split; [done|done|].
    intros i Hi. rewrite L3 by done. cbn [line_op_cell]. repeat case_match; try done. f_equal. lia.
  - destruct (erase_chars_blanks B t n W Hop) as (t' & E & W' & L & D). by exists t'.
  - destruct (clear_line_blanks B t m W) as (t' & E & W' & LD). exists t'. split; [done|]. split; [done|].
    unfold line_op_cell. by destruct (clear_line_range t m).
Qed.

(** The cells of the screen that a mode clears. *)
Definition clears (m : ClearMode) t (p : Point) : bool :=
  let q := term_cursor t in
  match m with
  | ClearBelow => (line q <? line p) || ((line q =? line p) && (column q <=? column p))
  | ClearAbove => ((line p <? line q) && (1 <? line q)) || ((line q =? line p) && (column p <=? column q))
  | ClearAll => true
  | ClearSaved => false
  end.

(** C10: [clear_screen] blanks exactly the cells of the screen its mode names and leaves
    the cursor: the cells from the cursor on; the cells up to the cursor (except that
    the first line is kept if the cursor is on the second one); all cells; or none, in
    which case it empties the scrollback. *)
Theorem clear_screen_cells (B : Z) t (m : ClearMode) :
  clean_term B t →
  ∃ t', clear_screen m t = Ok t' ∧ clean_term B t' ∧ cursor (t_grid t') = cursor (t_grid t) ∧
    (m = ClearSaved → history_size t' = 0) ∧
    ∀ p, in_screen t p → cell_after t t' p (clears m t p).
Proof.
  intros W. destruct m; cbn [clears].
  - destruct (clear_below_blanks B t W) as (t' & E & W' & C & Hp). by exists t'.
  - destruct (clear_above_blanks B t W) as (t' & E & W' & C & Hp). by exists t'.
  - destruct (clear_all_and_saved B t W) as [(t' & E & W' & _ & C & Hp) _]. by exists t'.
  - destruct (clear_all_and_saved B t W) as [_ (t' & E & W' & Hh & C & Hp)]. by exists t'.
Qed.
End claims.
