(* ===== verification/TermClaims.v ===== *)
(** * Sessions, display and damage

    The theorems about whole sessions and about the operations of the terminal
    that the embedding application calls. *)

From S2P Require Import Prelude Index Ansi GridCell Row Storage Cell Grid GridFacts GridOps.
From S2P Require Import Resize Selection Term TermFacts TermOps Handler HandlerFacts HandlerEdit.
From S2P Require Import HandlerSafe Session HandlerClaims.
#[local] Open Scope Z_scope.

Section claims.
Context `{AnsiLaws}.
Implicit Types (t : Term).


(** C2: the invariant of a session: the cursors of both grids are on the screen,
    both grids have the size of the terminal, the scrollback respects its limit,
    the scrolling region is on the screen, there is a tab stop entry for every
    column and a damage entry for every line. *)
Theorem session_invariant {D} `{Dimensions D} (config : Config) (d : D) (suffix : Z) (n : nat) t :
  size_ok (screen_lines d) (columns d) (scrolling_history config) →
  session_budget (screen_lines d) n ≤ 1073741824 → session config d suffix n t →
  columns t = columns d ∧ screen_lines t = screen_lines d ∧
  in_screen t (term_cursor t) ∧ in_screen t (point (saved_cursor (t_grid t))) ∧
  in_screen t (point (cursor (t_inactive_grid t))) ∧
  screen_lines (t_inactive_grid t) = screen_lines t ∧ columns (t_inactive_grid t) = columns t ∧
  history_size t ≤ max_scroll_limit (t_grid t) ∧
  0 ≤ r_start (t_scroll_region t) ≤ r_end (t_scroll_region t) ∧
  r_end (t_scroll_region t) ≤ screen_lines t ∧
  zlen (t_tabs t) = columns t ∧ zlen (d_lines (t_damage t)) = screen_lines t.
Proof.
  intros Hsize Hn Hs. destruct (session_wf config d suffix n t Hsize Hn Hs) as (W & Hc & Hl).
  split; [done|]. split; [done|].
  pose proof (term_bounds _ _ t W). destruct W as [[Wg [? ?] [? ?]] [Wi [Hi ?] [? ?]] [Hdl Hdc] ? ? ? [? ?] ? ? ? ? ?].
  pose proof (grid_history _ _ Wg) as Hh. destruct Wg.
  split_and!; try done; try (simpl; congruence); try lia.
  all: try (destruct Hi as [? ?]; unfold in_screen; simpl in *; lia).
  all: change (history_size t) with (history_size (t_grid t)); lia.
Qed.

(** [Term::new] returns a terminal of the given size that is blank, without
    scrollback, with the cursor in the upper left corner, the default modes and
    the whole screen as scrolling region. *)
Theorem term_new_blank {D} `{Dimensions D} (config : Config) (d : D) (suffix : Z) :
  size_ok (screen_lines d) (columns d) (scrolling_history config) →
  ∃ t, term_new config d suffix = Ok t ∧ clean_term 0 t ∧
    columns t = columns d ∧ screen_lines t = screen_lines d ∧ history_size t = 0 ∧
    term_cursor t = mkPoint 0 0 ∧ t_mode t = TermMode.default ∧
    t_scroll_region t = mkLines 0 (screen_lines d) ∧
    ∀ p, in_screen t p → g_cell (t_grid t) p = Some default_cell.
Proof.
  intros Hsize. pose proof (term_new_spec (row_clean (columns d)) config d suffix) as G.
  assert (Hc : 1 ≤ columns d ≤ 1073741824).
  { destruct Hsize as (? & _). unfold MIN_COLUMNS in *. lia. }
  specialize (G (row_pred_clean _ Hc) Hsize).
  apply wp_exists in G as (t & E & W & Hcol & Hl & Hh & Hcur & _ & Hr & Hm & _ & _ & _ & Hrows).
  exists t. split_and!; try done.
  - unfold clean_term. by rewrite Hcol.
  - unfold term_cursor. by rewrite Hcur.
  - intros p [Hpl Hpc]. unfold g_cell. rewrite Hrows by lia. simpl.
    rewrite zlookup_replicate_in by lia. done.
Qed.

(** [reset_state] brings the terminal back to its initial state: blank
    screens, no scrollback, default cursors, modes (but for the vi mode), tab
    stops and scrolling region, no titles and no keyboard modes. *)
Theorem reset_state_resets (B : Z) t :
  clean_term B t →
  ∃ t', reset_state t = Ok t' ∧ clean_term B t' ∧
    cursor (t_grid t') = cursor_default ∧ saved_cursor (t_grid t') = cursor_default ∧
    cursor (t_inactive_grid t') = cursor_default ∧ history_size t' = 0 ∧
    t_scroll_region t' = mkLines 0 (screen_lines t) ∧ t_tabs t' = tabs_new (columns t) ∧
    t_title t' = None ∧ t_title_stack t' = [] ∧ t_selection t' = None ∧
    t_keyboard_mode_stack t' = [] ∧
    t_mode t' = Bitflags.insert (Z.land (t_mode t) TermMode.VI) TermMode.default ∧
    ∀ p, in_screen t p → g_cell (t_grid t') p = Some default_cell.
Proof.
  intros W. pose proof (term_bounds _ B t W). pose proof (reset_state_spec _ B t W) as G.
  apply wp_exists in G as (t' & E & W' & S & ? & ? & ? & ? & ? & ? & ? & ? & ? & ? & ? & Hrows).
  exists t'. split; [done|]. split; [by eapply clean_size|]. split_and!; try done.
  intros p [Hl Hc]. destruct (Hrows (line p) Hl) as (r & Hr & Hreset). unfold g_cell. rewrite Hr.
  simpl in *. apply is_reset_clean in Hreset as ->; [|lia]. simpl.
  rewrite zlookup_replicate_in by lia. done.
Qed.

(** [scroll_display] keeps the display offset within the scrollback, moves
    the vi mode cursor only as far as needed to keep it in the viewport, changes
    no cell and damages everything when the viewport moved. *)
Theorem scroll_display_clamps (B : Z) t (sc : Scroll) :
  clean_term B t → offset_ok (t_grid t) → delta_ok sc →
  ∃ t', term_scroll_display sc t = Ok t' ∧ clean_term (vi_budget B) t' ∧
    display_offset (t_grid t') = match sc with
      | Delta n => Z.min (Z.max (display_offset (t_grid t) + n) 0) (history_size t)
      | PageUp => Z.min (display_offset (t_grid t) + screen_lines t) (history_size t)
      | PageDown => Z.max 0 (display_offset (t_grid t) - screen_lines t)
      | Top => history_size t
      | Bottom => 0
      end ∧
    0 ≤ display_offset (t_grid t') ≤ history_size t ∧
    raw (t_grid t') = raw (t_grid t) ∧ in_viewport t' (line (t_vi_mode_cursor t')) ∧
    (in_viewport t' (line (t_vi_mode_cursor t)) → t_vi_mode_cursor t' = t_vi_mode_cursor t) ∧
    (display_offset (t_grid t') ≠ display_offset (t_grid t) → d_full (t_damage t') = true).
Proof.
  intros W Ho Hd. pose proof (term_scroll_display_spec _ B t sc W Hd) as G.
  apply wp_exists in G as (t' & E & W' & S & _ & Hv & _ & Hraw & Hoff & Hg & Hdam & Hvi).
  pose proof (scroll_display_spec _ (t_grid t) sc (go_wf _ _ (tw_grid _ _ _ W)) Hd) as G.
  rewrite Hg in G. destruct G as (_ & Fr & _ & _ & Eo). specialize (Hoff Ho).
  exists t'. split; [done|]. split; [by eapply clean_size|]. split; [done|].
  split; [|done]. unfold offset_ok in Hoff.
  change (history_size t) with (history_size (t_grid t)).
  replace (history_size (t_grid t)) with (history_size (t_grid t')); [done|].
  pose proof Fr as (_ & _ & _ & Hl & _). unfold history_size; simpl. by rewrite Hraw, Hl.
Qed.

(** [scroll_to_point] brings any point of the buffer into the viewport, and
    [vi_goto_point] also puts the vi mode cursor there. *)
Theorem goto_point_visible (B : Z) t (p : Point) :
  clean_term B t → offset_ok (t_grid t) → in_grid (t_grid t) p →
  (∃ t', scroll_to_point p t = Ok t' ∧ clean_term (vi_budget B) t' ∧ in_viewport t' (line p) ∧
    raw (t_grid t') = raw (t_grid t)) ∧
  (∃ t', vi_goto_point p t = Ok t' ∧ clean_term (vi_budget B) t' ∧ in_viewport t' (line p) ∧
    t_vi_mode_cursor t' = p).
Proof.
  intros W Ho Hp. split.
  - pose proof (scroll_to_point_spec _ B t p W Ho Hp) as G.
    apply wp_exists in G as (t' & E & W' & S & _ & Hr & _ & Hv). exists t'.
    split; [done|]. split; [by eapply clean_size|done].
  - pose proof (vi_goto_point_spec _ B t p W Ho Hp) as G.
    apply wp_exists in G as (t' & E & W' & S & Hr & _ & Hv). exists t'.
    split; [done|]. split; [by eapply clean_size|done].
Qed.

(** C30: the damage handed to the renderer is complete: every displayed point of
    the screen that was recorded as damaged since the last reset, and the old and
    the new position of the cursor, is covered; after [reset_damage] no point of
    the screen is recorded any more. *)
Theorem damage_complete (B : Z) t :
  clean_term B t →
  (∃ t' dmg, collect_damage t = Ok (t', dmg) ∧ clean_term B t' ∧ t_grid t' = t_grid t ∧
    d_last_cursor (t_damage t') = term_cursor t ∧
    ∀ p, in_screen t p → line p + display_offset (t_grid t) < screen_lines t →
      must_draw t p → reported t dmg p) ∧
  clean_term B (reset_damage t) ∧ ∀ p, in_screen t p → ¬ damaged (t_damage (reset_damage t)) p.
Proof.
  intros W. split; [|by apply reset_damage_spec].
  pose proof (collect_damage_spec _ B t W) as G.
  apply wp_exists in G as ([t' dmg] & E & W' & (d & -> & Hd) & Hp). exists (upd_damage d t), dmg.
  split_and!; done.
Qed.

(** [set_options] adopts the new configuration, keeps the size and the
    cursor, and when the kitty keyboard protocol is switched on or off forgets
    all of its state. *)
Theorem set_options_applies (B : Z) t (options : Config) :
  clean_term B t → 0 ≤ scrolling_history options →
  screen_lines t + scrolling_history options ≤ 536870912 →
  ∃ t', set_options options t = Ok t' ∧ clean_term B t' ∧ t_config t' = options ∧
    term_cursor t' = term_cursor t ∧ d_full (t_damage t') = true ∧
    (kitty_keyboard options ≠ kitty_keyboard (t_config t) →
     t_keyboard_mode_stack t' = [] ∧ t_inactive_keyboard_mode_stack t' = [] ∧
     Bitflags.intersects (t_mode t') TermMode.KITTY_KEYBOARD_PROTOCOL = false).
Proof.
  intros W Hh Hs. pose proof (set_options_spec _ B t options W Hh Hs) as G.
  apply wp_exists in G as (t' & E & W' & S & ?). exists t'. split; [done|].
  split; [by eapply clean_size|done].
Qed.

(** Viewport coordinates and buffer coordinates convert into each other
    without loss for every display offset. *)
Theorem viewport_roundtrip (offset : Z) (p : Point) :
  0 ≤ offset ≤ 536870912 → 0 ≤ line p ≤ 536870912 →
  ∃ q, viewport_to_point offset p = Ok q ∧ line q = line p - offset ∧
    point_to_viewport offset q = Ok (Some p).
Proof.
  intros Ho Hl. unfold viewport_to_point, line_sub_usize, point_to_viewport.
  rewrite !as_i32_id by lia. rewrite i32_sub_ok by lia. cbn [mbind exec_bind].
  eexists. split; [done|]. split; [done|]. simpl line. rewrite i32_add_ok by lia.
  cbn [mbind exec_bind]. replace (line p - offset + offset) with (line p) by lia.
  destruct (Z.leb_spec 0 (line p)); [|lia]. by destruct p.
Qed.
End claims.
