(* ===== verification/Demo.v ===== *)
(** * A concrete terminal

    An instance of the interface [Ansi] and small terminals on which the
    theorems are applied: [demo] is a terminal of 6 columns and 3 lines with a
    scrollback of 4 lines after some text was printed. *)

From S2P Require Import Prelude Index Ansi GridCell Row Storage Cell Grid GridFacts GridOps.
From S2P Require Import Resize Selection Term TermFacts TermOps Handler HandlerFacts HandlerEdit.
From S2P Require Import HandlerSafe Session.
#[local] Open Scope Z_scope.

Inductive DemoCharsetIndex := G0 | G1 | G2 | G3.

Definition demo_color_index (n : NamedColor) : Z :=
  match n with
  | Black => 0 | Red => 1 | Green => 2 | Yellow => 3 | Blue => 4 | Magenta => 5 | Cyan => 6
  | White => 7 | BrightBlack => 8 | BrightRed => 9 | BrightGreen => 10 | BrightYellow => 11
  | BrightBlue => 12 | BrightMagenta => 13 | BrightCyan => 14 | BrightWhite => 15
  | Foreground => 256 | Background => 257 | CursorColor => 258
  | DimBlack => 259 | DimRed => 260 | DimGreen => 261 | DimYellow => 262 | DimBlue => 263
  | DimMagenta => 264 | DimCyan => 265 | DimWhite => 266
  | BrightForeground => 267 | DimForeground => 268
  end.

Definition demo_private_mode (m : NamedPrivateMode) : Z :=
  match m with
  | CursorKeys => 1 | ColumnMode => 3 | Origin => 6 | LineWrap => 7 | BlinkingCursor => 12
  | ShowCursor => 25 | ReportMouseClicks => 1000 | ReportCellMouseMotion => 1002
  | ReportAllMouseMotion => 1003 | ReportFocusInOut => 1004 | Utf8Mouse => 1005
  | SgrMouse => 1006 | AlternateScroll => 1007 | UrgencyHints => 1042
  | SwapScreenAndSetRestoreCursor => 1049 | BracketedPaste => 2004 | SyncUpdate => 2026
  end.

(** Combining marks have no width, CJK ideographs two columns. *)
Definition demo_width (ch : Z) : option Z :=
  if ch <? 32 then None
  else if (768 <=? ch) && (ch <? 880) then Some 0
  else if (19968 <=? ch) && (ch <? 40960) then Some 2
  else Some 1.

#[global] Instance demo_ansi : Ansi := {
  StandardCharset := bool;
  charset_default := false;
  charset_map special ch := if (special : bool) && (ch =? 113) then 9472 else ch;
  CharsetIndex := DemoCharsetIndex;
  charset_index_default := G0;
  charset_index_as_usize i := match i with G0 => 0 | G1 => 1 | G2 => 2 | G3 => 3 end;
  cursor_style_default := mkCursorStyle Block false;
  named_color_as_usize := demo_color_index;
  named_mode_raw m := match m with Insert => 4 | LineFeedNewLine => 20 end;
  named_private_mode_raw := demo_private_mode;
  char_width := demo_width;
  KM_NO_MODE := 0;
  KM_DISAMBIGUATE_ESC_CODES := 1;
  KM_REPORT_EVENT_TYPES := 2;
  KM_REPORT_ALTERNATE_KEYS := 4;
  KM_REPORT_ALL_KEYS_AS_ESC := 8;
  KM_REPORT_ASSOCIATED_TEXT := 16;
  base64_decode bytes := Some bytes;
  base64_encode s := s;
  string_from_utf8 bytes := Some bytes }.

#[global] Instance demo_laws : AnsiLaws.
Proof.
  split.
  - intros []; simpl; lia.
  - intros ch w. simpl. unfold demo_width. repeat case_match; naive_solver lia.
Qed.

Definition demo_config : Config :=
  mkConfig 4 (mkCursorStyle Block false) None SEMANTIC_ESCAPE_CHARS true CopyPaste.
Definition demo_size : TermSize := mkTermSize 6 3.

(** [ab], then a fullwidth character, on the first line, [x] on the second. *)
Definition demo_calls : list call :=
  [Input 97; Input 98; Input 20013; CarriageReturn; Linefeed; Input 120].

Definition run_or {A} (a : A) (m : exec A) : A := match m with Ok x => x | Panic _ => a end.

Definition demo_new : exec Term := term_new demo_config demo_size 0.
Definition demo_run : exec Term := t ← demo_new; handle_all demo_calls t.

Definition fresh_term : Term := Eval vm_compute in
  match demo_new with
  | Ok t => t
  | Panic _ => mkTerm false default_point None
      (mkGrid cursor_default cursor_default (mkStorage [] 0 0 0) 0 0 0 0)
      (mkGrid cursor_default cursor_default (mkStorage [] 0 0 0) 0 0 0 0)
      G0 [] 0 (mkLines 0 0) [] None [] None [] [] [] (mkDamage false [] default_point) demo_config 0
  end.
Definition demo : Term := Eval vm_compute in run_or fresh_term demo_run.

Lemma demo_new_ok : demo_new = Ok fresh_term.
Proof. vm_cast_no_check (eq_refl (Ok fresh_term)). Qed.

Lemma demo_run_ok : handle_all demo_calls fresh_term = Ok demo.
Proof. vm_cast_no_check (eq_refl (Ok demo)). Qed.

Lemma demo_size_ok : size_ok 3 6 4.
Proof. unfold size_ok, MIN_COLUMNS, MIN_SCREEN_LINES. lia. Qed.

(** Both terminals satisfy the invariant. *)
Lemma fresh_term_wf : term_wf (row_clean 6) 0 fresh_term.
Proof.
  pose proof (term_new_spec (row_clean 6) demo_config demo_size 0) as G.
  change (term_new demo_config demo_size 0) with demo_new in G. rewrite demo_new_ok in G.
  apply G; [apply row_pred_clean; simpl; lia|apply demo_size_ok].
Qed.

Lemma demo_wf : term_wf (row_clean 6) 36 demo.
Proof.
  pose proof (handle_all_safe (row_clean 6) demo_calls 0 fresh_term fresh_term_wf) as G.
  rewrite demo_run_ok in G. apply G; [done|]. repeat constructor.
Qed.
