(* ===== verification/Witnesses.v ===== *)
(** * The theorems at concrete inputs

    Each lemma applies one theorem of the development to the terminals of
    Demo.v, which shows that its hypotheses can hold and evaluates what it says. *)

From S2P Require Import Prelude Index Ansi GridCell Row Storage Cell Grid GridFacts GridOps.
From S2P Require Import Resize Selection Term TermFacts TermOps Handler HandlerFacts HandlerEdit.
From S2P Require Import HandlerSafe Session HandlerClaims TermClaims Demo.
#[local] Open Scope Z_scope.

(** ** Rows and the ring buffer *)

(** A row [a b _ _] with [occ = 2]. *)
Definition demo_row : Row Cell :=
  mkRow [with_c 97 default_cell; with_c 98 default_cell; default_cell; default_cell] 2.

Lemma row_reset_correct_witness :
  row_reset demo_row (with_bg (Named Red) default_cell)
    = Ok (blank_row 4 (with_bg (Named Red) default_cell)).
Proof.
  apply (row_reset_correct 4 demo_row (with_bg (Named Red) default_cell)); [lia|by split|].
  exists default_cell. intros i Hi. unfold row_len, zlen in Hi. simpl in Hi.
  assert (i = 2 ∨ i = 3) as [->| ->] by lia; reflexivity.
Defined.

Lemma row_shrink_lossless_witness :
  row_wf 1 (row_shrink demo_row 1).1 ∧ (row_shrink demo_row 1).2 = Some [with_c 98 default_cell].
Proof.
  pose proof (row_shrink_lossless 4 1 demo_row ltac:(by split) ltac:(lia)) as [W _].
  split; [exact W|reflexivity].
Defined.

(** A ring of four rows with its start at position 2, three of them active. *)
Definition letters (ch : char) : Row Cell := mkRow (replicate 2 (with_c ch default_cell)) 2.
Definition demo_ring : Storage Cell :=
  mkStorage [letters 97; letters 98; letters 99; letters 100] 2 2 3.

Lemma demo_ring_wf : storage_wf (row_wf 2) 2 demo_ring.
Proof.
  split; try (simpl; unfold zlen, MAX_CACHE_SIZE; simpl; lia).
  - apply row_pred_wf. lia.
  - repeat constructor; simpl; lia.
Qed.

Lemma compute_index_modular_witness : compute_index demo_ring (-1) = Ok 0.
Proof.
  destruct (compute_index_modular (row_wf 2) 2 demo_ring (-1) demo_ring_wf) as [E _];
    [simpl; lia|]. rewrite E. reflexivity.
Defined.


Lemma take_all_rows_witness :
  ∃ s', take_all demo_ring = Ok (s', [letters 99; letters 100; letters 97]).
Proof. eexists. apply (take_all_rows (row_wf 2) 2 demo_ring demo_ring_wf). Defined.

(** ** The grid *)

Lemma demo_grid_wf : clean_grid (t_grid demo).
Proof. apply (go_wf _ _ (tw_grid _ _ _ demo_wf)). Qed.

(** The characters of a line. *)
Definition line_text (g : Grid Cell) (l : Z) : list char :=
  match g_line g l with Some r => c <$> r_inner r | None => [] end.

Lemma scroll_up_moves_lines_witness :
  ∃ g', Grid.scroll_up (t_grid demo) 0 3 1 = Ok g' ∧ history_size g' = 1 ∧
    line_text g' (-1) = [97; 98; 20013; 32; 32; 32] ∧ line_text g' 0 = [120; 32; 32; 32; 32; 32].
Proof.
  destruct (scroll_up_moves_lines (t_grid demo) 3 1 demo_grid_wf) as (g' & E & _ & Hh & Hm & _);
    [lia|simpl; lia|]. assert (H1 : history_size g' = 1) by (rewrite Hh; reflexivity).
  exists g'. split; [exact E|]. split; [exact H1|].
  unfold line_text. rewrite !Hm by lia. split; reflexivity.
Defined.

Lemma scroll_up_region_moves_lines_witness :
  ∃ g', Grid.scroll_up (t_grid demo) 1 3 1 = Ok g' ∧ line_text g' 0 = [97; 98; 20013; 32; 32; 32] ∧
    line_text g' 1 = [32; 32; 32; 32; 32; 32].
Proof.
  destruct (scroll_up_region_moves_lines (t_grid demo) 1 3 1 demo_grid_wf)
    as (g' & E & _ & _ & Hm & _ & Hr); [simpl; lia..|]. exists g'. split; [exact E|].
  unfold line_text. rewrite (Hm 1) by lia.
  rewrite (Hr 0) by (unfold history_size, saturating_sub; simpl; lia). split; reflexivity.
Defined.

Lemma display_iter_enumerates_witness :
  ∃ it xs, display_iter (t_grid demo) = Ok it ∧
    iter_collect 19 (t_grid demo) it = Ok xs ∧ zlen xs = 18.
Proof.
  destruct (display_iter_enumerates (t_grid demo) demo_grid_wf) as (it & xs & E & _ & Hx & Hl & _);
    [unfold offset_ok; simpl; unfold history_size, saturating_sub; simpl; lia|].
  exists it, xs. split; [exact E|]. split; [exact Hx|exact Hl].
Defined.

Lemma clear_viewport_keeps_content_witness :
  ∃ g', clear_viewport (t_grid demo) = Ok g' ∧ line_text g' 0 = [32; 32; 32; 32; 32; 32].
Proof.
  destruct (clear_viewport_keeps_content (t_grid demo) demo_grid_wf)
    as (g' & n & E & _ & _ & _ & _ & _ & Hb). exists g'. split; [exact E|].
  unfold line_text. rewrite Hb by (simpl; lia). reflexivity.
Defined.

Lemma line_length_spec_witness : ∃ len, line_length demo_row = Ok len ∧ 0 ≤ len ≤ 4.
Proof.
  destruct (line_length_spec 4 demo_row ltac:(by split) ltac:(lia)) as (len & E & Hl & _).
  exists len. split; [exact E|exact Hl].
Defined.

(** ** The handler *)

(** The characters of the cursor's line. *)
Definition cursor_text (t : Term) : list char := line_text (t_grid t) (line (term_cursor t)).

Lemma demo_clean : clean_term 36 demo.
Proof. exact demo_wf. Qed.

Lemma goto_moves_cursor_witness :
  ∃ t', goto 1 3 demo = Ok t' ∧ term_cursor t' = mkPoint 1 3.
Proof.
  destruct (goto_moves_cursor 36 demo 1 3 demo_clean) as (t' & E & _ & _ & Hc & _); [lia..|].
  exists t'. split; [exact E|]. rewrite Hc. reflexivity.
Defined.

Lemma linefeed_behaviour_witness :
  ∃ t', linefeed demo = Ok t' ∧ term_cursor t' = mkPoint 2 1.
Proof.
  destruct (linefeed_behaviour 36 demo demo_clean) as (t' & E & _ & Hl); [simpl; lia|].
  exists t'. split; [exact E|]. apply Hl.
Defined.

Lemma save_restore_roundtrip_witness :
  ∃ t1 t2, goto 2 5 (save_cursor_position demo) = Ok t1 ∧
    restore_cursor_position (terminal_attribute Bold t1) = Ok t2 ∧
    cursor (t_grid t2) = cursor (t_grid demo).
Proof.
  destruct (save_restore_roundtrip 36 demo 2 5 Bold demo_clean)
    as (t1 & t2 & E1 & E2 & _ & Hc & _); [lia..|].
  exists t1, t2. split; [exact E1|]. split; [exact E2|exact Hc].
Defined.

Lemma input_writes_cell_witness :
  ∃ t', input 121 demo = Ok t' ∧ term_cursor t' = mkPoint 1 2 ∧
    g_cell (t_grid t') (mkPoint 1 1) = Some (with_c 121 default_cell).
Proof.
  destruct (input_writes_cell 36 demo 121 demo_clean) as (t' & cs & E & _ & Hcs & Hx & _ & Hc);
    [reflexivity..|]. injection Hcs as <-.
  exists t'. split; [exact E|]. split; [apply Hc|exact Hx].
Defined.

Lemma insert_blank_shifts_witness :
  ∃ t', insert_blank 2 (set_column 0 demo) = Ok t' ∧
    line_cell t' 2 = Some (with_c 120 default_cell).
Proof.
  assert (W : clean_term 36 (set_column 0 demo)).
  { apply set_column_wf; [exact demo_clean|simpl; lia]. }
  destruct (insert_blank_shifts 36 (set_column 0 demo) 2 W) as (t' & E & _ & [_ _ Hl] & _); [lia|].
  exists t'. split; [exact E|]. rewrite Hl by (simpl; lia). reflexivity.
Defined.

(** The cursor on the first line of [demo], behind the [a]. *)
Definition demo_top : Term := set_cursor_point (mkPoint 0 1) demo.

Lemma demo_top_clean : clean_term 36 demo_top.
Proof. apply set_cursor_point_wf; [exact demo_clean|split; simpl; lia]. Qed.

Lemma delete_chars_shifts_witness :
  ∃ t', delete_chars 1 demo_top = Ok t' ∧ line_cell t' 0 = line_cell demo_top 0 ∧
    line_cell t' 1 = line_cell demo_top 2.
Proof.
  destruct (delete_chars_shifts 36 demo_top 1 demo_top_clean) as (t' & E & _ & [_ _ Hl] & _);
    [lia|simpl; lia|].
  exists t'. split; [exact E|]. rewrite !Hl by (simpl; lia). split; reflexivity.
Defined.

Lemma erase_chars_blanks_witness :
  ∃ t', erase_chars 1 demo_top = Ok t' ∧ line_cell t' 1 = Some default_cell.
Proof.
  destruct (erase_chars_blanks 36 demo_top 1 demo_top_clean) as (t' & E & _ & [_ _ Hl] & _); [lia|].
  exists t'. split; [exact E|]. rewrite Hl by (simpl; lia). reflexivity.
Defined.

Lemma clear_line_blanks_witness :
  ∃ t', clear_line LineRight demo_top = Ok t' ∧ line_cell t' 0 = line_cell demo_top 0 ∧
    line_cell t' 1 = Some default_cell.
Proof.
  destruct (clear_line_blanks 36 demo_top LineRight demo_top_clean) as (t' & E & _ & [_ _ Hl] & _).
  exists t'. split; [exact E|]. rewrite !Hl by (simpl; lia). split; reflexivity.
Defined.

Lemma clear_below_blanks_witness :
  ∃ t', clear_screen ClearBelow demo_top = Ok t' ∧
    g_cell (t_grid t') (mkPoint 1 0) = Some default_cell.
Proof.
  destruct (clear_below_blanks 36 demo_top demo_top_clean) as (t' & E & _ & _ & Hp).
  exists t'. split; [exact E|]. apply (Hp (mkPoint 1 0)). split; simpl; lia.
Defined.

Lemma clear_above_blanks_witness :
  ∃ t', clear_screen ClearAbove demo = Ok t' ∧
    g_cell (t_grid t') (mkPoint 1 0) = Some default_cell ∧
    g_cell (t_grid t') (mkPoint 0 0) = Some (with_c 97 default_cell).
Proof.
  destruct (clear_above_blanks 36 demo demo_clean) as (t' & E & _ & _ & Hp).
  exists t'. split; [exact E|]. split; [apply (Hp (mkPoint 1 0))|apply (Hp (mkPoint 0 0))];
    split; simpl; lia.
Defined.

Lemma clear_all_and_saved_witness :
  ∃ t', clear_screen ClearAll demo = Ok t' ∧
    g_cell (t_grid t') (mkPoint 0 0) = Some default_cell.
Proof.
  destruct (clear_all_and_saved 36 demo demo_clean) as [(t' & E & _ & _ & _ & Hp) _].
  exists t'. split; [exact E|]. apply (Hp (mkPoint 0 0)). split; simpl; lia.
Defined.

Lemma move_tabs_stops_witness :
  ∃ t', move_forward_tabs 1 demo = Ok t' ∧ term_cursor t' = mkPoint 1 5.
Proof.
  destruct (move_tabs_stops 36 demo 1 demo_clean) as [(t' & E & _ & _ & Hc) _].
  exists t'. split; [exact E|exact Hc].
Defined.

Lemma mouse_modes_exclusive_witness :
  ∃ t', set_private_mode (PrivateNamed ReportMouseClicks) demo = Ok t' ∧
    Z.land (t_mode t') TermMode.MOUSE_MODE = TermMode.MOUSE_REPORT_CLICK.
Proof.
  destruct (mouse_modes_exclusive demo ReportMouseClicks TermMode.MOUSE_REPORT_CLICK eq_refl)
    as (t' & E & Hm & _). exists t'. split; [exact E|exact Hm].
Defined.

Lemma keyboard_push_pop_witness :
  ∃ t1, push_keyboard_mode 3 demo = Ok t1 ∧
    t_keyboard_mode_stack (pop_keyboard_modes 1 t1) = [].
Proof.
  destruct (keyboard_push_pop demo 3 eq_refl) as (t1 & E & _ & Hs & _); [reflexivity|].
  exists t1. split; [exact E|exact Hs].
Defined.

Lemma title_push_pop_witness :
  ∃ t1, push_title demo = Ok t1 ∧ t_title (pop_title (set_title (Some [97]) t1)) = None.
Proof.
  destruct (title_push_pop demo (Some [97])) as (t1 & E & _ & Ht & _); [done|].
  exists t1. split; [exact E|exact Ht].
Defined.

(** ** Sessions and display *)

Lemma demo_session : session demo_config demo_size 0 0 fresh_term.
Proof. apply session_new. exact demo_new_ok. Qed.


Lemma session_invariant_witness : in_screen fresh_term (term_cursor fresh_term).
Proof.
  apply (session_invariant demo_config demo_size 0 0 fresh_term);
    [exact demo_size_ok|unfold session_budget; simpl; lia|exact demo_session].
Defined.

Lemma term_new_blank_witness :
  ∃ t, term_new demo_config demo_size 0 = Ok t ∧ term_cursor t = mkPoint 0 0.
Proof.
  destruct (term_new_blank demo_config demo_size 0) as (t & E & _ & _ & _ & _ & Hc & _);
    [exact demo_size_ok|]. exists t. split; [exact E|exact Hc].
Defined.

Lemma reset_state_resets_witness :
  ∃ t', reset_state demo = Ok t' ∧ g_cell (t_grid t') (mkPoint 0 0) = Some default_cell.
Proof.
  destruct (reset_state_resets 36 demo demo_clean)
    as (t' & E & _ & _ & _ & _ & _ & _ & _ & _ & _ & _ & _ & _ & Hp).
  exists t'. split; [exact E|]. apply Hp. split; simpl; lia.
Defined.

(** [demo] with one line in the scrollback. *)
Definition demo_history : Term := Eval vm_compute in run_or fresh_term (Handler.scroll_up 1 demo).

Lemma demo_history_clean : clean_term 39 demo_history.
Proof.
  pose proof (scroll_up_spec (row_clean 6) 36 demo 1 demo_wf) as G.
  replace (Handler.scroll_up 1 demo) with (Ok demo_history) in G
    by (vm_cast_no_check (eq_refl (Ok demo_history))).
  destruct G as (W & _); [simpl; lia|lia|exact W].
Qed.

Lemma demo_history_offset : offset_ok (t_grid demo_history).
Proof. unfold offset_ok, history_size, saturating_sub. simpl. lia. Qed.

Lemma scroll_display_clamps_witness :
  ∃ t', term_scroll_display (Delta 7) demo_history = Ok t' ∧ display_offset (t_grid t') = 1.
Proof.
  destruct (scroll_display_clamps 39 demo_history (Delta 7) demo_history_clean demo_history_offset)
    as (t' & E & _ & Ho & _); [intros ? [= <-]; lia|].
  exists t'. split; [exact E|]. rewrite Ho. reflexivity.
Defined.

Lemma goto_point_visible_witness :
  ∃ t', vi_goto_point (mkPoint (-1) 0) demo_history = Ok t' ∧
    t_vi_mode_cursor t' = mkPoint (-1) 0.
Proof.
  destruct (goto_point_visible 39 demo_history (mkPoint (-1) 0) demo_history_clean
    demo_history_offset) as [_ (t' & E & _ & _ & Hv)].
  { split; unfold top_of, history_size, saturating_sub; simpl; lia. }
  exists t'. split; [exact E|exact Hv].
Defined.

Lemma damage_complete_witness :
  ∃ t' dmg, collect_damage (reset_damage demo) = Ok (t', dmg) ∧
    reported (reset_damage demo) dmg (mkPoint 1 1).
Proof.
  destruct (damage_complete 36 demo demo_clean) as [_ [W _]].
  destruct (damage_complete 36 (reset_damage demo) W) as [(t' & dmg & E & _ & _ & _ & Hp) _].
  exists t', dmg. split; [exact E|]. apply Hp; [split; simpl; lia|simpl; lia|].
  right; right. reflexivity.
Defined.

Lemma set_options_applies_witness :
  ∃ t', set_options config_default demo = Ok t' ∧ t_keyboard_mode_stack t' = [].
Proof.
  destruct (set_options_applies 36 demo config_default demo_clean)
    as (t' & E & _ & _ & _ & _ & Hk); [simpl; lia..|].
  exists t'. split; [exact E|]. apply Hk. discriminate.
Defined.

Lemma viewport_roundtrip_witness :
  ∃ q, viewport_to_point 2 (mkPoint 1 4) = Ok q ∧ point_to_viewport 2 q = Ok (Some (mkPoint 1 4)).
Proof.
  destruct (viewport_roundtrip 2 (mkPoint 1 4)) as (q & E & _ & Hq); [lia|simpl; lia|].
  exists q. split; [exact E|exact Hq].
Defined.

Lemma line_edits_refine_witness :
  ∃ t', run_line_op (DeleteCharsOp 5) demo_top = Ok t' ∧ line_cell t' 0 = Some (with_c 97 default_cell) ∧
    line_cell t' 1 = Some default_cell.
Proof.
  destruct (line_edits_refine 36 demo_top (DeleteCharsOp 5) demo_top_clean) as (t' & E & _ & [_ _ Hl] & _);
    [simpl; lia|].
  exists t'. split; [exact E|]. split; rewrite Hl by (simpl; lia); reflexivity.
Defined.

Lemma clear_screen_cells_witness :
  ∃ t', clear_screen ClearBelow demo_top = Ok t' ∧
    g_cell (t_grid t') (mkPoint 0 0) = Some (with_c 97 default_cell) ∧
    g_cell (t_grid t') (mkPoint 1 0) = Some default_cell.
Proof.
  destruct (clear_screen_cells 36 demo_top ClearBelow demo_top_clean) as (t' & E & _ & _ & _ & Hp).
  exists t'. split; [exact E|]. split; [apply (Hp (mkPoint 0 0))|apply (Hp (mkPoint 1 0))];
    split; simpl; lia.
Defined.
