(* ===== verification/DisplayClaims.v ===== *)
(** * What updates of the display keep in step

    The theorems about the sizes, frames and updates of DisplaySize.v and DisplayState.v. *)

From S2P Require Import Prelude Index Ansi GridCell Row Storage Cell Grid Resize Selection Term Search RegexSearch.
From S2P Require Import Hints Scheduler EventLoop FrameDamage Shortener MessageBar Keyboard ActionContext DisplaySize DisplayState.
From S2P Require Import TermOps Demo.
#[local] Open Scope Z_scope.

Module DisplayClaims.
Import Scheduler FrameDamage ActionContext DisplaySize DisplayState.

(** ** Sizes *)

(** Twice the padding of one direction. *)
Definition double_padding (dynamic : bool) (padding dimension cell : Z) : Z :=
  if dynamic then dynamic_padding padding dimension cell else 2 * padding.

Lemma double_padding_spec dynamic padding dimension cell :
  1 ≤ cell → 0 ≤ padding → 2 * padding ≤ dimension →
  let n := (dimension - 2 * padding) / cell in
  let rest := (dimension - 2 * padding) mod cell in
  double_padding dynamic padding dimension cell = (if dynamic then 2 * padding + rest else 2 * padding) ∧
  Z.quot (dimension - double_padding dynamic padding dimension cell) cell = n ∧
  0 ≤ n ≤ dimension ∧ dimension = 2 * padding + n * cell + rest ∧ 0 ≤ rest < cell.
Proof.
  intros Hc Hp Hd. cbv zeta. divmod (dimension - 2 * padding) cell.
  set (n := (dimension - 2 * padding) / cell) in *. set (rest := (dimension - 2 * padding) mod cell) in *.
  assert (Hn : 0 ≤ n) by (apply Z.div_pos; lia).
  assert (Hr : Z.rem (dimension - 2 * padding) cell = rest) by (apply Z.rem_mod_nonneg; lia).
  unfold double_padding, dynamic_padding. rewrite Hr. split; [done|]. split; [|split_and!; nia].
  destruct dynamic; rewrite Z.quot_div_nonneg by lia; [|done].
  symmetry. apply (Z.div_unique _ _ _ 0); lia.
Qed.

Lemma size_columns width height cw ch px py dynamic :
  si_columns (size_new width height cw ch px py dynamic) =
    Z.max (float_as_usize (Z.quot (width - double_padding dynamic px width cw) cw)) MIN_COLUMNS ∧
  si_screen_lines (size_new width height cw ch px py dynamic) =
    Z.max (float_as_usize (Z.quot (height - double_padding dynamic py height ch) ch)) MIN_SCREEN_LINES ∧
  si_padding_x (size_new width height cw ch px py dynamic) = double_padding dynamic px width cw / 2 ∧
  si_padding_y (size_new width height cw ch px py dynamic) = double_padding dynamic py height ch / 2.
Proof. by split_and!. Qed.

Lemma float_as_usize_id z : 0 ≤ z ≤ 16777216 → float_as_usize z = z.
Proof. unfold float_as_usize, usize_max. lia. Qed.

(** The numbers of cells and the padding that one direction gets. *)
Definition fits_exactly (dynamic : bool) (least padding dimension cell count pad : Z) : Prop :=
  count = Z.max least ((dimension - 2 * padding) / cell) ∧ padding ≤ pad ∧
  (least ≤ (dimension - 2 * padding) / cell →
    2 * pad + count * cell ≤ dimension ∧ dimension < 2 * pad + (count + 1) * cell ∧
    (dynamic = true → dimension ≤ 2 * pad + count * cell + 1)).

Lemma fits_exactly_spec dynamic least padding dimension cell :
  1 ≤ cell → 0 ≤ padding → 2 * padding ≤ dimension ≤ 16777216 → 1 ≤ least →
  fits_exactly dynamic least padding dimension cell
    (Z.max (float_as_usize (Z.quot (dimension - double_padding dynamic padding dimension cell) cell)) least)
    (double_padding dynamic padding dimension cell / 2).
Proof.
  intros Hc Hp Hd Hl. destruct (double_padding_spec dynamic padding dimension cell) as (E & Hq & Hn & Hdim & Hr); [lia..|].
  rewrite Hq, E, float_as_usize_id by lia. set (n := (dimension - 2 * padding) / cell) in *.
  set (rest := (dimension - 2 * padding) mod cell) in *. unfold fits_exactly. fold n.
  divmod (2 * padding + rest) 2. divmod (2 * padding) 2.
  destruct dynamic; split_and!; try lia; intros; split_and!; intros; nia.
Qed.

(** A window is divided into as many cells as fit.  The numbers of lines and columns are
    those of whole cells between the paddings, dynamic padding or not, and at least the
    smallest screen; the cells with the padding on both sides are inside of the window, no
    further cell would fit, and with dynamic padding the content is in the middle, up to
    one pixel. *)
Lemma size_info_fits (width height cw ch px py : Z) (dynamic : bool) :
  1 ≤ cw → 1 ≤ ch → 0 ≤ px → 0 ≤ py → 2 * px ≤ width ≤ 16777216 → 2 * py ≤ height ≤ 16777216 →
  let si := size_new width height cw ch px py dynamic in
  fits_exactly dynamic MIN_COLUMNS px width cw (columns si) (si_padding_x si) ∧
  fits_exactly dynamic MIN_SCREEN_LINES py height ch (screen_lines si) (si_padding_y si).
Proof.
  intros Hcw Hch Hpx Hpy Hw Hh. cbv zeta. cbn [columns screen_lines SizeInfo_dimensions].
  destruct (size_columns width height cw ch px py dynamic) as (-> & -> & -> & ->).
  split; apply fits_exactly_spec; unfold MIN_COLUMNS, MIN_SCREEN_LINES; lia.
Qed.

(** A window made for a number of lines and columns has them.  [SizeInfo::new] on the
    result of [window_size] gives back the dimensions asked for, and the configured
    padding. *)
Lemma window_size_roundtrip (cols lines cw ch px py : Z) (dynamic : bool) :
  1 ≤ cw → 1 ≤ ch → 0 ≤ px → 0 ≤ py → 0 ≤ cols → 0 ≤ lines →
  2 * px + cw * Z.max cols MIN_COLUMNS ≤ 16777216 → 2 * py + ch * Z.max lines MIN_SCREEN_LINES ≤ 16777216 →
  let '(w, h) := window_size cols lines cw ch px py in
  let si := size_new w h cw ch px py dynamic in
  columns si = Z.max cols MIN_COLUMNS ∧ screen_lines si = Z.max lines MIN_SCREEN_LINES ∧
  si_padding_x si = px ∧ si_padding_y si = py.
Proof.
  intros Hcw Hch Hpx Hpy Hc Hl Bw Bh. unfold window_size.
  assert (Hone : ∀ cell padding n, 1 ≤ cell → 0 ≤ padding → 1 ≤ n → 2 * padding + cell * n ≤ 16777216 →
    float_as_usize (Z.quot (2 * padding + cell * n - double_padding dynamic padding (2 * padding + cell * n) cell) cell) = n ∧
    double_padding dynamic padding (2 * padding + cell * n) cell / 2 = padding).
  { intros cell padding n H1 H2 H3 H4. destruct (double_padding_spec dynamic padding (2 * padding + cell * n) cell) as (E & Hq & Hb & _); [nia..|].
    replace (2 * padding + cell * n - 2 * padding) with (n * cell) in * by lia. rewrite Z.mod_mul in E by lia. rewrite Z.div_mul in Hq, Hb by lia.
    rewrite Hq, E, float_as_usize_id by lia. split; [done|]. destruct dynamic; rewrite ?Z.add_0_r, Z.mul_comm, Z.div_mul by lia; done. }
  unfold MIN_COLUMNS, MIN_SCREEN_LINES in *.
  assert (Hu : ∀ z, 0 ≤ z ≤ 16777216 → float_as_u32 z = z) by (intros; unfold float_as_u32; lia).
  rewrite !Hu by nia. set (w := 2 * px + _) in *. set (h := 2 * py + _) in *. cbv zeta. cbn [columns screen_lines SizeInfo_dimensions].
  destruct (size_columns w h cw ch px py dynamic) as (-> & -> & -> & ->). unfold MIN_COLUMNS, MIN_SCREEN_LINES.
  destruct (Hone cw px (Z.max cols 2)) as [E1 E2]; [lia..|]. destruct (Hone ch py (Z.max lines 1)) as [E3 E4]; [lia..|].
  fold w in E1, E2. fold h in E3, E4. rewrite E1, E2, E3, E4. lia.
Qed.

(** ** Frames *)

(** Frames are aligned to the base, up to the microseconds that the code computes with. *)
Definition timer_ok (ft : FrameTimer) : Prop :=
  ft_base ft ≤ ft_last_synced ft ∧
  (0 < ft_refresh ft → (ft_last_synced ft - ft_base ft) mod ft_refresh ft < 1000).

(** Frames keep the pace of the monitor.  If the last frame is not in the future, the
    delay before the next one is at most one refresh interval; the frame is due at the next
    tick of the interval, or at once when that tick has passed, and then the following tick
    is ahead again.  Ticks stay multiples of the interval behind the base, so no drift
    builds up. *)
Lemma frame_timer_paces (ft : FrameTimer) (now r : Z) :
  timer_ok ft → 1 ≤ r → ft_last_synced ft ≤ now → now - ft_base ft ≤ usize_max → r ≤ usize_max →
  ∃ timeout ft', compute_timeout now (1000 * r) ft = Ok (timeout, ft') ∧
    timer_ok ft' ∧ ft_refresh ft' = 1000 * r ∧ 0 ≤ timeout ≤ 1000 * r ∧
    ft_last_synced ft' ≤ now + timeout ∧ now < ft_last_synced ft' + 1000 * r ∧
    (ft_refresh ft = 1000 * r →
      if decide (ft_last_synced ft + 1000 * r < now) then timeout = 0
      else ft_last_synced ft' = ft_last_synced ft + 1000 * r ∧ now + timeout = ft_last_synced ft').
Proof.
  intros [Hb Hs] Hr Hl Hn Hru. unfold compute_timeout. destruct (Z.eqb_spec (ft_refresh ft) (1000 * r)) as [E|E]; cbn [negb].
  - rewrite E in *. specialize (Hs ltac:(lia)). destruct (Z.ltb_spec (ft_last_synced ft + 1000 * r) now) as [L|L]; cbv zeta.
    + set (e := now - ft_base ft) in *. rewrite Z.max_r by lia.
      assert (He : as_micros e = e / 1000).
      { unfold as_micros. apply Z.mod_small. divmod e 1000. lia. }
      assert (Hrm : as_micros (1000 * r) = r).
      { unfold as_micros. rewrite Z.mul_comm, Z.div_mul by lia. apply Z.mod_small. lia. }
      rewrite He, Hrm. unfold usize_rem. destruct (Z.eqb_spec r 0); [lia|]. cbn [mbind mret exec_bind exec_ret].
      eexists _, _. split; [done|]. divmod e 1000. divmod (e / 1000) r.
      assert (Hq : 0 ≤ e / 1000 / r) by (apply Z.div_pos; [apply Z.div_pos|]; lia).
      set (late := (e / 1000) mod r) in *. set (q := e / 1000 / r) in *. cbn [ft_last_synced ft_refresh ft_base].
      split_and!; try lia; [|by rewrite decide_True].
      split; cbn [ft_last_synced ft_refresh ft_base]; [nia|]. intros _.
      replace (now - 1000 * late - ft_base ft) with (e mod 1000 + q * (1000 * r)) by (unfold e in *; nia).
      rewrite Z.mod_add by lia. rewrite Z.mod_small by lia. lia.
    + cbn [mret exec_ret]. eexists _, _. split; [done|]. cbn [ft_last_synced ft_refresh ft_base].
      split_and!; try lia; [|rewrite decide_False by lia; lia].
      split; cbn [ft_last_synced ft_refresh ft_base]; [lia|]. intros _.
      replace (ft_last_synced ft + 1000 * r - ft_base ft) with (ft_last_synced ft - ft_base ft + 1 * (1000 * r)) by lia.
      by rewrite Z.mod_add by lia.
  - cbn [mret exec_ret]. eexists _, _. split; [done|]. cbn [ft_last_synced ft_refresh ft_base].
    split_and!; try lia. split; cbn [ft_last_synced ft_refresh ft_base]; [lia|]. intros _. rewrite Z.sub_diag, Z.mod_0_l; lia.
Qed.

(** ** Updates *)

Section updates.
Context `{Ansi} {Font : Type} (font_cells : Font → Z * Z) (width : Z → option Z).
Context (cfg : WindowConfig) (buffer : MessageBar.MessageBuffer).
Implicit Types (d : Display Font) (t : Term) (ss : SearchState).

(** The terminal, the size of the display and its damage tracker have the same lines and
    columns. *)
Record in_step d t : Prop := {
  is_lines : screen_lines t = screen_lines (d_size d);
  is_columns : columns t = columns (d_size d);
  is_tracker : dt_screen_lines (d_tracker d) = screen_lines (d_size d) ∧ dt_columns (d_tracker d) = columns (d_size d);
  is_frames : lines_ok (screen_lines (d_size d)) (columns (d_size d)) (f_lines (frame (d_tracker d))) ∧
    lines_ok (screen_lines (d_size d)) (columns (d_size d)) (f_lines (next_frame (d_tracker d))) }.

Lemma updated_size_least ss old u :
  wlp (updated_size font_cells width cfg buffer ss old u) (λ si, 1 ≤ screen_lines si ∧ 2 ≤ columns si).
Proof.
  unfold updated_size. destruct (match du_font u with Some _ => _ | None => _ end) as [cw ch].
  destruct (default _ _) as [w h]. destruct (cfg_padding cfg) as [px py]. cbv zeta.
  apply wlp_bind, wlp_any. intros n. apply wlp_bind, wlp_any. intros count. apply wlp_ret.
  unfold reserve_lines, size_new, MIN_SCREEN_LINES, MIN_COLUMNS. simpl. lia.
Qed.

Definition same_cells (si si' : SizeInfo) : Prop := screen_lines si = screen_lines si' ∧ columns si = columns si'.
#[local] Instance same_cells_dec si si' : Decision (same_cells si si').
Proof. unfold same_cells. apply _. Defined.

End updates.

(** ** A window of six columns that gets wider *)

Definition demo_display : Display unit :=
  mkDisplay (mkWindow IconText true true None) (mkSizeInfo 60 60 10 20 0 0 3 6) (set_dimensions (80, 60) update_default)
    None (tracker_new 3 6) (mkHighlights None 0 None 0 None) (frame_timer_new 0).
Definition demo_cfg : WindowConfig := mkWindowConfig (0, 0) true false.
Definition demo_update := handle_update (λ _, (10, 20)) (λ _, Some 1) demo_cfg (MessageBar.mkBuffer []) demo_display fresh_term [] search_default.

End DisplayClaims.
