(* ===== verification/SearchClaims.v ===== *)
(** * What searches find and selections cover

    The theorems about the searches of Search.v and the selections of
    Selection.v. *)

From S2P Require Import Prelude Index Ansi GridCell Row Storage Cell Grid GridFacts GridOps.
From S2P Require Import Resize Selection Term TermFacts TermOps Handler HandlerFacts HandlerEdit.
From S2P Require Import HandlerSafe Session HandlerClaims Search SearchFacts Demo.
From S2P Require Import Witnesses.
#[local] Open Scope Z_scope.

Section claims.
Context `{AnsiLaws}.
Implicit Types (t : Term) (p : Point).

(** C26: the bracket search returns the bracket that closes the one under the
    cursor: the first cell, in the direction of the bracket, that holds its
    counterpart at nesting depth zero; it returns nothing on a cell without a
    bracket and when no such cell exists.  It terminates in every case. *)
Theorem bracket_search_matches (B : Z) t p :
  clean_term B t → in_grid (t_grid t) p → total_lines t * columns t ≤ 2147483647 →
  ∃ x r, g_cell (t_grid t) p = Some x ∧ bracket_search t p = Ok r ∧
    match find_bracket BRACKET_PAIRS (c x) with
    | None => r = None
    | Some (forward, other) =>
        let step := if (forward : bool) then 1 else -1 in
        let closing := closes t (linear t p) step (c x) other in
        match r with
        | Some q => in_grid (t_grid t) q ∧ ∃ n, linear t q = linear t p + step * Z.of_nat n ∧
            closing n ∧ ∀ m, (m < n)%nat → ¬ closing m
        | None => ∀ m, (∃ q, in_grid (t_grid t) q ∧ linear t q = linear t p + step * Z.of_nat m) →
            ¬ closing m
        end
    end.
Proof.
  intros W Hp Htot. pose proof (bracket_search_spec _ B t p W Hp Htot) as G.
  apply wp_exists in G as (r & Er & x & Hx & Hr). by exists x, r.
Qed.

(** [line_search_left] and [line_search_right] return the ends of the
    logical line: all lines in between are wrapped, and the line in front of the
    start and the last line are not, or are the ends of the buffer. *)
Theorem line_search_bounds (B : Z) t p :
  clean_term B t → top_of t ≤ line p < screen_lines t →
  ∃ a b, line_search_left t p = Ok (mkPoint a 0) ∧
    line_search_right t p = Ok (mkPoint b (columns t - 1)) ∧
    top_of t ≤ a ≤ line p ∧ line p ≤ b < screen_lines t ∧
    (∀ m, a ≤ m < b → wrapped t m = true) ∧
    (top_of t < a → wrapped t (a - 1) = false) ∧ (b < screen_lines t - 1 → wrapped t b = false).
Proof.
  intros W Hl. destruct (line_fuel_enough _ B t (line p) W Hl) as [F1 F2].
  pose proof (line_left_loop_spec _ B (line_fuel t) t (line p) W Hl F1) as G.
  apply wp_exists in G as (a & Ea & Ha & Hwa & Hsa).
  pose proof (line_right_loop_spec _ B (line_fuel t) t (line p) W Hl F2) as G.
  apply wp_exists in G as (b & Eb & Hb & Hwb & Hsb). exists a, b.
  unfold line_search_left, line_search_right. rewrite Ea, Eb. cbn [mbind exec_bind].
  rewrite last_column_ok by by apply (term_dims (row_clean (columns t)) B).
  split_and!; try done; try lia. intros m Hm.
  destruct (Z.lt_ge_cases m (line p)); [apply Hwa|apply Hwb]; lia.
Qed.

(** A simple selection that is not empty covers exactly the cells between
    its anchors in reading order, the first or last cell left out when the
    anchor is on the far side of it. *)
Theorem simple_selection_covers {D} `{Dimensions D} (d : D) (s : Selection) (a b : Anchor) :
  dims_ok d → ty s = Simple → in_grid d (a_point a) → in_grid d (a_point b) →
  linear d (a_point a) ≤ linear d (a_point b) → selection_is_empty s = Ok false →
  ∃ r, range_simple s a b (columns d) = Ok (Some r) ∧
    simple_first d a b ≤ simple_last d a b ∧
    ∀ p, 0 ≤ column p < columns d →
      range_contains r p = true ↔ simple_first d a b ≤ linear d p ≤ simple_last d a b.
Proof.
  intros Hd Hty Ha Hb Hab Hne. pose proof (range_simple_linear d Hd s a b Hty Ha Hb Hab Hne) as G.
  apply wp_exists in G as (o & E & r & -> & Hblock & Hs & He & Hsc & Hec & Hle).
  exists r. split; [done|]. split; [done|]. intros p Hp.
  rewrite (range_contains_linear d) by done. by rewrite Hs, He.
Qed.

(** A selection follows the content: when the region that contains both of
    its ends scrolls and they stay inside, both anchors move by the same number
    of lines, with their columns, sides and order; a selection outside of the
    region stays where it is. *)
Theorem rotate_follows_content {D} `{Dimensions D} (d : D) (s : Selection) (top bottom delta : Z) :
  dims_ok d → 0 ≤ top → bottom ≤ 536870912 →
  let start := line (a_point (region_start s)) in
  let end_ := line (a_point (region_end s)) in
  let outside l := (l < top ∧ top ≠ 0) ∨ bottom ≤ l in
  (moves_within d top bottom delta start → moves_within d top bottom delta end_ →
   selection_rotate s d top bottom delta = Ok (Some (shift_selection delta s))) ∧
  (outside start → outside end_ → selection_rotate s d top bottom delta = Ok (Some s)).
Proof.
  intros Hd Ht Hb start end_ outside. split.
  - intros. by apply rotate_within.
  - intros. by apply rotate_outside.
Qed.
End claims.

(** ** Concrete inputs *)

(** A line [(a)] typed into a fresh terminal. *)
Definition bracket_term : Term := Eval vm_compute in
  run_or fresh_term (handle_all [Input 40; Input 97; Input 41] fresh_term).

Lemma bracket_term_clean : clean_term 18 bracket_term.
Proof.
  pose proof (handle_all_safe (row_clean 6) [Input 40; Input 97; Input 41] 0 fresh_term
    fresh_term_wf) as G.
  replace (handle_all [Input 40; Input 97; Input 41] fresh_term) with (Ok bracket_term) in G
    by (vm_cast_no_check (eq_refl (Ok bracket_term))).
  apply G; [done|]. repeat constructor.
Qed.

Lemma bracket_search_matches_witness :
  bracket_search bracket_term (mkPoint 0 0) = Ok (Some (mkPoint 0 2)) ∧
  closes bracket_term 0 1 40 41 2.
Proof.
  destruct (bracket_search_matches 18 bracket_term (mkPoint 0 0) bracket_term_clean)
    as (x & r & Hx & E & Hr);
    [split; unfold top_of; simpl; lia|simpl; lia|].
  injection Hx as <-. assert (E' : bracket_search bracket_term (mkPoint 0 0)
    = Ok (Some (mkPoint 0 2))) by (vm_compute; reflexivity).
  rewrite E' in E. injection E as <-. split; [exact E'|].
  destruct Hr as (_ & n & Hn & Hc & _). unfold linear in Hn. simpl in Hn.
  assert (n = 2%nat) as -> by lia. exact Hc.
Defined.

Lemma line_search_bounds_witness :
  ∃ a b, line_search_left bracket_term (mkPoint 1 3) = Ok (mkPoint a 0) ∧
    line_search_right bracket_term (mkPoint 1 3) = Ok (mkPoint b 5) ∧ 0 ≤ a ≤ 1 ∧ 1 ≤ b < 3.
Proof.
  destruct (line_search_bounds 18 bracket_term (mkPoint 1 3) bracket_term_clean)
    as (a & b & Ea & Eb & Ha & Hb & _); [unfold top_of; simpl; lia|].
  exists a, b. split; [exact Ea|]. split; [exact Eb|]. split; [exact Ha|exact Hb].
Defined.

(** From the right half of (0, 4) to the left half of (1, 1). *)
Definition demo_selection : Selection :=
  mkSelection Simple (mkAnchor (mkPoint 0 4) Right) (mkAnchor (mkPoint 1 1) Left).

Lemma simple_selection_covers_witness :
  ∃ r, range_simple demo_selection (region_start demo_selection) (region_end demo_selection) 6
         = Ok (Some r) ∧ range_contains r (mkPoint 0 5) = true ∧
    range_contains r (mkPoint 1 0) = true ∧ range_contains r (mkPoint 1 1) = false.
Proof.
  destruct (simple_selection_covers demo_size demo_selection (region_start demo_selection)
    (region_end demo_selection)) as (r & E & _ & Hr);
    [by split_and!|reflexivity|split; unfold top_of; simpl; lia..|unfold linear; simpl; lia|
     vm_compute; reflexivity|].
  exists r. split; [exact E|].
  assert (Hf : simple_first demo_size (region_start demo_selection) (region_end demo_selection) = 5 ∧
    simple_last demo_size (region_start demo_selection) (region_end demo_selection) = 6)
    by (split; vm_compute; reflexivity). destruct Hf as [Hf Hl].
  split; [|split]; [apply Hr..|apply not_true_is_false; rewrite Hr];
    rewrite ?Hf, ?Hl; unfold linear; simpl; lia.
Defined.

Lemma rotate_follows_content_witness :
  selection_rotate demo_selection demo_size 0 3 1
    = Ok (Some (mkSelection Simple (mkAnchor (mkPoint (-1) 4) Right) (mkAnchor (mkPoint 0 1) Left))).
Proof.
  apply (rotate_follows_content demo_size demo_selection 0 3 1);
    [by split_and!|lia|lia|unfold moves_within; simpl; lia..].
Defined.
