(* ===== verification/ViClaims.v ===== *)
(** * What the motions of vi mode do

    The theorems about the motions of ViMode.v. *)

From S2P Require Import Prelude Index Ansi GridCell Row Storage Cell Grid GridFacts GridOps.
From S2P Require Import Resize Selection Term TermFacts TermOps Handler HandlerFacts HandlerEdit HandlerSafe Session HandlerClaims.
From S2P Require Import Search SearchFacts ViMode ViFacts Demo Witnesses.
#[local] Open Scope Z_scope.

Section motions.
Context `{AnsiLaws} (R : Row Cell → Prop) (B : Z) (t : Term).
Context (W : TermFacts.term_wf R B t) (Hs : vi_safe t) (Ho : offset_ok (t_grid t)).
Implicit Types (p q : Point).
#[local] Abbreviation in_grid p := (Index.in_grid (t_grid t) p).

(** The target of [High], [Middle] and [Low] is on line [l]. *)
Lemma line_start_wp l :
  top_of t ≤ l < screen_lines t →
  wp (o ← first_occupied_in_line t l; mret (mkPoint l (column_or_default o))) (λ q, in_grid q).
Proof using W.
  intros Hl. pose proof (term_bounds R B t W) as Hb. wp_step. wp_use (first_in_line_wp R B t W); [done|].
  intros o Hq. apply wp_ret. unfold column_or_default. destruct o as [q|]; simpl.
  - destruct (Hq q eq_refl) as [[_ Hc] _]. by split.
  - split; [done|simpl in *; lia].
Qed.

Lemma motion_target_wp p (m : ViMotion) :
  in_grid p → (m = ViMiddle → 2 ≤ screen_lines t) → total_lines t * columns t ≤ 2147483647 →
  wp (motion_target t p m) (λ q, in_grid q).
Proof using W Hs Ho.
  intros Hp Hmid Htot. pose proof (term_bounds R B t W) as Hb. pose proof (term_dims R B t W) as Hd. pose proof Hp as [Hl Hc].
  pose proof (grid_history R _ (go_wf _ _ (tw_grid _ _ _ W))) as Hh. unfold offset_ok in Ho.
  assert (Hlast : last_column t = Ok (columns t - 1)) by by rewrite last_column_ok.
  assert (Htop : topmost_line t = Ok (top_of t)) by by rewrite topmost_line_ok.
  assert (Hhist : top_of t = - history_size (t_grid t)) by (rewrite history_size_eq by (apply (grid_dims R), W); unfold top_of; simpl; lia).
  change (top_of (t_grid t)) with (top_of t) in Hl. change (screen_lines (t_grid t)) with (screen_lines t) in Hl.
  change (columns (t_grid t)) with (columns t) in Hc. change (g_lines (t_grid t)) with (screen_lines t) in *.
  change (g_columns (t_grid t)) with (columns t) in *.
  assert (Htl : -536870912 ≤ top_of t ≤ 0) by (unfold top_of; simpl in *; lia).
  assert (Hat : ∀ l col, top_of t ≤ l < screen_lines t → 0 ≤ col < columns t → in_grid (mkPoint l col)) by (intros; by split).
  destruct m; cbn [motion_target]; rewrite ?Htop; cbn [mbind exec_bind].
  - apply wp_if; intros E; [|by apply wp_ret]. wp_step. wp_step. apply wp_ret. apply Hat; lia.
  - wp_step. wp_step. casts. apply wp_if; intros E; [|by apply wp_ret]. apply wp_ret. apply Hat; lia.
  - wp_step. wp_use (expand_wide_wp R B t W); [done|done|]. intros p1 Hp1. pose proof Hp1 as [Hl1 Hc1].
    change (top_of (t_grid t)) with (top_of t) in Hl1. change (screen_lines (t_grid t)) with (screen_lines t) in Hl1.
    change (columns (t_grid t)) with (columns t) in Hc1. wp_step. wp_step. rewrite Hlast. cbn [mbind exec_bind]. cbv zeta.
    wp_step. eapply wp_mono with (Q := λ w, w = true → top_of t < line p1).
    { apply wp_if; intros E; [|by apply wp_ret]. apply (wrap_wp R B t W); [apply Hat; lia|]. intros x _ _. lia. }
    intros [] Hw; apply wp_ret; apply Hat; unfold saturating_sub; lia.
  - wp_step. wp_use (expand_wide_wp R B t W); [done|done|]. intros p1 Hp1. pose proof Hp1 as [Hl1 Hc1].
    change (top_of (t_grid t)) with (top_of t) in Hl1. change (screen_lines (t_grid t)) with (screen_lines t) in Hl1.
    change (columns (t_grid t)) with (columns t) in Hc1. wp_step. apply (wrap_wp R B t W); [done|]. intros x Hx. apply wp_if; intros E.
    + pose proof (wrapped_above t p1 x Hs Hp1 Hx E). wp_step. wp_step. apply wp_ret. apply Hat; lia.
    + wp_step. wp_step. rewrite Hlast. cbn [mbind exec_bind]. apply wp_ret. apply Hat; lia.
  - wp_step. wp_use (expand_wide_wp R B t W); [done|done|]. intros p1 Hp1. wp_step.
    wp_use (first_loop_wp R B t W); [done|by apply (line_fuel_enough R B), Hp1|]. intros p2 Hp2. apply wp_ret. apply Hat; [apply Hp2|lia].
  - by apply (last_motion_wp R B).
  - by apply (first_occupied_motion_wp R B).
  - casts. wp_step. wp_step. apply line_start_wp. lia.
  - specialize (Hmid eq_refl). casts. rewrite Z.quot_div_nonneg by lia. divmod (screen_lines t) 2. wp_step. wp_step. wp_step. wp_step. wp_step. wp_step. apply line_start_wp. lia.
  - casts. wp_step. wp_step. wp_step. wp_step. wp_step. wp_step. apply line_start_wp. lia.
  - by apply (semantic_wp R B).
  - by apply (semantic_wp R B).
  - by apply (semantic_wp R B).
  - by apply (semantic_wp R B).
  - wp_use (word_wp R B t W Left Left); [done|done|]. by intros q [? _].
  - wp_use (word_wp R B t W Right Left); [done|done|]. by intros q [? _].
  - wp_use (word_wp R B t W Left Right); [done|done|]. by intros q [? _].
  - wp_use (word_wp R B t W Right Right); [done|done|]. by intros q [? _].
  - wp_step. wp_use (bracket_search_spec R B); [done|done|done|]. intros o (x & _ & Hq). apply wp_ret.
    destruct (find_bracket _ _) as [[]|]; [|by subst]. destruct o; [apply Hq|done].
  - wp_step. wp_use (find_paragraph_wp R B t W); [intros i Hi; lia|]. intros o Hq. apply wp_ret. apply Hat; [|lia].
    destruct o; cbn [default from_option]; [by apply Hq|unfold id; lia].
  - rewrite bottommost_line_ok by done. cbn [mbind exec_bind]. wp_step. wp_use (find_paragraph_wp R B t W); [intros i Hi; lia|].
    intros o Hq. apply wp_ret. apply Hat; [|lia]. destruct o; cbn [default from_option]; [by apply Hq|unfold id; lia].
Qed.
End motions.

Section claims.
Context `{AnsiLaws}.
Implicit Types (t : Term) (p : Point).


(** The motions over words separated by blanks. *)
Definition word_motion (d : Direction) (side : Side) : ViMotion :=
  match d, side with
  | Left, Left => WordLeft
  | Right, Left => WordRight
  | Left, Right => WordLeftEnd
  | Right, Right => WordRightEnd
  end.

(** The word motions find the words.  Towards the far end of a word ([d = side]) the
    cursor passes exactly the blank cells in front of the word and then the cells of the
    word, and stops on its last one; towards the near end it passes the rest of the word
    it is on and the blanks behind it, and stops on the first cell of the next word.
    Only the end of the grid stops it earlier. *)
Lemma vi_word_motions (B : Z) t p (d : Direction) (side : Side) :
  clean_term B t → vi_safe t → in_grid (t_grid t) p →
  ∃ p0 m q, expand_wide t p d = Ok p0 ∧ motion_target t p (word_motion d side) = Ok q ∧
    in_grid (t_grid t) q ∧
    if decide (d = side) then skips_next t d true p0 m ∧ skips_next t d false m q
    else skips t d false p0 m ∧ skips t d true m q.
Proof.
  intros W Hs Hp. pose proof (word_wp _ B t W d side p Hs Hp) as G.
  apply wp_exists in G as (q & E & Hq & p0 & m & E0 & _ & _ & G). exists p0, m, q.
  split_and!; try done. by destruct d, side.
Qed.
End claims.

(** ** A screen with two words *)

Definition plain_cell (x : Cell) : bool :=
  negb (Bitflags.contains (flags x) Flags.WRAPLINE) &&
  negb (Bitflags.contains (flags x) Flags.LEADING_WIDE_CHAR_SPACER) &&
  negb (Bitflags.contains (flags x) Flags.WIDE_CHAR_SPACER).

Lemma vi_safe_check `{Ansi} (t : Term) :
  forallb (λ r, forallb plain_cell (r_inner r)) (s_inner (raw (t_grid t))) = true → vi_safe t.
Proof.
  intros Hall. assert (Hx : ∀ p x, g_cell (t_grid t) p = Some x → plain_cell x = true).
  { intros p x Hx. unfold g_cell, g_line, line_at, ring_at in Hx.
    destruct (zlookup (s_inner _) _) as [r|] eqn:Er; simpl in Hx; [|done].
    apply zlookup_spec in Er as [_ Er]. apply zlookup_spec in Hx as [_ Hx].
    rewrite forallb_forall in Hall. specialize (Hall r (proj1 (list_elem_of_In _ _) (list_elem_of_lookup_2 _ _ _ Er))).
    rewrite forallb_forall in Hall. exact (Hall x (proj1 (list_elem_of_In _ _) (list_elem_of_lookup_2 _ _ _ Hx))). }
  split.
  - intros l col x _ E. apply Hx in E. unfold plain_cell in E.
    by destruct (Bitflags.contains _ Flags.WRAPLINE), (Bitflags.contains _ Flags.LEADING_WIDE_CHAR_SPACER).
  - intros p x E Hw. apply Hx in E. unfold plain_cell in E. rewrite Hw in E. by rewrite andb_false_r in E.
Qed.

(** [a b], in vi mode. *)
Definition words_calls : list call := [Input 97; Input 32; Input 98].
Definition words_plain : Term := Eval vm_compute in run_or fresh_term (handle_all words_calls fresh_term).
Definition words_term : Term := Eval vm_compute in run_or words_plain (toggle_vi_mode words_plain).

Lemma words_term_clean : clean_term 18 words_term.
Proof.
  pose proof (handle_all_safe (row_clean 6) words_calls 0 fresh_term fresh_term_wf) as G.
  assert (E : handle_all words_calls fresh_term = Ok words_plain)
    by (vm_cast_no_check (eq_refl (Ok words_plain))).
  rewrite E in G. destruct G as [W _]; [done|by repeat constructor|].
  pose proof (toggle_vi_mode_spec _ _ _ W) as G.
  assert (E' : toggle_vi_mode words_plain = Ok words_term) by (vm_cast_no_check (eq_refl (Ok words_term))).
  rewrite E' in G. apply G.
Qed.


