(* ===== verification/ResizeClaims.v ===== *)
(** * What resizing does to the content

    The theorem about [Grid::resize] where it does not rewrap lines: on the
    alternate screen, which is resized without reflow, and on every grid whose
    number of columns stays the same. *)

From S2P Require Import Prelude Index Ansi GridCell Row Storage Cell Grid GridFacts GridOps.
From S2P Require Import Resize ResizeFacts Selection Term TermFacts TermOps Handler HandlerFacts.
From S2P Require Import HandlerEdit HandlerSafe Session HandlerClaims TermClaims Demo.
From S2P Require Import Witnesses.
#[local] Open Scope Z_scope.

Section claims.
Context `{Ansi} {T D : Type} `{GridCellLaws T D}.
Context (R : Row T → Prop).
Implicit Types (g : Grid T).

Lemma g_line_pred g l r : grid_wf R g → g_line g l = Some r → R r.
Proof. intros W E. destruct (g_line_some R g l W) as (r' & E' & Hr). congruence. Qed.

Lemma grid_wf_weaken g : grid_wf R g → grid_wf (row_wf (g_columns g)) g.
Proof.
  intros [[P Hr Hz Hv Hl Hb] Hvis Hhist Hlim Hoff]. split; try done.
  split; try done; [apply row_pred_wf, P|]. eapply Forall_impl; [exact Hr|]. apply P.
Qed.

(** By how many lines the content moves down when the grid gets [lines] lines:
    it follows the bottom of the screen while there is scrollback to show, and
    moves up only as far as the cursor needs it. *)
Definition line_shift g (lines : Z) : Z :=
  if g_lines g <? lines then Z.min (history_size g) (lines - g_lines g)
  else - Z.max 0 (line (point (cursor g)) + 1 - lines).

(** The line of the saved cursor. *)
Definition saved_shift g (lines : Z) : Z :=
  let l := line (point (saved_cursor g)) in
  if g_lines g <? lines then l + line_shift g lines else Z.min l (lines - 1).

Lemma line_shift_cursor g lines :
  in_screen g (point (cursor g)) → 0 ≤ history_size g → 1 ≤ lines →
  0 ≤ line (point (cursor g)) + line_shift g lines < lines.
Proof.
  intros [Hl _] Hh Hlines. simpl in Hl. unfold line_shift.
  destruct (Z.ltb_spec (g_lines g) lines); lia.
Qed.

Definition lines_resized g (lines : Z) (g1 : Grid T) : Prop :=
  grid_wf R g1 ∧ g_lines g1 = lines ∧
  cursor_lines g g1 (line (point (cursor g)) + line_shift g lines) (saved_shift g lines) ∧
  history_size g1 = Z.min (max_scroll_limit g) (history_size g - line_shift g lines) ∧
  (∀ l, - history_size g1 ≤ l < lines → l < g_lines g + line_shift g lines →
     g_line g1 l = g_line g (l - line_shift g lines)) ∧
  (∀ l, g_lines g + line_shift g lines ≤ l < lines →
     ∃ r, g_line g1 l = Some r ∧ is_reset R (template (cursor g)) r).

Lemma resize_lines_spec g lines :
  grid_wf R g → in_screen g (point (cursor g)) → in_screen g (point (saved_cursor g)) →
  1 ≤ lines → lines + max_scroll_limit g ≤ 536870912 →
  wp (match g_lines g ?= lines with
      | Lt => grow_lines g lines | Gt => grid_shrink_lines g lines | Eq => mret g end)
    (lines_resized g lines).
Proof.
  intros W Hc Hs Hlines Hmax. pose proof (grid_history R g W) as Hh.
  pose proof W as [Ws Hvis Hhist Hlim Hoff]. pose proof Hc as [Hcl _]. pose proof Hs as [Hsl _].
  simpl in Hcl, Hsl.
  unfold lines_resized, line_shift, saved_shift. destruct (Z.compare_spec (g_lines g) lines) as [E|L|L].
  - apply wp_ret. subst lines. unfold line_shift. rewrite Z.ltb_irrefl, !Z.max_l, !Z.min_l by lia.
    split; [done|]. split; [done|]. split; [|split; [lia|split]].
    + unfold cursor_lines, cursor_at. rewrite Z.add_0_r. destruct (cursor g) as [[] ? ? ?],
        (saved_cursor g) as [[] ? ? ?]. done.
    + intros l _ _. f_equal. lia.
    + intros l Hl. lia.
  - unfold line_shift. destruct (Z.ltb_spec (g_lines g) lines); [|lia].
    wp_use (grow_lines_spec R); [done..|lia|lia|]. intros g' (W' & Hl & Hcur & Hh' & Hm & Hb).
    split_and!; try done; [lia|]. intros l Hl1 Hl2. apply Hm. lia.
  - unfold line_shift. destruct (Z.ltb_spec (g_lines g) lines); [lia|].
    wp_use (shrink_lines_content R); [done..|lia|]. intros g' (W' & Hl & Hcur & Hh' & Hm).
    split; [done|]. split; [done|]. split; [|split; [lia|split]].
    + revert Hcur. by replace (Z.min (line (point (cursor g))) (lines - 1))
        with (line (point (cursor g)) + - Z.max 0 (line (point (cursor g)) + 1 - lines)) by lia.
    + intros l Hl1 Hl2. rewrite Hm by lia. f_equal. lia.
    + intros l Hl1. lia.
Qed.

(** Cutting a row and filling it up are the same function of its cells. *)
Lemma row_grow_inner n columns (r : Row T) :
  row_wf n r → n ≤ columns → r_inner (row_grow r columns) = resize_default (r_inner r) columns.
Proof.
  intros [Hn _] Hc. unfold row_grow, row_len in *.
  destruct (Z.leb_spec columns (zlen (r_inner r))); [|done].
  unfold resize_default. rewrite take_ge by (unfold zlen in *; lia).
  replace (columns - zlen (r_inner r)) with 0 by lia. by rewrite app_nil_r.
Qed.

Lemma row_shrink_inner n columns (r : Row T) :
  row_wf n r → columns ≤ n → r_inner (row_shrink r columns).1 = resize_default (r_inner r) columns.
Proof.
  unfold row_len, row_shrink, resize_default. intros [Hn _] Hc. unfold row_len in Hn.
  replace (Z.to_nat (columns - zlen (r_inner r))) with 0%nat by lia. rewrite app_nil_r.
  destruct (Z.leb_spec (zlen (r_inner r)) columns); [|done].
  rewrite take_ge by (unfold zlen in *; lia). done.
Qed.

Lemma resize_default_replicate n columns :
  1 ≤ n → 1 ≤ columns →
  resize_default (replicate (Z.to_nat n) cell_default) columns
    = replicate (Z.to_nat columns) (cell_default : T).
Proof.
  intros Hn Hc. unfold resize_default, zlen. rewrite length_replicate, take_replicate, <- replicate_add.
  f_equal. lia.
Qed.

Definition columns_resized g (columns : Z) (g' : Grid T) : Prop :=
  grid_wf (row_wf columns) g' ∧ g_columns g' = columns ∧ g_lines g' = g_lines g ∧
  line (point (cursor g')) = line (point (cursor g)) ∧
  column (point (cursor g')) = Z.min (column (point (cursor g))) (columns - 1) ∧
  line (point (saved_cursor g')) = line (point (saved_cursor g)) ∧
  history_size g' = history_size g ∧
  ∀ l r, g_active g l → g_line g l = Some r →
    ∃ r', g_line g' l = Some r' ∧ r_inner r' = resize_default (r_inner r) columns.

Lemma resize_columns_spec g reflow columns :
  grid_wf R g → in_screen g (point (cursor g)) → 1 ≤ columns ≤ 1073741824 →
  reflow = false ∨ columns = g_columns g →
  wp (match g_columns g ?= columns with
      | Lt => grow_columns g reflow columns | Gt => shrink_columns g reflow columns
      | Eq => mret g end) (columns_resized g columns).
Proof.
  intros W Hc Hcol Hr. pose proof W as [Ws _ _ _ _]. pose proof Ws as [P _ _ _ _ _].
  pose proof Hc as [_ Hcc]. simpl in Hcc. unfold columns_resized.
  destruct (Z.compare_spec (g_columns g) columns) as [E|L|L].
  - apply wp_ret. subst columns. rewrite Z.min_l by lia. split_and!; try done.
    + by apply grid_wf_weaken.
    + intros l r _ Hl. exists r. split; [done|].
      destruct (rp_wf _ _ P r (g_line_pred g l r W Hl)) as [Hn _]. unfold row_len in Hn.
      unfold resize_default. rewrite take_ge by (unfold zlen in *; lia).
      replace (g_columns g - zlen (r_inner r)) with 0 by lia. by rewrite app_nil_r.
  - destruct Hr as [-> | ->]; [|lia]. rewrite (grow_columns_plain R) by (done || lia). simpl.
    destruct (recolumned_spec R g columns (λ r, row_grow r columns)) as (Hh & _ & W' & Hm);
      [done|lia| |].
    { intros r Hr. apply (row_grow_wf (g_columns g)); [by apply P|lia]. }
    rewrite Z.min_l by lia. split_and!; try done. intros l r Ha Hl.
    eexists. split; [by rewrite Hm, Hl|].
    apply (row_grow_inner (g_columns g)); [apply P, (g_line_pred g l r W Hl)|lia].
  - destruct Hr as [-> | ->]; [|lia]. rewrite (shrink_columns_plain R) by (done || lia). simpl.
    destruct (recolumned_spec R g columns (λ r, (row_shrink r columns).1)) as (Hh & _ & W' & Hm);
      [done|lia| |].
    { intros r Hr. pose proof (row_shrink_split (g_columns g) columns r) as G.
      destruct (row_shrink r columns) as [r' cut]. rewrite Z.min_r in G by lia.
      apply G; [by apply P|lia]. }
    split_and!; try done; [by destruct W'; split|]. intros l r Ha Hl.
    eexists. split; [etransitivity; [exact (Hm l Ha)|by rewrite Hl]|].
    apply (row_shrink_inner (g_columns g)); [apply P, (g_line_pred g l r W Hl)|lia].
Qed.
End claims.

Section theorem.
Context `{Ansi} {T D : Type} `{GridCellLaws T D}.
Implicit Types (g : Grid T).

(** C24: a resize that does not rewrap (without reflow, or to the same number of
    columns) returns and moves the content as a whole by [line_shift]: every line
    that was in the buffer and still has a place is where the cursor's line went,
    relative to it, cut at the new width or filled up with default cells; the
    lines that have no old line are blank; the cursor stays in its line and in
    the screen, its template is kept, and lines that leave the screen go to the
    scrollback as far as [max_scroll_limit] allows. *)
Theorem resize_moves_content g (reflow : bool) (lines columns : Z) :
  clean_grid g → in_screen g (point (cursor g)) → in_screen g (point (saved_cursor g)) →
  1 ≤ lines → lines + max_scroll_limit g ≤ 536870912 → 1 ≤ columns ≤ 1073741824 →
  reflow = false ∨ columns = g_columns g →
  let shift := line_shift g lines in
  ∃ g', grid_resize g reflow lines columns = Ok g' ∧ grid_wf (row_wf columns) g' ∧
    g_lines g' = lines ∧ g_columns g' = columns ∧
    point (cursor g') = mkPoint (line (point (cursor g)) + shift)
      (Z.min (column (point (cursor g))) (columns - 1)) ∧
    in_screen g' (point (cursor g')) ∧ template (cursor g') = template (cursor g) ∧
    line (point (saved_cursor g')) = saved_shift g lines ∧
    history_size g' = Z.min (max_scroll_limit g) (history_size g - shift) ∧
    (∀ l r, - history_size g' ≤ l < lines → l < g_lines g + shift →
       g_line g (l - shift) = Some r →
       ∃ r', g_line g' l = Some r' ∧ r_inner r' = resize_default (r_inner r) columns) ∧
    (∀ l, g_lines g + shift ≤ l < lines →
       ∃ r', g_line g' l = Some r' ∧ r_inner r' = replicate (Z.to_nat columns) cell_default).
Proof.
  intros W Hc Hs Hlines Hmax Hcol Hr shift.
  set (R := row_clean (g_columns g)).
  set (g0 := with_cursor g (cursor_with_template (cursor g) cell_default)).
  assert (W0 : grid_wf R g0) by (destruct W; by split).
  pose proof (grid_history _ g W) as Hh. pose proof W as [Ws Hvis Hhist Hlim Hoff].
  pose proof Ws as [P _ _ Hv _ _].
  pose proof (line_shift_cursor g lines Hc ltac:(lia) Hlines) as Hcl.
  apply wp_exists. unfold grid_resize. cbv zeta. fold g0. wp_step.
  wp_use (resize_lines_spec R g0 lines); [done..|].
  intros g1 (W1 & Hl1 & (Hcur1 & Hsav1 & Hco1 & Hm1) & Hh1 & M1 & B1). wp_step.
  assert (Hshift : line_shift g0 lines = shift) by reflexivity.
  assert (Hsaved : saved_shift g0 lines = saved_shift g lines) by reflexivity.
  assert (Hg0 : g_lines g0 = g_lines g) by reflexivity.
  rewrite Hshift in Hcur1, Hh1, M1, B1. rewrite Hg0 in M1, B1. rewrite Hsaved in Hsav1.
  destruct Hc as [Hcl0 Hcc0]. simpl in Hcl0, Hcc0.
  assert (Hin : in_screen g1 (point (cursor g1))).
  { rewrite Hcur1. split; simpl; [rewrite Hl1; exact Hcl|rewrite Hco1; exact Hcc0]. }
  wp_use (resize_columns_spec R g1 reflow columns); [done|done|done|by rewrite Hco1|].
  intros g2 (W2 & Hc2 & Hl2 & Hcl2 & Hcc2 & Hsl2 & Hh2 & M2). apply wp_ret.
  rewrite Hcur1 in Hcl2, Hcc2. rewrite Hsav1 in Hsl2. simpl in Hcl2, Hcc2, Hsl2.
  pose proof W1 as [[_ _ _ Hv1 _ _] Hvis1 _ _ _]. fold shift in Hcl.
  pose proof (grid_history R g1 W1) as Hh1'.
  split; [by destruct W2; split|]. split; [by rewrite <- Hl1|]. split; [done|].
  split. { simpl. destruct (point (cursor g2)); simpl in *. by rewrite Hcl2, Hcc2. }
  split. { split; simpl; rewrite ?Hcl2, ?Hcc2, ?Hl2, ?Hl1, ?Hc2; [exact Hcl|lia]. }
  split; [done|]. split; [done|]. split; [exact (eq_trans Hh2 Hh1)|].
  split.
  - intros l r Hl Hb El. assert (Hl' : - history_size g2 ≤ l < lines) by exact Hl.
    rewrite Hh2 in Hl'. apply M2; [unfold g_active; lia|]. rewrite M1 by lia. exact El.
  - intros l Hl. destruct (B1 l Hl) as (r & El & Hreset).
    destruct (M2 l r) as (r' & El' & Er'); [unfold g_active; lia|done|]. exists r'. split; [done|].
    apply is_reset_clean in Hreset; [|by apply P]. subst r. rewrite Er'. simpl.
    rewrite reset_default. apply resize_default_replicate; [apply (rp_bound _ _ P)|lia].
Qed.
End theorem.

(** The terminal's grid, 6 columns and 3 lines with the cursor in line 1, made 2
    columns wide and one line high: the line of the cursor stays on the screen,
    the line above it goes to the scrollback. *)
Lemma resize_moves_content_witness :
  ∃ g', grid_resize (t_grid demo) false 1 2 = Ok g' ∧ history_size g' = 1 ∧
    line_text g' 0 = [120; 32] ∧ line_text g' (-1) = [97; 98].
Proof.
  destruct (resize_moves_content (t_grid demo) false 1 2 demo_grid_wf)
    as (g' & E & _ & _ & _ & _ & _ & _ & _ & Hh & Hm & _);
    [split; simpl; lia..|simpl; lia|simpl; lia|lia|by left|].
  exists g'. split; [exact E|].
  assert (Hh' : history_size g' = 1) by exact Hh. split; [exact Hh'|].
  unfold line_text. rewrite Hh' in Hm. split.
  - edestruct (Hm 0) as (r' & -> & ->); [lia|vm_compute; done|vm_compute; reflexivity|]. reflexivity.
  - edestruct (Hm (-1)) as (r' & -> & ->); [lia|vm_compute; done|vm_compute; reflexivity|]. reflexivity.
Defined.
