(* ===== verification/ReflowClaims.v ===== *)
(** * Resizing with reflow keeps the text

    The theorem about [Grid::resize] where it rewraps lines, and the instance of its
    laws for the cells of the terminal. *)

From S2P Require Import Prelude Index Ansi GridCell Row Storage Cell Grid GridFacts GridOps.
From S2P Require Import Resize ResizeFacts ReflowText ReflowShrink ReflowGrow Selection Term TermFacts TermOps Handler HandlerFacts.
From S2P Require Import HandlerEdit HandlerSafe Session HandlerClaims ResizeClaims Demo Witnesses.
#[local] Open Scope Z_scope.

Lemma flagged_visible x f : Z.testbit VISIBLE_FLAGS f = true → Z.testbit (flags x) f = true → is_empty x = false.
Proof.
  intros Hv Hf. unfold is_empty, Bitflags.intersects.
  destruct (Z.eqb_spec (Z.land (flags x) VISIBLE_FLAGS) 0) as [E|E]; [|by rewrite !andb_false_r].
  apply (f_equal (λ z, Z.testbit z f)) in E. rewrite Z.land_spec, Hv, Hf, Z.bits_0 in E. done.
Qed.

#[global] Instance Cell_reflow_laws : ReflowLaws Cell Color.
Proof.
  assert (Hbit : ∀ (x : Cell) f, 0 ≤ f → cell_contains x (2 ^ f) = true → Z.testbit (flags x) f = true).
  { intros x f Hf Hc. unfold cell_contains, Bitflags.contains in Hc. apply Z.eqb_eq in Hc.
    apply (f_equal (λ z, Z.testbit z f)) in Hc. rewrite Z.land_spec, Z.pow2_bits_true, andb_true_r in Hc by done. done. }
  split.
  - done.
  - by intros [].
  - intros x Hx. apply (flagged_visible x 4); [done|]. by apply (Hbit x 4).
  - intros x Hx. apply (flagged_visible x 10); [done|]. by apply (Hbit x 10).
  - done.
Qed.

Section claims.
Context `{Ansi} {T D : Type} `{GridCellLaws T D} `{!ReflowLaws T D}.
Implicit Types (g : Grid T).

Lemma ready_template g t : grow_ready g → grow_ready (with_cursor g (cursor_with_template (cursor g) t)).
Proof. intros [[[] ? ? ? ?] ? ?]. split; [split|..]; try done. Qed.

Lemma rows_down_cursor g cur : rows_down (with_cursor g cur) = rows_down g.
Proof. done. Qed.

End claims.

(** ** A wrapped fullwidth character *)

(** Checks for the shape of the rows. *)
Fixpoint tidyb (cells : list Cell) : bool :=
  match cells with
  | [] => true
  | x :: b =>
    (negb (wrapped x) || match b with [] => true | _ => false end) &&
    (negb (spacer x) || (match b with [] => true | _ => false end) && wrapped x && negb (wide x)) && tidyb b
  end.

Fixpoint pairedb (cells : list Cell) : bool :=
  match cells with
  | [] => true
  | x :: b => (negb (wide x) || match b with [] => false | _ => true end && negb (cell_is_empty x)) && pairedb b
  end.

Lemma tidyb_sound cells : tidyb cells = true → tidy false cells.
Proof.
  intros Hc a. revert cells Hc. induction a as [|y a IH]; intros cells Hc x b ->; simpl in Hc.
  - apply andb_prop in Hc as [Hc _]. split.
    + intros _ Hx. rewrite Hx in Hc. by destruct b.
    + intros Hx. rewrite Hx in Hc. by destruct b; destruct (wrapped x); destruct (wide x).
  - apply andb_prop in Hc as [_ Hc]. by apply (IH _ Hc).
Qed.

Lemma pairedb_sound cells : pairedb cells = true → paired cells.
Proof.
  intros Hc a. revert cells Hc. induction a as [|y a IH]; intros cells Hc x b -> Hx; cbn [pairedb app] in Hc.
  - rewrite Hx in Hc. destruct b as [|z b]; [done|].
    apply andb_prop in Hc as [Hc%negb_true_iff _]. done.
  - apply andb_prop in Hc as [_ Hc]. by apply (IH _ Hc x b).
Qed.

Lemma rows_check (P : list Cell → Prop) (p : list Cell → bool) (rows : list (Row Cell)) :
  (∀ cells, p cells = true → P cells) → forallb (λ r, p (r_inner r)) rows = true → Forall (λ r, P (r_inner r)) rows.
Proof.
  intros HP Hall. apply Is_true_eq_left in Hall. rewrite forallb_True in Hall.
  eapply Forall_impl; [exact Hall|]. intros r Hr%Is_true_eq_true. by apply HP.
Qed.

(** Five letters, a fullwidth character that has to go to the next of the six-column
    lines, and a letter behind it. *)
Definition reflow_calls : list call :=
  [Input 97; Input 98; Input 99; Input 100; Input 101; Input 20013; Input 102].
Definition reflow_term : Term := Eval vm_compute in run_or fresh_term (handle_all reflow_calls fresh_term).
Definition reflowed : Grid Cell := Eval vm_compute in
  match grid_resize (t_grid reflow_term) true 3 4 with Ok g => g | Panic _ => t_grid reflow_term end.

Lemma reflow_term_clean : clean_term 42 reflow_term.
Proof.
  pose proof (handle_all_safe (row_clean 6) reflow_calls 0 fresh_term fresh_term_wf) as G.
  assert (E : handle_all reflow_calls fresh_term = Ok reflow_term)
    by (vm_cast_no_check (eq_refl (Ok reflow_term))).
  rewrite E in G. apply G; [done|]. repeat constructor.
Qed.

Lemma reflow_term_ready : grow_ready (t_grid reflow_term).
Proof.
  pose proof (tw_grid _ _ _ reflow_term_clean) as [W [Hc _] [Hs _]].
  split; [split|..].
  - exact (grid_wf_weaken _ _ W).
  - by apply (rows_check _ _ _ tidyb_sound).
  - exact Hc.
  - exact Hs.
  - intros r Hr. vm_compute in Hr. discriminate.
  - by apply (rows_check _ _ _ pairedb_sound).
  - intros r _ Hh. vm_compute in Hh. discriminate.
Qed.


(** ** A row that reflow leaves behind *)

(** Eight letters that wrap after six, the first row of them in the scrollback, and the
    cursor on the second one at the top of the screen. *)
Definition split_term : exec Term :=
  t ← handle_all [Input 97; Input 98; Input 99; Input 100; Input 101; Input 102; Input 103; Input 104;
    CarriageReturn; Linefeed; Input 120; Linefeed] fresh_term;
  goto 0 1 t.

(** At twelve columns all eight letters fit on the row in the scrollback, and the row
    they came from is empty.  It is kept nevertheless, and the first row has the flag of a
    wrapped line although no cell of the line is left below it. *)
Example emptied_row_is_kept :
  (t ← split_term; g ← grid_resize (t_grid t) true 3 12;
   mret ((λ r, (wraps (r_inner r), forallb is_empty (drop 8 (take 11 (r_inner r))), c <$> take 8 (r_inner r))) <$> take 2 (rows_down g),
     point (cursor g), input_needs_wrap (cursor g)))
  = Ok ([(true, true, [97; 98; 99; 100; 101; 102; 103; 104]);
         (false, true, [32; 32; 32; 32; 32; 32; 32; 32])], mkPoint 0 0, true).
Proof. vm_compute; reflexivity. Qed.
