(* ===== verification/RegexClaims.v ===== *)
(** * The regular expression search on terminals

    The termination theorem for the searches of RegexSearch.v, an automaton for
    examples, and a search that does not end. *)

From S2P Require Import Prelude Index Ansi GridCell Row Storage Cell Grid GridFacts GridOps.
From S2P Require Import Resize Selection Term TermFacts TermOps Handler HandlerFacts HandlerEdit.
From S2P Require Import HandlerSafe Session HandlerClaims Search SearchFacts.
From S2P Require Import RegexSearch RegexFacts Demo Witnesses.
#[local] Open Scope Z_scope.

(** The automata of a search have a start state. *)
Definition regex_ok (regex : RegexSearch) : Prop :=
  is_Some (start_state (left_fdfa regex)) ∧ is_Some (start_state (left_rdfa regex)) ∧
  is_Some (start_state (right_fdfa regex)) ∧ is_Some (start_state (right_rdfa regex)).

(** The ends of a match are cells of the grid. *)
Definition match_in `{Ansi} (t : Term) (m : option Match) : Prop :=
  ∀ r, m = Some r → in_grid (t_grid t) (m_start r) ∧ in_grid (t_grid t) (m_end r).

Section claims.
Context `{AnsiLaws}.
Implicit Types (t : Term) (p : Point).

End claims.

(** ** Examples *)

(** An automaton for the expression [b]: a match is reported with the byte behind
    it; [anchored] ones are dead after any other character. *)
Inductive lit_state := LitStart | LitSeen | LitMatch | LitDead.
Definition lit_dfa (ch : char) (anchored : bool) (d : Direction) : LazyDfa :=
  mkDfa lit_state (Some LitStart)
    (λ s byte, Some (match s with
       | LitStart => if byte =? ch then LitSeen else if anchored then LitDead else LitStart
       | LitSeen => LitMatch
       | LitMatch | LitDead => LitDead
       end))
    (λ s, Some (match s with LitSeen => LitMatch | _ => LitDead end))
    (λ s, match s with LitMatch => true | _ => false end)
    (λ s, match s with LitDead => true | _ => false end) d.
Definition lit_regex (ch : char) : RegexSearch :=
  mkRegex (lit_dfa ch false Left) (lit_dfa ch true Right) (lit_dfa ch true Left) (lit_dfa ch false Right).

(** [ab] on the first line, [xb] on the second. *)
Definition narrow_calls : list call :=
  [Input 97; Input 98; CarriageReturn; Linefeed; Input 120; Input 98].
Definition narrow_term : Term := Eval vm_compute in run_or fresh_term (handle_all narrow_calls fresh_term).

Lemma narrow_term_clean : clean_term 36 narrow_term.
Proof.
  pose proof (handle_all_safe (row_clean 6) narrow_calls 0 fresh_term fresh_term_wf) as G.
  assert (E : handle_all narrow_calls fresh_term = Ok narrow_term)
    by (vm_cast_no_check (eq_refl (Ok narrow_term))).
  rewrite E in G. apply G; [done|]. repeat constructor.
Qed.

(** A check for the absence of fullwidth characters. *)
Definition narrowb (x : Cell) : bool :=
  negb (Bitflags.contains (flags x) Flags.WIDE_CHAR) &&
  negb (Bitflags.contains (flags x) Flags.WIDE_CHAR_SPACER) &&
  negb (Bitflags.contains (flags x) Flags.LEADING_WIDE_CHAR_SPACER).

Lemma no_wide_check `{Ansi} (t : Term) :
  forallb (λ r, forallb narrowb (r_inner r)) (s_inner (raw (t_grid t))) = true → no_wide t.
Proof.
  intros Hall p x Hx. unfold g_cell, g_line, line_at, ring_at in Hx.
  destruct (zlookup (s_inner _) _) as [r|] eqn:Er; simpl in Hx; [|done].
  apply zlookup_spec in Er as [_ Er]. apply zlookup_spec in Hx as [_ Hx].
  apply Is_true_eq_left in Hall. rewrite forallb_True, Forall_lookup in Hall.
  specialize (Hall _ _ Er). simpl in Hall.
  rewrite forallb_True, Forall_lookup in Hall. specialize (Hall _ _ Hx). unfold narrowb in Hall.
  unfold narrow. by destruct (Bitflags.contains _ Flags.WIDE_CHAR),
    (Bitflags.contains _ Flags.WIDE_CHAR_SPACER), (Bitflags.contains _ Flags.LEADING_WIDE_CHAR_SPACER).
Qed.



(** A fullwidth character that does not fit on the first line. *)
Definition wide_term : Term := Eval vm_compute in
  run_or fresh_term (handle_all [Input 97; Input 98; Input 99; Input 100; Input 101; Input 20013; Input 97] fresh_term).


(** ** A search that does not end *)

Section diverges.
Context `{Ansi} (D : LazyDfa) (t : Term) (end_ : Point).

(** [n] iterations that all go on. *)
Fixpoint search_steps (n : nat) (s : Search D) : option (Search D) :=
  match n with
  | O => Some s
  | S n => match search_step D t end_ s with Ok (inr s) => search_steps n s | _ => None end
  end.

Lemma search_steps_loop n : ∀ s s' fuel,
  search_steps n s = Some s' →
  (search_loop D (n + fuel) t end_ s = search_loop D fuel t end_ s') ∧
  ((fuel ≤ n)%nat → search_loop D fuel t end_ s = Panic OutOfFuel).
Proof.
  induction n as [|n IH]; intros s s' fuel E; simpl in E.
  - injection E as <-. split; [done|]. intros Hf. by replace fuel with 0%nat by lia.
  - destruct (search_step D t end_ s) as [[r|s1]|] eqn:Es; [done| |done]. split.
    + cbn [Nat.add search_loop]. rewrite Es. simpl. by apply IH.
    + intros Hf. destruct fuel as [|fuel]; [done|]. cbn [search_loop]. rewrite Es. simpl.
      apply (IH s1 s' fuel E). lia.
Qed.

Lemma search_cycle_diverges n s fuel :
  (0 < n)%nat → search_steps n s = Some s → search_loop D fuel t end_ s = Panic OutOfFuel.
Proof.
  intros Hn E. induction fuel as [fuel IH] using lt_wf_ind.
  destruct (decide (fuel ≤ n)%nat) as [Hle|Hgt]; [by apply (search_steps_loop n s s fuel E)|].
  replace fuel with (n + (fuel - n))%nat by lia.
  rewrite (proj1 (search_steps_loop n s s (fuel - n) E)). apply IH. lia.
Qed.
End diverges.

Definition z_dfa : LazyDfa := lit_dfa 122 false Left.
Definition wide_start : Search z_dfa := mkSearch z_dfa LitStart (mkIter (mkPoint 2 5) (mkPoint 2 5)) None false 32 false (mkPoint 2 5) (mkPoint 2 5) 0.

(** The state after the first six cells comes back after sixteen more. *)
Definition wide_again : Search z_dfa :=
  mkSearch z_dfa LitStart (mkIter (mkPoint 1 5) (mkPoint 2 5)) None false 32 false (mkPoint 1 5)
    (mkPoint 2 0) 0.

Lemma wide_search_diverges fuel :
  regex_search z_dfa fuel wide_term (mkPoint 2 5) (mkPoint 1 0) = Panic OutOfFuel.
Proof.
  assert (E : search_loop z_dfa fuel wide_term (mkPoint 1 0) wide_start = Panic OutOfFuel).
  { assert (E6 : search_steps z_dfa wide_term (mkPoint 1 0) 6 wide_start = Some wide_again)
      by (vm_compute; reflexivity).
    destruct (decide (fuel ≤ 6)%nat) as [Hle|Hgt].
    - by apply (search_steps_loop z_dfa wide_term (mkPoint 1 0) 6 _ _ fuel E6).
    - replace fuel with (6 + (fuel - 6))%nat by lia.
      rewrite (proj1 (search_steps_loop z_dfa wide_term (mkPoint 1 0) 6 _ _ (fuel - 6) E6)).
      apply (search_cycle_diverges _ _ _ 16); [lia|]. vm_compute. reflexivity. }
  unfold regex_search.
  replace (iter_from (t_grid wide_term) (mkPoint 2 5)) with (Ok (mkIter (mkPoint 2 5) (mkPoint 2 5)))
    by (vm_compute; reflexivity). cbn [unwrap start_state z_dfa lit_dfa mbind exec_bind].
  set (x := mkCell 32 (Named Foreground) (Named Background) 0 None) in *.
  replace (iter_cell wide_term (mkIter (mkPoint 2 5) (mkPoint 2 5))) with (Ok x)
    by (vm_compute; reflexivity). cbn [mbind exec_bind].
  replace (skip_fullwidth wide_term (mkIter (mkPoint 2 5) (mkPoint 2 5)) x (dfa_direction z_dfa))
    with (Ok (x, mkIter (mkPoint 2 5) (mkPoint 2 5))) by (vm_compute; reflexivity).
  cbn [mbind exec_bind].
  replace (iter_cell wide_term (mkIter (mkPoint 2 5) (mkPoint 2 5))) with (Ok x)
    by (vm_compute; reflexivity). cbn [mbind exec_bind]. fold wide_start.
  change (search_loop z_dfa fuel wide_term (mkPoint 1 0) _) with
    (search_loop z_dfa fuel wide_term (mkPoint 1 0) wide_start). by rewrite E.
Qed.

(** A search to the left that is limited to one line: its last point is the
    first half of a fullwidth character that did not fit on the line above, and
    the search steps over it together with the spacer above, so it never reaches
    its end.  Without a match it goes round the buffer for ever. *)
Example limited_search_hangs fuel n :
  search_next fuel (lit_regex 122) n wide_term (mkPoint 2 5) Left Left (Some 1) = Panic OutOfFuel.
Proof.
  unfold search_next.
  replace (expand_wide wide_term (mkPoint 2 5) Left) with (Ok (mkPoint 2 5)) by (vm_compute; reflexivity).
  cbn [mbind exec_bind].
  replace (usize_add 1 1) with (Ok 2) by reflexivity. cbn [mbind mret exec_bind exec_ret].
  replace (2 <? total_lines wide_term) with true by reflexivity. unfold next_match_left.
  replace (line_search_right wide_term (mkPoint 2 5)) with (Ok (mkPoint 2 5)) by (vm_compute; reflexivity).
  cbn [mbind exec_bind line].
  replace (line_sub_usize 2 1) with (Ok 1) by reflexivity. cbn [mbind exec_bind].
  replace (line_grid_clamp 1 wide_term BNone) with (Ok 1) by (vm_compute; reflexivity).
  cbn [mbind mret exec_bind exec_ret]. unfold find_or_first, regex_iter_new, regex_iter_next.
  cbn [ri_done ri_point ri_end ri_direction]. unfold regex_search_left. cbn [left_fdfa lit_regex].
  change (lit_dfa 122 false Left) with z_dfa. by rewrite wide_search_diverges.
Qed.
