(* ===== verification/HintClaims.v ===== *)
(** * Selecting hints with the keyboard

    The theorem about the hints of Hints.v: typing the label that is shown on a
    match selects this match. *)

From S2P Require Import Prelude Index Ansi GridCell Row Storage Cell Grid GridFacts GridOps.
From S2P Require Import Resize Selection Term TermFacts TermOps Handler HandlerFacts HandlerEdit.
From S2P Require Import HandlerSafe Session HandlerClaims Search SearchFacts.
From S2P Require Import RegexSearch HintLabels Hints RegexClaims Demo Witnesses RegexFacts.
From stdpp Require Import sets.
#[local] Open Scope Z_scope.

(** ** Labels behind pressed keys *)

Lemma label_rest_prefix (keys label : list char) :
  (label_rest keys label = [] ∧ ¬ (∃ x l, label = keys ++ x :: l)) ∨
  (∃ x l, label = keys ++ x :: l ∧ label_rest keys label = x :: l).
Proof.
  unfold label_rest. destruct (Z.leb_spec (zlen keys) (zlen label)) as [Hle|Hgt]; simpl.
  - case_bool_decide as Ht.
    + destruct (drop (length keys) label) as [|x l] eqn:Ed.
      * left. split; [done|]. intros (x & l & ->). rewrite drop_app_length in Ed. done.
      * right. exists x, l. split; [|done].
        rewrite <- (take_drop (length keys) label) at 1. by rewrite Ht, Ed.
    + left. split; [done|]. intros (x & l & ->). apply Ht. by rewrite take_app_length.
  - left. split; [done|]. intros (x & l & ->). unfold zlen in Hgt. rewrite length_app in Hgt. lia.
Qed.

Lemma label_rest_nil (label : list char) : label_rest [] label = label.
Proof.
  unfold label_rest. destruct (Z.leb_spec (zlen ([] : list char)) (zlen label)) as [_|Hgt];
    [|unfold zlen in Hgt; simpl in Hgt; lia]. simpl length.
  rewrite take_0, bool_decide_true by done. simpl. apply drop_0.
Qed.

(** The last label that starts with the character. *)
Lemma find_label_spec ch ls : ∀ i,
  match find_label ch i ls with
  | Some (k, l) => ∃ j, k = (i + j)%nat ∧ ls !! j = Some l ∧ head l = Some ch
  | None => ∀ j l, ls !! j = Some l → head l ≠ Some ch
  end.
Proof.
  induction ls as [|l ls IH]; intros i; simpl.
  - intros j l Hj. by rewrite lookup_nil in Hj.
  - specialize (IH (S i)). destruct (find_label ch (S i) ls) as [[k l']|].
    + destruct IH as (j & -> & Hj & Hh). exists (S j). split; [lia|done].
    + destruct l as [|x l]; simpl.
      * intros [|j] l' Hj; simpl in Hj; [by injection Hj as <-|by eapply IH].
      * destruct (Z.eqb_spec x ch) as [->|Hne].
        -- exists 0%nat. split; [lia|done].
        -- intros [|j] l' Hj; simpl in Hj; [injection Hj as <-; simpl; congruence|by eapply IH].
Qed.

Section claims.
Context `{AnsiLaws} (fuel n : nat).
Implicit Types (t : Term) (h : HintState).

(** Typing keys until a match is selected; also returns the keys left. *)
Fixpoint type_keys t (keys : list char) h : exec (HintState * option HintMatch * list char) :=
  match keys with
  | [] => mret (h, None, [])
  | k :: keys =>
      '(h, m) ← keyboard_input fuel n t k h;
      match m with
      | Some m => mret (h, Some m, keys)
      | None => type_keys t keys h
      end
  end.

(** The keys that edit or cancel the input are not in the alphabet. *)
Definition alphabet_ok (chars : list char) : Prop :=
  2 ≤ zlen chars ≤ 16777216 ∧ NoDup chars ∧ Forall (λ ch, ch ∉ [8; 31; 27; 3]) chars.

Lemma update_matches_ok t hint chars keys ms0 ls0 found g ls :
  visible_matches fuel n hint t = Ok found → found ≠ [] →
  HintLabels.new chars = Ok g →
  HintLabels.labels (length (dedup_matches (sort_matches found))) g = Ok ls →
  update_matches fuel n t (mkHints (Some hint) chars ms0 ls0 keys)
    = Ok (mkHints (Some hint) chars (dedup_matches (sort_matches found))
            (reverse (label_rest keys <$> ls)) keys).
Proof.
  intros Hv Hne Hg Hls. unfold update_matches. simpl. rewrite Hv. cbn [mbind exec_bind].
  rewrite bool_decide_false by done. rewrite Hg. cbn [mbind exec_bind]. by rewrite Hls.
Qed.

(** The situation of all steps: the labels [ls] belong to the matches [ms], the
    last match has the first label. *)
Section typing.
Context t (hint : Hint) (chars : list char) (found : list Match) (g : HintLabels.HintLabels)
  (ls : list (list char)).
Notation ms := (dedup_matches (sort_matches found)).
Context (Hv : visible_matches fuel n hint t = Ok found) (Hne : found ≠ [])
  (Hg : HintLabels.new chars = Ok g) (Hls : HintLabels.labels (length ms) g = Ok ls)
  (Hlen : length ls = length ms) (Hctl : Forall (λ ch, ch ∉ [8; 31; 27; 3]) chars)
  (Hchars : Forall (λ l, l ≠ [] ∧ Forall (λ ch, ch ∈ chars) l) ls)
  (Hfree : ∀ i j li lj, ls !! i = Some li → ls !! j = Some lj → li `prefix_of` lj → i = j).
Context (i : nat) (m : Match) (label : list char) (x : Cell).
Context (Hm : ms !! i = Some m) (Hl : ls !! (length ms - 1 - i)%nat = Some label)
  (Hx : grid_cell (t_grid t) (m_start m) = Ok x).

Lemma not_control ch : ch ∈ chars → ((ch =? 8) || (ch =? 31) = false) ∧ ((ch =? 27) || (ch =? 3) = false).
Proof.
  intros Hin. rewrite Forall_forall in Hctl. specialize (Hctl _ Hin).
  rewrite !not_elem_of_cons in Hctl. destruct Hctl as (? & ? & ? & ? & _). lia.
Qed.

(** The label at a position of the reversed list. *)
Lemma shown_label keys j l :
  reverse (label_rest keys <$> ls) !! j = Some l →
  (j < length ms)%nat ∧
  ∃ l', ls !! (length ms - 1 - j)%nat = Some l' ∧ l = label_rest keys l'.
Proof.
  intros Hj. apply lookup_lt_Some in Hj as Hlt. rewrite length_reverse, length_fmap, Hlen in Hlt.
  split; [done|]. rewrite reverse_lookup in Hj by (rewrite length_fmap; lia).
  rewrite length_fmap, Hlen in Hj. rewrite list_lookup_fmap in Hj.
  replace (length ms - S j)%nat with (length ms - 1 - j)%nat in Hj by lia.
  destruct (ls !! (length ms - 1 - j)%nat) as [l'|]; [|done]. injection Hj as <-. by exists l'.
Qed.

Lemma key_step keys ch rest ms0 ls0 :
  label = keys ++ ch :: rest →
  keyboard_input fuel n t ch (mkHints (Some hint) chars ms0 ls0 keys) =
    Ok (if bool_decide (rest = []) then
          (if h_persist hint
           then mkHints (Some hint) chars ms (reverse (label_rest keys <$> ls)) []
           else mkHints None chars [] [] [], Some (mkHintMatch m (hyperlink x) hint))
        else (mkHints (Some hint) chars ms (reverse (label_rest keys <$> ls)) (keys ++ [ch]), None)).
Proof.
  intros Elab. apply lookup_lt_Some in Hm as Hi.
  assert (Hch : ch ∈ chars).
  { rewrite Forall_lookup in Hchars. destruct (Hchars _ _ Hl) as [_ Hc]. rewrite Elab in Hc.
    apply Forall_app in Hc as [_ Hc]. by inversion_clear Hc. }
  destruct (not_control ch Hch) as [E1 E2]. unfold keyboard_input. rewrite E1, E2. cbv zeta.
  rewrite (update_matches_ok t hint chars keys ms0 ls0 found g ls) by done.
  cbn [mbind exec_bind hs_hint hs_labels hs_matches hs_alphabet hs_keys].
  pose proof (find_label_spec ch (reverse (label_rest keys <$> ls)) 0) as G.
  destruct (find_label ch 0 _) as [[k l]|].
  - destruct G as (j & -> & Hj & Hh). simpl. destruct (shown_label keys j l Hj) as (Hjlt & l' & Hl' & ->).
    destruct (label_rest_prefix keys l') as [[E _]|(y & l'' & El' & Er)]; [by rewrite E in Hh|].
    rewrite Er in Hh |- *. injection Hh as ->. case_bool_decide as Hrest.
    + subst rest. assert (Hij : (length ms - 1 - i = length ms - 1 - j)%nat).
      { apply (Hfree _ _ _ _ Hl Hl'). rewrite Elab, El'. exists l''. by rewrite <- app_assoc. }
      assert (i = j) as <- by lia. rewrite Hl in Hl'. injection Hl' as <-.
      rewrite Elab in El'. apply app_inv_head in El'. injection El' as <-. simpl.
      unfold vec_get, zlookup. rewrite Nat2Z.id, Hm.
      destruct (Z.leb_spec 0 (Z.of_nat i)); [|lia]. cbn [mbind exec_bind]. rewrite Hx.
      cbn [mbind exec_bind]. by destruct (h_persist hint).
    + destruct l'' as [|y l'']; [exfalso|].
      * assert (Hij : (length ms - 1 - j = length ms - 1 - i)%nat).
        { apply (Hfree _ _ _ _ Hl' Hl). rewrite Elab, El'. exists rest. by rewrite <- app_assoc. }
        assert (i = j) as <- by lia. rewrite Hl in Hl'. injection Hl' as <-.
        rewrite Elab in El'. apply app_inv_head in El'. by injection El' as ->.
      * done.
  - exfalso. destruct (lookup_lt_is_Some_2 (reverse (label_rest keys <$> ls)) i) as [l Hil].
    { rewrite length_reverse, length_fmap. lia. }
    apply (G _ _ Hil). destruct (shown_label keys i l Hil) as (_ & l' & Hl' & ->).
    rewrite Hl in Hl'. injection Hl' as <-.
    destruct (label_rest_prefix keys label) as [[_ E]|(y & l'' & El' & Er)].
    + exfalso. apply E. by exists ch, rest.
    + rewrite Elab in El'. apply app_inv_head in El'. injection El' as <- <-. by rewrite Er.
Qed.

Lemma type_rest rest : ∀ keys ms0 ls0,
  label = keys ++ rest → rest ≠ [] →
  ∃ h', type_keys t rest (mkHints (Some hint) chars ms0 ls0 keys)
    = Ok (h', Some (mkHintMatch m (hyperlink x) hint), []).
Proof.
  induction rest as [|ch rest IH]; intros keys ms0 ls0 Elab Hrest; [done|]. simpl.
  rewrite (key_step keys ch rest ms0 ls0 Elab). cbn [mbind exec_bind].
  case_bool_decide as Hr; simpl; [subst rest; by eexists|].
  apply IH; [by rewrite <- app_assoc|done].
Qed.
End typing.

End claims.

(** ** Hyperlinks *)

Section hyperlinks.
Context `{AnsiLaws}.
Implicit Types (t : Term).

(** The hyperlink of the cell number [k] of the buffer, in reading order. *)
Definition link_at t (k : Z) : option Hyperlink :=
  g_cell (t_grid t) (mkPoint (k / columns t) (k mod columns t)) ≫= hyperlink.

(** Cell number [k] is in the buffer. *)
Definition cell_exists t (k : Z) : Prop := ∃ q, in_grid (t_grid t) q ∧ linear t q = k.

Lemma link_at_linear t (p : Point) :
  0 ≤ column p < columns t → link_at t (linear t p) = g_cell (t_grid t) p ≫= hyperlink.
Proof.
  intros Hp. unfold link_at, linear. rewrite Z.div_add_l, Z.div_small, Z.add_0_r by lia.
  rewrite (Z.add_comm (line p * _)), Z.mod_add, Z.mod_small by lia. by rewrite point_eta.
Qed.

Lemma hyperlink_run_spec B t (forward : bool) link fuel : ∀ (p : Point) it,
  clean_term B t → in_grid (t_grid t) p → it_point it = p →
  it_end it = mkPoint (screen_lines t - 1) (columns t - 1) →
  let s := if forward then 1 else -1 in
  let last := if forward then linear t (it_end it) else linear t (mkPoint (top_of t) 0) in
  s * (last - linear t p) < Z.of_nat fuel →
  wp (hyperlink_run fuel forward t link p it) (λ q, in_grid (t_grid t) q ∧
    0 ≤ s * (linear t q - linear t p) ∧
    (∀ k, 0 < s * (k - linear t p) ≤ s * (linear t q - linear t p) → link_at t k = Some link) ∧
    (cell_exists t (linear t q + s) → link_at t (linear t q + s) ≠ Some link)).
Proof.
  induction fuel as [|fuel IH]; intros p it W Hp Hit Hend s last Hf.
  { pose proof (linear_range (row_clean (columns t)) B t p W Hp). subst s last. rewrite Hend in Hf. destruct forward; lia. }
  simpl. apply wp_bind. wp_use (iter_step_spec (row_clean (columns t)) B t forward it).
  { exact W. } { by rewrite Hit. } { done. }
  intros [[[q x]|] it'] [He Hi].
  - destruct Hi as (-> & Hq & Hx & Hl). rewrite Hit in Hl. fold s in Hl.
    assert (Hk : link_at t (linear t p + s) = hyperlink x).
    { rewrite <- Hl, link_at_linear by (apply Hq). by rewrite Hx. }
    case_bool_decide as Hlink.
    + eapply wp_mono; [apply IH; [done|done|done|by rewrite He|]|].
      { rewrite He. fold s last. rewrite Hl. subst s. destruct forward; lia. }
      cbv zeta. fold s. intros r (Hr & Hd & Hb & Hn). rewrite Hl in Hd, Hb. split; [done|].
      assert (s = 1 ∨ s = -1) as Hs by (subst s; destruct forward; lia).
      split; [destruct Hs as [-> | ->]; lia|]. split; [|done].
      intros k Hk'. destruct (decide (k = linear t p + s)) as [-> |Hne]; [by rewrite Hk|].
      apply Hb. destruct Hs as [Hs|Hs]; rewrite Hs in *; lia.
    + apply wp_ret. split; [done|]. split; [lia|]. split; [intros; lia|]. intros _. by rewrite Hk.
  - apply wp_ret. split; [done|]. split; [lia|]. split; [intros; lia|].
    intros (r & Hr & El). pose proof (linear_range (row_clean (columns t)) B t r W Hr). rewrite Hit, Hend in Hi.
    subst s. destruct forward; lia.
Qed.

(** The hyperlink at a point, if its cell has one, is returned with the longest
    contiguous run of cells around the point that carry it: every cell of the range
    has this hyperlink, the cells next to its ends, where there are any, do not. *)
Theorem hyperlink_at_maximal (B : Z) t (p : Point) :
  clean_term B t → in_grid (t_grid t) p →
  ∃ x r, g_cell (t_grid t) p = Some x ∧ hyperlink_at t p = Ok r ∧
    match hyperlink x with
    | None => r = None
    | Some link => ∃ m, r = Some (link, m) ∧
        in_grid (t_grid t) (m_start m) ∧ in_grid (t_grid t) (m_end m) ∧
        linear t (m_start m) ≤ linear t p ≤ linear t (m_end m) ∧
        (∀ k, linear t (m_start m) ≤ k ≤ linear t (m_end m) → link_at t k = Some link) ∧
        (∀ k, k = linear t (m_start m) - 1 ∨ k = linear t (m_end m) + 1 →
           cell_exists t k → link_at t k ≠ Some link)
    end.
Proof.
  intros W Hp.
  assert (G : wp (grid_cell (t_grid t) p) (λ x, g_cell (t_grid t) p = Some x))
    by by apply (wp_term_cell (row_clean (columns t)) B).
  apply wp_exists in G as (x & Ex & Hx). exists x. unfold hyperlink_at. rewrite Ex.
  cbn [mbind exec_bind]. destruct (hyperlink x) as [link|] eqn:Hlink; [|by exists None].
  unfold iter_from. rewrite bottommost_line_ok, last_column_ok
    by (apply (grid_dims (row_clean (columns t))), W). cbn [mbind mret exec_bind exec_ret].
  change (screen_lines (t_grid t)) with (screen_lines t).
  change (columns (t_grid t)) with (columns t).
  set (it := mkIter p (mkPoint (screen_lines t - 1) (columns t - 1))).
  pose proof (linear_range (row_clean (columns t)) B t p W Hp) as Hr. unfold cells in Hr.
  assert (Hrun : ∀ fw, wp (hyperlink_run (cell_fuel t) fw t link p it) _)
    by (intros fw; apply (hyperlink_run_spec B t fw link (cell_fuel t) p it W Hp eq_refl eq_refl);
        unfold cell_fuel, it; cbn [it_end]; destruct fw; lia).
  destruct (wp_exists _ _ (Hrun true)) as (b & -> & Hb & Hbp & Hbl & Hbn).
  destruct (wp_exists _ _ (Hrun false)) as (a & -> & Ha & Hap & Hal & Han).
  cbn [mbind exec_bind]. eexists. split; [done|]. split; [done|]. eexists. split; [done|]. simpl.
  split; [done|]. split; [done|]. split; [lia|]. split.
  - intros k Hk. destruct (Z.lt_trichotomy k (linear t p)) as [?|[->|?]];
      [apply Hal; lia| |apply Hbl; lia].
    rewrite link_at_linear by apply Hp. by rewrite Hx.
  - intros k [-> | ->]; [apply Han|apply Hbn].
Qed.
End hyperlinks.

(** Hints for the expression [b] on a terminal with two of them, with the
    alphabet [jfkdls]. *)
Definition demo_hint : Hint := mkHint false (Some (lit_regex 98)) false false None HintCopy.
Definition demo_alphabet : list char := [106; 102; 107; 100; 108; 115].


(** [a], then [bc] as a hyperlink, then [d]. *)
Definition demo_link : VteHyperlink := mkVteHyperlink (Some [49]) [104; 47].
Definition link_calls : list call :=
  [Input 97; SetHyperlink (Some demo_link); Input 98; Input 99; SetHyperlink None; Input 100].
Definition link_term : Term := Eval vm_compute in run_or fresh_term (handle_all link_calls fresh_term).

Lemma link_term_clean : clean_term 36 link_term.
Proof.
  pose proof (handle_all_safe (row_clean 6) link_calls 0 fresh_term fresh_term_wf) as G.
  assert (E : handle_all link_calls fresh_term = Ok link_term)
    by (vm_cast_no_check (eq_refl (Ok link_term))).
  rewrite E in G. apply G; [done|]. repeat constructor.
Qed.

Lemma hyperlink_at_maximal_witness :
  let m := mkMatch (mkPoint 0 1) (mkPoint 0 2) in
  hyperlink_at link_term (mkPoint 0 2) = Ok (Some (mkHyperlink [49] [104; 47], m)) ∧
  link_at link_term 0 ≠ Some (mkHyperlink [49] [104; 47]).
Proof.
  destruct (hyperlink_at_maximal 36 link_term (mkPoint 0 2) link_term_clean)
    as (x & r & Hx & E & Hr); [split; vm_compute; (split; [discriminate|reflexivity])|].
  vm_compute in Hx. injection Hx as <-. destruct Hr as (m & -> & _ & _ & _ & _ & Hn).
  pose proof E as E'. vm_compute in E'. injection E' as <-. split; [exact E|].
  apply (Hn 0); [left; reflexivity|]. exists (mkPoint 0 0).
  split; [split; vm_compute; (split; [discriminate|reflexivity])|reflexivity].
Defined.
