(* ===== verification/ActionClaims.v ===== *)
(** * What user actions write and keep

    The theorems about ActionContext.v: pasted text cannot leave the brackets around
    it, mouse reports can be decoded, and typing in a search keeps the history. *)

From S2P Require Import Prelude Decimal Index Ansi GridCell Row Storage Cell Grid GridFacts GridOps.
From S2P Require Import Resize Selection Term TermFacts TermOps Handler HandlerFacts HandlerEdit.
From S2P Require Import HandlerSafe Session HandlerClaims Search RegexSearch Scheduler.
From S2P Require Import EventLoop FrameDamage Keyboard ActionContext ActionFacts Demo Witnesses.
#[local] Open Scope Z_scope.

Module ActionClaims.
Import Scheduler FrameDamage ActionContext ActionFacts.

(** ** Pasting *)

Lemma encode_utf8_bytes c b :
  is_char c → b ∈ encode_utf8 c → b = c ∨ 128 ≤ b.
Proof.
  unfold is_char, encode_utf8. intros Hc Hb. pose proof (Z.div_pos c 64). pose proof (Z.div_pos c 4096).
  pose proof (Z.div_pos c 262144). pose proof (Z.mod_pos_bound c 64).
  pose proof (Z.mod_pos_bound (c / 64) 64). pose proof (Z.mod_pos_bound (c / 4096) 64).
  destruct (c <? 128); [|destruct (c <? 2048); [|destruct (c <? 65536)]];
    rewrite ?elem_of_cons, ?elem_of_nil in Hb; naive_solver lia.
Qed.

Definition paste_body (s : text) : list Z := filter_paste s ≫= encode_utf8.

Lemma paste_body_clean s : Forall is_char s → 27 ∉ paste_body s ∧ 3 ∉ paste_body s.
Proof.
  intros Hs. assert (G : ∀ b, b ∈ paste_body s → b ≠ 27 ∧ b ≠ 3).
  { unfold paste_body, filter_paste. intros b (c & Hb & [Hc Hcs]%list_elem_of_filter)%list_elem_of_bind.
    rewrite Forall_forall in Hs. destruct (encode_utf8_bytes c b (Hs c Hcs) Hb) as [->|]; [done|lia]. }
  split; intros Hb; apply G in Hb; tauto.
Qed.

(** Behind a text without the first character of the marker, the marker occurs only
    at the end. *)
Lemma marker_at_end (m : Z) (marker body a b : list Z) :
  m ∉ body → m ∉ marker → body ++ m :: marker = a ++ (m :: marker) ++ b → a = body ∧ b = [].
Proof.
  revert a. induction body as [|c body IH]; intros a Hb Hm E.
  - destruct a as [|c a]; [|exfalso].
    + simpl in E. injection E as E. apply (f_equal length) in E as El. rewrite length_app in El.
      destruct b; [done|simpl in El; lia].
    + simpl in E. injection E as _ E. apply Hm. rewrite E. apply elem_of_app. right. by left.
  - apply not_elem_of_cons in Hb as [Hc Hb]. destruct a as [|c' a]; [simpl in E; congruence|].
    simpl in E. injection E as -> E. destruct (IH a Hb Hm E) as [-> ->]. done.
Qed.

(** ** Mouse reports *)

(** A program's view of a report: the position bytes are offset by 32, in UTF-8 mode
    as code points. *)
Definition read_pos (utf8 : bool) (s : list Z) : option (Z * list Z) :=
  match s with
  | b :: s' =>
      if utf8 && (192 <=? b) then
        match s' with b' :: s'' => Some ((b - 192) * 64 + (b' - 128) - 32, s'') | [] => None end
      else Some (b - 32, s')
  | [] => None
  end.

Definition expect (c : Z) (s : list Z) : option (list Z) :=
  match s with c' :: s' => if c =? c' then Some s' else None | [] => None end.

Definition read_number (s : list Z) : option (Z * list Z) :=
  match read_num None s with (Some k, s') => Some (k, s') | _ => None end.

(** The button, the column and the line, counted from one, and for reports in the
    extended form whether the button was pressed. *)
Definition decode_report (utf8 : bool) (s : list Z) : option (Z * Z * Z * option bool) :=
  match s with
  | 27 :: 91 :: 60 :: s =>
      '(b, s) ← read_number s; s ← expect 59 s;
      '(c, s) ← read_number s; s ← expect 59 s;
      '(l, s) ← read_number s;
      match s with
      | [f] => if f =? 77 then Some (b, c, l, Some true)
               else if f =? 109 then Some (b, c, l, Some false) else None
      | _ => None
      end
  | 27 :: 91 :: 77 :: b :: s =>
      '(c, s) ← read_pos utf8 s; '(l, s) ← read_pos utf8 s;
      match s with [] => Some (b - 32, c, l, None) | _ => None end
  | _ => None
  end.

Lemma read_number_decimal k s : 0 ≤ k < 10 ^ 20 → no_digit s → read_number (decimal k ++ s) = Some (k, s).
Proof. intros. unfold read_number. by rewrite read_num_number. Qed.

Lemma decode_sgr utf8 b c l st :
  0 ≤ b < 10 ^ 20 → 0 ≤ c < 10 ^ 20 → 0 ≤ l < 10 ^ 20 →
  decode_report utf8 ([27; 91; 60] ++ decimal b ++ [59] ++ decimal c ++ [59] ++ decimal l
    ++ [if st : bool then 77 else 109]) = Some (b, c, l, Some st).
Proof.
  intros Hb Hc Hl. simpl. rewrite read_number_decimal by done. simpl.
  rewrite read_number_decimal by done. simpl. rewrite read_number_decimal by (by destruct st). simpl.
  by destruct st.
Qed.

(** One position: its bytes and how they are read. *)
Lemma encode_pos_decodes utf8 pos :
  0 ≤ pos < (if utf8 : bool then 2015 else 223) →
  ∃ bytes, encode_pos utf8 pos = Ok bytes ∧ ∀ s, read_pos utf8 (bytes ++ s) = Some (pos + 1, s).
Proof.
  intros Hpos. unfold encode_pos. destruct (utf8 && (95 <=? pos)) eqn:E.
  - apply andb_true_iff in E as [-> Hp]. unfold mouse_pos_encode.
    pose proof (Z.div_pos (33 + pos) 64). divmod (33 + pos) 64.
    assert (Hl : Z.land (33 + pos) 63 = (33 + pos) mod 64) by (change 63 with (Z.ones 6); by rewrite Z.land_ones).
    rewrite usize_add_ok by lia. cbn [mbind exec_bind]. rewrite usize_add_ok by lia. cbn [mbind exec_bind].
    rewrite Hl, usize_add_ok by lia. eexists. split; [done|]. intros s. unfold as_u8. simpl.
    rewrite !Z.mod_small by lia. assert (192 <=? 192 + (33 + pos) / 64 = true) as -> by lia. f_equal. f_equal. lia.
  - assert (as_u8 pos = pos) as -> by (apply Z.mod_small; destruct utf8; simpl in E; lia).
    exists [33 + pos]. split.
    + unfold u8_add, checked. assert (in_u8 (33 + pos) = true) as ->; [|done].
      unfold in_u8. destruct utf8; simpl in E; lia.
    + intros s. simpl. assert (utf8 && (192 <=? 33 + pos) = false) as ->; [destruct utf8; simpl in *; lia|].
      f_equal. f_equal. lia.
Qed.

Lemma u8_add_ok a b : 0 ≤ a + b ≤ 255 → u8_add a b = Ok (a + b).
Proof. intros. unfold u8_add, checked. assert (in_u8 (a + b) = true) as ->; [unfold in_u8; lia|done]. Qed.

Definition modifier_bits (mods : Keyboard.ModifiersState) : Z :=
  (if Keyboard.shift_key mods then 4 else 0) + (if Keyboard.alt_key mods then 8 else 0)
  + (if Keyboard.control_key mods then 16 else 0).
Definition is_pressed (st : Keyboard.ElementState) : bool :=
  match st with Keyboard.Pressed => true | Keyboard.Released => false end.

Section claims.
Context `{AnsiLaws}.
Context (cfg : UiConfig) (size : SizeInfo) (window : Z) (compile : text → option RegexSearch).
Context (fuel n : nat).
Implicit Types (x : Ctx) (p : Point).

(** C21: pasted text cannot leave the brackets around it: in bracketed paste mode a paste
    writes the start marker, the text without escape and end-of-text characters, and
    the end marker, and the end marker occurs nowhere before its end, whatever the
    text contains. *)
Theorem paste_stays_bracketed (B : Z) x (s : text) :
  clean_term B (x_term x) → size_ok size → search_active x = false →
  char_pending (x_inline x) = false → has_mode (x_term x) TermMode.BRACKETED_PASTE = true →
  0 ≤ mouse_x (x_mouse x) → 0 ≤ mouse_y (x_mouse x) → Forall is_char s →
  ∃ x' msgs, paste cfg size window compile fuel n s true x = Ok x' ∧
    x_channel x' = x_channel x ++ msgs ∧
    mjoin (EventLoop.inputs msgs) = PASTE_START ++ paste_body s ++ PASTE_END ∧
    ∀ a b, paste_body s ++ PASTE_END = a ++ PASTE_END ++ b → a = paste_body s ∧ b = [].
Proof.
  intros W Hsize Hs Hc Hm Hx Hy Hchars. unfold paste. rewrite Hs, Hc, Hm. simpl.
  destruct (wp_exists _ _ (on_terminal_input_start_spec (row_clean (columns (x_term x))) cfg size window
    Hsize B x W Hs Hx Hy)) as (x1 & -> & Hch & _). cbn [mbind exec_bind].
  fold (paste_body s). set (body := paste_body s).
  eexists _, ([EventLoop.Input PASTE_START] ++ (if bool_decide (body = []) then [] else [EventLoop.Input body])
    ++ [EventLoop.Input PASTE_END]). split; [done|]. split; [|split].
  - unfold write_to_pty. simpl. rewrite Hch. unfold EventLoop.notify.
    rewrite (bool_decide_eq_false_2 (PASTE_START = [])), (bool_decide_eq_false_2 (PASTE_END = [])) by done.
    case_bool_decide; by rewrite <- !(assoc_L app).
  - case_bool_decide as Hb; simpl; [by rewrite Hb|done].
  - intros a b E. destruct (paste_body_clean s Hchars) as [Hesc _].
    apply (marker_at_end 27 [91; 50; 48; 49; 126] body a b); [done| |done].
    apply (bool_decide_unpack _). vm_compute. exact I.
Qed.

Lemma notify_report x (bytes : list Z) :
  bytes ≠ [] → x_channel (write_to_pty bytes x) = x_channel x ++ [EventLoop.Input bytes].
Proof. intros Hb. unfold write_to_pty, EventLoop.notify. simpl. by rewrite bool_decide_eq_false_2. Qed.

Lemma normal_report_spec p (b : Z) x :
  let utf8 := has_mode (x_term x) TermMode.UTF8_MOUSE in
  let limit := if utf8 then 2015 else 223 in
  0 ≤ line p ≤ 536870912 → 0 ≤ column p → 0 ≤ b ≤ 127 →
  ∃ x', normal_mouse_report p b x = Ok x' ∧
    if (line p <? limit) && (column p <? limit) then
      ∃ bytes, x_channel x' = x_channel x ++ [EventLoop.Input bytes] ∧
        decode_report utf8 bytes = Some (b, column p + 1, line p + 1, None)
    else x' = x.
Proof.
  intros utf8 limit Hl Hc Hb. unfold normal_mouse_report. fold utf8. fold limit.
  destruct (_ && _) eqn:E; [apply andb_true_iff in E as [El Ec]|].
  - assert ((limit <=? line p) || (limit <=? column p) = false) as -> by lia.
    assert (as_usize (line p) = line p) as -> by (casts; lia). rewrite u8_add_ok by lia.
    destruct (encode_pos_decodes utf8 (column p)) as (bc & -> & Rc); [fold limit; lia|].
    destruct (encode_pos_decodes utf8 (line p)) as (bl & -> & Rl); [fold limit; lia|].
    cbn [mbind exec_bind]. eexists. split; [done|]. eexists. split; [by apply notify_report|].
    specialize (Rl []). rewrite app_nil_r in Rl. simpl. rewrite Rc. simpl. rewrite Rl. simpl. repeat f_equal. lia.
  - assert ((limit <=? line p) || (limit <=? column p) = true) as -> by lia. by exists x.
Qed.

(** C22: every mouse report can be read back: a report for a button on a visible line is
    one message whose bytes a program decodes to the button with its modifiers and the
    cell under the mouse, counted from one; in the extended form with press and
    release at any position, otherwise with button three for a release and only as far
    as the mode's encoding reaches, beyond which nothing is sent.  Nothing is
    sent for lines in the scrollback. *)
Theorem mouse_report_decodes (mods : Keyboard.ModifiersState) (button : Z) (st : Keyboard.ElementState) x :
  let t := x_term x in
  let utf8 := has_mode t TermMode.UTF8_MOUSE in
  let limit := if utf8 then 2015 else 223 in
  let code b := b + modifier_bits mods in
  size_ok size → 0 ≤ display_offset (t_grid t) ≤ 536870912 → 0 ≤ mouse_x (x_mouse x) →
  0 ≤ mouse_y (x_mouse x) → 0 ≤ button ≤ 99 →
  ∃ p x', mouse_point size (x_mouse x) (display_offset (t_grid t)) = Ok p ∧
    mouse_report size mods button st x = Ok x' ∧ 0 ≤ column p < si_columns size ∧
    if line p <? 0 then x' = x
    else if has_mode t TermMode.SGR_MOUSE then
      ∃ bytes, x_channel x' = x_channel x ++ [EventLoop.Input bytes] ∧
        decode_report utf8 bytes = Some (code button, column p + 1, line p + 1, Some (is_pressed st))
    else if (line p <? limit) && (column p <? limit) then
      ∃ bytes, x_channel x' = x_channel x ++ [EventLoop.Input bytes] ∧
        decode_report utf8 bytes
          = Some (code (if is_pressed st then button else 3), column p + 1, line p + 1, None)
    else x' = x.
Proof.
  intros t utf8 limit code Hsize Ho Hx Hy Hb.
  destruct (wp_exists _ _ (mouse_point_spec size Hsize (x_mouse x) _ Ho Hx Hy)) as (p & Ep & Hc & Hl).
  assert (Hm : 0 ≤ modifier_bits mods ≤ 28) by (unfold modifier_bits; repeat case_match; lia).
  exists p. unfold mouse_report. fold t. rewrite Ep. cbn [mbind exec_bind]. fold (modifier_bits mods).
  destruct Hsize as (_ & _ & _ & _ & Hcols & Hlines).
  destruct (Z.ltb_spec (line p) 0); [by exists x|]. destruct (has_mode t TermMode.SGR_MOUSE).
  - rewrite u8_add_ok by lia. cbn [mbind exec_bind]. unfold sgr_mouse_report.
    rewrite usize_add_ok by lia. cbn [mbind exec_bind]. rewrite i32_add_ok by lia. cbn [mbind exec_bind].
    eexists. split_and!; [done..|lia|lia|]. eexists. split; [by apply notify_report|].
    rewrite <- (decode_sgr utf8 _ _ _ (is_pressed st)) by (unfold code; lia). by destruct st.
  - assert (G : ∀ b, 0 ≤ b ≤ 127 → _) by (intros b Hb'; exact (normal_report_spec p b x ltac:(lia) ltac:(lia) Hb')).
    destruct st; cbn [is_pressed]; rewrite u8_add_ok by lia; cbn [mbind exec_bind].
    + destruct (G (button + modifier_bits mods)) as (x' & E & Q); [lia|]. by exists x'.
    + destruct (G (3 + modifier_bits mods)) as (x' & E & Q); [lia|]. by exists x'.
Qed.

(** ** The search history *)

(** The history is within its limit and the index within the history. *)
Definition index_ok (i : option Z) (h : list text) : Prop :=
  match i with Some i => 0 ≤ i < zlen h | None => True end.
Definition history_ok (ss : SearchState) : Prop :=
  zlen (history ss) ≤ MAX_SEARCH_HISTORY_SIZE ∧ index_ok (history_index ss) (history ss).

(** Neither the history nor the index changes. *)
Definition same_history x x' : Prop :=
  history (x_search x') = history (x_search x) ∧ history_index (x_search x') = history_index (x_search x).

Lemma same_history_trans x1 x2 x3 : same_history x1 x2 → same_history x2 x3 → same_history x1 x3.
Proof. unfold same_history. intuition congruence. Qed.
Lemma same_history_ok x x' : same_history x x' → history_ok (x_search x) → history_ok (x_search x').
Proof. unfold same_history, history_ok. by intros [-> ->]. Qed.

Lemma on_term_history (f : Term → exec Term) x x0 : same_history x0 x → wlp (on_term f x) (same_history x0).
Proof. intros Hx. unfold on_term. by destruct (f (x_term x)). Qed.

Lemma unschedule_history tp x x0 : same_history x0 x → same_history x0 (unschedule_timer window tp x).2.
Proof. intros Hx. unfold unschedule_timer. by destruct (unschedule _ _). Qed.

Lemma search_reset_history x : wlp (search_reset_state window x) (same_history x).
Proof.
  unfold search_reset_state. destruct (unschedule_history DelayedSearch x x) as [E1 E2]; [done|].
  set (x1 := (unschedule_timer window DelayedSearch x).2) in *. destruct (negb _); [by split|].
  apply wlp_bind. eapply wlp_mono; [by apply (on_term_history _ _ x)|]. intros x2 [E3 E4]. by split.
Qed.

Lemma goto_match_history limit x : wlp (goto_match window fuel n limit x) (same_history x).
Proof.
  unfold goto_match. destruct (dfas _) as [regex|]; [|done].
  set (limit' := match limit with Some _ => _ | None => _ end). clearbody limit'.
  apply wlp_bind, wlp_any. intros o. apply wlp_bind, wlp_any. intros found. apply wlp_bind.
  eapply (wlp_mono _ (same_history x)); [|intros x' [E1 E2]; by split]. destruct found as [m|].
  - apply wlp_bind. eapply wlp_mono; [by apply (on_term_history _ _ x)|]. intros x1 [E1 E2].
    apply wlp_bind, wlp_any. intros moved. apply wlp_bind, wlp_any. intros delta. by apply unschedule_history.
  - destruct limit'; [|apply search_reset_history]. simpl. by destruct (scheduled _ _).
Qed.

Lemma update_search_history x : wlp (update_search cfg window compile fuel n x) (same_history x).
Proof.
  unfold update_search. destruct (active_regex x) as [regex|]; [|done].
  set (x1 := if hide_when_typing cfg then _ else x). assert (H1 : same_history x x1) by (by destruct (hide_when_typing cfg)).
  clearbody x1. apply wlp_bind. eapply (wlp_mono _ (same_history x)); [|intros x' [E1 E2]; by split].
  destruct regex as [|c regex].
  - apply wlp_bind. eapply wlp_mono; [apply search_reset_history|]. intros x2 [E1 E2]. destruct H1. split; simpl; congruence.
  - eapply wlp_mono; [apply goto_match_history|]. intros x2 E. eapply same_history_trans; [exact H1|exact E].
Qed.

Lemma edit_history_spec (ss : SearchState) :
  history_ok ss → is_Some (history_index ss) →
  ∃ ss', edit_history ss = Ok ss' ∧ history_ok ss' ∧ history_index ss' = Some 0 ∧
    tail (history ss') = tail (history ss).
Proof.
  intros [Hlen Hi] [i Ei]. unfold edit_history, index_ok in *. rewrite Ei in *.
  destruct (decide (i = 0)) as [->|Hne]; [exists ss; unfold history_ok; by rewrite Ei|].
  destruct (wp_exists _ _ (wp_vec_get (history ss) i (λ _, True) Hi (λ _ _, I))) as (r & Er & _).
  destruct (wp_exists _ _ (wp_vec_set (history ss) 0 r (eq (<[0%nat:=r]> (history ss))) ltac:(lia) eq_refl))
    as (h & Eh & <-).
  exists (ss_with_index (Some 0) (ss_with_history (<[0%nat:=r]> (history ss)) ss)). split_and!.
  - destruct i; [done| |lia]. by rewrite Er; simpl; rewrite Eh.
  - unfold history_ok. simpl. rewrite zlen_insert. lia.
  - done.
  - simpl. by destruct (history ss).
Qed.

(** The actions on a search. *)
Inductive search_action :=
  | SearchStart (d : Direction) | SearchCancel | SearchConfirm | SearchInput (c : char) | SearchPopWord
  | SearchPrevious | SearchNextEntry | SearchAdvance (d : Direction) | SearchDelayed.

Definition search_act (a : search_action) : Ctx → exec Ctx :=
  match a with
  | SearchStart d => start_search d
  | SearchCancel => cancel_search cfg window
  | SearchConfirm => confirm_search cfg window fuel n
  | SearchInput c => search_input cfg window compile fuel n c
  | SearchPopWord => search_pop_word cfg window compile fuel n
  | SearchPrevious => search_history_previous cfg window compile fuel n
  | SearchNextEntry => search_history_next cfg window compile fuel n
  | SearchAdvance d => advance_search_origin window fuel n d
  | SearchDelayed => goto_match window fuel n None
  end.

Inductive search_reachable : Ctx → Prop :=
  | search_initial x : x_search x = search_default → search_reachable x
  | search_step a x x' : search_reachable x → search_act a x = Ok x' → search_reachable x'.

Lemma copy_selection_history ty x x0 : same_history x0 x → wlp (copy_selection cfg ty x) (same_history x0).
Proof.
  intros Hx. unfold copy_selection. apply wlp_bind, wlp_any. intros [[|c s]|]; done.
Qed.

Lemma update_selection_history p side x x0 :
  same_history x0 x → wlp (update_selection p side x) (same_history x0).
Proof.
  intros Hx. unfold update_selection. destruct (t_selection _) as [s|]; [|done].
  apply wlp_bind, wlp_any. intros b. by destruct (_ && _).
Qed.

Lemma cancel_search_history x :
  wlp (cancel_search cfg window x) (λ x', history (x_search x') = history (x_search x) ∧
    history_index (x_search x') = None).
Proof.
  unfold cancel_search. apply wlp_bind. eapply (wlp_mono _ (same_history x)); [|intros x' [E1 E2]; by split].
  destruct (vi_mode x); [apply search_reset_history|]. destruct (focused_match _) as [m|]; [|done].
  apply wlp_bind. eapply wlp_mono; [by apply (copy_selection_history _ _ x)|]. intros x1 H1.
  apply wlp_bind. eapply wlp_mono; [by apply update_selection_history|]. intros x2 H2.
  by apply copy_selection_history.
Qed.

Lemma confirm_search_history x :
  wlp (confirm_search cfg window fuel n x) (λ x', history (x_search x') = history (x_search x) ∧
    history_index (x_search x') = None).
Proof.
  unfold confirm_search. destruct (negb _); [apply cancel_search_history|]. apply wlp_bind.
  eapply (wlp_mono _ (same_history x)); [|intros x' [E1 E2]; by split].
  destruct (scheduled _ _); [apply goto_match_history|done].
Qed.

Lemma advance_search_history d x : wlp (advance_search_origin window fuel n d x) (same_history x).
Proof.
  unfold advance_search_origin. apply wlp_bind. eapply (wlp_mono _ (same_history x)).
  { destruct (focused_match _) as [m|]; [|done]. apply wlp_bind, wlp_any. intros o. apply wlp_bind.
    eapply wlp_mono; [by apply (on_term_history _ _ x)|]. intros x' [E1 E2]. by split. }
  intros x1 [E1 E2]. apply wlp_bind. eapply wlp_mono; [apply goto_match_history|]. intros x2 [E3 E4].
  simpl in E3, E4.
  set (x3 := upd_search _ x2). assert (H3 : same_history x x3) by (split; simpl; congruence). clearbody x3.
  cbv zeta. destruct (focused_match _) as [m|]; [|done]. apply wlp_bind.
  eapply wlp_mono; [by apply (on_term_history _ _ x)|]. intros x4 H4. apply wlp_bind, wlp_any. intros delta.
  apply wlp_bind, wlp_any. intros back. apply wlp_bind. eapply wlp_mono; [by apply (on_term_history _ _ x)|].
  intros x5 [E5 E6]. by split.
Qed.

Lemma push_history_len (h : list text) :
  zlen h ≤ MAX_SEARCH_HISTORY_SIZE → 0 < zlen (push_history h) ≤ MAX_SEARCH_HISTORY_SIZE.
Proof.
  unfold push_history, MAX_SEARCH_HISTORY_SIZE, zlen. change (Z.to_nat 255) with 255%nat.
  intros Hl. destruct h as [|[|c e] h]; rewrite ?length_take; cbn [length] in *; lia.
Qed.

Lemma start_search_history d x :
  wlp (start_search d x) (λ x', history (x_search x') = push_history (history (x_search x)) ∧
    history_index (x_search x') = Some 0).
Proof.
  unfold start_search. cbv zeta. apply wlp_bind. destruct (vi_mode _).
  - apply wlp_bind, wlp_any. intros b. apply wlp_bind, wlp_any. intros o. done.
  - do 5 (apply wlp_bind, wlp_any; intros ?). done.
Qed.

Lemma same_keeps x1 x' (P : list text → Prop) :
  same_history x1 x' → history_ok (x_search x1) → P (history (x_search x1)) →
  history_ok (x_search x') ∧ P (history (x_search x')).
Proof. intros Hs Ho HP. split; [by eapply same_history_ok|]. by rewrite (proj1 Hs). Qed.

Lemma search_input_history c x :
  history_ok (x_search x) →
  wlp (search_input cfg window compile fuel n c x) (λ x', history_ok (x_search x') ∧
    tail (history (x_search x')) = tail (history (x_search x))).
Proof.
  intros Ho. unfold search_input. destruct (history_index (x_search x)) as [i|] eqn:Ei; [|done].
  destruct (edit_history_spec (x_search x) Ho) as (ss & -> & Hss & Hi & Ht); [by eexists|].
  cbn [mbind exec_bind]. apply wlp_bind, wlp_any. intros regex. cbv zeta.
  destruct (if (c =? 8) || (c =? 127) then _ else _) as [e|]; [|done]. apply wlp_bind.
  destruct Hss as [Hlen Hidx]. rewrite Hi in Hidx.
  destruct (wp_exists _ _ (wp_vec_set (history ss) 0 e (eq (<[0%nat:=e]> (history ss))) ltac:(simpl in *; lia) eq_refl))
    as (h & -> & <-). simpl.
  eapply wlp_mono; [apply update_search_history|]. intros x' Hx'.
  eapply (same_keeps _ x' (λ h, tail h = tail (history (x_search x))) Hx').
  - assert (Hx1 : history_ok (ss_with_history (<[0%nat:=e]> (history ss)) ss)).
    { unfold history_ok. simpl. rewrite Hi. simpl. by rewrite zlen_insert. }
    by destruct (vi_mode _).
  - destruct (vi_mode _); simpl; rewrite <- Ht; by destruct (history ss).
Qed.

Lemma search_pop_history x :
  history_ok (x_search x) →
  wlp (search_pop_word cfg window compile fuel n x) (λ x', history_ok (x_search x') ∧
    ∀ k, history_index (x_search x) ≠ Some (Z.of_nat k) →
      history (x_search x') !! k = history (x_search x) !! k).
Proof.
  intros Ho. unfold search_pop_word. destruct (history_index (x_search x)) as [i|] eqn:Ei; [|done].
  destruct (active_regex x) as [r|]; [|done]. pose proof Ho as [Hlen Hi]. rewrite Ei in Hi. simpl in Hi.
  set (e := to_last_space (trim_end r)). apply wlp_bind.
  destruct (wp_exists _ _ (wp_vec_set (history (x_search x)) i e (eq (<[Z.to_nat i:=e]> (history (x_search x)))) Hi eq_refl))
    as (h & -> & <-). simpl.
  eapply wlp_mono; [apply update_search_history|]. intros x' Hx'.
  apply (same_keeps _ x' (λ h, ∀ k, Some i ≠ Some (Z.of_nat k) → h !! k = history (x_search x) !! k) Hx');
    [split; simpl; rewrite ?Ei; simpl; by rewrite zlen_insert|].
  intros k Hk. simpl. apply list_lookup_insert_ne. intros <-. apply Hk. f_equal. lia.
Qed.

Lemma search_previous_history x :
  history_ok (x_search x) →
  wlp (search_history_previous cfg window compile fuel n x) (λ x', history_ok (x_search x') ∧
    history (x_search x') = history (x_search x)).
Proof.
  intros Ho. unfold search_history_previous. destruct (history_index _) as [i|] eqn:Ei; [|done].
  pose proof Ho as [Hlen Hi]. rewrite Ei in Hi. simpl in Hi. unfold MAX_SEARCH_HISTORY_SIZE in Hlen.
  rewrite usize_add_ok by lia. cbn [mbind exec_bind]. destruct (Z.leb_spec (zlen (history (x_search x))) (i + 1)); [done|].
  eapply wlp_mono; [apply update_search_history|]. intros x' Hx'.
  apply (same_keeps _ x' (λ h, h = history (x_search x)) Hx'); [|done].
  split; simpl; [unfold MAX_SEARCH_HISTORY_SIZE; lia|lia].
Qed.

Lemma search_next_history x :
  history_ok (x_search x) →
  wlp (search_history_next cfg window compile fuel n x) (λ x', history_ok (x_search x') ∧
    history (x_search x') = history (x_search x)).
Proof.
  intros Ho. unfold search_history_next. destruct (history_index _) as [i|] eqn:Ei; [|done].
  pose proof Ho as [Hlen Hi]. rewrite Ei in Hi. simpl in Hi. destruct i as [|i|i]; [done| |lia].
  unfold MAX_SEARCH_HISTORY_SIZE in Hlen.
  rewrite usize_sub_ok by lia. cbn [mbind exec_bind]. 
  eapply wlp_mono; [apply update_search_history|]. intros x' Hx'.
  apply (same_keeps _ x' (λ h, h = history (x_search x)) Hx'); [|done].
  split; simpl; [unfold MAX_SEARCH_HISTORY_SIZE; lia|lia].
Qed.

(** What an action does to the history. *)
Definition history_effect (a : search_action) (i : option Z) (h h' : list text) : Prop :=
  match a with
  | SearchStart _ => h' = push_history h
  | SearchInput _ => tail h' = tail h
  | SearchPopWord => ∀ k, i ≠ Some (Z.of_nat k) → h' !! k = h !! k
  | _ => h' = h
  end.

Lemma search_act_history a x :
  history_ok (x_search x) →
  wlp (search_act a x) (λ x', history_ok (x_search x') ∧
    history_effect a (history_index (x_search x)) (history (x_search x)) (history (x_search x'))).
Proof.
  intros Ho. pose proof (proj1 Ho) as Hlen. assert (Hsame : ∀ x', same_history x x' →
    history_ok (x_search x') ∧ history (x_search x') = history (x_search x))
    by (intros x' Hs; split; [by eapply same_history_ok|apply Hs]).
  destruct a; simpl.
  - eapply wlp_mono; [apply start_search_history|]. intros x' [E1 E2]. split; [|done].
    pose proof (push_history_len _ Hlen). split; rewrite ?E2, E1; simpl; lia.
  - eapply wlp_mono; [apply cancel_search_history|]. intros x' [E1 E2]. unfold history_ok. by rewrite E1, E2.
  - eapply wlp_mono; [apply confirm_search_history|]. intros x' [E1 E2]. unfold history_ok. by rewrite E1, E2.
  - by apply search_input_history.
  - by apply search_pop_history.
  - by apply search_previous_history.
  - by apply search_next_history.
  - eapply wlp_mono; [apply advance_search_history|]. done.
  - eapply wlp_mono; [apply goto_match_history|]. done.
Qed.

Lemma search_reachable_ok x : search_reachable x → history_ok (x_search x).
Proof.
  induction 1 as [x E|a x x' Hr IH E]; [rewrite E; done|].
  pose proof (search_act_history a x IH) as Hw. rewrite E in Hw. apply Hw.
Qed.

(** The search history is always sound: behind any sequence of search actions it has
    at most 255 entries and the active entry exists, so that editing it never indexes
    out of range; moving through the history and leaving a search change no
    entry, typing changes at most the newest entry, and deleting a word at most the
    active one. *)
Lemma search_history_sound a x x' :
  search_reachable x → search_act a x = Ok x' →
  zlen (history (x_search x')) ≤ 255 ∧
  (is_Some (history_index (x_search x')) → is_Some (active_regex x')) ∧
  (∃ ss, edit_history (x_search x') = Ok ss) ∧
  history_effect a (history_index (x_search x)) (history (x_search x)) (history (x_search x')).
Proof.
  intros Hr E. pose proof (search_act_history a x (search_reachable_ok x Hr)) as Hw. rewrite E in Hw.
  destruct Hw as [Ho He]. split; [apply Ho|]. split; [|split; [|done]].
  - intros [i Ei]. destruct Ho as [_ Hi]. unfold active_regex. rewrite Ei in *. simpl in *.
    destruct (zlookup (history (x_search x')) i) eqn:El; [by eexists|].
    exfalso. unfold zlookup in El. case_match; [|lia]. apply lookup_ge_None in El. unfold zlen in Hi. lia.
  - destruct (history_index (x_search x')) as [i|] eqn:Ei.
    + destruct (edit_history_spec (x_search x') Ho) as (ss & ? & _); [by eexists|]. by exists ss.
    + exists (x_search x'). unfold edit_history. by rewrite Ei.
Qed.
End claims.

(** ** A concrete window

    A window of 20 by 10 pixel cells over the demonstration terminal, with bracketed
    paste and extended mouse reports. *)
Definition mode_calls : list call :=
  [Input 97; SetPrivateMode (PrivateNamed BracketedPaste); SetPrivateMode (PrivateNamed SgrMouse)].
Definition mode_term : Term := Eval vm_compute in run_or fresh_term (handle_all mode_calls fresh_term).

Lemma mode_term_clean : clean_term 18 mode_term.
Proof.
  pose proof (handle_all_safe (row_clean 6) mode_calls 0 fresh_term fresh_term_wf) as G.
  assert (E : handle_all mode_calls fresh_term = Ok mode_term) by (vm_cast_no_check (eq_refl (Ok mode_term))).
  rewrite E in G. apply G; [done|]. repeat constructor.
Qed.

Definition demo_ui : UiConfig := mkUiConfig false true (λ _, None) 750000000 5000000000.
Definition demo_window : SizeInfo := mkSizeInfo 60 60 10 20 0 0 3 6.
Definition demo_ctx (t : Term) : Ctx :=
  mkCtx t false (mkMouse Keyboard.Released Keyboard.Released 0 MouseLeft NoClick Left false false 25 41)
    search_default inline_default [] [] (mkScheduler [] []) (tracker_new 3 6) false false false false true
    false 0.
Definition no_compile : text → option RegexSearch := λ _, None.

Lemma demo_window_ok : ActionFacts.size_ok demo_window.
Proof. unfold ActionFacts.size_ok. simpl. lia. Qed.

Lemma paste_stays_bracketed_witness :
  ∃ x' msgs, paste demo_ui demo_window 0 no_compile 10 10 [104; 27; 91; 50; 48; 49; 126; 105] true (demo_ctx mode_term)
    = Ok x' ∧ x_channel x' = msgs ∧
    mjoin (EventLoop.inputs msgs) = PASTE_START ++ [104; 91; 50; 48; 49; 126; 105] ++ PASTE_END.
Proof.
  destruct (paste_stays_bracketed demo_ui demo_window 0 no_compile 10 10 18 (demo_ctx mode_term)
    [104; 27; 91; 50; 48; 49; 126; 105]) as (x' & msgs & E & Hc & Hm & _).
  - exact mode_term_clean.
  - exact demo_window_ok.
  - reflexivity.
  - reflexivity.
  - vm_compute. reflexivity.
  - vm_compute. discriminate.
  - vm_compute. discriminate.
  - unfold is_char. repeat constructor; lia.
  - exists x', msgs. split; [exact E|]. split; [exact Hc|exact Hm].
Defined.

Lemma mouse_report_decodes_witness :
  ∃ x' bytes, mouse_report demo_window (Keyboard.mkMods true false false false) 2 Keyboard.Pressed (demo_ctx mode_term)
    = Ok x' ∧ x_channel x' = [EventLoop.Input bytes] ∧
    decode_report false bytes = Some (6, 3, 3, Some true).
Proof.
  destruct (mouse_report_decodes demo_window (Keyboard.mkMods true false false false) 2 Keyboard.Pressed
    (demo_ctx mode_term)) as (p & x' & Ep & Er & _ & G).
  - exact demo_window_ok.
  - vm_compute. split; discriminate.
  - vm_compute. discriminate.
  - vm_compute. discriminate.
  - lia.
  - vm_compute in Ep. injection Ep as <-. vm_compute in G. destruct G as (bytes & Eb & Ed).
    exists x', bytes. split; [exact Er|]. split; [exact Eb|exact Ed].
Defined.

(** A search, then [a], then a second search with [b c], then the first one again. *)
Fixpoint search_acts (l : list search_action) (x : Ctx) : exec Ctx :=
  match l with
  | [] => mret x
  | a :: l => x ← search_act demo_ui 0 no_compile 10 10 a x; search_acts l x
  end.
Definition after_searches (l : list search_action) : Ctx :=
  match search_acts l (demo_ctx fresh_term) with Ok x => x | Panic _ => demo_ctx fresh_term end.

Definition two_searches : list search_action :=
  [SearchStart Right; SearchInput 97; SearchCancel; SearchStart Right; SearchInput 98; SearchPrevious].

(** Typing edits a copy of the previewed entry, but deleting a word edits the entry of
    the history itself: the earlier search is lost. *)
Example pop_word_edits_history :
  history (x_search (after_searches two_searches)) = [[98]; [97]] ∧
  history (x_search (after_searches (two_searches ++ [SearchInput 99]))) = [[97; 99]; [97]] ∧
  history (x_search (after_searches (two_searches ++ [SearchPopWord]))) = [[98]; []].
Proof. vm_compute. done. Qed.
End ActionClaims.
