(* ===== verification/InputClaims.v ===== *)
(** * Where keys go

    While vi mode or a search is active, no key writes to the pseudo terminal with the
    default bindings; otherwise a key that no binding takes is written as its
    encoding says. *)

From S2P Require Import Prelude Decimal Index Ansi GridCell Row Storage Cell Grid GridFacts GridOps.
From S2P Require Import Resize Selection Term TermFacts TermOps Handler HandlerFacts HandlerEdit.
From S2P Require Import HandlerSafe Session HandlerClaims Search RegexSearch ViMode Hints.
From S2P Require Import Scheduler EventLoop FrameDamage MessageBar Keyboard ActionContext ActionFacts.
From S2P Require Import Bindings InputProcessor Demo Witnesses ActionClaims.
#[local] Open Scope Z_scope.

Module InputClaims.
Import Keyboard Scheduler FrameDamage ActionContext ActionFacts Bindings InputProcessor ActionClaims.

Section channel.
Context `{Ansi}.
Context (cfg : UiConfig) (size : SizeInfo) (window : Z) (compile : text → option RegexSearch).
Context (fuel n : nat).
Implicit Types (x : Ctx) (ch : list (EventLoop.Msg WindowSize)).

(** ** Operations that write nothing *)

(** Unless it panics, the operation ends with the channel [ch]. *)
Definition quiet ch (m : exec Ctx) : Prop := wlp m (λ x, x_channel x = ch).

Lemma quiet_ret ch x : x_channel x = ch → quiet ch (mret x).
Proof. done. Qed.
Lemma quiet_bind ch m (f : Ctx → exec Ctx) :
  quiet ch m → (∀ x, x_channel x = ch → quiet ch (f x)) → quiet ch (m ≫= f).
Proof. intros Hm Hf. apply wlp_bind. by eapply wlp_mono. Qed.
Lemma quiet_any {A} ch (m : exec A) (f : A → exec Ctx) : (∀ a, quiet ch (f a)) → quiet ch (m ≫= f).
Proof. intros Hf. apply wlp_bind. by apply wlp_any. Qed.
Lemma quiet_term ch f x : x_channel x = ch → quiet ch (on_term f x).
Proof. intros. unfold on_term. by apply quiet_any. Qed.
End channel.

Create HintDb quiet.
#[export] Hint Resolve quiet_ret quiet_term : quiet.

(** Walks through an operation; operations with a lemma in the database are not
    unfolded. *)
Ltac quiet_step :=
  lazymatch goal with
  | |- quiet _ (mret _) => apply quiet_ret
  | |- quiet _ (Panic _) => exact I
  | |- quiet _ (if ?b then _ else _) => destruct b
  | |- quiet _ (match ?o with _ => _ end) => destruct o
  | |- quiet _ (let '(_, _) := ?p in _) => destruct p
  | |- quiet _ (_ ≫= _) => first [eapply quiet_bind; [|intros ? ?] | apply quiet_any; intros ?]
  | |- quiet _ _ => solve [eauto with quiet]
  end.
Ltac quiet_auto := repeat (cbv zeta; first [solve [eauto with quiet] | quiet_step]); simpl; auto.

Section operations.
Context `{Ansi}.
Context (cfg : UiConfig) (size : SizeInfo) (window : Z) (compile : text → option RegexSearch).
Context (fuel n : nat).
Implicit Types (x : Ctx) (ch : list (EventLoop.Msg WindowSize)).

Lemma unschedule_channel tp x : x_channel (unschedule_timer window tp x).2 = x_channel x.
Proof. unfold unschedule_timer. by destruct (unschedule _ _). Qed.

Lemma typing_channel x : x_channel (on_typing_start cfg window x) = x_channel x.
Proof. apply (on_typing_start_frame cfg window x). Qed.
End operations.

(** The channel of an updated context. *)
Ltac channel :=
  simpl; rewrite ?typing_channel, ?unschedule_channel; simpl; auto;
  repeat (case_match; simpl; rewrite ?typing_channel, ?unschedule_channel; simpl; auto).
#[export] Hint Extern 1 (x_channel _ = _) => solve [channel] : quiet.
Ltac quiet_op := intros; cbv zeta; quiet_auto; try solve [channel].

Section selections.
Context `{Ansi}.
Context (cfg : UiConfig) (size : SizeInfo) (window : Z) (compile : text → option RegexSearch).
Context (fuel n : nat).
Implicit Types (x : Ctx) (ch : list (EventLoop.Msg WindowSize)).

Lemma clear_selection_quiet ch x : x_channel x = ch → quiet ch (clear_selection x).
Proof. unfold clear_selection. quiet_op. Qed.
Lemma copy_selection_quiet ch ty x : x_channel x = ch → quiet ch (copy_selection cfg ty x).
Proof. unfold copy_selection. quiet_op. Qed.
Lemma update_selection_quiet ch p side x : x_channel x = ch → quiet ch (update_selection p side x).
Proof. unfold update_selection. quiet_op. Qed.
#[local] Hint Resolve clear_selection_quiet copy_selection_quiet update_selection_quiet : quiet.

Lemma start_selection_quiet ch ty p side x : x_channel x = ch → quiet ch (start_selection cfg ty p side x).
Proof. unfold start_selection. quiet_op. Qed.
#[local] Hint Resolve start_selection_quiet : quiet.
Lemma toggle_selection_quiet ch ty p side x :
  x_channel x = ch → quiet ch (toggle_selection cfg ty p side x).
Proof. unfold toggle_selection. quiet_op. Qed.
Lemma expand_selection_quiet ch mods x : x_channel x = ch → quiet ch (expand_selection size mods x).
Proof. unfold expand_selection. quiet_op. Qed.

Lemma scroll_quiet ch sc x : x_channel x = ch → quiet ch (scroll cfg size window sc x).
Proof. unfold scroll. quiet_op. Qed.
Lemma on_terminal_input_start_quiet ch x :
  x_channel x = ch → quiet ch (on_terminal_input_start cfg size window x).
Proof. unfold on_terminal_input_start. intros. quiet_auto. apply scroll_quiet. channel. Qed.
End selections.
#[export] Hint Resolve clear_selection_quiet copy_selection_quiet update_selection_quiet
  start_selection_quiet toggle_selection_quiet expand_selection_quiet scroll_quiet : quiet.

Section searches.
Context `{Ansi}.
Context (cfg : UiConfig) (size : SizeInfo) (window : Z) (compile : text → option RegexSearch).
Context (fuel n : nat).
Implicit Types (x : Ctx) (ch : list (EventLoop.Msg WindowSize)).

Lemma search_reset_quiet ch x : x_channel x = ch → quiet ch (search_reset_state window x).
Proof. unfold search_reset_state. quiet_op. Qed.
#[local] Hint Resolve search_reset_quiet : quiet.
Lemma goto_match_quiet ch limit x : x_channel x = ch → quiet ch (goto_match window fuel n limit x).
Proof. unfold goto_match. quiet_op. Qed.
#[local] Hint Resolve goto_match_quiet : quiet.
Lemma update_search_quiet ch x : x_channel x = ch → quiet ch (update_search cfg window compile fuel n x).
Proof. unfold update_search. quiet_op. Qed.
#[local] Hint Resolve update_search_quiet : quiet.
Lemma start_search_quiet ch d x : x_channel x = ch → quiet ch (start_search d x).
Proof. unfold start_search. quiet_op. Qed.
Lemma cancel_search_quiet ch x : x_channel x = ch → quiet ch (cancel_search cfg window x).
Proof. unfold cancel_search. quiet_op. Qed.
#[local] Hint Resolve start_search_quiet cancel_search_quiet : quiet.
Lemma confirm_search_quiet ch x : x_channel x = ch → quiet ch (confirm_search cfg window fuel n x).
Proof. unfold confirm_search. quiet_op. Qed.
Lemma search_input_quiet ch c x : x_channel x = ch → quiet ch (search_input cfg window compile fuel n c x).
Proof. unfold search_input. quiet_op. Qed.
#[local] Hint Resolve confirm_search_quiet search_input_quiet : quiet.
Lemma search_input_all_quiet ch s x :
  x_channel x = ch → quiet ch (search_input_all cfg window compile fuel n s x).
Proof. revert x. induction s as [|c s IH]; simpl; [by intros|]. intros. eapply quiet_bind; eauto with quiet. Qed.
Lemma search_pop_quiet ch x : x_channel x = ch → quiet ch (search_pop_word cfg window compile fuel n x).
Proof. unfold search_pop_word. quiet_op. Qed.
Lemma search_previous_quiet ch x :
  x_channel x = ch → quiet ch (search_history_previous cfg window compile fuel n x).
Proof. unfold search_history_previous. quiet_op. Qed.
Lemma search_next_quiet ch x : x_channel x = ch → quiet ch (search_history_next cfg window compile fuel n x).
Proof. unfold search_history_next. quiet_op. Qed.
Lemma seed_search_quiet ch s x : x_channel x = ch → quiet ch (seed_search cfg window compile fuel n s x).
Proof.
  revert x. induction s as [|c s IH]; simpl; [by intros|]. intros x Hx. eapply quiet_bind; [quiet_auto|].
  intros x1 H1. eapply quiet_bind; eauto with quiet.
Qed.
#[local] Hint Resolve seed_search_quiet : quiet.
Lemma seeded_search_quiet ch d s x :
  x_channel x = ch → quiet ch (start_seeded_search cfg window compile fuel n d s x).
Proof. unfold start_seeded_search. quiet_op. Qed.
Lemma advance_search_quiet ch d x : x_channel x = ch → quiet ch (advance_search_origin window fuel n d x).
Proof. unfold advance_search_origin. quiet_op. Qed.
Lemma toggle_vi_quiet ch x : x_channel x = ch → quiet ch (context_toggle_vi_mode cfg window x).
Proof. unfold context_toggle_vi_mode. quiet_op. Qed.
Lemma inline_search_quiet ch d x : x_channel x = ch → quiet ch (inline_search d x).
Proof. unfold inline_search. quiet_op. Qed.
#[local] Hint Resolve inline_search_quiet : quiet.
Lemma inline_input_quiet ch s x : x_channel x = ch → quiet ch (inline_search_input s x).
Proof. unfold inline_search_input, inline_search_next. quiet_op. Qed.
Lemma paste_search_quiet ch s b x :
  search_active x = true → x_channel x = ch → quiet ch (paste cfg size window compile fuel n s b x).
Proof. intros Hs Hx. unfold paste. rewrite Hs. by apply search_input_all_quiet. Qed.
End searches.
#[export] Hint Resolve search_reset_quiet goto_match_quiet update_search_quiet start_search_quiet
  cancel_search_quiet confirm_search_quiet search_input_quiet search_input_all_quiet search_pop_quiet
  search_previous_quiet search_next_quiet seeded_search_quiet advance_search_quiet toggle_vi_quiet
  inline_search_quiet inline_input_quiet : quiet.

(** ** Actions that write nothing *)

(** The actions that may write to the pseudo terminal. *)
Definition writes (a : Action) : bool :=
  match a with Esc _ | Paste | PasteSelection => true | _ => false end.
Definition pastes (a : Action) : bool := match a with Paste | PasteSelection => true | _ => false end.

Section actions.
Context `{Ansi}.
Context (cfg : UiConfig) (size : SizeInfo) (window : Z) (compile : text → option RegexSearch).
Context (fuel n : nat) (mods : ModifiersState) (load : ClipboardType → text).
Implicit Types (x : Ctx) (i : Input) (ch : list (EventLoop.Msg WindowSize)).

(** The hint under the vi mode cursor does not paste. *)
Definition no_paste i : Prop :=
  match i_vi_hint i with Some h => h_action (hm_hint h) ≠ HintPaste | None => True end.
Definition kept ch i : Prop := x_channel (i_ctx i) = ch ∧ no_paste i.

Lemma on_ctx_kept ch f i : quiet ch (f (i_ctx i)) → no_paste i → wlp (on_ctx f i) (kept ch).
Proof. intros Hf Hp. unfold on_ctx. apply wlp_bind. eapply wlp_mono; [exact Hf|]. intros x Hx. by split. Qed.

Lemma trigger_hint_kept ch hint i :
  h_action (hm_hint hint) ≠ HintPaste → kept ch i →
  wlp (trigger_hint cfg size window compile fuel n hint i) (kept ch).
Proof.
  intros Ha [Hc Hp]. unfold trigger_hint. destruct (block_hint_launcher _); [by split|].
  apply wlp_bind, wlp_any. intros [s|]; [|by split]. destruct (h_action (hm_hint hint)); [by split|by split|done| |].
  - apply on_ctx_kept; [|done]. quiet_op.
  - apply on_ctx_kept; [|done]. quiet_op.
Qed.

Lemma execute_vi_kept ch a i :
  kept ch i → wlp (execute_vi cfg size window compile fuel n a i) (kept ch).
Proof.
  intros [Hc Hp]. destruct a; simpl; try (apply on_ctx_kept; [|done]).
  all: try (unfold action_toggle_selection, vi_search_beside, vi_search, center_around_vi_cursor,
    semantic_search, inline_search_next, inline_search_previous; quiet_op; fail).
  all: try done.
  pose proof Hp as Hp'. unfold no_paste in Hp'. destruct (i_vi_hint i) as [h|]; [|by split].
  by apply trigger_hint_kept.
Qed.

Lemma execute_search_quiet ch a x :
  x_channel x = ch → quiet ch (execute_search cfg window compile fuel n a x).
Proof. destruct a; simpl; quiet_op. Qed.

Lemma execute_kept ch a i :
  writes a = false → kept ch i → wlp (execute cfg size window compile fuel n mods load a i) (kept ch).
Proof.
  intros Hw [Hc Hp]. assert (Hk : kept ch i) by done.
  destruct a; try discriminate Hw; simpl; try done; try (apply on_ctx_kept; [|done]).
  all: try (unfold scroll_page, scroll_to_top, scroll_to_bottom; quiet_op; fail).
  - destruct (negb _); [done|]. apply on_ctx_kept; [|done]. quiet_op.
  - destruct (negb _); [done|]. by apply execute_vi_kept.
  - destruct (negb _); [done|]. apply on_ctx_kept; [|done]. by apply execute_search_quiet.
  - apply wlp_bind, wlp_any. intros z. apply on_ctx_kept; [|done]. unfold scroll_page. quiet_op.
  - apply wlp_bind, wlp_any. intros z. apply on_ctx_kept; [|done]. unfold scroll_page. quiet_op.
  - unfold pop_message. by destruct (MessageBar.is_empty _).
Qed.

(** A paste while a search is active goes to the search. *)
Lemma execute_paste_kept ch a i :
  pastes a = true → search_active (i_ctx i) = true → kept ch i →
  wlp (execute cfg size window compile fuel n mods load a i) (kept ch).
Proof.
  intros Ha Hs [Hc Hp]. destruct a; try discriminate Ha; simpl.
  all: apply on_ctx_kept; [by apply paste_search_quiet|done].
Qed.
End actions.

(** ** Tables of bindings *)

(** Two bindings that some key may trigger together. *)
Definition same_key (a b : BindingKey) : bool :=
  match a, b with Keycode k _, Keycode k' _ => bool_decide (k = k') | _, _ => true end.
Definition compatible (b b' : Binding BindingKey) : bool :=
  same_key (b_trigger b) (b_trigger b') && bool_decide (b_mods b = b_mods b')
  && negb (Bitflags.intersects (b_mode b) (b_notmode b'))
  && negb (Bitflags.intersects (b_mode b') (b_notmode b)).

(** Actions that leave the search as it is. *)
Definition harmless (a : Action) : bool :=
  match a with ReceiveChar | ClearLogNotice | NoAction | StartHint _ => true | _ => false end.

(** A binding that writes is never triggered in vi mode or in a search, or it pastes,
    requires a search if vi mode does not exclude it, and no binding before it can be
    triggered with it. *)
Definition entry_ok (pre : list (Binding BindingKey)) (b : Binding BindingKey) : bool :=
  negb (writes (b_action b))
  || (Bitflags.contains (b_notmode b) BindingMode.VI && Bitflags.contains (b_notmode b) BindingMode.SEARCH)
  || (pastes (b_action b)
      && (Bitflags.contains (b_notmode b) BindingMode.VI || Bitflags.contains (b_mode b) BindingMode.SEARCH)
      && forallb (λ b', negb (compatible b' b)) pre).

Fixpoint entries_ok (pre bs : list (Binding BindingKey)) : bool :=
  match bs with [] => true | b :: bs => entry_ok pre b && entries_ok (pre ++ [b]) bs end.

(** Bindings that pass the key on are triggered together with harmless ones only. *)
Definition passing_ok (bs : list (Binding BindingKey)) : bool :=
  forallb (λ b, negb (receives_char (b_action b))
                || forallb (λ b', negb (compatible b' b) || harmless (b_action b')) bs) bs.

Lemma default_table_ok : entries_ok [] default_key_bindings = true ∧ passing_ok default_key_bindings = true.
Proof. split; vm_compute; reflexivity. Qed.

Lemma entries_hints pre hints :
  Forall (λ b, ∃ h, b_action b = StartHint h) hints → entries_ok pre hints = true.
Proof.
  intros Hh. revert pre. induction Hh as [|b hints [h Hb] _ IH]; intros pre; simpl; [done|].
  rewrite IH, andb_true_r. unfold entry_ok. by rewrite Hb.
Qed.

Lemma entries_app pre bs bs' :
  entries_ok pre bs = true → entries_ok (pre ++ bs) bs' = true → entries_ok pre (bs ++ bs') = true.
Proof.
  revert pre. induction bs as [|b bs IH]; intros pre; simpl; [by rewrite app_nil_r|].
  intros [-> Hb]%andb_true_iff Hbs'. apply IH; [done|]. by rewrite <- (assoc_L app).
Qed.

(** *** Modes *)

Lemma binding_mode_bits mode search :
  Bitflags.contains (binding_mode mode search) BindingMode.VI = Bitflags.contains mode TermMode.VI ∧
  Bitflags.contains (binding_mode mode search) BindingMode.SEARCH = search.
Proof.
  unfold binding_mode.
  destruct (Bitflags.contains mode TermMode.APP_CURSOR), (Bitflags.contains mode TermMode.APP_KEYPAD),
    (Bitflags.contains mode TermMode.ALT_SCREEN), (Bitflags.contains mode TermMode.VI), search,
    (Bitflags.contains mode TermMode.DISAMBIGUATE_ESC_CODES),
    (Bitflags.contains mode TermMode.REPORT_ALL_KEYS_AS_ESC); split; reflexivity.
Qed.

Section triggered.
Context (mode physical : Z) (key : Key) (l : KeyLocation) (mods : ModifiersState).
Definition triggered (b : Binding BindingKey) : bool :=
  is_triggered_by b mode mods (binding_input b physical key l).

Lemma triggered_excludes b (flag : Z) :
  flag ≠ 0 → triggered b = true → Bitflags.contains mode flag = true →
  Bitflags.contains (b_notmode b) flag = false.
Proof.
  unfold Bitflags.contains. intros Hf (_ & _ & _ & Hn)%triggered_iff Hm%Z.eqb_eq. apply Z.eqb_neq.
  rewrite Z.land_comm, (land_excluded mode) by done. congruence.
Qed.

Lemma triggered_requires b (flag : Z) :
  triggered b = true → Bitflags.contains (b_mode b) flag = true → Bitflags.contains mode flag = true.
Proof.
  unfold Bitflags.contains. intros (_ & _ & Hr & _)%triggered_iff Hb%Z.eqb_eq. apply Z.eqb_eq.
  by rewrite <- Hb, Z.land_assoc, Hr.
Qed.

Lemma triggered_compatible b b' : triggered b = true → triggered b' = true → compatible b b' = true.
Proof.
  intros (T & M & R & N)%triggered_iff (T' & M' & R' & N')%triggered_iff. unfold compatible.
  rewrite !andb_true_iff, bool_decide_eq_true. unfold Bitflags.intersects. rewrite !negb_involutive, !Z.eqb_eq.
  split_and!; [|congruence|by apply (land_excluded mode)..].
  unfold binding_input, same_key, trigger_eq, binding_key_trigger in *.
  destruct (b_trigger b), (b_trigger b'); try done.
  apply andb_true_iff in T as [->%bool_decide_eq_true _]. apply andb_true_iff in T' as [->%bool_decide_eq_true _].
  by apply bool_decide_eq_true_2.
Qed.

(** What a triggered entry of a good table may do while vi mode or a search is active. *)
Lemma entry_triggered pre b :
  Bitflags.contains mode BindingMode.VI = true ∨ Bitflags.contains mode BindingMode.SEARCH = true →
  entry_ok pre b = true → triggered b = true →
  writes (b_action b) = false ∨
  (pastes (b_action b) = true ∧ Bitflags.contains mode BindingMode.SEARCH = true ∧
   ∀ b', b' ∈ pre → triggered b' = false).
Proof.
  intros Hm He Hb. unfold entry_ok in He.
  destruct (writes (b_action b)); [right|by left]. simpl in He. apply orb_true_iff in He as [He|He].
  - apply andb_true_iff in He as [Hv Hs]. exfalso.
    destruct Hm as [Hm|Hm]; apply (triggered_excludes b) in Hm; done || congruence.
  - apply andb_true_iff in He as [[Hp He]%andb_true_iff Hc]. split; [done|]. split.
    + destruct Hm as [Hm|Hm]; [|done]. apply orb_true_iff in He as [He|He].
      * apply (triggered_excludes b) in Hm; [congruence|done|done].
      * by apply (triggered_requires b).
    + intros b' Hb'. rewrite forallb_forall in Hc. apply list_elem_of_In in Hb'. specialize (Hc b' Hb').
      destruct (triggered b') eqn:E; [|done]. by rewrite (triggered_compatible b' b) in Hc.
Qed.
End triggered.

(** *** Running a table *)

Section run.
Context `{Ansi}.
Context (cfg : UiConfig) (size : SizeInfo) (window : Z) (compile : text → option RegexSearch).
Context (fuel n : nat) (mods : ModifiersState) (load : ClipboardType → text).
Context (mode physical : Z) (key : Key) (l : KeyLocation).
Context (Hmode : Bitflags.contains mode BindingMode.VI = true ∨ Bitflags.contains mode BindingMode.SEARCH = true).
Implicit Types (i : Input) (bs : list (Binding BindingKey)) (ch : list (EventLoop.Msg WindowSize)).
#[local] Abbreviation run := (run_bindings cfg size window compile fuel n mods load).
#[local] Abbreviation trig := (triggered mode physical key l mods).

Lemma run_bindings_kept ch pre bs suppress i :
  entries_ok pre bs = true → kept ch i →
  ((∀ b, b ∈ pre → trig b = false) →
     search_active (i_ctx i) = Bitflags.contains mode BindingMode.SEARCH) →
  wlp (run bs mode physical key l suppress i) (λ r, kept ch r.2).
Proof using Hmode.
  revert pre suppress i. induction bs as [|b bs IH]; intros pre suppress i He Hk Hpre; [done|].
  cbn [entries_ok run_bindings] in *. apply andb_true_iff in He as [He Hbs].
  fold (trig b). destruct (trig b) eqn:Eb.
  - apply wlp_bind. eapply wlp_mono.
    + destruct (entry_triggered _ _ _ _ _ pre b Hmode He Eb) as [Hw|(Hp & Hs & Hn)].
      * by apply execute_kept.
      * apply execute_paste_kept; [done| |done]. by rewrite Hpre.
    + intros i' Hk'. apply (IH (pre ++ [b])); [done|done|]. intros Hall.
      rewrite (Hall b) in Eb; [done|]. apply elem_of_app. right. by left.
  - apply (IH (pre ++ [b])); [done|done|]. intros Hall. apply Hpre. intros b' Hb'. apply Hall.
    apply elem_of_app. by left.
Qed.

(** Whether the characters of the key are suppressed. *)
Lemma run_bindings_suppress bs suppress i :
  wlp (run bs mode physical key l suppress i) (λ r,
    r.1 = Some false → suppress = Some false ∨ ∃ b, b ∈ bs ∧ trig b = true ∧ receives_char (b_action b) = true).
Proof using.
  revert suppress i. induction bs as [|b bs IH]; intros suppress i; simpl; [by left|].
  fold (trig b). destruct (trig b) eqn:Eb.
  - apply wlp_bind, wlp_any. intros i'. eapply wlp_mono; [apply IH|]. intros r Hr Er.
    destruct (Hr Er) as [[= Hs]|(b' & Hb' & Ht & Ha)].
    + apply andb_false_iff in Hs as [Hs|Hs]; [left; destruct suppress; simpl in Hs; congruence|].
      right. exists b. split_and!; [by left|done|]. by apply negb_false_iff.
    + right. exists b'. split_and!; [by right|done..].
  - eapply wlp_mono; [apply IH|]. intros r Hr Er. destruct (Hr Er) as [?|(b' & Hb' & ?)]; [by left|].
    right. exists b'. split; [by right|done].
Qed.

Lemma run_bindings_none bs suppress i :
  wlp (run bs mode physical key l suppress i) (λ r,
    r.1 = None → suppress = None ∧ ∀ b, b ∈ bs → trig b = false).
Proof using.
  revert suppress i. induction bs as [|b bs IH]; intros suppress i; simpl; [by intros ->; split; [|intros b Hb%elem_of_nil]|].
  fold (trig b). destruct (trig b) eqn:Eb.
  - apply wlp_bind, wlp_any. intros i'. eapply wlp_mono; [apply IH|]. intros r Hr Er. by destruct (Hr Er).
  - eapply wlp_mono; [apply IH|]. intros r Hr Er. destruct (Hr Er) as [-> Hb]. split; [done|].
    intros b' [->|Hb']%elem_of_cons; [done|by apply Hb].
Qed.

Lemma execute_harmless a i :
  harmless a = true →
  wlp (execute cfg size window compile fuel n mods load a i) (λ i', x_search (i_ctx i') = x_search (i_ctx i)).
Proof using.
  intros Ha. destruct a; try discriminate Ha; simpl; try done.
  unfold pop_message. by destruct (MessageBar.is_empty _).
Qed.

Lemma run_bindings_search bs suppress i :
  (∀ b, b ∈ bs → trig b = true → harmless (b_action b) = true) →
  wlp (run bs mode physical key l suppress i) (λ r, x_search (i_ctx r.2) = x_search (i_ctx i)).
Proof using.
  revert suppress i. induction bs as [|b bs IH]; intros suppress i Hb; simpl; [done|].
  fold (trig b). destruct (trig b) eqn:Eb.
  - apply wlp_bind. eapply wlp_mono; [apply execute_harmless, Hb; [by left|done]|]. intros i' Hi'.
    eapply wlp_mono; [apply IH; intros; apply Hb; [by right|done]|]. intros r ->. done.
  - apply IH. intros. apply Hb; [by right|done].
Qed.
End run.

Lemma passing_ok_spec mode physical key l mods bs b b' :
  passing_ok bs = true → b ∈ bs → triggered mode physical key l mods b = true →
  receives_char (b_action b) = true → b' ∈ bs → triggered mode physical key l mods b' = true →
  harmless (b_action b') = true.
Proof.
  intros Hp Hb Ht Hr Hb' Ht'. unfold passing_ok in Hp. rewrite forallb_forall in Hp.
  specialize (Hp b (proj1 (list_elem_of_In _ _) Hb)). rewrite Hr in Hp. simpl in Hp. rewrite forallb_forall in Hp.
  specialize (Hp b' (proj1 (list_elem_of_In _ _) Hb')). by rewrite (triggered_compatible mode physical key l mods b' b Ht' Ht) in Hp.
Qed.

Lemma passing_hints bs hints :
  passing_ok bs = true → Forall (λ b, ∃ h, b_action b = StartHint h) hints →
  passing_ok (bs ++ hints) = true.
Proof.
  unfold passing_ok. intros Hb Hh. rewrite forallb_app. apply andb_true_iff. split.
  - apply forallb_forall. intros b Hin. rewrite forallb_forall in Hb. specialize (Hb b Hin).
    destruct (receives_char (b_action b)); [|done]. simpl in *. rewrite forallb_app, Hb. simpl.
    apply forallb_forall. intros b' Hin'. rewrite Forall_forall in Hh.
    destruct (Hh b' (proj2 (list_elem_of_In _ _) Hin')) as [h ->]. by rewrite orb_true_r.
  - apply forallb_forall. intros b Hin. rewrite Forall_forall in Hh.
    by destruct (Hh b (proj2 (list_elem_of_In _ _) Hin)) as [h ->].
Qed.

(** ** Keys *)

Section keys.
Context `{Ansi}.
Context (cfg : UiConfig) (size : SizeInfo) (window : Z) (compile : text → option RegexSearch).
Context (fuel n : nat) (mods : ModifiersState) (load : ClipboardType → text).
Context (str_to_lowercase : text → text) (to_lowercase : char → char) (to_text : NamedKey → option text).
Implicit Types (i : Input) (x : Ctx).

Lemma reset_delay_frame x :
  x_channel (reset_search_delay window x) = x_channel x ∧
  x_search (reset_search_delay window x) = x_search x ∧
  x_term (reset_search_delay window x) = x_term x ∧ x_mouse (reset_search_delay window x) = x_mouse x ∧
  x_inline (reset_search_delay window x) = x_inline x.
Proof.
  unfold reset_search_delay, unschedule_timer. destruct (search_active x); [|done].
  destruct (unschedule _ _) as [[t|] s]; done.
Qed.

Lemma search_active_same x x' : x_search x' = x_search x → search_active x' = search_active x.
Proof. unfold search_active. by intros ->. Qed.

(** With a good table of bindings, the bindings leave the channel alone while vi mode
    or a search is active, and a search that the key is passed on to is still
    active. *)
Lemma process_bindings_local bs hints physical key i :
  entries_ok [] bs = true → passing_ok bs = true → Forall (λ b, ∃ h, b_action b = StartHint h) hints →
  has_mode (i_term i) TermMode.VI = true ∨ search_active (i_ctx i) = true → no_paste i →
  wlp (process_key_bindings cfg size window compile fuel n mods load str_to_lowercase bs hints physical key i)
    (λ r, kept (x_channel (i_ctx i)) r.2 ∧
      (r.1 = false → search_active (i_ctx i) = true → search_active (i_ctx r.2) = true)).
Proof.
  intros He Hp Hh Hm Hn. unfold process_key_bindings. set (mode := binding_mode _ _).
  destruct (binding_mode_bits (t_mode (i_term i)) (search_active (i_ctx i))) as [Bv Bs]. fold mode in Bv, Bs.
  assert (Hmode : Bitflags.contains mode BindingMode.VI = true ∨ Bitflags.contains mode BindingMode.SEARCH = true)
    by (rewrite Bv, Bs; exact Hm).
  set (k := binding_key str_to_lowercase (logical_key key)). set (l := location key). apply wlp_bind.
  pose proof (run_bindings_kept cfg size window compile fuel n mods load mode physical k l Hmode
    (x_channel (i_ctx i)) [] (bs ++ hints) None i (entries_app _ _ _ He (entries_hints _ _ Hh))
    (conj eq_refl Hn) (λ _, eq_sym Bs)) as G1.
  pose proof (run_bindings_suppress cfg size window compile fuel n mods load mode physical k l (bs ++ hints)
    None i) as G2.
  pose proof (run_bindings_none cfg size window compile fuel n mods load mode physical k l (bs ++ hints)
    None i) as G3.
  pose proof (wlp_imp _ _ _ (run_bindings_search cfg size window compile fuel n mods load mode physical k l
    (bs ++ hints) None i)) as G4.
  eapply wlp_mono; [exact (wlp_and _ _ _ G1 (wlp_and _ _ _ G2 (wlp_and _ _ _ G3 G4)))|].
  clear G1 G2 G3 G4. intros [suppress i'] (Hk & Hsup & Hnone & Hsame). simpl in *. split; [done|]. intros Er Hs.
  assert (Hharm : ∀ b, b ∈ bs ++ hints → triggered mode physical k l mods b = true →
    harmless (b_action b) = true).
  { intros b Hb Ht. destruct suppress as [[|]|]; [done| |].
    - destruct (Hsup eq_refl) as [?|(b' & Hb' & Ht' & Hr)]; [done|].
      by apply (passing_ok_spec mode physical k l mods (bs ++ hints) b'); [apply passing_hints|..].
    - destruct (Hnone eq_refl) as [_ Hno]. by rewrite Hno in Ht. }
  by rewrite (search_active_same _ _ (Hsame Hharm)).
Qed.


Lemma run_bindings_idle (bs : list (Binding BindingKey)) (mode physical : Z) (k : Key) (l : KeyLocation) i :
  (∀ b, b ∈ bs → triggered mode physical k l mods b = false) →
  run_bindings cfg size window compile fuel n mods load bs mode physical k l None i = Ok (None, i).
Proof.
  induction bs as [|b bs IH]; intros Hb; [done|]. simpl.
  pose proof (Hb b (list_elem_of_here _ _)) as E. unfold triggered in E. rewrite E. apply IH.
  intros b' Hb'. by apply Hb, list_elem_of_further.
Qed.

Lemma none_triggered (bs : list (Binding BindingKey)) (mode physical : Z) (k : Key) (l : KeyLocation) :
  forallb (λ b, negb (triggered mode physical k l mods b)) bs = true →
  ∀ b, b ∈ bs → triggered mode physical k l mods b = false.
Proof.
  intros Hb b Hin. rewrite forallb_forall in Hb.
  by apply negb_true_iff, Hb, (proj1 (list_elem_of_In _ _)).
Qed.

(** C33: a key that nothing else takes is typed: with no composition, hint, inline search,
    search or vi mode and no binding that it triggers, pressing a key on a sound terminal
    never panics and adds exactly its encoding to the channel, in one message behind
    those already sent, or nothing when the key has no encoding; the search is left as
    it was. *)
Theorem free_key_is_typed (B : Z) (bs hints : list (Binding BindingKey)) (physical : Z) (key : KeyEvent) i :
  clean_term B (i_term i) → ActionFacts.size_ok size →
  0 ≤ mouse_x (x_mouse (i_ctx i)) → 0 ≤ mouse_y (x_mouse (i_ctx i)) →
  state key = Pressed → x_preedit (i_ctx i) = false → hints_active (i_hints i) = false →
  char_pending (x_inline (i_ctx i)) = false → search_active (i_ctx i) = false →
  has_mode (i_term i) TermMode.VI = false →
  (∀ b, b ∈ bs ++ hints →
    triggered (binding_mode (t_mode (i_term i)) false) physical (binding_key str_to_lowercase (logical_key key))
      (location key) mods b = false) →
  let bytes := key_input_bytes to_lowercase to_text key (t_mode (i_term i)) mods in
  ∃ i', key_input cfg size window compile fuel n mods load str_to_lowercase to_lowercase to_text bs hints physical key i = Ok i' ∧
    x_channel (i_ctx i') = x_channel (i_ctx i) ++ (if bool_decide (bytes = []) then [] else [EventLoop.Input bytes]) ∧
    x_search (i_ctx i') = x_search (i_ctx i).
Proof.
  intros W Hsize Hx Hy Hst Hp Hh Hc Hs Hv Hb bytes. unfold key_input. rewrite Hp, Hst, Hh, Hc.
  unfold reset_search_delay, process_key_bindings. rewrite Hs. unfold i_term in *. simpl. rewrite Hs.
  rewrite run_bindings_idle by done. simpl. rewrite Hs. unfold has_mode in Hv. rewrite Hv. fold bytes.
  case_bool_decide as Eb; [exists i; split; [by destruct i|by rewrite app_nil_r]|].
  assert (G : wp (x ← (if is_modifier_key key then mret (i_ctx i)
    else on_terminal_input_start cfg size window (i_ctx i)); mret (write_to_pty bytes x)) (λ x,
    x_channel x = x_channel (i_ctx i) ++ [EventLoop.Input bytes] ∧ x_search x = x_search (i_ctx i))).
  { apply wp_bind. eapply (wp_mono _ (λ x, same_input (i_ctx i) x)).
    - destruct (is_modifier_key key); [by apply wp_ret|]. by eapply on_terminal_input_start_spec.
    - intros x (Ec & Es & _). apply wp_ret. split; [|done]. simpl. rewrite Ec.
      unfold EventLoop.notify. by rewrite bool_decide_false. }
  apply wp_exists in G as (x & E & G). unfold on_ctx. simpl. rewrite E. simpl. by eexists.
Qed.
End keys.

(** ** A window in vi mode and one that is not *)
Definition demo_input (x : Ctx) : Input :=
  mkInput x (hints_new []) None None (MessageBar.mkBuffer []) Released false IconText [].
Definition plain_input : Input := Eval vm_compute in demo_input (demo_ctx mode_term).
Definition vi_input : Input := Eval vm_compute in
  match context_toggle_vi_mode demo_ui 0 (demo_ctx mode_term) with
  | Ok x => demo_input x
  | Panic _ => demo_input (demo_ctx mode_term)
  end.
Definition key_k : KeyEvent := mkKeyEvent (Character [107]) Standard Pressed false (Some [107]) (Character [107]).
Definition demo_key (key : KeyEvent) (i : Input) : exec Input :=
  key_input demo_ui demo_window 0 no_compile 10 10 mods_empty (λ _, []) (λ s, s) (λ c, c) (λ _, None)
    default_key_bindings [] 0 key i.
Definition vi_input_k : Input := Eval vm_compute in
  match demo_key key_k vi_input with Ok i => i | Panic _ => vi_input end.


Lemma free_key_is_typed_witness : ∃ i', demo_key key_k plain_input = Ok i' ∧
  x_channel (i_ctx i') = [EventLoop.Input [107]].
Proof.
  destruct (free_key_is_typed demo_ui demo_window 0 no_compile 10 10 mods_empty (λ _, []) (λ s, s) (λ c, c)
    (λ _, None) 18 default_key_bindings [] 0 key_k plain_input) as (i' & E & Hc & _).
  - exact mode_term_clean.
  - exact demo_window_ok.
  - vm_compute. discriminate.
  - vm_compute. discriminate.
  - reflexivity.
  - reflexivity.
  - reflexivity.
  - reflexivity.
  - reflexivity.
  - reflexivity.
  - apply none_triggered. vm_compute. reflexivity.
  - exists i'. split; [exact E|exact Hc].
Defined.
End InputClaims.
