(* ===== verification/PointerClaims.v ===== *)
(** * Wheels scroll what they are turned by, and touches end

    The pixels a wheel, a touchpad or a finger moved by are scrolled in whole lines in
    the direction of the motion, with the rest kept for the next one; once all fingers
    are lifted, no gesture is left. *)

From S2P Require Import Prelude Decimal Index Ansi GridCell Row Storage Cell Grid Selection Term.
From S2P Require Import Handler Search RegexSearch ViMode Hints Scheduler EventLoop FrameDamage MessageBar.
From S2P Require Import Keyboard ActionContext Bindings InputProcessor PointerInput Demo ActionClaims InputClaims.
From stdpp Require Import gmap.
#[local] Open Scope Z_scope.

Module PointerClaims.
Import Keyboard Scheduler FrameDamage ActionContext Bindings InputProcessor PointerInput ActionClaims InputClaims.

(** ** Pixels and lines *)

(** A motion that carries the rest beyond a whole cell goes the way of the motion. *)
Lemma carry_direction (a d h : Z) :
  1 ≤ h → Z.abs a < h →
  let l := Z.quot (a + d) h in
  Z.abs (Z.rem (a + d) h) < h ∧ a + d = l * h + Z.rem (a + d) h ∧
  (0 < l → 0 < d) ∧ (l < 0 → d < 0) ∧ Z.abs l ≤ Z.abs (a + d) ∧ 0 ≤ Z.rem (a + d) h * (a + d).
Proof.
  intros Hh Ha l. pose proof (Z.quot_rem' (a + d) h) as E. fold l in E.
  pose proof (Z.rem_bound_abs (a + d) h ltac:(lia)) as B.
  assert (Hs : (0 ≤ a + d → 0 ≤ l) ∧ (a + d ≤ 0 → l ≤ 0)).
  { unfold l. split; intros; [by apply Z.quot_pos; lia|].
    rewrite <-(Z.opp_involutive (a + d)), Z.quot_opp_l by lia.
    pose proof (Z.quot_pos (- (a + d)) h ltac:(lia) ltac:(lia)). lia. }
  assert (Hr : (0 ≤ a + d → 0 ≤ Z.rem (a + d) h) ∧ (a + d ≤ 0 → Z.rem (a + d) h ≤ 0)).
  { split; intros; [apply Z.rem_nonneg; lia|apply Z.rem_nonpos; lia]. }
  split; [lia|]. split; [lia|]. split; [nia|]. split; [nia|]. split; [|nia].
  rewrite <-(Z.mul_1_r (Z.abs l)). transitivity (Z.abs l * h); [nia|].
  assert (Z.abs (l * h) = Z.abs l * h) as <- by (rewrite Z.abs_mul; lia).
  nia.
Qed.

Lemma same_direction (l d : Z) : (0 < l → 0 < d) → (l < 0 → d < 0) → 0 ≤ l * d.
Proof. intros H1 H2. destruct (Z.lt_trichotomy l 0) as [|[->|]]; nia. Qed.
Lemma scaled_direction (l d m : Z) :
  0 ≤ m → (0 < l → 0 < d * m) → (l < 0 → d * m < 0) → (0 < l → 0 < d) ∧ (l < 0 → d < 0).
Proof. intros Hm H1 H2. split; intros Hl; [specialize (H1 Hl)|specialize (H2 Hl)]; nia. Qed.

Section wheel.
Context `{Ansi}.
Context (cfg : UiConfig) (size : SizeInfo) (window : Z) (compile : text → option RegexSearch).
Context (fuel n : nat) (mods : ModifiersState) (load : ClipboardType → text).
Context (mouse_bindings : list (Binding MouseEvent)).

(** What scrolling by signed lines and columns means, upwards and to the left positive:
    reports to a program that asked for the mouse, arrow keys on the alternate screen,
    and moving the display otherwise. *)
Definition scroll_by (lines columns : Z) (i : Input) : exec Input :=
  if mouse_mode (i_ctx i) then
    i ← repeat_times (Z.abs_nat lines)
          (on_ctx (mouse_report size mods (if 0 <? lines then MOUSE_WHEEL_UP else MOUSE_WHEEL_DOWN) Pressed)) i;
    repeat_times (Z.abs_nat columns)
      (on_ctx (mouse_report size mods (if 0 <? columns then MOUSE_WHEEL_LEFT else MOUSE_WHEEL_RIGHT) Pressed)) i
  else if Bitflags.contains (t_mode (i_term i)) (Z.lor TermMode.ALT_SCREEN TermMode.ALTERNATE_SCROLL)
          && negb (shift_key mods) then
    mret (with_ctx (write_to_pty (arrow_keys (Z.abs lines) (if 0 <? lines then 65 else 66)
                                  ++ arrow_keys (Z.abs columns) (if 0 <? columns then 68 else 67)) (i_ctx i)) i)
  else if lines =? 0 then mret i
  else on_ctx (ActionContext.scroll cfg size window (Delta lines)) i.

(** No binding is for the wheel. *)
Definition no_wheel (bs : list (Binding MouseEvent)) : Prop :=
  Forall (λ b, b_trigger b ≠ WheelUp ∧ b_trigger b ≠ WheelDown) bs.

Lemma run_unbound bs mode ms allowed (e : MouseEvent) found i :
  no_wheel bs → e = WheelUp ∨ e = WheelDown →
  run_mouse_bindings cfg size window compile fuel n mods load bs mode ms allowed e found i = Ok (found, i).
Proof.
  intros Hb He. revert found. induction Hb as [|b bs [? ?] _ IH]; intros found; [done|]. simpl.
  assert (is_triggered_by b mode ms e = false) as ->.
  { unfold is_triggered_by, trigger_eq, mouse_event_trigger. by destruct He as [-> | ->], (b_trigger b). }
  apply IH.
Qed.

Lemma unbound_wheel (e : MouseEvent) i :
  no_wheel mouse_bindings → e = WheelUp ∨ e = WheelDown →
  process_mouse_bindings cfg size window compile fuel n mods load mouse_bindings e i = Ok (false, i).
Proof.
  intros Hb He. unfold process_mouse_bindings. rewrite run_unbound by done. simpl.
  destruct (_ && _); [by apply run_unbound|done].
Qed.

(** The effect of a motion whose direction agrees with the signed lines and columns. *)
Lemma scroll_effect_signed (dx dy l c : Z) i :
  no_wheel mouse_bindings → Z.abs l < 2147483648 →
  (0 < l → 0 < dy) → (l < 0 → dy < 0) → (0 < c → 0 < dx) → (c < 0 → dx < 0) →
  scroll_effect cfg size window compile fuel n mods load mouse_bindings dx dy (Z.abs l) (Z.abs c) i
  = scroll_by l c i.
Proof.
  intros Hb Hl L1 L2 C1 C2. unfold scroll_effect, scroll_by.
  assert (El : l ≠ 0 → (0 <? dy) = (0 <? l)) by (intros; lia).
  assert (Ec : c ≠ 0 → (0 <? dx) = (0 <? c)) by (intros; lia).
  rewrite unbound_wheel by (done || destruct (0 <? dy); auto).
  assert (R : ∀ b, (if b : bool then Ok (false, i) else mret (false, i)) = Ok (false, i)) by by intros [].
  rewrite R. simpl. rewrite !Zabs2Nat.abs_nat_spec. destruct (mouse_mode (i_ctx i)).
  - destruct (decide (l = 0)) as [->|Hl0]; [|rewrite El by done];
      destruct (decide (c = 0)) as [->|Hc0]; rewrite ?Ec by done; done.
  - destruct (_ && _).
    + destruct (decide (l = 0)) as [->|Hl0]; [|rewrite El by done];
        destruct (decide (c = 0)) as [->|Hc0]; rewrite ?Ec by done; done.
    + destruct (Z.eqb_spec l 0) as [->|Hl0]; [done|].
      replace (Z.abs l =? 0) with false by lia. simpl. rewrite El by done.
      assert (as_i32 (Z.abs l) = Z.abs l) as ->
        by (unfold as_i32; rewrite Z.mod_small; lia).
      destruct (Z.ltb_spec 0 l); simpl; [by rewrite Z.abs_eq by lia|].
      unfold i32_neg, checked, in_i32, i32_min, i32_max. rewrite Z.abs_neq by lia.
      case_match; [by rewrite Z.opp_involutive|lia].
Qed.

(** C34: scrolling loses no pixel and never goes the wrong way: with cells of at least a
    pixel, rests smaller than a cell and no binding for the wheel, the motion and the
    rest of the one before are a whole number of lines and columns, which are scrolled
    in the direction of the motion, and a rest smaller than a cell again, on the same
    side as the whole. *)
Theorem wheel_scrolls_exactly (dx dy multiplier : Z) p :
  1 ≤ si_cell_width size → 1 ≤ si_cell_height size → 0 ≤ multiplier → no_wheel mouse_bindings →
  Z.abs (fst (p_scroll p)) < si_cell_width size → Z.abs (snd (p_scroll p)) < si_cell_height size →
  Z.abs (snd (p_scroll p)) + Z.abs dy * Z.max 1 multiplier < 2147483648 →
  let m := if mouse_mode (i_ctx (p_input p)) then 1 else multiplier in
  ∃ lines columns rx ry,
    snd (p_scroll p) + dy * m = lines * si_cell_height size + ry ∧ Z.abs ry < si_cell_height size ∧
    0 ≤ ry * (snd (p_scroll p) + dy * m) ∧
    fst (p_scroll p) + dx * m = columns * si_cell_width size + rx ∧ Z.abs rx < si_cell_width size ∧
    0 ≤ rx * (fst (p_scroll p) + dx * m) ∧
    0 ≤ lines * dy ∧ 0 ≤ columns * dx ∧
    scroll_terminal cfg size window compile fuel n mods load mouse_bindings dx dy multiplier p
    = (i ← scroll_by lines columns (p_input p); mret (upd_scroll (rx, ry) (upd_input i p))).
Proof.
  intros Hw Hh Hm Hb Hx Hy Hf m. destruct (p_scroll p) as [ax ay] eqn:Es; simpl in *.
  assert (Hm' : 0 ≤ m ≤ Z.max 1 multiplier) by (unfold m; destruct (mouse_mode _); lia).
  destruct (carry_direction ay (dy * m) _ Hh Hy) as (Y1 & Y2 & Y3 & Y4 & Y5 & Y6).
  destruct (carry_direction ax (dx * m) _ Hw Hx) as (X1 & X2 & X3 & X4 & _ & X5).
  set (l := Z.quot (ay + dy * m) (si_cell_height size)) in *.
  set (c := Z.quot (ax + dx * m) (si_cell_width size)) in *.
  destruct (scaled_direction l dy m ltac:(lia) Y3 Y4), (scaled_direction c dx m ltac:(lia) X3 X4).
  exists l, c, (Z.rem (ax + dx * m) (si_cell_width size)), (Z.rem (ay + dy * m) (si_cell_height size)).
  do 6 (split; [done|]). do 2 (split; [by apply same_direction|]). unfold scroll_terminal. rewrite Es. fold m l c.
  unfold on_input. rewrite scroll_effect_signed; [|done| |done..].
  - by destruct (scroll_by l c (p_input p)).
  - eapply Z.le_lt_trans; [exact Y5|]. eapply Z.le_lt_trans; [|exact Hf].
    etransitivity; [apply Z.abs_triangle|]. rewrite Z.abs_mul.
    apply Z.add_le_mono_l, Z.mul_le_mono_nonneg_l; lia.
Qed.
End wheel.

(** ** Touches *)

(** The fingers a gesture follows. *)
Definition tracked (t : TouchPurpose) : gset Z :=
  match t with
  | TouchNone => ∅
  | TouchSelect e | TouchScroll e | TouchZoomPending e | TouchTap e => {[touch_id e]}
  | TouchZooming z => {[touch_id (fst (zoom_slots z)); touch_id (snd (zoom_slots z))]}
  | TouchInvalid slots => slots
  end.

(** A gesture follows only fingers that are [down], a zoom two of them, and an invalid
    one at least one. *)
Definition gesture_ok (down : gset Z) (t : TouchPurpose) : Prop :=
  tracked t ⊆ down ∧
  match t with
  | TouchZooming z => touch_id (fst (zoom_slots z)) ≠ touch_id (snd (zoom_slots z))
  | TouchInvalid slots => slots ≠ ∅
  | _ => True
  end.

(** The fingers after an event, which starts only with a finger that is not down. *)
Definition fingers (phase : TouchPhase) (id : Z) (down : gset Z) : gset Z :=
  match phase with
  | TouchStarted => down ∪ {[id]}
  | TouchMoved => down
  | TouchEnded | TouchCancelled => down ∖ {[id]}
  end.
Fixpoint all_fingers (es : list (TouchPhase * TouchEvent)) (down : gset Z) : gset Z :=
  match es with [] => down | (ph, e) :: es => all_fingers es (fingers ph (touch_id e) down) end.
Fixpoint touch_order (es : list (TouchPhase * TouchEvent)) (down : gset Z) : bool :=
  match es with
  | [] => true
  | (ph, e) :: es =>
      (match ph with
       | TouchStarted => bool_decide (touch_id e ∉ down)
       | _ => bool_decide (touch_id e ∈ down)
       end) && touch_order es (fingers ph (touch_id e) down)
  end.

Lemma idle_gesture t : gesture_ok ∅ t → t = TouchNone.
Proof.
  intros [Hs Ho]. destruct t; simpl in *; set_solver.
Qed.

Section touches.
Context `{Ansi}.
Context (cfg : UiConfig) (size : SizeInfo) (window : Z) (compile : text → option RegexSearch).
Context (fuel n : nat) (mods : ModifiersState) (load : ClipboardType → text).
Context (mouse_bindings : list (Binding MouseEvent)) (min_height step : Z) (hypot : Z → Z → Z).
Implicit Types (p : Pointer) (e : TouchEvent) (down : gset Z).

#[local] Abbreviation touch :=
  (PointerInput.touch cfg size window compile fuel n mods load mouse_bindings min_height step hypot).
#[local] Abbreviation on_touch_motion :=
  (PointerInput.on_touch_motion cfg size window compile fuel n mods load mouse_bindings min_height step hypot).
#[local] Abbreviation drag :=
  (PointerInput.drag cfg size window compile fuel n mods load mouse_bindings min_height step).
#[local] Abbreviation on_touch_end :=
  (PointerInput.on_touch_end cfg size window compile fuel n mods load mouse_bindings min_height step hypot).

(** The events of a touch screen, one after the other. *)
Fixpoint touches (es : list (TouchPhase * TouchEvent)) p : exec Pointer :=
  match es with [] => mret p | (ph, e) :: es => p ← touch ph e p; touches es p end.

Lemma on_input_touch (f : Input → exec Input) p : wlp (on_input f p) (λ p', p_touch p' = p_touch p).
Proof. apply wlp_bind. by apply wlp_any. Qed.

Lemma scroll_terminal_touch (dx dy m : Z) p :
  wlp (scroll_terminal cfg size window compile fuel n mods load mouse_bindings dx dy m p)
    (λ p', p_touch p' = p_touch p).
Proof.
  unfold scroll_terminal. destruct (p_scroll p). apply wlp_bind.
  eapply wlp_mono; [apply on_input_touch|]. by intros.
Qed.

Lemma gesture_moves down t e : touch_id e ∈ down → gesture_ok down (TouchScroll t) → gesture_ok down (TouchScroll e).
Proof. intros He [Hs _]. split; [simpl; set_solver|done]. Qed.

Lemma drag_gesture down e p :
  touch_id e ∈ down → gesture_ok down (p_touch p) → wlp (drag e p) (λ p', gesture_ok down (p_touch p')).
Proof.
  intros He Hg. unfold PointerInput.drag. destruct (p_touch p) eqn:E; try (simpl; by rewrite E).
  - eapply wlp_mono; [apply on_input_touch|]. intros p' ->. by rewrite E.
  - eapply wlp_mono; [apply scroll_terminal_touch|]. intros p' ->. by eapply gesture_moves.
Qed.

Lemma zoom_gesture down e z :
  touch_id e ∈ down → gesture_ok down (TouchZooming z) → gesture_ok down (TouchZooming (font_delta hypot e z).1).
Proof.
  intros He [Hs Hd]. unfold font_delta. simpl in *. destruct (zoom_slots z) as [a b]. simpl in *.
  case_match eqn:Ei; (split; simpl; [set_solver|lia]).
Qed.

Lemma motion_gesture down e p :
  touch_id e ∈ down → gesture_ok down (p_touch p) → wlp (on_touch_motion e p) (λ p', gesture_ok down (p_touch p')).
Proof.
  intros He Hg. unfold PointerInput.on_touch_motion.
  destruct (p_touch p) eqn:E; try (apply drag_gesture; [done|by rewrite E]).
  - pose proof (zoom_gesture down e z He Hg) as Hz. destruct (font_delta hypot e z) as [z' d]. exact Hz.
  - case_match; [|case_match].
    + apply wlp_bind. eapply wlp_mono; [apply on_input_touch|]. intros p1 E1.
      apply wlp_bind. eapply wlp_mono; [apply on_input_touch|]. intros p2 E2.
      apply drag_gesture; [done|]. by rewrite E2, E1.
    + by apply drag_gesture.
    + simpl. by rewrite E.
Qed.

Lemma start_gesture down e p :
  touch_id e ∉ down → gesture_ok down (p_touch p) → gesture_ok (down ∪ {[touch_id e]}) (p_touch (on_touch_start e p)).
Proof.
  intros He. unfold on_touch_start.
  assert (∀ b : bool, p_touch (if b then inhibit_touch true p else p) = p_touch p) as Eb by by intros [].
  unfold upd_touch. simpl. rewrite Eb. intros [Hs Ho].
  destruct (p_touch p) as [|t|t|z|t|t|s]; (split; simpl in *; [set_solver|]); try done; intros Ei.
  all: rewrite <-?Ei in He; set_solver.
Qed.

Lemma end_gesture down e p :
  touch_id e ∈ down → gesture_ok down (p_touch p) →
  wlp (on_touch_end e p) (λ p', gesture_ok (down ∖ {[touch_id e]}) (p_touch p')).
Proof.
  intros He Hg. apply wlp_bind. eapply wlp_mono; [by apply motion_gesture|]. clear p Hg. intros p [Hs Ho].
  assert (Hn : gesture_ok (down ∖ {[touch_id e]}) TouchNone) by (split; [apply empty_subseteq|done]).
  destruct (p_touch p) as [|t|t|z|t|t|s] eqn:E; simpl in Hs; try exact Hn.
  - simpl. by rewrite E.
  - eapply wlp_mono; [apply on_input_touch|]. by intros p' ->.
  - destruct (zoom_slots z) as [a b] eqn:Ez. simpl in *.
    split; [|done]. destruct (Z.eqb_spec (touch_id a) (touch_id e)) as [Ea|Ea]; [rewrite <-Ea|]; set_solver.
  - apply wlp_bind. eapply wlp_mono; [apply on_input_touch|]. intros p1 E1.
    apply wlp_bind. eapply wlp_mono; [apply on_input_touch|]. intros p2 E2.
    apply wlp_bind. eapply wlp_mono; [apply on_input_touch|]. intros p3 E3. simpl. by rewrite E3, E2, E1.
  - simpl. case_decide; [done|]. split; simpl; [set_solver|done].
Qed.

Lemma touches_gesture es down p :
  touch_order es down = true → gesture_ok down (p_touch p) →
  wlp (touches es p) (λ p', gesture_ok (all_fingers es down) (p_touch p')).
Proof.
  revert down p. induction es as [|[ph e] es IH]; intros down p Ho Hg; [done|]. simpl in *.
  apply andb_true_iff in Ho as [Hf Ho]. apply wlp_bind.
  eapply (wlp_mono _ (λ p', gesture_ok (fingers ph (touch_id e) down) (p_touch p'))); [|by intros; apply IH].
  destruct ph; simpl in *; apply bool_decide_eq_true in Hf.
  - by apply start_gesture.
  - by apply motion_gesture.
  - by apply end_gesture.
  - by apply end_gesture.
Qed.

(** C35: gestures end with the fingers: whatever the fingers of a touch screen do, in
    whatever order they come and go, once all of them are lifted no gesture is left, so
    the next touch is a tap again. *)
Theorem gestures_end es p p' e :
  touch_order es ∅ = true → p_touch p = TouchNone → all_fingers es ∅ = ∅ → touches es p = Ok p' →
  p_touch p' = TouchNone ∧ p_touch (on_touch_start e p') = TouchTap e.
Proof.
  intros Ho Hp Hf E. pose proof (touches_gesture es ∅ p Ho) as Hg.
  rewrite E, Hf, Hp in Hg. assert (p_touch p' = TouchNone) as Hn by (apply idle_gesture, Hg; done).
  split; [done|]. unfold on_touch_start. by destruct (negb _); simpl; rewrite Hn.
Qed.
End touches.

(** ** A wheel and a finger *)
Definition demo_pointer : Pointer := mkPointer plain_input (3, 15) TouchNone false [].
Abbreviation demo_scroll := (scroll_terminal demo_ui demo_window 0 no_compile 10 10 mods_empty (λ _, []) default_mouse_bindings).

Lemma wheel_scrolls_exactly_witness :
  demo_scroll 0 30 3 demo_pointer
  = (i ← scroll_by demo_ui demo_window 0 mods_empty 5 0 plain_input; mret (upd_scroll (3, 5) (upd_input i demo_pointer))).
Proof.
  destruct (wheel_scrolls_exactly demo_ui demo_window 0 no_compile 10 10 mods_empty (λ _, []) default_mouse_bindings
    0 30 3 demo_pointer) as (l & c & rx & ry & E1 & B1 & S1 & E2 & B2 & S2 & _ & _ & E).
  - vm_compute. discriminate.
  - vm_compute. discriminate.
  - lia.
  - repeat constructor; discriminate.
  - reflexivity.
  - reflexivity.
  - reflexivity.
  - assert (mouse_mode (i_ctx (p_input demo_pointer)) = false) as Hm by reflexivity.
    rewrite Hm in *. cbn [demo_pointer p_scroll fst snd] in *. simpl si_cell_height in *. simpl si_cell_width in *.
    assert (l = 5 ∧ ry = 5 ∧ c = 0 ∧ rx = 3) as (-> & -> & -> & ->) by lia. exact E.
Defined.

(** Three fingers come and go: the first scrolls, the second makes the gesture invalid,
    the third comes after the first is lifted. *)
Definition fumble : list (TouchPhase * TouchEvent) :=
  [(TouchStarted, mkTouch 1 25 10); (TouchMoved, mkTouch 1 25 50); (TouchStarted, mkTouch 2 40 10);
   (TouchEnded, mkTouch 1 25 50); (TouchStarted, mkTouch 3 5 5); (TouchEnded, mkTouch 2 40 10);
   (TouchEnded, mkTouch 3 5 5)].
Abbreviation demo_touches := (touches demo_ui demo_window 0 no_compile 10 10 mods_empty (λ _, []) default_mouse_bindings 5 2 Z.add).
Definition fumbled : Pointer := Eval vm_compute in
  match demo_touches fumble demo_pointer with Ok p => p | Panic _ => demo_pointer end.

Lemma gestures_end_witness :
  demo_touches fumble demo_pointer = Ok fumbled ∧
  p_touch (on_touch_start (mkTouch 4 0 0) fumbled) = TouchTap (mkTouch 4 0 0).
Proof.
  assert (E : demo_touches fumble demo_pointer = Ok fumbled) by (vm_cast_no_check (eq_refl (Ok fumbled))).
  split; [exact E|].
  apply (gestures_end demo_ui demo_window 0 no_compile 10 10 mods_empty (λ _, []) default_mouse_bindings 5 2 Z.add
    fumble demo_pointer fumbled (mkTouch 4 0 0)); [vm_compute; reflexivity|reflexivity|vm_compute; reflexivity|exact E].
Defined.

(** The finger that makes a gesture invalid is not followed itself: once the first one
    is lifted it is forgotten although it is still down, and a further finger taps. *)
Example later_finger_forgotten :
  (p_touch <$> (match demo_touches (firstn 4 fumble) demo_pointer with Ok p => Some p | _ => None end)) = Some TouchNone ∧
  all_fingers (firstn 4 fumble) ∅ = {[2]}.
Proof. split; vm_compute; reflexivity. Qed.

(** A second finger while the first one selects: the left button that the gesture
    pressed is never released. *)
Example selecting_button_stuck :
  match demo_touches [(TouchStarted, mkTouch 1 5 10); (TouchMoved, mkTouch 1 45 10); (TouchStarted, mkTouch 2 40 10);
                      (TouchEnded, mkTouch 1 45 10); (TouchEnded, mkTouch 2 40 10)] demo_pointer with
  | Ok p => Some (p_touch p, left_button_state (x_mouse (i_ctx (p_input p))))
  | Panic _ => None
  end = Some (TouchNone, Pressed).
Proof. vm_compute. reflexivity. Qed.
End PointerClaims.
