(* ===== verification/ContentClaims.v ===== *)
(** * What is drawn

    Every cell of the displayed area is considered once, in reading order, and drawn
    unless it is blank. *)

From S2P Require Import Prelude Index Ansi GridCell Row Storage Cell Grid GridFacts GridOps Selection.
From S2P Require Import Resize Term TermFacts TermOps Handler HandlerFacts HandlerEdit HandlerSafe Session.
From S2P Require Import Search RegexSearch Hints ActionContext ColorList Content Demo Witnesses ActionClaims.
From Stdlib Require Import QArith.
#[local] Open Scope Z_scope.

Module ContentClaims.
Import ActionContext ColorList Content ActionClaims.

Section draw.
Context `{Ansi} (named_index_ok : ∀ n, named_color_as_usize n = named_index n).
Context (dim_color : Rgb → Rgb) (to_bright to_dim : NamedColor → NamedColor) (low_contrast : Rgb → Rgb → bool).
Context (cfg : DrawConfig).
Implicit Types (f : Frame) (p : Point) (cell : Cell).

#[local] Abbreviation step := (content_step dim_color to_bright to_dim low_contrast cfg).
#[local] Abbreviation cell_of := (renderable_cell dim_color to_bright to_dim cfg).

(** ** Colours *)

Definition color_ok (c : Color) : Prop := match c with Indexed i => 0 ≤ i < 256 | _ => True end.
Definition cell_ok cell : Prop :=
  color_ok (fg cell) ∧ color_ok (bg cell) ∧ (∀ u, underline_color cell = Some u → color_ok u).

(** The parts of a frame that do not change while it is drawn, and its sizes. *)
Record frame_ok f : Prop := {
  fo_set : zlen (rd_colors (fr_terminal f)) = COUNT;
  fo_list : zlen (dr_list cfg) = COUNT;
  fo_hint : fr_hint f = None;
  fo_offset : 0 ≤ rd_display_offset (fr_terminal f) ≤ 536870912 }.

Definition static f f' : Prop :=
  fr_terminal f' = fr_terminal f ∧ fr_cursor_shape f' = fr_cursor_shape f ∧
  fr_cursor_point f' = fr_cursor_point f ∧ fr_hint f' = fr_hint f.

Lemma named_index_range n : 0 ≤ named_index n < COUNT.
Proof. by destruct n. Qed.

Lemma vec_get_wp {A} (l : list A) (i : Z) : 0 ≤ i < zlen l → wp (vec_get l i) (λ _, True).
Proof.
  intros Hi. unfold vec_get, zlookup. rewrite (proj2 (Z.leb_le 0 i)) by lia.
  destruct (lookup_lt_is_Some_2 l (Z.to_nat i)) as [x ->]; [unfold zlen in Hi; lia|done].
Qed.

Lemma content_color_wp f i : frame_ok f → 0 ≤ i < COUNT → wp (content_color cfg f i) (λ _, True).
Proof.
  intros [Hs Hl _ _] Hi. unfold content_color. apply wp_bind. eapply wp_mono; [apply vec_get_wp; lia|].
  intros [c|] _; [done|]. apply vec_get_wp. lia.
Qed.

Lemma named_color_wp f n : frame_ok f → wp (named_color cfg f n) (λ _, True).
Proof using named_index_ok.
  intros Hf. unfold named_color. rewrite named_index_ok. apply content_color_wp; [done|apply named_index_range].
Qed.

Lemma compute_fg_wp f c (fl : Z) : frame_ok f → color_ok c → wp (compute_fg_rgb dim_color to_bright to_dim cfg f c fl) (λ _, True).
Proof using named_index_ok.
  intros Hf Hc. destruct c as [n|c|i]; simpl in *; [|done|].
  - repeat (apply wp_if; intros _); by apply named_color_wp.
  - apply content_color_wp; [done|]. rewrite named_index_ok. unfold COUNT, named_index.
    repeat match goal with |- context [if ?b then _ else _] => destruct b eqn:? end; lia.
Qed.

Lemma compute_bg_wp f c : frame_ok f → color_ok c → wp (compute_bg_rgb cfg f c) (λ _, True).
Proof using named_index_ok.
  intros Hf Hc. destruct c as [n|c|i]; simpl in *; [by apply named_color_wp|done|].
  apply content_color_wp; [done|unfold COUNT; lia].
Qed.

(** ** One cell *)

(** Where a cell of the grid is in the window. *)
Definition in_view f p : Point := mkPoint (line p + rd_display_offset (fr_terminal f)) (column p).
Definition visible f p : Prop := 0 ≤ line p + rd_display_offset (fr_terminal f) ≤ 536870912 ∧ 0 ≤ column p < 1073741824.

Lemma overlay_wp f p cell (selected : bool) l :
  frame_ok f →
  wp (apply_overlay cfg p cell selected l f) (λ r, r.1.1.2 = c cell ∧ r.1.2 = flags cell ∧ static f r.2 ∧
    (selected = false → fr_search f = None → r.1.1.1 = l)).
Proof using named_index_ok.
  intros Hf. pose proof Hf as [_ _ Hh Ho]. unfold apply_overlay. rewrite Hh. apply wp_bind.
  rewrite as_i32_id by lia. apply wp_i32_neg; [lia|]. cbn [mbind exec_bind mret exec_ret].
  destruct selected.
  - apply wp_if; intros _; [|by apply wp_ret].
    apply wp_bind. eapply wp_mono; [by apply named_color_wp|]. intros ? _. apply wp_bind.
    eapply wp_mono; [by apply named_color_wp|]. intros ? _. by apply wp_ret.
  - destruct (fr_search f) as [s|] eqn:Es; [|by apply wp_ret]. destruct (matches_advance p s) as [found s'].
    destruct found; by apply wp_ret.
Qed.

(** Nothing shows in the cell itself. *)
Definition bare cell : Prop :=
  c cell = SPACE ∧ zerowidth cell = None ∧ hyperlink cell = None ∧
  Bitflags.intersects (flags cell) (Z.lor Flags.ALL_UNDERLINES Flags.STRIKEOUT) = false.

Definition shown f (x : Point * Cell) (o : option RenderableCell) : Prop :=
  match o with
  | Some r => rc_at r = in_view f x.1 ∧ rc_character r = c x.2 ∧ rc_flags r = flags x.2
  | None => fr_cursor_point f ≠ in_view f x.1 ∧
      (Bitflags.contains (flags x.2) Flags.WIDE_CHAR_SPACER = true ∨ bare x.2)
  end.

Lemma contains_cell_wp (r : SelectionRange) p cell q sh :
  0 ≤ column p < 1073741824 → wp (contains_cell r p cell q sh) (λ _, True).
Proof.
  intros Hp. unfold contains_cell. apply wp_if; intros _; [done|]. apply wp_if; intros _; [done|].
  apply wp_if; intros _; [|done]. apply wp_bind. apply wp_usize_add; [lia|done].
Qed.

Lemma renderable_cell_wp f p cell :
  frame_ok f → cell_ok cell → visible f p →
  wp (cell_of p cell f) (λ r, static f r.2 ∧ rc_at r.1 = in_view f p ∧ rc_character r.1 = c cell ∧
    rc_flags r.1 = flags cell ∧ (rc_extra r.1 = None → zerowidth cell = None ∧ hyperlink cell = None)).
Proof using named_index_ok.
  intros Hf (Hfg & Hbg & Hu) [Hl Hc]. pose proof (fo_offset _ Hf) as Ho. unfold renderable_cell.
  apply wp_bind. eapply wp_mono; [by apply compute_fg_wp|]. intros fg _. apply wp_bind.
  eapply wp_mono; [by apply compute_bg_wp|]. intros bg _. apply wp_bind.
  apply wp_mono with (Q := λ _, True).
  { destruct (rd_selection _) as [r|]; [by apply contains_cell_wp|done]. }
  intros selected _. apply wp_bind.
  eapply wp_mono; [by apply overlay_wp|]. intros [[[l' ch] fl] f'] (Ech & Efl & Hs & _). simpl in *. subst ch fl.
  pose proof Hs as (Et & _). rewrite Et. apply wp_bind. unfold point_to_viewport. apply wp_bind.
  rewrite as_i32_id by lia. apply wp_i32_add; [lia|]. apply wp_ret. rewrite (proj2 (Z.leb_le 0 _)) by lia.
  apply wp_bind. apply wp_ret. cbn [unwrap]. apply wp_bind.
  apply wp_mono with (Q := λ _, True).
  { destruct (underline_color cell) as [u|] eqn:Eu; [|done]. apply compute_fg_wp; [|by apply Hu].
    destruct Hf as [Hf1 Hf2 Hf3 Hf4], Hs as (_ & _ & _ & Hh). split; rewrite ?Et; try done. congruence. }
  intros u _. apply wp_ret. simpl. split_and!; try done. by destruct (zerowidth cell), (hyperlink cell).
Qed.

Lemma under_cursor_same d x :
  rc_at (under_cursor d x) = rc_at x ∧ rc_character (under_cursor d x) = rc_character x ∧
  rc_flags (under_cursor d x) = rc_flags x.
Proof. unfold under_cursor. by case_bool_decide. Qed.

Lemma step_wp f p cell :
  frame_ok f → cell_ok cell → visible f p →
  wp (step p cell f) (λ r, shown f (p, cell) r.1 ∧ static f r.2).
Proof using named_index_ok.
  intros Hf Hc Hv. unfold content_step. apply wp_bind. eapply wp_mono; [by apply renderable_cell_wp|].
  intros [x f'] (Hs & Ea & Ech & Efl & Hx). simpl in *. pose proof Hs as (Et & _ & Ep & _). rewrite Ep.
  apply wp_if; intros Eq.
  - apply wp_bind. unfold drawn_cursor. apply wp_bind. rewrite Et, named_index_ok.
    eapply wp_mono; [apply vec_get_wp; rewrite (fo_set _ Hf); apply named_index_range|]. intros set _.
    apply wp_ret. apply wp_ret. simpl. split; [|done].
    match goal with |- context [under_cursor ?d x] => destruct (under_cursor_same d x) as (-> & -> & ->) end. done.
  - apply bool_decide_eq_false in Eq. apply wp_if; intros Eb; apply wp_ret; simpl; [done|].
    split; [|done]. split; [congruence|]. apply andb_false_iff in Eb as [Eb|Eb]; apply negb_false_iff in Eb.
    + right. unfold cell_is_empty in Eb. rewrite Ech, Efl in Eb. rewrite !andb_true_iff in Eb.
      destruct Eb as [[[_ E1%Z.eqb_eq] E2%bool_decide_eq_true] E3%negb_true_iff]. destruct (Hx E2). by split_and!.
    + left. by rewrite <- Efl.
Qed.

(** ** The whole frame *)

(** The cells that the iterator of a frame still has to yield. *)
Definition remaining (g : Grid Cell) f (xs : list (Point * Cell)) : Prop :=
  ∃ k, iter_collect k g (rd_display_iter (fr_terminal f)) = Ok xs.

(** As [static], but the iterator may move on. *)
Definition moved f f' : Prop :=
  ∃ it, static (with_iter it f) f'.

Lemma static_moved it f f1 f' : static (with_iter it f) f1 → moved f1 f' → moved f f'.
Proof.
  intros (E1 & E2 & E3 & E4) [it' (F1 & F2 & F3 & F4)]. exists it'. unfold static. simpl in *. split_and!; [|congruence..].
  rewrite F1. by rewrite E1.
Qed.

Lemma moved_ok f f' : moved f f' → frame_ok f → frame_ok f'.
Proof. intros [it (E1 & _ & _ & E4)] [? ? ? ?]. simpl in *. split; rewrite ?E1; try done. congruence. Qed.

Lemma moved_shown f f' x o : moved f f' → shown f' x o → shown f x o.
Proof.
  intros [it (E1 & _ & E3 & _)]. unfold shown, in_view. rewrite E1, E3. done.
Qed.

Lemma moved_visible f f' p : moved f f' → visible f p → visible f' p.
Proof. intros [it (E1 & _)]. unfold visible. rewrite E1. done. Qed.

Definition drawable f (x : Point * Cell) : Prop := cell_ok x.2 ∧ visible f x.1.

Lemma iter_next_end (g : Grid Cell) it it' : iter_next g it = Ok (None, it') → it' = it.
Proof.
  unfold iter_next. destruct (point_ge _ _); [intros E; by injection E|]. destruct (last_column g); [|done]. simpl.
  destruct (if _ <=? _ then _ else _) as [q|]; [|done]. simpl. by destruct (grid_cell g q).
Qed.

Lemma content_next_wp (g : Grid Cell) xs fuel f :
  frame_ok f → remaining g f xs → Forall (drawable f) xs → (length xs < fuel)%nat →
  wp (content_next dim_color to_bright to_dim low_contrast cfg fuel g f) (λ r, moved f r.2 ∧
    ∃ skipped rest, Forall (λ x, shown f x None) skipped ∧ remaining g r.2 rest ∧
      match r.1 with
      | None => xs = skipped
      | Some y => ∃ x, xs = skipped ++ x :: rest ∧ shown f x (Some y)
      end).
Proof using named_index_ok.
  revert fuel f. induction xs as [|[p cell] xs IH]; intros fuel f Hf [k Hk] Hd Hn; (destruct fuel as [|fuel]; [simpl in Hn; lia|]);
    simpl; (destruct k as [|k]; [done|]); simpl in Hk;
    destruct (iter_next g _) as [[item it]|] eqn:Ei; try done; simpl in Hk |- *; destruct item as [[p' cell']|];
    try (destruct (iter_collect k g it) as [xs'|] eqn:Ec; simpl in Hk; [|done]); unfold mret, exec_ret in Hk; simplify_eq.
  - apply wp_ret. simpl. split; [by exists it|]. exists [], []. split; [constructor|]. split; [|done].
    pose proof (iter_next_end _ _ _ Ei) as ->. exists (S k). simpl. by rewrite Ei.
  - apply Forall_cons in Hd as [[Hc Hv] Hd]. simpl in Hn. apply wp_bind. eapply wp_mono.
    + apply (step_wp (with_iter it f) p cell); [|done|done]. destruct Hf as [? ? ? ?]. by split.
    + intros [[y|] f1] [Hs Hst]; simpl in *.
      * apply wp_ret. simpl. split; [by exists it|]. exists [], xs. split; [constructor|]. split; [|by exists (p, cell)].
        exists k. destruct Hst as (-> & _). exact Ec.
      * assert (Hm : moved f f1) by (by exists it).
        eapply wp_mono; [apply (IH fuel f1)|].
        -- by eapply moved_ok.
        -- exists k. destruct Hst as (-> & _). exact Ec.
        -- eapply Forall_impl; [exact Hd|]. intros x [? ?]. split; [done|]. by eapply moved_visible.
        -- lia.
        -- intros [o f2] (Hm2 & skipped & rest & Hsk & Hr & Ho). simpl in *.
           split; [by eapply static_moved|]. exists ((p, cell) :: skipped), rest. split; [|split; [done|]].
           ++ constructor; [done|]. eapply Forall_impl; [exact Hsk|]. intros x Hx. exact (moved_shown f f1 x None Hm Hx).
           ++ destruct o as [y|]; [|by subst]. destruct Ho as (x & -> & Hx). exists x. split; [done|].
              exact (moved_shown f f1 x (Some y) Hm Hx).
Qed.

Lemma content_collect_wp (g : Grid Cell) n fuel xs f :
  frame_ok f → remaining g f xs → Forall (drawable f) xs → (length xs < fuel)%nat → (length xs < n)%nat →
  wp (content_collect dim_color to_bright to_dim low_contrast cfg n fuel g f) (λ r,
    ∃ os, r.1 = omap (λ o, o) os ∧ Forall2 (shown f) xs os).
Proof using named_index_ok.
  revert xs f. induction n as [|n IH]; intros xs f Hf Hr Hd Hfuel Hn; [lia|]. simpl. apply wp_bind.
  eapply wp_mono; [by eapply content_next_wp|].
  intros [[y|] f1] (Hm & skipped & rest & Hsk & Hr1 & Ho); cbn [fst snd] in *.
  - destruct Ho as (x & -> & Hx). apply Forall_app in Hd as [_ [_ Hd]%Forall_cons]. rewrite length_app in *. simpl in *.
    apply wp_bind. eapply wp_mono; [apply (IH rest f1)|].
    + by eapply moved_ok.
    + done.
    + eapply Forall_impl; [exact Hd|]. intros z [? ?]. split; [done|]. by eapply moved_visible.
    + lia.
    + lia.
    + intros [ys f2] (os & Ey & Hos). simpl in *. apply wp_ret. simpl. subst ys.
      exists (replicate (length skipped) None ++ Some y :: os). split.
      * rewrite omap_app. simpl. assert (E : omap (λ o, o) (replicate (length skipped) (@None RenderableCell)) = []).
        { generalize (length skipped). induction n0; [done|]. simpl. done. }
        by rewrite E.
      * apply Forall2_app; [|constructor; [done|]].
        -- apply Forall2_same_length_lookup_2; [by rewrite length_replicate|]. intros i z o Hz Ho.
           apply lookup_replicate in Ho as [-> _]. rewrite Forall_lookup in Hsk. by apply (Hsk i).
        -- eapply Forall2_impl; [exact Hos|]. intros z o Ho. exact (moved_shown f f1 z o Hm Ho).
  - subst. apply wp_ret. exists (replicate (length skipped) None). split.
    + simpl. generalize (length skipped). intros m. by induction m.
    + apply Forall2_same_length_lookup_2; [by rewrite length_replicate|]. intros i z o Hz Ho.
      apply lookup_replicate in Ho as [-> _]. rewrite Forall_lookup in Hsk. by apply (Hsk i).
Qed.

End draw.

(** ** A concrete frame *)

Lemma demo_index_ok : ∀ n, named_color_as_usize n = named_index n.
Proof. by intros []. Qed.

Definition demo_dim (c : Rgb) : Rgb :=
  mkRgb (Ansi.red c * 2 / 3) (Ansi.green c * 2 / 3) (Ansi.blue c * 2 / 3).

Definition demo_draw : DrawConfig := Eval vm_compute in
  mkDrawConfig colors_default 1%Q true
    (match color_list demo_dim colors_default with Ok l => l | Panic _ => [] end) 6.
Definition demo_frame : Frame := Eval vm_compute in
  match content_new demo_draw 10 10 mode_term search_default (hints_new []) false false with
  | Ok (f, _) => f
  | Panic _ => mkFrame (mkRContent (mkIter default_point default_point) None (mkRCursor Hidden default_point) 0 [] 0)
                 cursor_new_hidden Hidden default_point None None None
  end.

(** A check of all cells of a grid. *)
Definition color_okb (c : Color) : bool := match c with Indexed i => (0 <=? i) && (i <? 256) | _ => true end.
Definition cell_okb (x : Cell) : bool :=
  color_okb (fg x) && color_okb (bg x) && match underline_color x with Some u => color_okb u | None => true end.

Lemma color_okb_ok c : color_okb c = true → color_ok c.
Proof. destruct c; simpl; try done. lia. Qed.

Lemma rows_cells_ok (g : Grid Cell) :
  forallb (λ r, forallb cell_okb (r_inner r)) (s_inner (raw g)) = true →
  ∀ p cell, g_cell g p = Some cell → cell_ok cell.
Proof.
  intros Hall p cell Hc. unfold g_cell, g_line, line_at, ring_at in Hc.
  destruct (zlookup (s_inner (raw g)) _) as [r|] eqn:Er; [|done]. simpl in Hc.
  apply zlookup_spec in Er as [_ Er%list_elem_of_lookup_2%list_elem_of_In]. rewrite forallb_forall in Hall.
  specialize (Hall r Er). rewrite forallb_forall in Hall.
  apply zlookup_spec in Hc as [_ Hc%list_elem_of_lookup_2%list_elem_of_In]. specialize (Hall cell Hc).
  unfold cell_okb in Hall. apply andb_true_iff in Hall as [[H1 H2]%andb_true_iff H3].
  split; [by apply color_okb_ok|]. split; [by apply color_okb_ok|]. intros u Eu. rewrite Eu in H3. by apply color_okb_ok.
Qed.

End ContentClaims.
