(* ===== verification/DrawClaims.v ===== *)
(** * What is drawn over the grid is repainted

    Texts over the grid are damaged in the frame that shows them, so that they appear, and
    in the next one, so that they vanish. *)

From S2P Require Import Prelude Decimal Index Ansi GridCell Row Storage Cell Grid Selection Term Search RegexSearch.
From S2P Require Import HintLabels Hints Scheduler EventLoop FrameDamage Shortener MessageBar Keyboard ActionContext.
From S2P Require Import DisplaySize DisplayState ColorList Content RenderLines Draw.
From S2P Require Import Demo Witnesses ActionClaims ContentClaims DisplayClaims.
From stdpp Require Import gmap.
#[local] Open Scope Z_scope.

Module DrawClaims.
Import Scheduler FrameDamage ActionContext DisplaySize DisplayState Content RenderLines Draw.
Import ActionClaims ContentClaims DisplayClaims.

(** ** Damage only grows *)

Definition more (f f' : FrameDamage) : Prop := ∀ l col, damages f l col → damages f' l col.
Definition grows (dt dt' : DamageTracker) : Prop :=
  more (frame dt) (frame dt') ∧ more (next_frame dt) (next_frame dt').

#[global] Instance more_preorder : PreOrder more.
Proof. split; [by intros f l col|]. intros f1 f2 f3 H1 H2 l col Hd. by apply H2, H1. Qed.
#[global] Instance grows_preorder : PreOrder grows.
Proof. split; [by split|]. intros d1 d2 d3 [? ?] [? ?]. split; by etrans. Qed.

#[local] Hint Extern 0 (more _ _) => reflexivity : core.
#[local] Hint Extern 0 (grows _ _) => reflexivity : core.

Lemma damage_line_more b f :
  wlp (damage_line b f) (λ f', more f f' ∧ ∀ col, d_left b ≤ col ≤ d_right b → damages f' (d_line b) col).
Proof.
  unfold damage_line, vec_modify, vec_get. destruct (zlookup (f_lines f) (d_line b)) as [b0|] eqn:E; [|done].
  pose proof (zlookup_bound _ _ _ E) as Hb. unfold vec_set. cbn [mbind exec_bind].
  replace (_ && _) with true by lia. simpl. split.
  - intros l col [Hf|(b1 & Hl & Hc)]; [by left|right]. simpl. rewrite zlookup_insert by done.
    destruct (Z.eqb_spec l (d_line b)) as [->|Hne]; [|by exists b1].
    rewrite E in Hl. injection Hl as ->. eexists. split; [done|]. simpl. lia.
  - intros col Hc. right. simpl. rewrite zlookup_insert by done. rewrite Z.eqb_refl. eexists. split; [done|]. simpl. lia.
Qed.

Lemma damage_both_grows b dt :
  wlp (damage_both b dt) (λ dt', grows dt dt' ∧ ∀ col, d_left b ≤ col ≤ d_right b →
    damages (frame dt') (d_line b) col ∧ damages (next_frame dt') (d_line b) col).
Proof.
  apply wlp_bind. eapply wlp_mono; [apply damage_line_more|]. intros f [Hf Hc].
  apply wlp_bind. eapply wlp_mono; [apply damage_line_more|]. intros f' [Hf' Hc'].
  split; [by split|]. intros col Hcol. split; [by apply Hc|by apply Hc'].
Qed.

(** ** Texts *)

Section texts.
Context (width : Z → option Z) (si : SizeInfo).
Implicit Types (dt : DamageTracker) (tx : DrawnText).

(** All characters of a text that are on the grid are damaged, in this frame and in the
    next one. *)
Definition repainted_text dt tx : Prop :=
  ∀ k, 0 ≤ k < zlen (dx_chars tx) → line (dx_point tx) < screen_lines si → column (dx_point tx) + k < columns si →
    damages (frame dt) (line (dx_point tx)) (column (dx_point tx) + k) ∧
    damages (next_frame dt) (line (dx_point tx)) (column (dx_point tx) + k).
Definition repainted dt (txs : list DrawnText) : Prop := Forall (repainted_text dt) txs.

Lemma repainted_grows dt dt' txs : grows dt dt' → repainted dt txs → repainted dt' txs.
Proof.
  intros [Hf Hn] Hr. eapply Forall_impl; [exact Hr|]. intros tx Ht k Hk Hl Hc.
  destruct (Ht k Hk Hl Hc). split; [by apply Hf|by apply Hn].
Qed.

Lemma repainted_one dt tx : repainted_text dt tx → repainted dt [tx].
Proof. intros Ht. constructor; [exact Ht|constructor]. Qed.

(** What an operation on the tracker that draws texts has to do. *)
Definition overlays dt (r : DamageTracker * list DrawnText) : Prop := grows dt r.1 ∧ repainted r.1 r.2.

Lemma overlays_none dt : overlays dt (dt, []).
Proof. split; [done|constructor]. Qed.

(** A text that is damaged from its start on. *)
Lemma damage_text b dt tx :
  line (dx_point tx) = d_line b → d_left b ≤ column (dx_point tx) →
  (∀ k, 0 ≤ k < zlen (dx_chars tx) → column (dx_point tx) + k < columns si → column (dx_point tx) + k ≤ d_right b) →
  wlp (damage_both b dt) (λ dt', grows dt dt' ∧ repainted_text dt' tx).
Proof.
  intros El Hl Hr. eapply wlp_mono; [apply damage_both_grows|]. intros dt' [Hg Hc]. split; [done|].
  intros k Hk Hln Hcol. rewrite El. apply Hc. specialize (Hr k Hk Hcol). lia.
Qed.

Lemma line_indicator_overlays total obstructed l dt :
  wlp (draw_line_indicator si total obstructed l dt) (overlays dt).
Proof.
  apply wlp_bind. apply wlp_any. intros last. cbv zeta. apply wlp_bind.
  eapply (wlp_mono _ (λ r, r = columns si - 1)).
  { unfold usize_sub, checked. by destruct (in_usize _). }
  intros right ->. apply wlp_bind.
  set (tx := mkText (mkPoint 0 (saturating_sub (columns si) (zlen _))) ([91] ++ decimal l ++ [47] ++ decimal last ++ [93])).
  eapply wlp_mono; [apply (damage_text _ dt tx); [done|simpl; lia|simpl; lia]|].
  intros dt' [Hg Ht]. split; [done|]. cbn [snd]. case_match; [by apply repainted_one|constructor].
Qed.

Lemma render_timer_overlays timing dt : wlp (draw_render_timer si timing dt) (overlays dt).
Proof.
  destruct timing as [timing|]; [|apply overlays_none]. unfold draw_render_timer. apply wlp_bind.
  eapply wlp_mono; [apply (damage_text _ dt (mkText (mkPoint (saturating_sub (screen_lines si) 2) 0) timing));
    [done|simpl; lia|simpl; lia]|].
  intros dt' [Hg Ht]. split; [done|by apply repainted_one].
Qed.

Lemma saturating_nonneg a b : 0 ≤ saturating_sub a b.
Proof. unfold saturating_sub. lia. Qed.

Lemma ime_preview_overlays preedit p dt :
  wlp (draw_ime_preview width si preedit p dt) (λ r, overlays dt r.1).
Proof.
  destruct preedit as [preedit|]; [|apply overlays_none]. unfold draw_ime_preview. cbv zeta.
  apply wlp_bind, wlp_any. intros txt. apply wlp_bind, wlp_any. intros e. apply wlp_bind, wlp_any. intros e'.
  set (tx := mkText (mkPoint (line p) (saturating_sub (Z.min e (columns si)) (zlen txt))) txt).
  apply wlp_bind. eapply (wlp_mono _ (λ dt', grows dt dt' ∧ repainted_text dt' tx)).
  - destruct (Z.ltb_spec (line p) (screen_lines si)).
    + apply damage_text; [done|apply saturating_nonneg|]. intros k _ Hk. cbn [d_right]. lia.
    + split; [done|]. intros k Hk Hln. change (line (dx_point tx)) with (line p) in Hln. lia.
  - intros dt' [Hg Ht]. apply wlp_bind, wlp_any. intros popup. split; [done|by apply repainted_one].
Qed.

Lemma uris_overlays uris off lines dt : wlp (draw_uris si uris off lines dt) (overlays dt).
Proof.
  revert uris dt. induction lines as [|l lines IH]; intros uris dt; [destruct uris; apply overlays_none|].
  destruct uris as [|uri uris]; [apply overlays_none|]. simpl. apply wlp_bind.
  eapply (wlp_mono _ (λ o, ∀ p, o = Some p → column p = 0)).
  { unfold point_to_viewport. apply wlp_bind, wlp_any. intros v. simpl. intros p. case_match; [|done].
    by intros [= <-]. }
  intros [p|] Hp; [|apply IH]. specialize (Hp p eq_refl). apply wlp_bind.
  eapply wlp_mono; [apply (damage_text _ dt (mkText p uri)); [done|simpl; lia|simpl; lia]|].
  intros dt1 [Hg Ht]. apply wlp_bind. eapply wlp_mono; [apply IH|]. intros [dt2 txs] [Hg2 Hr]. simpl in *.
  split; [by etrans|]. constructor; [|done]. assert (Hone : repainted dt1 [mkText p uri]) by by apply repainted_one.
  apply (repainted_grows _ dt2) in Hone; [|done]. by inversion Hone.
Qed.

Lemma hyperlink_preview_overlays hl cursor off dt :
  wlp (draw_hyperlink_preview width si hl cursor off dt) (overlays dt).
Proof.
  unfold draw_hyperlink_preview. apply wlp_bind, wlp_any. intros uris. case_match; [apply overlays_none|].
  do 5 (apply wlp_bind, wlp_any; intros ?). apply uris_overlays.
Qed.

(** Messages are below the grid. *)
Lemma message_overlays offset m dt : 0 ≤ offset → wlp (draw_message width si offset m dt) (overlays dt).
Proof.
  intros Ho. unfold draw_message. apply wlp_bind, wlp_any. intros txt. apply wlp_bind.
  eapply (wlp_mono _ (λ l, screen_lines si ≤ l)).
  { unfold usize_add, checked. destruct (in_usize _); [|done]. simpl. lia. }
  intros l Hl. apply wlp_bind. unfold add_viewport_rect. apply wlp_bind, wlp_any. intros y.
  cbn [wlp mret exec_ret]. split; cbn [fst snd].
  - split; [|done]. intros l' col Hd. exact Hd.
  - apply Forall_lookup_2. intros i tx Hi. rewrite list_lookup_imap in Hi.
    destruct (txt !! i); [|done]. injection Hi as <-. intros k Hk Hln. cbn [dx_point line] in Hln. lia.
Qed.
End texts.

(** ** Damage of the terminal *)

Definition covered (damage : TermDamage) (f : FrameDamage) : Prop :=
  match damage with
  | FullDamage => ∀ l col, damages f l col
  | PartialDamage lines => ∀ b, b ∈ lines → ∀ col, d_left b ≤ col ≤ d_right b → damages f (d_line b) col
  end.

Lemma covered_more damage f f' : more f f' → covered damage f → covered damage f'.
Proof.
  intros Hm. destruct damage; simpl; intros Hc; [by intros l col; apply Hm|]. intros b Hb col Hcol. by apply Hm, Hc.
Qed.

Lemma full_more f : more f (FrameDamage.mark_fully_damaged f).
Proof. intros l col _. by left. Qed.

Lemma modify_more f i a b :
  wlp (lines ← vec_modify (f_lines f) i (bounds_expand a b); mret (FrameDamage.mkFrame (f_full f) lines (f_rects f))) (more f).
Proof.
  pose proof (damage_line_more (mkBounds i a b) f) as Hw. unfold damage_line in Hw. cbn [d_line d_left d_right] in Hw.
  destruct (vec_modify _ _ _); [|done]. simpl in *. apply Hw.
Qed.

Lemma damage_point_more p f : wlp (damage_point p f) (more f).
Proof. apply modify_more. Qed.
Lemma damage_cell_more o f : wlp (damage_cell o f) (more f).
Proof. destruct o; [apply damage_point_more|cbn; reflexivity]. Qed.

Lemma damage_each_covers lines f :
  wlp (damage_each lines f) (λ f', more f f' ∧ covered (PartialDamage lines) f').
Proof.
  revert f. induction lines as [|b lines IH]; intros f; [split; [reflexivity|]; intros b Hb; by apply elem_of_nil in Hb|].
  cbn [damage_each].
  apply wlp_bind. eapply wlp_mono; [apply damage_line_more|].
  intros f1 [Hw Hb]. eapply wlp_mono; [apply IH|]. intros f2 [Hw2 Hc]. split; [by etrans|].
  intros b' [->|Hb']%elem_of_cons col Hcol; [by apply Hw2, Hb|by apply Hc].
Qed.

Lemma add_term_damage_covers damage dt : wlp (add_term_damage damage dt) (λ dt', covered damage (frame dt')).
Proof.
  destruct damage; [by left|]. simpl. apply wlp_bind. eapply wlp_mono; [apply damage_each_covers|]. by intros f [_ Hc].
Qed.

Lemma damage_vi_cursor_more o dt : wlp (damage_vi_cursor o dt) (λ dt', more (frame dt) (frame dt')).
Proof.
  unfold damage_vi_cursor. cbn [frame]. destruct (f_full (frame dt)); [cbn; reflexivity|].
  apply wlp_bind. eapply wlp_mono; [apply damage_cell_more|]. intros f1 H1. cbn [old_vi_cursor].
  apply wlp_bind. eapply wlp_mono; [apply damage_cell_more|]. intros f2 H2. cbn. etrans; [exact H1|exact H2].
Qed.

Lemma wlp_for_up {S} (I : S → Prop) f k : ∀ i s,
  I s → (∀ i s, I s → wlp (f i s) I) → wlp (for_up k i f s) I.
Proof.
  induction k as [|k IH]; intros i s Hs Hf; [done|]. cbn [for_up]. apply wlp_bind.
  eapply wlp_mono; [by apply Hf|]. intros s' Hs'. by apply IH.
Qed.

Lemma damage_range_more r off dt : wlp (damage_range r off dt) (λ dt', more (frame dt) (frame dt')).
Proof.
  unfold damage_range. do 3 (apply wlp_bind, wlp_any; intros ?). case_match; [cbn; reflexivity|].
  do 3 (apply wlp_bind, wlp_any; intros ?). apply wlp_for_up; [reflexivity|]. intros i dt' Hw.
  apply wlp_bind, wlp_any. intros right. pose proof (modify_more (frame dt') i 0 right) as Hm.
  destruct (vec_modify _ _ _); [|done]. cbn in *. by etrans.
Qed.

Lemma damage_selection_more sel off dt : wlp (damage_selection sel off dt) (λ dt', more (frame dt) (frame dt')).
Proof.
  unfold damage_selection. cbv zeta. case_match; [cbn; reflexivity|]. apply wlp_bind.
  eapply (wlp_mono _ (λ dt', more (frame dt) (frame dt'))).
  { destruct sel; [|cbn; reflexivity]. eapply wlp_mono; [apply damage_range_more|]. by intros dt'. }
  intros dt1 H1. destruct (old_selection dt); [|exact H1].
  eapply wlp_mono; [apply damage_range_more|]. intros dt2 H2. etrans; [exact H1|exact H2].
Qed.

Section display.
Context {Font : Type}.
Implicit Types (d : Display Font).

Lemma damage_all_more d : more (frame (d_tracker d)) (frame (d_tracker (damage_all d))).
Proof. apply full_more. Qed.

Lemma validate_hints_more off d :
  wlp (validate_hint_highlights off d) (λ d', more (frame (d_tracker d)) (frame (d_tracker d'))).
Proof.
  unfold validate_hint_highlights. apply wlp_bind, wlp_any. intros [[hint age] cleared]. cbv zeta.
  set (d1 := if cleared then _ else _).
  assert (H1 : more (frame (d_tracker d)) (frame (d_tracker d1))) by (destruct cleared; [apply full_more|reflexivity]).
  apply wlp_bind, wlp_any. intros [[hint' age'] cleared']. cbn [wlp mret exec_ret]. etrans; [exact H1|].
  destruct cleared'; [apply full_more|reflexivity].
Qed.

Lemma frame_damage_covers bright hints ss vi sel off damage d :
  wlp (collect_frame_damage bright hints ss vi sel off damage d) (λ d', covered damage (frame (d_tracker d'))).
Proof.
  unfold collect_frame_damage. apply wlp_bind. eapply wlp_mono; [apply add_term_damage_covers|]. intros dt Hc.
  apply wlp_bind. eapply wlp_mono; [apply validate_hints_more|]. intros d1 H1. cbv zeta.
  set (dt1 := if _ || _ then _ else _).
  assert (H2 : more (frame (d_tracker d1)) (frame dt1)) by (unfold dt1; destruct (_ || _); [apply full_more|reflexivity]).
  apply wlp_bind. eapply wlp_mono; [apply damage_vi_cursor_more|]. intros dt2 H3.
  apply wlp_bind. eapply wlp_mono; [apply damage_selection_more|]. intros dt3 H4. cbn.
  eapply covered_more; [|exact Hc]. etrans; [exact H1|]. etrans; [exact H2|]. etrans; [exact H3|exact H4].
Qed.
End display.

Lemma highlight_cells_more hl off cells dt :
  wlp (highlight_cells hl off cells dt) (λ r, more (frame dt) (frame r.1)).
Proof.
  revert dt. induction cells as [|c cells IH]; intros dt; [cbn; reflexivity|]. cbn [highlight_cells]. apply wlp_bind, wlp_any. intros p. cbv zeta.
  apply wlp_bind. eapply (wlp_mono _ (λ r, more (frame dt) (frame r.1))).
  - destruct (_ || _); [|cbn; reflexivity]. apply wlp_bind. eapply wlp_mono; [apply damage_point_more|]. by intros f.
  - intros [dt1 c1] H1. apply wlp_bind. eapply wlp_mono; [apply IH|]. intros [dt2 cs] H2. cbn in *. etrans; [exact H1|exact H2].
Qed.

(** ** The frame *)

Section frame.
Context `{Ansi} {Font E : Type} (dim_color : Rgb → Rgb) (to_bright to_dim : NamedColor → NamedColor).
Context (low_contrast : Rgb → Rgb → bool) (cfg : DrawConfig) (fuel n : nat) (width : Z → option Z).
Implicit Types (d : Display Font) (t : Term) (ss : SearchState).

Lemma indicator_overlays si total ss vi off dt : wlp (indicator si total ss vi off dt) (overlays si dt).
Proof.
  unfold indicator. destruct vi as [p|].
  - do 4 (apply wlp_bind, wlp_any; intros ?). apply line_indicator_overlays.
  - destruct (regex_text ss); [apply line_indicator_overlays|apply overlays_none].
Qed.

(** The search bar is below the grid. *)
Lemma search_repainted si ss vi cursor off dt :
  wlp (search_or_cursor width si ss vi cursor off) (λ r, repainted si dt r.1).
Proof.
  unfold search_or_cursor. destruct (regex_text ss) as [regex|].
  - do 2 (apply wlp_bind, wlp_any; intros ?). apply repainted_one. intros k Hk Hl.
    unfold draw_search in Hl. cbn [dx_point line] in Hl. lia.
  - destruct vi; [constructor|]. apply wlp_bind, wlp_any. intros p. constructor.
Qed.

Lemma request_frame_tracker (e : E) window now vblank d s :
  wlp (request_frame e window now vblank d s) (λ r, d_tracker r.1 = d_tracker d).
Proof. unfold request_frame. apply wlp_bind, wlp_any. by intros [timeout ft]. Qed.

Lemma draw_overlays_repainted si total ss hl vi_point vi cursor off ime buffer timing dt :
  wlp (draw_overlays width si total ss hl vi_point vi cursor off ime buffer timing dt) (λ r, overlays si dt r.1).
Proof.
  unfold draw_overlays. apply wlp_bind. eapply wlp_mono; [apply indicator_overlays|]. intros [dt2 txs2] [G2 R2].
  apply wlp_bind. eapply wlp_mono; [apply (search_repainted si ss vi cursor off dt2)|]. intros [txs3 pos] R3.
  apply wlp_bind. eapply (wlp_mono _ (λ r, overlays si dt2 r.1)).
  { case_match; [|apply overlays_none]. apply wlp_bind. eapply wlp_mono; [apply ime_preview_overlays|].
    by intros [[dt4 txs4] popup]. }
  intros [[dt4 txs4] popup] [G4 R4]. apply wlp_bind. eapply (wlp_mono _ (overlays si dt4)).
  { case_match; [|apply overlays_none]. apply message_overlays. case_match; lia. }
  intros [dt5 txs5] [G5 R5].
  apply wlp_bind. eapply wlp_mono; [apply render_timer_overlays|]. intros [dt6 txs6] [G6 R6].
  apply wlp_bind. eapply (wlp_mono _ (overlays si dt6)).
  { case_match; [apply hyperlink_preview_overlays|apply overlays_none]. }
  intros [dt7 txs7] [G7 R7]. cbn [fst snd] in *.
  assert (G5' : grows dt5 dt7) by (etrans; [exact G6|exact G7]).
  assert (G4' : grows dt4 dt7) by (etrans; [exact G5|exact G5']).
  assert (G2' : grows dt2 dt7) by (etrans; [exact G4|exact G4']).
  split; cbn [fst snd]; [etrans; [exact G2|exact G2']|]. unfold repainted. rewrite !Forall_app.
  split_and!; [| | | | |exact R7]; (eapply repainted_grows; [|eassumption]); assumption.
Qed.

(** C17: nothing drawn is lost and nothing stays.  All damage the terminal reports is part of
    the damage a frame is shown with; every character that is drawn over the grid is
    damaged in this frame, so it appears, and in the next one, so it vanishes when it is
    not drawn again; afterwards the terminal has no damage left and the tracker collects
    that of the next frame. *)
Theorem overlays_are_repainted bright wayland cursor_hidden timing ime (e : E) window now vblank buffer hints ss d t s
    d' t' hints' s' pic t1 damage :
  collect_damage t = Ok (t1, damage) →
  draw dim_color to_bright to_dim low_contrast cfg fuel n width bright wayland cursor_hidden timing ime e window now
    vblank buffer hints ss d t s = Ok (d', t', hints', s', pic) →
  covered damage (pic_damage pic) ∧
  (∀ tx k, tx ∈ pic_texts pic → 0 ≤ k < zlen (dx_chars tx) →
    line (dx_point tx) < screen_lines (d_size d) → column (dx_point tx) + k < columns (d_size d) →
    damages (pic_damage pic) (line (dx_point tx)) (column (dx_point tx) + k) ∧
    damages (frame (d_tracker d')) (line (dx_point tx)) (column (dx_point tx) + k)) ∧
  t' = reset_damage t1 ∧
  next_frame (d_tracker d') = frame_reset (dt_screen_lines (d_tracker d')) (dt_columns (d_tracker d')).
Proof.
  intros Hd Hdraw.
  assert (G : wlp (draw dim_color to_bright to_dim low_contrast cfg fuel n width bright wayland cursor_hidden timing ime
    e window now vblank buffer hints ss d t s) (λ '(d', t', _, _, pic),
    covered damage (pic_damage pic) ∧
    (∃ dt, frame dt = pic_damage pic ∧ next_frame dt = frame (d_tracker d') ∧ repainted (d_size d) dt (pic_texts pic)) ∧
    t' = reset_damage t1 ∧
    next_frame (d_tracker d') = frame_reset (dt_screen_lines (d_tracker d')) (dt_columns (d_tracker d')))).
  - clear Hdraw. unfold draw. cbv zeta. apply wlp_bind, wlp_any. intros [content hints1].
    apply wlp_bind, wlp_any. intros [cells content1]. rewrite Hd. cbn [mbind exec_bind].
    apply wlp_bind, wlp_any. intros vi. apply wlp_bind. eapply wlp_mono; [apply frame_damage_covers|]. intros d1 Hc.
    apply wlp_bind. eapply (wlp_mono _ (λ r, covered damage (frame r.1))).
    { case_match; [|exact Hc]. eapply wlp_mono; [apply highlight_cells_more|]. intros r Hr. eapply covered_more; [exact Hr|exact Hc]. }
    intros [dt1 cells1] Hc1. apply wlp_bind, wlp_any. intros lines.
    apply wlp_bind. eapply wlp_mono; [apply draw_overlays_repainted|]. intros [[dt7 txs] popup] [Hg Hr].
    cbn [fst snd] in *.
    apply wlp_bind. eapply (wlp_mono _ (λ r, d_tracker r.1 = dt7)).
    { case_match; [done|]. apply (request_frame_tracker e window now vblank (upd_tracker dt7 d1) s). }
    intros [d2 s2] E2. cbn [fst] in E2. cbn [wlp mret exec_ret pic_damage pic_texts].
    split; [|split; [|split; [done|done]]].
    + eapply covered_more; [apply Hg|exact Hc1].
    + exists dt7. split; [done|]. split; [|done]. unfold upd_tracker, swap_damage. cbn. by rewrite E2.
  - rewrite Hdraw in G. destruct G as (Hc & (dt & Ef & En & Hr) & Ht & Hn). split_and!; try done.
    intros tx k Htx Hk Hl Hcol. rewrite <-Ef, <-En. by apply (proj1 (Forall_forall _ _) Hr tx Htx).
Qed.
End frame.

(** ** A search with a message and a preview of the input method *)

Definition searching : SearchState := mkSearchState Right (Some 0) 0 default_point None [[97]] None.
Definition composing : Ime := mkIme true (Some (mkPreedit [120] None None)).
Abbreviation demo_draw_frame :=
  (draw demo_dim (λ n, n) (λ n, n) (λ _ _, false) demo_draw 20 20 (λ _, Some 1) false false false (Some [49; 50]) composing
    tt 0 100 16000000 (MessageBar.mkBuffer [MessageBar.message_new [104; 105] MessageBar.Error]) (hints_new [])
    searching demo_display mode_term (mkScheduler [] [])).
Definition demo_shown : Display unit * Term * HintState * @Scheduler unit Z * Picture := Eval vm_compute in
  match demo_draw_frame with
  | Ok r => r
  | Panic _ => (demo_display, mode_term, hints_new [], mkScheduler [] [], mkPicture [] ∅ [] None (frame (d_tracker demo_display)))
  end.
Definition demo_damage : Term * TermDamage := Eval vm_compute in
  match collect_damage mode_term with Ok r => r | Panic _ => (mode_term, FullDamage) end.

(** Four texts are drawn; the second character of the line indicator is damaged. *)
Lemma overlays_are_repainted_witness :
  length (pic_texts demo_shown.2) = 4%nat ∧ damages (pic_damage demo_shown.2) 0 2.
Proof.
  assert (Ed : collect_damage mode_term = Ok (demo_damage.1, demo_damage.2))
    by (vm_cast_no_check (eq_refl (Ok demo_damage))).
  assert (E : demo_draw_frame = Ok (demo_shown.1.1.1.1, demo_shown.1.1.1.2, demo_shown.1.1.2, demo_shown.1.2, demo_shown.2))
    by (vm_cast_no_check (eq_refl (Ok demo_shown))).
  destruct (overlays_are_repainted _ _ _ _ _ _ _ _ _ _ _ _ _ _ _ _ _ _ _ _ _ _ _ _ _ _ _ _ _ _ Ed E) as (_ & Ht & _).
  split; [reflexivity|].
  apply (Ht (mkText (mkPoint 0 1) [91; 48; 47; 50; 93]) 1); [left|vm_compute; split; congruence|reflexivity|reflexivity].
Defined.
End DrawClaims.
