(* ===== verification/DispatchClaims.v ===== *)
(** * What windows do with events

    Queued events are handled together and in order, after which nothing is left to do but
    to draw; the answers of the terminal reach the program in it, in order. *)

From S2P Require Import Prelude Decimal Index Ansi GridCell Row Storage Cell Grid GridFacts GridOps Selection.
From S2P Require Import Resize Term TermFacts TermOps Handler Session Search RegexSearch ViMode Hints Scheduler.
From S2P Require Import EventLoop FrameDamage Shortener MessageBar Keyboard ActionContext DisplaySize DisplayState.
From S2P Require Import Bindings InputProcessor PointerInput ConfigFiles ColorList Overrides Dispatch.
From S2P Require Import Demo Witnesses ActionClaims InputClaims.
From stdpp Require Import gmap.
#[local] Open Scope Z_scope.

Module DispatchClaims.
Import Keyboard Scheduler FrameDamage ActionContext DisplaySize DisplayState Bindings InputProcessor PointerInput Dispatch.
Import ActionClaims InputClaims.

Section window.
Context `{Ansi} `{Outside}.
Context (window : Z) (compile : text → option RegexSearch) (fuel n : nat) (load : ClipboardType → text).
Context (str_to_lowercase : text → text) (to_lowercase : char → char) (to_text : NamedKey → option text).
Context (hypot : Z → Z → Z) (width : Z → option Z).
Implicit Types (w : WindowContext) (x : Ctx) (i : Input) (d : Display Font).

#[local] Abbreviation processor_event :=
  (Dispatch.processor_event window compile fuel n load str_to_lowercase to_lowercase to_text hypot width).
#[local] Abbreviation processor_events :=
  (Dispatch.processor_events window compile fuel n load str_to_lowercase to_lowercase to_text hypot width).
#[local] Abbreviation terminal_event := (Dispatch.terminal_event window load).
#[local] Abbreviation user_event := (Dispatch.user_event window fuel n load).
#[local] Abbreviation window_event :=
  (Dispatch.window_event window compile fuel n load str_to_lowercase to_lowercase to_text hypot width).

(** The display is read and written as a whole. *)
Lemma display_of_set_display d w : display_of (set_display d w) = d.
Proof. destruct d as [[] si [] r dt [] ft]. unfold display_of, set_display. simpl. by rewrite orb_diag. Qed.

(** ** Answers of the terminal *)

(** The colour that is reported: a changed one, or the configured one except for the
    cursor. *)
Definition reported_color w (index : Z) : option Rgb :=
  match zlookup (t_colors (w_term w)) index with
  | Some (Some c) => Some c
  | Some None => if index =? named_color_as_usize CursorColor then None else zlookup (wc_colors w) index
  | None => None
  end.

(** The bytes that an event of the terminal is answered with. *)
Definition reply w (e : Event) : list Z :=
  match e with
  | PtyWrite s => into_bytes s
  | ClipboardLoad ty f => if t_is_focused (w_term w) then into_bytes (f (load ty)) else []
  | ColorRequest i f => match reported_color w i with Some c => into_bytes (f c) | None => [] end
  | TextAreaSizeRequest f =>
      match f (size_to_window (r_size (wc_rest w))) with Ok s => into_bytes s | Panic _ => [] end
  | _ => []
  end.

(** What answers depend on stays as it is; the only effects are commands for the bell. *)
Record settled w w' : Prop := {
  se_term : w_term w' = w_term w;
  se_colors : wc_colors w' = wc_colors w;
  se_rest : wc_rest w' = wc_rest w;
  se_deltas : p_font_deltas (wc_pointer w') = p_font_deltas (wc_pointer w);
  se_effects : ∃ l, i_effects (w_input w') = i_effects (w_input w) ++ l ∧ Forall (λ e, ∃ p args, e = SpawnDaemon p args) l }.

Lemma settled_refl w : settled w w.
Proof. split; try done. exists []. by rewrite app_nil_r. Qed.

Lemma settled_ctx f w : x_term (f (w_ctx w)) = w_term w → settled w (upd_ctx f w).
Proof. intros Ht. split; try done. exists []. by rewrite app_nil_r. Qed.

Lemma settled_fonts w w' : settled w w' → settle_fonts w w' = w'.
Proof.
  intros [_ _ _ Hd (l & He & Hl)]. unfold settle_fonts. rewrite Hd, drop_all, He, drop_app_length. simpl.
  clear He. revert w' Hd. induction Hl as [|e l (p & args & ->) _ IH]; intros w' Hd; [done|]. simpl. by apply IH.
Qed.

Lemma blinking_frame cfg x :
  x_term (update_cursor_blinking cfg window x) = x_term x ∧
  x_channel (update_cursor_blinking cfg window x) = x_channel x.
Proof.
  unfold update_cursor_blinking, unschedule_timer, schedule_blinking_timeout, schedule_blinking, schedule_timer.
  repeat (case_match; simpl; auto).
Qed.

(** [notify] with the answer of an event. *)
Definition answered w (e : Event) w' : Prop :=
  settled w w' ∧ x_channel (w_ctx w') = EventLoop.notify (reply w e) (x_channel (w_ctx w)).

Lemma terminal_event_answers e w : wlp (terminal_event e w) (answered w e).
Proof.
  assert (Hw : ∀ bytes, settled w (w_write bytes w)) by (intros; by apply settled_ctx).
  destruct e; cbn [Dispatch.terminal_event].
  - apply wlp_bind. unfold reset_mouse_cursor. apply wlp_bind, wlp_any. intros icon. split; [|done].
    split; try done. exists []. by rewrite app_nil_r.
  - split; [|by case_match]. case_match; [|apply settled_refl]. split; try done. exists []. by rewrite app_nil_r.
  - split; [|by case_match]. case_match; [|apply settled_refl]. split; try done. exists []. by rewrite app_nil_r.
  - split; [|by case_match]. case_match; [by apply settled_ctx|apply settled_refl].
  - unfold answered, reply. simpl. case_match; [by split|]. split; [apply settled_refl|done].
  - unfold answered, reply, reported_color, vec_get. destruct (zlookup (t_colors _) index) as [[c|]|]; [| |done]; simpl.
    + by split.
    + case_match; [split; [apply settled_refl|done]|]. destruct (zlookup (wc_colors w) index); [by split|done].
  - by split.
  - unfold answered, reply. destruct (f _); [by split|done].
  - destruct (blinking_frame (c_ui (wc_config w)) (w_ctx w)) as [E1 E2]. split; [by apply settled_ctx|done].
  - split; [apply settled_refl|done].
  - split.
    + unfold ring_bell. repeat case_match; split; try done; try (by exists []; rewrite app_nil_r).
      all: eexists; split; [done|]; repeat constructor; eauto.
    + unfold ring_bell. by repeat case_match.
  - split; [apply settled_refl|done].
  - split; [apply settled_refl|done].
Qed.

Lemma processor_event_answers e w : wlp (processor_event (UserEvent (TerminalPayload e)) w) (answered w e).
Proof.
  unfold Dispatch.processor_event. apply wlp_bind. cbn [Dispatch.user_event].
  eapply wlp_mono; [apply terminal_event_answers|]. intros w' Ha. cbn [wlp mret exec_ret].
  rewrite settled_fonts by apply Ha. exact Ha.
Qed.

Lemma reply_settled w w' e : settled w w' → reply w' e = reply w e.
Proof. intros [Ht Hc Hr _ _]. unfold reply, reported_color. by rewrite Ht, Hc, Hr. Qed.

Lemma replies_in_order es w :
  wlp (processor_events ((λ e, UserEvent (TerminalPayload e)) <$> es) w) (λ w',
    x_channel (w_ctx w') = fold_left (λ ch b, EventLoop.notify b ch) (reply w <$> es) (x_channel (w_ctx w))).
Proof.
  revert w. induction es as [|e es IH]; intros w; [done|]. cbn [fmap list_fmap Dispatch.processor_events fold_left].
  apply wlp_bind. eapply wlp_mono; [apply processor_event_answers|]. intros w1 [Hs Hc].
  eapply wlp_mono; [apply IH|]. cbv beta. intros w2 ->. rewrite Hc.
  rewrite (list_fmap_ext (reply w1) (reply w) es); [done|]. intros k e' _. by apply reply_settled.
Qed.

(** C14: the answers of a terminal reach the program that runs in it.  Whatever events the
    terminal sent, once the window has handled them and the event loop has drained its
    channel and may write, the pseudo terminal has got exactly the answers, complete and
    in the order of the events: reports, colours, sizes, and clipboards while the window
    has the focus. *)
Theorem answers_reach_pty (writer : nat → list EventLoop.byte → EventLoop.io_write) es w w' :
  EventLoop.writer_ok writer → EventLoop.accepting writer → x_channel (w_ctx w) = [] →
  Forall (λ e, zlen (reply w e) ≤ isize_max) es →
  processor_events ((λ e, UserEvent (TerminalPayload e)) <$> es) w = Ok w' →
  ∃ r st sizes st',
    EventLoop.drain_recv_channel (EventLoop.mkReceiver (x_channel (w_ctx w')) None) EventLoop.state_default
      = Ok (true, r, st, sizes) ∧ EventLoop.rx r = [] ∧
    EventLoop.pty_write writer (S (length (EventLoop.queued st))) st = Ok (st', concat (reply w <$> es), true) ∧
    EventLoop.needs_write st' = false.
Proof.
  intros Hw Ha Hc Hes E. pose proof (replies_in_order es w) as Hr. rewrite E in Hr. simpl in Hr. rewrite Hr, Hc.
  apply EventLoop.input_reaches_pty; [done|done|]. by apply Forall_fmap.
Qed.

(** ** Batches *)

Context (font_cells : Font → Z * Z) (hint_eqb : HintMatch → HintMatch → bool).

#[local] Abbreviation handle_event :=
  (Dispatch.handle_event window compile fuel n load str_to_lowercase to_lowercase to_text hypot width font_cells
     hint_eqb).
#[local] Abbreviation finish_batch := (Dispatch.finish_batch fuel n width font_cells hint_eqb).

(** Handling an event queues no event. *)
Lemma queue_on_input f w : wlp (w_on_input f w) (λ w', wc_queue w' = wc_queue w).
Proof. apply wlp_bind. by apply wlp_any. Qed.
Lemma queue_on_ctx f w : wlp (w_on_ctx f w) (λ w', wc_queue w' = wc_queue w).
Proof. apply wlp_bind. by apply wlp_any. Qed.

Lemma queue_terminal_event e w : wlp (terminal_event e w) (λ w', wc_queue w' = wc_queue w).
Proof.
  destruct e; cbn [Dispatch.terminal_event]; try (by case_match); try done.
  - apply queue_on_input.
  - apply wlp_bind, wlp_any. intros [c|]; [done|]. case_match; [done|]. apply wlp_bind. by apply wlp_any.
  - apply wlp_bind. by apply wlp_any.
  - unfold ring_bell. by repeat case_match.
Qed.

Lemma queue_user_event p w : wlp (user_event p w) (λ w', wc_queue w' = wc_queue w).
Proof.
  destruct p as [e|[]|m]; cbn [Dispatch.user_event]; try done.
  - apply queue_terminal_event.
  - apply queue_on_ctx.
  - by case_match.
  - apply queue_on_ctx.
  - by case_match.
Qed.

Lemma queue_window_event e w : wlp (window_event e w) (λ w', wc_queue w' = wc_queue w).
Proof.
  destruct e; cbn [Dispatch.window_event]; try done; try apply queue_on_input; try apply queue_on_ctx;
    try (apply wlp_bind; by apply wlp_any).
  - by case_match.
  - case_match; [done|apply queue_on_input].
  - unfold focus_event. by repeat case_match.
  - by case_match.
  - apply wlp_bind. eapply wlp_mono; [apply queue_on_ctx|]. intros w' E. exact E.
  - unfold ime_preedit_event. apply wlp_bind, wlp_any. intros p. by case_match.
Qed.

Lemma queue_settle w w' : wc_queue (settle_fonts w w') = wc_queue w'.
Proof.
  unfold settle_fonts.
  assert (H1 : ∀ l w, wc_queue (foldl (λ w delta, change_font_size delta w) w l) = wc_queue w)
    by (induction l as [|a l IH]; intros v; simpl; [done|by rewrite IH]).
  assert (H2 : ∀ l w, wc_queue (foldl (λ w e, font_effect e w) w l) = wc_queue w)
    by (induction l as [|a l IH]; intros v; simpl; [done|rewrite IH; by destruct a]).
  by rewrite H2, H1.
Qed.

Lemma queue_events es w : wlp (processor_events es w) (λ w', wc_queue w' = wc_queue w).
Proof.
  revert w. induction es as [|e es IH]; intros w; [done|]. cbn [Dispatch.processor_events]. apply wlp_bind.
  eapply (wlp_mono _ (λ w', wc_queue w' = wc_queue w)).
  - unfold Dispatch.processor_event. apply wlp_bind. eapply (wlp_mono _ (λ w', wc_queue w' = wc_queue w)).
    + destruct e; [apply queue_user_event|apply queue_window_event|done].
    + intros w1 E1. cbn [wlp mret exec_ret]. by rewrite queue_settle.
  - intros w1 E1. eapply wlp_mono; [apply IH|]. cbv beta. intros w2 E2. congruence.
Qed.

(** An update of the display consumes what is pending, and hints do not add to it. *)
Lemma handle_update_pending cfg buffer d t ch ss :
  wlp (handle_update font_cells width cfg buffer d t ch ss) (λ '(d', _, _, _), d_pending d' = update_default).
Proof.
  unfold handle_update. cbv zeta. set (d0 := upd_pending update_default d).
  set (d1 := if _ || _ then renderer_clear_cache d0 else d0). set (d2 := if bool_decide _ then damage_all d1 else d1).
  apply wlp_bind, wlp_any. intros si. set (d3 := if cfg_resize_increments cfg then _ else d2).
  assert (E3 : d_pending d3 = update_default).
  { unfold d3, d2, d1. by destruct (cfg_resize_increments cfg), (bool_decide _), (_ || _). }
  apply wlp_bind. eapply (wlp_mono _ (λ r, d_pending r.1.1 = update_default)).
  - case_match; [|done]. apply wlp_bind, wlp_any. by intros t'.
  - intros [[d4 t4] ch4] E4. cbn [fst] in E4. destruct (negb _); exact E4.
Qed.

Lemma submit_pending cfg buffer d t ch ss b :
  wlp (submit_display_update font_cells width cfg buffer d t ch ss b) (λ '(d', _, _, _), d_pending d' = update_default).
Proof.
  unfold submit_display_update. do 2 (apply wlp_bind, wlp_any; intros ?). apply wlp_bind.
  eapply wlp_mono; [apply handle_update_pending|]. intros [[[d' t'] ch'] ss'] E.
  apply wlp_bind. by apply wlp_any.
Qed.

Lemma hints_pending at_point mods t ms inside bits d :
  wlp (update_highlighted_hints hint_eqb at_point mods t ms inside bits d) (λ r, d_pending r.1 = d_pending d).
Proof.
  unfold update_highlighted_hints. apply wlp_bind, wlp_any. intros vi. cbv zeta.
  set (d1 := if hint_differs _ _ _ then _ else _).
  assert (E1 : d_pending d1 = d_pending d) by (unfold d1; by case_match). clearbody d1.
  apply wlp_bind, wlp_any. intros empty. case_match; [by case_match|].
  apply wlp_bind, wlp_any. intros p. apply wlp_bind, wlp_any. intros hint.
  destruct hint, (hl_hint (d_highlights d1)); cbn [wlp mret exec_ret fst]; by case_match.
Qed.

(** What is left after a batch: no pending update and no outdated highlights, and if the
    window shows something else than before, a frame is requested. *)
Record batch_done (redraw : bool) w : Prop := {
  bd_pending : du_dirty (d_pending (display_of w)) = false;
  bd_hints : hint_highlight_dirty (x_mouse (w_ctx w)) = false;
  bd_redraw : redraw = false → x_dirty (w_ctx w) = true → r_has_frame (wc_rest w) = true → wc_occluded w = false →
    wc_requested_redraw w = true }.

Lemma finish_batch_done redraw searching w :
  wlp (finish_batch redraw searching w) (λ w', batch_done redraw w' ∧ wc_queue w' = wc_queue w).
Proof.
  unfold Dispatch.finish_batch. apply wlp_bind.
  eapply (wlp_mono _ (λ w1, du_dirty (d_pending (display_of w1)) = false ∧ wc_queue w1 = wc_queue w)).
  { destruct (du_dirty (d_pending (display_of w))) eqn:Ep; [|done]. apply wlp_bind. unfold w_submit_update. apply wlp_bind.
    eapply wlp_mono; [apply submit_pending|]. intros [[[d t] ch] ss] E. cbn [wlp mret exec_ret]. split; [|done].
    pose proof (f_equal d_pending (display_of_set_display d w)) as Ed. rewrite E in Ed. by apply (f_equal du_dirty) in Ed. }
  intros w1 [Hp Hq]. apply wlp_bind.
  eapply (wlp_mono _ (λ w2, du_dirty (d_pending (display_of w2)) = false ∧
    hint_highlight_dirty (x_mouse (w_ctx w2)) = false ∧ wc_queue w2 = wc_queue w)).
  { destruct (x_dirty (w_ctx w1) || hint_highlight_dirty (x_mouse (w_ctx w1))) eqn:Eb.
    - unfold w_update_hints. apply wlp_bind. eapply wlp_mono; [apply hints_pending|]. intros [d dirty] E.
      cbn [wlp mret exec_ret]. split; [|by split]. cbn [fst] in E.
      pose proof (f_equal d_pending (display_of_set_display d w1)) as Ed. rewrite E in Ed.
      apply (f_equal du_dirty) in Ed. by rewrite Hp in Ed.
    - apply orb_false_iff in Eb as [_ Eb]. by split_and!. }
  intros w2 (Hp2 & Hh & Hq2). cbn [wlp mret exec_ret]. destruct (_ && _) eqn:Eb.
  - unfold request_redraw. destruct (wc_requested_redraw w2) eqn:Er; (split; [by split|done]).
  - split; [|done]. split; [done|done|]. intros -> E1 E2 E3. by rewrite E1, E2, E3 in Eb.
Qed.

Lemma exec_bind_ret {A} (m : exec A) : (a ← m; mret a) = m.
Proof. by destruct m. Qed.

(** Events as they arrive. *)
Fixpoint deliver (es : list WinitEvent) w : exec WindowContext :=
  match es with [] => mret w | e :: es => w ← handle_event e w; deliver es w end.
Definition queued_event (e : WinitEvent) : bool :=
  match e with AboutToWait | FromWindow RedrawRequested => false | _ => true end.

Lemma deliver_queues es e w :
  Forall (λ e, queued_event e = true) es → deliver (es ++ [e]) w = deliver [e] (w_set_queue (wc_queue w ++ es) w).
Proof.
  intros Hes. revert w. induction Hes as [|e' es He _ IH]; intros w; [by rewrite app_nil_r; destruct w|].
  cbn [app deliver]. assert (handle_event e' w = Ok (w_set_queue (wc_queue w ++ [e']) w)) as ->.
  { unfold Dispatch.handle_event. destruct e' as [|[]|]; done. }
  cbn [mbind exec_bind]. rewrite IH. cbn [wc_queue w_set_queue]. by rewrite <-app_assoc.
Qed.

(** C13: events of a window are handled together, and completely.  Events that arrive
    between two waits have the same effect as handling them one after the other, in
    order, followed by one update of the display; then no event, no pending update and
    no outdated highlight is left, and if anything changed on a visible window that may
    draw, a new frame is requested. *)
Theorem events_are_batched es w :
  Forall (λ e, queued_event e = true) es → wc_queue w ++ es ≠ [] →
  let batch := w' ← processor_events (wc_queue w ++ es) (w_set_queue [] w);
               finish_batch false (search_active (w_ctx w)) w' in
  deliver (es ++ [AboutToWait]) w = batch ∧ wlp batch (λ w', wc_queue w' = [] ∧ batch_done false w').
Proof.
  intros Hes Hne batch. split.
  - rewrite deliver_queues by done. cbn [deliver]. unfold Dispatch.handle_event. cbn [wc_queue w_set_queue is_redraw].
    destruct (wc_queue w ++ es) as [|e0 q]; [done|]. apply exec_bind_ret.
  - apply wlp_bind. eapply wlp_mono; [apply queue_events|]. intros w1 Hq.
    eapply wlp_mono; [apply finish_batch_done|]. intros w2 [Hd Hq2]. split; [|done]. by rewrite Hq2, Hq.
Qed.
End window.

(** ** A window *)

#[local] Instance demo_outside : Outside := {|
  Family := unit; FontSize := Z; Scale := Z; Theme := unit; Value := Z;
  font_scale := Z.mul; scale_ratio := Z.div; px_rounded := λ s, s; from_px := λ s, s; scaled_px := Z.mul |}.

Definition demo_app : AppConfig :=
  mkAppConfig demo_ui (0, 0) false false true [65] None 100 false None 0 true 15 (mkFont tt 12) [] (t_config mode_term)
    default_key_bindings [] default_mouse_bindings [] 3 [] false.
Definition demo_wc : WindowContext :=
  mkWindowContext demo_app (mkPointer plain_input (0, 0) TouchNone false [])
    (mkRest true None demo_window update_default None 0 0 None (frame_timer_new 0))
    [65] false 1 12 false false ime_default (mkBell 0 None) None [] mods_empty false false [] [] [].

Definition demo_answer_calls : list call := [DeviceStatus 5; IdentifyTerminal None].
Definition demo_answers : list Event := Eval vm_compute in
  t_events (run_or fresh_term (handle_all demo_answer_calls (upd_events [] fresh_term))).

#[local] Abbreviation demo_events :=
  (processor_events 0 no_compile 10 10 (λ _, []) (λ s, s) (λ c, c) (λ _, None) Z.add (λ _, Some 1)).
#[local] Abbreviation demo_deliver :=
  (deliver 0 no_compile 10 10 (λ _, []) (λ s, s) (λ c, c) (λ _, None) Z.add (λ _, Some 1) (λ _, (10, 20))
     (λ _ _, true)).

Definition demo_answered : WindowContext := Eval vm_compute in
  match demo_events ((λ e, UserEvent (TerminalPayload e)) <$> demo_answers) demo_wc with Ok w => w | Panic _ => demo_wc end.

(** A status report and the attributes of the terminal, written two bytes at a time. *)
Lemma answers_reach_pty_witness :
  ∃ r st sizes st',
    EventLoop.drain_recv_channel (EventLoop.mkReceiver (x_channel (w_ctx demo_answered)) None) EventLoop.state_default
      = Ok (true, r, st, sizes) ∧
    EventLoop.pty_write EventLoop.two_at_a_time (S (length (EventLoop.queued st))) st
      = Ok (st', [27; 91; 48; 110; 27; 91; 63; 54; 99], true).
Proof.
  assert (E : demo_events ((λ e, UserEvent (TerminalPayload e)) <$> demo_answers) demo_wc = Ok demo_answered)
    by (vm_cast_no_check (eq_refl (Ok demo_answered))).
  destruct (answers_reach_pty 0 no_compile 10 10 (λ _, []) (λ s, s) (λ c, c) (λ _, None) Z.add (λ _, Some 1)
    EventLoop.two_at_a_time demo_answers demo_wc demo_answered) as (r & st & sizes & st' & Ed & _ & Ew & _).
  - apply EventLoop.two_at_a_time_ok.
  - apply EventLoop.two_at_a_time_ok.
  - reflexivity.
  - repeat constructor; vm_compute; discriminate.
  - exact E.
  - exists r, st, sizes, st'. split; [exact Ed|exact Ew].
Defined.

Definition demo_batch : list WinitEvent :=
  [FromWindow (Resized 80 60); FromWindow (Focused true); UserEvent (TerminalPayload (Title [66]))].
Definition demo_batched : WindowContext := Eval vm_compute in
  match demo_deliver (demo_batch ++ [AboutToWait]) demo_wc with Ok w => w | Panic _ => demo_wc end.

Lemma events_are_batched_witness :
  wc_queue demo_batched = [] ∧ batch_done false demo_batched ∧ wc_title demo_batched = [66] ∧
  columns (w_term demo_batched) = 8 ∧ wc_requested_redraw demo_batched = true.
Proof.
  destruct (events_are_batched 0 no_compile 10 10 (λ _, []) (λ s, s) (λ c, c) (λ _, None) Z.add (λ _, Some 1)
    (λ _, (10, 20)) (λ _ _, true) demo_batch demo_wc) as [E Hw].
  - repeat constructor.
  - discriminate.
  - assert (Ed : demo_deliver (demo_batch ++ [AboutToWait]) demo_wc = Ok demo_batched)
      by (vm_cast_no_check (eq_refl (Ok demo_batched))).
    rewrite <-E, Ed in Hw. destruct Hw as [Hq Hd]. split; [exact Hq|]. split; [exact Hd|].
    split; [reflexivity|]. split; [reflexivity|]. apply Hd; reflexivity.
Defined.
End DispatchClaims.
