(* ===== verification/AppClaims.v ===== *)
(** * Windows and configuration of the application

    A terminal that exits closes its window and nothing else; a new configuration reaches
    every window, with the overrides of each. *)

From S2P Require Import Prelude Decimal Index Ansi GridCell Row Storage Cell Grid Selection Term.
From S2P Require Import Handler Search RegexSearch ViMode HintLabels Hints Scheduler EventLoop FrameDamage Shortener.
From S2P Require Import MessageBar Keyboard ActionContext DisplaySize DisplayState Bindings InputProcessor PointerInput.
From S2P Require Import ConfigFiles ColorList Overrides Content RenderLines Draw Dispatch Monitor AppEvents.
From S2P Require Import Demo Witnesses ActionClaims InputClaims DispatchClaims.
From stdpp Require Import gmap.
From Stdlib Require Import QArith.
#[local] Open Scope Z_scope.

Module AppClaims.
Import Keyboard Scheduler FrameDamage ActionContext DisplaySize DisplayState Bindings InputProcessor PointerInput.
Import Content Draw Dispatch AppEvents ActionClaims InputClaims DispatchClaims.

Lemma last_element (D : gset Z) (id : Z) : id ∈ D → D ∖ {[id]} = ∅ ↔ D = {[id]}.
Proof.
  intros Hid. split; [|intros ->; set_solver]. intros He. apply set_eq. intros i. rewrite elem_of_singleton. split.
  - intros Hi. destruct (decide (i = id)); [done|]. exfalso. assert (i ∈ D ∖ {[id]}) as Hin by set_solver. rewrite He in Hin. set_solver.
  - by intros ->.
Qed.

Section app.
Context `{Ansi} `{Outside}.
Implicit Types (p : Processor) (w : WindowContext).

(** ** Operations on windows *)

(** An operation on several windows: the others stay, each of them is the result of the
    operation, and the configuration stays. *)
Definition each_spec (ids : list Z) (f : Z → WindowContext → exec WindowContext) p p' : Prop :=
  (∀ id, id ∉ ids → a_windows p' !! id = a_windows p !! id) ∧
  (∀ id, id ∈ ids →
    match a_windows p !! id with
    | Some w => ∃ now p1 w', f id (lend now p1 w) = Ok w' ∧ a_windows p' !! id = Some w'
    | None => a_windows p' !! id = None
    end) ∧
  a_config p' = a_config p.

Lemma on_window_spec now id f p :
  wlp (on_window now id f p) (λ p',
    (∀ id', id' ≠ id → a_windows p' !! id' = a_windows p !! id') ∧
    match a_windows p !! id with
    | Some w => ∃ w', f (lend now p w) = Ok w' ∧ a_windows p' !! id = Some w'
    | None => p' = p
    end ∧ a_config p' = a_config p).
Proof.
  unfold on_window. destruct (a_windows p !! id) as [w|] eqn:E; [|by split_and!].
  destruct (f (lend now p w)) as [w'|] eqn:Ef; [|done]. simpl. split_and!; [|exists w'; split; [done|]|done].
  - intros id' Hne. by rewrite lookup_insert_ne.
  - by rewrite lookup_insert_eq.
Qed.

Lemma on_each_spec now ids f p : NoDup ids → wlp (on_each now ids f p) (each_spec ids f p).
Proof.
  intros Hnd. revert p. induction Hnd as [|id ids Hid Hnd IH]; intros p.
  { split_and!; [done| |done]. intros id Hid. by apply elem_of_nil in Hid. }
  cbn [on_each]. apply wlp_bind. eapply wlp_mono; [apply on_window_spec|]. intros p1 (Ho & Hw & Hc).
  eapply wlp_mono; [apply IH|]. intros p2 (Ho2 & Hw2 & Hc2). split_and!; [| |congruence].
  - intros id' Hn. apply not_elem_of_cons in Hn as [Hne Hn]. by rewrite Ho2, Ho.
  - intros id' [->|Hin]%elem_of_cons.
    + rewrite Ho2 by done. destruct (a_windows p !! id) as [w|] eqn:E; [|by subst p1].
      destruct Hw as (w' & Ef & El). eauto.
    + specialize (Hw2 id' Hin). rewrite Ho in Hw2; [done|]. by intros ->.
Qed.

(** ** A new configuration *)

Context (replace : Value → AppConfig → AppConfig * bool).

(** The title: one that was given on the command line stays, and one that the terminal set
    stays while titles are dynamic. *)
Definition reloaded_title (old cfg : AppConfig) w : text :=
  if wc_preserve_title w then wc_title w
  else if c_dynamic_title cfg && negb (bool_decide (wc_title w = c_title old)) then wc_title w
  else c_title cfg.

(** What a window has after it got the configuration [cfg]. *)
Record reconfigured (cfg : AppConfig) w w' : Prop := {
  rc_override : ∃ errors, Overrides.override_config_rc replace (wc_window_config w) cfg
    = Ok (wc_config w', wc_window_config w', errors);
  rc_options : t_config (w_term w') = c_options (wc_config w');
  rc_title : wc_title w' = reloaded_title (wc_config w) (wc_config w') w;
  rc_queue : wc_queue w' = wc_queue w ++ [UserEvent (TerminalPayload CursorBlinkingChange)];
  rc_dirty : x_dirty (w_ctx w') = true;
  rc_font : c_font (wc_config w) ≠ c_font (wc_config w') →
    ∃ size, du_font (r_pending (wc_rest w')) = Some (with_size size (c_font (wc_config w'))) ∧ wc_font_size w' = size ∧
      (wc_font_size w ≠ font_scale (f_size (c_font (wc_config w))) (wc_scale w) → size = wc_font_size w) }.

Lemma set_options_config o t : wlp (Term.set_options o t) (λ t', t_config t' = o).
Proof.
  unfold Term.set_options. cbv zeta. apply wlp_bind. eapply (wlp_mono _ (λ t', t_config t' = o)).
  - case_match; apply wlp_bind; by apply wlp_any.
  - intros t' Ht. cbn [wlp mret exec_ret]. by case_match.
Qed.

Lemma update_font_spec old cfg w :
  let w' := update_font old cfg w in
  w_ctx w' = w_ctx w ∧ wc_title w' = wc_title w ∧ wc_queue w' = wc_queue w ∧ wc_config w' = wc_config w ∧
  wc_window_config w' = wc_window_config w ∧ wc_preserve_title w' = wc_preserve_title w ∧
  (c_font old ≠ c_font cfg →
    du_font (r_pending (wc_rest w')) = Some (with_size (wc_font_size w') (c_font cfg)) ∧
    (wc_font_size w ≠ font_scale (f_size (c_font old)) (wc_scale w) → wc_font_size w' = wc_font_size w)).
Proof.
  unfold update_font. case_bool_decide as Ef; [by split_and!|]. case_bool_decide as Es; by split_and!.
Qed.

Lemma update_config_spec cfg w : wlp (update_config replace cfg w) (reconfigured cfg w).
Proof.
  unfold update_config.
  destruct (Overrides.override_config_rc replace (wc_window_config w) cfg) as [[[cfg' os] es]|] eqn:Eo; [|done].
  cbn [mbind exec_bind]. unfold w_on_ctx, on_term. apply wlp_bind, wlp_bind, wlp_bind.
  eapply wlp_mono; [apply set_options_config|]. intros t Ht. cbn [wlp mret exec_ret].
  match goal with |- context [update_font _ _ ?v] => set (w1 := v) end.
  assert (E1 : wc_title w1 = wc_title w ∧ wc_queue w1 = wc_queue w ∧ wc_config w1 = cfg' ∧ wc_window_config w1 = os ∧
    wc_preserve_title w1 = wc_preserve_title w ∧ w_term w1 = t ∧ wc_font_size w1 = wc_font_size w ∧ wc_scale w1 = wc_scale w)
    by (unfold w1; case_match; by split_and!).
  clearbody w1. destruct E1 as (T1 & Q1 & C1 & O1 & P1 & M1 & F1 & S1).
  pose proof (update_font_spec (wc_config w) cfg' w1) as (X2 & T2 & Q2 & C2 & O2 & P2 & F2). cbv zeta in *.
  set (w2 := update_font (wc_config w) cfg' w1) in *. clearbody w2. unfold w_term in M1.
  match goal with |- context [if negb (wc_preserve_title ?v) && _ then _ else _] => set (w3 := v) end.
  assert (E3 : wc_title w3 = wc_title w ∧ wc_queue w3 = wc_queue w ∧ wc_config w3 = cfg' ∧ wc_window_config w3 = os ∧
    wc_preserve_title w3 = wc_preserve_title w ∧ w_term w3 = t ∧ r_pending (wc_rest w3) = r_pending (wc_rest w2) ∧
    wc_font_size w3 = wc_font_size w2).
  { unfold w3, w_term, w_ctx, w_input in *. case_match; simpl; split_and!; try congruence.
    change (x_term (i_ctx (p_input (wc_pointer w2))) = t). congruence. }
  clearbody w3. destruct E3 as (T3 & Q3 & C3 & O3 & P3 & M3 & R3 & F3). rewrite P3, T3.
  unfold w_term in M3. split.
  - exists es. by case_match; simpl; rewrite C3, O3.
  - case_match; (transitivity (t_config (x_term (w_ctx w3))); [reflexivity|]); rewrite M3, Ht; simpl; by rewrite C3.
  - unfold reloaded_title.
    destruct (wc_preserve_title w), (c_dynamic_title cfg') eqn:Ed, (bool_decide_reflect (wc_title w = c_title (wc_config w)));
      simpl; rewrite ?C3, ?T3, ?Ed; done.
  - by case_match; simpl; rewrite Q3.
  - by case_match.
  - intros Hf. case_match; simpl in *; rewrite C3 in *; destruct (F2 Hf) as [D2 D3]; rewrite F1, S1 in D3;
      (exists (wc_font_size w2); rewrite R3, F3; by split_and!).
Qed.

(** ** Events *)

Context (compile : text → option RegexSearch) (fuel n : nat) (load : ClipboardType → text).
Context (str_to_lowercase : text → text) (to_lowercase : char → char) (to_text : NamedKey → option text).
Context (hypot : Z → Z → Z) (width : Z → option Z) (font_cells : Font → Z * Z).
Context (hint_eqb : HintMatch → HintMatch → bool).
Context (from_toml : list Z → option Value) (hash_order : gmap Z WindowContext → list Z).
Context (open_window : AppConfig → list (list Z) → list (list Z * Value) → option (Z * WindowContext)).
Context (reload : list Z → option AppConfig).
Context (config_paths : AppConfig → list (list Z)) (path_le : relation (list Z)).
Context `{!∀ a b, Decision (path_le a b)} (hash : list (option (list Z)) → Z) (monitoring : bool).
Context (look : AppConfig → ColorList.Colors * Q) (bright : VisualBell → Z → bool) (timing : option (list char)).
Context (dim_color : Rgb → Rgb) (to_bright to_dim : NamedColor → NamedColor) (low_contrast : Rgb → Rgb → bool).
Context (wayland : bool) (vblank : Z).

#[local] Abbreviation app_user_event :=
  (AppEvents.app_user_event compile fuel n load str_to_lowercase to_lowercase to_text hypot width font_cells hint_eqb
     replace from_toml hash_order open_window reload config_paths path_le hash monitoring).
#[local] Abbreviation app_window_event :=
  (AppEvents.app_window_event compile fuel n load str_to_lowercase to_lowercase to_text hypot width font_cells hint_eqb
     look bright timing dim_color to_bright to_dim low_contrast wayland vblank).

(** Every window once, in some order. *)
Context (hash_order_all : ∀ ws, hash_order ws ≡ₚ elements (dom ws)).

Lemma hash_order_nodup ws : NoDup (hash_order ws).
Proof using hash_order_all. rewrite hash_order_all. apply NoDup_elements. Qed.
Lemma hash_order_elem ws id : id ∈ hash_order ws ↔ is_Some (ws !! id).
Proof using hash_order_all. by rewrite hash_order_all, elem_of_elements, elem_of_dom. Qed.

(** C15: a reloaded configuration reaches every window.  No window is opened or closed; each
    one gets the new configuration with its own overrides, its terminal the new options,
    its title follows the rule for titles, a font size that was changed by the user is
    kept, the blinking of its cursor is set up again and it is drawn again. *)
Theorem reload_reaches_windows (now : Z) (path : list Z) (window_id : option Z) cfg p p' :
  reload path = Some cfg → app_user_event now (ConfigReload path) window_id p = Ok p' →
  a_config p' = cfg ∧
  ∀ id, match a_windows p !! id with
        | Some w => ∃ i w', a_windows p' !! id = Some w' ∧ reconfigured cfg (set_input i w) w'
        | None => a_windows p' !! id = None
        end.
Proof using hash_order_all.
  intros Hr E. cbn [AppEvents.app_user_event] in E. unfold reload_config in E. rewrite Hr in E.
  pose proof (on_each_spec now (hash_order (a_windows p)) (λ _ w, mret (remove_config_messages w)) p
    (hash_order_nodup _)) as G1.
  destruct (on_each now _ _ p) as [p1|]; [|done]. destruct G1 as (Ho1 & Hw1 & Hc1). cbn [mbind exec_bind] in E.
  set (p2 := set_config cfg _ p1) in E.
  pose proof (on_each_spec now (hash_order (a_windows p2)) (λ _, update_config replace cfg) p2 (hash_order_nodup _)) as G2.
  rewrite E in G2. destruct G2 as (Ho2 & Hw2 & Hc2). split; [done|]. intros id.
  assert (E1 : match a_windows p !! id with
    | Some w => ∃ now p0, a_windows p1 !! id = Some (remove_config_messages (lend now p0 w))
    | None => a_windows p1 !! id = None end).
  { destruct (decide (id ∈ hash_order (a_windows p))) as [Hin|Hn].
    - specialize (Hw1 id Hin). destruct (a_windows p !! id); [|done]. destruct Hw1 as (now1 & p0 & w1 & [= <-] & Hl). eauto.
    - rewrite Ho1 by done. rewrite hash_order_elem in Hn. destruct (a_windows p !! id); [|done]. by destruct Hn. }
  destruct (a_windows p !! id) as [w|].
  - destruct E1 as (now1 & p0 & E1). specialize (Hw2 id ltac:(apply hash_order_elem; eexists; exact E1)).
    change (a_windows p2) with (a_windows p1) in Hw2. rewrite E1 in Hw2. destruct Hw2 as (now2 & p3 & w' & Eu & El).
    assert (∃ i, lend now2 p3 (remove_config_messages (lend now1 p0 w)) = set_input i w) as [i Ei].
    { unfold remove_config_messages. case_match; eexists; reflexivity. }
    exists i, w'. split; [done|]. pose proof (update_config_spec cfg (set_input i w)) as Hu.
    rewrite Ei in Eu. by rewrite Eu in Hu.
  - rewrite Ho2; [done|]. rewrite hash_order_elem. change (a_windows p2) with (a_windows p1). rewrite E1. by intros [? ?].
Qed.

(** C16: a terminal that exits closes its window, and only that.  Unless the window is held
    open, it is removed, none of its timers is left and all others are, its event loop is
    told to shut down, and the application exits if it was the last window and there is
    no daemon; events for it that are still under way change nothing. *)
Theorem exit_closes_window (now id : Z) p w :
  a_windows p !! id = Some w → wc_hold w = false →
  ∃ p', app_user_event now (WindowPayload (TerminalPayload Exit)) (Some id) p = Ok p' ∧
    (∀ id', a_windows p' !! id' = if decide (id' = id) then None else a_windows p !! id') ∧
    (∀ t, t ∈ timers (a_scheduler p') ↔ window_id (Scheduler.id t) ≠ id ∧ t ∈ timers (a_scheduler p)) ∧
    (∃ w', (id, w') ∈ a_closed p' ∧ w_term w' = w_term w ∧
      x_channel (w_ctx w') = x_channel (w_ctx w) ++ [EventLoop.Shutdown]) ∧
    a_exit p' = a_exit p || (bool_decide (dom (a_windows p) = {[id]}) && negb (a_daemon p)) ∧
    (∀ now e, app_window_event now id e p' = Ok p') ∧
    (∀ now payload, app_user_event now (WindowPayload payload) (Some id) p' = Ok p').
Proof using Type.
  clear hash_order_all. intros Hw Hh. cbn [AppEvents.app_user_event]. eexists. split; [done|]. unfold terminal_exit. rewrite Hw, Hh.
  set (ws := delete id (a_windows p)). set (p1 := set_scheduler _ _).
  set (p2 := if _ && _ then exit_loop p1 else p1).
  assert (Hn : a_windows (add_closed id (drop_window w) p2) !! id = None)
    by (unfold p2; case_match; apply lookup_delete_eq).
  split_and!.
  - intros id'. transitivity (ws !! id'); [unfold p2; by case_match|]. unfold ws. case_decide as Ed.
    + subst. apply lookup_delete_eq.
    + by apply lookup_delete_ne.
  - intros t. transitivity (t ∈ timers (unschedule_window id (a_scheduler p))); [unfold p2; by case_match|].
    unfold unschedule_window. cbn [timers]. by rewrite list_elem_of_filter.
  - exists (drop_window w). split_and!; [|done|done]. unfold p2. case_match; cbn [a_closed add_closed]; set_solver.
  - assert (Hd : bool_decide (ws = ∅) = bool_decide (dom (a_windows p) = {[id]})).
    { apply bool_decide_ext. unfold ws. rewrite <-(dom_empty_iff_L (delete id (a_windows p))), dom_delete_L.
      apply last_element, elem_of_dom. by rewrite Hw. }
    rewrite <-Hd. unfold p2. change (a_windows p1) with ws. change (a_daemon p1) with (a_daemon p).
    destruct (_ && _); [by rewrite orb_true_r|by rewrite orb_false_r].
  - intros now' e. unfold AppEvents.app_window_event, on_window. by rewrite Hn; case_match.
  - intros now' payload. destruct payload as [[]|[]|m]; cbn [AppEvents.app_user_event]; unfold on_window; by rewrite ?Hn.
Qed.
End app.

(** ** Two windows *)

#[local] Existing Instance demo_outside.

(** The second window has an override for its title. *)
Definition set_demo_title (v : Z) (cfg : AppConfig) : AppConfig * bool :=
  (mkAppConfig (c_ui cfg) (c_padding cfg) (c_dynamic_padding cfg) (c_resize_increments cfg) (c_dynamic_title cfg) [v]
     (c_theme cfg) (c_opacity cfg) (c_blur cfg) (c_bell_command cfg) (c_bell_duration cfg) (c_unfocused_hollow cfg)
     (c_thickness cfg) (c_font cfg) (c_alphabet cfg) (c_options cfg) (c_key_bindings cfg) (c_hint_bindings cfg)
     (c_mouse_bindings cfg) (c_hints cfg) (c_multiplier cfg) (c_colors cfg) (c_highlight_damage cfg), true).
Definition demo_wc2 : WindowContext := w_set_overrides [([116], 90)] demo_wc.
Definition demo_new_config : AppConfig := fst (set_demo_title 67 demo_app).
Definition demo_timer (id : Z) : @Timer TimerEvent Z :=
  mkTimer 50 (mkTimerEvent id BlinkCursorEvent) (mkTimerId BlinkCursor id) (Some 10).
Definition demo_processor : Processor :=
  mkProcessor (<[1 := demo_wc]> (<[2 := demo_wc2]> ∅)) (mkScheduler [demo_timer 1; demo_timer 2] []) [] demo_app [] true
    false false false [] [] None.

#[local] Abbreviation demo_user_event :=
  (app_user_event (H0 := demo_outside) no_compile 10 10 (λ _, []) (λ s, s) (λ c, c) (λ _, None) Z.add (λ _, Some 1) (λ _, (10, 20))
     (λ _ _, true) set_demo_title (λ _, None) (λ ws, elements (dom ws)) (λ _ _ _, None)
     (λ _, Some demo_new_config) (λ _, []) (λ _ _, True) (λ _, 0) true).

Lemma exit_closes_window_witness :
  ∃ p', demo_user_event 60 (WindowPayload (TerminalPayload Exit)) (Some 1) demo_processor = Ok p' ∧
    a_windows p' !! 1 = None ∧ a_windows p' !! 2 = Some demo_wc2 ∧ a_exit p' = false ∧
    demo_user_event 60 (WindowPayload (TerminalPayload Exit)) (Some 1) p' = Ok p'.
Proof.
  destruct (exit_closes_window (H0 := demo_outside) set_demo_title no_compile 10 10 (λ _, []) (λ s, s) (λ c, c) (λ _, None) Z.add (λ _, Some 1)
    (λ _, (10, 20)) (λ _ _, true) (λ _, None) (λ ws, elements (dom ws)) (λ _ _ _, None)
    (λ _, Some demo_new_config) (λ _, []) (λ _ _, True) (λ _, 0) true (λ _, (ColorList.colors_default, 1%Q)) (λ _ _, false) None
    (λ c, c) (λ n, n) (λ n, n) (λ _ _, false) false 16000000 60 1 demo_processor demo_wc)
    as (p' & E & Hw & _ & _ & He & _ & Hn).
  - reflexivity.
  - reflexivity.
  - exists p'. split; [exact E|]. rewrite (Hw 1), (Hw 2), He. split; [reflexivity|]. split; [reflexivity|].
    split; [vm_compute; reflexivity|]. apply Hn.
Defined.

Definition demo_reloaded : Processor := Eval vm_compute in
  match demo_user_event 60 (ConfigReload []) None demo_processor with Ok p => p | Panic _ => demo_processor end.

Lemma reload_reaches_windows_witness :
  demo_user_event 60 (ConfigReload []) None demo_processor = Ok demo_reloaded ∧
  ∃ i w', a_windows demo_reloaded !! 2 = Some w' ∧ reconfigured (H0 := demo_outside) set_demo_title demo_new_config (set_input i demo_wc2) w' ∧
    wc_title w' = [90].
Proof.
  assert (E : demo_user_event 60 (ConfigReload []) None demo_processor = Ok demo_reloaded)
    by (vm_cast_no_check (eq_refl (Ok demo_reloaded))).
  split; [exact E|].
  destruct (reload_reaches_windows (H0 := demo_outside) set_demo_title no_compile 10 10 (λ _, []) (λ s, s) (λ c, c) (λ _, None) Z.add
    (λ _, Some 1) (λ _, (10, 20)) (λ _ _, true) (λ _, None) (λ ws, elements (dom ws))
    (λ _ _ _, None) (λ _, Some demo_new_config) (λ _, []) (λ _ _, True) (λ _, 0) true ltac:(done) 60 [] None demo_new_config
    demo_processor demo_reloaded) as [_ Hw].
  - reflexivity.
  - exact E.
  - specialize (Hw 2). assert (a_windows demo_processor !! 2 = Some demo_wc2) as E2 by reflexivity. rewrite E2 in Hw.
    destruct Hw as (i & w' & El & Hr). exists i, w'. split; [exact El|]. split; [exact Hr|].
    assert (wc_title <$> a_windows demo_reloaded !! 2 = Some [90]) as Et by (vm_compute; reflexivity).
    rewrite El in Et. injection Et as Et. exact Et.
Defined.
End AppClaims.
