(* ===== verification/Findings.v ===== *)
(** * Where the code departs from its intention

    Runs of the model that show behaviour the comments of the source, or the
    specification of an escape sequence, do not intend.  Each example evaluates
    the code on a small terminal. *)

From S2P Require Import Prelude Index Ansi GridCell Row Storage Cell Grid GridFacts GridOps.
From S2P Require Import Resize Selection Term TermFacts TermOps Handler HandlerFacts HandlerEdit.
From S2P Require Import HandlerSafe Session HandlerClaims TermClaims Search ViMode.
From S2P Require Import Demo Witnesses.
#[local] Open Scope Z_scope.

(** The text of line [l] after a run, or the reason of its panic. *)
Definition text_after (m : exec Term) (l : Z) : exec (list char) :=
  t ← m; mret (line_text (t_grid t) l).

(** [delete_chars] with a count of at least the width also erases the cells left
    of the cursor: with the cursor behind the [a], [CSI 6 P] removes the [a]. *)
Example delete_chars_erases_left :
  text_after (Ok demo_top) 0 = Ok [97; 98; 20013; 32; 32; 32] ∧
  text_after (delete_chars 6 demo_top) 0 = Ok [32; 32; 32; 32; 32; 32].
Proof. split; vm_compute; reflexivity. Qed.

(** With the cursor on the second line, [clear_screen(Above)] keeps the first. *)
Example clear_above_keeps_first_line :
  term_cursor demo = mkPoint 1 1 ∧
  text_after (clear_screen ClearAbove demo) 0 = Ok [97; 98; 20013; 32; 32; 32].
Proof. split; vm_compute; reflexivity. Qed.

(** A full keyboard mode stack: [push_keyboard_mode] removes the oldest window
    title instead of the oldest keyboard mode, and panics if there is none. *)
Example push_keyboard_mode_panics :
  push_keyboard_mode 1 (upd_keyboard_mode_stack (replicate 4096 0) demo) = Panic PanicIndex.
Proof. vm_compute; reflexivity. Qed.

Example push_keyboard_mode_drops_title :
  match push_keyboard_mode 1 (upd_title_stack [Some [97]]
          (upd_keyboard_mode_stack (replicate 4096 0) demo)) with
  | Ok t => t_title_stack t = [] ∧ zlen (t_keyboard_mode_stack t) = 4097
  | Panic _ => False
  end.
Proof. vm_compute. split; reflexivity. Qed.

(** The display is scrolled to the top of the scrollback, and a region that does
    not start at the top of the screen scrolls: the display offset moves on
    although the scrollback does not grow, and the display iterator leaves the
    buffer. *)
Definition offset_run : exec Term :=
  t ← term_scroll_display Top demo_history;
  t ← set_scrolling_region 2 (Some 3) t;
  t ← goto 2 0 t;
  linefeed t.

Example scroll_region_offset :
  match offset_run with
  | Ok t => history_size t = 1 ∧ display_offset (t_grid t) = 2 ∧
      (it ← display_iter (t_grid t); iter_next (t_grid t) it) = Panic PanicAssert
  | Panic _ => False
  end.
Proof. vm_compute. split_and!; reflexivity. Qed.

(** [Row::grow] keeps [occ]: a row that was reset with a red background and then
    grown does not satisfy the invariant of [occ], and the next reset leaves the
    red cells in place. *)
Example grown_row_keeps_stale_cells :
  let red := with_bg (Named Red) default_cell in
  row_reset (row_grow (blank_row 2 red) 4) default_cell
    = Ok (mkRow [cell_from (Named Red); cell_from (Named Red); default_cell; default_cell] 0).
Proof. vm_compute; reflexivity. Qed.

(** In origin mode a horizontal movement moves the cursor down by the start of
    the scrolling region, because [goto_col] passes an absolute line to [goto]. *)
Definition origin_run : exec Term :=
  t ← set_scrolling_region 2 (Some 3) demo;
  t ← set_private_mode (PrivateNamed Origin) t;
  goto_col 4 t.

Example origin_column_moves_line :
  (t ← origin_run; mret (term_cursor t)) = Ok (mkPoint 2 4).
Proof. vm_compute; reflexivity. Qed.

(** A fullwidth character that does not fit on a line: with a selection that ends
    on the spacer in front of it, [line_to_string] appends the first character of
    the line above. *)
Definition wide_wrap : exec Term :=
  handle_all [Linefeed; CarriageReturn; Input 97; Input 98; Input 99; Input 100; Input 101;
    Input 20013] demo_top.

Example line_to_string_wrong_line :
  (t ← wide_wrap; line_to_string t 1 0 5 true) = Ok [97; 98; 99; 100; 101; 97] ∧
  (t ← wide_wrap; x ← grid_cell (t_grid t) (mkPoint 2 0); mret (c x)) = Ok 20013.
Proof. split; vm_compute; reflexivity. Qed.

(** On the topmost line the same access panics. *)
Example line_to_string_panics :
  (t ← handle_all [Input 97; Input 98; Input 99; Input 100; Input 101; Input 20013] fresh_term;
   line_to_string t 0 0 5 true) = Panic PanicAssert.
Proof. vm_compute; reflexivity. Qed.

(** Overwriting the second half of a fullwidth character blanks its first half,
    which the partial damage does not cover. *)
Definition half_run : exec (Term * TermDamage) :=
  t ← goto 0 3 demo;
  '(t, _) ← collect_damage t;
  t ← input 120 (reset_damage t);
  collect_damage t.

Example overwritten_half_not_damaged :
  match half_run with
  | Ok (t, PartialDamage items) =>
      line_text (t_grid t) 0 = [97; 98; 32; 120; 32; 32] ∧
      items = [mkBounds 0 3 4]
  | _ => False
  end.
Proof. vm_compute. split; reflexivity. Qed.

(** A wrap on the last line of the screen below the scrolling region marks it as
    wrapped; the vi mode cursor then moves right onto a line below the screen. *)
Definition wrap_bottom : exec Term :=
  t ← set_scrolling_region 1 (Some 2) demo;
  handle_all [Goto 2 5; Input 97; Input 98; Goto 2 5] t.

Example vi_right_leaves_screen :
  (t ← wrap_bottom; motion_target t (mkPoint 2 5) ViRight) = Ok (mkPoint 3 0).
Proof. vm_compute; reflexivity. Qed.

(** On a screen of one line without scrollback the middle of the screen is
    computed to be the line above it. *)
Example vi_middle_panics :
  (t ← term_new demo_config (mkTermSize 4 1) 0; motion_target t (mkPoint 0 0) ViMiddle)
    = Panic PanicAssert.
Proof. vm_compute; reflexivity. Qed.
